(* ===== verification/_CoqProject ===== *)
-Q . S2P
Prelude.v
Libc.v
Parser.v
Framebuffer.v
Dispatcher.v
Functions.v
Emulator.v
TerminalSpec.v
CursorSpec.v
ScreenSpec.v
Crypto.v
Block.v
Ocb.v
OcbSpec.v
OcbCode.v
OcbCall.v
OcbRun.v
Openssl.v
Connection.v
Receive.v
Fragment.v
Sync.v
Sender.v
SenderSpec.v
Transport.v
TransportSpec.v
Ssp.v
Display.v
DisplaySpec.v
Complete.v
Mirror.v
View.v
Draw.v
Control.v
Osc.v
Paint.v
PaintRow.v
PaintFrame.v
FrameSpec.v
Paintable.v
MirrorSpec.v
CompleteLaws.v
SspSpec.v
Overlay.v
OverlaySpec.v
OverlayDraw.v
OverlaySettle.v
OverlayEdit.v
Notification.v
NotificationSpec.v
Client.v
ClientSpec.v
ClientLoop.v
ClientAlone.v
Server.v
ServerSpec.v
ServerWait.v
Start.v
Launcher.v
Bootstrap.v
Kitty.v
BridgeClose.v
Render.v
BridgeInput.v
