(* ===== verification/Prelude.v ===== *)
(** * Verification of the terminal and synchronisation core of Tinyhack SSH

    Tinyhack SSH is an Android terminal; the part of it that carries protocol
    and terminal logic of its own is the mosh tree under src/mosh.  A mosh
    session keeps two objects in step over UDP: the client's stream of user
    input goes to the server, the server's terminal goes to the client.  The
    bridge between Java and the terminal library of the application is
    src/app/src/main/cpp/ghostty_jni.cpp.

    ** The program and its model

    - Host output: octets -> UTF-8 decoder -> escape-sequence state machine ->
      actions -> emulator (dispatcher, terminal functions, framebuffer).
      Libc.v (the C library's multibyte functions, a class), Parser.v
      (terminal/parser.cc, parserstate.cc and their headers), Framebuffer.v (terminal/terminalframebuffer.cc),
      Dispatcher.v (terminal/terminaldispatcher.cc), Functions.v
      (terminal/terminalfunctions.cc), Emulator.v (terminal/terminal.cc,
      terminaluserinput.cc, parseraction.cc, and Complete::act).
    - Datagrams: Crypto.v (crypto/: byte order, base64 keys, nonces, sessions;
      the cipher is the class [AE]), Connection.v (network/network.cc: packets,
      replay protection, roaming, round-trip estimates, port hopping),
      Fragment.v (network/transportfragment.cc, compressor.cc; protocol buffers and
      zlib are the class [TransportCodec]).
    - The cipher mode: Block.v (the 16-octet blocks of crypto/ocb_internal.cc as
      portable C, SSE2 and NEON define them, behind the class [BlockOps]), Ocb.v
      (the rest of ocb_internal.cc; AES is the class [BlockCipher]), Openssl.v
      (crypto/ocb_openssl.cc; OpenSSL is the class [EVP]).  OcbSpec.v defines
      the OCB of RFC 7253 and shows that it is an instance of [AE]; OcbCode.v,
      OcbCall.v and OcbRun.v lead from blocks over calls to whole contexts.
    - State synchronisation: Sync.v (the interface [SyncState] that the
      transport asks of an object, what an object promises as [SyncLaws] and
      [DiffDetermined], and the user's stream of statesync/user.cc as an
      instance; CompleteLaws.v proves the promises of the host's terminal),
      Sender.v (network/transportsender-impl.h), Transport.v
      (network/networktransport-impl.h).
    - Host to client: Display.v (terminal/terminaldisplay*.cc, the differences
      of two frames as control sequences, over the addresses of the row
      objects two frames may share), Complete.v (statesync/completeterminal.cc,
      differences of terminals and echo acknowledgements; the protocol buffers
      are the class [HostCodec]), Mirror.v (a client that applies the
      differences of a host's terminal, and runs on which it goes wrong).
    - Properties that need more than one component: TerminalSpec.v,
      CursorSpec.v, ScreenSpec.v, SenderSpec.v, TransportSpec.v, DisplaySpec.v,
      Receive.v (what a datagram does to a connection), Ssp.v, in which two
      transports of any objects run against each other, and SspSpec.v, in which
      they have the objects of the program: the user's stream and the host's
      terminal.
    - Drawing as interpreted by the emulator: View.v (what a terminal shows),
      Draw.v (text), Control.v (erasing, regions, scrolling) and Osc.v (titles,
      clipboard, hyperlinks) say what each sequence of the display does to it;
      Paint.v, PaintRow.v, PaintFrame.v and FrameSpec.v follow the display
      through a cell, a row, the rows and a frame; Paintable.v decides which
      frames they apply to; MirrorSpec.v composes them.
    - Local echo: Overlay.v and Notification.v (frontend/terminaloverlay.cc: the
      prediction engine, the notification bar, the title and their manager),
      with OverlaySpec.v (the engine's invariant), OverlayDraw.v (what
      predictions show), OverlaySettle.v (how they end), OverlayEdit.v (the
      line editor they imitate) and NotificationSpec.v.
    - The client: Client.v (frontend/stmclient.cc: the escape key and the
      handlers of the loop), ClientSpec.v, ClientLoop.v (how a client is set
      up, its loop and its end) and ClientAlone.v (a client without its server).
    - The server: Server.v (frontend/mosh-server.cc: the loop, over what the
      system calls of each iteration return; util/swrite.cc), ServerSpec.v (what
      an iteration does) and ServerWait.v (a server without its client).
    - Starting a session: Start.v (the arguments and the environment of
      mosh-client and mosh-server, util/locale_utils.cc, and what they use of the
      C library: the environment, getopt), Launcher.v (scripts/mosh-launcher.cc,
      which runs the server through ssh and then the client) and Bootstrap.v, in
      which the three programs meet; the remote shell is the class [RemoteShell].
    - The bridge (ghostty_jni.cpp, over what the terminal library returns):
      Kitty.v (images, their pixels and the cache of bitmaps), Render.v (the frame
      for the screen), BridgeClose.v (the thread that reads the pseudo-terminal
      and the closing of a session, as interleaved steps), BridgeInput.v (keys,
      pastes, prompts, the output of the last command).

    A class of the source is a record with the class's fields; a method is a
    function over it.  A method that can stop the process (a failed assertion,
    an index out of range, an operation C++ leaves undefined) runs in the monad
    [M] of this file, whose result is [Err] with the [fault]; a method that can
    throw runs in [X], whose value is the exception or the result.  Integers
    are [Z] with [u16], [u64], [i32] and the like where the code's type wraps;
    [double]s are IEEE binary64 of the Standard Library ([spec_float]).
    Octets are [Z].  What the environment decides (the frozen clock, sockets,
    the random source) is an argument of the operation.

    ** What the theorems show

    - Terminal (C1 to C7, C9): no octet string faults the terminal, which keeps its
      invariant (C1, C2); decoding UTF-8 gives back the characters (C3);
      the octets of a cursor sequence put the cursor where its numbers say (C4);
      renditions printed are read back (C5); scrolling, resizing and
      printing do to every cell what they should (C6, C7, C9).
    - Cipher (C8, C20, C31): a context computes the stateless OCB of RFC
      7253 whatever it was used for before (C8) and opens exactly what was
      sealed (C20); the implementations agree on bundled tags (C31).
    - Starting a session (C10, C19): the launcher's options reach the server,
      which starts a login shell in a UTF-8 locale or exits (C19), when the words
      it passes need no quoting; the client gets the server's key and port (C10).
    - Datagrams (C11, C12, C14 to C16, C21): messages round-trip (C11);
      decryption is total (C12); nonces never repeat (C14); what any datagram
      does to a connection (C15), nothing when it is not newer than one that was
      received before (C16); fragments reassemble in any order with
      repetitions (C21).
    - Synchronisation (C22 to C25): the sender never fails an assertion nor
      follows an iterator to an erased node (C22); in a session over a network
      that loses, delays, duplicates and reorders nothing faults, the host has a
      prefix of what was typed and the client shows one of the host's screens
      (C23), the last one when all has arrived (C24), and the user's events
      arrive in order, each once (C25).  The host's terminals are of the size
      both ends start with and paintable, and their titles tell their icon names
      apart; SspSpec.v has a run that fails without the last.
    - Display (C26, C28): a frame can always be drawn (C26); the echo
      acknowledgement is the greatest input frame registered at least 50 ms ago
      (C28).
    - Host to client (C30, C32): a terminal that interprets what the display
      wrote shows the frame (C30), so applying a difference reaches its target
      and a client follows a host through any output (C32), for frames of one
      size that the display can paint (Paintable.v decides which; Mirror.v has
      runs of others).
    - Local echo and the client (C33 to C40): the prediction engine never
      faults (C33); predictions give way to the host's screen (C35); they are
      those of a line editor (C36); every octet can be typed past the escape key
      (C38); what the user sees, for paintable frames (C40); a client that gets no answer runs on
      safely (C34) until it gives up (C37).
    - Server (C13, C29, C39): what an iteration does with the user's input and
      the host's output (C39); without the key nothing happens but that the host
      talks to its terminal (C13), until the server gives up (C29).
    - Bridge (C17, C18, C27): a frame is stored within its arrays and shows what
      the library has (C17); images are shown with live bitmaps and none leaks
      (C27), as long as they fit the cache; closing a session uses nothing that
      was freed, and what can keep it from ending (C18).

    ** Fuel and bounds

    Loops whose recursion is not structural take fuel, and lemmas show it is
    enough: the decoder loop gets one more than the octets in its buffer and
    every iteration consumes one ([utf8_input_safe]); parameters are split with
    one more than their length ([parse_segments_spec]); SGR gets the number of
    parameters, each iteration advances; a payload is split with its length
    ([split_payload_spec]), for which the MTU must exceed the fragment header.
    Running out is the fault [Undefined], which C1, C2, C21 and C22 exclude.
    The protocol theorems bound the number of operations by 2^64 - 1, because
    state numbers wrap there and that number marks the shutdown.  Messages of
    the cipher are shorter than 2^20 octets, for which its table of 16 L values
    is enough; the calls of a session are shorter than 2048.

    ** What is not modelled

    System calls, sockets' addresses beyond their octets, pseudo-terminals and
    child processes, the server's records for syslog and utmp; AES, OpenSSL, zlib, protocol buffers
    and the C library's tables, which are classes with laws and concrete
    instances; the blocks of the cipher on Altivec and in ARM assembler; of the
    bridge the start of a session, the callbacks into Java, resizing, scrolling,
    mouse events and selections, which hand their arguments to the library;
    diagnostics behind [verbose].  Rows are values: the sharing of unchanged
    rows between frames is an optimisation guarded by [get_mutable_row]; where
    the code compares the addresses of rows they are arguments. *)

From stdpp Require Export base option list list_numbers numbers strings sets.
From Stdlib Require Export ZArith Lia.

#[global] Open Scope Z_scope.

(** ** Record update

    [r <| f := v |>] is [r] with field [f] replaced; the setter is computed from
    the eta-expansion of the record type. *)
Class Eta (R : Type) := eta : R -> R.
Class Setter {R T : Type} (f : R -> T) := set_field : T -> R -> R.
#[global] Arguments set_field {R T} f {_} v r.

Ltac build_setter f :=
  match type of f with
  | ?R -> ?T =>
      let e := constr:(_ : Eta R) in
      let e := eval cbv delta [eta] in e in
      let e := eval hnf in e in
      match eval pattern f in e with
      | ?g _ => let s := constr:(fun (v : T) (r : R) => g (fun _ => v) r) in
                let s := eval cbv beta in s in exact s
      end
  end.
#[global] Hint Extern 1 (Setter ?f) => build_setter f : typeclass_instances.

Declare Scope record_scope.
#[global] Open Scope record_scope.
Notation "r <| f := v |>" := (set_field f v r)
  (at level 1, left associativity, format "r  <| f  :=  v |>") : record_scope.

(** ** Outcomes of C++ code

    A call either returns, or stops the process: a failed [assert] /
    [fatal_assert], an exception of [std::vector::at], or an operation the
    language leaves undefined (indexing or erasing outside a container). *)
Inductive fault : Type :=
| AssertFail
| OutOfRange
| Undefined.

Inductive result (E A : Type) : Type :=
| Ok (a : A)
| Err (e : E).
Arguments Ok {E A} a.
Arguments Err {E A} e.

#[export] Instance result_ret E : MRet (result E) := fun A => @Ok E A.
#[export] Instance result_bind E : MBind (result E) :=
  fun A B k m => match m with Ok a => k a | Err e => Err e end.

(** Stateful C++ methods: the receiver's fields are threaded explicitly. *)
Definition M (S A : Type) : Type := S -> result fault (A * S).

#[export] Instance M_ret S : MRet (M S) := fun A a s => Ok (a, s).
#[export] Instance M_bind S : MBind (M S) :=
  fun A B k m s =>
    match m s with
    | Ok (a, s') => k a s'
    | Err e => Err e
    end.

Definition get {S} : M S S := fun s => Ok (s, s).
Definition gets {S A} (f : S -> A) : M S A := fun s => Ok (f s, s).
Definition modify {S} (f : S -> S) : M S unit := fun s => Ok (tt, f s).
Definition fail {S A} (e : fault) : M S A := fun _ => Err e.
Definition lift {S A} (r : result fault A) : M S A :=
  fun s => match r with Ok a => Ok (a, s) | Err e => Err e end.
(** C's [assert]. *)
Definition assert_ {S} (b : bool) : M S unit :=
  if b then mret tt else fail AssertFail.
Definition when_ {S} (b : bool) (m : M S unit) : M S unit :=
  if b then m else mret tt.

(** Run a method of a sub-object: [get_]/[put_] are the field's accessors. *)
Definition zoom {S T A} (get_ : S -> T) (put_ : T -> S -> S) (m : M T A) : M S A :=
  fun s => match m (get_ s) with
           | Ok (a, t) => Ok (a, put_ t s)
           | Err e => Err e
           end.

(** [for (int i = from; i < from + n; i++) body(i)]. *)
Fixpoint for_n {S} (n : nat) (from : Z) (body : Z -> M S unit) : M S unit :=
  match n with
  | O => mret tt
  | S n' => body from ;; for_n n' (from + 1) body
  end.
(** [for (int i = lo; i < hi; i++) body(i)], the bound not changed by the body. *)
Definition for_range {S} (lo hi : Z) (body : Z -> M S unit) : M S unit :=
  for_n (Z.to_nat (hi - lo)) lo body.

(** ** Total-correctness triples

    [triple P m Q]: from a state in [P] the method returns (no fault), and the
    value and final state satisfy [Q]. *)
Definition triple {S A} (P : S -> Prop) (m : M S A) (Q : A -> S -> Prop) : Prop :=
  forall s, P s -> exists a s', m s = Ok (a, s') /\ Q a s'.

(** The method never faults from [P] and re-establishes it. *)
Abbreviation preserves P m := (triple P m (fun _ => P)).

Section triples.
Context {S : Type}.
Implicit Types (P : S -> Prop).

Lemma triple_ret {A} P (a : A) (Q : A -> S -> Prop) :
  (forall s, P s -> Q a s) -> triple P (mret a) Q.
Proof. intros H s Hs. exists a, s. split; [reflexivity|auto]. Qed.

Lemma triple_bind {A B} P (m : M S A) (k : A -> M S B) R Q :
  triple P m R -> (forall a, triple (R a) (k a) Q) -> triple P (m ≫= k) Q.
Proof.
  intros Hm Hk s Hs. destruct (Hm s Hs) as (a & s' & E & HR).
  destruct (Hk a s' HR) as (b & s'' & E' & HQ).
  exists b, s''. split; [|done]. unfold mbind, M_bind. by rewrite E, E'.
Qed.

Lemma triple_conseq {A} P P' (m : M S A) Q Q' :
  triple P' m Q' -> (forall s, P s -> P' s) ->
  (forall a s, Q' a s -> Q a s) -> triple P m Q.
Proof.
  intros Hm HP HQ s Hs. destruct (Hm s (HP s Hs)) as (a & s' & E & H).
  eauto 6.
Qed.

Lemma triple_gets {A} P (f : S -> A) :
  triple P (gets f) (fun a s => P s /\ a = f s).
Proof. intros s Hs. exists (f s), s. auto. Qed.

Lemma triple_modify P (f : S -> S) (Q : unit -> S -> Prop) :
  (forall s, P s -> Q tt (f s)) -> triple P (modify f) Q.
Proof. intros H s Hs. exists tt, (f s). auto. Qed.

Lemma triple_assert P b (Q : unit -> S -> Prop) :
  (forall s, P s -> b = true /\ Q tt s) -> triple P (assert_ b) Q.
Proof.
  intros H s Hs. destruct (H s Hs) as [-> HQ]. exists tt, s. split; done.
Qed.

Lemma triple_when P b m :
  (b = true -> preserves P m) -> preserves P (when_ b m).
Proof. destruct b; intros H; [by apply H|by apply triple_ret]. Qed.

Lemma triple_if {A} P (b : bool) (m1 m2 : M S A) Q :
  (b = true -> triple P m1 Q) -> (b = false -> triple P m2 Q) ->
  triple P (if b then m1 else m2) Q.
Proof. destruct b; auto. Qed.

Lemma triple_pure {A} (P : S -> Prop) (phi : Prop) (m : M S A) Q :
  (phi -> triple P m Q) -> triple (fun s => P s /\ phi) m Q.
Proof. intros H s [Hs Hp]. by apply H. Qed.

Lemma triple_for_n P n from body :
  (forall i, from <= i < from + Z.of_nat n -> preserves P (body i)) ->
  preserves P (for_n n from body).
Proof.
  revert from. induction n as [|n IH]; intros from H; cbn [for_n].
  - by apply triple_ret.
  - apply (triple_bind _ _ _ (fun _ => P)); [apply H; lia|].
    intros _. apply IH. intros i Hi. apply H. lia.
Qed.

Lemma triple_for_range P lo hi body :
  (forall i, lo <= i < hi -> preserves P (body i)) ->
  preserves P (for_range lo hi body).
Proof. intros H. apply triple_for_n. intros i Hi. apply H. lia. Qed.

Lemma triple_zoom {T A} (g : S -> T) (p : T -> S -> S) (m : M T A)
    P (PT : T -> Prop) Q (QT : A -> T -> Prop) :
  triple PT m QT -> (forall s, P s -> PT (g s)) ->
  (forall a t s, P s -> QT a t -> Q a (p t s)) ->
  triple P (zoom g p m) Q.
Proof.
  intros Hm HP HQ s Hs. destruct (Hm (g s) (HP s Hs)) as (a & t & E & H).
  exists a, (p t s). unfold zoom. rewrite E. eauto.
Qed.
End triples.

(** ** Fixed-width integers *)

Definition u8 (z : Z) : Z := z mod 2 ^ 8.
Definition u16 (z : Z) : Z := z mod 2 ^ 16.
Definition u32 (z : Z) : Z := z mod 2 ^ 32.
Definition u64 (z : Z) : Z := z mod 2 ^ 64.
(** Conversion of an unsigned 32-bit value to [int]. *)
Definition i32 (z : Z) : Z := (z + 2 ^ 31) mod 2 ^ 32 - 2 ^ 31.

Definition UINT64_MAX : Z := 2 ^ 64 - 1.
Definition UINT16_MAX : Z := 2 ^ 16 - 1.
Definition LONG_MAX : Z := 2 ^ 63 - 1.
Definition INT_MAX : Z := 2 ^ 31 - 1.

Definition is_u8 (z : Z) : Prop := 0 <= z < 256.
Definition is_u16 (z : Z) : Prop := 0 <= z < 2 ^ 16.
Definition is_u64 (z : Z) : Prop := 0 <= z < 2 ^ 64.

Lemma u8_range z : is_u8 (u8 z).
Proof. apply Z.mod_pos_bound. lia. Qed.
Lemma u16_range z : is_u16 (u16 z).
Proof. apply Z.mod_pos_bound. lia. Qed.
Lemma u64_range z : is_u64 (u64 z).
Proof. apply Z.mod_pos_bound. lia. Qed.
Lemma u8_id z : is_u8 z -> u8 z = z.
Proof. apply Z.mod_small. Qed.
Lemma u16_id z : is_u16 z -> u16 z = z.
Proof. apply Z.mod_small. Qed.
Lemma u64_id z : is_u64 z -> u64 z = z.
Proof. apply Z.mod_small. Qed.

(** *** Octets of a word *)

Lemma land_255 z : Z.land z 0xff = z mod 256.
Proof. change 0xff with (Z.ones 8). by rewrite Z.land_ones. Qed.

Lemma land_255_bits z n : 0 <= n -> Z.testbit (Z.land z 255) n = Z.testbit z n && (n <? 8).
Proof.
  intros Hn. change 255 with (Z.ones 8). rewrite Z.land_spec. f_equal.
  destruct (Z.ltb_spec n 8); [apply Z.ones_spec_low|apply Z.ones_spec_high]; lia.
Qed.

(** [( x << k ) | y] with [y] below the shifted bits. *)
Lemma lor_shiftl_add x y k :
  0 <= k -> 0 <= y < 2 ^ k -> Z.lor (Z.shiftl x k) y = x * 2 ^ k + y.
Proof.
  intros Hk Hy. assert (Hland : Z.land (Z.shiftl x k) y = 0).
  { apply Z.bits_inj'. intros n Hn. rewrite Z.land_spec, Z.bits_0.
    destruct (Z.lt_ge_cases n k).
    - by rewrite Z.shiftl_spec_low by done.
    - rewrite <- (Z.mod_small y (2 ^ k)) by done.
      by rewrite Z.mod_pow2_bits_high, andb_false_r by lia. }
  rewrite <- Z.lxor_lor, <- Z.add_nocarry_lxor by done. by rewrite Z.shiftl_mul_pow2.
Qed.

Lemma testbit_neg_false z n : n < 0 -> Z.testbit z n = false.
Proof. apply Z.testbit_neg_r. Qed.

Lemma i32_small z : 0 <= z < 2 ^ 31 -> i32 z = z.
Proof. intros. unfold i32. rewrite Z.mod_small; lia. Qed.

(** ** Containers *)

(** [std::vector::at]: bounds checked, the index converted to [size_t]. *)
Definition lookupZ {A} (l : list A) (i : Z) : option A :=
  if decide (0 <= i) then l !! Z.to_nat i else None.
Definition at_ {A} (l : list A) (i : Z) : result fault A :=
  match lookupZ l i with Some x => Ok x | None => Err OutOfRange end.
(** [operator[]] of a vector: undefined outside the container. *)
Definition index_ {A} (l : list A) (i : Z) : result fault A :=
  match lookupZ l i with Some x => Ok x | None => Err Undefined end.
Definition updateZ {A} (l : list A) (i : Z) (x : A) : list A :=
  if decide (0 <= i) then <[Z.to_nat i := x]> l else l.
Definition lenZ {A} (l : list A) : Z := Z.of_nat (length l).

(** [v.erase(v.begin() + start, v.begin() + start + n)]. *)
Definition erase_range {A} (start n : Z) (l : list A) : result fault (list A) :=
  if decide (0 <= start /\ 0 <= n /\ start + n <= lenZ l)
  then Ok (take (Z.to_nat start) l ++ drop (Z.to_nat (start + n)) l)
  else Err Undefined.
(** [v.insert(v.begin() + start, n, x)]. *)
Definition insert_range {A} (start n : Z) (x : A) (l : list A) : result fault (list A) :=
  if decide (0 <= start <= lenZ l /\ 0 <= n)
  then Ok (take (Z.to_nat start) l ++ replicate (Z.to_nat n) x ++ drop (Z.to_nat start) l)
  else Err Undefined.

Section containers.
Context {A : Type}.
Implicit Types l : list A.

Lemma lenZ_nonneg l : 0 <= lenZ l.
Proof. unfold lenZ. lia. Qed.

Lemma lookupZ_lt l i : 0 <= i < lenZ l -> exists x, lookupZ l i = Some x.
Proof.
  intros H. unfold lookupZ, lenZ in *. rewrite decide_True by lia.
  apply lookup_lt_is_Some. lia.
Qed.

Lemma lookupZ_Some_lt l i x : lookupZ l i = Some x -> 0 <= i < lenZ l.
Proof.
  unfold lookupZ, lenZ. case_decide; [|done]. intros Hi%lookup_lt_Some. lia.
Qed.

Lemma lookupZ_elem l i x : lookupZ l i = Some x -> x ∈ l.
Proof.
  unfold lookupZ. case_decide; [|done]. apply list_elem_of_lookup_2.
Qed.

Lemma lookupZ_Forall (P : A -> Prop) l i x :
  Forall P l -> lookupZ l i = Some x -> P x.
Proof. rewrite Forall_forall. intros H ?%lookupZ_elem. auto. Qed.

Lemma at_ok l i : 0 <= i < lenZ l -> exists x, at_ l i = Ok x /\ lookupZ l i = Some x.
Proof. intros [x E]%lookupZ_lt. exists x. unfold at_. by rewrite E. Qed.

Lemma at_inv l i x : at_ l i = Ok x -> lookupZ l i = Some x.
Proof. unfold at_. destruct (lookupZ l i); congruence. Qed.

Lemma lenZ_updateZ l i x : lenZ (updateZ l i x) = lenZ l.
Proof. unfold updateZ, lenZ. case_decide; [by rewrite length_insert|done]. Qed.

Lemma length_updateZ l i x : length (updateZ l i x) = length l.
Proof. unfold updateZ. case_decide; [by rewrite length_insert|done]. Qed.

Lemma Forall_updateZ (P : A -> Prop) l i x :
  Forall P l -> P x -> Forall P (updateZ l i x).
Proof. intros. unfold updateZ. case_decide; [by apply Forall_insert|done]. Qed.

Lemma lookupZ_updateZ_eq l i x :
  0 <= i < lenZ l -> lookupZ (updateZ l i x) i = Some x.
Proof.
  intros H. unfold lookupZ, updateZ, lenZ in *. rewrite !decide_True by lia.
  apply list_lookup_insert_eq. lia.
Qed.

Lemma lookupZ_updateZ_ne l i j x :
  i <> j -> lookupZ (updateZ l i x) j = lookupZ l j.
Proof.
  intros H. unfold lookupZ, updateZ. repeat case_decide; try done.
  apply list_lookup_insert_ne. lia.
Qed.

Lemma lenZ_app l1 l2 : lenZ (l1 ++ l2) = lenZ l1 + lenZ l2.
Proof. unfold lenZ. rewrite length_app. lia. Qed.

Lemma lenZ_replicate n (x : A) : 0 <= n -> lenZ (replicate (Z.to_nat n) x) = n.
Proof. unfold lenZ. rewrite length_replicate. lia. Qed.

Lemma lookupZ_app_l l1 l2 i : i < lenZ l1 -> lookupZ (l1 ++ l2) i = lookupZ l1 i.
Proof.
  unfold lookupZ, lenZ. intros. case_decide; [|done]. apply lookup_app_l. lia.
Qed.

Lemma lookupZ_app_r l1 l2 i :
  lenZ l1 <= i -> lookupZ (l1 ++ l2) i = lookupZ l2 (i - lenZ l1).
Proof.
  unfold lookupZ, lenZ. intros. rewrite !decide_True by lia.
  rewrite lookup_app_r by lia. f_equal. lia.
Qed.

Lemma lookupZ_take l n i : i < n -> lookupZ (take (Z.to_nat n) l) i = lookupZ l i.
Proof.
  unfold lookupZ. intros. case_decide; [|done]. apply lookup_take_lt. lia.
Qed.

Lemma lookupZ_drop l n i :
  0 <= n -> 0 <= i -> lookupZ (drop (Z.to_nat n) l) i = lookupZ l (n + i).
Proof.
  unfold lookupZ. intros. rewrite !decide_True by lia.
  rewrite lookup_drop. f_equal. lia.
Qed.

Lemma lenZ_take l n : 0 <= n <= lenZ l -> lenZ (take (Z.to_nat n) l) = n.
Proof. unfold lenZ. intros. rewrite length_take. lia. Qed.

Lemma lenZ_drop l n : 0 <= n <= lenZ l -> lenZ (drop (Z.to_nat n) l) = lenZ l - n.
Proof. unfold lenZ. intros. rewrite length_drop. lia. Qed.

Lemma lookupZ_replicate n (x : A) i :
  0 <= i < n -> lookupZ (replicate (Z.to_nat n) x) i = Some x.
Proof.
  unfold lookupZ. intros. rewrite decide_True by lia.
  apply lookup_replicate_2. lia.
Qed.

Lemma list_eq_lookupZ l1 l2 :
  (forall i, lookupZ l1 i = lookupZ l2 i) -> l1 = l2.
Proof.
  intros H. apply list_eq. intros i. specialize (H (Z.of_nat i)).
  unfold lookupZ in H. rewrite !decide_True in H by lia.
  by rewrite Nat2Z.id in H.
Qed.

Lemma erase_range_ok start n l :
  0 <= start -> 0 <= n -> start + n <= lenZ l ->
  exists l', erase_range start n l = Ok l' /\ lenZ l' = lenZ l - n /\
    (forall P, Forall P l -> Forall P l').
Proof.
  intros. unfold erase_range. rewrite decide_True by lia.
  eexists. split; [done|split].
  - rewrite lenZ_app, lenZ_take, lenZ_drop by lia. lia.
  - intros P HP. apply Forall_app. auto using Forall_take, Forall_drop.
Qed.

Lemma insert_range_ok start n (x : A) l :
  0 <= start <= lenZ l -> 0 <= n ->
  exists l', insert_range start n x l = Ok l' /\ lenZ l' = lenZ l + n /\
    (forall P : A -> Prop, Forall P l -> P x -> Forall P l').
Proof.
  intros. unfold insert_range. rewrite decide_True by lia.
  eexists. split; [done|split].
  - rewrite !lenZ_app, lenZ_take, lenZ_drop, lenZ_replicate by lia. lia.
  - intros P HP Hx. rewrite !Forall_app.
    auto using Forall_take, Forall_drop, Forall_replicate.
Qed.
End containers.

(** Exhaustive checks over a range of integers. *)
Lemma forall_range (P : Z -> bool) n :
  forallb P (seqZ 0 n) = true -> forall z, 0 <= z < n -> P z = true.
Proof.
  intros H z Hz. rewrite forallb_forall in H. apply H.
  apply list_elem_of_In, elem_of_seqZ. lia.
Qed.

(** ** Byte strings

    [std::string] is a list of octets (0..255), [std::wstring] and
    [std::vector<wchar_t>] lists of code points. *)
Abbreviation bytes := (list Z).

(** String literals of the source. *)
Fixpoint str (s : string) : bytes :=
  match s with
  | EmptyString => []
  | String a s' => Z.of_N (Ascii.N_of_ascii a) :: str s'
  end.
Definition chr (s : string) : Z := hd 0 (str s).

Abbreviation octets := (Forall is_u8).
(** A key, or a block of a cipher. *)
Definition octets16 (o : bytes) : Prop := length o = 16%nat /\ octets o.

(** [snprintf(buf, n, ...)] keeps at most [n - 1] octets. *)
Definition snprintf (n : nat) (s : bytes) : bytes := take (n - 1) s.

(** Decimal conversion of [%d] / [%u]. *)
Fixpoint dec_digits (fuel : nat) (z : Z) (acc : bytes) : bytes :=
  match fuel with
  | O => acc
  | S fuel' =>
      let acc' := (48 + z mod 10) :: acc in
      if z <? 10 then acc' else dec_digits fuel' (z / 10) acc'
  end.
Definition dec_nonneg (z : Z) : bytes := dec_digits (S (Z.to_nat (Z.log2 z))) z [].
Definition dec (z : Z) : bytes :=
  if z <? 0 then 45 :: dec_nonneg (- z) else dec_nonneg z.

Definition is_digit (c : Z) : bool := (48 <=? c) && (c <=? 57).
Definition is_space (c : Z) : bool := (c =? 32) || ((9 <=? c) && (c <=? 13)).

(** Longest run of digits: its value and what follows. *)
Fixpoint digits_value (acc : Z) (s : bytes) : Z * bytes :=
  match s with
  | c :: s' => if is_digit c then digits_value (acc * 10 + (c - 48)) s' else (acc, s)
  | [] => (acc, [])
  end.
Fixpoint skip_spaces (s : bytes) : bytes :=
  match s with
  | c :: s' => if is_space c then skip_spaces s' else s
  | [] => []
  end.

(** [strtol(s, &end, 10)] with a 64-bit [long]: the value, whether a
    conversion was performed ([end <> s]), the rest at [end], and whether
    [errno] became [ERANGE]. *)
Record strtol_result := Strtol {
  st_val : Z; st_converted : bool; st_end : bytes; st_erange : bool }.

Definition strtol (s : bytes) : strtol_result :=
  let s1 := skip_spaces s in
  let '(neg, s2) :=
    match s1 with
    | c :: t => if c =? 45 then (true, t) else if c =? 43 then (false, t) else (false, s1)
    | [] => (false, s1)
    end in
  match s2 with
  | c :: _ =>
      if is_digit c then
        let '(v, rest) := digits_value 0 s2 in
        let v := if neg then - v else v in
        if LONG_MAX <? v then Strtol LONG_MAX true rest true
        else if v <? - 2 ^ 63 then Strtol (- 2 ^ 63) true rest true
        else Strtol v true rest false
      else Strtol 0 false s false
  | [] => Strtol 0 false s false
  end.

Lemma digits_value_app acc ds rest :
  Forall (fun c => is_digit c = true) ds ->
  match rest with c :: _ => is_digit c = false | [] => True end ->
  digits_value acc (ds ++ rest) = (fst (digits_value acc ds), rest).
Proof.
  intros Hds Hrest. revert acc.
  induction Hds as [|c ds Hc _ IH]; intros acc; cbn.
  - destruct rest as [|c rest]; cbn; [done|]. by rewrite Hrest.
  - rewrite Hc. apply IH.
Qed.

Lemma digits_value_snoc acc ds d :
  Forall (fun c => is_digit c = true) ds ->
  digits_value acc (ds ++ [d]) = digits_value (fst (digits_value acc ds)) [d].
Proof.
  intros H. revert acc. induction H as [|c ds Hc _ IH]; intros acc; [done|].
  cbn [digits_value app fst]. rewrite Hc. apply IH.
Qed.

(** [dec_digits] prints its argument in front of the accumulator. *)
Lemma dec_digits_spec fuel z acc :
  0 <= z < 10 ^ Z.of_nat fuel ->
  exists ds, dec_digits fuel z acc = ds ++ acc /\ fst (digits_value 0 ds) = z /\
    Forall (fun c => is_digit c = true) ds /\ (0 < fuel -> ds <> [])%nat /\
    (length ds <= fuel)%nat.
Proof.
  revert z acc. induction fuel as [|fuel IH]; intros z acc Hz.
  - exists []. replace z with 0 by (cbn in Hz; lia). repeat split; auto; cbn; lia.
  - assert (Hd : is_digit (48 + z mod 10) = true).
    { pose proof (Z.mod_pos_bound z 10 eq_refl). unfold is_digit. lia. }
    cbn [dec_digits]. destruct (Z.ltb_spec z 10) as [Hlt|Hge].
    + rewrite (Z.mod_small z) in * by lia. exists [48 + z]. cbn [digits_value].
      rewrite Hd. cbn [fst]. repeat split; auto; [lia|cbn; lia].
    + destruct (IH (z / 10) ((48 + z mod 10) :: acc)) as (ds & E & Hv & Hf & Hne & Hl).
      { rewrite Nat2Z.inj_succ, Z.pow_succ_r in Hz by lia.
        split; [apply Z.div_pos; lia|apply Z.div_lt_upper_bound; lia]. }
      exists (ds ++ [48 + z mod 10]). rewrite E, <- app_assoc.
      assert (Hf' : Forall (fun c => is_digit c = true) [48 + z mod 10]) by auto.
      split; [done|]. split; [|split; [|split]].
      * replace (digits_value 0 (ds ++ [48 + z mod 10]))
          with (digits_value (fst (digits_value 0 ds)) [48 + z mod 10]).
        -- rewrite Hv. cbn [digits_value]. rewrite Hd. cbn [fst].
           pose proof (Z.div_mod z 10). lia.
        -- symmetry. by apply digits_value_snoc.
      * by apply Forall_app.
      * intros _ [? ?]%app_eq_nil. done.
      * rewrite length_app. cbn. lia.
Qed.

Lemma dec_nonneg_spec z :
  0 <= z ->
  fst (digits_value 0 (dec_nonneg z)) = z /\
  Forall (fun c => is_digit c = true) (dec_nonneg z) /\ dec_nonneg z <> [].
Proof.
  intros Hz. unfold dec_nonneg.
  destruct (dec_digits_spec (S (Z.to_nat (Z.log2 z))) z []) as (ds & E & Hv & Hf & Hne & _).
  - split; [done|]. rewrite Nat2Z.inj_succ, Z2Nat.id by apply Z.log2_nonneg.
    destruct (Z.eq_dec z 0) as [->|]; [cbn; lia|].
    apply Z.lt_le_trans with (2 ^ Z.succ (Z.log2 z)).
    + apply Z.log2_spec. lia.
    + apply Z.pow_le_mono_l. lia.
  - rewrite E, app_nil_r. split; [done|]. split; [done|]. apply Hne. lia.
Qed.

Lemma dec_nonneg_short z n :
  0 <= z < 10 ^ Z.of_nat n -> (0 < n)%nat -> (length (dec_nonneg z) <= n)%nat.
Proof.
  intros Hz Hn. unfold dec_nonneg.
  generalize (S (Z.to_nat (Z.log2 z))). intros fuel.
  assert (forall f z n acc, 0 <= z < 10 ^ Z.of_nat n -> (0 < n)%nat ->
    (length (dec_digits f z acc) <= n + length acc)%nat) as H.
  { clear. induction f as [|f IH]; intros z n acc Hz Hn; cbn [dec_digits]; [lia|].
    destruct (Z.ltb_spec z 10); [cbn [length]; lia|].
    destruct n as [|[|n]]; [lia|change (10 ^ Z.of_nat 1) with 10 in Hz; lia|].
    etransitivity; [apply (IH _ (S n))|cbn [length]; lia]; [|lia].
    rewrite (Nat2Z.inj_succ (S n)), Z.pow_succ_r in Hz by lia.
    split; [apply Z.div_pos; lia|apply Z.div_lt_upper_bound; lia]. }
  specialize (H fuel z n [] Hz Hn). cbn in H. lia.
Qed.

(** [strtol] reads back what [%d] printed, up to the next non-digit. *)
Lemma strtol_dec z rest :
  0 <= z <= LONG_MAX ->
  match rest with c :: _ => is_digit c = false | [] => True end ->
  strtol (dec z ++ rest) = Strtol z true rest false.
Proof.
  intros Hz Hrest. destruct (dec_nonneg_spec z) as (Hv & Hf & Hne); [lia|].
  unfold dec. rewrite (proj2 (Z.ltb_ge z 0)) by lia.
  destruct (dec_nonneg z) as [|c ds] eqn:E; [done|].
  pose proof Hf as [Hc _]%Forall_cons.
  unfold strtol. cbn [app].
  assert (Hsp : is_space c = false) by (unfold is_digit, is_space in *; lia).
  assert (Hm : (c =? 45) = false /\ (c =? 43) = false) by (unfold is_digit in Hc; lia).
  cbn [skip_spaces]. rewrite Hsp. destruct Hm as [-> ->]. rewrite Hc.
  change (c :: ds ++ rest) with ((c :: ds) ++ rest).
  rewrite digits_value_app by auto.
  rewrite Hv. destruct (Z.ltb_spec LONG_MAX z); [lia|].
  destruct (Z.ltb_spec z (- 2 ^ 63)); [lia|done].
Qed.

(** ** Triples over a fixed invariant

    Reading a field yields a value that satisfies what the invariant says of
    it; writes re-establish the invariant. *)
Lemma triple_bind_gets {S A B} (P : S -> Prop) (f : S -> A) (k : A -> M S B) Q (phi : A -> Prop) :
  (forall s, P s -> phi (f s)) -> (forall a, phi a -> triple P (k a) Q) ->
  triple P (gets f ≫= k) Q.
Proof.
  intros Hf Hk s Hs. unfold mbind, M_bind, gets. apply Hk; auto.
Qed.

Lemma triple_bind_lift {S A B} (P : S -> Prop) (r : result fault A) (k : A -> M S B) Q
    (phi : A -> Prop) :
  (exists a, r = Ok a /\ phi a) -> (forall a, phi a -> triple P (k a) Q) ->
  triple P (lift r ≫= k) Q.
Proof.
  intros (a & -> & Ha) Hk s Hs. unfold mbind, M_bind, lift. apply Hk; auto.
Qed.

Lemma triple_seq {S A B} (P : S -> Prop) (m : M S A) (k : A -> M S B) Q :
  preserves P m -> (forall a, triple P (k a) Q) -> triple P (m ≫= k) Q.
Proof. intros. by apply (triple_bind P m k (fun _ => P)). Qed.

Lemma preserves_ret {S A} (P : S -> Prop) (a : A) : preserves P (mret a).
Proof. by apply triple_ret. Qed.

Lemma preserves_modify {S} (P : S -> Prop) (f : S -> S) :
  (forall s, P s -> P (f s)) -> preserves P (modify f).
Proof. intros. by apply triple_modify. Qed.

(** Splits the sequenced statements of a method. *)
Ltac seq_steps :=
  repeat match goal with
         | |- triple _ (_ ≫= (fun _ : unit => _)) _ => apply triple_seq; [|intros []]
         end.

Create HintDb safe.
#[export] Hint Resolve preserves_ret : safe.

(** ** Running the monads *)

Lemma M_bind_Ok {S A B} (m : M S A) (k : A -> M S B) s a s' :
  m s = Ok (a, s') -> (m ≫= k) s = k a s'.
Proof. intros E. unfold mbind, M_bind. by rewrite E. Qed.

Lemma zoom_Ok {S T A} (g : S -> T) p (m : M T A) s a t :
  m (g s) = Ok (a, t) -> zoom g p m s = Ok (a, p t s).
Proof. intros E. unfold zoom. by rewrite E. Qed.

(** ** Exceptions

    [CryptoException] carries its [fatal] flag, [NetworkException] its [errno].
    Methods that can throw after changing state return the exception together
    with the state. *)
Inductive exn : Type :=
| CryptoException (fatal : bool)
| NetworkException (the_errno : Z).

Definition X (S A : Type) : Type := M S (result exn A).

#[export] Instance X_ret S : MRet (X S) := fun A a s => Ok (Ok a, s).
#[export] Instance X_bind S : MBind (X S) :=
  fun A B k m s =>
    match m s with
    | Ok (Ok a, s') => k a s'
    | Ok (Err e, s') => Ok (Err e, s')
    | Err f => Err f
    end.

Definition throw {S A} (e : exn) : X S A := fun s => Ok (Err e, s).
(** A method that does not throw. *)
Definition noexn {S A} (m : M S A) : X S A :=
  fun s => match m s with Ok (a, s') => Ok (Ok a, s') | Err f => Err f end.
(** [dos_assert]: illegal input of the counterparty. *)
Definition dos_assert {S} (b : bool) : X S unit :=
  if b then mret tt else throw (CryptoException false).

Lemma X_bind_Ok {S A B} (m : X S A) (k : A -> X S B) s a s' :
  m s = Ok (Ok a, s') -> (m ≫= k) s = k a s'.
Proof. intros E. unfold mbind, X_bind. by rewrite E. Qed.

Lemma X_bind_Err {S A B} (m : X S A) (k : A -> X S B) s e s' :
  m s = Ok (Err e, s') -> (m ≫= k) s = Ok (Err e, s').
Proof. intros E. unfold mbind, X_bind. by rewrite E. Qed.

Lemma X_bind_inv {S A B} (m : X S A) (k : A -> X S B) s b s' :
  (m ≫= k) s = Ok (Ok b, s') -> exists a s1, m s = Ok (Ok a, s1) /\ k a s1 = Ok (Ok b, s').
Proof. unfold mbind, X_bind. destruct (m s) as [[[a|] s1]|]; naive_solver. Qed.

Lemma noexn_inv {S A} (m : M S A) s r s' :
  noexn m s = Ok (r, s') -> exists a, r = Ok a /\ m s = Ok (a, s').
Proof. unfold noexn. destruct (m s) as [[a s1]|]; naive_solver. Qed.

(** Methods that may throw: [Q] describes the normal exits, [E] the state left
    behind by an exception. *)
Definition xtriple {S A} (P : S -> Prop) (m : X S A) (Q : A -> S -> Prop) (E : S -> Prop) : Prop :=
  forall s, P s -> exists r s', m s = Ok (r, s') /\ match r with Ok a => Q a s' | Err _ => E s' end.

Lemma xtriple_bind {S A B} (P : S -> Prop) (m : X S A) (k : A -> X S B) R Q E :
  xtriple P m R E -> (forall a, xtriple (R a) (k a) Q E) -> xtriple P (m ≫= k) Q E.
Proof.
  intros Hm Hk s Hs. destruct (Hm s Hs) as ([a|e] & s1 & E1 & H1); unfold mbind, X_bind; rewrite E1.
  - apply (Hk a s1 H1).
  - eauto.
Qed.

Lemma xtriple_noexn {S A} (P : S -> Prop) (m : M S A) Q E : triple P m Q -> xtriple P (noexn m) Q E.
Proof. intros Hm s Hs. destruct (Hm s Hs) as (a & s' & E1 & H1). exists (Ok a), s'. unfold noexn. by rewrite E1. Qed.

Lemma xtriple_ret {S A} (P : S -> Prop) (a : A) (Q : A -> S -> Prop) E :
  (forall s, P s -> Q a s) -> xtriple P (mret a) Q E.
Proof. intros HQ s Hs. exists (Ok a), s. auto. Qed.

Lemma xtriple_throw {S A} (P : S -> Prop) e (Q : A -> S -> Prop) (E : S -> Prop) :
  (forall s, P s -> E s) -> xtriple P (throw e) Q E.
Proof. intros HE s Hs. exists (Err e), s. auto. Qed.

Lemma xtriple_conseq {S A} (P P' : S -> Prop) (m : X S A) Q Q' (E E' : S -> Prop) :
  xtriple P' m Q' E' -> (forall s, P s -> P' s) -> (forall a s, Q' a s -> Q a s) ->
  (forall s, E' s -> E s) -> xtriple P m Q E.
Proof.
  intros Hm HP HQ HE s Hs. destruct (Hm s (HP s Hs)) as ([a|e] & s' & E1 & H1).
  - exists (Ok a), s'. auto.
  - exists (Err e), s'. auto.
Qed.

Lemma xtriple_get {S A} (P : S -> Prop) (k : S -> X S A) Q E :
  (forall s0, P s0 -> xtriple (fun s => s = s0) (k s0) Q E) -> xtriple P (noexn get ≫= k) Q E.
Proof. intros Hk s Hs. rewrite (X_bind_Ok _ _ s s s) by done. by apply (Hk s Hs s). Qed.

(** ** What calls do, when they return *)

Lemma bind_inv {S A B} (m : M S A) (k : A -> M S B) s x s' : (m ≫= k) s = Ok (x, s') -> exists a s1, m s = Ok (a, s1) /\ k a s1 = Ok (x, s').
Proof. unfold mbind, M_bind. destruct (m s) as [[a s1]|]; [|done]. eauto. Qed.
Lemma ret_inv {S A} (a x : A) (s s' : S) : (mret a : M S A) s = Ok (x, s') -> x = a /\ s' = s.
Proof. by intros [= <- <-]. Qed.
Lemma xbind_inv {S A B} (m : X S A) (k : A -> X S B) s r s' : (m ≫= k) s = Ok (r, s') ->
  (exists e, m s = Ok (Err e, s') /\ r = Err e) \/ (exists a s1, m s = Ok (Ok a, s1) /\ k a s1 = Ok (r, s')).
Proof. unfold mbind, X_bind. destruct (m s) as [[[a|e] s1]|]; [by eauto| |done]. intros [= <- <-]. eauto. Qed.
Lemma noexn_bind_inv {S A B} (m : M S A) (k : A -> X S B) s r s' : (noexn m ≫= k) s = Ok (r, s') -> exists a s1, m s = Ok (a, s1) /\ k a s1 = Ok (r, s').
Proof. unfold mbind, X_bind, noexn. destruct (m s) as [[a s1]|]; [|done]. eauto. Qed.
Lemma xret_inv {S A} (a : A) (s : S) r s' : (mret a : X S A) s = Ok (r, s') -> r = Ok a /\ s' = s.
Proof. by intros [= <- <-]. Qed.
Lemma lift_inv {S A} (r : result fault A) (s : S) x s' : lift r s = Ok (x, s') -> r = Ok x /\ s' = s.
Proof. unfold lift. destruct r; [|done]. by intros [= -> ->]. Qed.

(** However [m] ends, the states before and after are related. *)
Definition follows {S A} (R : S -> S -> Prop) (m : M S A) : Prop := forall s x s', m s = Ok (x, s') -> R s s'.

Section follows.
Context {S : Type} (R : S -> S -> Prop) `{!PreOrder R}.
Lemma follows_ret {A} (a : A) : follows R (mret a).
Proof. by intros s x s' [= _ <-]. Qed.
Lemma follows_xret {A} (a : A) : follows R (mret a : X S A).
Proof. by intros s x s' [= _ <-]. Qed.
Lemma follows_throw {A} e : follows R (throw e : X S A).
Proof. by intros s x s' [= _ <-]. Qed.
Lemma follows_get : follows R get.
Proof. by intros s x s' [= _ <-]. Qed.
Lemma follows_gets {A} (g : S -> A) : follows R (gets g).
Proof. by intros s x s' [= _ <-]. Qed.
Lemma follows_fail {A} e : follows R (fail e : M S A).
Proof. by intros s x s'. Qed.
Lemma follows_lift {A} (r : result fault A) : follows R (lift r).
Proof. by intros s x s' [_ ->]%lift_inv. Qed.
Lemma follows_modify g : (forall s, R s (g s)) -> follows R (modify g).
Proof. intros Hg s x s' [= _ <-]. apply Hg. Qed.
Lemma follows_if {A} (b : bool) (m1 m2 : M S A) : follows R m1 -> follows R m2 -> follows R (if b then m1 else m2).
Proof. by destruct b. Qed.
Lemma follows_when b (m : M S unit) : follows R m -> follows R (when_ b m).
Proof. intros Hm. apply follows_if; [done|apply follows_ret]. Qed.
Lemma follows_bind {A B} (m : M S A) (k : A -> M S B) : follows R m -> (forall a, follows R (k a)) -> follows R (m ≫= k).
Proof. intros Hm Hk s x s' (a & s1 & E1 & E2)%bind_inv. etransitivity; [exact (Hm _ _ _ E1)|exact (Hk _ _ _ _ E2)]. Qed.
Lemma follows_xbind {A B} (m : X S A) (k : A -> X S B) : follows R m -> (forall a, follows R (k a)) -> follows R (m ≫= k).
Proof.
  intros Hm Hk s x s' [(e & E & _)|(a & s1 & E1 & E2)]%xbind_inv; [exact (Hm _ _ _ E)|]. etransitivity; [exact (Hm _ _ _ E1)|exact (Hk _ _ _ _ E2)].
Qed.
Lemma follows_noexn {A} (m : M S A) : follows R m -> follows R (noexn m).
Proof. intros Hm s x s'. unfold noexn. destruct (m s) as [[a s1]|] eqn:E; [|done]. intros [= _ <-]. by apply (Hm _ _ _ E). Qed.
Lemma follows_zoom_in {T A} (Q : T -> T -> Prop) (g : S -> T) (p : T -> S -> S) (m : M T A) :
  (forall s t, Q (g s) t -> R s (p t s)) -> follows Q m -> follows R (zoom g p m).
Proof. intros Hp Hm s x s'. unfold zoom. destruct (m (g s)) as [[a t]|] eqn:E; [|done]. intros [= _ <-]. by apply Hp, (Hm _ _ _ E). Qed.
Lemma follows_zoom {T A} (g : S -> T) (p : T -> S -> S) (m : M T A) : (forall s t, R s (p t s)) -> follows R (zoom g p m).
Proof. intros Hp. apply (follows_zoom_in (fun _ _ => True)); [done|by intros s x s']. Qed.
Lemma follows_read {A} (k : S -> M S A) : (forall s x s', k s s = Ok (x, s') -> R s s') -> follows R (get ≫= k).
Proof. intros Hk s x s' (? & ? & [= <- <-] & E)%bind_inv. by apply (Hk _ x). Qed.
Lemma follows_xread {A} (k : S -> X S A) : (forall s x s', k s s = Ok (x, s') -> R s s') -> follows R (noexn get ≫= k).
Proof. intros Hk s x s' (? & ? & [= <- <-] & E)%noexn_bind_inv. by apply (Hk _ x). Qed.
End follows.

(** Follows the statements of a method; [tac] knows the calls. *)
Tactic Notation "follows_by" tactic3(tac) := repeat first
  [apply follows_ret; apply _|apply follows_xret; apply _|apply follows_throw; apply _|apply follows_get; apply _|apply follows_gets; apply _
  |apply follows_fail|apply follows_lift; apply _|tac|apply follows_modify; [done]|apply follows_noexn|apply follows_if
  |apply follows_xbind; [apply _| |intros ?]|apply follows_bind; [apply _| |intros ?]|progress cbv zeta].

(** A part of the state stays as it is. *)
#[export] Instance same_preorder {S T} (f : S -> T) : PreOrder (fun s s' => f s' = f s).
Proof. split; [done|]. intros s s1 s2 E1 E2. congruence. Qed.
Abbreviation keeps f := (follows (fun s s' => f s' = f s)).
Lemma keeps_zoom_in {S R T A} (f : S -> T) (h : R -> T) (g : S -> R) (p : R -> S -> S) (m : M R A) :
  (forall s, f s = h (g s)) -> (forall s r, g (p r s) = r) -> keeps h m -> keeps f (zoom g p m).
Proof. intros Hf Hp. apply follows_zoom_in. intros s r E. by rewrite !Hf, Hp. Qed.
(** A property holds on. *)
#[export] Instance stable_preorder {S} (P : S -> Prop) : PreOrder (fun s s' => P s -> P s').
Proof. split; [by intros s|]. intros s s1 s2. tauto. Qed.
Abbreviation stable P := (follows (fun s s' => P s -> P s')).

(** ** Filters *)

Lemma filter_all {A} (P : A -> Prop) `{!forall x, Decision (P x)} l : Forall P l -> filter P l = l.
Proof. induction 1; [done|]. by rewrite filter_cons_True, IHForall. Qed.
Lemma filter_none {A} (P : A -> Prop) `{!forall x, Decision (P x)} l : Forall (fun x => ~ P x) l -> filter P l = [].
Proof. induction 1; [done|]. by rewrite filter_cons_False, IHForall. Qed.
