(* ===== verification/Libc.v ===== *)
(** * The multibyte functions of the C library

    The terminal decodes host output with [mbrtowc], measures characters with
    [wcwidth] and encodes them with [wcrtomb], in a UTF-8 locale.  [wcrtomb] on
    Unicode scalar values is fixed by UTF-8 itself.  C libraries differ on
    ill-formed input ([mbrtowc] may reject an overlong sequence early or late)
    and in their width tables, so these two are the operations of a class, with
    the behaviour POSIX documents as its laws; [Utf8Libc] is a concrete
    instance. *)
From S2P Require Export Prelude.

(** What [mbrtowc(&pwc, s, n, &ps)] returns from the initial shift state:
    [0] (a NUL was decoded), [(size_t)-1] with [EILSEQ], [(size_t)-2]
    (incomplete), or the number of octets of the character decoded. *)
Inductive mb_result : Type :=
| MbNul
| MbInvalid
| MbIncomplete
| MbChar (n : nat) (wc : Z).

Definition is_surrogate (c : Z) : bool := (0xD800 <=? c) && (c <=? 0xDFFF).
(** Unicode scalar values. *)
Definition is_scalar (c : Z) : bool := (0 <=? c) && (c <=? 0x10FFFF) && negb (is_surrogate c).

(** [wcrtomb(tmp, c, &ps)]: the octets stored, [None] for [(size_t)-1]. *)
Definition wcrtomb (c : Z) : option bytes :=
  if negb (is_scalar c) then None
  else if c <? 0x80 then Some [c]
  else if c <? 0x800 then Some [0xC0 + c / 64; 0x80 + c mod 64]
  else if c <? 0x10000 then
    Some [0xE0 + c / 4096; 0x80 + c / 64 mod 64; 0x80 + c mod 64]
  else Some [0xF0 + c / 262144; 0x80 + c / 4096 mod 64; 0x80 + c / 64 mod 64; 0x80 + c mod 64].

Class Libc : Type := {
  mbrtowc : bytes -> mb_result;
  MB_CUR_MAX : nat;
  wcwidth : Z -> Z;
}.

Class LibcLaws `{Libc} : Prop := {
  (** A character uses at least one of the octets offered, and no more. *)
  mb_char_len s n wc : mbrtowc s = MbChar n wc -> (1 <= n <= length s)%nat;
  (** [wchar_t] has 32 bits. *)
  mb_char_range s n wc : mbrtowc s = MbChar n wc -> 0 <= wc < 2 ^ 32;
  (** The result depends only on the octets of the character. *)
  mb_char_local s n wc k :
    mbrtowc s = MbChar n wc -> (n <= k)%nat -> mbrtowc (take k s) = MbChar n wc;
  (** A NUL is the octet 0, and is complete by itself. *)
  mb_nul s : mbrtowc s = MbNul <-> head s = Some 0;
  (** An incomplete character is shorter than the longest one. *)
  mb_incomplete_len s : mbrtowc s = MbIncomplete -> (length s < MB_CUR_MAX)%nat;
  (** UTF-8 locale: what [wcrtomb] stores is decoded, its prefixes are incomplete. *)
  mb_encoded c s : c <> 0 -> wcrtomb c = Some s -> mbrtowc s = MbChar (length s) c;
  mb_encoded_prefix c s k :
    wcrtomb c = Some s -> (0 < k < length s)%nat -> mbrtowc (take k s) = MbIncomplete;
  (** [wcwidth] returns -1 or a number of columns. *)
  wcwidth_range c : -1 <= wcwidth c <= 2;
}.

Lemma wcrtomb_scalar c : is_scalar c = true -> exists s, wcrtomb c = Some s /\ s <> [].
Proof.
  intros H. unfold wcrtomb. rewrite H. cbn [negb].
  repeat case_match; eexists; split; done.
Qed.

Lemma wcrtomb_bytes c s : wcrtomb c = Some s -> Forall is_u8 s.
Proof.
  unfold wcrtomb, is_scalar, is_surrogate.
  pose proof (Z.mod_pos_bound c 64 eq_refl).
  pose proof (Z.mod_pos_bound (c / 64) 64 eq_refl).
  pose proof (Z.mod_pos_bound (c / 4096) 64 eq_refl).
  repeat case_match; intros [= <-]; repeat constructor; unfold is_u8 in *;
    (Z.to_euclidean_division_equations; lia).
Qed.

(** ** A concrete UTF-8 locale *)

Inductive cont_result := ContDone (v : Z) | ContMore | ContBad.

(** The [n] continuation octets that follow a lead octet. *)
Fixpoint continuation (n : nat) (acc : Z) (s : bytes) : cont_result :=
  match n with
  | O => ContDone acc
  | S n' =>
      match s with
      | [] => ContMore
      | c :: s' =>
          if (128 <=? c) && (c <? 192) then continuation n' (acc * 64 + (c - 128)) s'
          else ContBad
      end
  end.

(** Lead octet: number of continuation octets, payload, least value allowed. *)
Definition utf8_lead (b : Z) : option (nat * Z * Z) :=
  if (0 <? b) && (b <? 128) then Some (0%nat, b, 1)
  else if (192 <=? b) && (b <? 224) then Some (1%nat, b - 192, 0x80)
  else if (224 <=? b) && (b <? 240) then Some (2%nat, b - 224, 0x800)
  else if (240 <=? b) && (b <? 248) then Some (3%nat, b - 240, 0x10000)
  else None.

Definition utf8_mbrtowc (s : bytes) : mb_result :=
  match s with
  | [] => MbIncomplete
  | b :: t =>
      if b =? 0 then MbNul else
      match utf8_lead b with
      | None => MbInvalid
      | Some (n, payload, low) =>
          match continuation n payload t with
          | ContMore => MbIncomplete
          | ContBad => MbInvalid
          | ContDone v => if (low <=? v) && is_scalar v then MbChar (S n) v else MbInvalid
          end
      end
  end.

(** A small width table: controls, combining marks, CJK, everything else. *)
Definition simple_wcwidth (c : Z) : Z :=
  if (c <? 32) || ((127 <=? c) && (c <? 160)) then -1
  else if (0x300 <=? c) && (c <=? 0x36F) then 0
  else if ((0x1100 <=? c) && (c <=? 0x115F)) || ((0x2E80 <=? c) && (c <=? 0xA4CF))
       || ((0xAC00 <=? c) && (c <=? 0xD7A3)) then 2
  else 1.

#[export] Instance Utf8Libc : Libc := {|
  mbrtowc := utf8_mbrtowc;
  MB_CUR_MAX := 4;
  wcwidth := simple_wcwidth;
|}.

Lemma continuation_done n acc s v :
  continuation n acc s = ContDone v ->
  (n <= length s)%nat /\ forall k, (n <= k)%nat -> continuation n acc (take k s) = ContDone v.
Proof.
  revert acc s. induction n as [|n IH]; intros acc s E; cbn in *.
  - split; [lia|done].
  - destruct s as [|c s]; [done|]. destruct (_ && _) eqn:Ec; [|done].
    destruct (IH _ _ E) as [Hl Hk]. split; [cbn; lia|].
    intros [|k] Hle; [lia|]. cbn. rewrite Ec. apply Hk. lia.
Qed.

Lemma continuation_more n acc s : continuation n acc s = ContMore -> (length s < n)%nat.
Proof.
  revert acc s. induction n as [|n IH]; intros acc [|c s] E; cbn in *; try done; [lia|].
  destruct (_ && _); [|done]. apply IH in E. lia.
Qed.

Lemma utf8_lead_len b n p l : utf8_lead b = Some (n, p, l) -> (n < 4)%nat.
Proof. unfold utf8_lead. repeat case_match; intros [= <- <- <-]; lia. Qed.

Lemma utf8_mbrtowc_char s n wc :
  utf8_mbrtowc s = MbChar n wc ->
  (1 <= n <= length s)%nat /\ is_scalar wc = true /\
  forall k, (n <= k)%nat -> utf8_mbrtowc (take k s) = MbChar n wc.
Proof.
  destruct s as [|b t]; cbn; [done|].
  destruct (b =? 0) eqn:Eb; [done|].
  destruct (utf8_lead b) as [[[m p] l]|] eqn:El; [|done].
  destruct (continuation m p t) as [v| |] eqn:Ec; try done.
  destruct (_ && is_scalar v) eqn:Ev; [|done]. intros [= <- <-].
  apply continuation_done in Ec as [Hl Hk]. split; [lia|].
  apply andb_true_iff in Ev as Ev'. split; [tauto|].
  intros [|k] Hle; [lia|]. cbn. rewrite Eb, El, Hk by lia. by rewrite Ev.
Qed.

#[local] Ltac finish := first
    [ done | lia | unfold is_scalar, is_surrogate; lia | repeat f_equal; lia
    | repeat (apply Forall_cons; split); first [lia | by apply Forall_nil] ].

Lemma wcrtomb_cases c s :
  wcrtomb c = Some s -> c <> 0 ->
  exists b t n p l, s = b :: t /\ utf8_lead b = Some (n, p, l) /\ length t = n /\
    b <> 0 /\ continuation n p t = ContDone c /\ l <= c /\ is_scalar c = true /\
    Forall (fun x => 128 <= x < 192) t.
Proof.
  unfold wcrtomb. destruct (is_scalar c) eqn:Es; cbn [negb]; [|done]. intros H Hc.
  unfold is_scalar, is_surrogate in Es.
  pose proof (Z.mod_pos_bound c 64 eq_refl).
  pose proof (Z.mod_pos_bound (c / 64) 64 eq_refl).
  pose proof (Z.mod_pos_bound (c / 4096) 64 eq_refl).
  pose proof (Z.div_mod c 64). pose proof (Z.div_mod (c / 64) 64).
  pose proof (Z.div_mod (c / 4096) 64).
  rewrite Z.div_div in * by lia. change (64 * 64) with 4096 in *.
  change (4096 * 64) with 262144 in *.
  destruct (c <? 0x80) eqn:E1; [|destruct (c <? 0x800) eqn:E2;
    [|destruct (c <? 0x10000) eqn:E3]]; injection H as <-.
  - exists c, [], 0%nat, c, 1. unfold utf8_lead. rewrite (proj2 (andb_true_iff _ _)) by lia.
    split_and!; finish.
  - do 2 eexists. exists 1%nat, (c / 64), 0x80. split; [done|]. unfold utf8_lead.
    rewrite (proj2 (andb_false_iff (0 <? _) _)) by lia.
    rewrite (proj2 (andb_true_iff _ _)) by lia. cbn [continuation].
    rewrite !(proj2 (andb_true_iff (128 <=? _) _)) by lia.
    split_and!; finish.
  - do 2 eexists. exists 2%nat, (c / 4096), 0x800. split; [done|]. unfold utf8_lead.
    rewrite (proj2 (andb_false_iff (0 <? _) _)) by lia.
    rewrite (proj2 (andb_false_iff (192 <=? _) _)) by lia.
    rewrite (proj2 (andb_true_iff _ _)) by lia. cbn [continuation].
    rewrite !(proj2 (andb_true_iff (128 <=? _) _)) by lia.
    split_and!; finish.
  - do 2 eexists. exists 3%nat, (c / 262144), 0x10000. split; [done|]. unfold utf8_lead.
    rewrite (proj2 (andb_false_iff (0 <? _) _)) by lia.
    rewrite (proj2 (andb_false_iff (192 <=? _) _)) by lia.
    rewrite (proj2 (andb_false_iff (224 <=? _) _)) by lia.
    rewrite (proj2 (andb_true_iff _ _)) by lia. cbn [continuation].
    rewrite !(proj2 (andb_true_iff (128 <=? _) _)) by lia.
    split_and!; finish.
Qed.

Lemma continuation_prefix n acc t k :
  Forall (fun x => 128 <= x < 192) t -> (k < n)%nat -> length t = n ->
  continuation n acc (take k t) = ContMore.
Proof.
  intros Ht. revert n acc k. induction Ht as [|c t Hc _ IH]; intros [|n] acc k Hk Hl;
    cbn in Hl; try lia.
  destruct k as [|k]; cbn; [done|]. rewrite (proj2 (andb_true_iff _ _)) by lia.
  apply IH; lia.
Qed.

#[export] Instance Utf8LibcLaws : LibcLaws.
Proof.
  split; cbn [mbrtowc MB_CUR_MAX wcwidth Utf8Libc].
  - intros s n wc (H & _)%utf8_mbrtowc_char. done.
  - intros s n wc (_ & H & _)%utf8_mbrtowc_char.
    unfold is_scalar, is_surrogate in H. lia.
  - intros s n wc k (_ & _ & H)%utf8_mbrtowc_char ?. auto.
  - intros [|b t]; cbn; [done|]. split.
    + repeat case_match; try done. intros _. f_equal. lia.
    + intros [= ->]. done.
  - intros [|b t]; cbn; [lia|]. destruct (b =? 0); [done|].
    destruct (utf8_lead b) as [[[n p] l]|] eqn:E; [|done].
    apply utf8_lead_len in E.
    destruct (continuation n p t) eqn:Ec; try done; [by destruct (_ && _)|].
    apply continuation_more in Ec. lia.
  - intros c s Hc (b & t & n & p & l & -> & El & Hl & Hb & Ec & Hlow & Hs & _)%wcrtomb_cases;
      [|done].
    cbn. rewrite (proj2 (Z.eqb_neq b 0)), El, Ec, Hs by done.
    rewrite (proj2 (Z.leb_le l c)) by done. cbn. by rewrite Hl.
  - intros c s k E Hk. destruct (decide (c = 0)) as [->|Hc].
    { vm_compute in E. injection E as <-. cbn in Hk. lia. }
    apply wcrtomb_cases in E as (b & t & n & p & l & -> & El & Hl & Hb & Ec & _ & _ & Ht);
      [|done].
    cbn in Hk. destruct k as [|k]; [lia|]. cbn.
    rewrite (proj2 (Z.eqb_neq b 0)), El by done.
    by rewrite continuation_prefix by (done || lia).
  - intros c. unfold simple_wcwidth. repeat case_match; lia.
Qed.
