(* ===== verification/Parser.v ===== *)
(** * The escape-sequence parser (mosh/src/terminal/parser*.{h,cc})

    [Action] and [State] are the class hierarchies of parseraction.h and
    parserstate.h, one constructor per class; the virtual methods
    [input_state_rule], [enter] and [exit] are functions by cases on the state.
    [parser_input] is [Parser::Parser::input], and [utf8_input] is
    [Parser::UTF8Parser::input], with the C library's decoder as a class. *)
From S2P Require Export Libc.

(** ** Actions (parseraction.h) *)

Inductive action_type : Type :=
| Ignore | Print | Execute | Clear | Collect | Param
| Esc_Dispatch | CSI_Dispatch | Hook | Put | Unhook
| OSC_Start | OSC_Put | OSC_End
| UserByte (c : Z)
| Resize (width height : Z).

#[export] Instance action_type_eq_dec : EqDecision action_type.
Proof. solve_decision. Defined.

(** [ch] and [char_present]; the constructor leaves [ch = -1]. *)
Record Action : Type := MkAction { typ : action_type; ch : Z; char_present : bool }.

#[export] Instance Action_eq_dec : EqDecision Action.
Proof. solve_decision. Defined.

(** [std::make_shared<T>()]. *)
Definition make_action (t : action_type) : Action := MkAction t (-1) false.
Definition with_char (c : Z) (a : Action) : Action := MkAction (typ a) c true.
Definition ignore (a : Action) : bool :=
  match typ a with Ignore => true | _ => false end.

(** ** States (parserstate.h, parserstatefamily.h) *)

Inductive State : Type :=
| Ground
| Escape | Escape_Intermediate
| CSI_Entry | CSI_Param | CSI_Intermediate | CSI_Ignore
| DCS_Entry | DCS_Param | DCS_Intermediate | DCS_Passthrough | DCS_Ignore
| OSC_String
| SOS_PM_APC_String.

#[export] Instance State_eq_dec : EqDecision State.
Proof. solve_decision. Defined.

(** parsertransition.h: an action and possibly a next state. *)
Record Transition : Type := MkTransition {
  action : option Action; next_state : option State }.

(** [Transition()]: the default arguments. *)
Definition tr_none : Transition := MkTransition (Some (make_action Ignore)) None.
(** [Transition( std::make_shared<T>() )]. *)
Definition tr_act (t : action_type) : Transition := MkTransition (Some (make_action t)) None.
(** [Transition( &family->s_X )]. *)
Definition tr_to (s : State) : Transition := MkTransition (Some (make_action Ignore)) (Some s).
(** [Transition( std::make_shared<T>(), &family->s_X )]. *)
Definition tr_act_to (t : action_type) (s : State) : Transition :=
  MkTransition (Some (make_action t)) (Some s).

(** [( lo <= ch ) && ( ch <= hi )]. *)
Definition between (lo ch hi : Z) : bool := (lo <=? ch) && (ch <=? hi).

Definition anywhere_rule (ch : Z) : Transition :=
  if (ch =? 0x18) || (ch =? 0x1A) || between 0x80 ch 0x8F
     || between 0x91 ch 0x97 || (ch =? 0x99) || (ch =? 0x9A)
  then tr_act_to Execute Ground
  else if ch =? 0x9C then tr_to Ground
  else if ch =? 0x1B then tr_to Escape
  else if (ch =? 0x98) || (ch =? 0x9E) || (ch =? 0x9F) then tr_to SOS_PM_APC_String
  else if ch =? 0x90 then tr_to DCS_Entry
  else if ch =? 0x9D then tr_to OSC_String
  else if ch =? 0x9B then tr_to CSI_Entry
  else MkTransition None None.

Definition C0_prime (ch : Z) : bool :=
  (ch <=? 0x17) || (ch =? 0x19) || between 0x1C ch 0x1F.

Definition GLGR (ch : Z) : bool := between 0x20 ch 0x7F || between 0xA0 ch 0xFF.

Definition Ground_input_state_rule (ch : Z) : Transition :=
  if C0_prime ch then tr_act Execute
  else if GLGR ch then tr_act Print
  else tr_none.

Definition Escape_input_state_rule (ch : Z) : Transition :=
  if C0_prime ch then tr_act Execute
  else if between 0x20 ch 0x2F then tr_act_to Collect Escape_Intermediate
  else if between 0x30 ch 0x4F || between 0x51 ch 0x57 || (ch =? 0x59)
          || (ch =? 0x5A) || (ch =? 0x5C) || between 0x60 ch 0x7E
  then tr_act_to Esc_Dispatch Ground
  else if ch =? 0x5B then tr_to CSI_Entry
  else if ch =? 0x5D then tr_to OSC_String
  else if ch =? 0x50 then tr_to DCS_Entry
  else if (ch =? 0x58) || (ch =? 0x5E) || (ch =? 0x5F) then tr_to SOS_PM_APC_String
  else tr_none.

Definition Escape_Intermediate_input_state_rule (ch : Z) : Transition :=
  if C0_prime ch then tr_act Execute
  else if between 0x20 ch 0x2F then tr_act Collect
  else if between 0x30 ch 0x7E then tr_act_to Esc_Dispatch Ground
  else tr_none.

Definition CSI_Entry_input_state_rule (ch : Z) : Transition :=
  if C0_prime ch then tr_act Execute
  else if between 0x40 ch 0x7E then tr_act_to CSI_Dispatch Ground
  else if between 0x30 ch 0x39 || (ch =? 0x3B) then tr_act_to Param CSI_Param
  else if between 0x3C ch 0x3F then tr_act_to Collect CSI_Param
  else if ch =? 0x3A then tr_to CSI_Ignore
  else if between 0x20 ch 0x2F then tr_act_to Collect CSI_Intermediate
  else tr_none.

Definition CSI_Param_input_state_rule (ch : Z) : Transition :=
  if C0_prime ch then tr_act Execute
  else if between 0x30 ch 0x39 || (ch =? 0x3B) then tr_act Param
  else if (ch =? 0x3A) || between 0x3C ch 0x3F then tr_to CSI_Ignore
  else if between 0x20 ch 0x2F then tr_act_to Collect CSI_Intermediate
  else if between 0x40 ch 0x7E then tr_act_to CSI_Dispatch Ground
  else tr_none.

Definition CSI_Intermediate_input_state_rule (ch : Z) : Transition :=
  if C0_prime ch then tr_act Execute
  else if between 0x20 ch 0x2F then tr_act Collect
  else if between 0x40 ch 0x7E then tr_act_to CSI_Dispatch Ground
  else if between 0x30 ch 0x3F then tr_to CSI_Ignore
  else tr_none.

Definition CSI_Ignore_input_state_rule (ch : Z) : Transition :=
  if C0_prime ch then tr_act Execute
  else if between 0x40 ch 0x7E then tr_to Ground
  else tr_none.

Definition DCS_Entry_input_state_rule (ch : Z) : Transition :=
  if between 0x20 ch 0x2F then tr_act_to Collect DCS_Intermediate
  else if ch =? 0x3A then tr_to DCS_Ignore
  else if between 0x30 ch 0x39 || (ch =? 0x3B) then tr_act_to Param DCS_Param
  else if between 0x3C ch 0x3F then tr_act_to Collect DCS_Param
  else if between 0x40 ch 0x7E then tr_to DCS_Passthrough
  else tr_none.

Definition DCS_Param_input_state_rule (ch : Z) : Transition :=
  if between 0x30 ch 0x39 || (ch =? 0x3B) then tr_act Param
  else if (ch =? 0x3A) || between 0x3C ch 0x3F then tr_to DCS_Ignore
  else if between 0x20 ch 0x2F then tr_act_to Collect DCS_Intermediate
  else if between 0x40 ch 0x7E then tr_to DCS_Passthrough
  else tr_none.

Definition DCS_Intermediate_input_state_rule (ch : Z) : Transition :=
  if between 0x20 ch 0x2F then tr_act Collect
  else if between 0x40 ch 0x7E then tr_to DCS_Passthrough
  else if between 0x30 ch 0x3F then tr_to DCS_Ignore
  else tr_none.

Definition DCS_Passthrough_input_state_rule (ch : Z) : Transition :=
  if C0_prime ch || between 0x20 ch 0x7E then tr_act Put
  else if ch =? 0x9C then tr_to Ground
  else tr_none.

Definition DCS_Ignore_input_state_rule (ch : Z) : Transition :=
  if ch =? 0x9C then tr_to Ground else tr_none.

Definition OSC_String_input_state_rule (ch : Z) : Transition :=
  if between 0x20 ch 0x7F then tr_act OSC_Put
  else if (ch =? 0x9C) || (ch =? 0x07) then tr_to Ground
  else tr_none.

Definition SOS_PM_APC_String_input_state_rule (ch : Z) : Transition :=
  if ch =? 0x9C then tr_to Ground else tr_none.

(** The virtual method. *)
Definition input_state_rule (s : State) : Z -> Transition :=
  match s with
  | Ground => Ground_input_state_rule
  | Escape => Escape_input_state_rule
  | Escape_Intermediate => Escape_Intermediate_input_state_rule
  | CSI_Entry => CSI_Entry_input_state_rule
  | CSI_Param => CSI_Param_input_state_rule
  | CSI_Intermediate => CSI_Intermediate_input_state_rule
  | CSI_Ignore => CSI_Ignore_input_state_rule
  | DCS_Entry => DCS_Entry_input_state_rule
  | DCS_Param => DCS_Param_input_state_rule
  | DCS_Intermediate => DCS_Intermediate_input_state_rule
  | DCS_Passthrough => DCS_Passthrough_input_state_rule
  | DCS_Ignore => DCS_Ignore_input_state_rule
  | OSC_String => OSC_String_input_state_rule
  | SOS_PM_APC_String => SOS_PM_APC_String_input_state_rule
  end.

(** [State::enter] and its overrides. *)
Definition enter (s : State) : Action :=
  make_action
    match s with
    | Escape | CSI_Entry | DCS_Entry => Clear
    | DCS_Passthrough => Hook
    | OSC_String => OSC_Start
    | _ => Ignore
    end.

(** [State::exit] and its overrides. *)
Definition exit (s : State) : Action :=
  make_action
    match s with
    | DCS_Passthrough => Unhook
    | OSC_String => OSC_End
    | _ => Ignore
    end.

(** [State::input]: immediate transitions, then the state's own rule, which
    sees code points from 0xA0 up as an 'A'.  The character is recorded in
    the action. *)
Definition State_input (s : State) (c : Z) : Transition :=
  let anywhere := anywhere_rule c in
  match next_state anywhere with
  | Some _ => MkTransition (with_char c <$> action anywhere) (next_state anywhere)
  | None =>
      let ret := input_state_rule s (if 0xA0 <=? c then 0x41 else c) in
      MkTransition (with_char c <$> action ret) (next_state ret)
  end.

(** ** The code-point parser (parser.cc) *)

Definition append_or_delete (act : Action) (vec : list Action) : list Action :=
  if ignore act then vec else vec ++ [act].

(** [Parser::Parser::input]: the new state and the actions appended to [ret].
    The transition's action is never null here ([State::input] wrote to it). *)
Definition parser_input (s : State) (c : Z) (ret : list Action) : State * list Action :=
  let tx := State_input s c in
  let ret := match next_state tx with
             | Some _ => append_or_delete (exit s) ret
             | None => ret
             end in
  let ret := match action tx with
             | Some a => append_or_delete a ret
             | None => ret
             end in
  match next_state tx with
  | Some s' => (s', append_or_delete (enter s') ret)
  | None => (s, ret)
  end.

(** ** The UTF-8 parser *)

Definition BUF_SIZE : nat := 8.

(** [buf] holds the first [buf_len] octets of the member [buf]. *)
Record UTF8Parser : Type := MkUTF8Parser { parser : State; buf : bytes }.
Definition buf_len (p : UTF8Parser) : nat := length (buf p).
Definition set_parser (s : State) (p : UTF8Parser) : UTF8Parser := MkUTF8Parser s (buf p).
Definition set_buf (b : bytes) (p : UTF8Parser) : UTF8Parser := MkUTF8Parser (parser p) b.

Section utf8.
Context `{Libc}.

(** The constructor checks that a multibyte character fits the buffer. *)
Definition UTF8Parser_new : result fault UTF8Parser :=
  if bool_decide (MB_CUR_MAX <= BUF_SIZE)%nat then Ok (MkUTF8Parser Ground [])
  else Err AssertFail.

Definition utf8_reset_input (p : UTF8Parser) : UTF8Parser := MkUTF8Parser Ground [].

(** The replacement of ill-formed values by U+FFFD. *)
Definition checked_char (pwc : Z) : Z :=
  let pwcheck := u32 pwc in
  if (0x10FFFF <? pwcheck) || is_surrogate pwcheck then 0xFFFD else pwc.

(** [parser.input( c, ret )] on the member [parser]. *)
Definition feed (c : Z) (ret : list Action) : M UTF8Parser (list Action) :=
  fun p => let '(s, ret') := parser_input (parser p) c ret in
           Ok (ret', set_parser s p).

(** The decoding loop; [total] is [total_bytes_parsed], [orig] is
    [orig_buf_len].  Every iteration parses at least one octet, so [orig + 1]
    is enough fuel. *)
Fixpoint utf8_loop (fuel : nat) (total orig : nat) (ret : list Action)
  : M UTF8Parser (list Action) :=
  match fuel with
  | O => fail Undefined
  | S fuel' =>
      if bool_decide (total = orig) then mret ret else
      assert_ (bool_decide (total < orig)%nat) ;;
      b ← gets buf;
      assert_ (bool_decide (0 < length b)%nat) ;;
      match mbrtowc b with
      | MbNul =>
          assert_ (bool_decide (length b = 1%nat)) ;;
          modify (set_buf []) ;;
          ret' ← feed (checked_char 0) ret;
          utf8_loop fuel' (total + 1) orig ret'
      | MbInvalid =>
          if bool_decide (1 < length b)%nat then
            modify (set_buf [List.last b 0]) ;;
            ret' ← feed (checked_char 0xFFFD) ret;
            utf8_loop fuel' (total + (length b - 1)) orig ret'
          else
            modify (set_buf []) ;;
            ret' ← feed (checked_char 0xFFFD) ret;
            utf8_loop fuel' (total + 1) orig ret'
      | MbIncomplete => utf8_loop fuel' (total + length b) orig ret
      | MbChar n pwc =>
          assert_ (bool_decide (n <= length b)%nat) ;;
          modify (set_buf (drop n b)) ;;
          ret' ← feed (checked_char pwc) ret;
          utf8_loop fuel' (total + n) orig ret'
      end
  end.

(** [UTF8Parser::input]. *)
Definition utf8_input (c : Z) (ret : list Action) : M UTF8Parser (list Action) :=
  n ← gets buf_len;
  assert_ (bool_decide (n < BUF_SIZE)%nat) ;;
  if bool_decide (n = 0%nat) && (c <=? 0x7f) then
    feed c ret
  else
    modify (fun p => set_buf (buf p ++ [c]) p) ;;
    utf8_loop (n + 2) 0 (n + 1) ret.
End utf8.

(** ** Properties of the state machine *)

(** What the emulator's handlers rely on, per action class. *)
Definition action_wf (a : Action) : Prop :=
  match typ a with
  | Print | OSC_Put =>
      char_present a = true /\ is_scalar (ch a) = true /\ 0x20 <= ch a
  | Execute => char_present a = true /\ 0 <= ch a <= 0x9A
  | Collect => char_present a = true /\ 0x20 <= ch a <= 0x3F
  | Param => char_present a = true /\ (ch a = 59 \/ 48 <= ch a <= 57)
  | Esc_Dispatch | CSI_Dispatch =>
      char_present a = true /\ is_scalar (ch a) = true /\ 0x30 <= ch a
  | UserByte _ | Resize _ _ => False
  | _ => True
  end.

(** The code points of a list, fed one after the other. *)
Fixpoint parse_run (s : State) (cs : list Z) : State * list Action :=
  match cs with
  | [] => (s, [])
  | c :: cs' =>
      let '(s1, a1) := parser_input s c [] in
      let '(s2, a2) := parse_run s1 cs' in
      (s2, a1 ++ a2)
  end.

Lemma parse_run_one s c : parse_run s [c] = parser_input s c [].
Proof. cbn. destruct (parser_input s c []). by rewrite app_nil_r. Qed.

Lemma append_or_delete_app a v w : append_or_delete a (v ++ w) = v ++ append_or_delete a w.
Proof. unfold append_or_delete. destruct (ignore a); [done|by rewrite app_assoc]. Qed.

Lemma parser_input_app s c ret :
  parser_input s c ret = (fst (parser_input s c []), ret ++ snd (parser_input s c [])).
Proof.
  rewrite <- (app_nil_r ret) at 1. unfold parser_input.
  destruct (next_state _), (action _); cbn [fst snd]; by rewrite ?append_or_delete_app.
Qed.

Lemma parse_run_app s cs1 cs2 :
  parse_run s (cs1 ++ cs2) =
    (fst (parse_run (fst (parse_run s cs1)) cs2),
     snd (parse_run s cs1) ++ snd (parse_run (fst (parse_run s cs1)) cs2)).
Proof.
  revert s. induction cs1 as [|c cs1 IH]; intros s; cbn.
  - by destruct (parse_run s cs2).
  - destruct (parser_input s c []) as [s1 a1]. rewrite IH.
    destruct (parse_run s1 cs1) as [s2 a2]. cbn. by rewrite app_assoc.
Qed.

#[local] Ltac unfold_rules :=
  unfold anywhere_rule, input_state_rule, Ground_input_state_rule,
    Escape_input_state_rule, Escape_Intermediate_input_state_rule,
    CSI_Entry_input_state_rule, CSI_Param_input_state_rule,
    CSI_Intermediate_input_state_rule, CSI_Ignore_input_state_rule,
    DCS_Entry_input_state_rule, DCS_Param_input_state_rule,
    DCS_Intermediate_input_state_rule, DCS_Passthrough_input_state_rule,
    DCS_Ignore_input_state_rule, OSC_String_input_state_rule,
    SOS_PM_APC_String_input_state_rule, C0_prime, GLGR, between in *.
#[local] Ltac split_rules :=
  repeat match goal with
  | |- context [if ?b then _ else _] => destruct b eqn:?
  end.

Lemma anywhere_rule_wf c a s :
  0 <= c -> anywhere_rule c = MkTransition (Some a) (Some s) -> action_wf (with_char c a).
Proof.
  intros Hc. unfold_rules. split_rules; intros [= <- <-]; cbn; try done; lia.
Qed.

Lemma input_state_rule_wf s c a n :
  is_scalar c = true -> next_state (anywhere_rule c) = None ->
  input_state_rule s (if 0xA0 <=? c then 0x41 else c) = MkTransition (Some a) n ->
  action_wf (with_char c a).
Proof.
  intros Hs Hn E.
  assert (Hc : 0 <= c /\ (c < 0x80 \/ 0xA0 <= c)).
  { revert Hn. unfold is_scalar in Hs. unfold_rules. split_rules; cbn; try done; lia. }
  clear Hn. destruct Hc as [H0 Hc].
  destruct (Z.leb_spec 0xA0 c) as [Hhi|Hlo].
  - destruct s; vm_compute in E; injection E as <- <-; cbn; split_and?; done || lia.
  - revert E. destruct s; unfold_rules; split_rules; intros [= <- <-]; cbn;
      split_and?; done || lia.
Qed.

Lemma input_state_rule_action s c : exists a, action (input_state_rule s c) = Some a.
Proof. destruct s; unfold_rules; split_rules; cbn; eauto. Qed.

Lemma anywhere_rule_action c s :
  next_state (anywhere_rule c) = Some s -> exists a, action (anywhere_rule c) = Some a.
Proof. unfold_rules; split_rules; cbn; eauto; done. Qed.

(** [State::input] always yields an action (the dereference is defined). *)
Lemma State_input_action s c :
  exists a, action (State_input s c) = Some (with_char c a) /\
    (is_scalar c = true -> action_wf (with_char c a)).
Proof.
  unfold State_input. destruct (next_state (anywhere_rule c)) as [s'|] eqn:En; cbn.
  - destruct (anywhere_rule_action _ _ En) as [a Ea]. rewrite Ea. exists a. split; [done|].
    intros Hs. apply (anywhere_rule_wf _ _ s').
    + unfold is_scalar in Hs. lia.
    + destruct (anywhere_rule c). cbn in *. by subst.
  - destruct (input_state_rule_action s (if 160 <=? c then 65 else c)) as [a Ea].
    rewrite Ea. exists a. split; [done|]. intros Hs.
    destruct (input_state_rule s _) as [o n] eqn:E. cbn in Ea. subst o.
    by apply (input_state_rule_wf s c a n).
Qed.

Lemma enter_exit_wf s : action_wf (enter s) /\ action_wf (exit s).
Proof. by destruct s. Qed.

Lemma append_or_delete_wf a v :
  action_wf a -> Forall action_wf v -> Forall action_wf (append_or_delete a v).
Proof.
  intros. unfold append_or_delete. destruct (ignore a); [done|]. apply Forall_app; auto.
Qed.

Lemma parser_input_wf s c :
  is_scalar c = true -> Forall action_wf (snd (parser_input s c [])).
Proof.
  intros Hc. unfold parser_input. destruct (State_input_action s c) as (a & -> & Ha).
  destruct (next_state _) as [s'|]; cbn [snd];
    repeat apply append_or_delete_wf; try apply enter_exit_wf; auto.
Qed.

Lemma parse_run_wf s cs :
  Forall (fun c => is_scalar c = true) cs -> Forall action_wf (snd (parse_run s cs)).
Proof.
  intros H. revert s. induction H as [|c cs Hc _ IH]; intros s; cbn; [done|].
  pose proof (parser_input_wf s c Hc) as H1.
  destruct (parser_input s c []) as [s1 a1]. specialize (IH s1).
  destruct (parse_run s1 cs) as [s2 a2]. by apply Forall_app.
Qed.


(** A transition that acts does not enter a state with an entry action. *)
Definition quiet (t : Transition) : bool :=
  match next_state t with
  | Some s' => ignore (enter s') || match action t with Some a => ignore a | None => true end
  | None => true
  end.

Lemma anywhere_rule_quiet c : quiet (anywhere_rule c) = true.
Proof. unfold_rules. split_rules; done. Qed.

Lemma input_state_rule_quiet s c : quiet (input_state_rule s c) = true.
Proof. destruct s; unfold_rules; split_rules; done. Qed.

Lemma State_input_quiet s c : quiet (State_input s c) = true.
Proof.
  pose proof (anywhere_rule_quiet c) as H1.
  pose proof (input_state_rule_quiet s (if 160 <=? c then 65 else c)) as H2.
  unfold State_input, quiet in *.
  destruct (anywhere_rule c) as [[a|] [n|]], (input_state_rule s _) as [[a'|] [n'|]];
    cbn in *; done.
Qed.

(** A code point yields at most two actions. *)
Lemma parser_input_length s c : (length (snd (parser_input s c [])) <= 2)%nat.
Proof.
  pose proof (State_input_quiet s c) as H. unfold quiet in H. unfold parser_input.
  destruct (State_input s c) as [[a|] [s'|]]; cbn [action next_state snd] in *;
    unfold append_or_delete; repeat case_match; cbn; try lia; done.
Qed.

(** The replacement character yields at most one, in any state. *)
Lemma parser_input_FFFD s : (length (snd (parser_input s 0xFFFD [])) <= 1)%nat.
Proof. destruct s; vm_compute; lia. Qed.

(** ** The UTF-8 parser never fails, and what it decodes *)

(** Between calls the buffer is empty or an incomplete character. *)
Definition utf8_wf `{Libc} (p : UTF8Parser) : Prop :=
  (MB_CUR_MAX <= BUF_SIZE)%nat /\
  (buf p = [] \/ (buf p <> [] /\ mbrtowc (buf p) = MbIncomplete)).

(** The octets of a string, fed one after the other. *)
Fixpoint utf8_run `{Libc} (s : bytes) (ret : list Action) : M UTF8Parser (list Action) :=
  match s with
  | [] => mret ret
  | c :: s' => ret' ← utf8_input c ret; utf8_run s' ret'
  end.

Section utf8_proofs.
Context `{Libc} `{!LibcLaws}.

Lemma utf8_new_wf p : UTF8Parser_new = Ok p -> utf8_wf p /\ parser p = Ground.
Proof.
  unfold UTF8Parser_new. case_bool_decide; [|done]. intros [= <-].
  split; [|done]. split; [done|by left].
Qed.

Lemma utf8_wf_empty s : (MB_CUR_MAX <= BUF_SIZE)%nat -> utf8_wf (MkUTF8Parser s []).
Proof. split; [done|by left]. Qed.

Lemma utf8_wf_pending p :
  (MB_CUR_MAX <= BUF_SIZE)%nat -> buf p <> [] -> mbrtowc (buf p) = MbIncomplete -> utf8_wf p.
Proof. split; [done|by right]. Qed.

Lemma checked_char_scalar wc : 0 <= wc < 2 ^ 32 -> is_scalar (checked_char wc) = true.
Proof.
  intros Hr. unfold checked_char, u32. rewrite Z.mod_small by done.
  destruct (_ || _) eqn:E; [done|]. unfold is_scalar.
  destruct (is_surrogate wc); lia.
Qed.

Lemma checked_char_id c : is_scalar c = true -> checked_char c = c.
Proof.
  unfold is_scalar, checked_char, u32. intros Hc.
  rewrite Z.mod_small by lia. destruct (is_surrogate c); [lia|].
  rewrite (proj2 (Z.ltb_ge _ _)) by lia. done.
Qed.

Lemma feed_eq c ret p :
  feed c ret p = Ok (ret ++ snd (parser_input (parser p) c []),
                     set_parser (fst (parser_input (parser p) c [])) p).
Proof. unfold feed. rewrite parser_input_app. done. Qed.

(** The result of one octet: at most one U+FFFD, then at most one code
    point, go through the state machine. *)
Definition octet_codes (cs : list Z) : Prop :=
  cs = [] \/ (exists c, cs = [c] /\ is_scalar c = true) \/
  (exists c, cs = [0xFFFD; c] /\ is_scalar c = true) \/ cs = [0xFFFD].

Lemma utf8_loop_done fuel n ret p :
  utf8_loop (S fuel) n n ret p = Ok (ret, p).
Proof. cbn. by rewrite bool_decide_true. Qed.

(** One iteration: the octets consumed, what stays in the buffer and the
    code point fed, by the decoder's verdict. *)
Definition verdict (b : bytes) : option (nat * bytes * Z) :=
  match mbrtowc b with
  | MbNul => Some (1%nat, [], 0)
  | MbInvalid =>
      if bool_decide (1 < length b)%nat
      then Some ((length b - 1)%nat, [List.last b 0], 0xFFFD)
      else Some (1%nat, [], 0xFFFD)
  | MbIncomplete => None
  | MbChar n wc => Some (n, drop n b, checked_char wc)
  end.

Lemma utf8_loop_step f total orig ret p :
  (total < orig)%nat -> buf p <> [] -> (mbrtowc (buf p) = MbNul -> length (buf p) = 1%nat) ->
  utf8_loop (S f) total orig ret p =
    match verdict (buf p) with
    | None => utf8_loop f (total + length (buf p)) orig ret p
    | Some (n, b, c) =>
        let a := parser_input (parser p) c [] in
        utf8_loop f (total + n) orig (ret ++ snd a) (MkUTF8Parser (fst a) b)
    end.
Proof.
  intros Ht Hb Hnul. assert (0 < length (buf p))%nat by (destruct (buf p); cbn; [done|lia]).
  unfold verdict. cbn [utf8_loop]. rewrite bool_decide_false by lia.
  unfold mbind, M_bind, gets, modify, assert_.
  rewrite (bool_decide_true (total < orig)%nat) by lia. cbn [mret M_ret].
  rewrite (bool_decide_true (0 < length (buf p))%nat) by lia. cbn [mret M_ret].
  destruct (mbrtowc (buf p)) as [| | |n wc] eqn:E.
  - rewrite bool_decide_true by auto. cbn [mret M_ret]. by rewrite feed_eq.
  - destruct (bool_decide (1 < length (buf p))%nat); cbn beta iota; by rewrite feed_eq.
  - done.
  - pose proof (mb_char_len _ _ _ E). rewrite bool_decide_true by lia.
    cbn [mret M_ret]. by rewrite feed_eq.
Qed.

Lemma verdict_scalar b n b' c : verdict b = Some (n, b', c) -> is_scalar c = true.
Proof.
  unfold verdict. destruct (mbrtowc b) eqn:E; [|case_bool_decide|done|];
    intros [= <- <- <-]; auto. eauto using checked_char_scalar, mb_char_range.
Qed.

(** One octet alone in the buffer. *)
Lemma utf8_loop_single fuel total ret p c :
  buf p = [c] -> (MB_CUR_MAX <= BUF_SIZE)%nat ->
  exists cs p', utf8_loop (S (S fuel)) total (total + 1) ret p =
      Ok (ret ++ snd (parse_run (parser p) cs), p') /\
    (cs = [] \/ exists d, cs = [d] /\ is_scalar d = true) /\
    parser p' = fst (parse_run (parser p) cs) /\ utf8_wf p'.
Proof.
  intros Hb Hmax. rewrite utf8_loop_step by (lia || by rewrite Hb).
  destruct (verdict (buf p)) as [[[n b] d]|] eqn:Ev.
  - assert (n = 1%nat /\ b = []) as [-> ->].
    { revert Ev. rewrite Hb. unfold verdict.
      destruct (mbrtowc [c]) as [| | |n' wc] eqn:E; cbn; intros [= <- <- <-]; auto.
      pose proof (mb_char_len _ _ _ E) as Hn. cbn in Hn.
      assert (n' = 1%nat) as -> by lia. auto. }
    cbv zeta. rewrite utf8_loop_done. exists [d]. eexists.
    rewrite parse_run_one. split_and!; eauto using verdict_scalar, utf8_wf_empty.
  - rewrite Hb. cbn [length]. rewrite utf8_loop_done. exists [], p.
    cbn. rewrite app_nil_r. split_and!; auto. apply utf8_wf_pending; [done|by rewrite Hb|].
    revert Ev. rewrite Hb. unfold verdict. by destruct (mbrtowc [c]).
Qed.

(** The octet after an incomplete character. *)
Lemma utf8_loop_pending fuel ret p b c :
  buf p = b ++ [c] -> b <> [] -> mbrtowc b = MbIncomplete -> (MB_CUR_MAX <= BUF_SIZE)%nat ->
  exists cs p', utf8_loop (S (S (S fuel))) 0 (length b + 1) ret p =
      Ok (ret ++ snd (parse_run (parser p) cs), p') /\
    octet_codes cs /\ parser p' = fst (parse_run (parser p) cs) /\ utf8_wf p'.
Proof.
  intros Hb Hne Hinc Hmax.
  assert (Hlb : length (buf p) = (length b + 1)%nat) by (by rewrite Hb, length_app).
  assert (Hnn : mbrtowc (buf p) <> MbNul).
  { rewrite mb_nul, Hb. intros Hh. assert (mbrtowc b = MbNul); [|congruence].
    rewrite mb_nul. by destruct b. }
  rewrite utf8_loop_step; [|lia|rewrite Hb; by destruct b|done].
  unfold verdict. destruct (mbrtowc (buf p)) as [| | |n wc] eqn:E; [done| | |].
  - rewrite bool_decide_true by (destruct b; cbn in *; [done|lia]). cbv zeta.
    rewrite Hlb. replace (0 + (length b + 1 - 1))%nat with (length b) by lia.
    edestruct (utf8_loop_single fuel (length b)) as (cs & p' & -> & Hcs & Hp & Hw);
      [done..|].
    exists (0xFFFD :: cs), p'. cbn [parse_run parser] in *.
    destruct (parser_input (parser p) 65533 []) as [s1 a1]. cbn [fst snd] in *.
    rewrite <- app_assoc. destruct (parse_run s1 cs) as [s2 a2]. cbn in *.
    split_and!; auto. right. right.
    destruct Hcs as [->|(d & -> & Hd)]; [by right|left; eauto].
  - rewrite Hlb. rewrite utf8_loop_done. exists [], p. cbn. rewrite app_nil_r.
    split_and!; auto; [by left|]. apply utf8_wf_pending; [done| |done].
    rewrite Hb. by destruct b.
  - assert (n = length b + 1)%nat as ->.
    { pose proof (mb_char_len _ _ _ E). destruct (decide (n <= length b)%nat) as [Hle|]; [|lia].
      pose proof (mb_char_local _ _ _ _ E Hle) as El.
      rewrite Hb, take_app_length in El. congruence. }
    cbv zeta. rewrite Nat.add_0_l, utf8_loop_done. exists [checked_char wc].
    rewrite drop_ge by lia. eexists. rewrite parse_run_one.
    split_and!; eauto using utf8_wf_empty.
    right. left. eauto using checked_char_scalar, mb_char_range.
Qed.

(** [UTF8Parser::input] returns, and feeds at most two code points. *)
Lemma utf8_input_run c ret p :
  utf8_wf p -> 0 <= c ->
  exists cs p', utf8_input c ret p = Ok (ret ++ snd (parse_run (parser p) cs), p') /\
    octet_codes cs /\ parser p' = fst (parse_run (parser p) cs) /\ utf8_wf p'.
Proof.
  intros [Hmax Hbuf] Hc. unfold utf8_input, buf_len.
  assert (Hlen : (length (buf p) < BUF_SIZE)%nat).
  { destruct Hbuf as [->|[_ Hi]]; [cbn; unfold BUF_SIZE; lia|].
    apply mb_incomplete_len in Hi. lia. }
  unfold mbind, M_bind, gets, assert_. rewrite bool_decide_true by done. cbn [mret M_ret].
  destruct Hbuf as [Hb|[Hb Hi]].
  - rewrite Hb. cbn [length bool_decide]. rewrite bool_decide_true by done. cbn [andb].
    destruct (Z.leb_spec c 127) as [Hle|Hgt].
    + rewrite feed_eq. exists [c]. eexists. rewrite parse_run_one.
      split_and!; eauto; [|by split; [|left]].
      right. left. exists c. split; [done|]. unfold is_scalar, is_surrogate. lia.
    + cbn [modify].
      destruct (utf8_loop_single 0 0 ret (set_buf (buf p ++ [c]) p) c)
        as (cs & p' & E & Hcs & Hp & Hw); [cbn; by rewrite Hb|done|].
      exists cs, p'. split; [exact E|].
      split_and!; auto. destruct Hcs as [->|?]; [by left|right; by left].
  - rewrite (bool_decide_false (_ = 0)%nat) by (by destruct (buf p)). cbn [andb modify].
    replace (length (buf p) + 2)%nat with (S (S (length (buf p)))) by lia.
    destruct (buf p) as [|b0 b] eqn:Eb; [done|]. cbn [length].
    apply (utf8_loop_pending (length b) ret (set_buf ((b0 :: b) ++ [c]) p) (b0 :: b) c); done.
Qed.

Lemma octet_codes_scalar cs : octet_codes cs -> Forall (fun c => is_scalar c = true) cs.
Proof. intros [->|[(c & -> & Hc)|[(c & -> & Hc)| ->]]]; repeat constructor; done. Qed.

Lemma octet_codes_actions cs s :
  octet_codes cs -> (length (snd (parse_run s cs)) <= 3)%nat.
Proof.
  intros [->|[(c & -> & Hc)|[(c & -> & Hc)| ->]]].
  - cbn. lia.
  - rewrite parse_run_one. pose proof (parser_input_length s c). lia.
  - pose proof (parser_input_FFFD s). cbn [parse_run].
    destruct (parser_input s 65533 []) as [s1 a1]. cbn [snd] in *.
    pose proof (parser_input_length s1 c). destruct (parser_input s1 c []) as [s2 a2].
    cbn [snd] in *. rewrite !length_app. cbn. lia.
  - rewrite parse_run_one. pose proof (parser_input_FFFD s). lia.
Qed.

Lemma utf8_input_loop x ret p :
  (length (buf p) < BUF_SIZE)%nat -> 0x7f < x ->
  utf8_input x ret p =
    utf8_loop (length (buf p) + 2) 0 (length (buf p) + 1) ret (set_buf (buf p ++ [x]) p).
Proof.
  intros Hl Hx. unfold utf8_input, buf_len, mbind, M_bind, gets, assert_.
  rewrite bool_decide_true by done. cbn [mret M_ret].
  rewrite (proj2 (Z.leb_gt x 127)), andb_false_r by lia. done.
Qed.

(** Octets of an encoded character stay pending until the last one. *)
Lemma utf8_input_pending ret p x :
  (length (buf p) < BUF_SIZE)%nat -> 0x7f < x -> mbrtowc (buf p ++ [x]) = MbIncomplete ->
  utf8_input x ret p = Ok (ret, set_buf (buf p ++ [x]) p).
Proof.
  intros Hl Hx E. rewrite utf8_input_loop by done.
  replace (length (buf p) + 2)%nat with (S (S (length (buf p)))) by lia.
  rewrite utf8_loop_step; cbn [buf set_buf]; [|lia|by destruct (buf p)|congruence].
  unfold verdict. rewrite E, length_app. cbn [length]. by rewrite utf8_loop_done.
Qed.

Lemma utf8_input_complete ret p x c :
  (length (buf p) < BUF_SIZE)%nat -> 0x7f < x -> is_scalar c = true ->
  mbrtowc (buf p ++ [x]) = MbChar (length (buf p) + 1) c ->
  utf8_input x ret p =
    Ok (ret ++ snd (parser_input (parser p) c []),
        MkUTF8Parser (fst (parser_input (parser p) c [])) []).
Proof.
  intros Hl Hx Hc E. rewrite utf8_input_loop by done.
  replace (length (buf p) + 2)%nat with (S (S (length (buf p)))) by lia.
  rewrite utf8_loop_step; cbn [buf set_buf]; [|lia|by destruct (buf p)|congruence].
  unfold verdict. rewrite E, drop_ge by (rewrite length_app; cbn; lia).
  cbv zeta. by rewrite utf8_loop_done, checked_char_id.
Qed.

(** The tail of an encoded character, the octets [pre] already pending. *)
Lemma utf8_run_tail c s pre suf ret st :
  (MB_CUR_MAX <= BUF_SIZE)%nat ->
  is_scalar c = true -> c <> 0 -> wcrtomb c = Some s -> s = pre ++ suf -> suf <> [] ->
  Forall (fun x => 0x7f < x) suf ->
  utf8_run suf ret (MkUTF8Parser st pre) =
    Ok (ret ++ snd (parser_input st c []), MkUTF8Parser (fst (parser_input st c [])) []).
Proof.
  intros Hmax Hc H0c Es. revert pre. induction suf as [|x suf IH]; intros pre E Hne Hf; [done|].
  apply Forall_cons in Hf as [Hx Hf]. cbn [utf8_run].
  assert (Hpre : (length pre < BUF_SIZE)%nat).
  { destruct pre as [|y pre]; [cbn; unfold BUF_SIZE; lia|].
    apply Nat.lt_le_trans with MB_CUR_MAX; [|done]. apply mb_incomplete_len.
    rewrite <- (take_app_length (y :: pre) (x :: suf)), <- E.
    apply (mb_encoded_prefix c); [done|]. rewrite E, length_app. cbn. lia. }
  destruct suf as [|x' suf].
  - unfold mbind, M_bind. rewrite (utf8_input_complete _ _ _ c); cbn [buf parser]; auto.
    rewrite <- E. pose proof (mb_encoded c s H0c Es) as Em. rewrite Em, E, length_app. done.
  - unfold mbind, M_bind. rewrite utf8_input_pending; cbn [buf]; auto.
    + apply IH; auto. by rewrite <- app_assoc.
    + replace (pre ++ [x]) with (take (length pre + 1) s).
      * apply (mb_encoded_prefix c); [done|]. rewrite E, length_app. cbn. lia.
      * rewrite E, take_app_add. done.
Qed.

Lemma wcrtomb_multi c s :
  wcrtomb c = Some s -> 0x80 <= c -> s <> [] /\ Forall (fun x => 0x7f < x) s.
Proof.
  unfold wcrtomb. destruct (is_scalar c) eqn:Es; cbn [negb]; [|done]. intros E Hc.
  unfold is_scalar in Es. rewrite (proj2 (Z.ltb_ge c 128)) in E by lia.
  pose proof (Z.mod_pos_bound c 64 eq_refl).
  pose proof (Z.mod_pos_bound (c / 64) 64 eq_refl).
  pose proof (Z.mod_pos_bound (c / 4096) 64 eq_refl).
  assert (0 <= c / 64 /\ 0 <= c / 4096 /\ 0 <= c / 262144) by (repeat split; apply Z.div_pos; lia).
  repeat case_match; injection E as <-; (split; [done|repeat (apply Forall_cons; split);
    first [lia|by apply Forall_nil]]).
Qed.

Lemma utf8_run_char c s ret st :
  (MB_CUR_MAX <= BUF_SIZE)%nat -> wcrtomb c = Some s ->
  utf8_run s ret (MkUTF8Parser st []) =
    Ok (ret ++ snd (parser_input st c []), MkUTF8Parser (fst (parser_input st c [])) []).
Proof.
  intros Hmax E. assert (Hs : is_scalar c = true).
  { revert E. unfold wcrtomb. by destruct (is_scalar c). }
  assert (Hnn : 0 <= c) by (unfold is_scalar in Hs; lia).
  destruct (Z.lt_ge_cases c 0x80) as [Hlt|Hge].
  - assert (s = [c]) as ->.
    { revert E. unfold wcrtomb. rewrite Hs, (proj2 (Z.ltb_lt _ _) Hlt). by intros [= <-]. }
    cbn [utf8_run]. unfold utf8_input, mbind, M_bind, gets, buf_len, assert_.
    cbn [buf length]. rewrite !bool_decide_true by (unfold BUF_SIZE; lia). cbn [mret M_ret andb].
    rewrite (proj2 (Z.leb_le c 127)) by lia. by rewrite feed_eq.
  - destruct (wcrtomb_multi _ _ E Hge) as [Hne Hf].
    apply (utf8_run_tail c s [] s); auto; lia.
Qed.

Lemma utf8_run_app s1 s2 ret p :
  utf8_run (s1 ++ s2) ret p = (utf8_run s1 ret ≫= utf8_run s2) p.
Proof.
  revert ret p. induction s1 as [|c s1 IH]; intros ret p; [done|].
  cbn. unfold mbind, M_bind in *. destruct (utf8_input c ret p) as [[ret' p']|]; [|done].
  apply IH.
Qed.
End utf8_proofs.

(** ** Claims *)

(** [encode cs]: the UTF-8 text of a list of code points. *)
Definition encode (cs : list Z) : bytes := mjoin ((fun c => default [] (wcrtomb c)) <$> cs).

Section claims.
Context `{Libc} `{!LibcLaws}.

(** C2. The octet-level parser is safe and bounded: from any state it can be
    in, [UTF8Parser::input] passes its assertions and returns for every
    octet, keeps a buffer that is empty or an incomplete character, and
    appends at most three actions, each one fit for its handler (characters
    are scalar values, parameters are digits or semicolons, control codes
    are 8-bit). *)
Theorem utf8_input_safe p c ret :
  utf8_wf p -> is_u8 c ->
  exists acts p', utf8_input c ret p = Ok (ret ++ acts, p') /\ utf8_wf p' /\
    Forall action_wf acts /\ (length acts <= 3)%nat.
Proof.
  intros Hp [Hc _]. destruct (utf8_input_run c ret p Hp Hc) as (cs & p' & E & Hcs & _ & Hw).
  exists (snd (parse_run (parser p) cs)), p'. split_and!; auto.
  - apply parse_run_wf. by apply octet_codes_scalar.
  - by apply octet_codes_actions.
Qed.

(** C3. Decoding inverts encoding: fed the UTF-8 text of any list of scalar
    values, octet by octet, the parser goes through exactly the transitions
    of those code points, and its buffer is empty again. *)
Theorem utf8_run_encode cs st :
  (MB_CUR_MAX <= BUF_SIZE)%nat -> Forall (fun c => is_scalar c = true) cs ->
  utf8_run (encode cs) [] (MkUTF8Parser st []) =
    Ok (snd (parse_run st cs), MkUTF8Parser (fst (parse_run st cs)) []).
Proof.
  intros Hmax Hcs. change (snd (parse_run st cs)) with ([] ++ snd (parse_run st cs)).
  generalize (@nil Action). revert st.
  induction Hcs as [|c cs Hc _ IH]; intros st ret; cbn [encode fmap list_fmap mjoin list_join].
  - cbn. by rewrite app_nil_r.
  - destruct (wcrtomb_scalar c Hc) as (s & Es & _). rewrite Es. cbn [default].
    rewrite utf8_run_app. unfold mbind, M_bind. rewrite (utf8_run_char c s) by done.
    cbn [parse_run]. destruct (parser_input st c []) as [s1 a1]. cbn [fst snd].
    rewrite IH. destruct (parse_run s1 cs) as [s2 a2]. cbn. by rewrite app_assoc.
Qed.
End claims.

Lemma utf8_input_safe_witness :
  exists acts p', utf8_input 0xA9 [] (MkUTF8Parser Ground [0xC3]) = Ok ([] ++ acts, p') /\
    utf8_wf p' /\ Forall action_wf acts /\ (length acts <= 3)%nat.
Proof.
  apply utf8_input_safe; [|by split].
  split; [cbn; unfold BUF_SIZE; lia|]. right. done.
Defined.

Lemma utf8_run_encode_witness :
  utf8_run (encode [0x48; 0x20AC; 0x1F600]) [] (MkUTF8Parser Ground []) =
    Ok (snd (parse_run Ground [0x48; 0x20AC; 0x1F600]),
        MkUTF8Parser (fst (parse_run Ground [0x48; 0x20AC; 0x1F600])) []).
Proof. apply utf8_run_encode; [cbn; unfold BUF_SIZE; lia|by repeat constructor]. Defined.
