(* ===== verification/Framebuffer.v ===== *)
(** * The framebuffer (mosh/src/terminal/terminalframebuffer.{h,cc})

    One record per class with the class's fields.  Rows are held by value: the
    source shares them between frames with [shared_ptr] and copies a shared row
    before writing to it ([get_mutable_row]).  The only place where a pointer
    comparison decides what one frame does is [Framebuffer::resize], which tags
    the rows that are [blankrow].  Methods that can fault or draw a row
    generation number run in the monad over [Screen]: a framebuffer and the
    function-static counter of [Row::get_gen]. *)
From S2P Require Export Libc.

(** ** Renditions *)

Definition true_color_mask : Z := 0x1000000.

(** Bit-fields of 25, 25 and 8 bits. *)
Record Renditions : Type := MkRenditions {
  foreground_color : Z; background_color : Z; attributes : Z }.
#[export] Instance eta_Renditions : Eta Renditions :=
  fun r => MkRenditions (foreground_color r) (background_color r) (attributes r).
#[export] Instance Renditions_eq_dec : EqDecision Renditions.
Proof. solve_decision. Defined.

Definition field25 (z : Z) : Z := z mod 2 ^ 25.
Definition field8 (z : Z) : Z := z mod 2 ^ 8.

(** [attribute_type]: the position of the attribute's bit. *)
Definition bold : Z := 0.
Definition faint : Z := 1.
Definition italic : Z := 2.
Definition underlined : Z := 3.
Definition blink : Z := 4.
Definition inverse : Z := 5.
Definition invisible : Z := 6.

Definition Renditions_new (s_background : Z) : Renditions :=
  MkRenditions 0 (field25 s_background) 0.

Definition make_true_color (r g b : Z) : Z :=
  Z.lor (Z.lor (Z.lor true_color_mask (u32 (Z.shiftl r 16))) (u32 (Z.shiftl g 8))) b.
Definition is_true_color (color : Z) : bool := negb (Z.land (u32 color) true_color_mask =? 0).

Definition set_attribute (attr : Z) (val : bool) (r : Renditions) : Renditions :=
  r <| attributes := field8 (if val then Z.lor (attributes r) (Z.shiftl 1 attr)
                             else Z.land (attributes r) (Z.lnot (Z.shiftl 1 attr))) |>.
Definition get_attribute (attr : Z) (r : Renditions) : bool :=
  negb (Z.land (attributes r) (Z.shiftl 1 attr) =? 0).
Definition clear_attributes (r : Renditions) : Renditions := r <| attributes := 0 |>.

Definition set_rendition (num : Z) (r : Renditions) : Renditions :=
  if num =? 0 then (clear_attributes r) <| background_color := 0 |> <| foreground_color := 0 |>
  else if num =? 39 then r <| foreground_color := 0 |>
  else if num =? 49 then r <| background_color := 0 |>
  else if (30 <=? num) && (num <=? 37) then r <| foreground_color := num |>
  else if (40 <=? num) && (num <=? 47) then r <| background_color := num |>
  else if (90 <=? num) && (num <=? 97) then r <| foreground_color := num - 90 + 38 |>
  else if (100 <=? num) && (num <=? 107) then r <| background_color := num - 100 + 48 |>
  else
    let value := num <? 9 in
    if (num =? 1) || (num =? 22) then set_attribute bold value r
    else if (num =? 3) || (num =? 23) then set_attribute italic value r
    else if (num =? 4) || (num =? 24) then set_attribute underlined value r
    else if (num =? 5) || (num =? 25) then set_attribute blink value r
    else if (num =? 7) || (num =? 27) then set_attribute inverse value r
    else if (num =? 8) || (num =? 28) then set_attribute invisible value r
    else r.

Definition set_foreground_color (num : Z) (r : Renditions) : Renditions :=
  if (0 <=? num) && (num <=? 255) then r <| foreground_color := 30 + num |>
  else if is_true_color num then r <| foreground_color := field25 num |>
  else r.

Definition set_background_color (num : Z) (r : Renditions) : Renditions :=
  if (0 <=? num) && (num <=? 255) then r <| background_color := 40 + num |>
  else if is_true_color num then r <| background_color := field25 num |>
  else r.

(** The colour part of [sgr]: [base] is 38/48, [low] 30/40, [ansi] 37/47. *)
Definition sgr_color (base low ansi color : Z) : bytes :=
  if color =? 0 then []
  else snprintf 64
    (if is_true_color color then
       59 :: dec base ++ str ";2;" ++ dec (Z.land (Z.shiftr color 16) 0xff) ++ str ";"
          ++ dec (Z.land (Z.shiftr color 8) 0xff) ++ str ";" ++ dec (Z.land color 0xff)
     else if ansi <? color then 59 :: dec base ++ str ";5;" ++ dec (color - low)
     else 59 :: dec color).

Definition sgr (r : Renditions) : bytes :=
  let attr a code := if get_attribute a r then str code else [] in
  27 :: str "[0" ++ attr bold ";1" ++ attr italic ";3" ++ attr underlined ";4"
    ++ attr blink ";5" ++ attr inverse ";7" ++ attr invisible ";8"
    ++ sgr_color 38 30 37 (foreground_color r)
    ++ sgr_color 48 40 47 (background_color r) ++ str "m".

(** ** Hyperlinks *)

(** [rep]: null, or the parameters and the URL. *)
Definition Hyperlink : Type := option (bytes * bytes).
Definition Hyperlink_empty : Hyperlink := None.
Definition Hyperlink_new (params url : bytes) : Hyperlink :=
  match url with [] => None | _ => Some (params, url) end.
Definition Hyperlink_eqb (x y : Hyperlink) : bool := bool_decide (x = y).
Definition osc8 (h : Hyperlink) : bytes :=
  27 :: str "]8;" ++ (match h with Some (p, _) => p | None => [] end)
    ++ str ";" ++ (match h with Some (_, u) => u | None => [] end) ++ [27; 92].

(** ** Cells *)

Record Cell : Type := MkCell {
  contents : bytes; cell_renditions : Renditions; cell_hyperlink : Hyperlink;
  wide : bool; fallback : bool; wrap : bool }.
#[export] Instance eta_Cell : Eta Cell :=
  fun c => MkCell (contents c) (cell_renditions c) (cell_hyperlink c) (wide c) (fallback c) (wrap c).
#[export] Instance Cell_eq_dec : EqDecision Cell.
Proof. solve_decision. Defined.

Definition Cell_new (background_color : Z) : Cell :=
  MkCell [] (Renditions_new background_color) Hyperlink_empty false false false.
Definition Cell_reset (background_color : Z) (c : Cell) : Cell :=
  c <| contents := [] |> <| cell_renditions := Renditions_new background_color |>
    <| cell_hyperlink := Hyperlink_empty |> <| wide := false |> <| fallback := false |>
    <| wrap := false |>.
Definition Cell_empty (c : Cell) : bool := match contents c with [] => true | _ => false end.
Definition Cell_full (c : Cell) : bool := 32 <=? lenZ (contents c).
Definition is_blank (c : Cell) : bool :=
  Cell_empty c || bool_decide (contents c = [32]) || bool_decide (contents c = [0xC2; 0xA0]).
Definition contents_match (c other : Cell) : bool :=
  (is_blank c && is_blank other) || bool_decide (contents c = contents other).
Definition isprint_iso8859_1 (c : Z) : bool :=
  ((c <=? 0xff) && (0xa0 <=? c)) || ((c <=? 0x7e) && (0x20 <=? c)).
(** [Cell::append_to_str] / [Cell::append]: a character [wcrtomb] rejects
    would append [(size_t)-1] octets. *)
Definition append_to_str (dest : bytes) (c : Z) : result fault bytes :=
  if u32 c <=? 0x7f then Ok (dest ++ [c])
  else match wcrtomb c with
       | Some s => Ok (dest ++ s)
       | None => Err Undefined
       end.
Definition Cell_append (ch : Z) (c : Cell) : result fault Cell :=
  s ← append_to_str (contents c) ch; Ok (c <| contents := s |>).
Definition print_grapheme (c : Cell) (output : bytes) : bytes :=
  match contents c with
  | [] => output ++ [32]
  | s => output ++ (if fallback c then [0xC2; 0xA0] else []) ++ s
  end.
Definition get_width_cell (c : Cell) : Z := if wide c then 2 else 1.

(** ** Rows *)

Record Row : Type := MkRow { cells : list Cell; gen : Z }.
#[export] Instance eta_Row : Eta Row := fun r => MkRow (cells r) (gen r).
#[export] Instance Row_eq_dec : EqDecision Row.
Proof. solve_decision. Defined.

(** [Row( s_width, bg )] with the generation number drawn. *)
Definition Row_new (s_width background_color g : Z) : Row :=
  MkRow (replicate (Z.to_nat s_width) (Cell_new background_color)) g.
Definition Row_insert_cell (col background_color : Z) (r : Row) : result fault Row :=
  cs ← insert_range col 1 (Cell_new background_color) (cells r);
  Ok (r <| cells := take (length cs - 1) cs |>).
Definition Row_delete_cell (col background_color : Z) (r : Row) : result fault Row :=
  cs ← erase_range col 1 (cells r ++ [Cell_new background_color]);
  Ok (r <| cells := cs |>).
Definition Row_reset (background_color g : Z) (r : Row) : Row :=
  r <| gen := g |> <| cells := Cell_reset background_color <$> cells r |>.
(** [cells.back()] of a row without cells is undefined. *)
Definition Row_get_wrap (r : Row) : result fault bool :=
  match last (cells r) with Some c => Ok (wrap c) | None => Err Undefined end.
Definition Row_set_wrap (w : bool) (r : Row) : result fault Row :=
  match last (cells r) with
  | Some c => Ok (r <| cells := take (length (cells r) - 1) (cells r) ++ [c <| wrap := w |>] |>)
  | None => Err Undefined
  end.

(** ** Draw state *)

Record SavedCursor : Type := MkSavedCursor {
  sc_cursor_col : Z; sc_cursor_row : Z; sc_renditions : Renditions;
  sc_auto_wrap_mode : bool; sc_origin_mode : bool }.
#[export] Instance eta_SavedCursor : Eta SavedCursor :=
  fun s => MkSavedCursor (sc_cursor_col s) (sc_cursor_row s) (sc_renditions s)
             (sc_auto_wrap_mode s) (sc_origin_mode s).
Definition SavedCursor_new : SavedCursor := MkSavedCursor 0 0 (Renditions_new 0) true false.

(** [MouseReportingMode] and [MouseEncodingMode] are their integer values. *)
Definition MOUSE_REPORTING_NONE : Z := 0.
Definition MOUSE_ENCODING_DEFAULT : Z := 0.

Record DrawState : Type := MkDrawState {
  width : Z; height : Z;
  cursor_col : Z; cursor_row : Z;
  combining_char_col : Z; combining_char_row : Z;
  default_tabs : bool; tabs : list bool;
  scrolling_region_top_row : Z; scrolling_region_bottom_row : Z;
  ds_renditions : Renditions; ds_hyperlink : Hyperlink; save : SavedCursor;
  next_print_will_wrap : bool; origin_mode : bool; auto_wrap_mode : bool;
  insert_mode : bool; cursor_visible : bool; reverse_video : bool;
  bracketed_paste : bool; mouse_reporting_mode : Z; mouse_focus_event : bool;
  mouse_alternate_scroll : bool; mouse_encoding_mode : Z;
  application_mode_cursor_keys : bool }.
#[export] Instance eta_DrawState : Eta DrawState :=
  fun d => MkDrawState (width d) (height d) (cursor_col d) (cursor_row d)
    (combining_char_col d) (combining_char_row d) (default_tabs d) (tabs d)
    (scrolling_region_top_row d) (scrolling_region_bottom_row d)
    (ds_renditions d) (ds_hyperlink d) (save d) (next_print_will_wrap d)
    (origin_mode d) (auto_wrap_mode d) (insert_mode d) (cursor_visible d)
    (reverse_video d) (bracketed_paste d) (mouse_reporting_mode d)
    (mouse_focus_event d) (mouse_alternate_scroll d) (mouse_encoding_mode d)
    (application_mode_cursor_keys d).

(** [tabs[i] = ((i % 8) == 0)] from [start] on. *)
Definition reinitialize_tabs (start : Z) (ts : list bool) : list bool :=
  imap (fun i t => if start <=? Z.of_nat i then Z.of_nat i mod 8 =? 0 else t) ts.

Definition DrawState_new (s_width s_height : Z) : DrawState :=
  MkDrawState s_width s_height 0 0 0 0 true
    (reinitialize_tabs 0 (replicate (Z.to_nat s_width) false))
    0 (s_height - 1) (Renditions_new 0) Hyperlink_empty SavedCursor_new
    false false true false true false false MOUSE_REPORTING_NONE false false
    MOUSE_ENCODING_DEFAULT false.

Definition new_grapheme (d : DrawState) : DrawState :=
  d <| combining_char_col := cursor_col d |> <| combining_char_row := cursor_row d |>.

Definition limit_top (d : DrawState) : Z :=
  if origin_mode d then scrolling_region_top_row d else 0.
Definition limit_bottom (d : DrawState) : Z :=
  if origin_mode d then scrolling_region_bottom_row d else height d - 1.

Definition snap_cursor_to_border (d : DrawState) : DrawState :=
  let d := if cursor_row d <? limit_top d then d <| cursor_row := limit_top d |> else d in
  let d := if limit_bottom d <? cursor_row d then d <| cursor_row := limit_bottom d |> else d in
  let d := if cursor_col d <? 0 then d <| cursor_col := 0 |> else d in
  if width d <=? cursor_col d then d <| cursor_col := width d - 1 |> else d.

Definition move_row (N : Z) (relative : bool) (d : DrawState) : DrawState :=
  let d := if relative then d <| cursor_row := cursor_row d + N |>
           else d <| cursor_row := N + limit_top d |> in
  (new_grapheme (snap_cursor_to_border d)) <| next_print_will_wrap := false |>.

Definition move_col (N : Z) (relative implicit : bool) (d : DrawState) : DrawState :=
  let d := if implicit then new_grapheme d else d in
  let d := if relative then d <| cursor_col := cursor_col d + N |>
           else d <| cursor_col := N |> in
  let d := if implicit then d <| next_print_will_wrap := width d <=? cursor_col d |> else d in
  let d := snap_cursor_to_border d in
  if implicit then d else (new_grapheme d) <| next_print_will_wrap := false |>.

(** [tabs[i]] outside the vector is undefined. *)
Definition set_tab (d : DrawState) : result fault DrawState :=
  _ ← index_ (tabs d) (cursor_col d); Ok (d <| tabs := updateZ (tabs d) (cursor_col d) true |>).
Definition clear_tab (col : Z) (d : DrawState) : result fault DrawState :=
  _ ← index_ (tabs d) col; Ok (d <| tabs := updateZ (tabs d) col false |>).
Definition clear_default_tabs (d : DrawState) : DrawState := d <| default_tabs := false |>.

(** The forward search from column [i] over [n] columns, [count] stops ahead. *)
Fixpoint next_tab_forward (ts : list bool) (n : nat) (i count : Z) : result fault Z :=
  match n with
  | O => Ok (-1)
  | S n' =>
      t ← index_ ts i;
      if (t : bool) then if count - 1 =? 0 then Ok i else next_tab_forward ts n' (i + 1) (count - 1)
      else next_tab_forward ts n' (i + 1) count
  end.
(** The backward search: columns [i], [i-1], ... down to 1. *)
Fixpoint next_tab_backward (ts : list bool) (n : nat) (i count : Z) : result fault Z :=
  match n with
  | O => Ok 0
  | S n' =>
      t ← index_ ts i;
      if (t : bool) then if count + 1 =? 0 then Ok i else next_tab_backward ts n' (i - 1) (count + 1)
      else next_tab_backward ts n' (i - 1) count
  end.
Definition get_next_tab (count : Z) (d : DrawState) : result fault Z :=
  if 0 <=? count
  then next_tab_forward (tabs d) (Z.to_nat (width d - (cursor_col d + 1))) (cursor_col d + 1) count
  else next_tab_backward (tabs d) (Z.to_nat (cursor_col d - 1)) (cursor_col d - 1) count.

Definition set_scrolling_region (top bottom : Z) (d : DrawState) : DrawState :=
  if height d <? 1 then d else
  let top := if top <? 0 then 0 else top in
  let bottom := if height d <=? bottom then height d - 1 else bottom in
  let bottom := if bottom <? top then top else bottom in
  let d := d <| scrolling_region_top_row := top |> <| scrolling_region_bottom_row := bottom |> in
  if origin_mode d then new_grapheme (snap_cursor_to_border d) else d.

Definition save_cursor (d : DrawState) : DrawState :=
  d <| save := MkSavedCursor (cursor_col d) (cursor_row d) (ds_renditions d)
                 (auto_wrap_mode d) (origin_mode d) |>.
Definition restore_cursor (d : DrawState) : DrawState :=
  let s := save d in
  new_grapheme (snap_cursor_to_border
    (d <| cursor_col := sc_cursor_col s |> <| cursor_row := sc_cursor_row s |>
       <| ds_renditions := sc_renditions s |> <| auto_wrap_mode := sc_auto_wrap_mode s |>
       <| origin_mode := sc_origin_mode s |>)).
Definition clear_saved_cursor (d : DrawState) : DrawState := d <| save := SavedCursor_new |>.

Definition set_hyperlink (h : Hyperlink) (d : DrawState) : DrawState := d <| ds_hyperlink := h |>.
Definition ds_set_foreground_color (x : Z) (d : DrawState) : DrawState :=
  d <| ds_renditions := set_foreground_color x (ds_renditions d) |>.
Definition ds_set_background_color (x : Z) (d : DrawState) : DrawState :=
  d <| ds_renditions := set_background_color x (ds_renditions d) |>.
Definition add_rendition (x : Z) (d : DrawState) : DrawState :=
  d <| ds_renditions := set_rendition x (ds_renditions d) |>.
Definition get_background_rendition (d : DrawState) : Z := background_color (ds_renditions d).

Definition DrawState_resize (s_width s_height : Z) (d : DrawState) : DrawState :=
  let d := if negb (width d =? s_width) || negb (height d =? s_height)
           then d <| scrolling_region_top_row := 0 |>
                  <| scrolling_region_bottom_row := s_height - 1 |>
           else d in
  let d := d <| tabs := resize (Z.to_nat s_width) false (tabs d) |> in
  let d := if default_tabs d then d <| tabs := reinitialize_tabs (width d) (tabs d) |> else d in
  let d := d <| width := s_width |> <| height := s_height |> in
  let d := snap_cursor_to_border d in
  if (width d <=? combining_char_col d) || (height d <=? combining_char_row d)
  then d <| combining_char_row := -1 |> <| combining_char_col := -1 |> else d.

(** ** Framebuffer *)

Record Framebuffer : Type := MkFramebuffer {
  rows : list Row; icon_name : list Z; window_title : list Z; clipboard : list Z;
  bell_count : Z; title_initialized : bool; ds : DrawState }.
#[export] Instance eta_Framebuffer : Eta Framebuffer :=
  fun f => MkFramebuffer (rows f) (icon_name f) (window_title f) (clipboard f)
             (bell_count f) (title_initialized f) (ds f).

(** A framebuffer together with the static counter of [Row::get_gen]. *)
Record Screen : Type := MkScreen { gen_counter : Z; fb : Framebuffer }.
#[export] Instance eta_Screen : Eta Screen := fun s => MkScreen (gen_counter s) (fb s).

Definition scr_ds (s : Screen) : DrawState := ds (fb s).
Definition put_ds (d : DrawState) (s : Screen) : Screen := s <| fb := (fb s) <| ds := d |> |>.
Definition put_rows (r : list Row) (s : Screen) : Screen := s <| fb := (fb s) <| rows := r |> |>.

(** A void method of [ds]. *)
Definition on_ds (f : DrawState -> DrawState) : M Screen unit :=
  modify (fun s => put_ds (f (scr_ds s)) s).
Definition on_ds_res (f : DrawState -> result fault DrawState) : M Screen unit :=
  d ← gets scr_ds; d' ← lift (f d); modify (put_ds d').

Definition get_gen : M Screen Z :=
  fun s => Ok (gen_counter s, s <| gen_counter := u64 (gen_counter s + 1) |>).

Definition newrow : M Screen Row :=
  w ← gets (fun s => width (scr_ds s));
  c ← gets (fun s => get_background_rendition (scr_ds s));
  g ← get_gen;
  mret (Row_new w c g).

Definition Framebuffer_new (s_width s_height g : Z) : result fault Framebuffer :=
  if (0 <? s_height) && (0 <? s_width)
  then Ok (MkFramebuffer (replicate (Z.to_nat s_height) (Row_new s_width 0 g))
             [] [] [] 0 false (DrawState_new s_width s_height))
  else Err AssertFail.

(** [row == -1] and [col == -1] stand for the cursor. *)
Definition resolve_row (row : Z) (s : Screen) : Z := if row =? -1 then cursor_row (scr_ds s) else row.
Definition resolve_col (col : Z) (s : Screen) : Z := if col =? -1 then cursor_col (scr_ds s) else col.

Definition get_row (row : Z) : M Screen Row :=
  r ← gets (resolve_row row); rs ← gets (fun s => rows (fb s)); lift (at_ rs r).
Definition get_cell (row col : Z) : M Screen Cell :=
  r ← get_row row; c ← gets (resolve_col col); lift (at_ (cells r) c).

(** A write through [get_mutable_row( row )]. *)
Definition with_row (row : Z) (f : Row -> result fault Row) : M Screen unit :=
  i ← gets (resolve_row row);
  r ← get_row row;
  r' ← lift (f r);
  modify (fun s => put_rows (updateZ (rows (fb s)) i r') s).
(** A write through [get_mutable_cell( row, col )]. *)
Definition with_cell (row col : Z) (f : Cell -> result fault Cell) : M Screen unit :=
  c ← gets (resolve_col col);
  with_row row (fun r =>
    x ← at_ (cells r) c; x' ← f x; Ok (r <| cells := updateZ (cells r) c x' |>)).

Definition reset_cell (row col : Z) : M Screen unit :=
  b ← gets (fun s => get_background_rendition (scr_ds s));
  with_cell row col (fun c => Ok (Cell_reset b c)).
Definition reset_row (row : Z) : M Screen unit :=
  b ← gets (fun s => get_background_rendition (scr_ds s));
  g ← get_gen;
  with_row row (fun r => Ok (Row_reset b g r)).

Definition insert_line (before_row count : Z) : M Screen unit :=
  d ← gets scr_ds;
  if (before_row <? scrolling_region_top_row d)
     || (scrolling_region_bottom_row d + 1 <? before_row) then mret tt else
  let scroll := scrolling_region_bottom_row d + 1 - before_row in
  let scroll := if count <? scroll then count else scroll in
  if scroll =? 0 then mret tt else
  rs ← gets (fun s => rows (fb s));
  rs ← lift (erase_range (scrolling_region_bottom_row d + 1 - scroll) scroll rs);
  r ← newrow;
  rs ← lift (insert_range before_row scroll r rs);
  modify (put_rows rs).

Definition delete_line (row count : Z) : M Screen unit :=
  d ← gets scr_ds;
  if (row <? scrolling_region_top_row d)
     || (scrolling_region_bottom_row d <? row) then mret tt else
  let scroll := scrolling_region_bottom_row d + 1 - row in
  let scroll := if count <? scroll then count else scroll in
  if scroll =? 0 then mret tt else
  rs ← gets (fun s => rows (fb s));
  rs ← lift (erase_range row scroll rs);
  r ← newrow;
  rs ← lift (insert_range (scrolling_region_bottom_row d + 1 - scroll) scroll r rs);
  modify (put_rows rs).

Definition scroll (N : Z) : M Screen unit :=
  d ← gets scr_ds;
  if 0 <=? N then delete_line (scrolling_region_top_row d) N
  else insert_line (scrolling_region_top_row d) (- N).

Definition move_rows_autoscroll (n : Z) : M Screen unit :=
  d ← gets scr_ds;
  if (cursor_row d <? scrolling_region_top_row d)
     || (scrolling_region_bottom_row d <? cursor_row d)
  then on_ds (move_row n true)
  else
    (if scrolling_region_bottom_row d <? cursor_row d + n then
       let N := cursor_row d + n - scrolling_region_bottom_row d in
       scroll N ;; on_ds (move_row (- N) true)
     else if cursor_row d + n <? scrolling_region_top_row d then
       let N := cursor_row d + n - scrolling_region_top_row d in
       scroll N ;; on_ds (move_row (- N) true)
     else mret tt) ;;
    on_ds (move_row n true).

(** The coordinates of the combining cell, [None] for a null pointer. *)
Definition get_combining_cell (d : DrawState) : option (Z * Z) :=
  if (combining_char_col d <? 0) || (combining_char_row d <? 0)
     || (width d <=? combining_char_col d) || (height d <=? combining_char_row d)
  then None
  else Some (combining_char_row d, combining_char_col d).

Definition apply_renditions_to_cell (row col : Z) : M Screen unit :=
  r ← gets (fun s => ds_renditions (scr_ds s));
  with_cell row col (fun c => Ok (c <| cell_renditions := r |>)).
Definition apply_hyperlink_to_cell (row col : Z) : M Screen unit :=
  h ← gets (fun s => ds_hyperlink (scr_ds s));
  with_cell row col (fun c => Ok (c <| cell_hyperlink := h |>)).

Definition insert_cell (row col : Z) : M Screen unit :=
  b ← gets (fun s => get_background_rendition (scr_ds s));
  with_row row (Row_insert_cell col b).
Definition delete_cell (row col : Z) : M Screen unit :=
  b ← gets (fun s => get_background_rendition (scr_ds s));
  with_row row (Row_delete_cell col b).

Definition fb_reset : M Screen unit :=
  d ← gets scr_ds;
  modify (put_ds (DrawState_new (width d) (height d))) ;;
  r ← newrow;
  modify (fun s => s <| fb := (fb s) <| rows := replicate (Z.to_nat (height d)) r |>
                                     <| window_title := [] |> <| clipboard := [] |> |>).

Definition soft_reset : M Screen unit :=
  on_ds (fun d =>
    let d := d <| insert_mode := false |> <| origin_mode := false |>
               <| cursor_visible := true |> <| application_mode_cursor_keys := false |> in
    let d := set_scrolling_region 0 (height d - 1) d in
    clear_saved_cursor (set_hyperlink Hyperlink_empty (add_rendition 0 d))).

(** The loop of [resize]: rows before the first [blankrow] are copied, unwrapped
    and resized.  A row carries whether its pointer is [blankrow]. *)
Fixpoint resize_rows (s_width bg : Z) (rs : list (Row * bool)) : result fault (list Row) :=
  match rs with
  | [] => Ok []
  | (r, true) :: _ => Ok (fst <$> rs)
  | (r, false) :: rs' =>
      r1 ← Row_set_wrap false r;
      rest ← resize_rows s_width bg rs';
      Ok (r1 <| cells := list.resize (Z.to_nat s_width) (Cell_new bg) (cells r1) |> :: rest)
  end.

Definition fb_resize (s_width s_height : Z) : M Screen unit :=
  assert_ (0 <? s_width) ;;
  assert_ (0 <? s_height) ;;
  oldheight ← gets (fun s => height (scr_ds s));
  oldwidth ← gets (fun s => width (scr_ds s));
  on_ds (DrawState_resize s_width s_height) ;;
  blankrow ← newrow;
  rs ← gets (fun s => (fun r : Row => (r, false)) <$> rows (fb s));
  let rs := if negb (oldheight =? s_height)
            then list.resize (Z.to_nat s_height) (blankrow, true) rs else rs in
  modify (put_rows (fst <$> rs)) ;;
  if oldwidth =? s_width then mret tt else
  bg ← gets (fun s => get_background_rendition (scr_ds s));
  rs' ← lift (resize_rows s_width bg rs);
  modify (put_rows rs').

Definition set_title_initialized (f : Framebuffer) : Framebuffer := f <| title_initialized := true |>.
Definition set_icon_name (t : list Z) (f : Framebuffer) : Framebuffer := f <| icon_name := t |>.
Definition set_window_title (t : list Z) (f : Framebuffer) : Framebuffer := f <| window_title := t |>.
Definition set_clipboard (t : list Z) (f : Framebuffer) : Framebuffer := f <| clipboard := t |>.
Definition prefix_window_title (s : list Z) (f : Framebuffer) : Framebuffer :=
  let f := if bool_decide (icon_name f = window_title f)
           then f <| icon_name := s ++ icon_name f |> else f in
  f <| window_title := s ++ window_title f |>.
Definition ring_bell (f : Framebuffer) : Framebuffer := f <| bell_count := u32 (bell_count f + 1) |>.
Definition on_fb (g : Framebuffer -> Framebuffer) : M Screen unit :=
  modify (fun s => s <| fb := g (fb s) |>).

(** ** Invariants *)

Definition color_ok (low c : Z) : Prop :=
  c = 0 \/ low <= c <= low + 255 \/ 2 ^ 24 <= c < 2 ^ 25.
Definition wf_attributes (a : Z) : bool := (0 <=? a) && (a <? 128) && negb (Z.testbit a faint).

(** Colours are default, palette entries or true colours; [faint] and bit 7
    are never set. *)
Definition rend_wf (r : Renditions) : Prop :=
  color_ok 30 (foreground_color r) /\ color_ok 40 (background_color r) /\
  wf_attributes (attributes r) = true.

(** An empty cell is narrow (the assertion in [Emulator::print]). *)
Definition cell_wf (c : Cell) : Prop :=
  rend_wf (cell_renditions c) /\ (contents c = [] -> wide c = false).
Definition row_wf (w : Z) (r : Row) : Prop := lenZ (cells r) = w /\ Forall cell_wf (cells r).
Definition rows_inv (w h : Z) (rs : list Row) : Prop := lenZ rs = h /\ Forall (row_wf w) rs.

Record ds_inv (w h : Z) (d : DrawState) : Prop := {
  inv_width : width d = w;
  inv_height : height d = h;
  inv_size : 0 < w /\ 0 < h;
  inv_col : 0 <= cursor_col d < w;
  inv_row : 0 <= cursor_row d < h;
  inv_combining_col : -1 <= combining_char_col d < w;
  inv_combining_row : -1 <= combining_char_row d < h;
  inv_tabs : lenZ (tabs d) = w;
  inv_region : 0 <= scrolling_region_top_row d /\
               scrolling_region_top_row d <= scrolling_region_bottom_row d < h;
  inv_renditions : rend_wf (ds_renditions d);
  inv_save : rend_wf (sc_renditions (save d));
}.

(** The screen has [h] rows of [w] cells and a draw state that fits them. *)
Definition scr_inv (w h : Z) (s : Screen) : Prop :=
  ds_inv w h (scr_ds s) /\ rows_inv w h (rows (fb s)).

Lemma field25_small c : 0 <= c < 2 ^ 25 -> field25 c = c.
Proof. apply Z.mod_small. Qed.

Lemma Renditions_new_wf c : color_ok 40 c -> rend_wf (Renditions_new c).
Proof.
  intros H. unfold Renditions_new, rend_wf, color_ok in *.
  cbn [foreground_color background_color attributes].
  rewrite field25_small by lia. split_and!; auto; lia.
Qed.

Lemma set_attribute_range attr v a :
  attr ∈ [bold; italic; underlined; blink; inverse; invisible] -> wf_attributes a = true ->
  wf_attributes (attributes (set_attribute attr v (MkRenditions 0 0 a))) = true.
Proof.
  intros Hattr Ha.
  assert (H : forallb (fun a => forallb (fun attr => forallb (fun v =>
      negb (wf_attributes a) ||
      wf_attributes (attributes (set_attribute attr v (MkRenditions 0 0 a)))) [true; false])
      [bold; italic; underlined; blink; inverse; invisible]) (seqZ 0 128) = true)
    by (vm_compute; reflexivity).
  pose proof (forall_range _ _ H a) as H'. cbv beta in H'.
  assert (Hr : 0 <= a < 128) by (unfold wf_attributes in Ha; lia).
  specialize (H' Hr). rewrite forallb_forall in H'.
  specialize (H' attr (proj1 (list_elem_of_In _ _) Hattr)). rewrite forallb_forall in H'.
  assert (Hv : In v [true; false]) by (destruct v; cbn; auto).
  specialize (H' v Hv). rewrite Ha in H'. exact H'.
Qed.

Lemma set_attribute_wf attr v r :
  attr ∈ [bold; italic; underlined; blink; inverse; invisible] ->
  rend_wf r -> rend_wf (set_attribute attr v r).
Proof.
  intros Hattr (Hf & Hb & Ha). split_and!; [done..|].
  by apply set_attribute_range.
Qed.

Lemma set_rendition_wf n r : rend_wf r -> rend_wf (set_rendition n r).
Proof.
  intros Hr. unfold set_rendition, clear_attributes.
  repeat case_match; try (apply set_attribute_wf; [set_solver|done]); try done;
    destruct Hr as (Hf & Hb & Ha); unfold rend_wf, color_ok in *; cbn; split_and!; auto; lia.
Qed.

(** Bit 24 of a true colour survives the truncation to the field. *)
Lemma true_color_field c : is_true_color c = true -> 2 ^ 24 <= field25 c < 2 ^ 25.
Proof.
  unfold is_true_color, field25, u32. intros H.
  assert (Hb : Z.testbit (c mod 2 ^ 25) 24 = true).
  { rewrite Z.mod_pow2_bits_low by lia.
    apply not_false_is_true. intros Hf. apply negb_true_iff, Z.eqb_neq in H. apply H.
    apply Z.bits_inj'. intros n Hn. rewrite Z.land_spec, Z.bits_0.
    destruct (Z.eq_dec n 24) as [->|Hne].
    - rewrite Z.mod_pow2_bits_low, Hf by lia. done.
    - change true_color_mask with (2 ^ 24). rewrite Z.pow2_bits_false, andb_false_r by lia. done. }
  pose proof (Z.mod_pos_bound c (2 ^ 25) ltac:(lia)) as Hp. split; [|lia].
  destruct (Z.lt_ge_cases (c mod 2 ^ 25) (2 ^ 24)) as [Hlt|]; [|done].
  rewrite Z.bits_above_log2 in Hb; [done|lia|].
  destruct (Z.eq_dec (c mod 2 ^ 25) 0) as [->|]; [done|]. apply Z.log2_lt_pow2; lia.
Qed.

Lemma set_colors_wf n r :
  rend_wf r -> rend_wf (set_foreground_color n r) /\ rend_wf (set_background_color n r).
Proof.
  intros (Hf & Hb & Ha). unfold set_foreground_color, set_background_color.
  destruct ((0 <=? n) && (n <=? 255)) eqn:E.
  { split; split_and!; auto; unfold color_ok; cbn; lia. }
  destruct (is_true_color n) eqn:Et; [|done]. apply true_color_field in Et.
  split; split_and!; auto; unfold color_ok; cbn [foreground_color background_color set_field]; lia.
Qed.

Lemma Cell_new_wf c : color_ok 40 c -> cell_wf (Cell_new c).
Proof. intros. split; [by apply Renditions_new_wf|done]. Qed.
Lemma Cell_reset_wf b c : color_ok 40 b -> cell_wf (Cell_reset b c).
Proof. intros. split; [by apply Renditions_new_wf|done]. Qed.

Lemma Row_new_wf w c g : 0 <= w -> color_ok 40 c -> row_wf w (Row_new w c g).
Proof.
  intros. split; cbn [cells Row_new]; [by apply lenZ_replicate|].
  by apply Forall_replicate, Cell_new_wf.
Qed.

(** *** Draw-state methods *)

(** A conditional assignment to the cursor. *)
Lemma if_cursor_row (b : bool) x d :
  (if b then d <| cursor_row := x |> else d) = d <| cursor_row := if b then x else cursor_row d |>.
Proof. by destruct b, d. Qed.
Lemma if_cursor_col (b : bool) x d :
  (if b then d <| cursor_col := x |> else d) = d <| cursor_col := if b then x else cursor_col d |>.
Proof. by destruct b, d. Qed.

(** [snap_cursor_to_border] clamps the cursor and changes nothing else. *)
Lemma snap_eq d :
  snap_cursor_to_border d =
    d <| cursor_row := Z.min (limit_bottom d) (Z.max (limit_top d) (cursor_row d)) |>
      <| cursor_col := Z.min (width d - 1) (Z.max 0 (cursor_col d)) |>.
Proof.
  unfold snap_cursor_to_border. rewrite !if_cursor_row, !if_cursor_col.
  set (r := if (limit_bottom _ <? _) then _ else _).
  set (c := if (_ <=? _) then _ else _).
  replace r with (Z.min (limit_bottom d) (Z.max (limit_top d) (cursor_row d))).
  2: { subst r. unfold limit_top, limit_bottom. cbn -[Z.min Z.max Z.sub].
       repeat case_match; lia. }
  replace c with (Z.min (width d - 1) (Z.max 0 (cursor_col d))); [by destruct d|].
  subst c. cbn -[Z.min Z.max Z.sub]. repeat case_match; lia.
Qed.

Lemma length_reinitialize_tabs start ts : length (reinitialize_tabs start ts) = length ts.
Proof. apply length_imap. Qed.

(** Every draw-state method of the escape functions keeps the invariant. *)
#[local] Ltac ds_solve :=
  repeat match goal with H : ds_inv _ _ _ |- _ => destruct H end;
  unfold limit_top, limit_bottom in *;
  split; cbn -[Z.min Z.max Z.add Z.sub] in *; try done; repeat case_match;
  cbn -[Z.min Z.max Z.add Z.sub] in *; subst; try done; try lia.

Section ds_methods.
Context (w h : Z).
Implicit Types d : DrawState.

Lemma snap_inv d d' :
  ds_inv w h d -> d' = d <| cursor_row := cursor_row d' |> <| cursor_col := cursor_col d' |> ->
  ds_inv w h (snap_cursor_to_border d').
Proof. intros Hd ->. rewrite snap_eq. ds_solve. Qed.

Lemma new_grapheme_inv d : ds_inv w h d -> ds_inv w h (new_grapheme d).
Proof. intros. ds_solve. Qed.

Lemma move_row_inv N rel d : ds_inv w h d -> ds_inv w h (move_row N rel d).
Proof. intros. unfold move_row, new_grapheme. rewrite snap_eq. destruct rel; ds_solve. Qed.

Lemma move_col_inv N rel imp d : ds_inv w h d -> ds_inv w h (move_col N rel imp d).
Proof.
  intros. unfold move_col, new_grapheme. rewrite snap_eq. destruct rel, imp; ds_solve.
Qed.

Lemma set_scrolling_region_inv t b d :
  t < h -> ds_inv w h d -> ds_inv w h (set_scrolling_region t b d).
Proof.
  intros Ht Hd. unfold set_scrolling_region.
  destruct (height d <? 1); [done|]. cbv zeta.
  destruct (origin_mode _); [|ds_solve].
  unfold new_grapheme. rewrite snap_eq. ds_solve.
Qed.

Lemma save_cursor_inv d : ds_inv w h d -> ds_inv w h (save_cursor d).
Proof. intros. ds_solve. Qed.

Lemma restore_cursor_inv d : ds_inv w h d -> ds_inv w h (restore_cursor d).
Proof. intros. unfold restore_cursor, new_grapheme. rewrite snap_eq. ds_solve. Qed.

Lemma add_rendition_inv x d : ds_inv w h d -> ds_inv w h (add_rendition x d).
Proof. intros [] . split; cbn; auto using set_rendition_wf. Qed.
Lemma ds_set_foreground_color_inv x d : ds_inv w h d -> ds_inv w h (ds_set_foreground_color x d).
Proof. intros []. split; cbn; auto. by apply set_colors_wf. Qed.
Lemma ds_set_background_color_inv x d : ds_inv w h d -> ds_inv w h (ds_set_background_color x d).
Proof. intros []. split; cbn; auto. by apply set_colors_wf. Qed.
Lemma set_hyperlink_inv x d : ds_inv w h d -> ds_inv w h (set_hyperlink x d).
Proof. intros []. by split. Qed.

Lemma clear_saved_cursor_inv d : ds_inv w h d -> ds_inv w h (clear_saved_cursor d).
Proof. intros []. split; auto. apply Renditions_new_wf. by left. Qed.

Lemma set_tab_inv d : ds_inv w h d -> exists d', set_tab d = Ok d' /\ ds_inv w h d'.
Proof.
  intros Hd. unfold set_tab, index_.
  destruct (lookupZ_lt (tabs d) (cursor_col d)) as [x ->]; [destruct Hd; lia|].
  eexists. split; [done|]. destruct Hd. split; cbn; auto. by rewrite lenZ_updateZ.
Qed.

Lemma clear_tab_inv col d :
  0 <= col < w -> ds_inv w h d -> exists d', clear_tab col d = Ok d' /\ ds_inv w h d'.
Proof.
  intros Hc Hd. unfold clear_tab, index_.
  destruct (lookupZ_lt (tabs d) col) as [x ->]; [destruct Hd; lia|].
  eexists. split; [done|]. destruct Hd. split; cbn; auto. by rewrite lenZ_updateZ.
Qed.

Lemma DrawState_new_inv : 0 < w -> 0 < h -> ds_inv w h (DrawState_new w h).
Proof.
  intros. split; cbn -[Z.sub]; auto; try lia.
  - unfold lenZ. rewrite length_reinitialize_tabs, length_replicate. lia.
  - apply Renditions_new_wf. by left.
  - apply Renditions_new_wf. by left.
Qed.
End ds_methods.

(** Tab searches stay inside the tab vector; a result is a column or -1. *)
Lemma next_tab_forward_ok ts n i count :
  0 <= i -> i + Z.of_nat n <= lenZ ts ->
  exists c, next_tab_forward ts n i count = Ok c /\ (c = -1 \/ i <= c < lenZ ts).
Proof.
  revert i count. induction n as [|n IH]; intros i count Hi Hn; cbn [next_tab_forward].
  - exists (-1). auto.
  - destruct (lookupZ_lt ts i) as [t Et]; [lia|]. unfold index_. rewrite Et.
    cbn [mbind result_bind].
    destruct t; [case_match; [exists i; split; [done|lia]|]|];
      (edestruct (IH (i + 1)) as (c & -> & Hc); [lia..|]; exists c; split; [done|lia]).
Qed.
Lemma next_tab_backward_ok ts n i count :
  i < lenZ ts -> Z.of_nat n <= i + 1 ->
  exists c, next_tab_backward ts n i count = Ok c /\ (c = 0 \/ 0 <= c <= i).
Proof.
  revert i count. induction n as [|n IH]; intros i count Hi Hn; cbn [next_tab_backward].
  - exists 0. auto.
  - destruct (lookupZ_lt ts i) as [t Et]; [lia|]. unfold index_. rewrite Et.
    cbn [mbind result_bind].
    destruct t; [case_match; [exists i; split; [done|lia]|]|];
      (edestruct (IH (i - 1)) as (c & -> & Hc); [lia..|]; exists c; split; [done|lia]).
Qed.
Lemma get_next_tab_ok w h count d :
  ds_inv w h d -> exists c, get_next_tab count d = Ok c /\ (c = -1 \/ 0 <= c < w).
Proof.
  intros []. unfold get_next_tab. case_match.
  - destruct (next_tab_forward_ok (tabs d) (Z.to_nat (width d - (cursor_col d + 1)))
      (cursor_col d + 1) count) as (c & -> & Hc); [lia..|]. exists c. split; [done|lia].
  - destruct (next_tab_backward_ok (tabs d) (Z.to_nat (cursor_col d - 1))
      (cursor_col d - 1) count) as (c & -> & Hc); [lia..|]. exists c. split; [done|lia].
Qed.

Lemma DrawState_resize_inv w h w' h' d :
  ds_inv w h d -> 0 < w' -> 0 < h' -> ds_inv w' h' (DrawState_resize w' h' d).
Proof.
  intros Hd Hw Hh. pose proof Hd as []. unfold DrawState_resize. cbv zeta.
  assert (Hlen : forall n ts, lenZ (resize (Z.to_nat w') n ts) = w' /\
      (forall k, lenZ (reinitialize_tabs k (resize (Z.to_nat w') n ts)) = w')).
  { intros n ts. unfold lenZ. rewrite length_resize. split; [lia|].
    intros k. rewrite length_reinitialize_tabs, length_resize. lia. }
  rewrite snap_eq.
  repeat case_match; split; cbn -[Z.min Z.max Z.add Z.sub] in *;
    unfold limit_top, limit_bottom in *; cbn -[Z.min Z.max Z.add Z.sub] in *;
    auto; try apply Hlen; repeat case_match; lia.
Qed.

Lemma DrawState_resize_renditions w h d :
  get_background_rendition (DrawState_resize w h d) = get_background_rendition d.
Proof. unfold DrawState_resize. cbv zeta. repeat case_match; rewrite snap_eq; done. Qed.

Lemma DrawState_resize_cursor w h w' h' d :
  ds_inv w h d -> 0 < w' -> 0 < h' ->
  cursor_col (DrawState_resize w' h' d) = Z.min (w' - 1) (cursor_col d) /\
  ((w, h) <> (w', h') -> cursor_row (DrawState_resize w' h' d) = Z.min (h' - 1) (cursor_row d)).
Proof.
  intros [] Hw Hh. unfold DrawState_resize. cbv zeta. rewrite inv_width0, inv_height0.
  assert (Hb : negb (w =? w') || negb (h =? h') = true \/ (w, h) = (w', h')).
  { destruct (Z.eqb_spec w w'), (Z.eqb_spec h h'); subst; auto. }
  rewrite snap_eq. unfold limit_top, limit_bottom.
  destruct Hb as [-> | [= <- <-]]; [|rewrite !Z.eqb_refl]; cbn [negb orb];
    repeat case_match; cbn -[Z.min Z.max Z.add Z.sub] in *; split; try lia; intros; try done; lia.
Qed.

(** *** Screen methods never fault and keep the screen well formed *)

Section screen_methods.
Context (w h : Z).
Implicit Types s : Screen.
Abbreviation safe m := (preserves (scr_inv w h) m).

Lemma on_ds_safe f : (forall d, ds_inv w h d -> ds_inv w h (f d)) -> safe (on_ds f).
Proof. intros Hf. apply preserves_modify. intros s [Hd Hr]. split; [by apply Hf|done]. Qed.

Lemma on_ds_res_safe f :
  (forall d, ds_inv w h d -> exists d', f d = Ok d' /\ ds_inv w h d') -> safe (on_ds_res f).
Proof.
  intros Hf. apply (triple_bind_gets _ _ _ _ (ds_inv w h)); [by intros s []|].
  intros d Hd. apply (triple_bind_lift _ _ _ _ (ds_inv w h)); [auto|].
  intros d' Hd'. apply preserves_modify. by intros s [_ Hr].
Qed.

Lemma on_fb_safe g :
  (forall f, ds (g f) = ds f /\ rows (g f) = rows f) -> safe (on_fb g).
Proof.
  intros Hg. apply preserves_modify. intros s [Hd Hr].
  unfold scr_inv, scr_ds. cbn. destruct (Hg (fb s)) as [-> ->]. done.
Qed.

Lemma bg_ok d : ds_inv w h d -> color_ok 40 (get_background_rendition d).
Proof. intros []. apply inv_renditions0. Qed.

Lemma get_gen_safe : safe get_gen.
Proof. intros s Hs. do 2 eexists. split; [done|exact Hs]. Qed.

Lemma newrow_safe :
  triple (scr_inv w h) newrow (fun r s => scr_inv w h s /\ row_wf w r).
Proof.
  apply (triple_bind_gets _ _ _ _ (fun x => x = w /\ 0 < w)); [intros s [[] _]; tauto|].
  intros ? [-> Hw].
  apply (triple_bind_gets _ _ _ _ (color_ok 40)); [intros s [Hd _]; by apply bg_ok|].
  intros c Hc. apply triple_seq; [apply get_gen_safe|].
  intros g. apply triple_ret. intros s Hs. split; [done|]. apply Row_new_wf; [lia|done].
Qed.

Definition row_index (row : Z) : Prop := row = -1 \/ 0 <= row < h.
Definition col_index (col : Z) : Prop := col = -1 \/ 0 <= col < w.

Lemma resolve_row_ok row s : row_index row -> scr_inv w h s -> 0 <= resolve_row row s < h.
Proof.
  intros Hr [[] _]. unfold resolve_row. destruct (Z.eqb_spec row (-1)); [done|].
  destruct Hr; [done|lia].
Qed.
Lemma resolve_col_ok col s : col_index col -> scr_inv w h s -> 0 <= resolve_col col s < w.
Proof.
  intros Hr [[] _]. unfold resolve_col. destruct (Z.eqb_spec col (-1)); [done|].
  destruct Hr; [done|lia].
Qed.

Lemma rows_at_ok rs r : rows_inv w h rs -> 0 <= r < h ->
  exists x, at_ rs r = Ok x /\ row_wf w x.
Proof.
  intros [Hl Hf] Hr. destruct (at_ok rs r) as (x & E & Ex); [lia|].
  exists x. split; [done|]. by apply (lookupZ_Forall _ _ _ _ Hf Ex).
Qed.

Lemma get_row_safe row : row_index row ->
  triple (scr_inv w h) (get_row row) (fun r s => scr_inv w h s /\ row_wf w r).
Proof.
  intros Hr. apply (triple_bind_gets _ _ _ _ (fun r => 0 <= r < h)).
  { intros s Hs. by apply resolve_row_ok. }
  intros r Hri. apply (triple_bind_gets _ _ _ _ (rows_inv w h)); [by intros s []|].
  intros rs Hrs s Hs. destruct (rows_at_ok rs r Hrs Hri) as (x & E & Hx).
  exists x, s. unfold lift. by rewrite E.
Qed.

Lemma with_row_safe row f :
  row_index row -> (forall r, row_wf w r -> exists r', f r = Ok r' /\ row_wf w r') ->
  safe (with_row row f).
Proof.
  intros Hr Hf. apply (triple_bind_gets _ _ _ _ (fun r => 0 <= r < h)).
  { intros s Hs. by apply resolve_row_ok. }
  intros i Hi. apply (triple_bind _ _ _ _ _ (get_row_safe row Hr)). intros r.
  apply triple_pure. intros Hwr.
  apply (triple_bind_lift _ _ _ _ (row_wf w)); [auto|].
  intros r' Hr'. apply preserves_modify. intros s [Hd [Hl Hrs]].
  split; [done|]. split; cbn; [by rewrite lenZ_updateZ|]. by apply Forall_updateZ.
Qed.

Lemma with_cell_safe row col f :
  row_index row -> col_index col ->
  (forall c, cell_wf c -> exists c', f c = Ok c' /\ cell_wf c') ->
  safe (with_cell row col f).
Proof.
  intros Hr Hc Hf. apply (triple_bind_gets _ _ _ _ (fun c => 0 <= c < w)).
  { intros s Hs. by apply resolve_col_ok. }
  intros c Hci. apply with_row_safe; [done|]. intros r [Hl Hcs].
  destruct (at_ok (cells r) c) as (x & -> & Ex); [lia|].
  destruct (Hf x) as (x' & Ef & Hx'); [by apply (lookupZ_Forall _ _ _ _ Hcs Ex)|].
  cbn. rewrite Ef. cbn. eexists. split; [done|].
  split; cbn; [by rewrite lenZ_updateZ|by apply Forall_updateZ].
Qed.

Lemma reset_cell_safe row col : row_index row -> col_index col -> safe (reset_cell row col).
Proof.
  intros. apply (triple_bind_gets _ _ _ _ (color_ok 40)); [intros s [Hd _]; by apply bg_ok|].
  intros b Hb. apply with_cell_safe; auto. intros c _. eexists.
  split; [done|by apply Cell_reset_wf].
Qed.

Lemma reset_row_safe row : row_index row -> safe (reset_row row).
Proof.
  intros. apply (triple_bind_gets _ _ _ _ (color_ok 40)); [intros s [Hd _]; by apply bg_ok|].
  intros b Hb. apply triple_seq; [apply get_gen_safe|]. intros g.
  apply with_row_safe; [done|]. intros r [Hl Hc]. eexists. split; [done|].
  split; cbn.
  - unfold lenZ. by rewrite length_fmap.
  - apply Forall_fmap, Forall_true. intros x. by apply Cell_reset_wf.
Qed.

Lemma insert_cell_safe row col :
  row_index row -> 0 <= col < w -> safe (insert_cell row col).
Proof.
  intros. apply (triple_bind_gets _ _ _ _ (color_ok 40)); [intros s [Hd _]; by apply bg_ok|].
  intros b Hb. apply with_row_safe; [done|]. intros r [Hl Hc]. unfold Row_insert_cell.
  destruct (insert_range_ok col 1 (Cell_new b) (cells r)) as (l' & -> & Hl' & Hf); [lia..|].
  cbn. eexists. split; [done|]. split; cbn.
  - unfold lenZ in *. rewrite length_take. lia.
  - apply Forall_take, Hf; [done|by apply Cell_new_wf].
Qed.

Lemma delete_cell_safe row col :
  row_index row -> 0 <= col < w -> safe (delete_cell row col).
Proof.
  intros. apply (triple_bind_gets _ _ _ _ (color_ok 40)); [intros s [Hd _]; by apply bg_ok|].
  intros b Hb. apply with_row_safe; [done|]. intros r [Hl Hc]. unfold Row_delete_cell.
  destruct (erase_range_ok col 1 (cells r ++ [Cell_new b])) as (l' & -> & Hl' & Hf);
    [lia..|rewrite lenZ_app; change (lenZ [Cell_new b]) with 1; lia|].
  cbn. eexists. split; [done|]. split; cbn.
  - rewrite lenZ_app in Hl'. change (lenZ [Cell_new b]) with 1 in Hl'. lia.
  - apply Hf, Forall_app. split; [done|]. apply Forall_singleton. by apply Cell_new_wf.
Qed.

(** The common tail of [insert_line] and [delete_line]. *)
Lemma replace_rows_safe from n dest :
  0 <= from -> 0 <= n -> from + n <= h -> 0 <= dest <= h - n ->
  safe (rs ← gets (fun s => rows (fb s));
        rs ← lift (erase_range from n rs);
        r ← newrow;
        rs ← lift (insert_range dest n r rs);
        modify (put_rows rs)).
Proof.
  intros. apply (triple_bind_gets _ _ _ _ (rows_inv w h)); [by intros s []|].
  intros rs [Hl Hf].
  apply (triple_bind_lift _ _ _ _ (fun l => lenZ l = h - n /\ Forall (row_wf w) l)).
  { destruct (erase_range_ok from n rs) as (l' & E & Hl' & HP); [lia..|].
    exists l'. rewrite Hl in Hl'. auto. }
  intros l [Hll Hlf]. apply (triple_bind _ _ _ _ _ newrow_safe). intros r.
  apply triple_pure. intros Hr.
  apply (triple_bind_lift _ _ _ _ (rows_inv w h)).
  { destruct (insert_range_ok dest n r l) as (l' & E & Hl' & HP); [lia..|].
    exists l'. split; [done|]. split; [lia|auto]. }
  intros l' Hl'. apply preserves_modify. by intros s [Hd _].
Qed.

Lemma insert_line_safe row count : 0 <= count -> 0 <= row -> safe (insert_line row count).
Proof.
  intros. apply (triple_bind_gets _ _ _ _ (ds_inv w h)); [by intros s []|].
  intros d Hd. destruct (_ || _) eqn:E; [apply preserves_ret|]. cbv zeta.
  destruct Hd. destruct (_ =? 0) eqn:E'; [apply preserves_ret|].
  destruct (count <? _) eqn:E''; apply replace_rows_safe; lia.
Qed.

Lemma delete_line_safe row count : 0 <= count -> 0 <= row -> safe (delete_line row count).
Proof.
  intros. apply (triple_bind_gets _ _ _ _ (ds_inv w h)); [by intros s []|].
  intros d Hd. destruct (_ || _) eqn:E; [apply preserves_ret|]. cbv zeta.
  destruct Hd. destruct (_ =? 0) eqn:E'; [apply preserves_ret|].
  destruct (count <? _) eqn:E''; apply replace_rows_safe; lia.
Qed.

Lemma scroll_safe N : safe (scroll N).
Proof.
  apply (triple_bind_gets _ _ _ _ (ds_inv w h)); [by intros s []|].
  intros d []. destruct (Z.leb_spec 0 N);
    [apply delete_line_safe|apply insert_line_safe]; lia.
Qed.

Lemma move_row_safe n rel : safe (on_ds (move_row n rel)).
Proof. apply on_ds_safe. intros. by apply move_row_inv. Qed.
Lemma move_col_safe n rel imp : safe (on_ds (move_col n rel imp)).
Proof. apply on_ds_safe. intros. by apply move_col_inv. Qed.

Lemma move_rows_autoscroll_safe n : safe (move_rows_autoscroll n).
Proof.
  apply (triple_bind_gets _ _ _ _ (ds_inv w h)); [by intros s []|]. intros d _.
  repeat case_match; try apply move_row_safe;
    (apply triple_seq; [|intros _; apply move_row_safe]);
    try apply preserves_ret;
    (apply triple_seq; [apply scroll_safe|intros _; apply move_row_safe]).
Qed.

Lemma fb_reset_safe : safe fb_reset.
Proof.
  apply (triple_bind_gets _ _ _ _ (ds_inv w h)); [by intros s []|]. intros d Hd.
  apply triple_seq.
  { apply preserves_modify. intros s [_ Hr]. split; [|done]. destruct Hd.
    cbn. rewrite inv_width0, inv_height0. apply DrawState_new_inv; lia. }
  intros _. apply (triple_bind _ _ _ _ _ newrow_safe). intros r. apply triple_pure. intros Hr.
  apply preserves_modify. intros s [Hds _]. split; [done|].
  destruct Hd. split; cbn; [rewrite lenZ_replicate; lia|by apply Forall_replicate].
Qed.

Lemma soft_reset_safe : safe soft_reset.
Proof.
  apply on_ds_safe. intros d Hd. cbv zeta.
  apply clear_saved_cursor_inv, set_hyperlink_inv, add_rendition_inv, set_scrolling_region_inv.
  - destruct Hd. lia.
  - destruct Hd. by split.
Qed.
End screen_methods.

(** *** Resizing *)

(** What happens to a row that was on the screen. *)
Definition resized_row (w' bg : Z) (r : Row) : Row :=
  r <| cells := resize (Z.to_nat w') (Cell_new bg)
         (take (length (cells r) - 1) (cells r) ++
          ((fun c => c <| wrap := false |>) <$> option_list (last (cells r)))) |>.

Lemma Row_set_wrap_ok w b r :
  0 < w -> row_wf w r ->
  Row_set_wrap b r =
    Ok (r <| cells := take (length (cells r) - 1) (cells r) ++
               ((fun c => c <| wrap := b |>) <$> option_list (last (cells r))) |>) /\
  row_wf w (r <| cells := take (length (cells r) - 1) (cells r) ++
               ((fun c => c <| wrap := b |>) <$> option_list (last (cells r))) |>).
Proof.
  intros Hw [Hl Hf]. unfold Row_set_wrap.
  assert (Hne : cells r <> []) by (intros E; rewrite E in Hl; unfold lenZ in Hl; cbn in Hl; lia).
  destruct (exists_last Hne) as (l & c & E). rewrite E in *.
  rewrite last_snoc. cbn [option_list fmap list_fmap]. split; [done|].
  apply Forall_app in Hf as [Hf [Hc _]%Forall_cons_1].
  split; cbn [cells set_field].
  - rewrite <- Hl. unfold lenZ. rewrite !length_app, length_take, length_app. cbn. lia.
  - rewrite length_app, Nat.add_sub, take_app_length. apply Forall_app. split; [done|].
    apply Forall_singleton. exact Hc.
Qed.

Lemma resize_rows_spec w w' bg rs n b :
  0 < w -> Forall (row_wf w) rs ->
  resize_rows w' bg (((fun r => (r, false)) <$> rs) ++ replicate n (b, true)) =
    Ok ((resized_row w' bg <$> rs) ++ replicate n b).
Proof.
  intros Hw H. induction H as [|r rs Hr _ IH]; cbn [fmap list_fmap app].
  - destruct n; cbn; [done|]. by rewrite fmap_replicate.
  - cbn [resize_rows]. destruct (Row_set_wrap_ok w false r Hw Hr) as [-> _].
    cbn [mbind result_bind]. rewrite IH. done.
Qed.

Lemma resized_row_wf w w' bg r :
  0 < w -> 0 < w' -> color_ok 40 bg -> row_wf w r -> row_wf w' (resized_row w' bg r).
Proof.
  intros Hw Hw' Hbg Hr. destruct (Row_set_wrap_ok w false r Hw Hr) as [_ [_ Hf]].
  split; cbn in *.
  - unfold lenZ. rewrite length_resize. lia.
  - apply Forall_resize; [by apply Cell_new_wf|done].
Qed.

Section resize.
Context (w h w' h' : Z) (s : Screen).
Context (Hs : scr_inv w h s) (Hw' : 0 < w') (Hh' : 0 < h').

Let d' := DrawState_resize w' h' (scr_ds s).
Let bg := get_background_rendition d'.
Let blank := Row_new w' bg (gen_counter s).

(** The rows after [Framebuffer::resize]. *)
Definition resized_rows : list Row :=
  ((if w =? w' then fun r => r else resized_row w' bg) <$> take (Z.to_nat h') (rows (fb s)))
  ++ replicate (Z.to_nat (h' - h)) blank.

Lemma fb_resize_eq :
  fb_resize w' h' s =
    Ok (tt, MkScreen (u64 (gen_counter s + 1))
              ((fb s) <| ds := d' |> <| rows := resized_rows |>)).
Proof.
  destruct Hs as [Hd [Hl Hf]]. pose proof Hd as []. 
  pose proof (DrawState_resize_inv w h w' h' _ Hd Hw' Hh') as Hd'. fold d' in Hd'.
  unfold fb_resize, mbind, M_bind, assert_.
  rewrite !(proj2 (Z.ltb_lt 0 _)) by done. cbn [mret M_ret].
  unfold on_ds, gets, modify, newrow, get_gen, mbind, M_bind. cbv beta iota.
  unfold put_rows, put_ds, scr_ds, set_field. cbn -[DrawState_resize Row_new get_background_rendition u64 Z.eqb].
  change (ds (fb s)) with (scr_ds s). fold d'.
  rewrite inv_height0, inv_width0. destruct Hd'. rewrite inv_width1. fold bg blank.
  assert (Hrs : (if negb (h =? h') then resize (Z.to_nat h') (blank, true)
                    ((fun r => (r, false)) <$> rows (fb s))
                 else (fun r => (r, false)) <$> rows (fb s)) =
            ((fun r => (r, false)) <$> take (Z.to_nat h') (rows (fb s)))
            ++ replicate (Z.to_nat (h' - h)) (blank, true)).
  { unfold lenZ in Hl. destruct (Z.eqb_spec h h') as [Heq|]; cbn [negb].
    - rewrite take_ge by lia. replace (Z.to_nat (h' - h)) with 0%nat by lia.
      by rewrite app_nil_r.
    - rewrite resize_spec, length_fmap, <- fmap_take. do 3 f_equal. lia. }
  rewrite Hrs. unfold resized_rows. destruct (Z.eqb_spec w w') as [Heq|].
  - rewrite fmap_app, <- list_fmap_compose, fmap_replicate. done.
  - rewrite (resize_rows_spec w) by (lia || by apply Forall_take). done.
Qed.

Lemma resized_rows_inv : rows_inv w' h' resized_rows.
Proof.
  destruct Hs as [Hd [Hl Hf]]. pose proof (DrawState_resize_inv w h w' h' _ Hd Hw' Hh') as Hd'.
  fold d' in Hd'. pose proof Hd as []. unfold resized_rows. split.
  - unfold lenZ in *. rewrite length_app, length_fmap, length_take, length_replicate. lia.
  - apply Forall_app. split.
    + apply Forall_fmap. eapply Forall_impl; [apply Forall_take, Hf|]. intros r Hr. cbn.
      destruct (Z.eqb_spec w w') as [<-|]; [done|].
      apply (resized_row_wf w); auto; [lia|]. by apply (bg_ok w' h').
    + apply Forall_replicate, Row_new_wf; [lia|]. by apply (bg_ok w' h').
Qed.
End resize.

Lemma fb_resize_safe w h w' h' :
  0 < w' -> 0 < h' -> triple (scr_inv w h) (fb_resize w' h') (fun _ => scr_inv w' h').
Proof.
  intros Hw Hh s Hs. rewrite (fb_resize_eq w h w' h' s) by done. do 2 eexists.
  split; [done|]. split; [|by apply resized_rows_inv].
  destruct Hs as [Hd _]. exact (DrawState_resize_inv _ _ _ _ _ Hd Hw Hh).
Qed.
