(* ===== verification/Dispatcher.v ===== *)
(** * The dispatcher (mosh/src/terminal/terminaldispatcher.{h,cc})

    Collects the parameters and intermediate characters of an escape sequence
    and the text of an operating-system command, parses the parameters lazily
    and caches them.  The table of functions, and the lookup that calls one, are
    in Functions.v. *)
From S2P Require Export Parser.

Inductive Function_Type : Type := ESCAPE | CSI | CONTROL.

Record Dispatcher : Type := MkDispatcher {
  params : bytes; parsed_params : list Z; parsed : bool;
  dispatch_chars : bytes; OSC_text : list Z; terminal_to_host : bytes }.
#[export] Instance eta_Dispatcher : Eta Dispatcher :=
  fun d => MkDispatcher (params d) (parsed_params d) (parsed d) (dispatch_chars d)
             (OSC_text d) (terminal_to_host d).

Definition PARAM_MAX : Z := 65535.
Definition MAXIMUM_CLIPBOARD_SIZE : Z := 16 * 1024.

Definition Dispatcher_new : Dispatcher := MkDispatcher [] [] false [] [] [].

Definition newparamchar (act : Action) : M Dispatcher unit :=
  assert_ (char_present act) ;;
  assert_ ((ch act =? 59) || ((48 <=? ch act) && (ch act <=? 57))) ;;
  modify (fun d =>
    let d := if lenZ (params d) <? 100 then d <| params := params d ++ [ch act] |> else d in
    d <| parsed := false |>).

Definition collect (act : Action) : M Dispatcher unit :=
  assert_ (char_present act) ;;
  modify (fun d =>
    if (lenZ (dispatch_chars d) <? 8) && (ch act <=? 255)
    then d <| dispatch_chars := dispatch_chars d ++ [u8 (ch act)] |> else d).

Definition clear (d : Dispatcher) : Dispatcher :=
  d <| params := [] |> <| dispatch_chars := [] |> <| parsed := false |>.

(** [strchr( s, ';' )]: what follows the first semicolon. *)
Fixpoint after_semicolon (s : bytes) : option bytes :=
  match s with
  | [] => None
  | c :: s' => if c =? 59 then Some s' else after_semicolon s'
  end.

(** One parameter: -1 when absent, out of range or beyond [PARAM_MAX].
    [errno] is 0 or [ERANGE] after [strtol], so the value is always pushed. *)
Definition param_value (segment_begin : bytes) : Z :=
  let r := strtol segment_begin in
  let val := if st_converted r then st_val r else -1 in
  if (PARAM_MAX <? val) || st_erange r then -1 else val.

(** The [while] loop and the last parameter; every iteration shortens the
    string, so its length plus one is enough fuel. *)
Fixpoint parse_segments (fuel : nat) (segment_begin : bytes) : list Z :=
  match fuel with
  | O => []
  | S fuel' =>
      match after_semicolon segment_begin with
      | Some rest => param_value segment_begin :: parse_segments fuel' rest
      | None => [param_value segment_begin]
      end
  end.

Definition parse_params (d : Dispatcher) : Dispatcher :=
  if parsed d then d else
  d <| parsed_params := parse_segments (S (length (params d))) (params d) |> <| parsed := true |>.

(** [parsed_params[N]] is read only when [N] is in range. *)
Definition getparam (N defaultval : Z) : M Dispatcher Z :=
  modify parse_params ;;
  ps ← gets parsed_params;
  let ret := default defaultval (lookupZ ps N) in
  mret (if ret <? 1 then defaultval else ret).

Definition param_count : M Dispatcher Z :=
  modify parse_params ;; gets (fun d => lenZ (parsed_params d)).

Definition dispatcher_str (d : Dispatcher) : bytes :=
  snprintf 64 (str "[dispatch=" ++ [34] ++ dispatch_chars d ++ [34] ++ str " params=" ++ [34]
               ++ params d ++ [34] ++ str "]").

Definition OSC_put (act : Action) : M Dispatcher unit :=
  assert_ (char_present act) ;;
  modify (fun d =>
    if lenZ (OSC_text d) <? MAXIMUM_CLIPBOARD_SIZE
    then d <| OSC_text := OSC_text d ++ [ch act] |> else d).

Definition OSC_start (d : Dispatcher) : Dispatcher := d <| OSC_text := [] |>.

Definition append_to_host (s : bytes) (d : Dispatcher) : Dispatcher :=
  d <| terminal_to_host := terminal_to_host d ++ s |>.

(** ** Invariant: bounded buffers, parameters of digits and semicolons *)

Definition is_param_char (c : Z) : bool := (c =? 59) || is_digit c.

Record disp_inv (d : Dispatcher) : Prop := {
  inv_params : lenZ (params d) <= 100 /\ Forall (fun c => is_param_char c = true) (params d);
  inv_chars : lenZ (dispatch_chars d) <= 8 /\ Forall is_u8 (dispatch_chars d);
  inv_osc : lenZ (OSC_text d) <= MAXIMUM_CLIPBOARD_SIZE;
  inv_parsed : parsed d = true ->
    parsed_params d = parse_segments (S (length (params d))) (params d);
}.

Lemma Dispatcher_new_inv : disp_inv Dispatcher_new.
Proof. split; cbn; unfold lenZ, MAXIMUM_CLIPBOARD_SIZE; cbn; split_and?; auto; try lia; done. Qed.

Lemma newparamchar_safe act :
  char_present act = true -> ch act = 59 \/ 48 <= ch act <= 57 ->
  preserves disp_inv (newparamchar act).
Proof.
  intros Hp Hc. apply triple_seq; [by apply triple_assert|]. intros _.
  apply triple_seq; [apply triple_assert; intros; split; [lia|done]|]. intros _.
  apply preserves_modify. intros d [[Hl Hf] ? ? ?]. destruct (Z.ltb_spec (lenZ (params d)) 100).
  - split; cbn; try done. rewrite lenZ_app. unfold lenZ at 2. cbn. split; [lia|].
    apply Forall_app. split; [done|]. constructor; [|done].
    unfold is_param_char, is_digit. lia.
  - by split.
Qed.

Lemma collect_safe act :
  char_present act = true -> 0 <= ch act -> preserves disp_inv (collect act).
Proof.
  intros Hp Hc. apply triple_seq; [by apply triple_assert|]. intros _.
  apply preserves_modify. intros d Hd. case_match; [|done]. destruct Hd as [? [Hl Hf] ? ?].
  split; cbn; try done. rewrite lenZ_app. unfold lenZ at 2. cbn. split; [lia|].
  apply Forall_app. split; [done|]. constructor; [apply u8_range|done].
Qed.

Lemma clear_inv d : disp_inv d -> disp_inv (clear d).
Proof. intros []. split; cbn; unfold lenZ; cbn; split_and?; auto; try lia; done. Qed.

Lemma parse_params_inv d : disp_inv d -> disp_inv (parse_params d).
Proof. intros Hd. unfold parse_params. case_match; [done|]. destruct Hd. by split. Qed.

Lemma OSC_put_safe act : char_present act = true -> preserves disp_inv (OSC_put act).
Proof.
  intros Hp. apply triple_seq; [by apply triple_assert|]. intros _.
  apply preserves_modify. intros d Hd. destruct (Z.ltb_spec (lenZ (OSC_text d)) MAXIMUM_CLIPBOARD_SIZE); [|done].
  destruct Hd. split; cbn; try done. rewrite lenZ_app. unfold lenZ at 2. cbn. lia.
Qed.

Lemma OSC_start_inv d : disp_inv d -> disp_inv (OSC_start d).
Proof. intros []. split; cbn; try done. Qed.

Lemma append_to_host_inv s d : disp_inv d -> disp_inv (append_to_host s d).
Proof. intros []. by split. Qed.

(** ** Parameters *)

(** The segments between semicolons. *)
Fixpoint segments (s : bytes) : list bytes :=
  match s with
  | [] => [[]]
  | c :: s' =>
      if c =? 59 then [] :: segments s'
      else match segments s' with
           | seg :: segs => (c :: seg) :: segs
           | [] => [[c]]
           end
  end.

(** What a segment of digits stands for. *)
Definition segment_value (seg : bytes) : Z :=
  match seg with
  | [] => -1
  | _ => let v := fst (digits_value 0 seg) in if PARAM_MAX <? v then -1 else v
  end.

Lemma segments_ne s : segments s <> [].
Proof. induction s as [|c s IH]; cbn; [done|]. repeat case_match; done. Qed.

Lemma after_semicolon_segments s :
  match after_semicolon s with
  | Some rest => exists seg, segments s = seg :: segments rest /\ s = seg ++ 59 :: rest
  | None => segments s = [s]
  end.
Proof.
  induction s as [|c s IH]; cbn; [done|]. destruct (Z.eqb_spec c 59) as [->|].
  - exists []. done.
  - destruct (after_semicolon s) as [rest|].
    + destruct IH as (seg & -> & ->). exists (c :: seg). done.
    + by rewrite IH.
Qed.

Lemma digits_value_nonneg acc s : 0 <= acc -> 0 <= fst (digits_value acc s).
Proof.
  revert acc. induction s as [|c s IH]; intros acc Ha; cbn; [done|].
  destruct (is_digit c) eqn:E; [|done]. apply IH. unfold is_digit in E. lia.
Qed.

Lemma strtol_digits seg rest :
  Forall (fun c => is_digit c = true) seg ->
  match rest with c :: _ => is_digit c = false /\ is_space c = false /\ c <> 45 /\ c <> 43 | [] => True end ->
  param_value (seg ++ rest) = segment_value seg.
Proof.
  intros Hf Hr. unfold param_value. destruct seg as [|c seg].
  - cbn [app segment_value]. unfold strtol. destruct rest as [|c rest]; [done|].
    destruct Hr as (Hd & Hs & H1 & H2). cbn [skip_spaces]. rewrite Hs.
    rewrite (proj2 (Z.eqb_neq c 45)), (proj2 (Z.eqb_neq c 43)), Hd by done. done.
  - pose proof Hf as [Hc _]%Forall_cons_1. unfold strtol. cbn [app skip_spaces].
    assert (is_space c = false /\ (c =? 45) = false /\ (c =? 43) = false) as (-> & -> & ->)
      by (unfold is_digit, is_space in *; lia).
    rewrite Hc. change (c :: seg ++ rest) with ((c :: seg) ++ rest).
    rewrite digits_value_app; [|done|destruct rest; [done|tauto]].
    pose proof (digits_value_nonneg 0 (c :: seg) ltac:(lia)) as Hnn. unfold segment_value.
    destruct (Z.ltb_spec LONG_MAX (fst (digits_value 0 (c :: seg)))); cbn [st_converted st_val st_erange].
    + rewrite orb_true_r, (proj2 (Z.ltb_lt PARAM_MAX _)) by (unfold PARAM_MAX, LONG_MAX in *; lia). done.
    + rewrite (proj2 (Z.ltb_ge _ (- 2 ^ 63))) by lia. cbn [st_converted st_val st_erange].
      by rewrite orb_false_r.
Qed.

Lemma segments_digits s :
  Forall (fun c => is_param_char c = true) s ->
  Forall (Forall (fun c => is_digit c = true)) (segments s).
Proof.
  intros H. induction H as [|c s Hc _ IH]; cbn; [auto|].
  destruct (Z.eqb_spec c 59); [auto|].
  assert (is_digit c = true) by (unfold is_param_char in Hc; destruct (is_digit c); lia).
  destruct (segments s) as [|seg segs]; [auto|]. apply Forall_cons_1 in IH as [? ?]. auto.
Qed.

Lemma parse_segments_spec fuel s :
  Forall (fun c => is_param_char c = true) s -> (length s < fuel)%nat ->
  parse_segments fuel s = segment_value <$> segments s.
Proof.
  revert s. induction fuel as [|fuel IH]; intros s Hs Hl; [lia|]. cbn [parse_segments].
  pose proof (segments_digits s Hs) as Hd. pose proof (after_semicolon_segments s) as Ha.
  destruct (after_semicolon s) as [rest|].
  - destruct Ha as (seg & Eseg & ->). rewrite Eseg in *. cbn [fmap list_fmap].
    apply Forall_cons_1 in Hd as [Hd _]. apply Forall_app in Hs as [_ [_ Hs]%Forall_cons_1].
    rewrite length_app in Hl. cbn in Hl. rewrite IH by (done || lia).
    by rewrite strtol_digits.
  - rewrite Ha in *. apply Forall_cons_1 in Hd as [Hd _]. cbn [fmap list_fmap].
    rewrite <- (app_nil_r s) at 1. by rewrite strtol_digits.
Qed.

Lemma segment_value_range seg : -1 <= segment_value seg <= PARAM_MAX.
Proof.
  destruct seg as [|c seg]; [unfold PARAM_MAX; cbn; lia|]. unfold segment_value.
  pose proof (digits_value_nonneg 0 (c :: seg) ltac:(lia)).
  destruct (Z.ltb_spec PARAM_MAX (fst (digits_value 0 (c :: seg)))); unfold PARAM_MAX in *; lia.
Qed.

(** The parameters as the functions see them. *)
Definition parameters (d : Dispatcher) : list Z := segment_value <$> segments (params d).

Lemma parse_params_spec d :
  disp_inv d -> parsed (parse_params d) = true /\ parsed_params (parse_params d) = parameters d.
Proof.
  intros [[Hl Hf] _ _ Hp]. unfold parse_params, parameters.
  destruct (parsed d) eqn:E.
  - split; [done|]. rewrite Hp by done. by apply parse_segments_spec; [|lia].
  - split; [done|]. cbn [parsed_params set_field]. by apply parse_segments_spec; [|lia].
Qed.

(** The value [getparam] returns. *)
Definition param_of (d : Dispatcher) (N defaultval : Z) : Z :=
  let ret := default defaultval (lookupZ (parameters d) N) in
  if ret <? 1 then defaultval else ret.

Lemma getparam_eq N dv d :
  disp_inv d -> getparam N dv d = Ok (param_of d N dv, parse_params d).
Proof.
  intros Hd. unfold getparam, mbind, M_bind, modify, gets.
  by rewrite (proj2 (parse_params_spec d Hd)).
Qed.

Lemma param_count_eq d :
  disp_inv d -> param_count d = Ok (lenZ (parameters d), parse_params d).
Proof.
  intros Hd. unfold param_count, mbind, M_bind, modify, gets.
  by rewrite (proj2 (parse_params_spec d Hd)).
Qed.

(** A parameter is the default or between 1 and [PARAM_MAX]. *)
Lemma param_of_range d N dv : param_of d N dv = dv \/ 1 <= param_of d N dv <= PARAM_MAX.
Proof.
  unfold param_of. destruct (lookupZ (parameters d) N) as [v|] eqn:E; cbn [from_option id].
  - assert (-1 <= v <= PARAM_MAX).
    { apply (lookupZ_Forall (fun v => -1 <= v <= PARAM_MAX) (parameters d) N); [|done].
      apply Forall_fmap, Forall_true. intros x. apply segment_value_range. }
    destruct (Z.ltb_spec v 1); [by left|right; lia].
  - destruct (dv <? 1); auto.
Qed.

Lemma getparam_safe N dv :
  triple disp_inv (getparam N dv) (fun v d => disp_inv d /\ (v = dv \/ 1 <= v <= PARAM_MAX)).
Proof.
  intros d Hd. rewrite getparam_eq by done. do 2 eexists. split; [done|].
  split; [by apply parse_params_inv|apply param_of_range].
Qed.

Lemma param_count_safe :
  triple disp_inv param_count (fun v d => disp_inv d /\ 0 <= v).
Proof.
  intros d Hd. rewrite param_count_eq by done. do 2 eexists. split; [done|].
  split; [by apply parse_params_inv|apply lenZ_nonneg].
Qed.
