(* ===== verification/Functions.v ===== *)
(** * Terminal functions (mosh/src/terminal/terminalfunctions.cc) and their dispatch

    One definition per function registered with the dispatcher, over the pair
    of a screen and a dispatcher that the C++ functions receive by pointer; the
    registry; [Dispatcher::dispatch] and [Dispatcher::OSC_dispatch]. *)
From S2P Require Export Framebuffer Dispatcher.

(** The two objects a function receives. *)
Record Context_ : Type := MkContext { screen : Screen; dispatch_ : Dispatcher }.
#[export] Instance eta_Context : Eta Context_ := fun s => MkContext (screen s) (dispatch_ s).

(** A call on the framebuffer, a call on the dispatcher. *)
Definition on_screen {A} (m : M Screen A) : M Context_ A :=
  zoom screen (fun t s => s <| screen := t |>) m.
Definition on_dispatch {A} (m : M Dispatcher A) : M Context_ A :=
  zoom dispatch_ (fun t s => s <| dispatch_ := t |>) m.
Definition get_ds {A} (f : DrawState -> A) : M Context_ A := gets (fun s => f (scr_ds (screen s))).
Definition set_ds (f : DrawState -> DrawState) : M Context_ unit := on_screen (on_ds f).
Definition getp (N defaultval : Z) : M Context_ Z := on_dispatch (getparam N defaultval).
Definition first_dispatch_char : M Context_ Z := gets (fun s => hd 0 (dispatch_chars (dispatch_ s))).
Definition to_host (s : bytes) : M Context_ unit := on_dispatch (modify (append_to_host s)).

Definition function := M Context_ unit.

Definition clearline (row start end_ : Z) : function :=
  for_range start (end_ + 1) (fun col => on_screen (reset_cell row col)).

Definition reset_rows (lo hi : Z) : function :=
  for_range lo hi (fun y => on_screen (reset_row y)).

Definition CSI_EL : function :=
  p ← getp 0 0;
  col ← get_ds cursor_col;
  w ← get_ds width;
  if p =? 0 then clearline (-1) col (w - 1)
  else if p =? 1 then clearline (-1) 0 col
  else if p =? 2 then on_screen (reset_row (-1))
  else mret tt.

Definition CSI_ED : function :=
  p ← getp 0 0;
  col ← get_ds cursor_col;
  row ← get_ds cursor_row;
  w ← get_ds width;
  h ← get_ds height;
  if p =? 0 then clearline (-1) col (w - 1) ;; reset_rows (row + 1) h
  else if p =? 1 then reset_rows 0 row ;; clearline (-1) 0 col
  else if p =? 2 then reset_rows 0 h
  else mret tt.

Definition CSI_cursormove : function :=
  num ← getp 0 1;
  c ← first_dispatch_char;
  if c =? chr "A" then set_ds (move_row (- num) true)
  else if c =? chr "B" then set_ds (move_row num true)
  else if c =? chr "C" then set_ds (move_col num true false)
  else if c =? chr "D" then set_ds (move_col (- num) true false)
  else if (c =? chr "H") || (c =? chr "f") then
    row ← getp 0 1;
    set_ds (move_row (row - 1) false) ;;
    col ← getp 1 1;
    set_ds (move_col (col - 1) false false)
  else mret tt.

Definition CSI_DA : function := to_host (27 :: str "[?62c").
Definition CSI_SDA : function := to_host (27 :: str "[>1;10;0c").

Definition Esc_DECALN : function :=
  h ← get_ds height;
  w ← get_ds width;
  for_range 0 h (fun y => for_range 0 w (fun x =>
    on_screen (reset_cell y x) ;; on_screen (with_cell y x (Cell_append (chr "E"))))).

Definition Ctrl_LF : function := on_screen (move_rows_autoscroll 1).
Definition Ctrl_CR : function := set_ds (move_col 0 false false).
Definition Ctrl_BS : function := set_ds (move_col (-1) true false).
Definition Ctrl_RI : function := on_screen (move_rows_autoscroll (-1)).
Definition Ctrl_NEL : function :=
  set_ds (move_col 0 false false) ;; on_screen (move_rows_autoscroll 1).

(** [count] goes through [size_t] and back to [int]. *)
Definition HT_n (count : Z) : function :=
  d ← get_ds (fun d => d);
  col ← lift (get_next_tab count d);
  let col := if col =? -1 then width d - 1 else col in
  let wrap_state_save := next_print_will_wrap d in
  set_ds (move_col col false false) ;;
  set_ds (fun d => d <| next_print_will_wrap := wrap_state_save |>).

Definition Ctrl_HT : function := HT_n 1.

Definition CSI_CxT : function :=
  param ← getp 0 1;
  c ← first_dispatch_char;
  let param := if c =? chr "Z" then - param else param in
  if param =? 0 then mret tt else HT_n param.

Definition Ctrl_HTS : function := on_screen (on_ds_res set_tab).

Definition CSI_TBC : function :=
  param ← getp 0 0;
  if param =? 0 then
    col ← get_ds cursor_col; on_screen (on_ds_res (clear_tab col))
  else if param =? 3 then
    set_ds clear_default_tabs ;;
    w ← get_ds width;
    for_range 0 w (fun x => on_screen (on_ds_res (clear_tab x)))
  else mret tt.

(** The mode a parameter names: the pointer [get_DEC_mode] returns, as the
    assignment through it; and the effects it has before returning. *)
Definition DEC_mode (param : Z) (value : bool) (d : DrawState) : DrawState :=
  if param =? 1 then d <| application_mode_cursor_keys := value |>
  else if param =? 5 then d <| reverse_video := value |>
  else if param =? 6 then d <| origin_mode := value |>
  else if param =? 7 then d <| auto_wrap_mode := value |>
  else if param =? 25 then d <| cursor_visible := value |>
  else if param =? 1004 then d <| mouse_focus_event := value |>
  else if param =? 1007 then d <| mouse_alternate_scroll := value |>
  else if param =? 2004 then d <| bracketed_paste := value |>
  else d.

Definition get_DEC_mode (param : Z) : function :=
  if param =? 3 then
    set_ds (move_row 0 false) ;;
    set_ds (move_col 0 false false) ;;
    h ← get_ds height;
    reset_rows 0 h
  else if param =? 6 then
    set_ds (move_row 0 false) ;;
    set_ds (move_col 0 false false)
  else mret tt.

Definition mouse_reporting_param (param : Z) : bool :=
  (param =? 9) || ((1000 <=? param) && (param <=? 1003)).
Definition mouse_encoding_param (param : Z) : bool :=
  (param =? 1005) || (param =? 1006) || (param =? 1015).

Definition CSI_DECSM : function :=
  n ← on_dispatch param_count;
  for_range 0 n (fun i =>
    param ← getp i 0;
    if mouse_reporting_param param then set_ds (fun d => d <| mouse_reporting_mode := param |>)
    else if mouse_encoding_param param then set_ds (fun d => d <| mouse_encoding_mode := param |>)
    else get_DEC_mode param ;; set_ds (DEC_mode param true)).

Definition CSI_DECRM : function :=
  n ← on_dispatch param_count;
  for_range 0 n (fun i =>
    param ← getp i 0;
    if mouse_reporting_param param
    then set_ds (fun d => d <| mouse_reporting_mode := MOUSE_REPORTING_NONE |>)
    else if mouse_encoding_param param
    then set_ds (fun d => d <| mouse_encoding_mode := MOUSE_ENCODING_DEFAULT |>)
    else get_DEC_mode param ;; set_ds (DEC_mode param false)).

Definition ANSI_mode (param : Z) (value : bool) (d : DrawState) : DrawState :=
  if param =? 4 then d <| insert_mode := value |> else d.

Definition CSI_SM : function :=
  n ← on_dispatch param_count;
  for_range 0 n (fun i => param ← getp i 0; set_ds (ANSI_mode param true)).
Definition CSI_RM : function :=
  n ← on_dispatch param_count;
  for_range 0 n (fun i => param ← getp i 0; set_ds (ANSI_mode param false)).

Definition CSI_DECSTBM : function :=
  top ← getp 0 1;
  h ← get_ds height;
  bottom ← getp 1 h;
  if (bottom <=? top) || (h <? top) || ((top =? 0) && (bottom =? 1)) then mret tt else
  set_ds (set_scrolling_region (top - 1) (bottom - 1)) ;;
  set_ds (move_row 0 false) ;;
  set_ds (move_col 0 false false).

Definition Ctrl_BEL : function := on_screen (on_fb ring_bell).

(** One iteration of the loop of [CSI_SGR] at index [i]: the next index. *)
Definition SGR_step (i : Z) : M Context_ Z :=
  rendition ← getp i 0;
  n ← on_dispatch param_count;
  next ← getp (i + 1) (-1);
  let extended := (rendition =? 38) || (rendition =? 48) in
  if extended && (3 <=? n - i) && (next =? 5) then
    c ← getp (i + 2) 0;
    set_ds (if rendition =? 38 then ds_set_foreground_color c else ds_set_background_color c) ;;
    mret (i + 3)
  else if extended && (5 <=? n - i) && (next =? 2) then
    red ← getp (i + 2) 0;
    green ← getp (i + 3) 0;
    blue ← getp (i + 4) 0;
    let color := i32 (make_true_color red green blue) in
    set_ds (if rendition =? 38 then ds_set_foreground_color color
            else ds_set_background_color color) ;;
    mret (i + 5)
  else set_ds (add_rendition rendition) ;; mret (i + 1).

(** Every iteration advances, so the number of parameters is enough fuel. *)
Fixpoint SGR_loop (fuel : nat) (i : Z) : function :=
  match fuel with
  | O => mret tt
  | S fuel' =>
      n ← on_dispatch param_count;
      if i <? n then j ← SGR_step i; SGR_loop fuel' j else mret tt
  end.

Definition CSI_SGR : function :=
  n ← on_dispatch param_count; SGR_loop (Z.to_nat n) 0.

Definition Esc_DECSC : function := set_ds save_cursor.
Definition Esc_DECRC : function := set_ds restore_cursor.

Definition CSI_DSR : function :=
  param ← getp 0 0;
  if param =? 5 then to_host (27 :: str "[0n")
  else if param =? 6 then
    d ← get_ds (fun d => d);
    to_host (snprintf 32 (27 :: str "[" ++ dec (cursor_row d + 1) ++ str ";"
                            ++ dec (cursor_col d + 1) ++ str "R"))
  else mret tt.

Definition CSI_IL : function :=
  lines ← getp 0 1;
  row ← get_ds cursor_row;
  on_screen (insert_line row lines) ;;
  set_ds (move_col 0 false false).
Definition CSI_DL : function :=
  lines ← getp 0 1;
  row ← get_ds cursor_row;
  on_screen (delete_line row lines) ;;
  set_ds (move_col 0 false false).

Definition CSI_ICH : function :=
  cells ← getp 0 1;
  for_range 0 cells (fun _ =>
    row ← get_ds cursor_row; col ← get_ds cursor_col; on_screen (insert_cell row col)).
Definition CSI_DCH : function :=
  cells ← getp 0 1;
  for_range 0 cells (fun _ =>
    row ← get_ds cursor_row; col ← get_ds cursor_col; on_screen (delete_cell row col)).

Definition CSI_VPA : function := row ← getp 0 1; set_ds (move_row (row - 1) false).
Definition CSI_HPA : function := col ← getp 0 1; set_ds (move_col (col - 1) false false).

Definition CSI_ECH : function :=
  num ← getp 0 1;
  col ← get_ds cursor_col;
  w ← get_ds width;
  let limit := col + num - 1 in
  let limit := if w <=? limit then w - 1 else limit in
  clearline (-1) col limit.

Definition Esc_RIS : function := on_screen fb_reset.
Definition CSI_DECSTR : function := on_screen soft_reset.

Definition CSI_SD : function := n ← getp 0 1; on_screen (scroll n).
Definition CSI_SU : function := n ← getp 0 1; on_screen (scroll (- n)).

(** ** The registry

    [std::map::insert] keeps the first function registered for a key. *)
Record Function : Type := MkFunction { fn : function; clears_wrap_state : bool }.

Definition registry_CSI : list (bytes * Function) :=
  [ (str "K", MkFunction CSI_EL true); (str "J", MkFunction CSI_ED true);
    (str "A", MkFunction CSI_cursormove true); (str "B", MkFunction CSI_cursormove true);
    (str "C", MkFunction CSI_cursormove true); (str "D", MkFunction CSI_cursormove true);
    (str "H", MkFunction CSI_cursormove true); (str "f", MkFunction CSI_cursormove true);
    (str "c", MkFunction CSI_DA true); (str ">c", MkFunction CSI_SDA true);
    (str "I", MkFunction CSI_CxT false); (str "Z", MkFunction CSI_CxT false);
    (str "g", MkFunction CSI_TBC false); (str "?h", MkFunction CSI_DECSM false);
    (str "?l", MkFunction CSI_DECRM false); (str "h", MkFunction CSI_SM true);
    (str "l", MkFunction CSI_RM true); (str "r", MkFunction CSI_DECSTBM true);
    (str "m", MkFunction CSI_SGR false); (str "n", MkFunction CSI_DSR true);
    (str "L", MkFunction CSI_IL true); (str "M", MkFunction CSI_DL true);
    (str "@", MkFunction CSI_ICH true); (str "P", MkFunction CSI_DCH true);
    (str "d", MkFunction CSI_VPA true); (str "G", MkFunction CSI_HPA true);
    ([0x60], MkFunction CSI_HPA true); (str "X", MkFunction CSI_ECH true);
    (str "!p", MkFunction CSI_DECSTR true); (str "S", MkFunction CSI_SD true);
    (str "T", MkFunction CSI_SU true) ].

Definition registry_ESCAPE : list (bytes * Function) :=
  [ (str "#8", MkFunction Esc_DECALN true); (str "7", MkFunction Esc_DECSC true);
    (str "8", MkFunction Esc_DECRC true); (str "c", MkFunction Esc_RIS true) ].

Definition registry_CONTROL : list (bytes * Function) :=
  [ ([0x0a], MkFunction Ctrl_LF true); ([0x84], MkFunction Ctrl_LF true);
    ([0x0b], MkFunction Ctrl_LF true); ([0x0c], MkFunction Ctrl_LF true);
    ([0x0d], MkFunction Ctrl_CR true); ([0x08], MkFunction Ctrl_BS true);
    ([0x8D], MkFunction Ctrl_RI true); ([0x85], MkFunction Ctrl_NEL true);
    ([0x09], MkFunction Ctrl_HT false); ([0x88], MkFunction Ctrl_HTS true);
    ([0x07], MkFunction Ctrl_BEL true) ].

Definition registry (type : Function_Type) : list (bytes * Function) :=
  match type with
  | ESCAPE => registry_ESCAPE
  | CSI => registry_CSI
  | CONTROL => registry_CONTROL
  end.

Fixpoint find_function (key : bytes) (m : list (bytes * Function)) : option Function :=
  match m with
  | [] => None
  | (k, f) :: m' => if decide (k = key) then Some f else find_function key m'
  end.

Definition clear_wrap : function := set_ds (fun d => d <| next_print_will_wrap := false |>).

(** The lookup and the call at the end of [dispatch]. *)
Definition call (type : Function_Type) (key : bytes) : function :=
  match find_function key (registry type) with
  | None => clear_wrap
  | Some f => when_ (clears_wrap_state f) clear_wrap ;; fn f
  end.

Definition dispatch (type : Function_Type) (act : Action) : function :=
  (match type with
   | ESCAPE | CSI =>
       assert_ (char_present act) ;;
       on_dispatch (collect (MkAction Collect (ch act) true))
   | CONTROL => mret tt
   end) ;;
  key ← (match type with
         | CONTROL => assert_ (ch act <=? 255) ;; mret [u8 (ch act)]
         | _ => gets (fun s => dispatch_chars (dispatch_ s))
         end);
  call type key.

(** ** Operating system commands *)

Fixpoint Parse_OSC_8 (osc8_vector : list Z) : option bytes :=
  match osc8_vector with
  | [] => Some []
  | c :: v => if (c <? 32) || (126 <? c) then None else cons (u8 c) <$> Parse_OSC_8 v
  end.

(** [find_first_of( ';', pos )]. *)
Fixpoint find_semicolon (s : bytes) : option nat :=
  match s with
  | [] => None
  | c :: s' => if c =? 59 then Some 0%nat else S <$> find_semicolon s'
  end.

Definition OSC_8 (OSC_string : bytes) : M Screen unit :=
  assert_ (hd 0 OSC_string =? chr "8") ;;
  if (lenZ OSC_string <=? 2) || negb (nth 1 OSC_string 0 =? 59) then mret tt else
  match find_semicolon (drop 2 OSC_string) with
  | None => mret tt
  | Some k =>
      let url := drop (2 + k + 1) OSC_string in
      on_ds (set_hyperlink (Hyperlink_new (take k (drop 2 OSC_string)) url))
  end.

Definition OSC_dispatch : function :=
  OSC_string ← gets (fun s => OSC_text (dispatch_ s));
  if (5 <=? lenZ OSC_string) && bool_decide (take 5 OSC_string = str "52;c;")
  then on_screen (on_fb (set_clipboard (drop 5 OSC_string)))
  else if 1 <=? lenZ OSC_string then
    let '(cmd_num, offset) :=
      if nth 0 OSC_string 0 =? 59 then (0, 1%nat)
      else if (2 <=? lenZ OSC_string) && (nth 1 OSC_string 0 =? 59)
      then (nth 0 OSC_string 0 - 48, 2%nat)
      else (-1, 0%nat) in
    if cmd_num =? 8 then
      match Parse_OSC_8 OSC_string with
      | None => mret tt
      | Some osc_8_str => on_screen (OSC_8 osc_8_str)
      end
    else
      let set_icon := (cmd_num =? 0) || (cmd_num =? 1) in
      let set_title := (cmd_num =? 0) || (cmd_num =? 2) in
      when_ (set_icon || set_title) (
        on_screen (on_fb set_title_initialized) ;;
        let title_length := Nat.min (length OSC_string) 256 in
        let newtitle := drop offset (take title_length OSC_string) in
        when_ set_icon (on_screen (on_fb (set_icon_name newtitle))) ;;
        when_ set_title (on_screen (on_fb (set_window_title newtitle))))
  else mret tt.

(** ** Every function is safe

    From a well-formed screen and dispatcher a function returns without a
    fault, and leaves both well formed with the same dimensions. *)

Definition ctx_inv (w h : Z) (c : Context_) : Prop :=
  scr_inv w h (screen c) /\ disp_inv (dispatch_ c).

Section safety.
Context (w h : Z).
Abbreviation inv := (ctx_inv w h).
Abbreviation safe m := (preserves inv m).

Lemma on_screen_safe (m : M Screen unit) : preserves (scr_inv w h) m -> safe (on_screen m).
Proof.
  intros Hm. apply (triple_zoom _ _ _ _ (scr_inv w h) _ (fun _ => scr_inv w h)); [done|by intros s []|].
  intros a t s [_ Hd] Ht. by split.
Qed.

Lemma on_dispatch_safe (m : M Dispatcher unit) : preserves disp_inv m -> safe (on_dispatch m).
Proof.
  intros Hm. apply (triple_zoom _ _ _ _ disp_inv _ (fun _ => disp_inv)); [done|by intros s []|].
  intros a t s [Hs _] Ht. by split.
Qed.

Lemma bind_dispatch {A B} (m : M Dispatcher A) (phi : A -> Prop) (k : A -> M Context_ B) Q :
  triple disp_inv m (fun v d => disp_inv d /\ phi v) ->
  (forall v, phi v -> triple inv (k v) Q) -> triple inv (on_dispatch m ≫= k) Q.
Proof.
  intros Hm Hk. apply (triple_bind _ _ _ (fun v s => inv s /\ phi v)).
  - apply (triple_zoom _ _ _ _ disp_inv _ (fun v d => disp_inv d /\ phi v)); [done|by intros s []|].
    intros a t s [Hs _] [Ht Hp]. split; [by split|done].
  - intros v. apply triple_pure, Hk.
Qed.

Lemma bind_getp {B} N dv (k : Z -> M Context_ B) Q :
  (forall v, v = dv \/ 1 <= v <= PARAM_MAX -> triple inv (k v) Q) ->
  triple inv (getp N dv ≫= k) Q.
Proof. apply bind_dispatch, getparam_safe. Qed.

Lemma bind_count {B} (k : Z -> M Context_ B) Q :
  (forall v, 0 <= v -> triple inv (k v) Q) -> triple inv (on_dispatch param_count ≫= k) Q.
Proof. apply bind_dispatch, param_count_safe. Qed.

Lemma bind_ds {A B} (f : DrawState -> A) (k : A -> M Context_ B) Q :
  (forall d, ds_inv w h d -> triple inv (k (f d)) Q) -> triple inv (get_ds f ≫= k) Q.
Proof.
  intros Hk. apply (triple_bind_gets _ _ _ _ (fun a => exists d, a = f d /\ ds_inv w h d)).
  - intros s [[Hd _] _]. eauto.
  - intros a (d & -> & Hd). auto.
Qed.

Lemma bind_char {B} (k : Z -> M Context_ B) Q :
  (forall c, triple inv (k c) Q) -> triple inv (first_dispatch_char ≫= k) Q.
Proof. intros Hk. apply (triple_bind_gets _ _ _ _ (fun _ => True)); auto. Qed.

Lemma set_ds_safe f : (forall d, ds_inv w h d -> ds_inv w h (f d)) -> safe (set_ds f).
Proof. intros. by apply on_screen_safe, on_ds_safe. Qed.

Lemma set_move_row_safe n rel : safe (set_ds (move_row n rel)).
Proof. apply set_ds_safe. intros. by apply move_row_inv. Qed.
Lemma set_move_col_safe n rel imp : safe (set_ds (move_col n rel imp)).
Proof. apply set_ds_safe. intros. by apply move_col_inv. Qed.

Lemma to_host_safe s : safe (to_host s).
Proof. apply on_dispatch_safe, preserves_modify. intros. by apply append_to_host_inv. Qed.

Lemma clearline_safe row start end_ :
  row_index h row -> 0 <= start -> end_ < w -> safe (clearline row start end_).
Proof.
  intros. apply triple_for_range. intros i Hi.
  apply on_screen_safe, reset_cell_safe; [done|right; lia].
Qed.

Lemma reset_rows_safe lo hi : 0 <= lo -> hi <= h -> safe (reset_rows lo hi).
Proof.
  intros. apply triple_for_range. intros i Hi.
  apply on_screen_safe, reset_row_safe. right. lia.
Qed.
End safety.

#[export] Hint Resolve set_move_row_safe set_move_col_safe to_host_safe : safe.

(** Walks through a function: parameters and draw-state fields are named with
    what is known of them, sequences and conditionals are split. *)
Ltac walk_step :=
  match goal with
  | |- triple _ (mret _) _ => apply preserves_ret
  | |- triple _ (set_ds (move_row _ _)) _ => apply set_move_row_safe
  | |- triple _ (set_ds (move_col _ _ _)) _ => apply set_move_col_safe
  | |- triple _ (to_host _) _ => apply to_host_safe
  | |- triple _ (on_screen (move_rows_autoscroll _)) _ =>
      apply on_screen_safe, move_rows_autoscroll_safe
  | |- triple _ (getp _ _ ≫= _) _ => apply bind_getp; intros ? ?
  | |- triple _ (on_dispatch param_count ≫= _) _ => apply bind_count; intros ? ?
  | |- triple _ (get_ds _ ≫= _) _ => apply bind_ds; intros ? ?
  | |- triple _ (first_dispatch_char ≫= _) _ => apply bind_char; intros ?
  | |- triple _ (if _ then _ else _) _ => apply triple_if; intros ?
  | |- triple _ (when_ _ _) _ => apply triple_when; intros ?
  | |- triple _ (for_range _ _ _) _ => apply triple_for_range; intros ? ?
  | |- triple _ (lift _ ≫= _) _ => fail 1
  | |- triple _ (_ ≫= (fun _ : unit => _)) _ => apply triple_seq; [|intros []]
  end.
Ltac walk := repeat walk_step.
(** The facts of the draw-state invariant as hypotheses on integers. *)
Ltac ds_facts :=
  repeat match goal with H : ds_inv _ _ _ |- _ => destruct H end.

Section functions.
Context (w h : Z).
Abbreviation safe m := (preserves (ctx_inv w h) m).

Lemma CSI_EL_safe : safe CSI_EL.
Proof.
  unfold CSI_EL. walk; try (ds_facts; apply clearline_safe; [by left|lia..]).
  apply on_screen_safe, reset_row_safe. by left.
Qed.

Lemma CSI_ED_safe : safe CSI_ED.
Proof.
  unfold CSI_ED. walk; ds_facts; try (apply reset_rows_safe; lia);
    apply clearline_safe; (by left) || lia.
Qed.

Lemma CSI_cursormove_safe : safe CSI_cursormove.
Proof. unfold CSI_cursormove. walk. Qed.

Lemma CSI_DA_safe : safe CSI_DA.
Proof. apply to_host_safe. Qed.
Lemma CSI_SDA_safe : safe CSI_SDA.
Proof. apply to_host_safe. Qed.

Lemma Esc_DECALN_safe : safe Esc_DECALN.
Proof.
  unfold Esc_DECALN. walk; ds_facts; apply on_screen_safe.
  - apply reset_cell_safe; right; lia.
  - apply with_cell_safe; [right; lia..|]. intros c [Hr _]. eexists. split; [done|].
    split; [done|]. cbn. by intros [_ ?]%app_eq_nil.
Qed.

Lemma Ctrl_LF_safe : safe Ctrl_LF.
Proof. unfold Ctrl_LF. walk. Qed.
Lemma Ctrl_CR_safe : safe Ctrl_CR.
Proof. unfold Ctrl_CR. walk. Qed.
Lemma Ctrl_BS_safe : safe Ctrl_BS.
Proof. unfold Ctrl_BS. walk. Qed.
Lemma Ctrl_RI_safe : safe Ctrl_RI.
Proof. unfold Ctrl_RI. walk. Qed.
Lemma Ctrl_NEL_safe : safe Ctrl_NEL.
Proof. unfold Ctrl_NEL. walk. Qed.

Lemma set_flag_inv d b : ds_inv w h d -> ds_inv w h (d <| next_print_will_wrap := b |>).
Proof. intros []. by split. Qed.

Lemma HT_n_safe n : n <> 0 -> safe (HT_n n).
Proof.
  intros Hn. unfold HT_n. walk.
  apply (triple_bind_lift _ _ _ _ (fun _ => True)).
  { destruct (get_next_tab_ok w h n d) as (c & E & _); eauto. }
  intros c _. cbv zeta. walk. apply set_ds_safe. intros. by apply set_flag_inv.
Qed.

Lemma Ctrl_HT_safe : safe Ctrl_HT.
Proof. by apply HT_n_safe. Qed.
Lemma CSI_CxT_safe : safe CSI_CxT.
Proof.
  unfold CSI_CxT. walk. cbv zeta. walk. apply HT_n_safe. by apply Z.eqb_neq.
Qed.
Lemma Ctrl_HTS_safe : safe Ctrl_HTS.
Proof. apply on_screen_safe, on_ds_res_safe, set_tab_inv. Qed.

Lemma CSI_TBC_safe : safe CSI_TBC.
Proof.
  unfold CSI_TBC. walk.
  - ds_facts. apply on_screen_safe, on_ds_res_safe. intros. apply clear_tab_inv; [lia|done].
  - apply set_ds_safe. intros ? []. by split.
  - ds_facts. apply on_screen_safe, on_ds_res_safe. intros. apply clear_tab_inv; [lia|done].
Qed.

Lemma DEC_mode_inv p b d : ds_inv w h d -> ds_inv w h (DEC_mode p b d).
Proof. intros Hd. unfold DEC_mode. repeat case_match; try done; destruct Hd; by split. Qed.

Lemma get_DEC_mode_safe p : safe (get_DEC_mode p).
Proof. unfold get_DEC_mode. walk. ds_facts. apply reset_rows_safe; lia. Qed.

Lemma CSI_DECSM_safe : safe CSI_DECSM.
Proof.
  unfold CSI_DECSM. walk; try apply get_DEC_mode_safe; apply set_ds_safe;
    intros d Hd; try (by apply DEC_mode_inv); destruct Hd; by split.
Qed.
Lemma CSI_DECRM_safe : safe CSI_DECRM.
Proof.
  unfold CSI_DECRM. walk; try apply get_DEC_mode_safe; apply set_ds_safe;
    intros d Hd; try (by apply DEC_mode_inv); destruct Hd; by split.
Qed.

Lemma ANSI_mode_inv p b d : ds_inv w h d -> ds_inv w h (ANSI_mode p b d).
Proof. intros Hd. unfold ANSI_mode. case_match; [|done]. destruct Hd; by split. Qed.
Lemma CSI_SM_safe : safe CSI_SM.
Proof. unfold CSI_SM. walk. apply set_ds_safe. intros. by apply ANSI_mode_inv. Qed.
Lemma CSI_RM_safe : safe CSI_RM.
Proof. unfold CSI_RM. walk. apply set_ds_safe. intros. by apply ANSI_mode_inv. Qed.

Lemma CSI_DECSTBM_safe : safe CSI_DECSTBM.
Proof.
  unfold CSI_DECSTBM. walk. apply set_ds_safe. intros.
  apply set_scrolling_region_inv; [ds_facts; lia|done].
Qed.

Lemma Ctrl_BEL_safe : safe Ctrl_BEL.
Proof. by apply on_screen_safe, on_fb_safe. Qed.

Lemma SGR_step_safe i : safe (SGR_step i).
Proof.
  unfold SGR_step. walk; cbv zeta; walk; apply set_ds_safe; intros; try case_match;
    auto using ds_set_foreground_color_inv, ds_set_background_color_inv, add_rendition_inv.
Qed.

Lemma CSI_SGR_safe : safe CSI_SGR.
Proof.
  unfold CSI_SGR. walk. generalize (Z.to_nat v) 0. intros fuel.
  induction fuel as [|fuel IH]; intros i; cbn [SGR_loop]; walk.
  apply triple_seq; [apply SGR_step_safe|done].
Qed.

Lemma Esc_DECSC_safe : safe Esc_DECSC.
Proof. apply set_ds_safe. intros. by apply save_cursor_inv. Qed.
Lemma Esc_DECRC_safe : safe Esc_DECRC.
Proof. apply set_ds_safe. intros. by apply restore_cursor_inv. Qed.
Lemma CSI_DSR_safe : safe CSI_DSR.
Proof. unfold CSI_DSR. walk. Qed.

Lemma CSI_IL_safe : safe CSI_IL.
Proof. unfold CSI_IL. walk. ds_facts. apply on_screen_safe, insert_line_safe; lia. Qed.
Lemma CSI_DL_safe : safe CSI_DL.
Proof. unfold CSI_DL. walk. ds_facts. apply on_screen_safe, delete_line_safe; lia. Qed.
Lemma CSI_ICH_safe : safe CSI_ICH.
Proof. unfold CSI_ICH. walk. ds_facts. apply on_screen_safe, insert_cell_safe; [right|]; lia. Qed.
Lemma CSI_DCH_safe : safe CSI_DCH.
Proof. unfold CSI_DCH. walk. ds_facts. apply on_screen_safe, delete_cell_safe; [right|]; lia. Qed.
Lemma CSI_VPA_safe : safe CSI_VPA.
Proof. unfold CSI_VPA. walk. Qed.
Lemma CSI_HPA_safe : safe CSI_HPA.
Proof. unfold CSI_HPA. walk. Qed.
Lemma CSI_ECH_safe : safe CSI_ECH.
Proof.
  unfold CSI_ECH. walk. cbv zeta. ds_facts. apply clearline_safe; [by left|lia|].
  case_match; lia.
Qed.
Lemma Esc_RIS_safe : safe Esc_RIS.
Proof. apply on_screen_safe, fb_reset_safe. Qed.
Lemma CSI_DECSTR_safe : safe CSI_DECSTR.
Proof. apply on_screen_safe, soft_reset_safe. Qed.
Lemma CSI_SD_safe : safe CSI_SD.
Proof. unfold CSI_SD. walk. apply on_screen_safe, scroll_safe. Qed.
Lemma CSI_SU_safe : safe CSI_SU.
Proof. unfold CSI_SU. walk. apply on_screen_safe, scroll_safe. Qed.
End functions.

#[export] Hint Resolve CSI_EL_safe CSI_ED_safe CSI_cursormove_safe CSI_DA_safe CSI_SDA_safe
  Esc_DECALN_safe Ctrl_LF_safe Ctrl_CR_safe Ctrl_BS_safe Ctrl_RI_safe Ctrl_NEL_safe Ctrl_HT_safe
  CSI_CxT_safe Ctrl_HTS_safe CSI_TBC_safe CSI_DECSM_safe CSI_DECRM_safe CSI_SM_safe CSI_RM_safe
  CSI_DECSTBM_safe Ctrl_BEL_safe CSI_SGR_safe Esc_DECSC_safe Esc_DECRC_safe CSI_DSR_safe
  CSI_IL_safe CSI_DL_safe CSI_ICH_safe CSI_DCH_safe CSI_VPA_safe CSI_HPA_safe CSI_ECH_safe
  Esc_RIS_safe CSI_DECSTR_safe CSI_SD_safe CSI_SU_safe : safe.

Section dispatching.
Context (w h : Z).
Abbreviation safe m := (preserves (ctx_inv w h) m).

Lemma registry_safe t : Forall (fun kf => safe (fn (snd kf))) (registry t).
Proof. destruct t; cbn [registry]; repeat (constructor; [auto with safe|]); constructor. Qed.

Lemma find_function_safe key t f :
  find_function key (registry t) = Some f -> safe (fn f).
Proof.
  pose proof (registry_safe t) as H. induction H as [|[k g] m Hg _ IH]; cbn; [done|].
  case_decide; [|done]. by intros [= <-].
Qed.

Lemma clear_wrap_safe : safe clear_wrap.
Proof. apply set_ds_safe. intros. by apply set_flag_inv. Qed.

Lemma call_safe key t : safe (call t key).
Proof.
  unfold call. case_match eqn:E; [|apply clear_wrap_safe]. apply triple_seq.
  - apply triple_when. intros _. apply clear_wrap_safe.
  - intros _. by apply (find_function_safe key t).
Qed.

Lemma dispatch_safe t act :
  (t = CONTROL -> ch act <= 255) ->
  (t <> CONTROL -> char_present act = true /\ 0 <= ch act) -> safe (dispatch t act).
Proof.
  intros Hc Hp. unfold dispatch. apply triple_seq.
  - destruct t; try apply preserves_ret; (destruct Hp as [Hp Hch]; [done|]);
      (apply triple_seq; [by apply triple_assert|intros _]);
      apply on_dispatch_safe; by apply collect_safe.
  - intros _. apply triple_seq; [|intros key; apply call_safe].
    destruct t; try (intros s Hs; by do 2 eexists).
    apply triple_seq; [|intros _; apply preserves_ret].
    apply triple_assert. intros. split; [apply Z.leb_le; auto|done].
Qed.

Lemma Parse_OSC_8_hd c v s : Parse_OSC_8 (c :: v) = Some s -> hd 0 s = u8 c.
Proof. cbn. case_match; [done|]. by intros (x & _ & ->)%fmap_Some. Qed.

Lemma OSC_8_safe s : hd 0 s = 56 -> preserves (scr_inv w h) (OSC_8 s).
Proof.
  intros Hs. unfold OSC_8. apply triple_seq; [apply triple_assert; by rewrite Hs|].
  intros _. apply triple_if; intros _; [apply preserves_ret|].
  case_match; [|apply preserves_ret]. apply on_ds_safe. intros. by apply set_hyperlink_inv.
Qed.

Lemma set_text_safe g :
  (forall f, ds (g f) = ds f /\ rows (g f) = rows f) -> safe (on_screen (on_fb g)).
Proof. intros. by apply on_screen_safe, on_fb_safe. Qed.

Lemma OSC_dispatch_safe : safe OSC_dispatch.
Proof.
  apply (triple_bind_gets _ _ _ _ (fun _ => True)); [done|]. intros o _.
  apply triple_if; intros _; [by apply set_text_safe|].
  apply triple_if; intros Hl; [|apply preserves_ret].
  destruct (if nth 0 o 0 =? 59 then _ else _) as [cmd off] eqn:E.
  destruct (Z.eqb_spec cmd 8) as [->|_].
  - destruct (Parse_OSC_8 o) as [s|] eqn:Es; [|apply preserves_ret].
    apply on_screen_safe, OSC_8_safe.
    destruct o as [|c o]; [done|]. rewrite (Parse_OSC_8_hd _ _ _ Es).
    cbn [nth] in E. repeat case_match; simplify_eq. by replace c with 56 by lia.
  - cbv zeta. walk; by apply set_text_safe.
Qed.
End dispatching.
