(* ===== verification/Emulator.v ===== *)
(** * The emulator (mosh/src/terminal/terminal.cc, terminaluserinput.{h,cc},
      parseraction.cc) and the host-input loop of [Terminal::Complete]

    [print], the escape and control dispatch, the user-input translation, the
    effect of every action, and the loop of [Complete::act] that feeds octets
    to the parser and applies the actions it yields. *)
From S2P Require Export Functions.

(** ** User input (terminaluserinput.cc) *)

Inductive UserInputState : Type := UI_Ground | UI_ESC | UI_SS3.

Definition UserInput_input (c : Z) (application_mode_cursor_keys : bool) (state : UserInputState)
  : bytes * UserInputState :=
  match state with
  | UI_Ground => ([c], if c =? 0x1b then UI_ESC else UI_Ground)
  | UI_ESC => if c =? chr "O" then ([], UI_SS3) else ([c], UI_Ground)
  | UI_SS3 =>
      if negb application_mode_cursor_keys && (chr "A" <=? c) && (c <=? chr "D")
      then ([chr "["; c], UI_Ground)
      else ([chr "O"; c], UI_Ground)
  end.

(** ** The emulator (terminal.cc) *)

Record Emulator : Type := MkEmulator { ctx : Context_; user : UserInputState }.
#[export] Instance eta_Emulator : Eta Emulator := fun e => MkEmulator (ctx e) (user e).

Definition on_ctx {A} (m : M Context_ A) : M Emulator A := zoom ctx (fun t e => e <| ctx := t |>) m.

(** [Emulator( s_width, s_height )]; [g] is the next row generation. *)
Definition Emulator_new (s_width s_height g : Z) : result fault Emulator :=
  f ← Framebuffer_new s_width s_height g;
  Ok (MkEmulator (MkContext (MkScreen (u64 (g + 1)) f) Dispatcher_new) UI_Ground).

Definition read_octets_to_host : M Emulator bytes :=
  ret ← gets (fun e => terminal_to_host (dispatch_ (ctx e)));
  on_ctx (on_dispatch (modify (fun d => d <| terminal_to_host := [] |>))) ;;
  mret ret.

Section emulator.
Context `{Libc}.

Definition char_width (c : Z) : Z :=
  if c =? 0 then -1 else if isprint_iso8859_1 c then 1 else wcwidth c.

(** The wrap to the next row before a character that does not fit. *)
Definition print_wrap (chwidth : Z) : M Screen unit :=
  d ← gets scr_ds;
  if auto_wrap_mode d && next_print_will_wrap d then
    with_row (-1) (Row_set_wrap true) ;;
    on_ds (move_col 0 false false) ;;
    move_rows_autoscroll 1
  else if auto_wrap_mode d && (chwidth =? 2) && (cursor_col d =? width d - 1) then
    reset_cell (-1) (-1) ;;
    with_row (-1) (Row_set_wrap false) ;;
    on_ds (move_col 0 false false) ;;
    move_rows_autoscroll 1
  else mret tt.

(** The writes through [this_cell]. *)
Definition draw_cell (d : DrawState) (c chwidth : Z) (this_cell : Cell) : result fault Cell :=
  x ← Cell_append c (Cell_reset (get_background_rendition d) this_cell);
  Ok (x <| wide := chwidth =? 2 |> <| cell_renditions := ds_renditions d |>
        <| cell_hyperlink := ds_hyperlink d |>).

Definition print_normal (c chwidth : Z) : M Screen unit :=
  print_wrap chwidth ;;
  d ← gets scr_ds;
  when_ (insert_mode d)
    (for_range 0 chwidth (fun _ => insert_cell (cursor_row d) (cursor_col d))) ;;
  with_cell (-1) (-1) (draw_cell d c chwidth) ;;
  when_ ((chwidth =? 2) && (cursor_col d + 1 <? width d))
    (reset_cell (cursor_row d) (cursor_col d + 1)) ;;
  on_ds (move_col chwidth true true).

Definition print_combining (c : Z) : M Screen unit :=
  d ← gets scr_ds;
  match get_combining_cell d with
  | None => mret tt
  | Some (row, col) =>
      x ← get_cell row col;
      when_ (Cell_empty x) (
        assert_ (negb (wide x)) ;;
        with_cell row col (fun x => Ok (x <| fallback := true |>)) ;;
        on_ds (move_col 1 true true)) ;;
      when_ (negb (Cell_full x)) (with_cell row col (Cell_append c))
  end.

Definition print (act : Action) : M Screen unit :=
  assert_ (char_present act) ;;
  let chwidth := char_width (ch act) in
  _ ← get_cell (-1) (-1);
  if (chwidth =? 1) || (chwidth =? 2) then print_normal (ch act) chwidth
  else if chwidth =? 0 then print_combining (ch act)
  else if chwidth =? -1 then mret tt
  else fail AssertFail.

Definition Esc_dispatch (act : Action) : function :=
  n ← gets (fun s => lenZ (dispatch_chars (dispatch_ s)));
  if (n =? 0) && (0x40 <=? ch act) && (ch act <=? 0x5F)
  then dispatch CONTROL (MkAction (typ act) (ch act + 0x40) (char_present act))
  else dispatch ESCAPE act.

(** [act_on_terminal] of each class (parseraction.cc); the actions without an
    override do nothing.  [Resize] carries [size_t]s that become [int]s. *)
Definition act_on_terminal (act : Action) : M Emulator unit :=
  match typ act with
  | Print => on_ctx (on_screen (print act))
  | Execute => on_ctx (dispatch CONTROL act)
  | Clear => on_ctx (on_dispatch (modify clear))
  | Param => on_ctx (on_dispatch (newparamchar act))
  | Collect => on_ctx (on_dispatch (collect act))
  | CSI_Dispatch => on_ctx (dispatch CSI act)
  | Esc_Dispatch => on_ctx (Esc_dispatch act)
  | OSC_Put => on_ctx (on_dispatch (OSC_put act))
  | OSC_Start => on_ctx (on_dispatch (modify OSC_start))
  | OSC_End => on_ctx OSC_dispatch
  | UserByte c =>
      e ← get;
      let app := application_mode_cursor_keys (scr_ds (screen (ctx e))) in
      let '(s, st) := UserInput_input c app (user e) in
      modify (fun e => e <| user := st |>) ;;
      on_ctx (to_host s)
  | Resize w h => on_ctx (on_screen (fb_resize (i32 w) (i32 h)))
  | Ignore | Hook | Put | Unhook => mret tt
  end.

Fixpoint act_all (acts : list Action) : M Emulator unit :=
  match acts with
  | [] => mret tt
  | a :: acts' => act_on_terminal a ;; act_all acts'
  end.
End emulator.

(** ** Host input ([Complete::act] of completeterminal.cc) *)

Record Complete : Type := MkComplete {
  c_parser : UTF8Parser; terminal : Emulator;
  input_history : list (Z * Z); echo_ack : Z }.
#[export] Instance eta_Complete : Eta Complete :=
  fun c => MkComplete (c_parser c) (terminal c) (input_history c) (echo_ack c).

Definition on_parser {A} (m : M UTF8Parser A) : M Complete A :=
  zoom c_parser (fun t c => c <| c_parser := t |>) m.
Definition on_terminal {A} (m : M Emulator A) : M Complete A :=
  zoom terminal (fun t c => c <| terminal := t |>) m.

Section complete.
Context `{Libc}.

Definition Complete_new (width height g : Z) : result fault Complete :=
  p ← UTF8Parser_new;
  e ← Emulator_new width height g;
  Ok (MkComplete p e [] 0).

(** The loop of [act]: [actions] is empty before and after each octet. *)
Fixpoint act_octets (s : bytes) : M Complete unit :=
  match s with
  | [] => mret tt
  | c :: s' =>
      acts ← on_parser (utf8_input c []);
      on_terminal (act_all acts) ;;
      act_octets s'
  end.

Definition act (s : bytes) : M Complete bytes :=
  act_octets s ;; on_terminal read_octets_to_host.

Definition act_one (a : Action) : M Complete bytes :=
  on_terminal (act_on_terminal a) ;; on_terminal read_octets_to_host.
End complete.

(** ** Safety of host input *)

Definition emu_inv (w h : Z) (e : Emulator) : Prop := ctx_inv w h (ctx e).
Definition complete_inv `{Libc} (w h : Z) (c : Complete) : Prop :=
  utf8_wf (c_parser c) /\ emu_inv w h (terminal c).

Section print_safety.
Context `{Libc} `{!LibcLaws} (w h : Z).
Abbreviation safe m := (preserves (scr_inv w h) m).

Lemma get_cell_safe row col :
  row_index h row -> col_index w col ->
  triple (scr_inv w h) (get_cell row col) (fun c s => scr_inv w h s /\ cell_wf c).
Proof.
  intros Hr Hc. apply (triple_bind _ _ _ _ _ (get_row_safe w h row Hr)). intros r.
  apply triple_pure. intros [Hl Hf].
  apply (triple_bind_gets _ _ _ _ (fun c => 0 <= c < w)).
  { intros s Hs. by apply (resolve_col_ok w h). }
  intros c Hci s Hs. destruct (at_ok (cells r) c) as (x & E & Ex); [lia|].
  exists x, s. unfold lift. rewrite E. split_and!; [done..|].
  by apply (lookupZ_Forall _ _ _ _ Hf Ex).
Qed.

Lemma set_wrap_safe b : 0 < w -> safe (with_row (-1) (Row_set_wrap b)).
Proof.
  intros Hw. apply with_row_safe; [by left|]. intros r Hr.
  destruct (Row_set_wrap_ok w b r Hw Hr). eauto.
Qed.

Lemma print_wrap_safe n : safe (print_wrap n).
Proof.
  apply (triple_bind_gets _ _ _ _ (ds_inv w h)); [by intros s []|]. intros d Hd.
  assert (0 < w) by (destruct Hd; tauto).
  apply triple_if; intros _; [|apply triple_if; intros _; [|apply preserves_ret]]; seq_steps;
    auto using set_wrap_safe, move_col_safe, move_rows_autoscroll_safe.
  apply reset_cell_safe; by left.
Qed.

Lemma Cell_append_ok c x :
  is_scalar c = true -> exists x', Cell_append c x = Ok x' /\ contents x' <> [] /\
    cell_renditions x' = cell_renditions x.
Proof.
  intros Hc. unfold Cell_append, append_to_str. case_match.
  - eexists. split; [done|]. split; [|done]. cbn. by intros [_ ?]%app_eq_nil.
  - destruct (wcrtomb_scalar c Hc) as (s & -> & Hs). eexists. split; [done|]. split; [|done].
    cbn. by intros [_ ?]%app_eq_nil.
Qed.

Lemma draw_cell_ok d c n x :
  ds_inv w h d -> is_scalar c = true -> exists x', draw_cell d c n x = Ok x' /\ cell_wf x'.
Proof.
  intros Hd Hc. unfold draw_cell.
  destruct (Cell_append_ok c (Cell_reset (get_background_rendition d) x) Hc) as (x' & -> & Hne & _).
  eexists. split; [done|]. split; cbn; [by destruct Hd|done].
Qed.

Lemma print_normal_safe c n : is_scalar c = true -> safe (print_normal c n).
Proof.
  intros Hc. apply triple_seq; [apply print_wrap_safe|]. intros _.
  apply (triple_bind_gets _ _ _ _ (ds_inv w h)); [by intros s []|]. intros d Hd.
  pose proof Hd as []. seq_steps; try apply triple_when; intros.
  - apply triple_for_range. intros. apply insert_cell_safe; [right|]; lia.
  - apply with_cell_safe; [by left..|]. intros. by apply draw_cell_ok.
  - apply reset_cell_safe; right; lia.
  - by apply move_col_safe.
Qed.

Lemma print_combining_safe c : is_scalar c = true -> safe (print_combining c).
Proof.
  intros Hc. apply (triple_bind_gets _ _ _ _ (ds_inv w h)); [by intros s []|]. intros d Hd.
  unfold get_combining_cell. destruct (_ || _) eqn:E; [apply preserves_ret|].
  pose proof Hd as [].
  assert (Hr : row_index h (combining_char_row d)) by (right; lia).
  assert (Hcol : col_index w (combining_char_col d)) by (right; lia).
  apply (triple_bind _ _ _ _ _ (get_cell_safe _ _ Hr Hcol)). intros x.
  apply triple_pure. intros [Hx Hw].
  apply triple_seq; [|intros _]; apply triple_when; intros Hb.
  - apply triple_seq; [|intros _; apply triple_seq; [|intros _; apply move_col_safe]].
    + apply triple_assert. unfold Cell_empty in Hb. rewrite Hw by (by case_match). done.
    + apply with_cell_safe; [done..|]. intros y Hy. by eexists.
  - apply with_cell_safe; [done..|]. intros y [Hy _].
    destruct (Cell_append_ok c y Hc) as (x' & -> & Hne & Er). eexists. split; [done|].
    split; [by rewrite Er|done].
Qed.

Lemma print_safe a :
  char_present a = true -> is_scalar (ch a) = true -> safe (print a).
Proof.
  intros Hp Hc. apply triple_seq; [by apply triple_assert|]. intros _. cbv zeta.
  apply (triple_bind _ _ _ (fun _ => scr_inv w h)).
  { eapply triple_conseq; [apply get_cell_safe; by left|done|by intros ? ? []]. }
  intros _. assert (-1 <= char_width (ch a) <= 2).
  { unfold char_width. pose proof (wcwidth_range (ch a)). repeat case_match; lia. }
  apply triple_if; intros; [by apply print_normal_safe|].
  apply triple_if; intros; [by apply print_combining_safe|].
  apply triple_if; intros; [apply preserves_ret|lia].
Qed.
End print_safety.

Section act_safety.
Context `{Libc} `{!LibcLaws} (w h : Z).

Lemma on_ctx_safe (m : function) :
  preserves (ctx_inv w h) m -> preserves (emu_inv w h) (on_ctx m).
Proof.
  intros Hm. by apply (triple_zoom _ _ _ _ (ctx_inv w h) _ (fun _ => ctx_inv w h)).
Qed.

Lemma Esc_dispatch_safe a :
  char_present a = true -> 0 <= ch a -> preserves (ctx_inv w h) (Esc_dispatch a).
Proof.
  intros Hp Hc. apply (triple_bind_gets _ _ _ _ (fun _ => True)); [done|]. intros n _.
  apply triple_if; intros Hb; apply dispatch_safe; cbn; try done. intros _. lia.
Qed.

(** The actions the parser yields. *)
Lemma act_on_terminal_safe a : action_wf a -> preserves (emu_inv w h) (act_on_terminal a).
Proof.
  unfold action_wf, act_on_terminal. intros Ha.
  destruct (typ a); try apply preserves_ret; try done; apply on_ctx_safe.
  - apply on_screen_safe. apply print_safe; tauto.
  - apply dispatch_safe; [intros _; lia|done].
  - apply on_dispatch_safe, preserves_modify, clear_inv.
  - apply on_dispatch_safe, collect_safe; [tauto|lia].
  - apply on_dispatch_safe, newparamchar_safe; tauto.
  - apply Esc_dispatch_safe; [tauto|lia].
  - apply dispatch_safe; [done|]. intros _. split; [tauto|lia].
  - apply on_dispatch_safe, preserves_modify, OSC_start_inv.
  - apply on_dispatch_safe, OSC_put_safe; tauto.
  - apply OSC_dispatch_safe.
Qed.

Lemma act_all_safe acts : Forall action_wf acts -> preserves (emu_inv w h) (act_all acts).
Proof.
  intros Hf. induction Hf as [|a acts Ha _ IH]; cbn; [apply preserves_ret|].
  apply triple_seq; [by apply act_on_terminal_safe|done].
Qed.

Lemma UserByte_safe c ch_ p :
  preserves (emu_inv w h) (act_on_terminal (MkAction (UserByte c) ch_ p)).
Proof.
  intros e He. unfold act_on_terminal. cbn [typ].
  unfold mbind at 1, M_bind at 1. cbn [get].
  destruct (UserInput_input c _ (user e)) as [s st]. revert e He.
  apply triple_seq; [by apply preserves_modify|]. intros _.
  apply on_ctx_safe, to_host_safe.
Qed.

Lemma read_octets_safe :
  triple (emu_inv w h) read_octets_to_host
    (fun _ e => emu_inv w h e /\ terminal_to_host (dispatch_ (ctx e)) = []).
Proof.
  intros e [Hs Hd]. do 2 eexists. split; [done|]. split; [|done].
  split; [done|]. destruct Hd. by split.
Qed.

Lemma Resize_safe w' h' ch_ p :
  0 < w' < 2 ^ 31 -> 0 < h' < 2 ^ 31 ->
  triple (emu_inv w h) (act_on_terminal (MkAction (Resize w' h') ch_ p)) (fun _ => emu_inv w' h').
Proof.
  intros Hw Hh. unfold act_on_terminal. cbn [typ].
  assert (Hi : forall z, 0 < z < 2 ^ 31 -> i32 z = z).
  { intros z Hz. unfold i32. rewrite Z.mod_small; lia. }
  rewrite !Hi by done.
  apply (triple_zoom _ _ _ _ (ctx_inv w h) _ (fun _ => ctx_inv w' h')); [|done..].
  apply (triple_zoom _ _ _ _ (scr_inv w h) _ (fun _ => scr_inv w' h')); [|by intros s []|].
  - apply fb_resize_safe; lia.
  - intros a t s [_ Hd] Ht. by split.
Qed.

Lemma on_terminal_safe (m : M Emulator unit) :
  preserves (emu_inv w h) m -> preserves (complete_inv w h) (on_terminal m).
Proof.
  intros Hm. apply (triple_zoom _ _ _ _ (emu_inv w h) _ (fun _ => emu_inv w h));
    [done|by intros s []|]. intros a t s [Hp _] Ht. by split.
Qed.

Lemma bind_parser {B} c (k : list Action -> M Complete B) Q :
  is_u8 c -> (forall acts, Forall action_wf acts -> triple (complete_inv w h) (k acts) Q) ->
  triple (complete_inv w h) (on_parser (utf8_input c []) ≫= k) Q.
Proof.
  intros [Hc _] Hk.
  apply (triple_bind _ _ _ (fun a s => complete_inv w h s /\ Forall action_wf a)).
  - intros s [Hp He]. destruct (utf8_input_run c [] (c_parser s) Hp Hc) as (cs & p' & E & Hcs & _ & Hw).
    unfold on_parser, zoom. rewrite E. do 2 eexists. split; [done|]. split; [by split|].
    apply parse_run_wf. by apply octet_codes_scalar.
  - intros a. apply triple_pure, Hk.
Qed.

Lemma act_octets_safe s :
  Forall is_u8 s -> preserves (complete_inv w h) (act_octets s).
Proof.
  intros Hf. induction Hf as [|c s Hc _ IH]; cbn; [apply preserves_ret|].
  apply bind_parser; [done|]. intros acts Ha.
  apply triple_seq; [|done]. by apply on_terminal_safe, act_all_safe.
Qed.
End act_safety.

Lemma Complete_new_inv `{Libc} w h g c :
  Complete_new w h g = Ok c -> complete_inv w h c.
Proof.
  unfold Complete_new, Emulator_new, Framebuffer_new.
  destruct UTF8Parser_new as [p|] eqn:Ep; [|done]. cbn [mbind result_bind].
  destruct ((0 <? h) && (0 <? w)) eqn:E; [|done]. cbn. intros [= <-].
  apply utf8_new_wf in Ep as [Hp _]. split; [done|]. split; [|apply Dispatcher_new_inv].
  split; cbn; [apply DrawState_new_inv; lia|]. split; [apply lenZ_replicate; lia|].
  apply Forall_replicate, Row_new_wf; [lia|by left].
Qed.

Section claims.
Context `{Libc} `{!LibcLaws}.

Lemma act_triple w h s : Forall is_u8 s ->
  triple (complete_inv w h) (act s) (fun _ c => complete_inv w h c /\ terminal_to_host (dispatch_ (ctx (terminal c))) = []).
Proof.
  intros Hs. apply triple_seq; [by apply act_octets_safe|]. intros _.
  eapply triple_zoom; [apply (read_octets_safe w h)|by intros ? []|].
  intros a t x [Hp _] [Ht Hh]. split; [by split|done].
Qed.

(** C1. Host output cannot crash the emulator: for any sequence of octets and
    from any state the terminal can be in, [Complete::act] returns without a
    failed assertion, an out-of-range access or undefined behaviour; the
    result is again a screen of [h] rows of [w] well-formed cells with the
    cursor, margins, tab stops and saved state inside it, and the reply
    buffer is empty. *)
Theorem act_safe w h s c :
  complete_inv w h c -> Forall is_u8 s ->
  exists out c', act s c = Ok (out, c') /\ complete_inv w h c' /\
    terminal_to_host (dispatch_ (ctx (terminal c'))) = [].
Proof.
  intros Hc Hs. by apply (act_triple w h s Hs).
Qed.
End claims.

(** A terminal of 3 columns and 2 rows fed text, a combining character, a wide
    character, a malformed octet and escape sequences. *)
Lemma act_safe_witness :
  match Complete_new 3 2 0 with
  | Ok c => exists out c',
      act [0x41; 0xCC; 0x81; 0xE4; 0xB8; 0x80; 0xFF; 27; 91; 57; 57; 65; 27; 91; 54; 110] c = Ok (out, c') /\
      complete_inv 3 2 c' /\ terminal_to_host (dispatch_ (ctx (terminal c'))) = []
  | Err _ => False
  end.
Proof.
  destruct (Complete_new 3 2 0) as [c|] eqn:E; [|by vm_compute in E].
  apply act_safe; [by apply (Complete_new_inv _ _ 0)|]. repeat constructor; done.
Defined.
