(* ===== verification/TerminalSpec.v ===== *)
(** * What the terminal does: functional properties of the emulator

    Control sequences from octets to the function they call, renditions and
    their textual form.  CursorSpec.v goes on to the cursor, ScreenSpec.v to
    scrolling, printing and resizing. *)
From S2P Require Export Emulator.

(** ** Parameters as text *)

(** Parameters separated by semicolons. *)
Fixpoint join_params (ps : list Z) : bytes :=
  match ps with
  | [] => []
  | [p] => dec p
  | p :: ps' => dec p ++ 59 :: join_params ps'
  end.

Lemma segments_digits_app ds rest :
  Forall (fun c => is_digit c = true) ds -> segments (ds ++ 59 :: rest) = ds :: segments rest.
Proof.
  intros H. induction H as [|c ds Hc _ IH]; cbn; [done|].
  rewrite (proj2 (Z.eqb_neq c 59)) by (unfold is_digit in Hc; lia). by rewrite IH.
Qed.

Lemma segments_digits_only ds :
  Forall (fun c => is_digit c = true) ds -> segments ds = [ds].
Proof.
  intros H. induction H as [|c ds Hc _ IH]; cbn; [done|].
  rewrite (proj2 (Z.eqb_neq c 59)) by (unfold is_digit in Hc; lia). by rewrite IH.
Qed.

Lemma dec_param z :
  0 <= z <= PARAM_MAX ->
  dec z <> [] /\ Forall (fun c => is_digit c = true) (dec z) /\ segment_value (dec z) = z.
Proof.
  intros Hz. destruct (dec_nonneg_spec z) as (Hv & Hf & Hne); [lia|].
  unfold dec. rewrite (proj2 (Z.ltb_ge z 0)) by lia. split_and!; [done..|].
  unfold segment_value. case_match; [done|]. rewrite Hv.
  by rewrite (proj2 (Z.ltb_ge PARAM_MAX z)) by lia.
Qed.

(** The values come back from the text. *)
Lemma join_params_values ps :
  ps <> [] -> Forall (fun z => 0 <= z <= PARAM_MAX) ps ->
  segment_value <$> segments (join_params ps) = ps.
Proof.
  intros Hne H. induction H as [|p ps Hp Hps IH]; [done|].
  destruct (dec_param p Hp) as (_ & Hf & Hv). destruct ps as [|q ps]; cbn [join_params].
  - rewrite segments_digits_only by done. cbn. by rewrite Hv.
  - rewrite segments_digits_app by done. cbn [fmap list_fmap]. rewrite Hv.
    f_equal. by apply IH.
Qed.

Lemma join_params_chars ps :
  Forall (fun z => 0 <= z <= PARAM_MAX) ps ->
  Forall (fun c => is_param_char c = true) (join_params ps).
Proof.
  assert (Hd : forall z, 0 <= z <= PARAM_MAX -> Forall (fun c => is_param_char c = true) (dec z)).
  { intros z Hz. destruct (dec_param z Hz) as (_ & Hf & _).
    eapply Forall_impl; [exact Hf|]. intros c Hc. unfold is_param_char. by rewrite Hc, orb_true_r. }
  intros H. induction H as [|p ps Hp _ IH]; [constructor|].
  destruct ps as [|q ps]; cbn [join_params]; [auto|].
  apply Forall_app. split; [auto|]. constructor; [done|]. apply IH.
Qed.

(** ** Control sequences: from octets to the call *)

(** The dispatcher after [ESC \[] [ps] [f]. *)
Definition csi_dispatcher (ps : bytes) (f : Z) (d : Dispatcher) : Dispatcher :=
  d <| params := ps |> <| parsed := false |> <| dispatch_chars := [f] |>.

Section csi.
Context `{Libc} `{!LibcLaws}.

Lemma parse_csi_params ps st :
  Forall (fun c => is_param_char c = true) ps -> ps <> [] ->
  st = CSI_Entry \/ st = CSI_Param ->
  parse_run st ps = (CSI_Param, (fun c => MkAction Param c true) <$> ps).
Proof.
  intros Hf. revert st. induction Hf as [|c ps Hc Hps IH]; intros st Hne Hst; [done|].
  assert (Hone : parser_input st c [] = (CSI_Param, [MkAction Param c true])).
  { assert (Hc' : c ∈ seqZ 48 12 /\ c <> 58).
    { unfold is_param_char, is_digit in Hc. rewrite elem_of_seqZ. lia. }
    destruct Hc' as [Hc' Hne']. apply elem_of_seqZ in Hc'.
    assert (c = 48 \/ c = 49 \/ c = 50 \/ c = 51 \/ c = 52 \/ c = 53 \/ c = 54 \/ c = 55 \/
            c = 56 \/ c = 57 \/ c = 59) as Hcs by lia.
    destruct Hst as [-> | ->]; repeat destruct Hcs as [-> | Hcs]; subst; reflexivity. }
  cbn [parse_run]. rewrite Hone. destruct ps as [|c' ps]; [done|].
  rewrite IH by auto. done.
Qed.

Lemma final_char_input st f :
  st = CSI_Entry \/ st = CSI_Param -> 0x40 <= f <= 0x7E ->
  parser_input st f [] = (Ground, [MkAction CSI_Dispatch f true]).
Proof.
  intros Hst Hf.
  assert (Hall : forallb (fun f => (f <? 0x40) || (0x7E <? f) ||
    forallb (fun st => bool_decide (parser_input st f [] = (Ground, [MkAction CSI_Dispatch f true])))
      [CSI_Entry; CSI_Param]) (seqZ 0 128) = true) by (vm_compute; reflexivity).
  pose proof (forall_range _ _ Hall f ltac:(lia)) as Hb. cbv beta in Hb.
  rewrite (proj2 (Z.ltb_ge f 0x40)), (proj2 (Z.ltb_ge 0x7E f)) in Hb by lia.
  cbn [orb] in Hb. rewrite forallb_forall in Hb.
  eapply bool_decide_eq_true_1, (Hb st). destruct Hst as [-> | ->]; cbn; auto.
Qed.

Lemma parse_csi ps f :
  Forall (fun c => is_param_char c = true) ps -> 0x40 <= f <= 0x7E ->
  parse_run Ground (27 :: 91 :: ps ++ [f]) =
    (Ground, [MkAction Clear (-1) false; MkAction Clear (-1) false]
             ++ ((fun c => MkAction Param c true) <$> ps) ++ [MkAction CSI_Dispatch f true]).
Proof.
  intros Hps Hf. change (27 :: 91 :: ps ++ [f]) with ([27; 91] ++ ps ++ [f]).
  rewrite parse_run_app. change (parse_run Ground [27; 91])
    with (CSI_Entry, [MkAction Clear (-1) false; MkAction Clear (-1) false]).
  cbn [fst snd]. rewrite parse_run_app. destruct ps as [|c ps].
  - cbn [parse_run fst snd app fmap list_fmap]. by rewrite final_char_input by auto.
  - rewrite (parse_csi_params (c :: ps)) by auto. cbn [fst snd].
    cbn [parse_run]. by rewrite final_char_input by auto.
Qed.

Lemma act_all_app a b e : act_all (a ++ b) e = (act_all a ;; act_all b) e.
Proof.
  revert e. induction a as [|x a IH]; intros e; [done|]. cbn [act_all app].
  unfold mbind, M_bind in *. destruct (act_on_terminal x e) as [[[] e']|]; [apply IH|done].
Qed.

(** ASCII text reaches the terminal as the actions of its code points. *)
Lemma act_octets_ascii s st e hist ack :
  Forall (fun c => 0 <= c <= 127) s ->
  act_octets s (MkComplete (MkUTF8Parser st []) e hist ack) =
    match act_all (snd (parse_run st s)) e with
    | Ok (_, e') => Ok (tt, MkComplete (MkUTF8Parser (fst (parse_run st s)) []) e' hist ack)
    | Err x => Err x
    end.
Proof.
  intros Hs. revert st e. induction Hs as [|c s Hc _ IH]; intros st e; [done|].
  cbn [act_octets parse_run]. destruct (parser_input st c []) as [s1 a1] eqn:E1.
  rewrite (M_bind_Ok _ _ _ a1 (MkComplete (MkUTF8Parser s1 []) e hist ack)).
  2:{ unfold on_parser, zoom, utf8_input, mbind, M_bind, gets, assert_, buf_len. cbn -[Z.leb].
      rewrite (proj2 (Z.leb_le c 127)) by lia. unfold feed.
      change (bool_decide (0 < BUF_SIZE)%nat) with true.
      change (bool_decide (0%nat = 0%nat)) with true. cbn -[parser_input]. by rewrite E1. }
  destruct (parse_run s1 s) as [s2 a2] eqn:E2. cbn [fst snd].
  rewrite act_all_app. unfold mbind, M_bind, on_terminal, zoom. cbn [terminal].
  destruct (act_all a1 e) as [[[] e']|]; [|done]. unfold set_field. cbn.
  rewrite IH, E2. done.
Qed.

(** The parameter characters accumulate in the dispatcher. *)
Lemma act_params ps e :
  Forall (fun c => is_param_char c = true) ps ->
  lenZ (params (dispatch_ (ctx e))) + lenZ ps <= 100 ->
  parsed (dispatch_ (ctx e)) = false ->
  act_all ((fun c => MkAction Param c true) <$> ps) e =
    on_ctx (on_dispatch (modify (fun d => d <| params := params d ++ ps |>))) e.
Proof.
  intros Hf. revert e. induction Hf as [|c ps Hc _ IH]; intros e Hl Hp.
  - cbn. unfold on_ctx, on_dispatch, zoom, modify. cbn. rewrite app_nil_r.
    destruct e as [[scr []]]. done.
  - change (lenZ (c :: ps)) with (lenZ ([c] ++ ps)) in Hl. rewrite lenZ_app in Hl.
    change (lenZ [c]) with 1 in Hl. pose proof (lenZ_nonneg ps).
    cbn [fmap list_fmap act_all].
    rewrite (M_bind_Ok _ _ _ tt (e <| ctx := (ctx e) <| dispatch_ :=
      (dispatch_ (ctx e)) <| params := params (dispatch_ (ctx e)) ++ [c] |> <| parsed := false |> |> |>)).
    2:{ unfold act_on_terminal, newparamchar, on_ctx, on_dispatch, zoom. cbn [typ char_present ch].
        unfold is_param_char, is_digit in Hc. unfold mbind, M_bind, assert_. rewrite Hc. cbn.
        rewrite (proj2 (Z.ltb_lt (lenZ _) 100)) by lia. done. }
    rewrite IH; [|cbn; rewrite lenZ_app; change (lenZ [c]) with 1; lia|done].
    unfold on_ctx, on_dispatch, zoom, modify, set_field. cbn. rewrite <- app_assoc.
    destruct e as [[scr []]]. cbn in *. by subst.
Qed.

(** A whole control sequence, from octets to the call of its function. *)
Lemma act_csi ps f e :
  Forall (fun c => is_param_char c = true) ps -> lenZ ps <= 100 -> 0x40 <= f <= 0x7E ->
  act_all (snd (parse_run Ground (27 :: 91 :: ps ++ [f]))) e =
    on_ctx (on_dispatch (modify (csi_dispatcher ps f)) ;; call CSI [f]) e.
Proof.
  intros Hps Hl Hf. rewrite parse_csi by done. cbn [snd].
  rewrite act_all_app.
  rewrite (M_bind_Ok _ _ _ tt (e <| ctx := (ctx e) <| dispatch_ := clear (dispatch_ (ctx e)) |> |>)).
  2:{ by destruct e as [[scr []]]. }
  rewrite act_all_app.
  rewrite (M_bind_Ok _ _ _ tt (e <| ctx := (ctx e) <| dispatch_ :=
    (clear (dispatch_ (ctx e))) <| params := ps |> |> |>)).
  2:{ rewrite act_params; [|done| |done]; [by destruct e as [[scr []]]|].
      cbn. unfold lenZ at 1. cbn. lia. }
  cbn [act_all]. unfold act_on_terminal. cbn [typ].
  unfold on_ctx, zoom, mbind at 1, M_bind at 1. cbn [ctx set_field].
  unfold dispatch. rewrite (M_bind_Ok _ _ _ tt (MkContext (screen (ctx e))
    (csi_dispatcher ps f (dispatch_ (ctx e))))).
  2:{ unfold mbind, M_bind, on_dispatch, zoom, collect, modify, assert_, set_field. cbn -[Z.leb].
      rewrite (proj2 (Z.leb_le f 255)) by lia. cbn. rewrite u8_id by (unfold is_u8; lia).
      by destruct e as [[scr []]]. }
  rewrite (M_bind_Ok _ _ _ [f] (MkContext (screen (ctx e))
    (csi_dispatcher ps f (dispatch_ (ctx e))))) by done.
  rewrite (M_bind_Ok _ _ _ tt (MkContext (screen (ctx e))
    (csi_dispatcher ps f (dispatch_ (ctx e))))) by done.
  by destruct (call CSI [f] _) as [[[] ?]|].
Qed.
End csi.

(** ** Select graphic rendition *)

(** A parameter below 1 reads as 0. *)
Definition pv (z : Z) : Z := if z <? 1 then 0 else z.

Definition set_color (rendition color : Z) (r : Renditions) : Renditions :=
  if rendition =? 38 then set_foreground_color color r else set_background_color color r.

(** What a list of SGR parameters does to the renditions. *)
Fixpoint sgr_apply (ps : list Z) (r : Renditions) : Renditions :=
  match ps with
  | [] => r
  | p :: rest =>
      let plain := sgr_apply rest (set_rendition (pv p) r) in
      if (pv p =? 38) || (pv p =? 48) then
        match rest with
        | m :: c1 :: rest2 =>
            if m =? 5 then sgr_apply rest2 (set_color (pv p) (pv c1) r)
            else match rest2 with
                 | c2 :: c3 :: rest4 =>
                     if m =? 2
                     then sgr_apply rest4
                            (set_color (pv p) (i32 (make_true_color (pv c1) (pv c2) (pv c3))) r)
                     else plain
                 | _ => plain
                 end
        | _ => plain
        end
      else plain
  end.

(** The context with its renditions replaced. *)
Definition with_renditions (r : Renditions) (c : Context_) : Context_ :=
  c <| screen := put_ds ((scr_ds (screen c)) <| ds_renditions := r |>) (screen c) |>.
Definition renditions_of (c : Context_) : Renditions := ds_renditions (scr_ds (screen c)).

Lemma with_renditions_twice r r' c : with_renditions r (with_renditions r' c) = with_renditions r c.
Proof. by destruct c as [[? []]]. Qed.
Lemma with_renditions_same c : with_renditions (renditions_of c) c = c.
Proof. by destruct c as [[? [? ? ? ? ? ? []]]]. Qed.

(** A context whose parameters are parsed. *)
Definition ready (ps : list Z) (c : Context_) : Prop :=
  parsed (dispatch_ c) = true /\ parsed_params (dispatch_ c) = ps.

Lemma ready_with r ps c : ready ps c -> ready ps (with_renditions r c).
Proof. done. Qed.

Lemma getp_ready N dv ps c :
  ready ps c ->
  getp N dv c = Ok (let ret := default dv (lookupZ ps N) in if ret <? 1 then dv else ret, c).
Proof.
  intros [Hp Hps]. unfold getp, on_dispatch, zoom, getparam, mbind, M_bind, modify, gets, parse_params.
  rewrite Hp. rewrite Hps. by destruct c.
Qed.

Lemma count_ready ps c : ready ps c -> on_dispatch param_count c = Ok (lenZ ps, c).
Proof.
  intros [Hp Hps]. unfold on_dispatch, zoom, param_count, mbind, M_bind, modify, gets, parse_params.
  rewrite Hp, Hps. by destruct c.
Qed.

Lemma lookupZ_suffix {A} pre (x : A) rest k :
  0 <= k -> lookupZ (pre ++ x :: rest) (lenZ pre + k) = lookupZ (x :: rest) k.
Proof. intros. rewrite lookupZ_app_r by lia. f_equal. lia. Qed.

(** The first step: how many parameters it uses and what it does. *)
Definition sgr_one (p : Z) (rest : list Z) : nat * (Renditions -> Renditions) :=
  let plain := (1%nat, set_rendition (pv p)) in
  if (pv p =? 38) || (pv p =? 48) then
    match rest with
    | m :: c1 :: rest2 =>
        if m =? 5 then (3%nat, set_color (pv p) (pv c1))
        else match rest2 with
             | c2 :: c3 :: _ =>
                 if m =? 2
                 then (5%nat, set_color (pv p) (i32 (make_true_color (pv c1) (pv c2) (pv c3))))
                 else plain
             | _ => plain
             end
    | _ => plain
    end
  else plain.

Lemma sgr_apply_one p rest r :
  sgr_apply (p :: rest) r =
    sgr_apply (drop (fst (sgr_one p rest)) (p :: rest)) (snd (sgr_one p rest) r).
Proof. cbn [sgr_apply]. unfold sgr_one. repeat case_match; done. Qed.

Lemma sgr_one_used p rest :
  (1 <= fst (sgr_one p rest))%nat /\ (fst (sgr_one p rest) <= length (p :: rest))%nat.
Proof. unfold sgr_one. repeat case_match; cbn; lia. Qed.

Lemma set_ds_renditions f c :
  (forall d, f d = d <| ds_renditions := ds_renditions (f d) |>) ->
  set_ds f c = Ok (tt, with_renditions (ds_renditions (f (scr_ds (screen c)))) c).
Proof.
  intros Hf. unfold set_ds, on_screen, on_ds, zoom, modify, with_renditions. rewrite Hf at 1. done.
Qed.

Lemma set_color_step rendition color c :
  set_ds (if rendition =? 38 then ds_set_foreground_color color else ds_set_background_color color) c =
    Ok (tt, with_renditions (set_color rendition color (renditions_of c)) c).
Proof.
  unfold set_color. destruct (rendition =? 38); by rewrite set_ds_renditions.
Qed.

Lemma nx_eq m k :
  0 < k -> ((let ret := m in if ret <? 1 then -1 else ret) =? k) = (m =? k).
Proof. intros. cbv zeta. destruct (Z.ltb_spec m 1), (Z.eqb_spec m k); lia. Qed.

Lemma getp_here pre p rest c k dv :
  ready (pre ++ p :: rest) c -> 0 <= k ->
  getp (lenZ pre + k) dv c =
    Ok (let ret := default dv (lookupZ (p :: rest) k) in if ret <? 1 then dv else ret, c).
Proof. intros Hr ?. rewrite (getp_ready _ _ _ _ Hr). by rewrite lookupZ_suffix. Qed.

Lemma SGR_step_eq pre p rest c :
  ready (pre ++ p :: rest) c ->
  SGR_step (lenZ pre) c =
    Ok (lenZ pre + Z.of_nat (fst (sgr_one p rest)),
        with_renditions (snd (sgr_one p rest) (renditions_of c)) c).
Proof.
  intros Hr.
  unfold SGR_step.
  rewrite (M_bind_Ok _ _ c (pv p) c).
  2:{ rewrite <- (Z.add_0_r (lenZ pre)). by rewrite (getp_here _ _ _ _ _ _ Hr). }
  rewrite (M_bind_Ok _ _ c (lenZ (pre ++ p :: rest)) c) by by apply count_ready.
  rewrite (M_bind_Ok _ _ c _ c (getp_here _ _ _ _ 1 (-1) Hr ltac:(lia))).
  rewrite lenZ_app. replace (lenZ pre + lenZ (p :: rest) - lenZ pre) with (lenZ (p :: rest)) by lia.
  cbv zeta. unfold sgr_one. destruct ((pv p =? 38) || (pv p =? 48)) eqn:E; cbn [andb].
  2:{ unfold mbind, M_bind. by rewrite set_ds_renditions. }
  destruct rest as [|m [|c1 rest2]];
    [rewrite (proj2 (Z.leb_gt 3 _)), (proj2 (Z.leb_gt 5 _)) by (unfold lenZ; cbn [length]; lia);
     cbn [andb]; unfold mbind, M_bind; by rewrite set_ds_renditions..|].
  rewrite (proj2 (Z.leb_le 3 _)) by (unfold lenZ; cbn [length]; lia). cbn [andb].
  change (default (-1) (lookupZ (p :: m :: c1 :: rest2) 1)) with m.
  pose proof (nx_eq m 5 ltac:(lia)) as E5. pose proof (nx_eq m 2 ltac:(lia)) as E2. cbv zeta in E5, E2.
  rewrite E5, E2. destruct (m =? 5).
  { rewrite (M_bind_Ok _ _ c _ c (getp_here _ _ _ _ 2 0 Hr ltac:(lia))).
    rewrite (M_bind_Ok _ _ _ _ _ (set_color_step _ _ _)). done. }
  destruct rest2 as [|c2 [|c3 rest4]];
    [rewrite (proj2 (Z.leb_gt 5 _)) by (unfold lenZ; cbn [length]; lia);
     cbn [andb]; unfold mbind, M_bind; by rewrite set_ds_renditions..|].
  rewrite (proj2 (Z.leb_le 5 _)) by (unfold lenZ; cbn [length]; lia). cbn [andb].
  destruct (m =? 2); [|unfold mbind, M_bind; by rewrite set_ds_renditions].
  rewrite (M_bind_Ok _ _ c _ c (getp_here _ _ _ _ 2 0 Hr ltac:(lia))).
  rewrite (M_bind_Ok _ _ c _ c (getp_here _ _ _ _ 3 0 Hr ltac:(lia))).
  rewrite (M_bind_Ok _ _ c _ c (getp_here _ _ _ _ 4 0 Hr ltac:(lia))).
  rewrite (M_bind_Ok _ _ _ _ _ (set_color_step _ _ _)). done.
Qed.

Lemma SGR_loop_eq fuel pre rest c :
  ready (pre ++ rest) c -> (length rest <= fuel)%nat ->
  SGR_loop fuel (lenZ pre) c = Ok (tt, with_renditions (sgr_apply rest (renditions_of c)) c).
Proof.
  revert pre rest c. induction fuel as [|fuel IH]; intros pre rest c Hr Hl.
  - destruct rest; [|cbn in Hl; lia]. cbn. by rewrite with_renditions_same.
  - cbn [SGR_loop]. rewrite (M_bind_Ok _ _ c _ c (count_ready _ _ Hr)), lenZ_app.
    destruct rest as [|p rest].
    { rewrite (proj2 (Z.ltb_ge _ _)) by (unfold lenZ; cbn [length]; lia).
      cbn [sgr_apply]. by rewrite with_renditions_same. }
    rewrite (proj2 (Z.ltb_lt _ _)) by (unfold lenZ; cbn [length]; lia).
    rewrite (M_bind_Ok _ _ _ _ _ (SGR_step_eq _ _ _ _ Hr)), sgr_apply_one.
    destruct (sgr_one_used p rest) as [H1 H2]. destruct (sgr_one p rest) as [k f]. cbn [fst snd] in *.
    replace (lenZ pre + Z.of_nat k) with (lenZ (pre ++ take k (p :: rest)))
      by (rewrite lenZ_app; unfold lenZ; rewrite (length_take_le (p :: rest)) by done; lia).
    rewrite (IH _ (drop k (p :: rest))).
    + by rewrite with_renditions_twice.
    + rewrite <- app_assoc, take_drop. done.
    + rewrite length_drop. lia.
Qed.

Lemma CSI_SGR_eq c :
  disp_inv (dispatch_ c) ->
  CSI_SGR c = Ok (tt, with_renditions (sgr_apply (parameters (dispatch_ c)) (renditions_of c))
                        (c <| dispatch_ := parse_params (dispatch_ c) |>)).
Proof.
  intros Hd. unfold CSI_SGR.
  rewrite (M_bind_Ok _ _ c (lenZ (parameters (dispatch_ c))) (c <| dispatch_ := parse_params (dispatch_ c) |>)).
  2:{ unfold on_dispatch, zoom. by rewrite param_count_eq. }
  destruct (parse_params_spec _ Hd) as [H1 H2].
  rewrite <- (app_nil_l (parameters (dispatch_ c))) in H2.
  change (renditions_of c) with (renditions_of (c <| dispatch_ := parse_params (dispatch_ c) |>)).
  apply (SGR_loop_eq _ [] (parameters (dispatch_ c))); [by split|].
  unfold lenZ. lia.
Qed.

(** *** The text of a rendition *)

Definition semis (ps : list Z) : bytes := mjoin ((fun q => 59 :: dec q) <$> ps).

Lemma semis_app a b : semis (a ++ b) = semis a ++ semis b.
Proof. unfold semis. by rewrite fmap_app, join_app. Qed.

Lemma join_semis p ps : join_params (p :: ps) = dec p ++ semis ps.
Proof.
  revert p. induction ps as [|q ps IH]; intros p.
  - cbn. by rewrite app_nil_r.
  - change (join_params (p :: q :: ps)) with (dec p ++ 59 :: join_params (q :: ps)).
    by rewrite IH.
Qed.

Definition attr_params (a : Z) : list Z :=
  let attr bit code := if negb (Z.land a (Z.shiftl 1 bit) =? 0) then [code] else [] in
  attr bold 1 ++ attr italic 3 ++ attr underlined 4 ++ attr blink 5 ++ attr inverse 7
    ++ attr invisible 8.

Definition color_params (base low ansi color : Z) : list Z :=
  if color =? 0 then []
  else if is_true_color color then
    [base; 2; Z.land (Z.shiftr color 16) 0xff; Z.land (Z.shiftr color 8) 0xff; Z.land color 0xff]
  else if ansi <? color then [base; 5; color - low]
  else [color].

Definition sgr_params (r : Renditions) : list Z :=
  0 :: attr_params (attributes r) ++ color_params 38 30 37 (foreground_color r)
    ++ color_params 48 40 47 (background_color r).

Lemma true_color_range c : 2 ^ 24 <= c < 2 ^ 25 -> is_true_color c = true.
Proof.
  intros Hc. unfold is_true_color, u32. rewrite Z.mod_small by lia.
  apply negb_true_iff, Z.eqb_neq. intros E.
  assert (Hb : Z.testbit (Z.land c true_color_mask) 24 = true).
  { rewrite Z.land_spec. change true_color_mask with (2 ^ 24). rewrite Z.pow2_bits_true by lia.
    rewrite andb_true_r, Z.testbit_true by lia.
    replace (c / 2 ^ 24) with 1; [done|]. apply Z.div_unique with (c - 2 ^ 24); lia. }
  rewrite E, Z.bits_0 in Hb. done.
Qed.

Lemma small_not_true_color c : 0 <= c < 2 ^ 24 -> is_true_color c = false.
Proof.
  intros Hc. unfold is_true_color, u32. rewrite Z.mod_small by lia.
  apply negb_false_iff, Z.eqb_eq. apply Z.bits_inj'. intros n Hn.
  rewrite Z.land_spec, Z.bits_0. change true_color_mask with (2 ^ 24).
  rewrite Z.pow2_bits_eqb by lia. destruct (Z.eqb_spec 24 n) as [<-|]; [|apply andb_false_r].
  rewrite andb_true_r. destruct (Z.eq_dec c 0) as [->|]; [apply Z.bits_0|].
  apply Z.bits_above_log2; [lia|]. apply Z.log2_lt_pow2; lia.
Qed.

Lemma dec_length z n : 0 <= z < 10 ^ Z.of_nat n -> (0 < n)%nat -> (length (dec z) <= n)%nat.
Proof.
  intros. unfold dec. rewrite (proj2 (Z.ltb_ge z 0)) by lia. by apply dec_nonneg_short.
Qed.

Lemma sgr_color_text base low ansi c :
  0 <= base <= 99 -> 0 <= low <= 40 -> color_ok low c ->
  sgr_color base low ansi c = semis (color_params base low ansi c).
Proof.
  intros Hb Hlow Hc. unfold sgr_color, color_params.
  destruct (Z.eqb_spec c 0) as [->|Hne]; [done|]. unfold snprintf.
  rewrite take_ge.
  { destruct (is_true_color c); [|destruct (ansi <? c)];
      unfold semis; cbn [fmap list_fmap mjoin list_join app str]; rewrite ?app_nil_r; done. }
  assert (Hbl : (length (dec base) <= 2)%nat) by (apply dec_length; cbn; lia).
  assert (H8 : forall z, (length (dec (Z.land z 0xff)) <= 3)%nat).
  { intros z. rewrite land_255. pose proof (Z.mod_pos_bound z 256 eq_refl).
    apply dec_length; cbn; lia. }
  pose proof (H8 (Z.shiftr c 16)). pose proof (H8 (Z.shiftr c 8)). pose proof (H8 c).
  destruct (is_true_color c) eqn:Et.
  - repeat (cbn [length str app]; rewrite ?length_app). cbn [length]. lia.
  - destruct Hc as [|[Hc|Hc]]; [done| |rewrite true_color_range in Et; done].
    destruct (ansi <? c).
    + pose proof (dec_length (c - low) 3 ltac:(cbn; lia) ltac:(lia)).
      repeat (cbn [length str app]; rewrite ?length_app). lia.
    + pose proof (dec_length c 3 ltac:(cbn; lia) ltac:(lia)).
      cbn [length]. lia.
Qed.

Lemma sgr_text r :
  rend_wf r -> sgr r = 27 :: 91 :: join_params (sgr_params r) ++ [109].
Proof.
  intros (Hf & Hb & _). unfold sgr, sgr_params. rewrite join_semis, !semis_app.
  rewrite <- (sgr_color_text 38 30 37), <- (sgr_color_text 48 40 47) by (done || lia).
  unfold attr_params. rewrite !semis_app. unfold get_attribute.
  rewrite <- !app_assoc. change (dec 0) with [48]. cbn [str app].
  do 3 f_equal. repeat (f_equal; [by case_match|]). f_equal. by case_match.
Qed.

(** The three components of a true colour give it back. *)
Lemma make_true_color_components c :
  2 ^ 24 <= c < 2 ^ 25 ->
  make_true_color (Z.land (Z.shiftr c 16) 255) (Z.land (Z.shiftr c 8) 255) (Z.land c 255) = c.
Proof.
  intros Hc. unfold make_true_color, u32.
  assert (Hs : forall z k, 0 <= k <= 16 -> Z.shiftl (Z.land z 255) k mod 2 ^ 32 = Z.shiftl (Z.land z 255) k).
  { intros z k Hk. rewrite land_255. apply Z.mod_small.
    pose proof (Z.mod_pos_bound z 256 eq_refl). rewrite Z.shiftl_mul_pow2 by lia.
    pose proof (Z.pow_le_mono_r 2 k 16 ltac:(lia) ltac:(lia)).
    pose proof (Z.pow_pos_nonneg 2 k ltac:(lia) ltac:(lia)). nia. }
  rewrite !Hs by lia. apply Z.bits_inj'. intros n Hn.
  rewrite !Z.lor_spec, !Z.shiftl_spec by done. change true_color_mask with (2 ^ 24).
  rewrite Z.pow2_bits_eqb, (land_255_bits c n) by lia.
  assert (Hb : forall k, 0 <= k -> Z.testbit (Z.land (Z.shiftr c k) 255) (n - k) =
            Z.testbit c n && ((k <=? n) && (n <? k + 8))).
  { intros k Hk. destruct (Z.leb_spec k n); cbn [andb].
    - rewrite land_255_bits, Z.shiftr_spec by lia. rewrite Z.sub_add. f_equal. lia.
    - rewrite testbit_neg_false, andb_false_r by lia. done. }
  rewrite !Hb by lia.
  destruct (Z.lt_trichotomy n 24) as [Hlt|[-> | Hgt]].
  - rewrite (proj2 (Z.eqb_neq 24 n)) by lia. cbn [orb].
    destruct (Z.testbit c n); cbn [andb]; [|done]. lia.
  - change (24 =? 24) with true. cbn [orb]. symmetry. rewrite Z.testbit_true by lia.
    replace (c / 2 ^ 24) with 1; [done|]. apply Z.div_unique with (c - 2 ^ 24); lia.
  - rewrite (proj2 (Z.eqb_neq 24 n)) by lia. rewrite (Z.bits_above_log2 c n); [done|lia|].
    apply Z.log2_lt_pow2; [lia|]. apply Z.lt_le_trans with (2 ^ 25); [lia|].
    apply Z.pow_le_mono_r; lia.
Qed.

Lemma pv_nonneg z : 0 <= z -> pv z = z.
Proof. intros. unfold pv. destruct (Z.ltb_spec z 1); lia. Qed.

Lemma sgr_apply_plain ps rest r :
  Forall (fun p => p <> 38 /\ p <> 48 /\ 0 <= p) ps ->
  sgr_apply (ps ++ rest) r = sgr_apply rest (fold_left (fun r p => set_rendition p r) ps r).
Proof.
  intros H. revert r. induction H as [|p ps (H1 & H2 & H3) _ IH]; intros r; [done|].
  cbn [app sgr_apply fold_left]. rewrite pv_nonneg by done.
  rewrite (proj2 (Z.eqb_neq p 38)), (proj2 (Z.eqb_neq p 48)) by done. apply IH.
Qed.

Lemma attr_params_apply a :
  wf_attributes a = true ->
  Forall (fun p => p <> 38 /\ p <> 48 /\ 0 <= p) (attr_params a) /\
  fold_left (fun r p => set_rendition p r) (attr_params a) (MkRenditions 0 0 0) = MkRenditions 0 0 a.
Proof.
  intros Ha.
  assert (Hall : forallb (fun a => negb (wf_attributes a) ||
    (forallb (fun p => negb (p =? 38) && negb (p =? 48) && (0 <=? p)) (attr_params a) &&
     bool_decide (fold_left (fun r p => set_rendition p r) (attr_params a) (MkRenditions 0 0 0)
                  = MkRenditions 0 0 a))) (seqZ 0 128) = true) by (vm_compute; reflexivity).
  pose proof (forall_range _ _ Hall a) as Hb. cbv beta in Hb.
  rewrite Ha in Hb. cbn [negb orb] in Hb.
  destruct (andb_prop _ _ (Hb ltac:(unfold wf_attributes in Ha; lia))) as [H1 H2].
  split; [|by apply bool_decide_eq_true_1 in H2].
  apply Forall_forall. intros p Hp. rewrite forallb_forall in H1.
  specialize (H1 p (proj1 (list_elem_of_In _ _) Hp)). lia.
Qed.

(** The parameters of a colour set it. *)
Lemma color_params_apply base low ansi c rest r :
  (base, low, ansi) = (38, 30, 37) \/ (base, low, ansi) = (48, 40, 47) ->
  color_ok low c ->
  sgr_apply (color_params base low ansi c ++ rest) r =
    sgr_apply rest (if c =? 0 then r else
                    if base =? 38 then r <| foreground_color := c |> else r <| background_color := c |>).
Proof.
  intros Hb Hc. unfold color_params. destruct (Z.eqb_spec c 0) as [->|Hne]; [done|].
  destruct Hc as [|[Hc|Hc]]; [done| |].
  - rewrite small_not_true_color by (destruct Hb as [[= -> -> ->]|[= -> -> ->]]; lia).
    destruct (Z.ltb_spec ansi c); destruct Hb as [[= -> -> ->]|[= -> -> ->]]; cbn [app sgr_apply].
    1-2: rewrite (pv_nonneg (c - _)) by lia; cbn; f_equal;
      unfold set_foreground_color, set_background_color;
      rewrite (proj2 (Z.leb_le 0 _)), (proj2 (Z.leb_le _ 255)) by lia; cbn [andb];
      f_equal; lia.
    1-2: rewrite pv_nonneg by lia; rewrite (proj2 (Z.eqb_neq c 38)), (proj2 (Z.eqb_neq c 48)) by lia;
      cbn; unfold set_rendition; f_equal; repeat (case_match; try lia); done.
  - rewrite true_color_range by done.
    assert (H8 : forall z, pv (Z.land z 255) = Z.land z 255).
    { intros z. apply pv_nonneg. rewrite land_255. by apply Z.mod_pos_bound. }
    assert (Hset : set_foreground_color c r = r <| foreground_color := c |> /\
                   set_background_color c r = r <| background_color := c |>).
    { unfold set_foreground_color, set_background_color.
      rewrite (proj2 (Z.leb_gt c 255)), andb_false_r, true_color_range, field25_small by lia. done. }
    destruct Hset as [Hsf Hsb].
    destruct Hb as [[= -> -> ->]|[= -> -> ->]]; cbn [app sgr_apply];
      rewrite !H8, make_true_color_components, i32_small by lia; cbn;
      unfold set_color; cbn; by rewrite ?Hsf, ?Hsb.
Qed.

Lemma sgr_params_apply r r0 : rend_wf r -> sgr_apply (sgr_params r) r0 = r.
Proof.
  intros (Hf & Hb & Ha). destruct r as [f b a]. unfold sgr_params. cbn in Hf, Hb, Ha.
  cbn [sgr_apply foreground_color background_color attributes].
  change (pv 0) with 0. cbn [orb Z.eqb].
  change (set_rendition 0 r0) with (MkRenditions 0 0 0).
  destruct (attr_params_apply a Ha) as [H1 H2]. rewrite sgr_apply_plain, H2 by done.
  rewrite color_params_apply by auto.
  rewrite <- (app_nil_r (color_params 48 _ _ _)), color_params_apply by auto. cbn [sgr_apply].
  destruct (Z.eqb_spec f 0) as [->|], (Z.eqb_spec b 0) as [->|]; done.
Qed.

Lemma csi_dispatcher_inv ps f d :
  Forall (fun c => is_param_char c = true) ps -> lenZ ps <= 100 -> is_u8 f ->
  disp_inv d -> disp_inv (csi_dispatcher ps f d).
Proof.
  intros Hps Hl Hf []. split; cbn; try done. split; [done|]. by apply Forall_singleton.
Qed.

Lemma semis_length ps :
  Forall (fun z => 0 <= z <= PARAM_MAX) ps -> (length (semis ps) <= 6 * length ps)%nat.
Proof.
  intros H. induction H as [|p ps Hp _ IH]; [cbn; lia|].
  pose proof (dec_length p 5 ltac:(cbn; unfold PARAM_MAX in *; lia) ltac:(lia)).
  change (semis (p :: ps)) with ((59 :: dec p) ++ semis ps).
  rewrite length_app. cbn [length]. lia.
Qed.

Lemma color_params_ok base low ansi c :
  (base, low, ansi) = (38, 30, 37) \/ (base, low, ansi) = (48, 40, 47) -> color_ok low c ->
  Forall (fun z => 0 <= z <= PARAM_MAX) (color_params base low ansi c) /\
  (length (color_params base low ansi c) <= 5)%nat.
Proof.
  intros Hb Hc. unfold color_params, PARAM_MAX. destruct (Z.eqb_spec c 0); [split; [done|cbn; lia]|].
  assert (H8 : forall z, 0 <= Z.land z 255 <= 65535).
  { intros z. rewrite land_255. pose proof (Z.mod_pos_bound z 256 eq_refl). lia. }
  destruct Hc as [|[Hc|Hc]]; [done| |].
  - rewrite small_not_true_color by (destruct Hb as [[= -> -> ->]|[= -> -> ->]]; lia).
    destruct Hb as [[= -> -> ->]|[= -> -> ->]]; case_match; (split; [|cbn; lia]);
      repeat (constructor; [lia|]); constructor.
  - rewrite true_color_range by done. split; [|cbn; lia].
    repeat constructor; try apply H8; destruct Hb as [[= -> -> ->]|[= -> -> ->]]; lia.
Qed.

Lemma sgr_params_ok r :
  rend_wf r -> Forall (fun z => 0 <= z <= PARAM_MAX) (sgr_params r) /\
    lenZ (join_params (sgr_params r)) <= 100.
Proof.
  intros (Hf & Hb & Ha).
  destruct (color_params_ok 38 30 37 _ ltac:(auto) Hf) as [Hf1 Hf2].
  destruct (color_params_ok 48 40 47 _ ltac:(auto) Hb) as [Hb1 Hb2].
  assert (Ha1 : Forall (fun z => 0 <= z <= PARAM_MAX) (attr_params (attributes r)) /\
                (length (attr_params (attributes r)) <= 6)%nat).
  { unfold attr_params, PARAM_MAX. repeat case_match; cbn [app length];
      (split; [repeat (constructor; [lia|]); constructor|lia]). }
  assert (Hall : Forall (fun z => 0 <= z <= PARAM_MAX)
    (attr_params (attributes r) ++ color_params 38 30 37 (foreground_color r)
     ++ color_params 48 40 47 (background_color r))).
  { rewrite !Forall_app. tauto. }
  unfold sgr_params. split; [constructor; [unfold PARAM_MAX; lia|done]|].
  rewrite join_semis. pose proof (semis_length _ Hall) as Hl. revert Hl.
  unfold lenZ. rewrite !length_app. change (length (dec 0)) with 1%nat. lia.
Qed.

Lemma param_char_ascii ps :
  Forall (fun c => is_param_char c = true) ps -> Forall (fun c => 0 <= c <= 127) ps.
Proof.
  intros H. eapply Forall_impl; [exact H|]. intros c Hc. cbv beta in Hc.
  unfold is_param_char, is_digit in Hc. lia.
Qed.

Section csi_claims.
Context `{Libc} `{!LibcLaws}.

Lemma csi_call ps f c :
  Forall (fun x => is_param_char x = true) ps -> lenZ ps <= 100 -> 0x40 <= f <= 0x7E ->
  c_parser c = MkUTF8Parser Ground [] ->
  act_octets (27 :: 91 :: ps ++ [f]) c =
    on_terminal (on_ctx (on_dispatch (modify (csi_dispatcher ps f)) ;; call CSI [f])) c.
Proof.
  intros Hps Hl Hf Hp. destruct c as [p e hist ack]. cbn in Hp. subst p.
  rewrite act_octets_ascii.
  2:{ do 2 (constructor; [lia|]). apply Forall_app. split; [by apply param_char_ascii|].
      apply Forall_singleton. lia. }
  rewrite act_csi by done. rewrite parse_csi by done. unfold on_terminal, zoom. cbn [terminal fst].
  by destruct (on_ctx _ e) as [[[] e']|].
Qed.

(** The sequence changes the renditions and the state of the dispatcher. *)
Lemma sgr_act w h r c :
  rend_wf r -> emu_inv w h (terminal c) -> c_parser c = MkUTF8Parser Ground [] ->
  exists d', act_octets (sgr r) c =
      Ok (tt, c <| terminal := (terminal c) <| ctx := MkContext (screen (with_renditions r (ctx (terminal c)))) d' |> |>) /\
    terminal_to_host d' = terminal_to_host (dispatch_ (ctx (terminal c))).
Proof.
  intros Hr [_ Hd] Hp. destruct (sgr_params_ok r Hr) as [Hok Hl].
  pose proof (join_params_chars _ Hok) as Hch.
  rewrite sgr_text, csi_call by (done || lia).
  set (d := csi_dispatcher (join_params (sgr_params r)) 109 (dispatch_ (ctx (terminal c)))).
  assert (Hd' : disp_inv d) by (apply csi_dispatcher_inv; [done..|unfold is_u8; lia|done]).
  unfold on_terminal, on_ctx, zoom. rewrite (M_bind_Ok _ _ _ tt ((ctx (terminal c)) <| dispatch_ := d |>)) by done.
  change (call CSI [109]) with (when_ false clear_wrap ;; CSI_SGR).
  rewrite (M_bind_Ok _ _ _ tt ((ctx (terminal c)) <| dispatch_ := d |>)) by done.
  rewrite CSI_SGR_eq by done. assert (Hps : parameters d = sgr_params r) by (by apply join_params_values).
  change (dispatch_ ((ctx (terminal c)) <| dispatch_ := d |>)) with d. rewrite Hps, sgr_params_apply by done.
  eexists. split; [reflexivity|]. done.
Qed.

(** C5. Renditions survive their textual form: the escape sequence that
    [Renditions::sgr] prints for any well-formed rendition (every attribute,
    palette and 24-bit colours), read by the emulator, sets exactly that
    rendition, whatever it was before, and changes nothing else on the
    screen. *)
Theorem sgr_roundtrip w h r c :
  rend_wf r -> emu_inv w h (terminal c) -> c_parser c = MkUTF8Parser Ground [] ->
  exists c', act_octets (sgr r) c = Ok (tt, c') /\ c_parser c' = c_parser c /\
    screen (ctx (terminal c')) = screen (with_renditions r (ctx (terminal c))) /\
    terminal_to_host (dispatch_ (ctx (terminal c'))) = terminal_to_host (dispatch_ (ctx (terminal c))).
Proof.
  intros Hr Hd Hp. destruct (sgr_act w h r c Hr Hd Hp) as (d' & -> & Hh). eexists. split; [reflexivity|]. done.
Qed.
End csi_claims.

Lemma sgr_roundtrip_witness :
  match Complete_new 3 2 0 with
  | Ok c => exists c', act_octets (sgr (MkRenditions 0x1ff8000 77 9)) c = Ok (tt, c') /\
      c_parser c' = c_parser c /\
      screen (ctx (terminal c')) =
        screen (with_renditions (MkRenditions 0x1ff8000 77 9) (ctx (terminal c))) /\
      terminal_to_host (dispatch_ (ctx (terminal c'))) = terminal_to_host (dispatch_ (ctx (terminal c)))
  | Err _ => False
  end.
Proof.
  destruct (Complete_new 3 2 0) as [c|] eqn:E; [|by vm_compute in E].
  apply (sgr_roundtrip 3 2).
  - split; [|split]; [right; right; cbn; lia|right; left; cbn; lia|done].
  - by apply (Complete_new_inv _ _ 0).
  - by injection E as <-.
Defined.
