(* ===== verification/CursorSpec.v ===== *)
(** * Cursor addressing, from the octets of a sequence to the cursor

    Control sequences as a program writes them, with parameters in decimal,
    left empty or left out; what the functions that move the cursor do with
    them, specified without the parser, the dispatcher or the registry. *)
From S2P Require Export TerminalSpec.

(** ** The text of a sequence *)

(** A field between semicolons: a number in decimal, or empty. *)
Definition field_text (p : option Z) : bytes :=
  match p with Some n => dec n | None => [] end.
Fixpoint fields_text (fs : list (option Z)) : bytes :=
  match fs with
  | [] => []
  | [p] => field_text p
  | p :: fs' => field_text p ++ 59 :: fields_text fs'
  end.
Definition field_ok (p : option Z) : Prop := match p with Some n => 0 <= n | None => True end.

(** The argument a sequence gives: a field that is missing, empty, zero or
    above 65535 stands for the default. *)
Definition argument (fs : list (option Z)) (k : nat) (default_value : Z) : Z :=
  match fs !! k with
  | Some (Some n) => if (1 <=? n) && (n <=? 65535) then n else default_value
  | _ => default_value
  end.

Definition field_value (p : option Z) : Z :=
  match p with Some n => if 65535 <? n then -1 else n | None => -1 end.

Lemma field_text_digits p : field_ok p -> Forall (fun c => is_digit c = true) (field_text p).
Proof.
  destruct p as [n|]; [|constructor]. intros Hn. cbn in *. unfold dec.
  rewrite (proj2 (Z.ltb_ge n 0)) by done. by apply dec_nonneg_spec.
Qed.

Lemma field_text_value p : field_ok p -> segment_value (field_text p) = field_value p.
Proof.
  destruct p as [n|]; [|done]. cbn. intros Hn. unfold dec. rewrite (proj2 (Z.ltb_ge n 0)) by done.
  destruct (dec_nonneg_spec n Hn) as (Hv & _ & Hne). unfold segment_value. case_match; [done|]. by rewrite Hv.
Qed.

Lemma fields_text_values fs :
  Forall field_ok fs ->
  segment_value <$> segments (fields_text fs) = match fs with [] => [-1] | _ => field_value <$> fs end.
Proof.
  intros H. induction H as [|p fs Hp Hfs IH]; [done|].
  pose proof (field_text_digits p Hp) as Hd. destruct fs as [|q fs]; cbn [fields_text].
  - rewrite segments_digits_only by done. cbn. by rewrite field_text_value.
  - rewrite segments_digits_app by done. rewrite !fmap_cons, field_text_value by done. f_equal. exact IH.
Qed.

Lemma fields_text_chars fs : Forall field_ok fs -> Forall (fun c => is_param_char c = true) (fields_text fs).
Proof.
  assert (Hp : forall p, field_ok p -> Forall (fun c => is_param_char c = true) (field_text p)).
  { intros p Hp. eapply Forall_impl; [by apply field_text_digits|]. intros c Hc. unfold is_param_char.
    by rewrite Hc, orb_true_r. }
  intros H. induction H as [|p fs Hpf _ IH]; [constructor|]. destruct fs as [|q fs]; cbn [fields_text]; [auto|].
  apply Forall_app. split; [auto|]. by constructor.
Qed.

(** What the dispatcher makes of the text is what the fields say. *)
Lemma argument_param fs (k : nat) dv d :
  Forall field_ok fs -> params d = fields_text fs -> param_of d (Z.of_nat k) dv = argument fs k dv.
Proof.
  intros Hf Hd. unfold param_of, parameters, argument. rewrite Hd, fields_text_values by done.
  assert (Hk : default dv (lookupZ (field_value <$> fs) (Z.of_nat k)) =
               match fs !! k with Some p => field_value p | None => dv end).
  { unfold lookupZ. rewrite decide_True, Nat2Z.id, list_lookup_fmap by lia. by destruct (fs !! k). }
  assert (Hone : forall p, (if field_value p <? 1 then dv else field_value p) =
    match p with Some n => if (1 <=? n) && (n <=? 65535) then n else dv | None => dv end).
  { intros [n|]; [|done]. cbn. destruct (Z.ltb_spec 65535 n); cbn; repeat case_match; lia. }
  destruct fs as [|p fs].
  - destruct k as [|k]; [done|]. unfold lookupZ. rewrite decide_True, Nat2Z.id by lia. cbn.
    transitivity (if dv <? 1 then dv else dv); [done|]. destruct (dv <? 1); reflexivity.
  - rewrite Hk. destruct ((p :: fs) !! k) as [q|]; [apply Hone|]. by case_match.
Qed.

(** ** Where the cursor goes *)

(** The rows the cursor may stand on. *)
Definition first_row (d : DrawState) : Z := if origin_mode d then scrolling_region_top_row d else 0.
Definition last_row (d : DrawState) : Z :=
  if origin_mode d then scrolling_region_bottom_row d else height d - 1.

(** The cursor functions, by the final character of their sequence: where they
    put the cursor before it is kept on the screen.  An absolute row counts
    from the first row the cursor may stand on. *)
Definition cursor_target (fs : list (option Z)) (f : Z) (d : DrawState) : option (Z * Z) :=
  let n := argument fs 0 1 in
  if f =? chr "A" then Some (cursor_row d - n, cursor_col d)
  else if f =? chr "B" then Some (cursor_row d + n, cursor_col d)
  else if f =? chr "C" then Some (cursor_row d, cursor_col d + n)
  else if f =? chr "D" then Some (cursor_row d, cursor_col d - n)
  else if (f =? chr "H") || (f =? chr "f") then Some (first_row d + (n - 1), argument fs 1 1 - 1)
  else if f =? chr "d" then Some (first_row d + (n - 1), cursor_col d)
  else if (f =? chr "G") || (f =? 0x60) then Some (cursor_row d, n - 1)
  else None.

Definition clamp (lo hi x : Z) : Z := Z.min hi (Z.max lo x).

(** The cursor at a position kept on the screen, no wrap pending, the next
    combining character there; everything else as before. *)
Definition cursor_at (pos : Z * Z) (d : DrawState) : DrawState :=
  let row := clamp (first_row d) (last_row d) (fst pos) in
  let col := clamp 0 (width d - 1) (snd pos) in
  d <| cursor_row := row |> <| cursor_col := col |> <| combining_char_row := row |>
    <| combining_char_col := col |> <| next_print_will_wrap := false |>.

Definition no_wrap (d : DrawState) : DrawState := d <| next_print_will_wrap := false |>.

Lemma move_row_at N (rel : bool) d :
  0 <= cursor_col d < width d ->
  move_row N rel (no_wrap d) = cursor_at ((if rel then cursor_row d else first_row d) + N, cursor_col d) d.
Proof.
  intros Hc. unfold move_row, new_grapheme, cursor_at, clamp, no_wrap. cbv zeta. rewrite snap_eq.
  unfold limit_top, limit_bottom, first_row, last_row.
  destruct rel; cbn -[Z.min Z.max Z.sub Z.add] in *; rewrite ?(Z.add_comm N);
    rewrite (Z.max_r 0 (cursor_col d)), (Z.min_r _ (cursor_col d)) by lia; by destruct d.
Qed.

Lemma move_col_at N (rel : bool) d :
  move_col N rel false (no_wrap d) = cursor_at (cursor_row d, if rel then cursor_col d + N else N) d.
Proof.
  unfold move_col, new_grapheme, cursor_at, clamp, no_wrap. cbv zeta. rewrite snap_eq.
  unfold limit_top, limit_bottom, first_row, last_row. by destruct d, rel.
Qed.

Lemma move_col_after_row N p d :
  first_row d <= last_row d ->
  move_col N false false (cursor_at p d) = cursor_at (fst p, N) d.
Proof.
  intros Hr. unfold move_col, new_grapheme, cursor_at, clamp in *. cbv zeta. rewrite snap_eq.
  unfold limit_top, limit_bottom, first_row, last_row in *. cbn -[Z.min Z.max Z.sub Z.add] in *.
  rewrite (Z.max_r _ (Z.min _ _)), (Z.min_r _ (Z.min _ _)) by lia. by destruct d.
Qed.

(** ** The functions *)

Lemma getp_arg (k : nat) dv s d fs :
  disp_inv d -> Forall field_ok fs -> params d = fields_text fs ->
  getp (Z.of_nat k) dv (MkContext s d) = Ok (argument fs k dv, MkContext s (parse_params d)).
Proof.
  intros Hd Hf Hps. unfold getp, on_dispatch, zoom. cbn [dispatch_].
  rewrite getparam_eq by done. by rewrite (argument_param fs).
Qed.

Lemma parse_params_params d : params (parse_params d) = params d.
Proof. unfold parse_params. by case_match. Qed.

Lemma parse_params_twice d : parse_params (parse_params d) = parse_params d.
Proof. unfold parse_params at 2 3. destruct (parsed d) eqn:E; unfold parse_params; [by rewrite E|done]. Qed.

Section call.
Context (w h : Z) (s : Screen) (d : Dispatcher) (fs : list (option Z)) (f : Z).
Context (Hs : scr_inv w h s) (Hd : disp_inv d) (Hf : Forall field_ok fs) (Hps : params d = fields_text fs)
  (Hch : dispatch_chars d = [f]).

(** The state once the wrap is cleared and the parameters are parsed. *)
Let cleared : Screen := put_ds (no_wrap (scr_ds s)) s.

Lemma getp_again (k : nat) dv s' :
  getp (Z.of_nat k) dv (MkContext s' (parse_params d)) = Ok (argument fs k dv, MkContext s' (parse_params d)).
Proof.
  rewrite (getp_arg k dv s' (parse_params d) fs) by (by rewrite ?parse_params_params; auto using parse_params_inv).
  by rewrite parse_params_twice.
Qed.

Lemma first_char s' : first_dispatch_char (MkContext s' (parse_params d)) = Ok (f, MkContext s' (parse_params d)).
Proof. unfold first_dispatch_char, gets. cbn. unfold parse_params. case_match; cbn; by rewrite Hch. Qed.

Lemma call_cleared fn0 :
  find_function [f] registry_CSI = Some (MkFunction fn0 true) ->
  call CSI [f] (MkContext s d) = fn0 (MkContext cleared d).
Proof. intros Hf0. unfold call. cbn [registry]. by rewrite Hf0. Qed.

(** The functions that read one argument and then move the cursor. *)
Lemma one_argument (g : Z -> DrawState -> DrawState) :
  (getp 0 1 ≫= fun n => set_ds (g n)) (MkContext cleared d) =
    Ok (tt, MkContext (put_ds (g (argument fs 0 1) (no_wrap (scr_ds s))) s) (parse_params d)).
Proof.
  rewrite (M_bind_Ok _ _ _ (argument fs 0 1) (MkContext cleared (parse_params d)))
    by (by apply (getp_arg 0%nat)). done.
Qed.

Lemma screen_set_ds_eq g s' d' : set_ds g (MkContext s' d') = Ok (tt, MkContext (put_ds (g (scr_ds s')) s') d').
Proof. done. Qed.
Lemma scr_ds_put ds' s' : scr_ds (put_ds ds' s') = ds'.
Proof. done. Qed.
Lemma put_ds_put ds1 ds2 s' : put_ds ds1 (put_ds ds2 s') = put_ds ds1 s'.
Proof. by destruct s' as [? []]. Qed.
Lemma set_ds_bind {A} g (m : M Context_ A) s' d' :
  (set_ds g ;; m) (MkContext s' d') = m (MkContext (put_ds (g (scr_ds s')) s') d').
Proof. done. Qed.

Lemma cursormove_eq :
  CSI_cursormove (MkContext cleared d) =
    (let n := argument fs 0 1 in
     if f =? chr "A" then set_ds (move_row (- n) true)
     else if f =? chr "B" then set_ds (move_row n true)
     else if f =? chr "C" then set_ds (move_col n true false)
     else if f =? chr "D" then set_ds (move_col (- n) true false)
     else if (f =? chr "H") || (f =? chr "f") then
       set_ds (fun ds => move_col (argument fs 1 1 - 1) false false (move_row (n - 1) false ds))
     else mret tt) (MkContext cleared (parse_params d)).
Proof.
  unfold CSI_cursormove.
  rewrite (M_bind_Ok _ _ _ (argument fs 0 1) (MkContext cleared (parse_params d))) by (by apply (getp_arg 0%nat)).
  rewrite (M_bind_Ok _ _ _ f (MkContext cleared (parse_params d))) by apply first_char. cbv zeta.
  do 4 (case_match; [done|]). case_match; [|done].
  etransitivity; [apply M_bind_Ok, (getp_again 0%nat)|]. rewrite set_ds_bind.
  etransitivity; [apply M_bind_Ok, (getp_again 1%nat)|].
  by rewrite !screen_set_ds_eq, !scr_ds_put, !put_ds_put.
Qed.

Lemma cursor_call pos :
  cursor_target fs f (scr_ds s) = Some pos ->
  call CSI [f] (MkContext s d) = Ok (tt, MkContext (put_ds (cursor_at pos (scr_ds s)) s) (parse_params d)).
Proof.
  destruct Hs as [Hds _]. pose proof Hds as [].
  assert (Hcol : 0 <= cursor_col (scr_ds s) < width (scr_ds s)) by (by rewrite inv_width).
  assert (Hrows : first_row (scr_ds s) <= last_row (scr_ds s)) by (unfold first_row, last_row; case_match; lia).
  assert (Hset : forall g d', set_ds g (MkContext cleared d') =
    Ok (tt, MkContext (put_ds (g (no_wrap (scr_ds s))) s) d')).
  { intros g d'. unfold cleared. by rewrite screen_set_ds_eq, scr_ds_put, put_ds_put. }
  pose proof cursormove_eq as Hm. cbv zeta in Hm. unfold cursor_target. cbv zeta. revert Hm.
  destruct (Z.eqb_spec f (chr "A")) as [Ef|_]; [|destruct (Z.eqb_spec f (chr "B")) as [Ef|_];
    [|destruct (Z.eqb_spec f (chr "C")) as [Ef|_]; [|destruct (Z.eqb_spec f (chr "D")) as [Ef|_];
    [|destruct ((f =? chr "H") || (f =? chr "f")) eqn:Ef; [|destruct (Z.eqb_spec f (chr "d")) as [Eg|_];
    [|destruct ((f =? chr "G") || (f =? 0x60)) eqn:Eg]]]]]]; intros Hm [= <-].
  1-4: rewrite (call_cleared CSI_cursormove), Hm, Hset by (by rewrite Ef);
    by rewrite ?move_row_at, ?move_col_at.
  - rewrite (call_cleared CSI_cursormove), Hm, Hset, move_row_at, move_col_after_row; [done|done|done|].
    apply orb_true_iff in Ef as [->%Z.eqb_eq| ->%Z.eqb_eq]; done.
  - rewrite (call_cleared CSI_VPA) by (by rewrite Eg).
    etransitivity; [apply (one_argument (fun row => move_row (row - 1) false))|]. by rewrite move_row_at.
  - rewrite (call_cleared CSI_HPA)
      by (apply orb_true_iff in Eg as [->%Z.eqb_eq| ->%Z.eqb_eq]; done).
    etransitivity; [apply (one_argument (fun col => move_col (col - 1) false false))|]. by rewrite move_col_at.
Qed.
End call.

Section sequence.
Context `{Libc} `{!LibcLaws}.

(** C4. Cursor addressing, from octets to the cursor: in the ground state, the
    octets [ESC \[ p;p;... f] (fields in decimal or empty, up to 100 characters
    of them; [f] the final character of a function that moves the cursor) put
    the cursor at the position the arguments name, kept on the screen, or
    within the scrolling region in origin mode.  A field that is missing,
    empty, zero or above 65535 counts as 1.  No wrap is pending afterwards;
    cells, modes, titles and what is sent to the host do not change, and the
    parser is in the ground state again. *)
Theorem csi_sequence w h fs f pos c :
  Forall field_ok fs -> lenZ (fields_text fs) <= 100 ->
  emu_inv w h (terminal c) -> c_parser c = MkUTF8Parser Ground [] ->
  cursor_target fs f (scr_ds (screen (ctx (terminal c)))) = Some pos ->
  exists d', act_octets (27 :: 91 :: fields_text fs ++ [f]) c =
      Ok (tt, c <| terminal := (terminal c) <| ctx :=
        MkContext (put_ds (cursor_at pos (scr_ds (screen (ctx (terminal c))))) (screen (ctx (terminal c)))) d' |> |>) /\
    terminal_to_host d' = terminal_to_host (dispatch_ (ctx (terminal c))).
Proof.
  intros Hf Hl [Hs Hd] Hp Ht. pose proof (fields_text_chars _ Hf) as Hch.
  assert (Hfin : 0x40 <= f <= 0x7E).
  { revert Ht. unfold cursor_target. cbv zeta.
    change (chr "A") with 65. change (chr "B") with 66. change (chr "C") with 67. change (chr "D") with 68. change (chr "H") with 72. change (chr "f") with 102. change (chr "d") with 100. change (chr "G") with 71.
    repeat case_match; try done; intros _; lia. }
  rewrite csi_call by done.
  set (d := csi_dispatcher (fields_text fs) f (dispatch_ (ctx (terminal c)))).
  assert (Hd' : disp_inv d) by (apply csi_dispatcher_inv; [done..|unfold is_u8; lia|done]).
  unfold on_terminal, on_ctx, zoom.
  rewrite (M_bind_Ok _ _ _ tt (MkContext (screen (ctx (terminal c))) d)) by done.
  rewrite (cursor_call w h _ d fs f Hs Hd' Hf eq_refl eq_refl pos Ht).
  eexists. split; [reflexivity|]. unfold parse_params. by case_match.
Qed.
End sequence.

(** Two parameters, the second beyond the right edge of a screen of 80 by 24. *)
Lemma csi_sequence_witness :
  match Complete_new 80 24 0 with
  | Ok c => exists d', act_octets (27 :: 91 :: str "12;500" ++ [72]) c =
      Ok (tt, c <| terminal := (terminal c) <| ctx :=
        MkContext (put_ds (cursor_at (11, 499) (scr_ds (screen (ctx (terminal c))))) (screen (ctx (terminal c)))) d' |> |>) /\
      terminal_to_host d' = terminal_to_host (dispatch_ (ctx (terminal c)))
  | Err _ => False
  end.
Proof.
  destruct (Complete_new 80 24 0) as [c|] eqn:E; [|by vm_compute in E].
  apply (csi_sequence 80 24 [Some 12; Some 500] 72 (11, 499)).
  - by repeat constructor.
  - by vm_compute.
  - by apply (Complete_new_inv _ _ 0).
  - by injection E as <-.
  - by injection E as <-.
Defined.

(** The reading of the fields: the column is the last one for [CSI 12;500 H],
    the row is the first for [CSI ; 7 f] and for [CSI 70000 d]. *)
Example cursor_targets :
  let d := DrawState_new 80 24 in
  (fields_text [None; Some 7], cursor_target [None; Some 7] (chr "f") d,
   cursor_target [Some 70000] (chr "d") d, cursor_target [] (chr "B") d) =
  (str ";7", Some (0, 6), Some (0, 0), Some (1, 0)).
Proof. reflexivity. Qed.
