(* ===== verification/ScreenSpec.v ===== *)
(** * What screen operations do: scrolling, resizing, printing, reporting

    Functional theorems about rows and cells, stated on the cell at a row and
    a column. *)
From S2P Require Export TerminalSpec.

(** The cell at a row and a column. *)
Definition cell_at (s : Screen) (i j : Z) : option Cell :=
  r ← lookupZ (rows (fb s)) i; lookupZ (cells r) j.

(** ** Scrolling *)

Section shifting.
Context {A : Type} (l : list A) (x : A) (from bot n : Z).
Context (Hfrom : 0 <= from) (Hn : 0 <= n) (Hle : from + n <= bot + 1) (Hbot : bot < lenZ l).

(** Erase [n] elements at [from], insert [n] at the bottom. *)
Lemma shift_up :
  exists l1 l2, erase_range from n l = Ok l1 /\ insert_range (bot + 1 - n) n x l1 = Ok l2 /\
    forall i, lookupZ l2 i =
      if (from <=? i) && (i <=? bot)
      then if i + n <=? bot then lookupZ l (i + n) else Some x
      else lookupZ l i.
Proof.
  unfold erase_range. rewrite decide_True by lia. eexists _, _. split; [done|].
  set (l1 := take (Z.to_nat from) l ++ drop (Z.to_nat (from + n)) l).
  assert (Hl1 : lenZ l1 = lenZ l - n).
  { unfold l1. rewrite lenZ_app, lenZ_take, lenZ_drop by lia. lia. }
  assert (H1 : forall i, 0 <= i -> lookupZ l1 i = lookupZ l (if i <? from then i else i + n)).
  { intros i Hi. unfold l1. destruct (Z.ltb_spec i from).
    - rewrite lookupZ_app_l by (rewrite lenZ_take; lia). apply lookupZ_take. lia.
    - rewrite lookupZ_app_r by (rewrite lenZ_take; lia). rewrite lenZ_take by lia.
      rewrite lookupZ_drop by lia. f_equal. lia. }
  unfold insert_range. rewrite decide_True by lia. split; [done|]. intros i. fold l1.
  destruct (Z.ltb_spec i 0) as [Hneg|Hpos].
  { rewrite (proj2 (Z.leb_gt from i)) by lia. cbn [andb]. unfold lookupZ.
    by rewrite !decide_False by lia. }
  destruct (Z.ltb_spec i (bot + 1 - n)).
  { rewrite lookupZ_app_l by (rewrite lenZ_take; lia). rewrite lookupZ_take, H1 by lia.
    destruct (Z.ltb_spec i from), (Z.leb_spec from i), (Z.leb_spec i bot), (Z.leb_spec (i + n) bot);
      cbn [andb]; done || lia. }
  rewrite lookupZ_app_r by (rewrite lenZ_take; lia). rewrite lenZ_take by lia.
  destruct (Z.ltb_spec i (bot + 1)).
  { rewrite lookupZ_app_l by (rewrite lenZ_replicate; lia). rewrite lookupZ_replicate by lia.
    rewrite (proj2 (Z.leb_le from i)), (proj2 (Z.leb_le i bot)), (proj2 (Z.leb_gt (i + n) bot)) by lia.
    done. }
  rewrite lookupZ_app_r by (rewrite lenZ_replicate; lia). rewrite lenZ_replicate by lia.
  rewrite lookupZ_drop, H1 by lia. rewrite (proj2 (Z.leb_gt i bot)), andb_false_r by lia.
  rewrite (proj2 (Z.ltb_ge _ from)) by lia. f_equal. lia.
Qed.

(** Erase [n] elements at the bottom, insert [n] at [from]. *)
Lemma shift_down :
  exists l1 l2, erase_range (bot + 1 - n) n l = Ok l1 /\ insert_range from n x l1 = Ok l2 /\
    forall i, lookupZ l2 i =
      if (from <=? i) && (i <=? bot)
      then if from <=? i - n then lookupZ l (i - n) else Some x
      else lookupZ l i.
Proof.
  unfold erase_range. rewrite decide_True by lia. eexists _, _. split; [done|].
  set (l1 := take (Z.to_nat (bot + 1 - n)) l ++ drop (Z.to_nat (bot + 1 - n + n)) l).
  assert (Hl1 : lenZ l1 = lenZ l - n).
  { unfold l1. rewrite lenZ_app, lenZ_take, lenZ_drop by lia. lia. }
  assert (H1 : forall i, 0 <= i -> lookupZ l1 i = lookupZ l (if i <? bot + 1 - n then i else i + n)).
  { intros i Hi. unfold l1. destruct (Z.ltb_spec i (bot + 1 - n)).
    - rewrite lookupZ_app_l by (rewrite lenZ_take; lia). apply lookupZ_take. lia.
    - rewrite lookupZ_app_r by (rewrite lenZ_take; lia). rewrite lenZ_take by lia.
      rewrite lookupZ_drop by lia. f_equal. lia. }
  unfold insert_range. rewrite decide_True by lia. split; [done|]. intros i. fold l1.
  destruct (Z.ltb_spec i 0) as [Hneg|Hpos].
  { rewrite (proj2 (Z.leb_gt from i)) by lia. cbn [andb]. unfold lookupZ.
    by rewrite !decide_False by lia. }
  destruct (Z.ltb_spec i from).
  { rewrite lookupZ_app_l by (rewrite lenZ_take; lia). rewrite lookupZ_take, H1 by lia.
    rewrite (proj2 (Z.leb_gt from i)), (proj2 (Z.ltb_lt i _)) by lia. done. }
  rewrite lookupZ_app_r by (rewrite lenZ_take; lia). rewrite lenZ_take by lia.
  rewrite (proj2 (Z.leb_le from i)) by lia. cbn [andb].
  destruct (Z.ltb_spec i (from + n)).
  { rewrite lookupZ_app_l by (rewrite lenZ_replicate; lia). rewrite lookupZ_replicate by lia.
    rewrite (proj2 (Z.leb_le i bot)), (proj2 (Z.leb_gt from (i - n))) by lia. done. }
  rewrite lookupZ_app_r by (rewrite lenZ_replicate; lia). rewrite lenZ_replicate by lia.
  rewrite lookupZ_drop, H1 by lia. rewrite (proj2 (Z.leb_le from (i - n))) by lia.
  destruct (Z.leb_spec i bot), (Z.ltb_spec (from + (i - from - n)) (bot + 1 - n)); try lia; f_equal; lia.
Qed.
End shifting.

(** The row that scrolling brings in. *)
Definition blank_row (s : Screen) : Row :=
  Row_new (width (scr_ds s)) (get_background_rendition (scr_ds s)) (gen_counter s).

(** [row_after N s i]: where row [i] of the screen comes from after [scroll N]. *)
Definition row_after (N : Z) (s : Screen) (i : Z) : option Row :=
  let top := scrolling_region_top_row (scr_ds s) in
  let bot := scrolling_region_bottom_row (scr_ds s) in
  if (top <=? i) && (i <=? bot)
  then if (top <=? i + N) && (i + N <=? bot) then lookupZ (rows (fb s)) (i + N)
       else Some (blank_row s)
  else lookupZ (rows (fb s)) i.

Definition next_gen (s : Screen) : Screen := s <| gen_counter := u64 (gen_counter s + 1) |>.

Lemma newrow_eq s : newrow s = Ok (blank_row s, next_gen s).
Proof. done. Qed.

Lemma scroll_0 s : scroll 0 s = Ok (tt, s).
Proof.
  unfold scroll, delete_line, mbind, M_bind, gets. cbn [Z.leb Z.compare].
  repeat case_match; try done; lia.
Qed.

Lemma scroll_eq w h N s :
  scr_inv w h s -> N <> 0 ->
  exists rs, scroll N s = Ok (tt, put_rows rs (next_gen s)) /\
    forall i, lookupZ rs i = row_after N s i.
Proof.
  intros [Hd [Hl Hf]] HN. pose proof Hd as [].
  unfold scroll. rewrite (M_bind_Ok _ _ s (scr_ds s) s) by done.
  set (top := scrolling_region_top_row (scr_ds s)) in *.
  set (bot := scrolling_region_bottom_row (scr_ds s)) in *.
  destruct (Z.leb_spec 0 N) as [Hpos|Hneg].
  - unfold delete_line. rewrite (M_bind_Ok _ _ s (scr_ds s) s) by done. fold top bot.
    rewrite (proj2 (Z.ltb_ge top top)), (proj2 (Z.ltb_ge bot top)) by lia. cbn [orb]. cbv zeta.
    set (n := if N <? bot + 1 - top then N else bot + 1 - top).
    assert (Hn : n = Z.min N (bot + 1 - top)) by (unfold n; case_match; lia).
    rewrite (proj2 (Z.eqb_neq n 0)) by lia.
    destruct (shift_up (rows (fb s)) (blank_row s) top bot n) as (l1 & l2 & E1 & E2 & Hlk); [lia..|].
    exists l2. split.
    + unfold mbind, M_bind, gets, lift, modify. rewrite E1, newrow_eq, E2. done.
    + intros i. rewrite Hlk. unfold row_after. fold top bot.
      destruct ((top <=? i) && (i <=? bot)) eqn:Ei; [|done].
      destruct (Z.leb_spec (i + n) bot), (Z.leb_spec top (i + N)), (Z.leb_spec (i + N) bot);
        cbn [andb]; try lia; try done. f_equal. lia.
  - unfold insert_line. rewrite (M_bind_Ok _ _ s (scr_ds s) s) by done. fold top bot.
    rewrite (proj2 (Z.ltb_ge top top)), (proj2 (Z.ltb_ge (bot + 1) top)) by lia. cbn [orb]. cbv zeta.
    set (n := if - N <? bot + 1 - top then - N else bot + 1 - top).
    assert (Hn : n = Z.min (- N) (bot + 1 - top)) by (unfold n; case_match; lia).
    rewrite (proj2 (Z.eqb_neq n 0)) by lia.
    destruct (shift_down (rows (fb s)) (blank_row s) top bot n) as (l1 & l2 & E1 & E2 & Hlk); [lia..|].
    exists l2. split.
    + unfold mbind, M_bind, gets, lift, modify. rewrite E1, newrow_eq, E2. done.
    + intros i. rewrite Hlk. unfold row_after. fold top bot.
      destruct ((top <=? i) && (i <=? bot)) eqn:Ei; [|done].
      destruct (Z.leb_spec top (i - n)), (Z.leb_spec top (i + N)), (Z.leb_spec (i + N) bot);
        cbn [andb]; try lia; try done. f_equal. lia.
Qed.

(** C6. Scrolling: [Framebuffer::scroll( N )] moves the rows of the scrolling
    region up by [N] (down by [-N] when negative, any amount), fills the rows
    that come in with the current background, leaves the rows outside the
    region alone, and changes nothing but rows. *)
Theorem scroll_spec w h N s :
  scr_inv w h s ->
  exists s', scroll N s = Ok (tt, s') /\ scr_inv w h s' /\
    (forall i, lookupZ (rows (fb s')) i = row_after N s i) /\
    fb s' = (fb s) <| rows := rows (fb s') |>.
Proof.
  intros Hs. assert (Hsafe := scroll_safe w h N s Hs). destruct Hsafe as ([] & s' & E & Hs').
  exists s'. split; [done|]. split; [done|]. destruct (Z.eq_dec N 0) as [->|HN].
  - rewrite scroll_0 in E. injection E as <-. split; [|by destruct s as [? []]].
    intros i. unfold row_after. rewrite Z.add_0_r. by destruct ((_ <=? i) && (i <=? _)).
  - destruct (scroll_eq w h N s Hs HN) as (rs & E' & Hrs). rewrite E' in E. injection E as <-.
    split; [exact Hrs|done].
Qed.

(** A screen in the middle of a session: 3 columns, 4 rows with generations 1
    to 4, margins at rows 1 and 2. *)
Definition sample_screen : Screen :=
  MkScreen 5 (MkFramebuffer (Row_new 3 0 <$> [1; 2; 3; 4]) [] [] [] 0 false
    (set_scrolling_region 1 2 (DrawState_new 3 4))).

Lemma sample_screen_inv : scr_inv 3 4 sample_screen.
Proof.
  split.
  - apply set_scrolling_region_inv; [lia|]. apply DrawState_new_inv; lia.
  - split; [done|]. repeat (constructor; [apply Row_new_wf; [lia|by left]|]). constructor.
Qed.

Lemma scroll_spec_witness :
  exists s', scroll 1 sample_screen = Ok (tt, s') /\ scr_inv 3 4 s' /\
    (forall i, lookupZ (rows (fb s')) i = row_after 1 sample_screen i) /\
    fb s' = (fb sample_screen) <| rows := rows (fb s') |>.
Proof. apply scroll_spec, sample_screen_inv. Defined.

(** ** Resizing *)

Lemma lookupZ_fmap {A B} (f : A -> B) l i : lookupZ (f <$> l) i = f <$> lookupZ l i.
Proof. unfold lookupZ. case_decide; [apply list_lookup_fmap|done]. Qed.

Lemma lookupZ_None {A} (l : list A) i : lenZ l <= i -> lookupZ l i = None.
Proof. unfold lookupZ, lenZ. intros. case_decide; [|done]. apply lookup_ge_None. lia. Qed.

Lemma lookupZ_resize {A} n (x : A) l i :
  0 <= i < n -> lookupZ (list.resize (Z.to_nat n) x l) i =
    if i <? lenZ l then lookupZ l i else Some x.
Proof.
  intros Hi. rewrite resize_spec. destruct (Z.ltb_spec i (lenZ l)) as [Hlt|Hge].
  - rewrite lookupZ_app_l; [apply lookupZ_take; lia|].
    unfold lenZ in *. rewrite length_take. lia.
  - unfold lenZ in Hge. rewrite take_ge by lia. rewrite lookupZ_app_r by (unfold lenZ; lia).
    unfold lookupZ, lenZ. rewrite decide_True by lia. apply lookup_replicate_2. lia.
Qed.

(** A cell of a row that changed width: the last one loses its wrap flag. *)
Lemma lookupZ_unwrapped (l : list Cell) j :
  lookupZ (take (length l - 1) l ++ ((fun c => c <| wrap := false |>) <$> option_list (last l))) j =
    (fun c => if j =? lenZ l - 1 then c <| wrap := false |> else c) <$> lookupZ l j.
Proof.
  destruct (decide (l = [])) as [->|Hne]; [unfold lookupZ; by case_decide|].
  destruct (exists_last Hne) as (l' & c & ->). rewrite last_snoc, length_app, Nat.add_sub, take_app_length.
  change ((fun c0 => c0 <| wrap := false |>) <$> option_list (Some c)) with [c <| wrap := false |>].
  rewrite lenZ_app. change (lenZ [c]) with 1.
  destruct (Z.eqb_spec j (lenZ l' + 1 - 1)) as [Hj|Hj].
  - rewrite !lookupZ_app_r by lia. replace (j - lenZ l') with 0 by lia. done.
  - destruct (Z.ltb_spec j (lenZ l')).
    + rewrite !lookupZ_app_l by done. by destruct (lookupZ l' j).
    + assert (forall x : Cell, lenZ (l' ++ [x]) = lenZ l' + 1) by (intros; apply lenZ_app).
      rewrite !lookupZ_None by (rewrite ?H0; lia). done.
Qed.

(** The cell at a position after [resize]: what was there, or a blank one.
    When the width changes, the old last column loses its wrap flag. *)
Definition cell_after_resize (w h w' h' : Z) (s : Screen) (i j : Z) : option Cell :=
  let bg := get_background_rendition (scr_ds s) in
  if (i <? h) && (j <? w)
  then (fun c => if negb (w =? w') && (j =? w - 1) then c <| wrap := false |> else c) <$> cell_at s i j
  else Some (Cell_new bg).

(** C7. Resizing keeps what fits: [Framebuffer::resize] to any positive size
    yields a well-formed screen of that size on which every position shared
    with the old screen shows the same cell (up to the wrap flag of the old
    last column), every other position is a blank cell, and the cursor is
    where it was or at the nearest border. *)
Theorem resize_spec_cells w h w' h' s :
  scr_inv w h s -> 0 < w' -> 0 < h' ->
  exists s', fb_resize w' h' s = Ok (tt, s') /\ scr_inv w' h' s' /\
    (forall i j, 0 <= i < h' -> 0 <= j < w' -> cell_at s' i j = cell_after_resize w h w' h' s i j) /\
    cursor_col (scr_ds s') = Z.min (w' - 1) (cursor_col (scr_ds s)) /\
    ((w, h) <> (w', h') -> cursor_row (scr_ds s') = Z.min (h' - 1) (cursor_row (scr_ds s))).
Proof.
  intros Hs Hw' Hh'. destruct (fb_resize_safe w h w' h' Hw' Hh' s Hs) as ([] & s' & E & Hs').
  exists s'. split; [done|]. split; [done|]. rewrite (fb_resize_eq w h) in E by done.
  injection E as <-. destruct Hs as [Hd [Hl Hf]]. split.
  - intros i j Hi Hj. unfold cell_at. cbn [fb rows set_field]. unfold resized_rows, cell_after_resize.
    assert (Hbg : get_background_rendition (DrawState_resize w' h' (scr_ds s)) =
                  get_background_rendition (scr_ds s)) by apply DrawState_resize_renditions.
    rewrite Hbg. destruct (Z.ltb_spec i h) as [Hih|Hih]; cbn [andb].
    + destruct (lookupZ_lt (rows (fb s)) i) as [r Er]; [lia|].
      rewrite lookupZ_app_l by (unfold lenZ in *; rewrite length_fmap, length_take; lia).
      rewrite lookupZ_fmap, lookupZ_take, Er by lia. unfold cell_at. rewrite Er. cbn [fmap option_fmap option_map mbind option_bind].
      pose proof (lookupZ_Forall _ _ _ _ Hf Er) as Hrw. pose proof Hrw as [Hrl _].
      destruct (Z.eqb_spec w w') as [<-|Hww]; cbn [negb andb].
      * rewrite (proj2 (Z.ltb_lt j w)) by lia. by destruct (lookupZ (cells r) j).
      * unfold resized_row. cbn [cells set_field].
        rewrite lookupZ_resize by lia. rewrite lookupZ_unwrapped.
        replace (lenZ (take (length (cells r) - 1) (cells r) ++ _)) with w.
        2:{ destruct (Row_set_wrap_ok w false r) as [_ [Hx _]]; [destruct Hd; lia|done|].
            symmetry. exact Hx. }
        rewrite Hrl. done.
    + unfold lenZ in Hl.
      rewrite lookupZ_app_r by (unfold lenZ; rewrite length_fmap, length_take; lia).
      unfold lenZ. rewrite length_fmap, length_take. rewrite lookupZ_replicate by lia.
      cbn [mbind option_bind Row_new cells]. apply lookupZ_replicate. lia.
  - change (scr_ds (MkScreen _ _)) with (DrawState_resize w' h' (scr_ds s)).
    by apply DrawState_resize_cursor.
Qed.

Lemma resize_spec_cells_witness :
  exists s', fb_resize 2 5 sample_screen = Ok (tt, s') /\ scr_inv 2 5 s' /\
    (forall i j, 0 <= i < 5 -> 0 <= j < 2 ->
       cell_at s' i j = cell_after_resize 3 4 2 5 sample_screen i j) /\
    cursor_col (scr_ds s') = Z.min (2 - 1) (cursor_col (scr_ds sample_screen)) /\
    ((3, 4) <> (2, 5) -> cursor_row (scr_ds s') = Z.min (5 - 1) (cursor_row (scr_ds sample_screen))).
Proof. apply resize_spec_cells; [apply sample_screen_inv|lia|lia]. Defined.

(** ** Cursor addressing and its report *)

Lemma act_octets_app `{Libc} s1 s2 c : act_octets (s1 ++ s2) c = (act_octets s1 ;; act_octets s2) c.
Proof.
  revert c. induction s1 as [|x s1 IH]; intros c; [done|]. cbn [act_octets app].
  unfold mbind, M_bind in *. destruct (on_parser _ c) as [[acts c1]|]; [|done].
  destruct (on_terminal _ c1) as [[[] c2]|]; [apply IH|done].
Qed.

Lemma getp_first N dv c :
  disp_inv (dispatch_ c) ->
  getp N dv c = Ok (param_of (dispatch_ c) N dv, c <| dispatch_ := parse_params (dispatch_ c) |>).
Proof. intros Hd. unfold getp, on_dispatch, zoom. by rewrite getparam_eq. Qed.

Lemma set_ds_eq f c :
  set_ds f c = Ok (tt, c <| screen := put_ds (f (scr_ds (screen c))) (screen c) |>).
Proof. done. Qed.

(** The draw state after an absolute cursor move. *)
Definition cursor_moved (row col : Z) (d : DrawState) : DrawState :=
  move_col col false false (move_row row false d).

Lemma cursor_moved_pos w h row col d :
  ds_inv w h d -> origin_mode d = false -> 0 <= row < h -> 0 <= col < w ->
  cursor_row (cursor_moved row col d) = row /\ cursor_col (cursor_moved row col d) = col.
Proof.
  intros [] Ho Hr Hc. unfold cursor_moved, move_col, move_row, new_grapheme.
  rewrite !snap_eq. unfold limit_top, limit_bottom. cbn -[Z.min Z.max Z.add Z.sub].
  rewrite Ho. cbn -[Z.min Z.max Z.add Z.sub]. rewrite ?Ho. lia.
Qed.

Definition put_screen_ds (d : DrawState) (c : Context_) : Context_ :=
  c <| screen := put_ds d (screen c) |>.

(** [CSI_cursormove] on [row;col] with final character H. *)
Lemma CUP_eq row col c :
  disp_inv (dispatch_ c) -> parameters (dispatch_ c) = [row; col] ->
  dispatch_chars (dispatch_ c) = [72] -> 1 <= row -> 1 <= col ->
  exists d', call CSI [72] c =
    Ok (tt, MkContext (put_ds (cursor_moved (row - 1) (col - 1)
                ((scr_ds (screen c)) <| next_print_will_wrap := false |>)) (screen c)) d') /\
    disp_inv d' /\ terminal_to_host d' = terminal_to_host (dispatch_ c).
Proof.
  intros Hd Hps Hch Hr Hc. destruct (parse_params_spec _ Hd) as [H1 H2].
  exists (parse_params (dispatch_ c)). split.
  2:{ split; [by apply parse_params_inv|]. unfold parse_params. by case_match. }
  change (call CSI [72]) with (when_ true clear_wrap ;; CSI_cursormove).
  set (d0 := (scr_ds (screen c)) <| next_print_will_wrap := false |>).
  rewrite (M_bind_Ok _ _ _ tt (put_screen_ds d0 c)) by done.
  set (c1 := (put_screen_ds d0 c) <| dispatch_ := parse_params (dispatch_ c) |>).
  assert (Hready : forall d, ready [row; col] (put_screen_ds d c1)).
  { intros d. split; [done|]. change (parsed_params (parse_params (dispatch_ c)) = [row; col]).
    by rewrite H2. }
  unfold CSI_cursormove.
  rewrite (M_bind_Ok _ _ _ _ c1 (getp_first 0 1 (put_screen_ds d0 c) Hd)).
  rewrite (M_bind_Ok _ _ _ 72 c1).
  2:{ unfold first_dispatch_char, gets. do 2 f_equal.
      change (hd 0 (dispatch_chars (parse_params (dispatch_ c))) = 72).
      unfold parse_params. case_match; cbn; by rewrite Hch. }
  change (72 =? chr "A") with false. change (72 =? chr "B") with false.
  change (72 =? chr "C") with false. change (72 =? chr "D") with false.
  change ((72 =? chr "H") || (72 =? chr "f")) with true. cbv iota.
  rewrite (M_bind_Ok _ _ _ row c1).
  2:{ rewrite (getp_ready _ _ _ _ (Hready d0)).
      change (default 1 (lookupZ [row; col] 0)) with row. cbv zeta. by rewrite (proj2 (Z.ltb_ge row 1)) by lia. }
  rewrite (M_bind_Ok _ _ _ tt (put_screen_ds (move_row (row - 1) false d0) c1)) by done.
  rewrite (M_bind_Ok _ _ _ col (put_screen_ds (move_row (row - 1) false d0) c1)).
  2:{ rewrite (getp_ready _ _ _ _ (Hready _)).
      change (default 1 (lookupZ [row; col] 1)) with col. cbv zeta. by rewrite (proj2 (Z.ltb_ge col 1)) by lia. }
  rewrite set_ds_eq. done.
Qed.

(** [CSI_DSR] with parameter 6. *)
Lemma DSR_eq w h c :
  disp_inv (dispatch_ c) -> parameters (dispatch_ c) = [6] -> ds_inv w h (scr_ds (screen c)) ->
  w <= PARAM_MAX -> h <= PARAM_MAX ->
  exists c', call CSI [110] c = Ok (tt, c') /\
    screen c' = put_ds ((scr_ds (screen c)) <| next_print_will_wrap := false |>) (screen c) /\
    terminal_to_host (dispatch_ c') = terminal_to_host (dispatch_ c) ++
      27 :: 91 :: join_params [cursor_row (scr_ds (screen c)) + 1; cursor_col (scr_ds (screen c)) + 1] ++ [82].
Proof.
  intros Hd Hps [] Hw Hh.
  change (call CSI [110]) with (when_ true clear_wrap ;; CSI_DSR).
  rewrite (M_bind_Ok _ _ _ tt (put_screen_ds ((scr_ds (screen c)) <| next_print_will_wrap := false |>) c)) by done.
  unfold CSI_DSR.
  rewrite (M_bind_Ok _ _ _ _ _ (getp_first 0 0 (put_screen_ds _ c) Hd)).
  change (param_of (dispatch_ (put_screen_ds _ c)) 0 0) with (param_of (dispatch_ c) 0 0).
  unfold param_of. rewrite Hps. change (default 0 (lookupZ [6] 0)) with 6. cbv zeta.
  change (6 <? 1) with false. cbv iota. change (6 =? 5) with false. change (6 =? 6) with true. cbv iota.
  rewrite (M_bind_Ok _ _ _ ((scr_ds (screen c)) <| next_print_will_wrap := false |>) _ eq_refl).
  eexists. split; [done|]. split; [done|].
  cbn [dispatch_ terminal_to_host append_to_host set_field cursor_row cursor_col].
  f_equal; [unfold parse_params; by case_match|].
  unfold snprintf. rewrite take_ge; [by cbn [join_params str app]; rewrite <- app_assoc|].
  pose proof (dec_length (cursor_row (scr_ds (screen c)) + 1) 5 ltac:(cbn; unfold PARAM_MAX in *; lia) ltac:(lia)).
  pose proof (dec_length (cursor_col (scr_ds (screen c)) + 1) 5 ltac:(cbn; unfold PARAM_MAX in *; lia) ltac:(lia)).
  repeat (cbn [length str app]; rewrite ?length_app). lia.
Qed.

Lemma csi_run `{Libc} `{!LibcLaws} ps f c k :
  ps <> [] -> Forall (fun z => 0 <= z <= PARAM_MAX) ps -> lenZ (join_params ps) <= 100 ->
  0x40 <= f <= 0x7E -> c_parser c = MkUTF8Parser Ground [] -> disp_inv (dispatch_ (ctx (terminal c))) ->
  let d := csi_dispatcher (join_params ps) f (dispatch_ (ctx (terminal c))) in
  disp_inv d /\ parameters d = ps /\
  (call CSI [f] (MkContext (screen (ctx (terminal c))) d) = Ok (tt, k) ->
   act_octets (27 :: 91 :: join_params ps ++ [f]) c =
     Ok (tt, c <| terminal := (terminal c) <| ctx := k |> |>)).
Proof.
  intros Hne Hps Hl Hf Hp Hd d. pose proof (join_params_chars _ Hps) as Hch.
  assert (Hd' : disp_inv d) by (apply csi_dispatcher_inv; [done..|unfold is_u8; lia|done]).
  split; [done|]. split; [by apply join_params_values|]. intros E.
  rewrite csi_call by done. unfold on_terminal, on_ctx, zoom.
  rewrite (M_bind_Ok _ _ _ tt (MkContext (screen (ctx (terminal c))) d)) by done.
  by rewrite E.
Qed.

Lemma join_pair_length a b :
  0 <= a <= PARAM_MAX -> 0 <= b <= PARAM_MAX -> lenZ (join_params [a; b]) <= 100.
Proof.
  intros Ha Hb. unfold PARAM_MAX in *.
  pose proof (dec_length a 5 ltac:(cbn; lia) ltac:(lia)).
  pose proof (dec_length b 5 ltac:(cbn; lia) ltac:(lia)).
  unfold lenZ. cbn [join_params]. rewrite length_app. cbn [length]. lia.
Qed.

Lemma put_flag_cursor s :
  cursor_row (scr_ds (put_ds ((scr_ds s) <| next_print_will_wrap := false |>) s)) = cursor_row (scr_ds s) /\
  cursor_col (scr_ds (put_ds ((scr_ds s) <| next_print_will_wrap := false |>) s)) = cursor_col (scr_ds s).
Proof. done. Qed.

Section report.
Context `{Libc} `{!LibcLaws}.

(** Cursor addressing and its report agree: on a terminal of any size, a
    host that sends [CSI row;col H] and then asks with [CSI 6 n] gets
    [CSI row;col R] back as the whole reply, and the cursor is at that
    position (with origin mode off). *)
Theorem cursor_report w h row col c :
  complete_inv w h c -> c_parser c = MkUTF8Parser Ground [] ->
  origin_mode (scr_ds (screen (ctx (terminal c)))) = false ->
  terminal_to_host (dispatch_ (ctx (terminal c))) = [] ->
  w <= PARAM_MAX -> h <= PARAM_MAX -> 1 <= row <= h -> 1 <= col <= w ->
  exists c', act ((27 :: 91 :: join_params [row; col] ++ [72])
                  ++ 27 :: 91 :: join_params [6] ++ [110]) c =
      Ok (27 :: 91 :: join_params [row; col] ++ [82], c') /\
    cursor_row (scr_ds (screen (ctx (terminal c')))) = row - 1 /\
    cursor_col (scr_ds (screen (ctx (terminal c')))) = col - 1.
Proof.
  intros [_ [[Hds Hrows] Hd]] Hp Ho Hh Hw Hhh Hr Hc.
  set (s := screen (ctx (terminal c))) in *.
  destruct (csi_run [row; col] 72 c (MkContext s (dispatch_ (ctx (terminal c))))) as (Hd1 & Hps1 & _);
    [done|repeat constructor; lia|apply join_pair_length; lia|lia|done|done|].
  destruct (CUP_eq row col (MkContext s (csi_dispatcher (join_params [row; col]) 72 (dispatch_ (ctx (terminal c))))))
    as (d1 & E1 & Hdi1 & Ht1); [done|done|done|lia|lia|]. cbn [screen dispatch_] in E1, Ht1.
  eapply csi_run in E1; [|done|repeat constructor; lia|apply join_pair_length; lia|lia|done|done].
  set (ds1 := cursor_moved _ _ _) in E1.
  assert (Hds1 : ds_inv w h ds1) by (apply move_col_inv, move_row_inv, set_flag_inv, Hds).
  destruct (cursor_moved_pos w h (row - 1) (col - 1)
    ((scr_ds s) <| next_print_will_wrap := false |>)) as [Hrow Hcol];
    [by apply set_flag_inv|done|lia|lia|].
  match type of E1 with _ = Ok (_, ?x) => set (c1 := x) in * end.
  destruct (csi_run [6] 110 c1 (ctx (terminal c))) as (Hd2 & Hps2 & _);
    [done|repeat constructor; unfold PARAM_MAX; lia|unfold lenZ; cbn; lia|lia|done|done|].
  destruct (DSR_eq w h (MkContext (screen (ctx (terminal c1)))
    (csi_dispatcher (join_params [6]) 110 (dispatch_ (ctx (terminal c1)))))) as (k2 & E2 & Hs2 & Ht2);
    [done..|].
  eapply csi_run in E2; [|done|repeat constructor; unfold PARAM_MAX; lia|unfold lenZ; cbn; lia|lia|done|done].
  assert (Hpos : cursor_row (scr_ds (screen (ctx (terminal c1)))) = row - 1 /\
                 cursor_col (scr_ds (screen (ctx (terminal c1)))) = col - 1) by done.
  destruct Hpos as [Hr1 Hc1]. cbn [screen dispatch_] in Ht2. rewrite Hr1, Hc1, !Z.sub_add in Ht2.
  assert (Hk : cursor_row (scr_ds (screen k2)) = row - 1 /\ cursor_col (scr_ds (screen k2)) = col - 1).
  { cbn [screen] in Hs2. rewrite Hs2. destruct (put_flag_cursor (screen (ctx (terminal c1)))) as [-> ->].
    by split. }
  clear Hs2 Hrow Hcol. eexists. split.
  - unfold act. rewrite (M_bind_Ok _ _ _ tt (c1 <| terminal := (terminal c1) <| ctx := k2 |> |>)).
    2:{ by rewrite act_octets_app, (M_bind_Ok _ _ _ _ _ E1). }
    unfold on_terminal, zoom, read_octets_to_host, mbind, M_bind, gets. cbn [terminal ctx set_field].
    rewrite Ht2. change (terminal_to_host (csi_dispatcher _ _ _)) with (terminal_to_host d1) at 1.
    rewrite Ht1. change (terminal_to_host (csi_dispatcher _ _ ?d)) with (terminal_to_host d).
    by rewrite Hh.
  - exact Hk.
Qed.
End report.

Lemma cursor_report_witness :
  match Complete_new 80 24 0 with
  | Ok c => exists c', act ((27 :: 91 :: join_params [24; 80] ++ [72])
                ++ 27 :: 91 :: join_params [6] ++ [110]) c =
        Ok (27 :: 91 :: join_params [24; 80] ++ [82], c') /\
      cursor_row (scr_ds (screen (ctx (terminal c')))) = 24 - 1 /\
      cursor_col (scr_ds (screen (ctx (terminal c')))) = 80 - 1
  | Err _ => False
  end.
Proof.
  destruct (Complete_new 80 24 0) as [c|] eqn:E; [|by vm_compute in E].
  apply (cursor_report 80 24); try (unfold PARAM_MAX; lia).
  - by apply (Complete_new_inv _ _ 0).
  - by injection E as <-.
  - by injection E as <-.
  - by injection E as <-.
Defined.

(** ** Printing text *)

Definition printable (c : Z) : Prop := 0x20 <= c <= 0x7E.

(** The cell a narrow character leaves behind. *)
Definition text_cell (d : DrawState) (c : Z) : Cell :=
  MkCell [c] (ds_renditions d) (ds_hyperlink d) false false false.

(** One character into the cell at the cursor. *)
Definition put_char (c : Z) (s : Screen) : Screen :=
  let d := scr_ds s in
  put_ds (move_col 1 true true d)
    (put_rows (updateZ (rows (fb s)) (cursor_row d)
       (match lookupZ (rows (fb s)) (cursor_row d) with
        | Some r => r <| cells := updateZ (cells r) (cursor_col d) (text_cell d c) |>
        | None => Row_new 0 0 0
        end)) s).

Definition plain_mode (d : DrawState) : Prop :=
  insert_mode d = false /\ next_print_will_wrap d = false.

Lemma get_cell_ok w h row col s :
  scr_inv w h s -> row_index h row -> col_index w col ->
  exists x, get_cell row col s = Ok (x, s).
Proof.
  intros Hs Hr Hc. unfold get_cell, get_row. pose proof Hs as [_ Hrs].
  destruct (rows_at_ok w h (rows (fb s)) (resolve_row row s) Hrs) as (r & Er & [Hl _]);
    [by apply (resolve_row_ok w h)|].
  pose proof (resolve_col_ok w h col s Hc Hs).
  destruct (at_ok (cells r) (resolve_col col s)) as (x & Ex & _); [lia|].
  exists x. unfold mbind, M_bind, gets, lift. by rewrite Er, Ex.
Qed.

Lemma with_cell_cursor w h f x' s :
  scr_inv w h s -> (forall x, f x = Ok x') ->
  with_cell (-1) (-1) f s =
    Ok (tt, put_rows (updateZ (rows (fb s)) (cursor_row (scr_ds s))
       (match lookupZ (rows (fb s)) (cursor_row (scr_ds s)) with
        | Some r => r <| cells := updateZ (cells r) (cursor_col (scr_ds s)) x' |>
        | None => Row_new 0 0 0
        end)) s).
Proof.
  intros Hs Hf. pose proof Hs as [Hd Hrs]. pose proof Hd as [].
  destruct (rows_at_ok w h (rows (fb s)) (cursor_row (scr_ds s)) Hrs) as (r & Er & [Hl _]); [done|].
  destruct (at_ok (cells r) (cursor_col (scr_ds s))) as (x & Ex & _); [lia|].
  unfold with_cell, with_row, get_row, mbind, M_bind, gets, lift, resolve_row, resolve_col, modify.
  change (-1 =? -1) with true. cbv iota. rewrite Er. unfold result_bind.
  rewrite Ex, Hf. rewrite (at_inv _ _ _ Er). done.
Qed.

Section printing.
Context `{Libc} `{!LibcLaws}.

Lemma print_char_eq w h c s :
  scr_inv w h s -> plain_mode (scr_ds s) -> printable c ->
  print (MkAction Print c true) s = Ok (tt, put_char c s).
Proof.
  intros Hs [Hi Hn] Hc. unfold printable in Hc. unfold print. cbn [char_present ch].
  rewrite (M_bind_Ok _ _ s tt s) by done. cbv zeta.
  destruct (get_cell_ok w h (-1) (-1) s Hs) as [x Ex]; [by left..|].
  rewrite (M_bind_Ok _ _ s x s Ex).
  assert (Hw : char_width c = 1).
  { unfold char_width, isprint_iso8859_1. rewrite (proj2 (Z.eqb_neq c 0)) by lia.
    rewrite (proj2 (Z.leb_le c 0x7e)), (proj2 (Z.leb_le 0x20 c)) by lia. by rewrite orb_true_r. }
  rewrite Hw. cbn [Z.eqb orb Pos.eqb].
  unfold print_normal. rewrite (M_bind_Ok _ _ s tt s).
  2:{ unfold print_wrap, mbind, M_bind, gets. rewrite Hn, andb_false_r. cbn [Z.eqb Pos.eqb].
      by rewrite andb_false_r. }
  rewrite (M_bind_Ok _ _ s (scr_ds s) s) by done. rewrite Hi.
  rewrite (M_bind_Ok _ _ s tt s) by done.
  assert (Hdraw : forall x, draw_cell (scr_ds s) c 1 x = Ok (text_cell (scr_ds s) c)).
  { intros y. unfold draw_cell, Cell_append, append_to_str, u32. rewrite Z.mod_small by lia.
    rewrite (proj2 (Z.leb_le c 0x7f)) by lia. done. }
  rewrite (M_bind_Ok _ _ s tt _ (with_cell_cursor w h _ _ s Hs Hdraw)).
  cbn [Z.eqb Pos.eqb andb when_]. done.
Qed.
End printing.

(** Draw-state fields text does not touch. *)
Definition same_mode (d d' : DrawState) : Prop :=
  ds_renditions d' = ds_renditions d /\ ds_hyperlink d' = ds_hyperlink d /\
  insert_mode d' = insert_mode d /\ origin_mode d' = origin_mode d /\ cursor_row d' = cursor_row d.

Lemma move_col_advance w h d :
  ds_inv w h d -> origin_mode d = false ->
  same_mode d (move_col 1 true true d) /\
  cursor_col (move_col 1 true true d) = Z.min (w - 1) (cursor_col d + 1) /\
  next_print_will_wrap (move_col 1 true true d) = (w <=? cursor_col d + 1).
Proof.
  intros [] Ho. unfold move_col, same_mode. cbv zeta. rewrite snap_eq. unfold limit_top, limit_bottom, new_grapheme.
  cbn -[Z.min Z.max Z.add Z.sub Z.leb]. rewrite Ho. cbn -[Z.min Z.max Z.add Z.sub Z.leb].
  rewrite inv_width. split_and!; try done; lia.
Qed.

Lemma cell_at_put_char w h c s i j :
  scr_inv w h s -> 0 <= i -> 0 <= j ->
  cell_at (put_char c s) i j =
    if (i =? cursor_row (scr_ds s)) && (j =? cursor_col (scr_ds s))
    then Some (text_cell (scr_ds s) c) else cell_at s i j.
Proof.
  intros [[] [Hl Hf]] Hi Hj. unfold cell_at, put_char. cbn [rows fb put_rows put_ds set_field].
  destruct (lookupZ_lt (rows (fb s)) (cursor_row (scr_ds s))) as [r Er]; [lia|]. rewrite Er.
  destruct (lookupZ_Forall _ _ _ _ Hf Er) as [Hrl _].
  destruct (Z.eqb_spec i (cursor_row (scr_ds s))) as [->|Hne]; cbn [andb].
  - rewrite lookupZ_updateZ_eq, Er by lia. cbn [mbind option_bind cells set_field].
    destruct (Z.eqb_spec j (cursor_col (scr_ds s))) as [->|Hnj].
    + by rewrite lookupZ_updateZ_eq by lia.
    + by rewrite lookupZ_updateZ_ne by auto.
  - by rewrite lookupZ_updateZ_ne by auto.
Qed.

(** The cell at a position after text of one row. *)
Definition cell_after_text (t : list Z) (s : Screen) (i j : Z) : option Cell :=
  let d := scr_ds s in
  if (i =? cursor_row d) && (cursor_col d <=? j) && (j <? cursor_col d + lenZ t)
  then text_cell d <$> lookupZ t (j - cursor_col d) else cell_at s i j.

Section text.
Context `{Libc} `{!LibcLaws} (w h : Z).

Lemma put_char_inv c s :
  scr_inv w h s -> plain_mode (scr_ds s) -> printable c -> scr_inv w h (put_char c s).
Proof.
  intros Hs Hp Hc. pose proof Hc as Hc'. unfold printable in Hc'.
  destruct (print_safe w h (MkAction Print c true) eq_refl) with (s := s) as ([] & s' & E & Hs'); [|done|].
  { unfold is_scalar, is_surrogate. cbn [ch]. lia. }
  rewrite (print_char_eq w h) in E by done. by injection E as <-.
Qed.

Lemma put_char_ds c s : scr_ds (put_char c s) = move_col 1 true true (scr_ds s).
Proof. done. Qed.

(** [s'] is [s] with the text [t] written at the cursor. *)
Record text_written (t : list Z) (s s' : Screen) : Prop := {
  tw_inv : scr_inv w h s';
  tw_mode : same_mode (scr_ds s) (scr_ds s');
  tw_col : cursor_col (scr_ds s') = Z.min (w - 1) (cursor_col (scr_ds s) + lenZ t);
  tw_wrap : next_print_will_wrap (scr_ds s') = (w <=? cursor_col (scr_ds s) + lenZ t);
  tw_cells : forall i j, 0 <= i -> 0 <= j -> cell_at s' i j = cell_after_text t s i j }.

Lemma text_written_one c s :
  scr_inv w h s -> plain_mode (scr_ds s) -> origin_mode (scr_ds s) = false -> printable c ->
  text_written [c] s (put_char c s).
Proof.
  intros Hs Hp Ho Hc. pose proof Hs as [Hd _].
  destruct (move_col_advance w h _ Hd Ho) as (Hm & Hcol & Hwr).
  split; rewrite ?put_char_ds; try done; [by apply put_char_inv|].
  intros i j Hi Hj. rewrite (cell_at_put_char w h) by done. unfold cell_after_text.
  change (lenZ [c]) with 1. generalize (scr_ds s). intros d.
  destruct (Z.eqb_spec i (cursor_row d)), (Z.eqb_spec j (cursor_col d)),
    (Z.leb_spec (cursor_col d) j), (Z.ltb_spec j (cursor_col d + 1)); cbn [andb]; try done; try lia.
  replace (j - cursor_col d) with 0 by lia. done.
Qed.

Lemma text_written_cons c t s s1 s2 :
  cursor_col (scr_ds s) + 1 < w ->
  text_written [c] s s1 -> text_written t s1 s2 -> text_written (c :: t) s s2.
Proof.
  intros Hlt [I1 (M1 & M2 & M3 & M4 & M5) C1 W1 X1] [I2 (N1 & N2 & N3 & N4 & N5) C2 W2 X2].
  assert (Hlen : lenZ (c :: t) = 1 + lenZ t) by apply (lenZ_app [c] t).
  pose proof (lenZ_nonneg t). change (lenZ [c]) with 1 in *. rewrite Z.min_r in C1 by lia.
  rewrite C1 in C2, W2. split; [done|repeat split; congruence|rewrite C2; lia|rewrite W2; f_equal; lia|].
  intros i j Hi Hj. rewrite X2 by done. unfold cell_after_text at 1.
  rewrite X1 by done. unfold cell_after_text, text_cell. rewrite Hlen, M1, M2, M5, C1.
  change (lenZ [c]) with 1. generalize (scr_ds s) as d. intros d.
  destruct (Z.eqb_spec i (cursor_row d)), (Z.leb_spec (cursor_col d) j),
    (Z.leb_spec (cursor_col d + 1) j), (Z.ltb_spec j (cursor_col d + 1)),
    (Z.ltb_spec j (cursor_col d + (1 + lenZ t))), (Z.ltb_spec j (cursor_col d + 1 + lenZ t));
    cbn [andb]; try done; try lia.
  - change (c :: t) with ([c] ++ t). rewrite lookupZ_app_r by (change (lenZ [c]) with 1; lia).
    change (lenZ [c]) with 1. do 2 f_equal. lia.
  - replace (j - cursor_col d) with 0 by lia. done.
Qed.

Lemma act_print c e :
  scr_inv w h (screen (ctx e)) -> plain_mode (scr_ds (screen (ctx e))) -> printable c ->
  act_on_terminal (MkAction Print c true) e =
    Ok (tt, e <| ctx := (ctx e) <| screen := put_char c (screen (ctx e)) |> |>).
Proof.
  intros. unfold act_on_terminal, on_ctx, on_screen, zoom. cbn [typ].
  by rewrite (print_char_eq w h).
Qed.

Lemma act_all_cons a l e : act_all (a :: l) e = (act_on_terminal a ;; act_all l) e.
Proof. done. Qed.

Lemma act_text c t e :
  Forall printable (c :: t) -> scr_inv w h (screen (ctx e)) ->
  plain_mode (scr_ds (screen (ctx e))) -> origin_mode (scr_ds (screen (ctx e))) = false ->
  cursor_col (scr_ds (screen (ctx e))) + lenZ (c :: t) <= w ->
  exists s', act_all ((fun c => MkAction Print c true) <$> c :: t) e =
      Ok (tt, e <| ctx := (ctx e) <| screen := s' |> |>) /\
    text_written (c :: t) (screen (ctx e)) s'.
Proof.
  revert c e. induction t as [|c2 t IH]; intros c e Hf Hs Hp Ho Hl;
    apply Forall_cons_1 in Hf as [Hc Hf]; rewrite fmap_cons, act_all_cons;
    rewrite (M_bind_Ok _ _ _ _ _ (act_print c e Hs Hp Hc));
    pose proof (text_written_one c _ Hs Hp Ho Hc) as Hone.
  - eexists. split; [done|done].
  - pose proof Hone as [I1 (M1 & M2 & M3 & M4 & M5) C1 W1 _]. change (lenZ [c]) with 1 in *.
    assert (Hlen : lenZ (c :: c2 :: t) = 1 + lenZ (c2 :: t)) by apply (lenZ_app [c] (c2 :: t)).
    assert (Hlen2 : lenZ (c2 :: t) = 1 + lenZ t) by apply (lenZ_app [c2] t).
    pose proof (lenZ_nonneg t).
    destruct (IH c2 (e <| ctx := (ctx e) <| screen := put_char c (screen (ctx e)) |> |>)) as (s' & E & Ht);
      cbn [ctx screen set_field]; auto.
    + split; [rewrite M3; apply Hp|]. rewrite W1. apply Z.leb_gt. lia.
    + by rewrite M4.
    + rewrite C1. lia.
    + exists s'. rewrite E. split; [done|]. apply (text_written_cons _ _ _ (put_char c (screen (ctx e)))); [lia|done..].
Qed.
End text.

Lemma parse_printable t :
  Forall printable t -> parse_run Ground t = (Ground, (fun c => MkAction Print c true) <$> t).
Proof.
  assert (Hall : forallb (fun c => (c <? 0x20) || (0x7E <? c) ||
    bool_decide (parser_input Ground c [] = (Ground, [MkAction Print c true]))) (seqZ 0 128) = true)
    by (vm_compute; reflexivity).
  intros H. induction H as [|c t Hc _ IH]; [done|]. cbn [parse_run]. unfold printable in Hc.
  pose proof (forall_range _ _ Hall c ltac:(lia)) as Hb. cbv beta in Hb.
  rewrite (proj2 (Z.ltb_ge c 0x20)), (proj2 (Z.ltb_ge 0x7E c)) in Hb by lia.
  cbn [orb] in Hb. apply bool_decide_eq_true_1 in Hb. by rewrite Hb, IH.
Qed.

Section text_claim.
Context `{Libc} `{!LibcLaws}.

(** C9. Text appears where the cursor is: printable ASCII text that fits in
    the rest of the row is written into consecutive cells with the current
    renditions and hyperlink, every other cell is unchanged, the cursor
    advances by the length of the text and stops at the last column, where
    the next character is marked to wrap.  The parser is in its ground state,
    insert and origin mode are off and no wrap is pending before the text. *)
Theorem text_spec w h c0 t c :
  let s := screen (ctx (terminal c)) in
  complete_inv w h c -> c_parser c = MkUTF8Parser Ground [] ->
  insert_mode (scr_ds s) = false -> next_print_will_wrap (scr_ds s) = false ->
  origin_mode (scr_ds s) = false -> Forall printable (c0 :: t) ->
  cursor_col (scr_ds s) + lenZ (c0 :: t) <= w ->
  exists c', act_octets (c0 :: t) c = Ok (tt, c') /\
    c' = c <| terminal := (terminal c) <| ctx := (ctx (terminal c)) <| screen := screen (ctx (terminal c')) |> |> |> /\
    text_written w h (c0 :: t) s (screen (ctx (terminal c'))).
Proof.
  intros s [_ [Hs _]] Hp Hi Hn Ho Hf Hl. destruct c as [p e hist ack]. cbn in Hp, s. subst p.
  destruct (act_text w h c0 t e Hf Hs (conj Hi Hn) Ho Hl) as (s' & E & Ht).
  exists (MkComplete (MkUTF8Parser Ground []) (e <| ctx := (ctx e) <| screen := s' |> |>) hist ack).
  split; [|split; [done|exact Ht]].
  - rewrite act_octets_ascii; [rewrite parse_printable by done; cbn [fst snd]; by rewrite E|].
    eapply Forall_impl; [exact Hf|]. unfold printable. lia.
Qed.
End text_claim.

Lemma text_spec_witness :
  match Complete_new 5 2 0 with
  | Ok c => exists c', act_octets (str "Hello") c = Ok (tt, c') /\
      c' = c <| terminal := (terminal c) <| ctx := (ctx (terminal c)) <| screen := screen (ctx (terminal c')) |> |> |> /\
      text_written 5 2 (str "Hello") (screen (ctx (terminal c))) (screen (ctx (terminal c')))
  | Err _ => False
  end.
Proof.
  destruct (Complete_new 5 2 0) as [c|] eqn:E; [|by vm_compute in E].
  pose proof (Complete_new_inv _ _ _ _ E) as Hc. injection E as <-.
  apply text_spec; try done. unfold printable. cbn. repeat constructor; lia.
Defined.
