(* ===== verification/Crypto.v ===== *)
(** * Keys, nonces and sessions (mosh/src/crypto)

    byteorder.h, base64.cc, and of crypto.cc: [unique], [Base64Key], [Nonce],
    [Message] and [Session].  The authenticated cipher behind
    ae.h is a class; OcbSpec.v makes OCB an instance of it. *)
From S2P Require Export Prelude.

(** ** Byte order (byteorder.h): the octets in memory order *)

Definition htobe64 (x : Z) : bytes :=
  [ Z.land (Z.shiftr x 56) 255; Z.land (Z.shiftr x 48) 255; Z.land (Z.shiftr x 40) 255;
    Z.land (Z.shiftr x 32) 255; Z.land (Z.shiftr x 24) 255; Z.land (Z.shiftr x 16) 255;
    Z.land (Z.shiftr x 8) 255; Z.land x 255 ].

Definition be64toh (b : bytes) : Z :=
  let p8 i := nth i b 0 in
  Z.lor (Z.lor (Z.lor (Z.lor (Z.lor (Z.lor (Z.lor
    (Z.shiftl (p8 0%nat) 56) (Z.shiftl (p8 1%nat) 48)) (Z.shiftl (p8 2%nat) 40))
    (Z.shiftl (p8 3%nat) 32)) (Z.shiftl (p8 4%nat) 24)) (Z.shiftl (p8 5%nat) 16))
    (Z.shiftl (p8 6%nat) 8)) (p8 7%nat).

Definition htobe16 (x : Z) : bytes := [ Z.land (Z.shiftr x 8) 255; Z.land x 255 ].
Definition be16toh (b : bytes) : Z := Z.lor (Z.shiftl (nth 0 b 0) 8) (nth 1 b 0).

(** ** Base64 (base64.cc) *)

Definition table : bytes :=
  str "ABCDEFGHIJKLMNOPQRSTUVWXYZabcdefghijklmnopqrstuvwxyz0123456789+/".

(** The table [reverse]: 0xff for characters that are not base64. *)
Definition reverse : list Z :=
  replicate 43 0xff ++ [0x3e] ++ replicate 3 0xff ++ [0x3f] ++ seqZ 0x34 10
  ++ replicate 7 0xff ++ seqZ 0x00 26 ++ replicate 6 0xff ++ seqZ 0x1a 26 ++ replicate 133 0xff.

Definition base64_char_to_sixbit (c : Z) : Z := nth (Z.to_nat (u8 c)) reverse 0.
Definition sixbit_char (v : Z) : Z := nth (Z.to_nat (Z.land v 0x3f)) table 0.

(** The four characters of three octets. *)
Definition encode_group (a b c : Z) : bytes :=
  let v := Z.lor (Z.lor (Z.shiftl a 16) (Z.shiftl b 8)) c in
  [ sixbit_char (Z.shiftr v 18); sixbit_char (Z.shiftr v 12);
    sixbit_char (Z.shiftr v 6); sixbit_char v ].

Fixpoint encode_loop (n : nat) (raw : bytes) : bytes :=
  match n, raw with
  | S n', a :: b :: c :: raw' => encode_group a b c ++ encode_loop n' raw'
  | _, lastchar :: _ =>
      [ sixbit_char (Z.shiftr lastchar 2); sixbit_char (Z.shiftl lastchar 4); chr "="; chr "=" ]
  | _, [] => []
  end.

Definition base64_encode (raw : bytes) (b64_len : Z) : result fault bytes :=
  if negb (b64_len =? 24) then Err AssertFail
  else if negb (lenZ raw =? 16) then Err AssertFail
  else Ok (encode_loop 5 raw).

(** Iteration [i] of the decoding loop, [n] left: [acc] is [bytes], [out] the
    octets written so far; [None] for a bad character. *)
Fixpoint decode_loop (n : nat) (i acc : Z) (b64 out : bytes) : option (Z * bytes * bytes) :=
  match n with
  | O => Some (acc, b64, out)
  | S n' =>
      match b64 with
      | [] => None
      | c :: b64' =>
          let sixbit := base64_char_to_sixbit c in
          if 0x3f <? sixbit then None else
          let acc := Z.lor (u32 (Z.shiftl acc 6)) sixbit in
          if i mod 4 =? 3
          then decode_loop n' (i + 1) 0 b64'
                 (out ++ [u8 (Z.shiftr acc 16); u8 (Z.shiftr acc 8); u8 acc])
          else decode_loop n' (i + 1) acc b64' out
      end
  end.

(** [None] when the text is not base64. *)
Definition base64_decode (b64 : bytes) (raw_len : Z) : result fault (option bytes) :=
  if negb (lenZ b64 =? 24) then Err AssertFail
  else if negb (raw_len =? 16) then Err AssertFail
  else Ok (match decode_loop 22 0 0 b64 [] with
           | None => None
           | Some (acc, rest, out) =>
               let raw := out ++ [u8 (Z.shiftr acc 4)] in
               if bool_decide (take 2 rest = str "==") then Some raw else None
           end).

(** ** Keys *)

(** A [Base64Key] is its 16 octets. *)
Definition printable_key (key : bytes) : result fault (result exn bytes) :=
  b64 ← base64_encode key 24;
  if bool_decide (drop 22 b64 = str "==") then Ok (Ok (take 22 b64))
  else Ok (Err (CryptoException false)).

Definition Base64Key_new (printable : bytes) : result fault (result exn bytes) :=
  if negb (lenZ printable =? 22) then Ok (Err (CryptoException false)) else
  r ← base64_decode (printable ++ str "==") 16;
  match r with
  | None => Ok (Err (CryptoException false))
  | Some key =>
      p ← printable_key key;
      match p with
      | Err e => Ok (Err e)
      | Ok p => if bool_decide (printable = p) then Ok (Ok key) else Ok (Err (CryptoException false))
      end
  end.

(** ** The nonce counter: the function-static [counter] *)
Definition unique : X Z Z :=
  fun counter =>
    let counter' := u64 (counter + 1) in
    if counter' =? 0 then Ok (Err (CryptoException true), counter') else Ok (Ok counter, counter').

(** ** Nonces and messages *)

(** The 12 octets of a [Nonce]. *)
Definition Nonce := bytes.
Definition Nonce_of_val (val : Z) : Nonce := replicate 4 0 ++ htobe64 val.
Definition Nonce_of_bytes (s : bytes) : result exn Nonce :=
  if negb (lenZ s =? 8) then Err (CryptoException false) else Ok (replicate 4 0 ++ s).
Definition nonce_val (n : Nonce) : Z := be64toh (drop 4 n).
Definition cc_str (n : Nonce) : bytes := take 8 (drop 4 n).

Record Message : Type := MkMessage { nonce : Nonce; text : bytes }.

(** ** The cipher of ae.h

    [ae_encrypt] and [ae_decrypt] with a 16-octet key, a 12-octet nonce, no
    associated data and the 16-octet tag bundled; [None] is [AE_INVALID]. *)
Class AE : Type := {
  ae_encrypt : bytes -> bytes -> bytes -> bytes;
  ae_decrypt : bytes -> bytes -> bytes -> option bytes;
}.

(** What ae.h documents of a correct implementation. *)
Class AELaws `{AE} : Prop := {
  ae_length key n pt : length (ae_encrypt key n pt) = (length pt + 16)%nat;
  ae_correct key n pt : octets16 key -> octets pt -> ae_decrypt key n (ae_encrypt key n pt) = Some pt;
  ae_decrypt_length key n ct pt : ae_decrypt key n ct = Some pt -> length ct = (length pt + 16)%nat;
  ae_decrypt_octets key n ct pt : Forall is_u8 ct -> ae_decrypt key n ct = Some pt -> Forall is_u8 pt;
}.

(** ** Sessions *)

Definition RECEIVE_MTU : Z := 2048.
Definition session_ADDED_BYTES : Z := 16.

Record Session : Type := MkSession { key : bytes; blocks_encrypted : Z }.
#[export] Instance eta_Session : Eta Session := fun s => MkSession (key s) (blocks_encrypted s).

Section session.
Context `{AE}.

Definition Session_new (s_key : bytes) : Session := MkSession s_key 0.

Definition encrypt (plaintext : Message) : X Session bytes :=
  let pt_len := lenZ (text plaintext) in
  let ciphertext_len := pt_len + 16 in
  noexn (assert_ (ciphertext_len <=? RECEIVE_MTU)) ;;
  noexn (assert_ (pt_len <=? RECEIVE_MTU)) ;;
  k ← noexn (gets key);
  let ct := ae_encrypt k (nonce plaintext) (text plaintext) in
  if negb (lenZ ct =? ciphertext_len) then throw (CryptoException false) else
  noexn (modify (fun s => s <| blocks_encrypted := u64 (blocks_encrypted s + Z.shiftr pt_len 4) |>)) ;;
  (if Z.land pt_len 0xF =? 0 then mret tt
   else noexn (modify (fun s => s <| blocks_encrypted := u64 (blocks_encrypted s + 1) |>))) ;;
  b ← noexn (gets blocks_encrypted);
  if negb (Z.shiftr b 47 =? 0) then throw (CryptoException true) else
  mret (cc_str (nonce plaintext) ++ ct).

Definition decrypt (s : bytes) : X Session Message :=
  let len := lenZ s in
  if len <? 24 then throw (CryptoException false) else
  let body_len := i32 (len - 8) in
  let pt_len := body_len - 16 in
  (* [pt_len < 0] ends the process *)
  noexn (assert_ (0 <=? pt_len)) ;;
  noexn (assert_ (body_len <=? RECEIVE_MTU)) ;;
  noexn (assert_ (pt_len <=? RECEIVE_MTU)) ;;
  match Nonce_of_bytes (take 8 s) with
  | Err e => throw e
  | Ok nonce =>
      k ← noexn (gets key);
      match ae_decrypt k nonce (drop 8 s) with
      | Some pt => if negb (lenZ pt =? pt_len) then throw (CryptoException false)
                   else mret (MkMessage nonce pt)
      | None => throw (CryptoException false)
      end
  end.
End session.

(** ** Byte order round trips *)

Lemma byte_at_bits x k n :
  0 <= k -> 0 <= n ->
  Z.testbit (Z.shiftl (Z.land (Z.shiftr x k) 255) k) n = Z.testbit x n && ((k <=? n) && (n <? k + 8)).
Proof.
  intros Hk Hn. rewrite Z.shiftl_spec by done. destruct (Z.leb_spec k n); cbn [andb].
  - rewrite land_255_bits, Z.shiftr_spec by lia. rewrite Z.sub_add.
    by replace (n - k <? 8) with (n <? k + 8) by lia.
  - rewrite testbit_neg_false, andb_false_r by lia. done.
Qed.

Lemma bits_above x k n : 0 <= x < 2 ^ k -> 0 <= k <= n -> Z.testbit x n = false.
Proof.
  intros Hx Hn. rewrite <- (Z.mod_small x (2 ^ k)) by done. apply Z.mod_pow2_bits_high. lia.
Qed.

Lemma be64_roundtrip x : is_u64 x -> be64toh (htobe64 x) = x.
Proof.
  intros Hx. unfold be64toh, htobe64. cbn [nth]. apply Z.bits_inj'. intros n Hn.
  rewrite !Z.lor_spec, !byte_at_bits, land_255_bits by lia.
  destruct (Z.ltb_spec n 64); [destruct (Z.testbit x n); cbn [andb]; lia|].
  by rewrite (bits_above x 64) by (unfold is_u64 in *; lia).
Qed.

Lemma be16_roundtrip x : is_u16 x -> be16toh (htobe16 x) = x.
Proof.
  intros Hx. unfold be16toh, htobe16. cbn [nth]. apply Z.bits_inj'. intros n Hn.
  rewrite !Z.lor_spec, !byte_at_bits, land_255_bits by lia.
  destruct (Z.ltb_spec n 16); [destruct (Z.testbit x n); cbn [andb]; lia|].
  by rewrite (bits_above x 16) by (unfold is_u16 in *; lia).
Qed.

Lemma land_255_u8 z : is_u8 (Z.land z 255).
Proof. rewrite land_255. by apply Z.mod_pos_bound. Qed.

Lemma htobe64_u8 x : Forall is_u8 (htobe64 x).
Proof. unfold htobe64. repeat constructor; apply land_255_u8. Qed.

Lemma nonce_val_of_val x : is_u64 x -> nonce_val (Nonce_of_val x) = x.
Proof. apply be64_roundtrip. Qed.

Lemma cc_str_of_val x : cc_str (Nonce_of_val x) = htobe64 x.
Proof. done. Qed.

(** ** Keys *)

Lemma sixbit_inverse v :
  0 <= v < 64 -> base64_char_to_sixbit (sixbit_char v) = v.
Proof.
  intros Hv. assert (Hall : forallb (fun v => base64_char_to_sixbit (sixbit_char v) =? v) (seqZ 0 64) = true)
    by (vm_compute; reflexivity).
  by apply Z.eqb_eq, (forall_range _ _ Hall).
Qed.

Lemma sixbit_char_mod v : sixbit_char v = sixbit_char (v mod 64).
Proof.
  unfold sixbit_char. change 0x3f with (Z.ones 6). rewrite !Z.land_ones by lia.
  change (2 ^ 6) with 64. by rewrite Z.mod_mod by lia.
Qed.

(** One step of the decoding loop on an encoded value. *)
Lemma decode_step n i acc v b64 out :
  0 <= acc < 2 ^ 18 ->
  decode_loop (S n) i acc (sixbit_char v :: b64) out =
    let acc := acc * 64 + v mod 64 in
    if i mod 4 =? 3
    then decode_loop n (i + 1) 0 b64 (out ++ [u8 (acc / 65536); u8 (acc / 256); u8 acc])
    else decode_loop n (i + 1) acc b64 out.
Proof.
  intros Hacc. pose proof (Z.mod_pos_bound v 64 eq_refl) as Hv. cbn [decode_loop].
  rewrite sixbit_char_mod, sixbit_inverse by done.
  rewrite (proj2 (Z.ltb_ge 0x3f _)) by lia.
  unfold u32. rewrite (Z.mod_small (Z.shiftl acc 6)) by (rewrite Z.shiftl_mul_pow2; lia).
  rewrite lor_shiftl_add by lia. rewrite !Z.shiftr_div_pow2 by lia. done.
Qed.

Lemma group_value a b c :
  is_u8 a -> is_u8 b -> is_u8 c ->
  Z.lor (Z.lor (Z.shiftl a 16) (Z.shiftl b 8)) c = a * 65536 + b * 256 + c.
Proof.
  intros Ha Hb Hc. unfold is_u8 in *.
  rewrite lor_shiftl_add by (rewrite ?Z.shiftl_mul_pow2 by lia; lia).
  rewrite (Z.shiftl_mul_pow2 b) by lia.
  replace (a * 2 ^ 16 + b * 2 ^ 8) with (Z.shiftl (a * 256 + b) 8) by (rewrite Z.shiftl_mul_pow2; lia).
  rewrite lor_shiftl_add by lia. lia.
Qed.

(** Four characters give the three octets back. *)
Lemma decode_group n i a b c b64 out :
  is_u8 a -> is_u8 b -> is_u8 c -> i mod 4 = 0 ->
  decode_loop (4 + n) i 0 (encode_group a b c ++ b64) out =
    decode_loop n (i + 4) 0 b64 (out ++ [a; b; c]).
Proof.
  intros Ha Hb Hc Hi. unfold encode_group. rewrite group_value by done. unfold is_u8 in *.
  cbn [app Nat.add]. rewrite !Z.shiftr_div_pow2 by lia. rewrite decode_step by lia. cbv zeta.
  assert (Hm : (i + 1) mod 4 = 1 /\ (i + 1 + 1) mod 4 = 2 /\ (i + 1 + 1 + 1) mod 4 = 3)
    by (Z.to_euclidean_division_equations; lia). destruct Hm as (Hm1 & Hm2 & Hm3).
  rewrite Hi. cbn [Z.eqb].
  rewrite decode_step by (Z.to_euclidean_division_equations; lia). rewrite Hm1. cbv zeta. cbn [Z.eqb Pos.eqb].
  rewrite decode_step by (Z.to_euclidean_division_equations; lia). rewrite Hm2. cbv zeta. cbn [Z.eqb Pos.eqb].
  rewrite decode_step by (Z.to_euclidean_division_equations; lia). rewrite Hm3. cbv zeta. cbn [Z.eqb Pos.eqb].
  replace (i + 1 + 1 + 1 + 1) with (i + 4) by lia. do 2 f_equal.
  set (v := a * 65536 + b * 256 + c).
  assert (Hv : (((0 * 64 + v / 2 ^ 18 mod 64) * 64 + v / 2 ^ 12 mod 64) * 64 + v / 2 ^ 6 mod 64) * 64 + v mod 64 = v).
  { unfold v. Z.to_euclidean_division_equations; lia. }
  rewrite Hv. unfold u8, v. repeat f_equal; Z.to_euclidean_division_equations; lia.
Qed.

Definition key_wf (k : bytes) : Prop := length k = 16%nat /\ Forall is_u8 k.

(** The last octet: two characters and the padding. *)
Lemma decode_last i a out :
  is_u8 a -> i mod 4 = 0 ->
  decode_loop 2 i 0 (encode_loop 0 [a]) out =
    Some ((a / 4) * 64 + (a * 16) mod 64, str "==", out).
Proof.
  intros Ha Hi. unfold is_u8 in Ha. cbn [encode_loop].
  assert ((i + 1) mod 4 = 1) as Hm by (Z.to_euclidean_division_equations; lia).
  rewrite Z.shiftr_div_pow2, Z.shiftl_mul_pow2 by lia.
  rewrite decode_step by lia. cbv zeta. rewrite Hi. cbn [Z.eqb].
  rewrite decode_step by (Z.to_euclidean_division_equations; lia). cbv zeta. rewrite Hm. cbn [Z.eqb].
  cbn [decode_loop]. change (2 ^ 2) with 4. change (2 ^ 4) with 16.
  rewrite (Z.mod_small (a / 4) 64) by (Z.to_euclidean_division_equations; lia). done.
Qed.

(** The shape of an encoded key. *)
Lemma encode_loop_shape n k :
  length k = (3 * n + 1)%nat -> Forall is_u8 k ->
  length (encode_loop n k) = (4 * n + 4)%nat /\ drop (4 * n + 2) (encode_loop n k) = str "==" /\
  forall i out, i mod 4 = 0 ->
    exists acc rest, decode_loop (4 * n + 2) i 0 (encode_loop n k) out = Some (acc, rest, out ++ take (3 * n) k) /\
      rest = str "==" /\ [u8 (Z.shiftr acc 4)] = drop (3 * n) k.
Proof.
  revert k. induction n as [|n IH]; intros k Hl Hf.
  - destruct k as [|a [|b k]]; cbn in Hl; try lia. apply Forall_cons_1 in Hf as [Ha _].
    split; [done|]. split; [done|]. intros i out Hi. rewrite app_nil_r.
    change (4 * 0 + 2)%nat with 2%nat. rewrite decode_last by done. do 2 eexists. split; [done|].
    split; [done|]. change (drop (3 * 0) [a]) with [a]. f_equal. unfold is_u8, u8 in *. rewrite Z.shiftr_div_pow2 by lia.
    Z.to_euclidean_division_equations; lia.
  - destruct k as [|a [|b [|c k]]]; cbn [length] in Hl; try lia.
    apply Forall_cons_1 in Hf as [Ha [Hb [Hc Hf]%Forall_cons_1]%Forall_cons_1].
    destruct (IH k ltac:(lia) Hf) as (IH1 & IH2 & IH3).
    replace (4 * S n + 2)%nat with (4 + (4 * n + 2))%nat by lia.
    replace (3 * S n)%nat with (3 + 3 * n)%nat by lia. cbn [encode_loop].
    split; [rewrite length_app, IH1; cbn; lia|]. split.
    { rewrite <- IH2. done. }
    intros i out Hi. rewrite decode_group by done.
    destruct (IH3 (i + 4) (out ++ [a; b; c])) as (acc & rest & E & Hr & Hd).
    { Z.to_euclidean_division_equations; lia. }
    exists acc, rest. rewrite E, <- app_assoc. done.
Qed.

Lemma printable_key_ok k :
  key_wf k -> exists p, printable_key k = Ok (Ok p) /\ length p = 22%nat /\
    base64_decode (p ++ str "==") 16 = Ok (Some k).
Proof.
  intros [Hl Hf]. destruct (encode_loop_shape 5 k) as (H1 & H2 & H3); [done..|].
  change (4 * 5 + 2)%nat with 22%nat in *. change (3 * 5)%nat with 15%nat in *.
  exists (take 22 (encode_loop 5 k)). unfold printable_key, base64_encode.
  unfold lenZ. rewrite Hl. cbn [negb Z.eqb Pos.eqb Z.of_nat mbind result_bind].
  change (24 =? 24) with true. change (Z.of_nat 16 =? 16) with true. cbn [negb mbind result_bind].
  rewrite bool_decide_true by done. split; [done|]. split; [rewrite length_take; lia|].
  replace (take 22 (encode_loop 5 k) ++ str "==") with (encode_loop 5 k).
  2:{ rewrite <- H2. symmetry. apply take_drop. }
  unfold base64_decode, lenZ. rewrite H1. change (Z.of_nat (4 * 5 + 4) =? 24) with true.
  cbn [negb]. destruct (H3 0 [] eq_refl) as (acc & rest & E & -> & Hd). rewrite E.
  rewrite bool_decide_true by done. cbn [negb Z.eqb Pos.eqb app]. rewrite Hd, take_drop. done.
Qed.

(** Keys survive printing: the 22-letter form of any 128-bit key is
    accepted by the [Base64Key] constructor and gives the same key back, and
    the constructor accepts no other text for it. *)
Theorem base64key_roundtrip k s :
  key_wf k ->
  (Base64Key_new s = Ok (Ok k) <-> printable_key k = Ok (Ok s)).
Proof.
  intros Hk. destruct (printable_key_ok k Hk) as (p & Ep & Hl & Ed). split.
  - unfold Base64Key_new. destruct (negb _); [done|].
    clear Ed. destruct (base64_decode (s ++ _) _) as [[k'|]|]; cbn [mbind result_bind]; [|done..].
    destruct (printable_key k') as [[p'|]|] eqn:E'; cbn [mbind result_bind]; [|done..].
    case_bool_decide; [|done]. intros [= ->]. by subst.
  - rewrite Ep. intros [= <-]. unfold Base64Key_new, lenZ. rewrite Hl. cbn [negb Z.eqb Pos.eqb].
    change (Z.of_nat 22 =? 22) with true. cbn [negb]. rewrite Ed. cbn [mbind result_bind].
    rewrite Ep. cbn [mbind result_bind]. by rewrite bool_decide_true.
Qed.

Lemma base64key_roundtrip_witness :
  Base64Key_new (str "AQIDBAUGBwgJCgsMDQ4P/w") = Ok (Ok (seqZ 1 15 ++ [255])) <->
  printable_key (seqZ 1 15 ++ [255]) = Ok (Ok (str "AQIDBAUGBwgJCgsMDQ4P/w")).
Proof.
  apply base64key_roundtrip. split; [done|]. repeat constructor; done.
Defined.

Example base64key_concrete :
  printable_key (seqZ 1 15 ++ [255]) = Ok (Ok (str "AQIDBAUGBwgJCgsMDQ4P/w")).
Proof. vm_compute. reflexivity. Qed.

(** ** Sessions *)

(** Blocks of 16 octets, a partial block counting as one. *)
Definition blocks (len : Z) : Z := (len + 15) / 16.

Section session_proofs.
Context `{AE} `{!AELaws}.

Lemma blocks_step b len :
  0 <= b -> 0 <= len <= RECEIVE_MTU -> b < 2 ^ 47 ->
  (if Z.land len 0xF =? 0 then u64 (b + Z.shiftr len 4)
   else u64 (u64 (b + Z.shiftr len 4) + 1)) = b + blocks len.
Proof.
  intros Hb Hl Hb47. unfold u64, blocks, RECEIVE_MTU in *. change (Z.land len 0xF) with (Z.land len (Z.ones 4)).
  rewrite Z.land_ones, Z.shiftr_div_pow2 by lia. change (2 ^ 4) with 16.
  rewrite (Z.mod_small (b + len / 16)) by (Z.to_euclidean_division_equations; lia).
  destruct (Z.eqb_spec (len mod 16) 0).
  - Z.to_euclidean_division_equations; lia.
  - rewrite Z.mod_small; Z.to_euclidean_division_equations; lia.
Qed.

Lemma encrypt_eq m s :
  lenZ (text m) + 16 <= RECEIVE_MTU -> 0 <= blocks_encrypted s < 2 ^ 47 ->
  let b := blocks_encrypted s + blocks (lenZ (text m)) in
  encrypt m s =
    Ok (if b <? 2 ^ 47 then Ok (cc_str (nonce m) ++ ae_encrypt (key s) (nonce m) (text m))
        else Err (CryptoException true), s <| blocks_encrypted := b |>).
Proof.
  intros Hl Hb b. pose proof (lenZ_nonneg (text m)) as Hnn. unfold encrypt.
  rewrite (X_bind_Ok _ _ s tt s) by (unfold assert_; by rewrite (proj2 (Z.leb_le _ _)) by lia).
  rewrite (X_bind_Ok _ _ s tt s) by (unfold assert_; by rewrite (proj2 (Z.leb_le _ _)) by lia).
  rewrite (X_bind_Ok _ _ s (key s) s) by done.
  assert (Hct : lenZ (ae_encrypt (key s) (nonce m) (text m)) = lenZ (text m) + 16)
    by (unfold lenZ; rewrite ae_length; lia).
  rewrite Hct, Z.eqb_refl. cbn [negb].
  pose proof (blocks_step (blocks_encrypted s) (lenZ (text m)) ltac:(lia) ltac:(lia) ltac:(lia)) as Hbs.
  unfold mbind, X_bind, noexn, modify, gets. cbn [blocks_encrypted set_field].
  assert (Hsh : negb (Z.shiftr b 47 =? 0) = negb (b <? 2 ^ 47)).
  { rewrite Z.shiftr_div_pow2 by lia. assert (0 <= b) by (unfold b, blocks; Z.to_euclidean_division_equations; lia).
    destruct (Z.ltb_spec b (2 ^ 47)); [by rewrite Z.div_small|].
    rewrite (proj2 (Z.eqb_neq _ _)); [done|]. pose proof (Z.div_le_mono (2 ^ 47) b (2 ^ 47)).
    rewrite Z.div_same in * by lia. lia. }
  destruct (Z.land (lenZ (text m)) 15 =? 0); cbn [mret X_ret blocks_encrypted set_field];
    rewrite Hbs; fold b; rewrite Hsh; by destruct (b <? 2 ^ 47).
Qed.

Lemma decrypt_eq d s :
  24 <= lenZ d <= RECEIVE_MTU ->
  decrypt d s =
    Ok (match ae_decrypt (key s) (replicate 4 0 ++ take 8 d) (drop 8 d) with
        | Some pt => Ok (MkMessage (replicate 4 0 ++ take 8 d) pt)
        | None => Err (CryptoException false)
        end, s).
Proof.
  intros Hl. unfold RECEIVE_MTU in *. unfold decrypt.
  rewrite (proj2 (Z.ltb_ge _ 24)) by lia. rewrite i32_small by lia. unfold RECEIVE_MTU.
  rewrite (X_bind_Ok _ _ s tt s) by (unfold assert_; by rewrite (proj2 (Z.leb_le _ _)) by lia).
  rewrite (X_bind_Ok _ _ s tt s) by (unfold assert_; by rewrite (proj2 (Z.leb_le _ _)) by lia).
  rewrite (X_bind_Ok _ _ s tt s) by (unfold assert_; by rewrite (proj2 (Z.leb_le _ _)) by lia).
  unfold Nonce_of_bytes, lenZ in *. rewrite length_take_le by lia.
  change (Z.of_nat 8 =? 8) with true. cbn [negb].
  rewrite (X_bind_Ok _ _ s (key s) s) by done.
  destruct (ae_decrypt _ _ _) as [pt|] eqn:E; [|done].
  apply ae_decrypt_length in E. rewrite length_drop in E.
  rewrite (proj2 (Z.eqb_eq _ _)) by lia. done.
Qed.

(** C11. A datagram decrypts to what was sent: whatever message
    [Session::encrypt] accepts (a nonce made from a sequence number, at most
    2024 octets of text) under a 16-octet key, the datagram it produces fits the receive buffer
    and [Session::decrypt] under the same key yields the same nonce and text. *)
Theorem session_roundtrip s peer v t d s' :
  key peer = key s -> octets16 (key s) -> is_u64 v -> octets t -> lenZ t + 16 <= RECEIVE_MTU - 8 ->
  0 <= blocks_encrypted s < 2 ^ 47 ->
  encrypt (MkMessage (Nonce_of_val v) t) s = Ok (Ok d, s') ->
  lenZ d = lenZ t + 24 /\ lenZ d <= RECEIVE_MTU /\
  decrypt d peer = Ok (Ok (MkMessage (Nonce_of_val v) t), peer) /\
  nonce_val (Nonce_of_val v) = v.
Proof.
  intros Hk Hk16 Hv Ht Hl Hb. pose proof (lenZ_nonneg t). rewrite encrypt_eq by (cbn [text]; lia).
  cbn [text nonce]. set (dd := cc_str _ ++ _). destruct (_ <? 2 ^ 47); [|done]. intros [= <- _].
  assert (Hd : lenZ dd = lenZ t + 24).
  { unfold dd. rewrite lenZ_app, cc_str_of_val. unfold lenZ. rewrite ae_length. cbn [length htobe64]. lia. }
  split_and!; [done|lia| |by apply nonce_val_of_val].
  rewrite decrypt_eq by lia. unfold dd. rewrite Hk, cc_str_of_val.
  change (take 8 (htobe64 v ++ ?x)) with (htobe64 v). change (drop 8 (htobe64 v ++ ?x)) with x.
  by rewrite ae_correct.
Qed.

(** C12. Hostile datagrams are harmless: for any octets up to the size of the
    receive buffer [Session::decrypt] passes its assertions and returns
    without changing the session; it either throws a non-fatal exception or
    yields a message that the cipher authenticated under this key for the
    nonce in the first eight octets. *)
Theorem decrypt_total s d :
  lenZ d <= RECEIVE_MTU ->
  exists r, decrypt d s = Ok (r, s) /\
    match r with
    | Err e => e = CryptoException false
    | Ok m => cc_str (nonce m) = take 8 d /\ lenZ d = lenZ (text m) + 24 /\
              ae_decrypt (key s) (nonce m) (drop 8 d) = Some (text m)
    end.
Proof.
  intros Hl. destruct (Z.ltb_spec (lenZ d) 24) as [Hlt|Hge].
  { exists (Err (CryptoException false)). split; [|done]. unfold decrypt.
    by rewrite (proj2 (Z.ltb_lt _ _)) by lia. }
  rewrite decrypt_eq by lia. eexists. split; [done|].
  destruct (ae_decrypt _ _ _) as [pt|] eqn:E; [|done]. cbn [nonce text]. split_and!; [|..|done].
  - unfold cc_str. rewrite drop_app_length'; [|done]. by rewrite take_take.
  - apply ae_decrypt_length in E. rewrite length_drop in E. unfold lenZ in *. lia.
Qed.
End session_proofs.

(** A cipher that satisfies the laws: the text with 16 octets derived from key
    and nonce. *)
Definition toy_tag (k n : bytes) : bytes := list.resize 16 0 (k ++ n).
#[export] Instance ToyAE : AE := {
  ae_encrypt k n pt := pt ++ toy_tag k n;
  ae_decrypt k n ct :=
    if bool_decide (drop (length ct - 16) ct = toy_tag k n) then Some (take (length ct - 16) ct) else None;
}.
#[export] Instance ToyAELaws : AELaws.
Proof.
  assert (Htag : forall k n, length (toy_tag k n) = 16%nat) by (intros; apply length_resize).
  split; cbn [ae_encrypt ae_decrypt ToyAE].
  - intros k n pt. by rewrite length_app, Htag.
  - intros k n pt _ _. rewrite length_app, Htag, Nat.add_sub.
    by rewrite drop_app_length, take_app_length, bool_decide_true.
  - intros k n ct pt. case_bool_decide as E; [|done]. intros [= <-].
    apply (f_equal length) in E. rewrite length_drop, Htag in E. rewrite length_take. lia.
  - intros k n ct pt Hct. case_bool_decide; [|done]. intros [= <-]. by apply Forall_take.
Qed.

Definition sample_key : bytes := seqZ 0 16.

Lemma session_roundtrip_witness :
  exists d, encrypt (MkMessage (Nonce_of_val 5) [1; 2; 3]) (Session_new sample_key) =
      Ok (Ok d, MkSession sample_key 1) /\
    lenZ d = lenZ [1; 2; 3] + 24 /\ lenZ d <= RECEIVE_MTU /\
    decrypt d (Session_new sample_key) =
      Ok (Ok (MkMessage (Nonce_of_val 5) [1; 2; 3]), Session_new sample_key) /\
    nonce_val (Nonce_of_val 5) = 5.
Proof.
  eexists. split; [vm_compute; reflexivity|].
  apply (session_roundtrip (Session_new sample_key) _ 5 _ _ (MkSession sample_key 1));
    [done|split; [done|by repeat constructor]|unfold is_u64; lia|by repeat constructor|unfold lenZ, RECEIVE_MTU; cbn; lia|cbn; lia|vm_compute; reflexivity].
Defined.

Lemma decrypt_total_witness :
  exists r, decrypt (seqZ 0 30) (Session_new sample_key) = Ok (r, Session_new sample_key) /\
    match r with
    | Err e => e = CryptoException false
    | Ok m => cc_str (nonce m) = take 8 (seqZ 0 30) /\ lenZ (seqZ 0 30) = lenZ (text m) + 24 /\
              ae_decrypt (key (Session_new sample_key)) (nonce m) (drop 8 (seqZ 0 30)) = Some (text m)
    end.
Proof. apply decrypt_total. vm_compute. congruence. Defined.
