(* ===== verification/Block.v ===== *)
(** * Blocks of the cipher mode (crypto/ocb_internal.cc)

    The part of ocb_internal.cc that depends on the platform: the type [block]
    and its operations, as the source defines them for portable C, for SSE2 and
    for NEON, behind one interface.  A block holds 16 octets of memory
    ([load], [store]); after [swap_if_le] it holds a number. *)
From S2P Require Export Prelude.

(** ** Numbers and their digits *)

(** The number whose digits of [w] bits are [l], the most significant first. *)
Fixpoint dval (w : Z) (l : list Z) : Z :=
  match l with [] => 0 | d :: l' => d * 2 ^ (w * lenZ l') + dval w l' end.

(** The last [n] octets of a number, the most significant first. *)
Fixpoint to_be (n : nat) (z : Z) : bytes :=
  match n with O => [] | S n' => (z / 2 ^ (8 * Z.of_nat n')) mod 256 :: to_be n' z end.

(** Words in the memory of a little-endian machine. *)
Definition le_load (o : bytes) : Z := dval 8 (rev o).
Definition le_store (n : nat) (z : Z) : bytes := rev (to_be n z).

(** ** Intrinsics *)

(** [__builtin_bswap64], and the definition that replaces it. *)
Definition bswap64 (x : Z) : Z := le_load (to_be 8 x).
Definition bswap32 (x : Z) : Z :=
  Z.lor (Z.lor (Z.lor (Z.shiftr (Z.land x 0xff000000) 24) (Z.shiftr (Z.land x 0x00ff0000) 8))
    (u32 (Z.shiftl (Z.land x 0x0000ff00) 8))) (u32 (Z.shiftl (Z.land x 0x000000ff) 24)).
Definition bswap64_union (x : Z) : Z :=
  let in0 := u32 x in let in1 := u32 (Z.shiftr x 32) in
  let out0 := bswap32 in1 in let out1 := bswap32 in0 in
  out0 + Z.shiftl out1 32.

(** [__builtin_ctz], and the definition that replaces it. *)
Fixpoint pos_ntz (p : positive) : Z := match p with xO q => 1 + pos_ntz q | _ => 0 end.
Definition ntz (x : Z) : Z := match x with Zpos p => pos_ntz p | _ => 0 end.

Definition tz_table : list Z :=
  [ 0;  1; 28;  2; 29; 14; 24; 3; 30; 22; 20; 15; 25; 17;  4; 8;
    31; 27; 13; 23; 21; 19; 16; 7; 26; 12; 18;  6; 11;  5; 10; 9 ].
Definition ntz_debruijn (x : Z) : result fault Z :=
  at_ tz_table (Z.shiftr (u32 (Z.land x (u32 (- x)) * 0x077CB531)) 27).

(** ** The interface *)

Class BlockOps : Type := {
  block : Type;
  load : bytes -> block;
  store : block -> bytes;
  xor_block : block -> block -> block;
  zero_block : block;
  unequal_blocks : block -> block -> bool;
  swap_if_le : block -> block;
  gen_offset : Z -> Z -> Z -> Z -> block;
  double_block : block -> block;
}.

(** *** Portable C: two words *)

Record words : Type := MkWords { bl_l : Z; bl_r : Z }.

Definition portable_load (o : bytes) : words := MkWords (le_load (take 8 o)) (le_load (take 8 (drop 8 o))).
Definition portable_store (b : words) : bytes := le_store 8 (bl_l b) ++ le_store 8 (bl_r b).
Definition portable_xor (x y : words) : words := MkWords (Z.lxor (bl_l x) (bl_l y)) (Z.lxor (bl_r x) (bl_r y)).
Definition portable_unequal (x y : words) : bool :=
  negb (Z.lor (Z.lxor (bl_l x) (bl_l y)) (Z.lxor (bl_r x) (bl_r y)) =? 0).
Definition portable_swap (b : words) : words := MkWords (bswap64 (bl_l b)) (bswap64 (bl_r b)).
Definition portable_gen_offset (k0 k1 k2 bot : Z) : words :=
  portable_swap
    (if negb (bot =? 0) then
       MkWords (Z.lor (u64 (Z.shiftl k0 bot)) (Z.shiftr k1 (64 - bot))) (Z.lor (u64 (Z.shiftl k1 bot)) (Z.shiftr k2 (64 - bot)))
     else MkWords k0 k1).
Definition portable_double (b : words) : words :=
  let t := if bl_l b <? 2 ^ 63 then 0 else 2 ^ 64 - 1 in
  MkWords (Z.lxor (u64 (bl_l b + bl_l b)) (Z.shiftr (bl_r b) 63)) (Z.lxor (u64 (bl_r b + bl_r b)) (Z.land t 135)).

Definition PortableBlock : BlockOps := {|
  block := words; load := portable_load; store := portable_store; xor_block := portable_xor; zero_block := MkWords 0 0;
  unequal_blocks := portable_unequal; swap_if_le := portable_swap; gen_offset := portable_gen_offset; double_block := portable_double |}.

(** *** Vector registers: 16 octets in the order of memory *)

Definition octets_xor (x y : bytes) : bytes := zip_with Z.lxor x y.

Definition vector_block (uneq : bytes -> bytes -> bool) (swap : bytes -> bytes) (gen : Z -> Z -> Z -> Z -> bytes) (dbl : bytes -> bytes) : BlockOps := {|
  block := bytes; load := take 16; store := fun o => o; xor_block := octets_xor; zero_block := replicate 16 0;
  unequal_blocks := uneq; swap_if_le := swap; gen_offset := gen; double_block := dbl |}.

(** A shift of all lanes by one; and the lanes of a register, lane 0 first. *)
Definition lane_shl (w : Z) (x : Z) : Z := (x + x) mod 2 ^ w.
Definition lane_sign (w : Z) (x : Z) : Z := if x <? 2 ^ (w - 1) then 0 else 2 ^ w - 1.
Definition lanes32 (o : bytes) : list Z :=
  [le_load (take 4 o); le_load (take 4 (drop 4 o)); le_load (take 4 (drop 8 o)); le_load (take 4 (drop 12 o))].
Definition of_lanes32 (l : list Z) : bytes := l ≫= le_store 4.

(** [_mm_movemask_epi8( _mm_cmpeq_epi8( x, y ) )]. *)
Definition movemask_eq (x y : bytes) : Z :=
  foldr (fun '(a, b) m => 2 * m + (if a =? b then 1 else 0)) 0 (zip x y).
Definition sse2_unequal (x y : bytes) : bool := negb (movemask_eq x y =? 0xffff).

(** Shifts of a 64-bit lane by a register: zero from 64 on. *)
Definition sll_epi64 (x n : Z) : Z := if n <? 64 then u64 (Z.shiftl x n) else 0.
Definition srl_epi64 (x n : Z) : Z := if n <? 64 then Z.shiftr x n else 0.

(** The octets of each 64-bit lane are reversed by the last shuffle. *)
Definition sse2_gen_offset (k0 k1 k2 bot : Z) : bytes :=
  let lo0 := Z.lxor (sll_epi64 k0 bot) (srl_epi64 k1 (64 - bot)) in
  let lo1 := Z.lxor (sll_epi64 k1 bot) (srl_epi64 k2 (64 - bot)) in
  rev (le_store 8 lo0) ++ rev (le_store 8 lo1).

Definition sse2_double (bl : bytes) : bytes :=
  let mask := [1; 1; 1; 135] in
  let tmp := zip_with Z.land (lane_sign 32 <$> lanes32 bl) mask in
  let tmp := match tmp with [t0; t1; t2; t3] => [t3; t0; t1; t2] | _ => tmp end in
  of_lanes32 (zip_with Z.lxor (lane_shl 32 <$> lanes32 bl) tmp).

Definition Sse2Block : BlockOps := vector_block sse2_unequal (@rev Z) sse2_gen_offset sse2_double.

(** NEON. A negative count shifts to the right. *)
Definition vshl_u64 (x n : Z) : Z := if 64 <=? Z.abs n then 0 else if 0 <=? n then u64 (Z.shiftl x n) else Z.shiftr x (- n).

Definition neon_unequal (a b : bytes) : bool :=
  let t := octets_xor a b in negb (Z.lor (le_load (take 8 t)) (le_load (take 8 (drop 8 t))) =? 0).
Definition neon_gen_offset (k0 k1 k2 bot : Z) : bytes :=
  let rs := bot - 64 in
  rev (le_store 8 (Z.lxor (vshl_u64 k0 bot) (vshl_u64 k1 rs))) ++ rev (le_store 8 (Z.lxor (vshl_u64 k1 bot) (vshl_u64 k2 rs))).
Definition neon_double (b : bytes) : bytes :=
  let mask := 135 :: replicate 15 1 in
  let tmp := zip_with Z.land (lane_sign 8 <$> b) mask in
  let tmp := drop 1 tmp ++ take 1 tmp in
  octets_xor tmp (lane_shl 8 <$> b).

Definition NeonBlock : BlockOps := vector_block neon_unequal (fun b => b) neon_gen_offset neon_double.

(** ** Digits *)

Abbreviation digits w := (Forall (fun d => 0 <= d < 2 ^ w)).

Lemma lenZ_cons {A} (x : A) l : lenZ (x :: l) = 1 + lenZ l.
Proof. unfold lenZ. cbn [length]. lia. Qed.

Lemma pow_step w n : 0 <= w -> 0 <= n -> 2 ^ (w * (1 + n)) = 2 ^ w * 2 ^ (w * n).
Proof. intros Hw Hn. rewrite Z.mul_add_distr_l, Z.mul_1_r. apply Z.pow_add_r; nia. Qed.

Lemma dval_bound w l : 0 <= w -> digits w l -> 0 <= dval w l < 2 ^ (w * lenZ l).
Proof.
  intros Hw. induction 1 as [|d l Hd _ IH]; cbn [dval]; [change (lenZ (@nil Z)) with 0; rewrite Z.mul_0_r; lia|].
  rewrite lenZ_cons, pow_step by (done || apply lenZ_nonneg). nia.
Qed.

Lemma dval_app w l1 l2 : 0 <= w -> dval w (l1 ++ l2) = dval w l1 * 2 ^ (w * lenZ l2) + dval w l2.
Proof.
  intros Hw. induction l1 as [|d l1 IH]; cbn [dval app]; [done|]. rewrite IH, lenZ_app, Z.mul_add_distr_l.
  pose proof (lenZ_nonneg l1). pose proof (lenZ_nonneg l2). rewrite Z.pow_add_r by nia. ring.
Qed.

Lemma length_to_be n z : length (to_be n z) = n.
Proof. induction n as [|n IH]; cbn [to_be length]; by rewrite ?IH. Qed.
Lemma lenZ_to_be n z : lenZ (to_be n z) = Z.of_nat n.
Proof. unfold lenZ. by rewrite length_to_be. Qed.
Lemma to_be_octets n z : octets (to_be n z).
Proof. induction n; cbn [to_be]; constructor; [|done]. apply Z.mod_pos_bound. lia. Qed.

Lemma dval_to_be n z : dval 8 (to_be n z) = z mod 2 ^ (8 * Z.of_nat n).
Proof.
  induction n as [|n IH]; cbn [to_be dval]; [by rewrite Z.mod_1_r|]. rewrite IH, lenZ_to_be, Nat2Z.inj_succ.
  replace (8 * Z.succ (Z.of_nat n)) with (8 + 8 * Z.of_nat n) by lia. rewrite Z.pow_add_r by lia. set (m := 2 ^ (8 * Z.of_nat n)).
  assert (0 < m) by (apply Z.pow_pos_nonneg; lia). rewrite Z.mul_comm with (n := 2 ^ 8), Z.rem_mul_r by lia. change (2 ^ 8) with 256. ring.
Qed.

Lemma to_be_dval l : octets l -> to_be (length l) (dval 8 l) = l.
Proof.
  intros Hl. assert (H : forall l z, octets l -> to_be (length l) (z * 2 ^ (8 * lenZ l) + dval 8 l) = l).
  { clear. intros l z Hl. revert z. induction Hl as [|d l Hd Hl IH]; intros z; [done|]. cbn [length to_be dval].
    pose proof (dval_bound 8 l ltac:(lia) Hl) as Hb. change (Z.of_nat (length l)) with (lenZ l). rewrite lenZ_cons, pow_step by (lia || apply lenZ_nonneg).
    set (m := 2 ^ (8 * lenZ l)) in *. f_equal.
    - replace (z * (2 ^ 8 * m) + (d * m + dval 8 l)) with (dval 8 l + (z * 256 + d) * m) by ring.
      rewrite Z.div_add, (Z.div_small (dval 8 l)), Z.add_0_l by lia. unfold is_u8 in Hd. rewrite Z.add_comm, Z_mod_plus_full. by apply Z.mod_small.
    - replace (z * (2 ^ 8 * m) + (d * m + dval 8 l)) with ((z * 256 + d) * m + dval 8 l) by ring. apply IH. }
  apply (H l 0 Hl).
Qed.

Lemma dval_inj l1 l2 : octets l1 -> octets l2 -> length l1 = length l2 -> dval 8 l1 = dval 8 l2 -> l1 = l2.
Proof. intros H1 H2 Hl E. by rewrite <- (to_be_dval l1), <- (to_be_dval l2), Hl, E. Qed.

(** Exclusive or, digit by digit. *)
Lemma lxor_bound w a b : 0 <= w -> 0 <= a < 2 ^ w -> 0 <= b < 2 ^ w -> 0 <= Z.lxor a b < 2 ^ w.
Proof.
  intros Hw Ha Hb. split; [by apply Z.lxor_nonneg; lia|]. apply Z.lt_nge. intros H.
  assert (Hbits : forall x, 0 <= x < 2 ^ w -> x = x mod 2 ^ w) by (intros x Hx; by rewrite Z.mod_small).
  assert (E : Z.lxor a b = Z.lxor a b mod 2 ^ w).
  { apply Z.bits_inj'. intros i Hi. destruct (Z.lt_ge_cases i w); [by rewrite Z.mod_pow2_bits_low by lia|].
    rewrite Z.mod_pow2_bits_high, Z.lxor_spec, (Hbits a Ha), (Hbits b Hb), !Z.mod_pow2_bits_high by lia. done. }
  pose proof (Z.mod_pos_bound (Z.lxor a b) (2 ^ w)). lia.
Qed.

Lemma add_is_lxor k a x : 0 <= k -> 0 <= x < 2 ^ k -> a * 2 ^ k + x = Z.lxor (Z.shiftl a k) x.
Proof.
  intros Hk Hx. rewrite <- Z.shiftl_mul_pow2 by done. rewrite <- Z.add_nocarry_lxor; [done|].
  apply Z.bits_inj'. intros i Hi. rewrite Z.land_spec, Z.bits_0. destruct (Z.lt_ge_cases i k).
  - by rewrite Z.shiftl_spec_low.
  - rewrite <- (Z.mod_small x (2 ^ k)), Z.mod_pow2_bits_high by lia. apply andb_false_r.
Qed.

Lemma lxor_digit k a b x y : 0 <= k -> 0 <= x < 2 ^ k -> 0 <= y < 2 ^ k ->
  Z.lxor (a * 2 ^ k + x) (b * 2 ^ k + y) = Z.lxor a b * 2 ^ k + Z.lxor x y.
Proof.
  intros Hk Hx Hy. rewrite !add_is_lxor by (done || by apply lxor_bound). rewrite Z.shiftl_lxor.
  rewrite !Z.lxor_assoc. f_equal. rewrite <- !Z.lxor_assoc. f_equal. apply Z.lxor_comm.
Qed.

Lemma dval_lxor w a b : 0 <= w -> digits w a -> digits w b -> length a = length b ->
  dval w (zip_with Z.lxor a b) = Z.lxor (dval w a) (dval w b).
Proof.
  intros Hw Ha. revert b. induction Ha as [|x a Hx Ha IH]; intros b Hb Hl; destruct Hb as [|y b Hy Hb]; try done.
  cbn [zip_with dval]. injection Hl as Hl. assert (Hz : lenZ (zip_with Z.lxor a b) = lenZ a) by (unfold lenZ; rewrite length_zip_with; lia).
  assert (Hab : lenZ b = lenZ a) by (unfold lenZ; lia). rewrite Hz, Hab, IH by done. pose proof (dval_bound w a Hw Ha). pose proof (dval_bound w b Hw Hb). rewrite Hab in *.
  rewrite lxor_digit by (done || pose proof (lenZ_nonneg a); nia). done.
Qed.

Lemma octets_digits l : octets l -> digits 8 l.
Proof. done. Qed.

Lemma octets_xor_length a b : length a = length b -> length (octets_xor a b) = length a.
Proof. intros H. unfold octets_xor. rewrite length_zip_with. lia. Qed.

Lemma octets_xor_octets a b : octets a -> octets b -> octets (octets_xor a b).
Proof.
  intros Ha. revert b. induction Ha as [|x a Hx Ha IH]; intros b Hb; cbn; [done|]. destruct Hb as [|y b Hy Hb]; [done|].
  constructor; [by apply (lxor_bound 8)|by apply IH].
Qed.

(** ** Doubling *)

(** RFC 7253: doubling in the field of 2^128 elements. *)
Definition double (x : Z) : Z := Z.lxor ((x + x) mod 2 ^ 128) (if x <? 2 ^ 127 then 0 else 135).
Definition double_octets (o : bytes) : bytes := to_be 16 (double (dval 8 o)).

Definition lane_carry (w x : Z) : Z := if x <? 2 ^ (w - 1) then 0 else 1.

Lemma carry_is_div w x : 0 < w -> 0 <= x < 2 ^ w -> lane_carry w x = (x + x) / 2 ^ w.
Proof.
  intros Hw Hx. unfold lane_carry. assert (E : 2 ^ w = 2 * 2 ^ (w - 1)) by (rewrite <- Z.pow_succ_r by lia; f_equal; lia).
  destruct (Z.ltb_spec x (2 ^ (w - 1))); [by rewrite Z.div_small by lia|]. rewrite E in *. apply (Z.div_unique _ _ _ (x + x - 2 * 2 ^ (w - 1))); lia.
Qed.

(** The carry of a number is that of its first digit. *)
Lemma carry_first w d l : 0 < w -> digits w (d :: l) -> lane_carry w d = (dval w (d :: l) + dval w (d :: l)) / 2 ^ (w * lenZ (d :: l)).
Proof.
  intros Hw H. inversion H as [|? ? Hd Hl]; subst. rewrite (carry_is_div w d) by done. cbn [dval]. rewrite lenZ_cons, pow_step by (lia || apply lenZ_nonneg).
  pose proof (dval_bound w l ltac:(lia) Hl) as Hb. set (m := 2 ^ (w * lenZ l)) in *. set (x := dval w l) in *.
  assert (E : 2 ^ w = 2 * 2 ^ (w - 1)) by (rewrite <- Z.pow_succ_r by lia; f_equal; lia).
  rewrite <- (carry_is_div w d) by done. unfold lane_carry. rewrite E in *. destruct (Z.ltb_spec d (2 ^ (w - 1))).
  - symmetry. apply Z.div_small. nia.
  - apply (Z.div_unique _ _ _ (d * m + x + (d * m + x) - 2 * 2 ^ (w - 1) * m)); nia.
Qed.

Lemma lxor_bit w x c : 0 < w -> 0 <= x < 2 ^ w -> c = 0 \/ c = 1 -> Z.lxor (lane_shl w x) c = lane_shl w x + c.
Proof.
  intros Hw Hx Hc. unfold lane_shl. assert (E : 2 ^ w = 2 * 2 ^ (w - 1)) by (rewrite <- Z.pow_succ_r by lia; f_equal; lia).
  replace (x + x) with (2 * x) by lia. rewrite E, Z.mul_mod_distr_l by lia. set (y := x mod _).
  destruct Hc as [-> | ->]; [by rewrite Z.lxor_0_r, Z.add_0_r|]. rewrite <- Z.add_nocarry_lxor; [done|].
  change 1 with (Z.ones 1). rewrite Z.land_ones, Z.mul_comm by lia. apply Z.mod_mul. lia.
Qed.

(** All lanes doubled, with the carries moved one lane up and [c] brought in. *)
Lemma lanes_double w c ds : 0 < w -> digits w ds -> ds <> [] -> 0 <= c < 2 ^ w ->
  dval w (zip_with Z.lxor (lane_shl w <$> ds) ((lane_carry w <$> tail ds) ++ [c])) = Z.lxor ((dval w ds + dval w ds) mod 2 ^ (w * lenZ ds)) c.
Proof.
  intros Hw H. induction H as [|d l Hd Hl IH]; [done|]. intros _ Hc. destruct l as [|d' l].
  - cbn [tail fmap list_fmap app zip_with dval]. change (lenZ (@nil Z)) with 0. change (lenZ [d]) with 1.
    by rewrite Z.mul_0_r, Z.pow_0_r, !Z.mul_1_r, !Z.add_0_r.
  - specialize (IH ltac:(done) Hc). cbn [tail fmap list_fmap app] in *. set (ds := d' :: l) in *.
    set (rest := zip_with _ _ _) in IH.
    match goal with |- dval w ?x = _ => change x with (Z.lxor (lane_shl w d) (lane_carry w d') :: rest) end. cbn [dval]. assert (Hrest : lenZ rest = lenZ ds).
    { unfold rest, lenZ. rewrite length_zip_with, length_app. cbn [length fmap list_fmap]. rewrite !length_fmap. subst ds. cbn [length]. lia. }
    rewrite Hrest, IH. pose proof (dval_bound w ds ltac:(lia) Hl) as Hb. rewrite lenZ_cons, pow_step by (lia || apply lenZ_nonneg).
    rewrite (lxor_bit w d), (carry_first w d' l) by (done || unfold lane_carry; case_match; auto). fold ds.
    set (m := 2 ^ (w * lenZ ds)) in *. set (x := dval w ds) in *.
    assert (Hcm : c < m). { apply Z.lt_le_trans with (2 ^ w); [lia|]. subst m. apply Z.pow_le_mono_r; [lia|]. pose proof (lenZ_nonneg l). subst ds. rewrite lenZ_cons. nia. }
    assert (Hm : 0 < m) by lia.
    assert (E : (d * m + x + (d * m + x)) mod (2 ^ w * m) = ((d + d) mod 2 ^ w + (x + x) / m) * m + (x + x) mod m).
    { rewrite Z.mul_comm with (n := 2 ^ w). pose proof (Z.mod_pos_bound (x + x) m Hm) as Hmod. symmetry.
      apply (Z.mod_unique _ _ ((d + d) / 2 ^ w)); [left; split|].
      - pose proof (Z.mod_pos_bound (d + d) (2 ^ w) ltac:(lia)). pose proof (Z.div_pos (x + x) m ltac:(lia) Hm). nia.
      - assert ((x + x) / m <= 1) by (apply Z.lt_succ_r, Z.div_lt_upper_bound; lia).
        assert (Hev : (d + d) mod 2 ^ w <= 2 ^ w - 2).
        { pose proof (lxor_bit w d 1 Hw Hd ltac:(auto)) as Hx. unfold lane_shl in Hx. pose proof (Z.mod_pos_bound (d + d) (2 ^ w) ltac:(lia)).
          pose proof (lxor_bound w ((d + d) mod 2 ^ w) 1 ltac:(lia) ltac:(lia)) as Hbx. assert (2 ^ 1 <= 2 ^ w) by (apply Z.pow_le_mono_r; lia). lia. }
        nia.
      - pose proof (Z.div_mod (x + x) m ltac:(lia)). pose proof (Z.div_mod (d + d) (2 ^ w) ltac:(lia)). nia. }
    rewrite E. pose proof (lxor_digit (w * lenZ ds) ((d + d) mod 2 ^ w + (x + x) / m) 0 ((x + x) mod m) c) as Hx. fold m in Hx.
    rewrite Z.mul_0_l, Z.add_0_l, Z.lxor_0_r in Hx. symmetry. apply Hx; [pose proof (lenZ_nonneg ds); nia|by apply Z.mod_pos_bound|lia].
Qed.

(** ** What the platforms promise *)

(** A block that is in memory. *)
Definition block_wf `{BlockOps} (b : block) : Prop := octets16 (store b) /\ load (store b) = b.

(** 64 bits of a key stream of 192 bits, from bit [bot] on. *)
Definition stretch_offset (k0 k1 k2 bot : Z) : bytes := to_be 16 ((k0 * 2 ^ 128 + k1 * 2 ^ 64 + k2) / 2 ^ (64 - bot)).

Class BlockLaws `{BlockOps} : Prop := {
  store_load o : octets16 o -> store (load o) = o;
  xor_block_wf a b : block_wf a -> block_wf b -> block_wf (xor_block a b) /\ store (xor_block a b) = octets_xor (store a) (store b);
  zero_block_wf : block_wf zero_block /\ store zero_block = replicate 16 0;
  unequal_blocks_spec a b : block_wf a -> block_wf b -> unequal_blocks a b = negb (bool_decide (store a = store b));
  swap_if_le_wf b : block_wf b -> block_wf (swap_if_le b) /\ swap_if_le (swap_if_le b) = b;
  double_block_wf b : block_wf b -> block_wf (double_block b) /\ store (swap_if_le (double_block b)) = double_octets (store (swap_if_le b));
  gen_offset_wf k0 k1 k2 bot : is_u64 k0 -> is_u64 k1 -> is_u64 k2 -> 0 <= bot < 64 ->
    block_wf (gen_offset k0 k1 k2 bot) /\ store (gen_offset k0 k1 k2 bot) = stretch_offset k0 k1 k2 bot;
}.

Lemma octets16_xor a b : octets16 a -> octets16 b -> octets16 (octets_xor a b).
Proof. intros [La Ha] [Lb Hb]. split; [rewrite octets_xor_length; congruence|by apply octets_xor_octets]. Qed.
Lemma octets16_to_be z : octets16 (to_be 16 z).
Proof. split; [apply length_to_be|apply to_be_octets]. Qed.
Lemma octets16_zero : octets16 (replicate 16 0).
Proof. split; [done|]. by apply Forall_replicate. Qed.
Lemma octets16_rev o : octets16 o -> octets16 (rev o).
Proof. intros [L H]. split; [by rewrite length_rev|by apply Forall_rev]. Qed.

Lemma dval_double o : octets16 o -> 0 <= dval 8 o < 2 ^ 128.
Proof. intros [L H]. pose proof (dval_bound 8 o ltac:(lia) H) as Hb. unfold lenZ in Hb. by rewrite L in Hb. Qed.

Lemma double_bound x : 0 <= x < 2 ^ 128 -> 0 <= double x < 2 ^ 128.
Proof. intros Hx. apply lxor_bound; [lia|by apply Z.mod_pos_bound|case_match; lia]. Qed.

(** Doubling in lanes of [w] bits that together are the number. *)
Lemma lanes_double_octets w ds o out : 0 < w -> digits w ds -> ds <> [] -> w * lenZ ds = 128 -> dval w ds = dval 8 o -> 8 <= w -> octets16 out ->
  dval 8 out = dval w (zip_with Z.lxor (lane_shl w <$> ds) ((lane_carry w <$> tail ds) ++ [if dval w ds <? 2 ^ 127 then 0 else 135])) ->
  out = double_octets o.
Proof.
  intros Hw Hds Hne Hl Ho H8 [Lout Hout] E. assert (2 ^ 8 <= 2 ^ w) by (apply Z.pow_le_mono_r; lia).
  rewrite lanes_double, Hl, Ho in E by (done || case_match; lia). unfold double_octets.
  apply dval_inj; [done|apply to_be_octets|by rewrite length_to_be|]. rewrite dval_to_be, E. symmetry. apply Z.mod_small, double_bound. rewrite <- Ho.
  pose proof (dval_bound w ds ltac:(lia) Hds). by rewrite Hl in *.
Qed.

Lemma carry_top w d l : 0 < w -> digits w (d :: l) -> w * lenZ (d :: l) = 128 -> (if dval w (d :: l) <? 2 ^ 127 then 0 else 135) = (if d <? 2 ^ (w - 1) then 0 else 135).
Proof.
  intros Hw Hd Hl. pose proof (carry_first w d l Hw Hd) as E. pose proof (dval_bound w (d :: l) ltac:(lia) Hd) as Hb. rewrite Hl in *.
  unfold lane_carry in E. set (x := dval w (d :: l)) in *. destruct (Z.ltb_spec x (2 ^ 127)).
  - rewrite Z.div_small in E by lia. by destruct (d <? 2 ^ (w - 1)).
  - rewrite <- (Z.div_unique (x + x) (2 ^ 128) 1 (x + x - 2 ^ 128)) in E by lia. by destruct (d <? 2 ^ (w - 1)).
Qed.

(** *** Vector registers *)

Lemma lane_sign_mask w m x : 0 < w -> 0 <= m < 2 ^ w -> Z.land (lane_sign w x) m = if x <? 2 ^ (w - 1) then 0 else m.
Proof.
  intros Hw Hm. unfold lane_sign. destruct (_ <? _); [apply Z.land_0_l|]. rewrite Z.land_comm.
  replace (2 ^ w - 1) with (Z.ones w) by (rewrite Z.ones_equiv; lia). rewrite Z.land_ones by lia. by apply Z.mod_small.
Qed.

Lemma lane_sign_ones w l : 0 < w -> zip_with Z.land (lane_sign w <$> l) (replicate (length l) 1) = lane_carry w <$> l.
Proof.
  intros Hw. induction l as [|x l IH]; [done|]. cbn [length replicate fmap list_fmap zip_with]. rewrite lane_sign_mask; [f_equal; exact IH|done|].
  split; [lia|]. apply Z.pow_gt_1; lia.
Qed.

Lemma zip_with_comm_lxor (a b : list Z) : zip_with Z.lxor a b = zip_with Z.lxor b a.
Proof. revert b. induction a as [|x a IH]; intros [|y b]; cbn; [done..|]. by rewrite IH, Z.lxor_comm. Qed.

Lemma neon_double_spec b : octets16 b -> neon_double b = double_octets b.
Proof.
  intros [L H]. destruct b as [|x l]; [done|]. injection L as L. unfold neon_double, octets_xor. cbn [fmap list_fmap zip_with]. rewrite skipn_cons, firstn_cons.
  change (drop 0 ?y) with y. change (take 0 ?y) with (@nil Z). replace 15%nat with (length l) by done.
  rewrite lane_sign_ones, lane_sign_mask by (done || lia). rewrite zip_with_comm_lxor.
  apply (lanes_double_octets 8 (x :: l)); try done; [unfold lenZ; cbn [length]; by rewrite L| |].
  - split.
    + rewrite length_zip_with, length_app. cbn [length fmap list_fmap]. rewrite !length_fmap. lia.
    + change (octets (octets_xor (lane_shl 8 <$> x :: l) ((lane_carry 8 <$> l) ++ [if x <? 2 ^ (8 - 1) then 0 else 135]))).
      apply octets_xor_octets; [|apply Forall_app; split].
      * apply Forall_fmap. eapply Forall_impl; [exact H|]. intros y _. apply Z.mod_pos_bound. lia.
      * apply Forall_fmap. eapply Forall_impl; [exact (Forall_inv_tail H)|]. intros y _. unfold lane_carry, is_u8. cbn. case_match; lia.
      * apply Forall_singleton. unfold is_u8. case_match; lia.
  - rewrite (carry_top 8 x l) by (done || unfold lenZ; cbn [length]; by rewrite L). done.
Qed.

(** *** Offsets *)

Lemma to_be_app n m z : to_be (n + m) z = to_be n (z / 2 ^ (8 * Z.of_nat m)) ++ to_be m z.
Proof.
  induction n as [|n IH]; [done|]. cbn [Nat.add to_be app]. rewrite IH. f_equal. f_equal.
  rewrite Z.div_div by (try apply Z.pow_pos_nonneg; lia). rewrite <- Z.pow_add_r by lia. do 2 f_equal. lia.
Qed.

Lemma to_be_mod n z : to_be n (z mod 2 ^ (8 * Z.of_nat n)) = to_be n z.
Proof. apply dval_inj; [apply to_be_octets..|by rewrite !length_to_be|]. rewrite !dval_to_be. apply Z.mod_mod, Z.pow_nonzero; lia. Qed.

(** 64 bits of two words, from bit [bot] on. *)
Definition word_join (a b bot : Z) : Z := u64 (a * 2 ^ bot) + b / 2 ^ (64 - bot).

Lemma pow_64_split bot : 0 <= bot < 64 -> 2 ^ 64 = 2 ^ bot * 2 ^ (64 - bot).
Proof. intros H. rewrite <- Z.pow_add_r by lia. f_equal. lia. Qed.

Lemma u64_shift a bot : 0 <= bot < 64 -> u64 (a * 2 ^ bot) = a mod 2 ^ (64 - bot) * 2 ^ bot.
Proof.
  intros H. unfold u64. rewrite (pow_64_split bot H), (Z.mul_comm (2 ^ bot)), Z.mul_mod_distr_r; [done|apply Z.pow_nonzero; lia..].
Qed.

Lemma top_bits b bot : is_u64 b -> 0 <= bot < 64 -> 0 <= b / 2 ^ (64 - bot) < 2 ^ bot.
Proof.
  intros Hb H. unfold is_u64 in Hb. assert (0 < 2 ^ (64 - bot)) by (apply Z.pow_pos_nonneg; lia). split; [apply Z.div_pos; lia|].
  apply Z.div_lt_upper_bound; [done|]. rewrite Z.mul_comm, <- pow_64_split by done. lia.
Qed.

Lemma word_join_bound a b bot : is_u64 b -> 0 <= bot < 64 -> is_u64 (word_join a b bot).
Proof.
  intros Hb H. unfold word_join. rewrite u64_shift by done. pose proof (top_bits b bot Hb H).
  pose proof (Z.mod_pos_bound a (2 ^ (64 - bot)) ltac:(apply Z.pow_pos_nonneg; lia)). unfold is_u64. rewrite (pow_64_split bot H). nia.
Qed.

Lemma word_join_div a b bot : is_u64 b -> 0 <= bot < 64 -> word_join a b bot = (a * 2 ^ 64 + b) / 2 ^ (64 - bot) mod 2 ^ 64.
Proof.
  intros Hb H. assert (0 < 2 ^ (64 - bot)) by (apply Z.pow_pos_nonneg; lia).
  rewrite (pow_64_split bot H), Z.mul_assoc, Z.div_add_l by lia. rewrite <- (pow_64_split bot H).
  rewrite <- (Z.mod_small (word_join a b bot) (2 ^ 64)) by (by apply word_join_bound). unfold word_join, u64. by rewrite Zplus_mod_idemp_l.
Qed.

Lemma stretch_offset_words k0 k1 k2 bot : is_u64 k1 -> is_u64 k2 -> 0 <= bot < 64 ->
  stretch_offset k0 k1 k2 bot = to_be 8 (word_join k0 k1 bot) ++ to_be 8 (word_join k1 k2 bot).
Proof.
  intros H1 H2 H. unfold stretch_offset. rewrite (to_be_app 8 8). change (8 * Z.of_nat 8) with 64. assert (0 < 2 ^ (64 - bot)) by (apply Z.pow_pos_nonneg; lia).
  rewrite <- (to_be_mod 8 (_ / 2 ^ 64)), <- (to_be_mod 8 (_ / 2 ^ (64 - bot))). change (8 * Z.of_nat 8) with 64. rewrite !word_join_div by done. do 2 f_equal.
  - rewrite Z.div_div, (Z.mul_comm (2 ^ (64 - bot))), <- Z.div_div by lia.
    replace (k0 * 2 ^ 128 + k1 * 2 ^ 64 + k2) with ((k0 * 2 ^ 64 + k1) * 2 ^ 64 + k2) by lia. rewrite Z.div_add_l, (Z.div_small k2), Z.add_0_r by (done || lia). done.
  - replace (k0 * 2 ^ 128 + k1 * 2 ^ 64 + k2) with ((k1 * 2 ^ 64 + k2) + (k0 * 2 ^ bot * 2 ^ 64) * 2 ^ (64 - bot)).
    + rewrite Z.div_add by lia. apply Z_mod_plus_full.
    + replace (2 ^ 128) with (2 ^ 64 * (2 ^ bot * 2 ^ (64 - bot))) by (by rewrite <- pow_64_split). ring.
Qed.

Lemma join_lxor a b bot : is_u64 b -> 0 <= bot < 64 -> Z.lxor (u64 (Z.shiftl a bot)) (Z.shiftr b (64 - bot)) = word_join a b bot.
Proof.
  intros Hb H. unfold word_join. rewrite Z.shiftl_mul_pow2, Z.shiftr_div_pow2, u64_shift by lia.
  rewrite add_is_lxor by (lia || by apply top_bits). by rewrite Z.shiftl_mul_pow2 by lia.
Qed.

Lemma join_lor a b bot : is_u64 b -> 0 <= bot < 64 -> Z.lor (u64 (Z.shiftl a bot)) (Z.shiftr b (64 - bot)) = word_join a b bot.
Proof.
  intros Hb H. rewrite <- join_lxor by done. symmetry. apply Z.lxor_lor. rewrite Z.shiftl_mul_pow2, u64_shift by lia. rewrite Z.shiftr_div_pow2 by lia.
  pose proof (top_bits b bot Hb H) as Ht. apply Z.bits_inj'. intros i Hi. rewrite Z.land_spec, Z.bits_0. destruct (Z.lt_ge_cases i bot).
  - by rewrite Z.mul_pow2_bits_low.
  - rewrite <- (Z.mod_small (b / _) (2 ^ bot) Ht), Z.mod_pow2_bits_high by lia. apply andb_false_r.
Qed.

Lemma word_join_0 a b : is_u64 a -> is_u64 b -> word_join a b 0 = a.
Proof. intros Ha Hb. unfold word_join. rewrite Z.mul_1_r, u64_id, Z.div_small by done. lia. Qed.

Lemma rev_le_store n z : rev (le_store n z) = to_be n z.
Proof. apply rev_involutive. Qed.
Lemma le_load_store n z : le_load (le_store n z) = z mod 2 ^ (8 * Z.of_nat n).
Proof. unfold le_load. by rewrite rev_le_store, dval_to_be. Qed.
Lemma le_store_load o : octets o -> le_store (length o) (le_load o) = o.
Proof.
  intros H. unfold le_store, le_load. rewrite <- (length_rev o), to_be_dval; [apply rev_involutive|by apply Forall_rev].
Qed.
Lemma le_store_octets n z : octets (le_store n z).
Proof. apply Forall_rev, to_be_octets. Qed.
Lemma length_le_store n z : length (le_store n z) = n.
Proof. unfold le_store. by rewrite length_rev, length_to_be. Qed.
Lemma le_load_bound o : octets o -> 0 <= le_load o < 2 ^ (8 * lenZ o).
Proof.
  intros H. replace (lenZ o) with (lenZ (rev o)) by (unfold lenZ; by rewrite length_rev). apply dval_bound; [lia|]. by apply Forall_rev.
Qed.

Lemma octets16_words a b : octets16 (to_be 8 a ++ to_be 8 b).
Proof. split; [by rewrite length_app, !length_to_be|]. apply Forall_app. split; apply to_be_octets. Qed.

Lemma vector_wf (o : bytes) : octets16 o -> take 16 o = o.
Proof. intros [L _]. apply take_ge. lia. Qed.

Section vector.
Context (uneq : bytes -> bytes -> bool) (swap : bytes -> bytes) (gen : Z -> Z -> Z -> Z -> bytes) (dbl : bytes -> bytes).
Context (Huneq : forall a b, octets16 a -> octets16 b -> uneq a b = negb (bool_decide (a = b))).
Context (Hswap : forall b, octets16 b -> octets16 (swap b) /\ swap (swap b) = b).
Context (Hdbl : forall b, octets16 b -> octets16 (dbl b) /\ swap (dbl b) = double_octets (swap b)).
Context (Hgen : forall k0 k1 k2 bot, is_u64 k1 -> is_u64 k2 -> 0 <= bot < 64 -> gen k0 k1 k2 bot = stretch_offset k0 k1 k2 bot).

Lemma vector_block_wf (b : bytes) : block_wf (H := vector_block uneq swap gen dbl) b <-> octets16 b.
Proof. split; [by intros []|]. intros H. split; [done|by apply vector_wf]. Qed.

Lemma vector_laws : BlockLaws (H := vector_block uneq swap gen dbl).
Proof.
  split; intros; rewrite ?vector_block_wf in *; cbn [store load xor_block zero_block unequal_blocks swap_if_le double_block gen_offset vector_block].
  - by apply vector_wf.
  - split; [by apply octets16_xor|done].
  - split; [apply octets16_zero|done].
  - by apply Huneq.
  - by apply Hswap.
  - by apply Hdbl.
  - rewrite Hgen by done. split; [apply octets16_to_be|done].
Qed.
End vector.

Lemma dval_zeros n : dval 8 (replicate n 0) = 0.
Proof. induction n as [|n IH]; [done|]. cbn [replicate]. unfold dval. fold dval. by rewrite IH. Qed.
Lemma rev_replicate {A} n (x : A) : rev (replicate n x) = replicate n x.
Proof. rewrite rev_alt. apply reverse_replicate. Qed.
Lemma le_load_0 o : octets o -> le_load o = 0 <-> o = replicate (length o) 0.
Proof.
  intros H. split.
  - intros E. rewrite <- (rev_involutive o), <- rev_replicate, length_rev. f_equal. apply dval_inj; [by apply Forall_rev|by apply Forall_replicate|by rewrite length_rev, length_replicate|].
    by rewrite dval_zeros.
  - intros ->. unfold le_load. rewrite rev_replicate. apply dval_zeros.
Qed.
Lemma octets_xor_zero a b : length a = length b -> octets_xor a b = replicate (length a) 0 <-> a = b.
Proof.
  revert b. induction a as [|x a IH]; intros [|y b] Hl; try done. injection Hl as Hl. cbn. split.
  - intros [= E1%Z.lxor_eq E2]. f_equal; [done|]. by apply IH.
  - intros [= -> ->]. rewrite Z.lxor_nilpotent. f_equal. by apply IH.
Qed.

Lemma neon_unequal_spec a b : octets16 a -> octets16 b -> neon_unequal a b = negb (bool_decide (a = b)).
Proof.
  intros Ha Hb. pose proof (octets16_xor a b Ha Hb) as [L H]. unfold neon_unequal. set (t := octets_xor a b) in *. f_equal. apply eq_true_iff_eq.
  rewrite Z.eqb_eq, bool_decide_eq_true, Z.lor_eq_0_iff, (le_load_0 (take 8 t)), (le_load_0 (take 8 (drop 8 t))) by auto using Forall_take, Forall_drop.
  rewrite <- (octets_xor_zero a b) by (destruct Ha, Hb; congruence). fold t. rewrite (proj1 Ha), !length_take, length_drop, L. cbn [Nat.min Nat.sub].
  split; [|by intros ->]. intros [E1 E2]. rewrite <- (take_drop 8 t), E1. rewrite <- (take_ge (drop 8 t) 8), E2 by (rewrite length_drop; lia). done.
Qed.

Lemma neon_gen_offset_spec k0 k1 k2 bot : is_u64 k1 -> is_u64 k2 -> 0 <= bot < 64 -> neon_gen_offset k0 k1 k2 bot = stretch_offset k0 k1 k2 bot.
Proof.
  intros H1 H2 H. rewrite stretch_offset_words by done. unfold neon_gen_offset. cbv zeta. rewrite !rev_le_store.
  assert (Hj : forall a b, is_u64 b -> Z.lxor (vshl_u64 a bot) (vshl_u64 b (bot - 64)) = word_join a b bot).
  { intros a b Hb. rewrite <- join_lxor by done. unfold vshl_u64. rewrite (proj2 (Z.leb_gt 64 (Z.abs bot))), (proj2 (Z.leb_le 0 bot)) by lia. f_equal.
    destruct (Z.leb_spec 64 (Z.abs (bot - 64))) as [H0|H0].
    - replace bot with 0 by lia. by rewrite Z.shiftr_div_pow2, Z.div_small.
    - rewrite (proj2 (Z.leb_gt 0 _)) by lia. f_equal. lia. }
  by rewrite !Hj.
Qed.

#[export] Instance NeonLaws : BlockLaws (H := NeonBlock).
Proof.
  apply vector_laws; [apply neon_unequal_spec|done| |apply neon_gen_offset_spec].
  intros b Hb. rewrite neon_double_spec by done. split; [apply octets16_to_be|done].
Qed.

(** *** SSE2 *)

Lemma movemask_spec a b : length a = length b ->
  0 <= movemask_eq a b < 2 ^ lenZ a /\ (movemask_eq a b = 2 ^ lenZ a - 1 <-> a = b).
Proof.
  revert b. induction a as [|x a IH]; intros [|y b] Hl; try done. injection Hl as Hl. destruct (IH b Hl) as [Hb He].
  rewrite lenZ_cons, Z.pow_add_r by (lia || apply lenZ_nonneg). change (2 ^ 1) with 2.
  change (movemask_eq (x :: a) (y :: b)) with (2 * movemask_eq a b + (if x =? y then 1 else 0)). destruct (Z.eqb_spec x y) as [->|Hne].
  - split; [lia|]. split; [intros E; f_equal; apply He; lia|]. intros [= ->%He]. lia.
  - split; [lia|]. split; [lia|]. by intros [= ? _].
Qed.

Lemma sse2_unequal_spec a b : octets16 a -> octets16 b -> sse2_unequal a b = negb (bool_decide (a = b)).
Proof.
  intros [La _] [Lb _]. unfold sse2_unequal. f_equal. apply eq_true_iff_eq. rewrite Z.eqb_eq, bool_decide_eq_true.
  pose proof (movemask_spec a b ltac:(congruence)) as [_ <-]. unfold lenZ. by rewrite La.
Qed.

Lemma sse2_gen_offset_spec k0 k1 k2 bot : is_u64 k1 -> is_u64 k2 -> 0 <= bot < 64 -> sse2_gen_offset k0 k1 k2 bot = stretch_offset k0 k1 k2 bot.
Proof.
  intros H1 H2 H. rewrite stretch_offset_words by done. unfold sse2_gen_offset. cbv zeta. rewrite !rev_le_store.
  assert (Hj : forall a b, is_u64 b -> Z.lxor (sll_epi64 a bot) (srl_epi64 b (64 - bot)) = word_join a b bot).
  { intros a b Hb. rewrite <- join_lxor by done. unfold sll_epi64, srl_epi64. rewrite (proj2 (Z.ltb_lt bot 64)) by lia. f_equal.
    destruct (Z.ltb_spec (64 - bot) 64) as [H0|H0]; [done|]. replace bot with 0 by lia. by rewrite Z.shiftr_div_pow2, Z.div_small. }
  by rewrite !Hj.
Qed.

(** The register as four digits, and back. *)
Lemma lanes32_spec o : octets16 o -> exists a b c d, lanes32 o = [a; b; c; d] /\ digits 32 [d; c; b; a] /\ dval 32 [d; c; b; a] = dval 8 (rev o).
Proof.
  intros [L H]. set (p i := take 4 (drop i o)). exists (le_load (p 0%nat)), (le_load (p 4%nat)), (le_load (p 8%nat)), (le_load (p 12%nat)). split; [done|].
  assert (Hlen : forall i, (i + 4 <= 16)%nat -> lenZ (p i) = 4) by (intros i Hi; unfold p, lenZ; rewrite length_take, length_drop, L; lia).
  assert (Hb : forall i, (i + 4 <= 16)%nat -> 0 <= le_load (p i) < 2 ^ 32).
  { intros i Hi. pose proof (le_load_bound (p i) ltac:(apply Forall_take, Forall_drop, H)) as Hx. by rewrite Hlen in Hx. }
  split; [repeat (apply Forall_cons; split; [apply Hb; lia|]); apply Forall_nil_2|].
  assert (E : o = p 0%nat ++ p 4%nat ++ p 8%nat ++ p 12%nat).
  { unfold p. rewrite (take_ge (drop 12 o)) by (rewrite length_drop; lia). change (drop 0 o) with o.
    change (drop 4 o) with (drop (0 + 4) o). replace (drop 12 o) with (drop 4 (drop 8 o)) by (by rewrite drop_drop).
    rewrite take_drop. replace (drop 8 o) with (drop 4 (drop 4 o)) by (by rewrite drop_drop). change (0 + 4)%nat with 4%nat. by rewrite !take_drop. }
  apply (f_equal (@rev Z)) in E. rewrite E, !rev_app_distr, !dval_app by lia. assert (Hl : forall i, lenZ (rev (p i)) = lenZ (p i)) by (intros i; unfold lenZ; by rewrite length_rev).
  rewrite !Hl, !Hlen by lia. unfold le_load. cbn [dval]. unfold lenZ. cbn [length]. lia.
Qed.

Lemma sse2_double_spec b : octets16 b -> octets16 (sse2_double b) /\ rev (sse2_double b) = double_octets (rev b).
Proof.
  intros Hb. destruct (lanes32_spec b Hb) as (x0 & x1 & x2 & x3 & El & Hd & Ev). unfold sse2_double. rewrite El. cbv zeta. cbn [fmap list_fmap zip_with].
  rewrite !lane_sign_mask by lia. unfold of_lanes32. cbn [mbind list_bind zip_with]. rewrite app_nil_r.
  assert (H16 : forall a b c d, octets16 (le_store 4 a ++ le_store 4 b ++ le_store 4 c ++ le_store 4 d)).
  { intros a c d e. split; [by rewrite !length_app, !length_le_store|]. rewrite !Forall_app. split_and!; apply le_store_octets. }
  split; [apply H16|]. apply (lanes_double_octets 32 [x3; x2; x1; x0]); try done; [apply octets16_rev, H16|].
  rewrite (carry_top 32 x3 [x2; x1; x0]) by done. rewrite !rev_app_distr, !rev_le_store, !dval_app, !dval_to_be, !lenZ_to_be by lia.
  cbn [zip_with fmap list_fmap tail app dval]. unfold lenZ. cbn [length].
  assert (Hm : forall x c, 0 <= c < 2 ^ 32 -> Z.lxor (lane_shl 32 x) c mod 2 ^ (8 * Z.of_nat 4) = Z.lxor (lane_shl 32 x) c).
  { intros x c Hc. apply Z.mod_small, (lxor_bound 32); [lia|by apply Z.mod_pos_bound|done]. }
  rewrite !Hm by (unfold lane_carry; case_match; lia). unfold lane_carry. lia.
Qed.

#[export] Instance Sse2Laws : BlockLaws (H := Sse2Block).
Proof.
  apply vector_laws; [apply sse2_unequal_spec| |apply sse2_double_spec|apply sse2_gen_offset_spec].
  intros b Hb. split; [by apply octets16_rev|apply rev_involutive].
Qed.

(** *** Portable C *)

Lemma bswap64_store x : le_store 8 (bswap64 x) = to_be 8 x.
Proof. unfold bswap64. rewrite <- (length_to_be 8 x) at 1. apply le_store_load, to_be_octets. Qed.
Lemma bswap64_u64 x : is_u64 (bswap64 x).
Proof. unfold bswap64. pose proof (le_load_bound (to_be 8 x) (to_be_octets 8 x)) as H. by rewrite lenZ_to_be in H. Qed.
Lemma bswap64_twice x : is_u64 x -> bswap64 (bswap64 x) = x.
Proof.
  intros Hx. unfold bswap64 at 1. unfold le_load. change (rev (to_be 8 (bswap64 x))) with (le_store 8 (bswap64 x)).
  rewrite bswap64_store, dval_to_be. by apply Z.mod_small.
Qed.

Definition words_ok (b : words) : Prop := is_u64 (bl_l b) /\ is_u64 (bl_r b).

Lemma portable_wf b : words_ok b <-> block_wf (H := PortableBlock) b.
Proof.
  split.
  - intros [Hl Hr]. split; cbn [store load PortableBlock].
    + split; [unfold portable_store; by rewrite length_app, !length_le_store|]. apply Forall_app. split; apply le_store_octets.
    + unfold portable_store, portable_load. rewrite take_app_length', drop_app_length' by (by rewrite length_le_store).
      rewrite take_ge by (rewrite length_le_store; lia). rewrite !le_load_store. destruct b as [l r]. cbn in *. f_equal; by apply Z.mod_small.
  - intros [[L H] E]. cbn [store load PortableBlock] in *. rewrite <- E. unfold portable_load, words_ok. cbn [bl_l bl_r].
    assert (Hw : forall o, octets o -> length o = 8%nat -> is_u64 (le_load o)).
    { intros o Ho Hlo. pose proof (le_load_bound o Ho) as Hx. unfold lenZ in Hx. by rewrite Hlo in Hx. }
    split; (apply Hw; [auto using Forall_take, Forall_drop|]); rewrite length_take, ?length_drop, L; done.
Qed.

Lemma portable_swap_store b : portable_store (portable_swap b) = to_be 8 (bl_l b) ++ to_be 8 (bl_r b).
Proof. unfold portable_store, portable_swap. cbn [bl_l bl_r]. by rewrite !bswap64_store. Qed.

Lemma portable_words b : words_ok b -> digits 64 [bl_l b; bl_r b] /\ dval 64 [bl_l b; bl_r b] = dval 8 (to_be 8 (bl_l b) ++ to_be 8 (bl_r b)).
Proof.
  intros [Hl Hr]. split; [repeat (apply Forall_cons; split; [done|]); apply Forall_nil_2|]. rewrite dval_app, !dval_to_be, lenZ_to_be by lia. rewrite !Z.mod_small by done.
  cbn [dval]. unfold lenZ. cbn [length]. lia.
Qed.

Lemma portable_double_eq b : words_ok b -> portable_double b =
  MkWords (Z.lxor (lane_shl 64 (bl_l b)) (lane_carry 64 (bl_r b))) (Z.lxor (lane_shl 64 (bl_r b)) (if bl_l b <? 2 ^ 63 then 0 else 135)).
Proof.
  intros [Hl Hr]. unfold portable_double. f_equal; f_equal.
  - rewrite Z.shiftr_div_pow2 by lia. unfold lane_carry, is_u64 in *. change (2 ^ (64 - 1)) with (2 ^ 63). destruct (Z.ltb_spec (bl_r b) (2 ^ 63)).
    + apply Z.div_small. lia.
    + symmetry. apply (Z.div_unique _ _ _ (bl_r b - 2 ^ 63)); lia.
  - exact (lane_sign_mask 64 135 (bl_l b) ltac:(lia) ltac:(lia)).
Qed.

Lemma portable_double_spec b : words_ok b -> words_ok (portable_double b) /\
  portable_store (portable_swap (portable_double b)) = double_octets (portable_store (portable_swap b)).
Proof.
  intros Hb. rewrite (portable_double_eq b Hb). set (b' := MkWords _ _).
  assert (Hb' : words_ok b').
  { split; apply (lxor_bound 64); try lia; try (apply Z.mod_pos_bound; lia); unfold lane_carry; case_match; lia. }
  split; [done|]. rewrite !portable_swap_store. destruct (portable_words b Hb) as [Hd E]. destruct (portable_words b' Hb') as [_ E'].
  apply (lanes_double_octets 64 [bl_l b; bl_r b]); try done; [apply octets16_words|]. rewrite <- E', (carry_top 64 (bl_l b) [bl_r b]) by done. done.
Qed.

Lemma rev_zip_with (a b : bytes) : length a = length b -> rev (zip_with Z.lxor a b) = zip_with Z.lxor (rev a) (rev b).
Proof.
  revert b. induction a as [|x a IH]; intros [|y b] Hl; try done. injection Hl as Hl. cbn. rewrite IH by done. by rewrite zip_with_app by (by rewrite !length_rev).
Qed.

Lemma le_store_lxor x y : is_u64 x -> is_u64 y -> le_store 8 (Z.lxor x y) = octets_xor (le_store 8 x) (le_store 8 y).
Proof.
  intros Hx Hy. unfold octets_xor, le_store. rewrite <- rev_zip_with by (by rewrite !length_to_be). f_equal.
  apply dval_inj; [apply to_be_octets|apply (octets_xor_octets (to_be 8 x) (to_be 8 y)); apply to_be_octets|rewrite length_zip_with, !length_to_be; done|].
  rewrite dval_lxor, !dval_to_be by (lia || apply to_be_octets || by rewrite !length_to_be). rewrite !Z.mod_small; try done. by apply (lxor_bound 64).
Qed.

Lemma portable_unequal_spec a b : words_ok a -> words_ok b -> portable_unequal a b = negb (bool_decide (portable_store a = portable_store b)).
Proof.
  intros Ha%portable_wf Hb%portable_wf. unfold portable_unequal. f_equal. apply eq_true_iff_eq. rewrite Z.eqb_eq, bool_decide_eq_true, Z.lor_eq_0_iff, !Z.lxor_eq_0_iff. split.
  - destruct a, b. cbn. by intros [-> ->].
  - intros E. destruct Ha as [_ <-], Hb as [_ <-]. cbn [store load PortableBlock]. by rewrite E.
Qed.

Lemma portable_gen_offset_spec k0 k1 k2 bot : is_u64 k0 -> is_u64 k1 -> is_u64 k2 -> 0 <= bot < 64 ->
  words_ok (portable_gen_offset k0 k1 k2 bot) /\ portable_store (portable_gen_offset k0 k1 k2 bot) = stretch_offset k0 k1 k2 bot.
Proof.
  intros H0 H1 H2 H. rewrite stretch_offset_words by done. unfold portable_gen_offset. rewrite portable_swap_store. split; [split; apply bswap64_u64|].
  destruct (Z.eqb_spec bot 0) as [->|Hne]; cbn [negb bl_l bl_r]; [by rewrite !word_join_0|]. by rewrite !join_lor.
Qed.

#[export] Instance PortableLaws : BlockLaws (H := PortableBlock).
Proof.
  split; intros; rewrite <- ?portable_wf in *; cbn [store load xor_block zero_block unequal_blocks swap_if_le double_block gen_offset PortableBlock].
  - destruct H as [L H]. unfold portable_store, portable_load. cbn [bl_l bl_r].
    assert (Hw : forall p, octets p -> length p = 8%nat -> le_store 8 (le_load p) = p) by (intros p Hp E; rewrite <- E at 1; by apply le_store_load).
    rewrite (take_ge (drop 8 o)) by (rewrite length_drop; lia). rewrite !Hw, take_drop; auto using Forall_take, Forall_drop; [by rewrite length_drop, L|by rewrite length_take, L].
  - destruct H as [Ha Ha'], H0 as [Hb Hb']. split; [split; by apply (lxor_bound 64)|].
    unfold portable_store, portable_xor. cbn [bl_l bl_r]. rewrite !le_store_lxor by done. unfold octets_xor. by rewrite zip_with_app by (by rewrite !length_le_store).
  - split; [done|]. by vm_compute.
  - by apply portable_unequal_spec.
  - split; [split; apply bswap64_u64|]. destruct b, H. cbn in *. unfold portable_swap. cbn [bl_l bl_r]. by rewrite !bswap64_twice.
  - by apply portable_double_spec.
  - by apply portable_gen_offset_spec.
Qed.

(** ** The intrinsics' replacements *)

Lemma land_neg_pow p : Z.land (Zpos p) (- Zpos p) = 2 ^ pos_ntz p.
Proof.
  induction p as [p _|p IH|]; [| |done].
  - cbn [pos_ntz]. change (2 ^ 0) with 1. replace (- Z.pos p~1) with (Z.lnot (Z.pos p~0)) by (unfold Z.lnot; lia).
    apply Z.bits_inj'. intros i Hi. rewrite Z.land_spec, Z.lnot_spec by done. destruct (Z.eq_dec i 0) as [->|Hne]; [done|].
    rewrite (Pos2Z.inj_xI p), (Pos2Z.inj_xO p). replace i with (Z.succ (Z.pred i)) by lia.
    rewrite Z.testbit_odd_succ, Z.testbit_even_succ by lia. rewrite andb_negb_r. symmetry. apply (Z.pow2_bits_false 0). lia.
  - cbn [pos_ntz]. rewrite Z.pow_add_r, <- IH by (try lia; clear; induction p; cbn [pos_ntz]; lia). rewrite (Pos2Z.inj_xO p).
    replace (- (2 * Z.pos p)) with (2 * - Z.pos p) by lia. rewrite !(Z.mul_comm 2), <- !(Z.shiftl_mul_pow2 _ 1 ltac:(lia) : Z.shiftl _ 1 = _ * 2). by rewrite <- Z.shiftl_land.
Qed.

Lemma pos_ntz_bound p n : 0 <= n -> Zpos p < 2 ^ n -> 0 <= pos_ntz p < n.
Proof.
  revert n. induction p as [p IH|p IH|]; intros n Hn Hp; cbn [pos_ntz].
  1,3: destruct (Z.eq_dec n 0) as [->|]; [cbn in Hp|]; lia.
  assert (n <> 0) by (intros ->; cbn in Hp; lia). pose proof (IH (n - 1) ltac:(lia)) as IHn.
  assert (E : 2 ^ n = 2 * 2 ^ (n - 1)) by (rewrite <- Z.pow_succ_r by lia; f_equal; lia). lia.
Qed.

Lemma ntz_bound x n : 0 <= n -> 0 < x < 2 ^ n -> 0 <= ntz x < n.
Proof. intros Hn Hx. destruct x as [|p|p]; [lia| |lia]. apply pos_ntz_bound; lia. Qed.

(** The table of the multiplicative hash gives the trailing zeros. *)
Theorem ntz_debruijn_spec x : 0 < x < 2 ^ 32 -> ntz_debruijn x = Ok (ntz x).
Proof.
  intros Hx. pose proof (ntz_bound x 32 ltac:(lia) Hx) as Hn. destruct x as [|p|p]; [lia| |lia]. unfold ntz_debruijn.
  assert (E : Z.land (Zpos p) (u32 (- Zpos p)) = 2 ^ ntz (Zpos p)).
  { cbn [ntz] in *. unfold u32. rewrite <- (Z.land_ones _ 32), Z.land_assoc, land_neg_pow, Z.land_ones by lia.
    apply Z.mod_small. split; [apply Z.pow_nonneg; lia|apply Z.pow_lt_mono_r; lia]. }
  rewrite E. revert Hn. generalize (ntz (Zpos p)). intros n Hn.
  assert (Hall : forall i, 0 <= i < 32 -> (match at_ tz_table (Z.shiftr (u32 (2 ^ i * 0x077CB531)) 27) with Ok y => y =? i | Err _ => false end) = true).
  { apply (forall_range _ 32). by vm_compute. }
  specialize (Hall n Hn). destruct (at_ _ _) as [y|]; [|done]. apply Z.eqb_eq in Hall. by subst.
Qed.

Lemma lor_add k a d : 0 <= k -> 0 <= a < 2 ^ k -> Z.lor a (d * 2 ^ k) = d * 2 ^ k + a.
Proof.
  intros Hk Ha. rewrite add_is_lxor by done. rewrite <- Z.shiftl_mul_pow2, Z.lor_comm by done. symmetry. apply Z.lxor_lor.
  apply Z.bits_inj'. intros i Hi. rewrite Z.land_spec, Z.bits_0. destruct (Z.lt_ge_cases i k); [by rewrite Z.shiftl_spec_low|].
  rewrite <- (Z.mod_small a (2 ^ k)), Z.mod_pow2_bits_high by lia. apply andb_false_r.
Qed.

(** The octet at bit [k], masked in place. *)
Lemma mask_octet x k : 0 <= k -> Z.land x (255 * 2 ^ k) = (x / 2 ^ k) mod 256 * 2 ^ k.
Proof.
  intros Hk. change 256 with (2 ^ 8). rewrite <- Z.land_ones, <- !Z.shiftl_mul_pow2, <- Z.shiftr_div_pow2 by lia. change (Z.ones 8) with 255.
  apply Z.bits_inj'. intros i Hi. rewrite !Z.shiftl_spec, !Z.land_spec by lia. rewrite Z.shiftl_spec by lia. destruct (Z.lt_ge_cases i k).
  - by rewrite !(Z.testbit_neg_r _ (i - k)), !andb_false_r by lia.
  - rewrite Z.shiftr_spec by lia. by replace (i - k + k) with i by lia.
Qed.

Lemma bswap32_spec x : 0 <= x < 2 ^ 32 -> bswap32 x = le_load (to_be 4 x).
Proof.
  intros Hx. unfold bswap32, le_load, u32. rewrite (mask_octet x 24 ltac:(lia) : Z.land x 0xff000000 = _), (mask_octet x 16 ltac:(lia) : Z.land x 0x00ff0000 = _),
    (mask_octet x 8 ltac:(lia) : Z.land x 0x0000ff00 = _), (mask_octet x 0 ltac:(lia) : Z.land x 0x000000ff = _).
  change (rev (to_be 4 x)) with [x / 2 ^ 0 mod 256; x / 2 ^ 8 mod 256; x / 2 ^ 16 mod 256; x / 2 ^ 24 mod 256]. cbn [dval]. unfold lenZ. cbn [length].
  assert (Hd : forall k, 0 <= x / 2 ^ k mod 256 < 256) by (intros k; apply Z.mod_pos_bound; lia).
  pose proof (Hd 0). pose proof (Hd 8). pose proof (Hd 16). pose proof (Hd 24). set (d0 := x / 2 ^ 0 mod 256) in *. set (d1 := x / 2 ^ 8 mod 256) in *.
  set (d2 := x / 2 ^ 16 mod 256) in *. set (d3 := x / 2 ^ 24 mod 256) in *.
  rewrite !Z.shiftl_mul_pow2, !Z.shiftr_div_pow2 by lia. rewrite Z.div_mul, (Z.mod_small (d1 * 2 ^ 8 * 2 ^ 8)), (Z.mod_small (d0 * 2 ^ 0 * 2 ^ 24)) by lia.
  replace (d2 * 2 ^ 16 / 2 ^ 8) with (d2 * 2 ^ 8) by (apply Z.div_unique_exact; lia).
  replace (d1 * 2 ^ 8 * 2 ^ 8) with (d1 * 2 ^ 16) by lia. replace (d0 * 2 ^ 0 * 2 ^ 24) with (d0 * 2 ^ 24) by lia.
  rewrite (lor_add 8), (lor_add 16), (lor_add 24) by lia. lia.
Qed.

Lemma bswap64_union_spec x : is_u64 x -> bswap64_union x = bswap64 x.
Proof.
  intros Hx. unfold bswap64_union, bswap64, le_load. cbv zeta. rewrite !bswap32_spec by (apply Z.mod_pos_bound; lia).
  rewrite (to_be_app 4 4), rev_app_distr, dval_app by lia. change (8 * Z.of_nat 4) with 32. replace (lenZ (rev _)) with 4 by (unfold lenZ; by rewrite length_rev, length_to_be).
  unfold u32. rewrite !(to_be_mod 4 : forall z, to_be 4 (z mod 2 ^ 32) = _), Z.shiftl_mul_pow2, Z.shiftr_div_pow2 by lia. unfold le_load. lia.
Qed.
