(* ===== verification/Ocb.v ===== *)
(** * The cipher mode (crypto/ocb_internal.cc)

    [ae_init], [ae_encrypt] and [ae_decrypt] over the blocks of Block.v, as
    configured in the source: 16-octet keys and tags, four blocks at a time, a
    table of 16 L values.  AES is a class; the calls into it succeed. *)
From S2P Require Export Block.

(** One block through AES with a key ([ocb_aes::encrypt], [ocb_aes::decrypt]). *)
Class BlockCipher : Type := {
  aes_encrypt : bytes -> bytes -> bytes;
  aes_decrypt : bytes -> bytes -> bytes;
}.

Definition AE_SUCCESS : Z := 0.
Definition AE_INVALID : Z := -1.
Definition AE_NOT_SUPPORTED : Z := -2.

Definition OCB_KEY_LEN : Z := 16.
Definition OCB_TAG_LEN : Z := 16.
Definition L_TABLE_SZ : Z := 16.
Definition BPI : Z := 4.

Section ocb.
Context `{BlockOps} `{BlockCipher}.

(** The words of [KtopStr] are separate fields. *)
Record ae_ctx : Type := MkCtx {
  offset : block; checksum : block; Lstar : block; Ldollar : block; L : list block;
  ad_checksum : block; ad_offset : block; cached_Top : block; KtopStr0 : Z; KtopStr1 : Z; KtopStr2 : Z;
  ad_blocks_processed : Z; blocks_processed : Z; decrypt_key : bytes; encrypt_key : bytes }.
#[export] Instance eta_ae_ctx : Eta ae_ctx :=
  fun c => MkCtx (offset c) (checksum c) (Lstar c) (Ldollar c) (L c) (ad_checksum c) (ad_offset c) (cached_Top c)
    (KtopStr0 c) (KtopStr1 c) (KtopStr2 c) (ad_blocks_processed c) (blocks_processed c) (decrypt_key c) (encrypt_key c).

(** [ecb_encrypt_blks] and [ecb_decrypt_blks] go from the last block to the
    first, in place. *)
Definition encrypt_block (key : bytes) (b : block) : block := load (aes_encrypt key (store b)).
Definition decrypt_block (key : bytes) (b : block) : block := load (aes_decrypt key (store b)).
Definition ecb_encrypt_blks (blks : list block) (key : bytes) : list block := encrypt_block key <$> blks.
Definition ecb_decrypt_blks (blks : list block) (key : bytes) : list block := decrypt_block key <$> blks.

(** [getL] with a table that is large enough. *)
Definition getL (c : ae_ctx) (tz : Z) : result fault block := at_ (L c) tz.

(** The doubled values, register correct in [tmp_blk], memory correct in the
    table. *)
Fixpoint L_table (n : nat) (tmp_blk : block) : list block :=
  match n with
  | O => []
  | S n' => swap_if_le tmp_blk :: L_table n' (double_block tmp_blk)
  end.

(** [ae_init]; what is not set keeps what the memory held. *)
Definition ae_init (key : bytes) (nonce_len : Z) (c : ae_ctx) : Z * ae_ctx :=
  if negb (nonce_len =? 12) then (AE_NOT_SUPPORTED, c) else
  let c := c <| decrypt_key := take (Z.to_nat OCB_KEY_LEN) key |> <| encrypt_key := take (Z.to_nat OCB_KEY_LEN) key |> in
  let c := c <| ad_checksum := zero_block |> <| cached_Top := zero_block |> <| ad_blocks_processed := 0 |> in
  let c := c <| Lstar := encrypt_block (encrypt_key c) (cached_Top c) |> in
  let tmp_blk := double_block (swap_if_le (Lstar c)) in
  let c := c <| Ldollar := swap_if_le tmp_blk |> in
  (AE_SUCCESS, c <| L := L_table (Z.to_nat L_TABLE_SZ) (double_block tmp_blk) |>).

(** [ae_clear]: the memory is zeroed, the keys are freed. *)
Definition ae_clear (c : ae_ctx) : Z * ae_ctx :=
  let z := load (replicate 16 0) in
  (AE_SUCCESS, MkCtx z z z z (replicate (Z.to_nat L_TABLE_SZ) z) z z z 0 0 0 0 0 [] []).

(** [gen_offset_from_nonce]: the block is cached but for its last six bits. *)
Definition gen_offset_from_nonce (nonce : bytes) (c : ae_ctx) : block * ae_ctx :=
  let tmp := [0; 0; 0; 1] ++ take 12 nonce in
  let u15 := nth 15 tmp 0 in
  let idx := Z.land u15 0x3f in
  let tmp := take 15 tmp ++ [Z.land u15 0xc0] in
  let c :=
    if unequal_blocks (load tmp) (cached_Top c) then
      let ktop := aes_encrypt (encrypt_key c) tmp in
      let k0 := bswap64 (le_load (take 8 ktop)) in
      let k1 := bswap64 (le_load (take 8 (drop 8 ktop))) in
      c <| cached_Top := load tmp |> <| KtopStr0 := k0 |> <| KtopStr1 := k1 |>
        <| KtopStr2 := Z.lxor (Z.lxor k0 (u64 (Z.shiftl k0 8))) (Z.shiftr k1 56) |>
    else c in
  (gen_offset (KtopStr0 c) (KtopStr1 c) (KtopStr2 c) idx, c).

(** Block [k] at a pointer. *)
Definition block_at (p : bytes) (k : nat) : block := load (take 16 (drop (16 * k) p)).

(** *** Associated data *)

(** [i] groups of four blocks. *)
Fixpoint ad_groups (i : nat) (c : ae_ctx) (adp : bytes) (ad_block_num : Z) (offset checksum : block)
  : result fault (bytes * Z * block * block) :=
  match i with
  | O => Ok (adp, ad_block_num, offset, checksum)
  | S i' =>
      let ad_block_num := u32 (ad_block_num + BPI) in
      l0 ← getL c 0; l1 ← getL c 1;
      let oa0 := xor_block offset l0 in let ta0 := xor_block oa0 (block_at adp 0) in
      let oa1 := xor_block oa0 l1 in let ta1 := xor_block oa1 (block_at adp 1) in
      let oa2 := xor_block offset l1 in let ta2 := xor_block oa2 (block_at adp 2) in
      lt ← getL c (ntz ad_block_num);
      let offset := xor_block oa2 lt in let ta3 := xor_block offset (block_at adp 3) in
      let ta := ecb_encrypt_blks [ta0; ta1; ta2; ta3] (encrypt_key c) in
      let checksum := foldl xor_block checksum ta in
      ad_groups i' c (drop 64 adp) ad_block_num offset checksum
  end.

(** The rest of the data: [ta] holds the blocks to encrypt. *)
Definition ad_rest (c : ae_ctx) (adp : bytes) (remaining : Z) (offset checksum : block) : result fault block :=
  '(offset, ta, remaining) ←
    (if 32 <=? remaining then
       l0 ← getL c 0;
       let offset := xor_block offset l0 in
       let t0 := xor_block offset (block_at adp 0) in
       l1 ← getL c (ntz 2);
       let offset := xor_block offset l1 in
       let t1 := xor_block offset (block_at adp 1) in
       Ok (offset, [t0; t1], remaining - 32)
     else Ok (offset, [], remaining));
  '(offset, ta, remaining) ←
    (if 16 <=? remaining then
       l0 ← getL c 0;
       let offset := xor_block offset l0 in
       Ok (offset, ta ++ [xor_block offset (block_at adp (length ta))], remaining - 16)
     else Ok (offset, ta, remaining));
  let ta :=
    if negb (remaining =? 0) then
      let offset := xor_block offset (Lstar c) in
      let tmp := take (Z.to_nat remaining) (drop (16 * length ta) adp) ++ [0x80] ++ replicate (15 - Z.to_nat remaining) 0 in
      ta ++ [xor_block offset (load tmp)]
    else ta in
  (* the switch adds the last block first *)
  Ok (foldr (fun t s => xor_block s t) checksum (ecb_encrypt_blks ta (encrypt_key c))).

Definition process_ad (ad : bytes) (final : bool) (c : ae_ctx) : result fault ae_ctx :=
  let i := Z.to_nat (lenZ ad / (BPI * 16)) in
  '(adp, num, off, sum) ← ad_groups i c ad (ad_blocks_processed c) (ad_offset c) (ad_checksum c);
  let c := if bool_decide (i = O) then c
           else c <| ad_blocks_processed := num |> <| ad_offset := off |> <| ad_checksum := sum |> in
  let remaining := lenZ ad mod (BPI * 16) in
  if final && negb (remaining =? 0) then
    sum ← ad_rest c adp remaining off sum;
    Ok (c <| ad_checksum := sum |>)
  else Ok c.

(** *** Encryption *)

(** The start of a message; [None] for [ad] is a negative [ad_len]. *)
Definition start_message (nonce ad : option bytes) (c : ae_ctx) : ae_ctx :=
  match nonce with
  | None => c
  | Some n =>
      let '(o, c) := gen_offset_from_nonce n c in
      let c := c <| offset := o |> <| checksum := zero_block |> <| ad_offset := zero_block |>
                 <| blocks_processed := 0 |> <| ad_blocks_processed := 0 |> in
      match ad with Some _ => c <| ad_checksum := zero_block |> | None => c end
  end.

Definition process_any_ad (ad : option bytes) (final : bool) (c : ae_ctx) : result fault ae_ctx :=
  match ad with
  | Some a => if bool_decide (a = []) then Ok c else process_ad a final c
  | None => Ok c
  end.

(** The offsets of the next four blocks. *)
Definition four_offsets (c : ae_ctx) (offset : block) (block_num : Z) : result fault (list block) :=
  l0 ← getL c 0; l1 ← getL c 1;
  let oa0 := xor_block offset l0 in
  let oa1 := xor_block oa0 l1 in
  let oa2 := xor_block oa1 l0 in
  lt ← getL c (ntz block_num);
  Ok [oa0; oa1; oa2; xor_block oa2 lt].

(** [i] groups; [ct] is what has been written. *)
Fixpoint encrypt_groups (i : nat) (c : ae_ctx) (ptp ct : bytes) (block_num : Z) (offset checksum : block)
  : result fault (bytes * bytes * Z * block * block) :=
  match i with
  | O => Ok (ptp, ct, block_num, offset, checksum)
  | S i' =>
      let block_num := u32 (block_num + BPI) in
      oa ← four_offsets c offset block_num;
      let pt := block_at ptp <$> [0; 1; 2; 3]%nat in
      let checksum := foldl xor_block checksum pt in
      let ta := ecb_encrypt_blks (zip_with xor_block oa pt) (encrypt_key c) in
      let ctp := zip_with xor_block ta oa in
      encrypt_groups i' c (drop 64 ptp) (ct ++ (ctp ≫= store)) block_num (List.last oa offset) checksum
  end.

(** The offsets of the whole blocks that are left: at most three. *)
Definition rest_offsets (c : ae_ctx) (remaining : Z) (offset : block) : result fault (list block * Z) :=
  '(oa, remaining) ←
    (if 32 <=? remaining then
       l0 ← getL c 0; l1 ← getL c 1;
       let oa0 := xor_block offset l0 in
       Ok ([oa0; xor_block oa0 l1], remaining - 32)
     else Ok ([], remaining));
  if 16 <=? remaining then
    l0 ← getL c 0;
    Ok (oa ++ [xor_block (List.last oa offset) l0], remaining - 16)
  else Ok (oa, remaining).

(** The end of a message: the octets written and the tag. *)
Definition encrypt_rest (c : ae_ctx) (ptp : bytes) (remaining : Z) (offset checksum : block) : result fault (bytes * block) :=
  '(oa, remaining) ← rest_offsets c remaining offset;
  let k := length oa in
  let pt := block_at ptp <$> seq 0 k in
  let checksum := foldl xor_block checksum pt in
  let ta := zip_with xor_block oa pt in
  let offset := List.last oa offset in
  let tmp := take (Z.to_nat remaining) (drop (16 * k) ptp) ++ [0x80] ++ replicate (15 - Z.to_nat remaining) 0 in
  let '(checksum, offset, ta) :=
    if negb (remaining =? 0) then
      let offset := xor_block offset (Lstar c) in
      (xor_block checksum (load tmp), offset, ta ++ [offset])
    else (checksum, offset, ta) in
  let offset := xor_block offset (Ldollar c) in
  let ta := ecb_encrypt_blks (ta ++ [xor_block offset checksum]) (encrypt_key c) in
  let tag := xor_block (List.last ta zero_block) (ad_checksum c) in
  let tail :=
    if negb (remaining =? 0) then take (Z.to_nat remaining) (store (xor_block (load tmp) (nth k ta zero_block))) else [] in
  Ok ((zip_with xor_block (take k ta) oa ≫= store) ++ tail, tag).

(** [ae_encrypt] after the associated data: the octets written at [ct], with
    the tag behind them unless it goes to [tag], and their number. *)
Definition encrypt_text (pt : bytes) (tag final : bool) (c : ae_ctx) : result fault (Z * bytes * option bytes * ae_ctx) :=
  let i := Z.to_nat (lenZ pt / (BPI * 16)) in
  '(ptp, ct, num, off, sum) ← encrypt_groups i c pt [] (blocks_processed c) (offset c) (checksum c);
  let c := if bool_decide (i = O) then c else c <| offset := off |> <| blocks_processed := num |> <| checksum := sum |> in
  if final then
    '(rest, t) ← encrypt_rest c ptp (lenZ pt mod (BPI * 16)) off sum;
    if (tag : bool) then Ok (lenZ pt, ct ++ rest, Some (store t), c)
    else Ok (lenZ pt + OCB_TAG_LEN, ct ++ rest ++ store t, None, c)
  else Ok (lenZ pt, ct, None, c).

Definition ae_encrypt (nonce : option bytes) (pt : bytes) (ad : option bytes) (tag final : bool) (c : ae_ctx)
  : result fault (Z * bytes * option bytes * ae_ctx) :=
  let c := start_message nonce ad c in
  c ← process_any_ad ad final c;
  encrypt_text pt tag final c.

(** *** Decryption *)

Fixpoint decrypt_groups (i : nat) (c : ae_ctx) (ctp pt : bytes) (block_num : Z) (offset checksum : block)
  : result fault (bytes * bytes * Z * block * block) :=
  match i with
  | O => Ok (ctp, pt, block_num, offset, checksum)
  | S i' =>
      let block_num := u32 (block_num + BPI) in
      oa ← four_offsets c offset block_num;
      let ta := ecb_decrypt_blks (zip_with xor_block oa (block_at ctp <$> [0; 1; 2; 3]%nat)) (decrypt_key c) in
      let ptp := zip_with xor_block ta oa in
      let checksum := foldl xor_block checksum ptp in
      decrypt_groups i' c (drop 64 ctp) (pt ++ (ptp ≫= store)) block_num (List.last oa offset) checksum
  end.

(** [constant_time_memcmp]. *)
Fixpoint constant_time_memcmp (n : nat) (a b : bytes) (result : Z) : Z :=
  match n with
  | O => result
  | S n' => constant_time_memcmp n' (drop 1 a) (drop 1 b) (Z.lor result (Z.lxor (nth 0 a 0) (nth 0 b 0)))
  end.

(** The end of a message: the octets written and the tag they should have. *)
Definition decrypt_rest (c : ae_ctx) (ctp : bytes) (remaining : Z) (offset checksum : block) : result fault (bytes * block) :=
  '(oa, remaining) ← rest_offsets c remaining offset;
  let k := length oa in
  let ta := zip_with xor_block oa (block_at ctp <$> seq 0 k) in
  let offset := List.last oa offset in
  let '(offset, checksum, tail) :=
    if negb (remaining =? 0) then
      let offset := xor_block offset (Lstar c) in
      let pad := aes_encrypt (encrypt_key c) (store offset) in
      let tmp := take (Z.to_nat remaining) (drop (16 * k) ctp) ++ drop (Z.to_nat remaining) pad in
      let tmp := store (xor_block (load tmp) (load pad)) in
      let tmp := take (Z.to_nat remaining) tmp ++ [0x80] ++ drop (Z.to_nat remaining + 1) tmp in
      (offset, xor_block checksum (load tmp), take (Z.to_nat remaining) tmp)
    else (offset, checksum, []) in
  let ptp := zip_with xor_block (ecb_decrypt_blks ta (decrypt_key c)) oa in
  (* the switch adds the last block first *)
  let checksum := foldr (fun p s => xor_block s p) checksum ptp in
  let tmp := encrypt_block (encrypt_key c) (xor_block (xor_block offset (Ldollar c)) checksum) in
  Ok ((ptp ≫= store) ++ tail, xor_block tmp (ad_checksum c)).

(** [ae_decrypt] after the associated data, for [ct_len] octets of text: the
    value returned and the octets written, which are there even if the tag is
    wrong. *)
Definition decrypt_text (ct : bytes) (ct_len : Z) (tag : option bytes) (final : bool) (c : ae_ctx) : result fault (Z * bytes * ae_ctx) :=
  let i := Z.to_nat (ct_len / (BPI * 16)) in
  '(ctp, pt, num, off, sum) ← decrypt_groups i c ct [] (blocks_processed c) (offset c) (checksum c);
  let c := if bool_decide (i = O) then c else c <| offset := off |> <| blocks_processed := num |> <| checksum := sum |> in
  if final then
    '(rest, t) ← decrypt_rest c ctp (ct_len mod (BPI * 16)) off sum;
    let bad := match tag with
               | Some g => unequal_blocks t (load g)
               | None => negb (constant_time_memcmp (Z.to_nat OCB_TAG_LEN) (drop (Z.to_nat ct_len) ct) (store t) 0 =? 0)
               end in
    Ok (if (bad : bool) then AE_INVALID else ct_len, pt ++ rest, c)
  else Ok (ct_len, pt, c).

(** [ae_decrypt]: with a tag at [tag], or behind the text.  A text shorter than
    its tag is read past its end. *)
Definition ae_decrypt (nonce : option bytes) (ct : bytes) (ad : option bytes) (tag : option bytes) (final : bool) (c : ae_ctx)
  : result fault (Z * bytes * ae_ctx) :=
  let ct_len := if final && bool_decide (tag = None) then lenZ ct - OCB_TAG_LEN else lenZ ct in
  let c := start_message nonce ad c in
  c ← process_any_ad ad final c;
  if ct_len <? 0 then Err OutOfRange else decrypt_text ct ct_len tag final c.
End ocb.
