(* ===== verification/OcbSpec.v ===== *)
(** * OCB as RFC 7253 defines it

    The mode block by block, over octets; its decryption undoes its encryption,
    and it satisfies the laws that sessions ask of their cipher. *)
From S2P Require Export Crypto Ocb.

(** What is documented of a block cipher: for each key, a permutation of the
    blocks of 16 octets and its inverse. *)
Class BlockCipherLaws `{BlockCipher} : Prop := {
  aes_encrypt_octets k b : octets16 (aes_encrypt k b);
  aes_decrypt_octets k b : octets16 (aes_decrypt k b);
  aes_inverse k b : octets16 k -> octets16 b -> aes_decrypt k (aes_encrypt k b) = b;
  aes_inverse_r k b : octets16 k -> octets16 b -> aes_encrypt k (aes_decrypt k b) = b;
}.

(** ** The reference *)

Section reference.
Context `{BlockCipher} (k : bytes).

Definition zeros : bytes := replicate 16 0.
Definition ocb_Lstar : bytes := aes_encrypt k zeros.
Definition ocb_Ldollar : bytes := double_octets ocb_Lstar.
Fixpoint ocb_L (i : nat) : bytes :=
  match i with O => double_octets ocb_Ldollar | S i' => double_octets (ocb_L i') end.

(** The first offset of a message: bits of a stretched block. *)
Definition nonce_block (n : bytes) : bytes := [0; 0; 0; 1] ++ n.
Definition nonce_bottom (n : bytes) : Z := dval 8 (nonce_block n) mod 64.
Definition nonce_top (n : bytes) : bytes := to_be 16 (dval 8 (nonce_block n) - nonce_bottom n).
Definition ocb_offset0 (n : bytes) : bytes :=
  let ktop := dval 8 (aes_encrypt k (nonce_top n)) in
  let stretch := ktop * 2 ^ 64 + Z.lxor (ktop / 2 ^ 64) (ktop / 2 ^ 56 mod 2 ^ 64) in
  to_be 16 (stretch / 2 ^ (64 - nonce_bottom n)).

(** The offset of block [i], counted from one. *)
Fixpoint ocb_offset (o : bytes) (i : nat) : bytes :=
  match i with
  | O => o
  | S i' => octets_xor (ocb_offset o i') (ocb_L (Z.to_nat (ntz (Z.of_nat i))))
  end.

(** The first [m] blocks of a text, and the sum of some. *)
Definition chunk (t : bytes) (i : nat) : bytes := take 16 (drop (16 * i) t).
Definition chunks (m : nat) (t : bytes) : list bytes := chunk t <$> seq 0 m.
Definition ocb_sum (l : list bytes) : bytes := foldl octets_xor zeros l.
Definition full_blocks (t : bytes) : nat := (length t / 16)%nat.
Definition partial (t : bytes) : bytes := drop (16 * full_blocks t) t.
Definition pad_block (t : bytes) : bytes := t ++ [0x80] ++ replicate (15 - length t) 0.

Definition ocb_hash (a : bytes) : bytes :=
  let m := full_blocks a in
  let o := ocb_offset zeros in
  let sum := ocb_sum ((fun i => aes_encrypt k (octets_xor (chunk a i) (o (S i)))) <$> seq 0 m) in
  if bool_decide (partial a = []) then sum
  else octets_xor sum (aes_encrypt k (octets_xor (pad_block (partial a)) (octets_xor (o m) ocb_Lstar))).

(** The tag of a text [pt] whose first offset is [o], for associated data that
    hashes to [h]. *)
Definition ocb_final (o h pt : bytes) : bytes :=
  let m := full_blocks pt in
  let sum := ocb_sum (chunks m pt) in
  let '(sum, off) :=
    if bool_decide (partial pt = []) then (sum, ocb_offset o m)
    else (octets_xor sum (pad_block (partial pt)), octets_xor (ocb_offset o m) ocb_Lstar) in
  octets_xor (aes_encrypt k (octets_xor (octets_xor sum off) ocb_Ldollar)) h.
Definition ocb_tag (o a pt : bytes) : bytes := ocb_final o (ocb_hash a) pt.

(** The octets of a block or of a partial one. *)
Definition ocb_block (f : bytes -> bytes) (o p : bytes) : bytes := octets_xor o (f (octets_xor p o)).
Definition ocb_partial (o p : bytes) : bytes := octets_xor p (aes_encrypt k (octets_xor o ocb_Lstar)).
Definition ocb_text (f : bytes -> bytes) (o t : bytes) : bytes :=
  let m := full_blocks t in
  (seq 0 m ≫= (fun i => ocb_block f (ocb_offset o (S i)) (chunk t i))) ++ ocb_partial (ocb_offset o m) (partial t).

Definition ocb_encrypt (n a pt : bytes) : bytes :=
  let o := ocb_offset0 n in
  ocb_text (aes_encrypt k) o pt ++ ocb_tag o a pt.
Definition ocb_decrypt (n a ct : bytes) : option bytes :=
  if lenZ ct <? 16 then None else
  let o := ocb_offset0 n in
  let pt := ocb_text (aes_decrypt k) o (take (length ct - 16) ct) in
  if bool_decide (drop (length ct - 16) ct = ocb_tag o a pt) then Some pt else None.
End reference.

(** ** Exclusive or of octets *)

Lemma xor_comm a b : octets_xor a b = octets_xor b a.
Proof. apply zip_with_comm_lxor. Qed.
Lemma xor_assoc a b c : octets_xor (octets_xor a b) c = octets_xor a (octets_xor b c).
Proof. revert b c. induction a as [|x a IH]; intros [|y b] [|z c]; cbn; try done. f_equal; [apply Z.lxor_assoc|apply IH]. Qed.
Lemma xor_cancel a b : (length b <= length a)%nat -> octets_xor a (octets_xor a b) = b.
Proof.
  revert b. induction a as [|x a IH]; intros [|y b] Hl; cbn in *; try done; [lia|]. rewrite <- Z.lxor_assoc, Z.lxor_nilpotent, Z.lxor_0_l. f_equal. apply IH. lia.
Qed.
Lemma xor_zeros a : octets16 a -> octets_xor zeros a = a.
Proof.
  intros [L _]. unfold zeros. rewrite <- L. clear L. induction a as [|x a IH]; [done|]. cbn [length replicate]. unfold octets_xor in *. cbn [zip_with]. f_equal. apply IH.
Qed.
Lemma length_xor a b : length (octets_xor a b) = Nat.min (length a) (length b).
Proof. apply length_zip_with. Qed.

(** ** Texts and their blocks *)

Lemma bind_snoc {A} (g : nat -> list A) m : seq 0 (S m) ≫= g = (seq 0 m ≫= g) ++ g m.
Proof. rewrite seq_S, bind_app. cbn. by rewrite app_nil_r. Qed.

Lemma bind_ext {A} (f g : nat -> list A) m : (forall i, (i < m)%nat -> f i = g i) -> seq 0 m ≫= f = seq 0 m ≫= g.
Proof. induction m as [|m IH]; intros Hfg; [done|]. rewrite !bind_snoc, IH, Hfg by auto with lia. done. Qed.

Lemma length_bind_blocks (g : nat -> bytes) m : (forall i, (i < m)%nat -> length (g i) = 16%nat) -> length (seq 0 m ≫= g) = (16 * m)%nat.
Proof.
  induction m as [|m IH]; intros Hg; [done|]. rewrite bind_snoc, length_app, IH, Hg by auto with lia. lia.
Qed.

Lemma chunk_bind (g : nat -> bytes) m i r : (forall j, (j < m)%nat -> length (g j) = 16%nat) -> (i < m)%nat -> chunk ((seq 0 m ≫= g) ++ r) i = g i.
Proof.
  intros Hg Hi. revert r. induction m as [|m IH]; intros r; [lia|]. rewrite bind_snoc, <- app_assoc. destruct (decide (i = m)) as [->|Hne].
  - unfold chunk. rewrite drop_app_length' by (symmetry; apply length_bind_blocks; auto with lia). apply take_app_length'. symmetry. apply Hg. lia.
  - apply IH; [auto with lia|lia].
Qed.

Lemma chunks_take t m : (16 * m <= length t)%nat -> seq 0 m ≫= chunk t = take (16 * m) t.
Proof.
  induction m as [|m IH]; intros Hm; [done|]. rewrite bind_snoc, IH by lia. unfold chunk.
  replace (16 * S m)%nat with (16 * m + 16)%nat by lia. rewrite <- (take_take_drop t (16 * m) 16). done.
Qed.

Lemma full_blocks_le t : (16 * full_blocks t <= length t)%nat.
Proof. apply Nat.Div0.mul_div_le. Qed.
Lemma text_blocks t : (seq 0 (full_blocks t) ≫= chunk t) ++ partial t = t.
Proof. rewrite chunks_take by apply full_blocks_le. apply take_drop. Qed.
Lemma partial_short t : (length (partial t) < 16)%nat.
Proof. unfold partial. rewrite length_drop. pose proof (Nat.Div0.mul_div_le (length t) 16). pose proof (Nat.mul_succ_div_gt (length t) 16). unfold full_blocks. lia. Qed.
Lemma chunk_octets t i : octets t -> octets (chunk t i).
Proof. intros Ht. by apply Forall_take, Forall_drop. Qed.
Lemma chunk16 t i : octets t -> (16 * (i + 1) <= length t)%nat -> octets16 (chunk t i).
Proof. intros Ht Hi. split; [|by apply chunk_octets]. unfold chunk. rewrite length_take, length_drop. lia. Qed.
Lemma chunk_full t i : octets t -> (i < full_blocks t)%nat -> octets16 (chunk t i).
Proof. intros Ht Hi. apply chunk16; [done|]. pose proof (full_blocks_le t). lia. Qed.
Lemma partial_octets t : octets t -> octets (partial t).
Proof. apply Forall_drop. Qed.
Lemma pad_block16 t : octets t -> (length t < 16)%nat -> octets16 (pad_block t).
Proof.
  intros Ht Hl. unfold pad_block. split; [rewrite !length_app, length_replicate; cbn; lia|].
  apply Forall_app. split; [done|]. apply Forall_app. split; [by apply Forall_singleton|by apply Forall_replicate].
Qed.

(** ** The reference's values are blocks *)

Section values.
Context `{HBC : BlockCipher} `{HBL : !BlockCipherLaws} (k : bytes).

Lemma Lstar16 : octets16 (ocb_Lstar k).
Proof. apply aes_encrypt_octets. Qed.
Lemma Ldollar16 : octets16 (ocb_Ldollar k).
Proof. apply octets16_to_be. Qed.
Lemma L16 i : octets16 (ocb_L k i).
Proof. destruct i; apply octets16_to_be. Qed.
Lemma offset0_16 n : octets16 (ocb_offset0 k n).
Proof. apply octets16_to_be. Qed.
Lemma offset16 o i : octets16 o -> octets16 (ocb_offset k o i).
Proof. intros Ho. induction i as [|i IH]; [done|]. apply octets16_xor; [done|apply L16]. Qed.
Lemma sum16 s l : octets16 s -> Forall octets16 l -> octets16 (foldl octets_xor s l).
Proof. intros Hs Hl. revert s Hs. induction Hl as [|x l Hx _ IH]; intros s Hs; [done|]. cbn [foldl]. apply IH. by apply octets16_xor. Qed.
Lemma chunks16 m t : octets t -> (16 * m <= length t)%nat -> Forall octets16 (chunks m t).
Proof. intros Ht Hm. apply Forall_fmap, Forall_forall. intros i [_ Hi]%elem_of_seq. apply chunk16; [done|lia]. Qed.
Lemma ocb_block16 f o p : (forall x, octets16 (f x)) -> octets16 o -> octets16 (ocb_block f o p).
Proof. intros Hf Ho. by apply octets16_xor. Qed.
End values.

Create HintDb ocb.
#[export] Hint Resolve Lstar16 Ldollar16 L16 offset0_16 offset16 octets16_zero octets16_xor aes_encrypt_octets aes_decrypt_octets : ocb.
#[export] Hint Extern 1 (octets16 zeros) => exact octets16_zero : ocb.

(** ** Decryption undoes encryption *)

Section roundtrip.
Context `{HBC : BlockCipher} `{HBL : !BlockCipherLaws} (k : bytes).

Lemma length_ocb_text f o t : (forall x, octets16 (f x)) -> octets16 o -> length (ocb_text k f o t) = length t.
Proof.
  intros Hf Ho. unfold ocb_text. rewrite length_app, length_bind_blocks by (intros i _; by apply ocb_block16, offset16).
  unfold ocb_partial. rewrite length_xor. pose proof (partial_short t). pose proof (aes_encrypt_octets k (octets_xor (ocb_offset k o (full_blocks t)) (ocb_Lstar k))) as [-> _].
  unfold partial in *. rewrite length_drop in *. pose proof (full_blocks_le t). lia.
Qed.

Lemma ocb_text_octets f o t : (forall x, octets16 (f x)) -> octets16 o -> octets t -> octets (ocb_text k f o t).
Proof.
  intros Hf Ho Ht. apply Forall_app. split; [|apply octets_xor_octets; [by apply partial_octets|apply aes_encrypt_octets]].
  apply Forall_bind, Forall_forall. intros i _. apply ocb_block16; auto with ocb.
Qed.

(** Undoing what was done to each block undoes it to the text. *)
Lemma ocb_text_undo f g o t : (forall x, octets16 (f x)) -> (forall b, octets16 b -> g (f b) = b) -> octets16 o -> octets t ->
  ocb_text k g o (ocb_text k f o t) = t.
Proof.
  intros Hf16 Hgf Ho Ht. set (ct := ocb_text k f o t).
  assert (Hf : full_blocks ct = full_blocks t) by (unfold full_blocks, ct; rewrite length_ocb_text; auto with ocb).
  assert (Hg : forall i, length (ocb_block f (ocb_offset k o (S i)) (chunk t i)) = 16%nat) by (intros i; apply ocb_block16; auto with ocb).
  etransitivity; [|exact (text_blocks t)]. unfold ocb_text at 1. rewrite Hf. f_equal.
  - apply bind_ext. intros i Hi. pose proof (chunk_full t i Ht Hi) as Hp. pose proof (offset16 k o (S i) Ho) as HO.
    unfold ct, ocb_text. rewrite chunk_bind by done. unfold ocb_block. set (O := ocb_offset k o (S i)) in *. set (p := chunk t i) in *.
    rewrite (xor_comm (octets_xor O _)), xor_cancel by (rewrite (proj1 (Hf16 _)), (proj1 HO); lia).
    rewrite Hgf by auto with ocb. rewrite (xor_comm p). apply xor_cancel. rewrite (proj1 Hp), (proj1 HO). lia.
  - unfold partial at 1. rewrite Hf. unfold ct, ocb_text. rewrite drop_app_length' by (rewrite length_bind_blocks; auto).
    unfold ocb_partial. rewrite xor_comm, (xor_comm (partial t)). apply xor_cancel. pose proof (partial_short t).
    pose proof (aes_encrypt_octets k (octets_xor (ocb_offset k o (full_blocks t)) (ocb_Lstar k))) as [-> _]. lia.
Qed.
Lemma ocb_text_inverse o t : octets16 k -> octets16 o -> octets t -> ocb_text k (aes_decrypt k) o (ocb_text k (aes_encrypt k) o t) = t.
Proof. intros Hk. apply ocb_text_undo; auto using aes_inverse with ocb. Qed.
Lemma ocb_text_inverse_r o t : octets16 k -> octets16 o -> octets t -> ocb_text k (aes_encrypt k) o (ocb_text k (aes_decrypt k) o t) = t.
Proof. intros Hk. apply ocb_text_undo; auto using aes_inverse_r with ocb. Qed.
End roundtrip.

(** ** Sessions over OCB *)

#[export] Instance OcbAE `{BlockCipher} : AE := {
  Crypto.ae_encrypt key n pt := ocb_encrypt key n [] pt;
  Crypto.ae_decrypt key n ct := ocb_decrypt key n [] ct;
}.

Section laws.
Context `{HBC : BlockCipher} `{HBL : !BlockCipherLaws}.

Lemma hash16 k a : octets a -> octets16 (ocb_hash k a).
Proof.
  intros Ha. unfold ocb_hash. cbv zeta. set (sum := ocb_sum _).
  assert (Hs : octets16 sum) by (apply sum16; [apply octets16_zero|]; apply Forall_fmap, Forall_forall; intros i _; apply aes_encrypt_octets).
  case_bool_decide; auto with ocb.
Qed.

Lemma final16 k o h pt : octets16 h -> octets16 (ocb_final k o h pt).
Proof. intros Hh. unfold ocb_final. cbv zeta. by destruct (bool_decide _); (apply octets16_xor; [apply aes_encrypt_octets|]). Qed.
Lemma tag16 k o a pt : octets a -> octets16 (ocb_tag k o a pt).
Proof. intros Ha. by apply final16, hash16. Qed.

Lemma length_ocb_encrypt k n a pt : octets a -> length (ocb_encrypt k n a pt) = (length pt + 16)%nat.
Proof.
  intros Ha. unfold ocb_encrypt. cbv zeta. rewrite length_app, length_ocb_text by auto with ocb. by rewrite (proj1 (tag16 k _ a pt Ha)).
Qed.

Lemma ocb_decrypt_encrypt k n a pt : octets16 k -> octets a -> octets pt -> ocb_decrypt k n a (ocb_encrypt k n a pt) = Some pt.
Proof.
  intros Hk Ha Hpt. unfold ocb_decrypt. unfold lenZ. rewrite length_ocb_encrypt by done. rewrite (proj2 (Z.ltb_ge _ 16)) by lia. cbv zeta.
  rewrite Nat.add_sub. assert (Hl : length (ocb_text k (aes_encrypt k) (ocb_offset0 k n) pt) = length pt) by (apply length_ocb_text; auto with ocb).
  unfold ocb_encrypt. cbv zeta. rewrite take_app_length', drop_app_length' by done. rewrite ocb_text_inverse by auto with ocb. by rewrite bool_decide_true.
Qed.

(** Only what was encrypted is decrypted. *)
Lemma ocb_encrypt_decrypt k n a ct pt : octets16 k -> octets ct -> ocb_decrypt k n a ct = Some pt -> ct = ocb_encrypt k n a pt /\ octets pt.
Proof.
  intros Hk Hct. unfold ocb_decrypt. destruct (_ <? _); [done|]. cbv zeta. case_bool_decide as E; [|done]. intros [= <-]. set (t := take _ ct) in *.
  assert (Ht : octets t) by (by apply Forall_take). split; [|by apply ocb_text_octets; auto with ocb].
  unfold ocb_encrypt. cbv zeta. rewrite ocb_text_inverse_r by auto with ocb. rewrite <- E. symmetry. apply take_drop.
Qed.

#[export] Instance OcbLaws : @AELaws OcbAE.
Proof.
  split; cbn [Crypto.ae_encrypt Crypto.ae_decrypt OcbAE].
  - intros. by apply length_ocb_encrypt.
  - intros. by apply ocb_decrypt_encrypt.
  - intros k n ct pt. unfold ocb_decrypt, lenZ. destruct (Z.ltb_spec (Z.of_nat (length ct)) 16); [done|]. cbv zeta. case_bool_decide; [|done].
    intros [= <-]. rewrite length_ocb_text, length_take by auto with ocb. lia.
  - intros k n ct pt Hct. unfold ocb_decrypt. destruct (_ <? _); [done|]. cbv zeta. case_bool_decide; [|done].
    intros [= <-]. apply ocb_text_octets; auto with ocb. by apply Forall_take.
Qed.
End laws.

(** A cipher for examples: a block is combined with the key. *)
Definition block_of (l : bytes) : bytes := (fun i => nth i l 0 mod 256) <$> seq 0 16.
Definition XorCipher : BlockCipher := {|
  aes_encrypt key b := octets_xor (block_of key) (block_of b);
  aes_decrypt key b := octets_xor (block_of key) (block_of b);
|}.

Lemma block_of16 l : octets16 (block_of l).
Proof. split; [done|]. apply Forall_fmap, Forall_forall. intros i _. apply Z.mod_pos_bound. lia. Qed.
Lemma block_of_id l : octets16 l -> block_of l = l.
Proof.
  intros [Hl Ho]. unfold block_of. rewrite <- Hl. clear Hl. induction Ho as [|x l Hx _ IH]; [done|]. cbn [length seq fmap list_fmap nth]. f_equal; [by apply Z.mod_small|].
  etransitivity; [|exact IH]. by rewrite <- fmap_S_seq, <- list_fmap_compose.
Qed.
#[export] Instance XorLaws : @BlockCipherLaws XorCipher.
Proof.
  assert (Hinv : forall k b, octets16 b -> octets_xor (block_of k) (block_of (octets_xor (block_of k) (block_of b))) = b).
  { intros k b Hb. rewrite (block_of_id (octets_xor _ _)) by (apply octets16_xor; apply block_of16). rewrite (block_of_id b) by done.
    apply xor_cancel. by rewrite (proj1 (block_of16 _)), (proj1 Hb). }
  split; cbn [aes_encrypt aes_decrypt XorCipher]; auto; intros; apply octets16_xor; apply block_of16.
Qed.
