(* ===== verification/OcbCode.v ===== *)
(** * The code computes OCB

    The code of Ocb.v works on four blocks at a time with a table of L values,
    a cached block and the arithmetic of its platform; it computes the
    reference of OcbSpec.v, in one call or in pieces. *)
From S2P Require Export OcbSpec.

(** ** Blocks of the code and octets of the reference *)

Section code.
Context `{HB : BlockOps} `{HBO : !BlockLaws} `{HBC : BlockCipher} `{HBL : !BlockCipherLaws} (k : bytes).

Definition repr (b : block) (o : bytes) : Prop := block_wf b /\ store b = o.

Lemma repr16 b o : repr b o -> octets16 o.
Proof. by intros [[H _] <-]. Qed.
Lemma repr_load o : octets16 o -> repr (load o) o.
Proof. intros Ho. pose proof (store_load o Ho) as E. split; [|done]. split; [by rewrite E|by rewrite E]. Qed.
Lemma repr_xor a b x y : repr a x -> repr b y -> repr (xor_block a b) (octets_xor x y).
Proof. intros [Ha <-] [Hb <-]. destruct (xor_block_wf a b Ha Hb). by split. Qed.
Lemma repr_zero : repr zero_block zeros.
Proof. exact zero_block_wf. Qed.
Lemma repr_encrypt b x : repr b x -> repr (encrypt_block k b) (aes_encrypt k x).
Proof. intros [_ <-]. apply repr_load, aes_encrypt_octets. Qed.
Lemma repr_decrypt b x : repr b x -> repr (decrypt_block k b) (aes_decrypt k x).
Proof. intros [_ <-]. apply repr_load, aes_decrypt_octets. Qed.
Lemma repr_swap b x : repr (swap_if_le b) x -> block_wf b -> repr (swap_if_le (double_block b)) (double_octets x).
Proof.
  intros [_ <-] Hb. destruct (double_block_wf b Hb) as [Hd E]. split; [|done]. by apply swap_if_le_wf.
Qed.
Lemma repr_eq a b x y : repr a x -> repr b y -> unequal_blocks a b = negb (bool_decide (x = y)).
Proof. intros [Ha <-] [Hb <-]. by apply unequal_blocks_spec. Qed.

(** The table of [ae_init]. *)
Lemma L_table_repr n b x : repr (swap_if_le b) x -> block_wf b -> forall i, (i < n)%nat ->
  exists bi, L_table n b !! i = Some bi /\ repr bi (Nat.iter i double_octets x).
Proof.
  revert b x. induction n as [|n IH]; intros b x Hx Hb i Hi; [lia|]. cbn [L_table]. destruct i as [|i]; [by exists (swap_if_le b)|].
  destruct (IH (double_block b) (double_octets x) (repr_swap b x Hx Hb) (proj1 (double_block_wf b Hb)) i ltac:(lia)) as (bi & E & Hr).
  exists bi. split; [done|]. by rewrite <- Nat.iter_succ_r in Hr.
Qed.

(** The three words of the key stream for a nonce. *)
Definition ktop_words (top : bytes) : Z * Z * Z :=
  let kt := aes_encrypt k top in
  let k0 := dval 8 (take 8 kt) in let k1 := dval 8 (drop 8 kt) in
  (k0, k1, Z.lxor (Z.lxor k0 (u64 (Z.shiftl k0 8))) (Z.shiftr k1 56)).

(** A context of the key [k]. *)
Record ctx_ok (c : ae_ctx) : Prop := {
  co_key : octets16 k /\ encrypt_key c = k /\ decrypt_key c = k;
  co_Lstar : repr (Lstar c) (ocb_Lstar k);
  co_Ldollar : repr (Ldollar c) (ocb_Ldollar k);
  co_L : forall i, (i < 16)%nat -> exists b, L c !! i = Some b /\ repr b (ocb_L k i);
  co_cache : exists top, repr (cached_Top c) top /\ (top = zeros \/ (KtopStr0 c, KtopStr1 c, KtopStr2 c) = ktop_words top) }.

Lemma ocb_L_iter i : ocb_L k i = Nat.iter i double_octets (double_octets (ocb_Ldollar k)).
Proof. induction i as [|i IH]; [done|]. cbn [ocb_L Nat.iter nat_rect]. by rewrite IH. Qed.

Lemma ae_init_ok c : octets16 k -> exists c', ae_init k 12 c = (AE_SUCCESS, c') /\ ctx_ok c'.
Proof.
  intros Hk. unfold ae_init. cbn [negb Z.eqb Pos.eqb]. cbv zeta. eexists. split; [done|].
  assert (Ek : take (Z.to_nat OCB_KEY_LEN) k = k) by (apply take_ge; rewrite (proj1 Hk); done). rewrite Ek.
  pose proof (repr_encrypt _ _ repr_zero) as Hs. set (ls := encrypt_block k zero_block) in *.
  destruct (swap_if_le_wf ls (proj1 Hs)) as [Hsw Hsw2]. assert (Hr : repr (swap_if_le (swap_if_le ls)) (ocb_Lstar k)) by (by rewrite Hsw2).
  pose proof (repr_swap _ _ Hr Hsw) as Hd. pose proof (proj1 (double_block_wf _ Hsw)) as Hdw. set (d := double_block _) in *.
  split; cbn; rewrite ?Ek; fold ls; fold d; [done|done|done| |exists zeros; split; [apply repr_zero|by left]].
  intros i Hi. destruct (L_table_repr 16 (double_block d) _ (repr_swap _ _ Hd Hdw) (proj1 (double_block_wf _ Hdw)) i Hi) as (b & Eb & Hb).
  exists b. split; [exact Eb|]. by rewrite ocb_L_iter.
Qed.

(** ** The first offset *)

Lemma bswap64_load o : octets o -> length o = 8%nat -> bswap64 (le_load o) = dval 8 o.
Proof.
  intros Ho Hl. unfold bswap64, le_load at 2. rewrite <- (length_rev o) in Hl. rewrite <- Hl, to_be_dval by (by apply Forall_rev). unfold le_load. by rewrite rev_involutive.
Qed.

Lemma ktop_words_u64 top : let '(k0, k1, k2) := ktop_words top in
  is_u64 k0 /\ is_u64 k1 /\ is_u64 k2 /\
  forall bot, stretch_offset k0 k1 k2 bot =
    let ktop := dval 8 (aes_encrypt k top) in
    to_be 16 ((ktop * 2 ^ 64 + Z.lxor (ktop / 2 ^ 64) (ktop / 2 ^ 56 mod 2 ^ 64)) / 2 ^ (64 - bot)).
Proof.
  unfold ktop_words. destruct (aes_encrypt_octets k top) as [Hl Ho]. set (kt := aes_encrypt k top) in *.
  assert (Hw : forall o, octets o -> length o = 8%nat -> is_u64 (dval 8 o)).
  { intros o Hoo Hlo. pose proof (dval_bound 8 o ltac:(lia) Hoo) as Hb. unfold lenZ in Hb. by rewrite Hlo in Hb. }
  pose proof (Hw (take 8 kt) ltac:(by apply Forall_take) ltac:(by rewrite length_take, Hl)) as H0.
  pose proof (Hw (drop 8 kt) ltac:(by apply Forall_drop) ltac:(by rewrite length_drop, Hl)) as H1.
  assert (Ek : dval 8 kt = dval 8 (take 8 kt) * 2 ^ 64 + dval 8 (drop 8 kt)).
  { rewrite <- (take_drop 8 kt) at 1. rewrite dval_app by lia. unfold lenZ. by rewrite length_drop, Hl. }
  set (k0 := dval 8 (take 8 kt)) in *. set (k1 := dval 8 (drop 8 kt)) in *. rewrite Z.lxor_assoc, (join_lxor k0 k1 8 H1 ltac:(lia) : Z.lxor (u64 (Z.shiftl k0 8)) (Z.shiftr k1 56) = _).
  split_and!; [done|done|apply (lxor_bound 64); [lia|done|apply word_join_bound; [done|lia]]|]. intros bot. cbv zeta. rewrite Ek. unfold stretch_offset. do 2 f_equal.
  rewrite Z.div_add_l, (Z.div_small k1), Z.add_0_r by (done || lia). rewrite (word_join_div k0 k1 8 H1 ltac:(lia)). change (64 - 8) with 56. lia.
Qed.

Lemma dval_last l x : dval 8 (l ++ [x]) = dval 8 l * 256 + x.
Proof. rewrite dval_app by lia. change (dval 8 [x]) with (x * 1 + 0). change (lenZ [x]) with 1. lia. Qed.

Lemma nonce_parts n : length n = 12%nat -> octets n ->
  let tmp := nonce_block n in let u15 := nth 15 tmp 0 in
  Z.land u15 0x3f = nonce_bottom n /\ take 15 tmp ++ [Z.land u15 0xc0] = nonce_top n /\ octets16 (nonce_top n) /\ nonce_top n <> zeros.
Proof.
  intros Hl Hn. cbv zeta. set (tmp := nonce_block n).
  assert (Ht : octets16 tmp). { split; [unfold tmp, nonce_block; rewrite length_app, Hl; done|]. apply Forall_app. split; [by repeat constructor|done]. }
  destruct Ht as [Lt Ot]. set (u15 := nth 15 tmp 0).
  assert (Etmp : tmp = take 15 tmp ++ [u15]).
  { rewrite <- (take_drop 15 tmp) at 1. f_equal. unfold u15. do 16 (destruct tmp as [|? tmp]; [done|]). by destruct tmp. }
  assert (Hu : is_u8 u15). { rewrite Etmp in Ot. apply Forall_app in Ot as [_ Ho]. by inversion Ho. }
  assert (Hlow : Z.land u15 0x3f = u15 mod 64) by (exact (Z.land_ones u15 6 ltac:(lia))).
  assert (Hhigh : Z.land u15 0xc0 = u15 - u15 mod 64).
  { apply Z.eqb_eq. apply (forall_range (fun x => Z.land x 0xc0 =? x - x mod 64) 256); [by vm_compute|exact Hu]. }
  assert (Ev : dval 8 tmp = dval 8 (take 15 tmp) * 256 + u15) by (rewrite Etmp at 1; apply dval_last).
  assert (Eb : nonce_bottom n = u15 mod 64).
  { unfold nonce_bottom. fold tmp. rewrite Ev. replace (dval 8 (take 15 tmp) * 256 + u15) with (u15 + (dval 8 (take 15 tmp) * 4) * 64) by lia. apply Z_mod_plus_full. }
  assert (Etop : take 15 tmp ++ [Z.land u15 0xc0] = nonce_top n).
  { unfold nonce_top. fold tmp. rewrite Eb, Ev, Hhigh. assert (Hx : octets (take 15 tmp ++ [u15 - u15 mod 64])).
    { apply Forall_app. split; [by apply Forall_take|]. apply Forall_singleton. unfold is_u8 in *. pose proof (Z.mod_pos_bound u15 64). pose proof (Z.mod_le u15 64). lia. }
    replace 16%nat with (length (take 15 tmp ++ [u15 - u15 mod 64])) by (rewrite length_app, length_take, Lt; done). rewrite <- (to_be_dval _ Hx) at 1. f_equal.
    rewrite dval_last. lia. }
  split_and!; [by rewrite Eb|done|apply octets16_to_be|]. rewrite <- Etop. unfold tmp, nonce_block. by destruct n.
Qed.

Lemma gen_offset_ok n c : ctx_ok c -> length n = 12%nat -> octets n ->
  exists o c', gen_offset_from_nonce n c = (o, c') /\ repr o (ocb_offset0 k n) /\ ctx_ok c'.
Proof.
  intros Hc Hl Hn. destruct (nonce_parts n Hl Hn) as (Eidx & Etop & Htop & Hnz). cbv zeta in *. unfold gen_offset_from_nonce. cbv zeta.
  rewrite (take_ge n) by lia. fold (nonce_block n). rewrite Eidx, Etop. destruct (co_cache _ Hc) as (old & Hold & Hcache).
  rewrite (repr_eq _ _ _ _ (repr_load _ Htop) Hold). assert (Hbot : 0 <= nonce_bottom n < 64) by (apply Z.mod_pos_bound; lia).
  set (c' := if negb _ then _ else c). assert (Hw : (KtopStr0 c', KtopStr1 c', KtopStr2 c') = ktop_words (nonce_top n) /\ ctx_ok c').
  { subst c'. case_bool_decide as E; cbn [negb].
    - destruct Hcache as [->|Hcache]; [done|]. by rewrite E.
    - destruct Hc as [(Hk & Ek & Ed) H1 H2 H3 _]. cbn [KtopStr0 KtopStr1 KtopStr2 set_field]. rewrite Ek.
      destruct (aes_encrypt_octets k (nonce_top n)) as [Lk Ok_]. rewrite !bswap64_load by (auto using Forall_take, Forall_drop || rewrite length_take, ?length_drop, Lk; done).
      rewrite (take_ge (drop 8 _)) by (rewrite length_drop, Lk; done). split; [done|]. split; cbn; try done. exists (nonce_top n). split; [by apply repr_load|by right]. }
  destruct Hw as [Hw Hc']. eexists _, c'. split; [done|]. split; [|done].
  pose proof (ktop_words_u64 (nonce_top n)) as Hu. rewrite <- Hw in Hu. destruct Hu as (H0 & H1 & H2 & Hs). destruct (gen_offset_wf _ _ _ _ H0 H1 H2 Hbot) as [Hwf Eo].
  split; [done|]. rewrite Eo. apply Hs.
Qed.

(** ** Lists of blocks *)

Abbreviation reprs := (Forall2 repr).

Lemma reprs_xor a b x y : reprs a x -> reprs b y -> reprs (zip_with xor_block a b) (zip_with octets_xor x y).
Proof. intros H1. revert b y. induction H1; intros b' y' H2; destruct H2; cbn; constructor; auto using repr_xor. Qed.
Lemma reprs_map (F : block -> block) (f : bytes -> bytes) a x : (forall b y, repr b y -> repr (F b) (f y)) -> reprs a x -> reprs (F <$> a) (f <$> x).
Proof. intros Hf. induction 1; cbn; constructor; auto. Qed.
Lemma reprs_foldl a x s t : reprs a x -> repr s t -> repr (foldl xor_block s a) (foldl octets_xor t x).
Proof. intros H1. revert s t. induction H1; intros s t Hs; [done|]. cbn. apply IHForall2. by apply repr_xor. Qed.
Lemma foldl_xor_r l u v : octets_xor (foldl octets_xor u l) v = foldl octets_xor (octets_xor u v) l.
Proof. revert u v. induction l as [|z l IH]; intros u v; [done|]. cbn. rewrite IH. f_equal. rewrite !xor_assoc. f_equal. apply xor_comm. Qed.
Lemma reprs_foldr a x s t : reprs a x -> repr s t -> repr (foldr (fun p r => xor_block r p) s a) (foldl octets_xor t x).
Proof.
  intros H1 Hs. induction H1; [done|]. cbn. rewrite <- foldl_xor_r. by apply repr_xor.
Qed.
Lemma reprs_store a x : reprs a x -> a ≫= store = concat x.
Proof. induction 1 as [|b y a x [_ Hb] _ IH]; [done|]. cbn. by rewrite Hb, IH. Qed.
Lemma reprs_length a x : reprs a x -> length a = length x.
Proof. apply Forall2_length. Qed.
Lemma reprs_last a x b y : reprs a x -> repr b y -> repr (List.last a b) (List.last x y).
Proof. induction 1 as [|u v a x Hu Ha IH]; [done|]. intros Hb. specialize (IH Hb). destruct Ha; [done|]. exact IH. Qed.
Lemma reprs_chunks t is_ : octets t -> Forall (fun i => 16 * (i + 1) <= length t)%nat is_ -> reprs (block_at t <$> is_) (chunk t <$> is_).
Proof. intros Ht. induction 1; cbn; constructor; [|done]. by apply repr_load, chunk16. Qed.

(** What a group writes, and the offsets it uses. *)
Lemma reprs_out (F : block -> block) f oa O pt P : (forall b y, repr b y -> repr (F b) (f y)) -> reprs oa O -> reprs pt P ->
  reprs (zip_with xor_block (F <$> zip_with xor_block oa pt) oa) (zip_with (ocb_block f) O P).
Proof.
  intros Hf H1. revert pt P. induction H1 as [|o x oa O Ho _ IH]; intros pt P H2; [by destruct H2|]. destruct H2 as [|p y pt P Hp Hpt]; cbn; constructor; [|by apply IH].
  unfold ocb_block. rewrite xor_comm, (xor_comm y). auto using repr_xor.
Qed.

Definition offsets (o : bytes) (j n : nat) : list bytes := ocb_offset k o <$> seq (S j) n.

Lemma zip_blocks f o t j n :
  zip_with (ocb_block f) (offsets o j n) (chunks n t) = (fun i => ocb_block f (ocb_offset k o (j + S i)) (chunk t i)) <$> seq 0 n.
Proof.
  unfold offsets, chunks. enough (E : forall s, zip_with (ocb_block f) (ocb_offset k o <$> seq (j + S s) n) (chunk t <$> seq s n) =
    (fun i => ocb_block f (ocb_offset k o (j + S i)) (chunk t i)) <$> seq s n) by (rewrite <- (E 0%nat); do 3 f_equal; lia).
  induction n as [|n IH]; intros s0; [done|]. cbn. f_equal. specialize (IH (S s0)). by replace (j + S (S s0))%nat with (S (j + S s0)) in IH by lia.
Qed.

Lemma concat_fmap {A} (g : nat -> list A) l : concat (g <$> l) = l ≫= g.
Proof. induction l as [|x l IH]; [done|]. cbn. by rewrite IH. Qed.

Lemma concat_blocks f o t j n : concat (zip_with (ocb_block f) (offsets o j n) (chunks n t)) = seq 0 n ≫= (fun i => ocb_block f (ocb_offset k o (j + S i)) (chunk t i)).
Proof. rewrite zip_blocks. apply concat_fmap. Qed.

(** ** The trailing zeros of block numbers *)

Lemma ntz_odd x : 0 <= x -> ntz (2 * x + 1) = 0.
Proof. intros Hx. destruct x; [done| |lia]. done. Qed.
Lemma ntz_even x : 0 < x -> ntz (2 * x) = 1 + ntz x.
Proof. intros Hx. destruct x; [lia| |lia]. done. Qed.

Lemma offset_first o j : (j mod 4 = 0)%nat -> ocb_offset k o (S j) = octets_xor (ocb_offset k o j) (ocb_L k 0).
Proof.
  intros Hj. cbn [ocb_offset]. do 3 f_equal. pose proof (Nat.Div0.div_mod j 4). replace (Z.of_nat (S j)) with (2 * (2 * Z.of_nat (j / 4)) + 1) by lia.
  rewrite ntz_odd by lia. done.
Qed.
Lemma offset_second o j : (j mod 4 = 0)%nat -> ocb_offset k o (S (S j)) = octets_xor (ocb_offset k o (S j)) (ocb_L k 1).
Proof.
  intros Hj. cbn [ocb_offset]. do 3 f_equal. pose proof (Nat.Div0.div_mod j 4). replace (Z.of_nat (S (S j))) with (2 * (2 * Z.of_nat (j / 4) + 1)) by lia.
  rewrite ntz_even, ntz_odd by lia. done.
Qed.
Lemma offset_third o j : (j mod 4 = 0)%nat -> ocb_offset k o (S (S (S j))) = octets_xor (ocb_offset k o (S (S j))) (ocb_L k 0).
Proof.
  intros Hj. cbn [ocb_offset]. do 3 f_equal. pose proof (Nat.Div0.div_mod j 4). replace (Z.of_nat (S (S (S j)))) with (2 * (2 * Z.of_nat (j / 4) + 1) + 1) by lia.
  rewrite ntz_odd by lia. done.
Qed.

(** ** Groups of blocks *)

Lemma getL_ok c i : ctx_ok c -> 0 <= i < 16 -> exists b, getL c i = Ok b /\ repr b (ocb_L k (Z.to_nat i)).
Proof.
  intros Hc Hi. destruct (co_L _ Hc (Z.to_nat i) ltac:(lia)) as (b & E & Hb). exists b. split; [|done].
  unfold getL, at_, lookupZ. by rewrite decide_True, E by lia.
Qed.

Lemma four_offsets_ok c off o j : ctx_ok c -> repr off (ocb_offset k o j) -> (j mod 4 = 0)%nat -> Z.of_nat (j + 4) < 2 ^ 16 ->
  exists oa, four_offsets c off (Z.of_nat (j + 4)) = Ok oa /\ reprs oa (offsets o j 4).
Proof.
  intros Hc Hoff Hj Hb. destruct (getL_ok c 0 Hc ltac:(lia)) as (l0 & E0 & H0). destruct (getL_ok c 1 Hc ltac:(lia)) as (l1 & E1 & H1).
  destruct (getL_ok c (ntz (Z.of_nat (j + 4))) Hc (ntz_bound (Z.of_nat (j + 4)) 16 ltac:(lia) ltac:(lia))) as (lt & Et & Ht).
  unfold four_offsets. rewrite E0, E1. cbn [mbind result_bind]. rewrite Et. eexists. split; [done|].
  pose proof (offset_first o j Hj) as O1. pose proof (offset_second o j Hj) as O2. pose proof (offset_third o j Hj) as O3.
  assert (O4 : ocb_offset k o (S (S (S (S j)))) = octets_xor (ocb_offset k o (S (S (S j)))) (ocb_L k (Z.to_nat (ntz (Z.of_nat (j + 4)))))).
  { cbn [ocb_offset]. by replace (S (S (S (S j)))) with (j + 4)%nat by lia. }
  unfold offsets. cbn [seq fmap list_fmap]. rewrite O4, O3, O2, O1. repeat (apply Forall2_cons; split; [by auto using repr_xor|]). apply Forall2_nil_2.
Qed.

Lemma offsets_last o j n : List.last (offsets o j n) (ocb_offset k o j) = ocb_offset k o (j + n).
Proof.
  unfold offsets. destruct n as [|n]; [cbn; by rewrite Nat.add_0_r|]. rewrite seq_S, fmap_app. cbn [fmap list_fmap]. rewrite List.last_last. by rewrite Nat.add_succ_comm.
Qed.
Lemma offsets_app o j n m : offsets o j (n + m) = offsets o j n ++ offsets o (j + n) m.
Proof. unfold offsets. rewrite seq_app, fmap_app. done. Qed.
Lemma length_offsets o j n : length (offsets o j n) = n.
Proof. unfold offsets. by rewrite length_fmap, length_seq. Qed.
Lemma length_chunks n t : length (chunks n t) = n.
Proof. unfold chunks. by rewrite length_fmap, length_seq. Qed.
Lemma chunk_drop t n i : chunk (drop (16 * n) t) i = chunk t (n + i).
Proof. unfold chunk. rewrite drop_drop. do 2 f_equal. lia. Qed.
Lemma chunks_app n m t : chunks (n + m) t = chunks n t ++ chunks m (drop (16 * n) t).
Proof.
  unfold chunks. rewrite seq_app, fmap_app. f_equal. rewrite (Nat.add_comm 0 n), <- fmap_add_seq, <- list_fmap_compose.
  apply list_fmap_ext. intros i x _. symmetry. apply chunk_drop.
Qed.

Lemma four_chunks t : octets t -> (64 <= length t)%nat -> reprs (block_at t <$> [0; 1; 2; 3]%nat) (chunks 4 t).
Proof. intros Ht Hl. apply reprs_chunks; [done|]. repeat (apply Forall_cons; split; [lia|]). apply Forall_nil_2. Qed.

(** The octets that [n] blocks of [t] become, the first of them block [j + 1]. *)
Definition blocks_out (f : bytes -> bytes) (o t : bytes) (j n : nat) : bytes :=
  seq 0 n ≫= (fun i => ocb_block f (ocb_offset k o (j + S i)) (chunk t i)).

Lemma blocks_out_app f o t j n m : blocks_out f o t j (n + m) = blocks_out f o t j n ++ blocks_out f o (drop (16 * n) t) (j + n) m.
Proof.
  unfold blocks_out. rewrite <- !concat_blocks. unfold offsets. rewrite chunks_app, seq_app, fmap_app. change (S j + n)%nat with (S (j + n)).
  rewrite zip_with_app by (rewrite length_fmap, length_seq, length_chunks; done). by rewrite concat_app.
Qed.

Lemma length_blocks_out f o t j n : (forall x, octets16 (f x)) -> octets16 o -> length (blocks_out f o t j n) = (16 * n)%nat.
Proof. intros Hf Ho. apply length_bind_blocks. intros i _. by apply ocb_block16, offset16. Qed.

Lemma chunks_blocks_out f o t j n r : (forall x, octets16 (f x)) -> octets16 o ->
  chunks n (blocks_out f o t j n ++ r) = zip_with (ocb_block f) (offsets o j n) (chunks n t).
Proof.
  intros Hf Ho. rewrite zip_blocks. apply list_fmap_ext. intros i x Hx%lookup_seq. destruct Hx as [-> Hi]. unfold blocks_out.
  rewrite chunk_bind; [done| |lia]. intros m _. by apply ocb_block16, offset16.
Qed.

(** One group: its offsets, its blocks [P], what they become [Q]. *)
Lemma group_ok (F : block -> block) f c t off o j : (forall b y, repr b y -> repr (F b) (f y)) ->
  ctx_ok c -> octets t -> (64 <= length t)%nat -> repr off (ocb_offset k o j) -> (j mod 4 = 0)%nat -> Z.of_nat (j + 4) < 2 ^ 16 ->
  exists oa, four_offsets c off (u32 (Z.of_nat j + BPI)) = Ok oa /\ reprs oa (offsets o j 4) /\ repr (List.last oa off) (ocb_offset k o (j + 4)) /\
    let pt := block_at t <$> [0; 1; 2; 3]%nat in
    reprs pt (chunks 4 t) /\
    let out := zip_with xor_block (F <$> zip_with xor_block oa pt) oa in
    reprs out (zip_with (ocb_block f) (offsets o j 4) (chunks 4 t)) /\ out ≫= store = blocks_out f o t j 4.
Proof.
  intros Hf Hc Ht Hl Hoff Hj Hb. replace (u32 (Z.of_nat j + BPI)) with (Z.of_nat (j + 4)) by (unfold u32, BPI; rewrite Z.mod_small; lia).
  destruct (four_offsets_ok c off o j Hc Hoff Hj Hb) as (oa & E & Hoa). exists oa. pose proof (four_chunks t Ht Hl) as Hpt.
  pose proof (reprs_out F f oa _ _ _ Hf Hoa Hpt) as Hout. cbv zeta.
  split; [done|split; [done|split; [|split; [exact Hpt|split; [exact Hout|]]]]].
  - pose proof (reprs_last _ _ _ _ Hoa Hoff) as Hlast. by rewrite offsets_last in Hlast.
  - rewrite (reprs_store _ _ Hout). apply concat_blocks.
Qed.

Lemma mod4_step j : (j mod 4 = 0)%nat -> ((j + 4) mod 4 = 0)%nat.
Proof. intros H. by rewrite <- (Nat.Div0.add_mod_idemp_r j 4), Nat.Div0.mod_same, Nat.add_0_r. Qed.

Lemma encrypt_groups_ok c o i : ctx_ok c -> forall t ct j off sum s,
  octets t -> (64 * i <= length t)%nat -> repr off (ocb_offset k o j) -> repr sum s -> (j mod 4 = 0)%nat -> Z.of_nat (j + 4 * i) < 2 ^ 16 ->
  exists off' sum', encrypt_groups i c t ct (Z.of_nat j) off sum =
      Ok (drop (64 * i) t, ct ++ blocks_out (aes_encrypt k) o t j (4 * i), Z.of_nat (j + 4 * i), off', sum') /\
    repr off' (ocb_offset k o (j + 4 * i)) /\ repr sum' (foldl octets_xor s (chunks (4 * i) t)).
Proof.
  intros Hc. pose proof (co_key _ Hc) as (_ & Ek & _). induction i as [|i IH]; intros t ct j off sum s Ht Hl Hoff Hsum Hj Hb.
  { exists off, sum. cbn [encrypt_groups]. rewrite Nat.mul_0_r, Nat.add_0_r, app_nil_r. done. }
  cbn [encrypt_groups]. destruct (group_ok (encrypt_block k) (aes_encrypt k) c t off o j) as (oa & E & Hoa & Hlast & Hpt & Hout & Estore); try done; [apply repr_encrypt|lia|lia|].
  rewrite E. cbn [mbind result_bind]. unfold ecb_encrypt_blks. rewrite Ek, Estore. replace (u32 (Z.of_nat j + BPI)) with (Z.of_nat (j + 4)) by (unfold u32, BPI; rewrite Z.mod_small; lia).
  destruct (IH (drop 64 t) (ct ++ blocks_out (aes_encrypt k) o t j 4) (j + 4)%nat _ _ _ ltac:(by apply Forall_drop) ltac:(rewrite length_drop; lia) Hlast
    (reprs_foldl _ _ _ _ Hpt Hsum) (mod4_step j Hj) ltac:(lia)) as (off' & sum' & -> & Hoff' & Hsum').
  exists off', sum'. replace (4 * S i)%nat with (4 + 4 * i)%nat by lia. rewrite blocks_out_app, chunks_app, foldl_app, drop_drop, app_assoc, Nat.add_assoc.
  split_and!; [by replace (64 + 64 * i)%nat with (64 * S i)%nat by lia|done|done].
Qed.

Lemma decrypt_groups_ok c o i : ctx_ok c -> octets16 o -> forall t pt j off sum s,
  octets t -> (64 * i <= length t)%nat -> repr off (ocb_offset k o j) -> repr sum s -> (j mod 4 = 0)%nat -> Z.of_nat (j + 4 * i) < 2 ^ 16 ->
  exists off' sum', decrypt_groups i c t pt (Z.of_nat j) off sum =
      Ok (drop (64 * i) t, pt ++ blocks_out (aes_decrypt k) o t j (4 * i), Z.of_nat (j + 4 * i), off', sum') /\
    repr off' (ocb_offset k o (j + 4 * i)) /\ repr sum' (foldl octets_xor s (chunks (4 * i) (blocks_out (aes_decrypt k) o t j (4 * i)))).
Proof.
  intros Hc Ho. pose proof (co_key _ Hc) as (_ & _ & Ek). induction i as [|i IH]; intros t pt j off sum s Ht Hl Hoff Hsum Hj Hb.
  { exists off, sum. cbn [decrypt_groups]. rewrite Nat.mul_0_r, Nat.add_0_r, app_nil_r. done. }
  cbn [decrypt_groups]. destruct (group_ok (decrypt_block k) (aes_decrypt k) c t off o j) as (oa & E & Hoa & Hlast & Hpt & Hout & Estore); try done; [apply repr_decrypt|lia|lia|].
  rewrite E. cbn [mbind result_bind]. unfold ecb_decrypt_blks. rewrite Ek, Estore. replace (u32 (Z.of_nat j + BPI)) with (Z.of_nat (j + 4)) by (unfold u32, BPI; rewrite Z.mod_small; lia).
  destruct (IH (drop 64 t) (pt ++ blocks_out (aes_decrypt k) o t j 4) (j + 4)%nat _ _ _ ltac:(by apply Forall_drop) ltac:(rewrite length_drop; lia) Hlast
    (reprs_foldl _ _ _ _ Hout Hsum) (mod4_step j Hj) ltac:(lia)) as (off' & sum' & -> & Hoff' & Hsum').
  exists off', sum'. replace (4 * S i)%nat with (4 + 4 * i)%nat by lia. rewrite blocks_out_app, chunks_app, foldl_app, drop_drop, app_assoc, Nat.add_assoc.
  split_and!; [by replace (64 + 64 * i)%nat with (64 * S i)%nat by lia|done|].
  rewrite chunks_blocks_out by auto with ocb. rewrite drop_app_length' by (rewrite length_blocks_out; auto with ocb). done.
Qed.

(** ** What is left of a text *)

Lemma rest_offsets_ok c r off o j : ctx_ok c -> 0 <= r < 64 -> repr off (ocb_offset k o j) -> (j mod 4 = 0)%nat ->
  exists oa, rest_offsets c r off = Ok (oa, r mod 16) /\ reprs oa (offsets o j (Z.to_nat (r / 16))).
Proof.
  intros Hc Hr Hoff Hj. destruct (getL_ok c 0 Hc ltac:(lia)) as (l0 & E0 & H0). destruct (getL_ok c 1 Hc ltac:(lia)) as (l1 & E1 & H1).
  pose proof (offset_first o j Hj) as O1. pose proof (offset_second o j Hj) as O2. pose proof (offset_third o j Hj) as O3.
  assert (R1 : repr (xor_block off l0) (ocb_offset k o (S j))) by (rewrite O1; by apply repr_xor).
  assert (R2 : repr (xor_block (xor_block off l0) l1) (ocb_offset k o (S (S j)))) by (rewrite O2; by apply repr_xor).
  assert (R3 : repr (xor_block (xor_block (xor_block off l0) l1) l0) (ocb_offset k o (S (S (S j))))) by (rewrite O3; by apply repr_xor).
  unfold rest_offsets. rewrite E0, E1. cbn [mbind result_bind]. unfold offsets.
  assert (Hdiv : forall q x, r = 16 * q + x -> 0 <= x < 16 -> r / 16 = q /\ r mod 16 = x) by (intros q x Hx; Z.to_euclidean_division_equations; lia).
  destruct (Z.leb_spec 32 r); cbn [mbind result_bind].
  - destruct (Z.leb_spec 16 (r - 32)); [destruct (Hdiv 3 (r - 32 - 16)) as [-> ->]|destruct (Hdiv 2 (r - 32)) as [-> ->]]; try lia;
      (eexists; split; [done|]); cbn; repeat (apply Forall2_cons; split; [done|]); apply Forall2_nil_2.
  - destruct (Z.leb_spec 16 r); [destruct (Hdiv 1 (r - 16)) as [-> ->]|destruct (Hdiv 0 r) as [-> ->]]; try lia;
      (eexists; split; [done|]); cbn; repeat (apply Forall2_cons; split; [done|]); apply Forall2_nil_2.
Qed.

(** The last block of a text, padded or not there. *)
Definition rest_len (t : bytes) : Z := lenZ t mod 16.

Lemma short_text t : (length t < 64)%nat -> Z.to_nat (lenZ t / 16) = full_blocks t /\ Z.to_nat (lenZ t mod 16) = length (partial t) /\
  take (Z.to_nat (lenZ t mod 16)) (drop (16 * full_blocks t) t) = partial t /\ (lenZ t mod 16 =? 0) = bool_decide (partial t = []).
Proof.
  intros Hl. unfold lenZ. rewrite <- (Nat2Z.inj_div (length t) 16 : _ = _ / 16), <- (Nat2Z.inj_mod (length t) 16 : _ = _ mod 16), !Nat2Z.id. fold (full_blocks t).
  assert (E : (length t mod 16)%nat = length (partial t)).
  { unfold partial. rewrite length_drop. unfold full_blocks. pose proof (Nat.Div0.div_mod (length t) 16). lia. }
  split_and!; [done|done|rewrite E; by apply take_ge|]. rewrite E. destruct (partial t); [done|]. cbn [length]. apply Z.eqb_neq. lia.
Qed.

Lemma take_xor p r x : take (length p) (octets_xor (p ++ r) x) = octets_xor p x.
Proof. revert x. induction p as [|a p IH]; intros x; [by rewrite take_0|]. destruct x; [done|]. cbn. f_equal. apply IH. Qed.

Lemma tag_repr c off O sum s h : ctx_ok c -> repr off O -> repr sum s -> repr (ad_checksum c) h ->
  repr (xor_block (encrypt_block k (xor_block (xor_block off (Ldollar c)) sum)) (ad_checksum c))
    (octets_xor (aes_encrypt k (octets_xor (octets_xor s O) (ocb_Ldollar k))) h).
Proof.
  intros Hc Hoff Hsum Hh. apply repr_xor; [|done]. apply repr_encrypt. rewrite (xor_comm s), xor_assoc, (xor_comm s), <- xor_assoc. apply repr_xor; [|done]. apply repr_xor; [done|apply Hc].
Qed.

Lemma encrypt_rest_ok c o t j off sum s h : ctx_ok c -> octets t -> (length t < 64)%nat -> repr off (ocb_offset k o j) -> repr sum s -> repr (ad_checksum c) h ->
  (j mod 4 = 0)%nat ->
  let n := full_blocks t in let p := partial t in
  let s' := foldl octets_xor s (chunks n t) in
  let '(s', o') := if bool_decide (p = []) then (s', ocb_offset k o (j + n)) else (octets_xor s' (pad_block p), octets_xor (ocb_offset k o (j + n)) (ocb_Lstar k)) in
  exists tag, encrypt_rest c t (lenZ t) off sum = Ok (blocks_out (aes_encrypt k) o t j n ++ ocb_partial k (ocb_offset k o (j + n)) p, tag) /\
    repr tag (octets_xor (aes_encrypt k (octets_xor (octets_xor s' o') (ocb_Ldollar k))) h).
Proof.
  intros Hc Ht Hl Hoff Hsum Hh Hj. cbv zeta. destruct (short_text t Hl) as (En & Elen & Ep & E0). pose proof (partial_short t) as Hps. pose proof (full_blocks_le t) as Hfb.
  pose proof (co_key _ Hc) as (_ & Ek & _). unfold encrypt_rest. destruct (rest_offsets_ok c (lenZ t) off o j Hc ltac:(unfold lenZ; lia) Hoff Hj) as (oa & -> & Hoa).
  cbn [mbind result_bind]. rewrite En in Hoa. pose proof (reprs_length _ _ Hoa) as Hlen. rewrite length_offsets in Hlen. rewrite Hlen. set (n := full_blocks t) in *.
  rewrite Elen in Ep. rewrite E0, Elen, Ep. set (p := partial t) in *.
  assert (Hpt : reprs (block_at t <$> seq 0 n) (chunks n t)) by (apply reprs_chunks; [done|]; apply Forall_forall; intros i Hi%elem_of_seq; lia).
  pose proof (reprs_foldl _ _ _ _ Hpt Hsum) as Hsum'. pose proof (reprs_last _ _ _ _ Hoa Hoff) as Hlast. rewrite offsets_last in Hlast.
  pose proof (reprs_out (encrypt_block k) (aes_encrypt k) _ _ _ _ repr_encrypt Hoa Hpt) as Hout.
  pose proof (reprs_xor _ _ _ _ Hoa Hpt) as Hta. set (ta := zip_with xor_block oa _) in *.
  assert (Lta : length ta = n) by (unfold ta; rewrite length_zip_with, Hlen, length_fmap, length_seq; lia).
  unfold ecb_encrypt_blks. rewrite Ek. assert (Lmap : length (encrypt_block k <$> ta) = n) by (by rewrite length_fmap).
  assert (Hstore : zip_with xor_block (encrypt_block k <$> ta) oa ≫= store = blocks_out (aes_encrypt k) o t j n) by (rewrite (reprs_store _ _ Hout); apply concat_blocks).
  case_bool_decide as Hp; cbn [negb].
  - eexists. split; [|exact (tag_repr c _ _ _ _ _ Hc Hlast Hsum' Hh)].
    rewrite !fmap_app, take_app_length' by done. rewrite Hstore. cbn [fmap list_fmap]. rewrite List.last_last, Hp. done.
  - assert (Hpad : repr (load (pad_block p)) (pad_block p)) by (apply repr_load, pad_block16; [by apply partial_octets|done]).
    assert (Hoff' : repr (xor_block (List.last oa off) (Lstar c)) (octets_xor (ocb_offset k o (j + n)) (ocb_Lstar k))) by (apply repr_xor; [done|apply Hc]).
    eexists. split; [|exact (tag_repr c _ _ _ _ _ Hc Hoff' (repr_xor _ _ _ _ Hsum' Hpad) Hh)].
    rewrite <- app_assoc, fmap_app, take_app_length' by done. rewrite Hstore. cbn [fmap list_fmap app]. fold (pad_block p).
    rewrite (app_assoc (encrypt_block k <$> ta) [_] [_] : _ ++ [_; _] = _), List.last_last. rewrite app_nth1 by (rewrite length_app, Lmap; cbn [length]; lia). rewrite app_nth2 by lia.
    rewrite Lmap, Nat.sub_diag. cbn [nth]. change (p ++ 128 :: replicate (15 - length p) 0) with (pad_block p).
    destruct (repr_xor _ _ _ _ Hpad (repr_encrypt _ _ Hoff')) as [_ ->].
    by rewrite (take_xor p _ _ : take (length p) (octets_xor (pad_block p) _) = _).
Qed.

Lemma partial_out f o t j n p : (forall x, octets16 (f x)) -> octets16 o -> (length p < 16)%nat ->
  partial (blocks_out f o t j n ++ p) = p /\ full_blocks (blocks_out f o t j n ++ p) = n.
Proof.
  intros Hf Ho Hp. assert (E : full_blocks (blocks_out f o t j n ++ p) = n).
  { unfold full_blocks. rewrite length_app, length_blocks_out by done. symmetry. apply (Nat.div_unique _ 16 _ (length p)); lia. }
  split; [|done]. unfold partial. rewrite E, drop_app_length'; [done|]. by rewrite length_blocks_out.
Qed.

Lemma length_partial o p : (length p < 16)%nat -> length (ocb_partial k o p) = length p.
Proof. intros Hp. unfold ocb_partial. rewrite length_xor, (proj1 (aes_encrypt_octets k _)). lia. Qed.

Lemma xor_own_tail p q : length q = 16%nat -> (length p < 16)%nat -> octets_xor (p ++ drop (length p) q) q = octets_xor p q ++ replicate (16 - length p) 0.
Proof.
  intros Hq Hp. rewrite <- (take_drop (length p) q) at 2. unfold octets_xor at 1. rewrite zip_with_app by (rewrite length_take; lia). f_equal.
  - rewrite <- (take_drop (length p) q) at 2. clear. revert q. induction p as [|x p IH]; intros q; [done|]. destruct q; [done|]. cbn. f_equal. apply IH.
  - replace (16 - length p)%nat with (length (drop (length p) q)) by (rewrite length_drop; lia). by apply (octets_xor_zero (drop (length p) q)).
Qed.

(** The padded block of a partial plaintext, as decryption makes it. *)
Lemma decrypt_partial b O p : repr b O -> octets p -> (length p < 16)%nat ->
  let pad := aes_encrypt k (store b) in
  let tmp := store (xor_block (load (p ++ drop (length p) pad)) (load pad)) in
  take (length p) tmp ++ [0x80] ++ drop (length p + 1) tmp = pad_block (octets_xor p (aes_encrypt k O)).
Proof.
  intros [_ <-] Hp Hl. cbv zeta. set (q := aes_encrypt k (store b)). pose proof (aes_encrypt_octets k (store b) : octets16 q) as [Lq Hq].
  assert (H1 : octets16 (p ++ drop (length p) q)) by (split; [rewrite length_app, length_drop; lia|apply Forall_app; split; [done|by apply Forall_drop]]).
  destruct (repr_xor _ _ _ _ (repr_load _ H1) (repr_load q (conj Lq Hq))) as [_ ->]. rewrite xor_own_tail by done.
  assert (Lx : length (octets_xor p q) = length p) by (rewrite length_xor; lia). unfold pad_block. rewrite take_app_length' by done. rewrite Lx. f_equal. f_equal.
  rewrite drop_app_ge by lia. rewrite Lx. replace (length p + 1 - length p)%nat with 1%nat by lia. replace (16 - length p)%nat with (S (15 - length p)) by lia. done.
Qed.

(** The text that decryption writes is the one that is summed up. *)
Lemma decrypt_rest_ok c o t j off sum s h : ctx_ok c -> octets16 o -> octets t -> (length t < 64)%nat -> repr off (ocb_offset k o j) -> repr sum s -> repr (ad_checksum c) h ->
  (j mod 4 = 0)%nat ->
  let n := full_blocks t in
  let out := blocks_out (aes_decrypt k) o t j n ++ ocb_partial k (ocb_offset k o (j + n)) (partial t) in
  let s' := foldl octets_xor s (chunks n out) in
  let '(s', o') := if bool_decide (partial out = []) then (s', ocb_offset k o (j + n)) else (octets_xor s' (pad_block (partial out)), octets_xor (ocb_offset k o (j + n)) (ocb_Lstar k)) in
  exists tag, decrypt_rest c t (lenZ t) off sum = Ok (out, tag) /\
    repr tag (octets_xor (aes_encrypt k (octets_xor (octets_xor s' o') (ocb_Ldollar k))) h).
Proof.
  intros Hc Ho Ht Hl Hoff Hsum Hh Hj. cbv zeta. destruct (short_text t Hl) as (En & Elen & Ep & E0). pose proof (partial_short t) as Hps. pose proof (full_blocks_le t) as Hfb.
  pose proof (co_key _ Hc) as (_ & Ek & Ekd). unfold decrypt_rest. destruct (rest_offsets_ok c (lenZ t) off o j Hc ltac:(unfold lenZ; lia) Hoff Hj) as (oa & -> & Hoa).
  cbn [mbind result_bind]. rewrite En in Hoa. pose proof (reprs_length _ _ Hoa) as Hlen. rewrite length_offsets in Hlen. rewrite Hlen.
  rewrite Elen in Ep. rewrite E0, Elen. set (n := full_blocks t) in *. set (p := partial t) in *. rewrite Ep.
  assert (Hpt : reprs (block_at t <$> seq 0 n) (chunks n t)) by (apply reprs_chunks; [done|]; apply Forall_forall; intros i Hi%elem_of_seq; lia).
  pose proof (reprs_last _ _ _ _ Hoa Hoff) as Hlast. rewrite offsets_last in Hlast.
  pose proof (reprs_out (decrypt_block k) (aes_decrypt k) _ _ _ _ repr_decrypt Hoa Hpt) as Hout.
  unfold ecb_decrypt_blks. rewrite Ekd, Ek. set (ptp := zip_with xor_block (decrypt_block k <$> _) oa) in *.
  assert (Hstore : ptp ≫= store = blocks_out (aes_decrypt k) o t j n) by (rewrite (reprs_store _ _ Hout); apply concat_blocks).
  rewrite Hstore. rewrite chunks_blocks_out by auto with ocb.
  set (O := ocb_offset k o (j + n)) in *. pose proof (length_partial O p Hps) as Lp.
  destruct (partial_out (aes_decrypt k) o t j n (ocb_partial k O p)) as [-> _]; [auto with ocb|done|lia|].
  assert (Hoff' : repr (xor_block (List.last oa off) (Lstar c)) (octets_xor O (ocb_Lstar k))) by (apply repr_xor; [done|apply Hc]).
  assert (Ed : bool_decide (ocb_partial k O p = []) = bool_decide (p = [])) by (apply bool_decide_ext; rewrite <- !length_zero_iff_nil, Lp; done). rewrite Ed.
  destruct (decide (p = [])) as [Hp|Hp]; [rewrite !(bool_decide_true (p = [])) by done|rewrite !(bool_decide_false (p = [])) by done]; cbn [negb].
  - eexists. split; [by rewrite Hp|]. exact (tag_repr c _ _ _ _ _ Hc Hlast (reprs_foldr _ _ _ _ Hout Hsum) Hh).
  - rewrite (decrypt_partial _ _ p Hoff' ltac:(by apply partial_octets) Hps). fold (ocb_partial k O p).
    assert (Hpad : repr (load (pad_block (ocb_partial k O p))) (pad_block (ocb_partial k O p))).
    { apply repr_load, pad_block16; [|lia]. apply octets_xor_octets; [by apply partial_octets|apply aes_encrypt_octets]. }
    eexists. split; [|rewrite foldl_xor_r; exact (tag_repr c _ _ _ _ _ Hc Hoff' (reprs_foldr _ _ _ _ Hout (repr_xor _ _ _ _ Hsum Hpad)) Hh)].
    rewrite <- Lp at 1. by rewrite (take_app_length (ocb_partial k O p) _ : take _ (pad_block (ocb_partial k O p)) = _).
Qed.

(** ** Associated data *)

(** What [n] blocks of [t] add to the hash, the first of them block [j + 1]. *)
Definition hashed (t : bytes) (j n : nat) : list bytes :=
  (fun i => aes_encrypt k (octets_xor (chunk t i) (ocb_offset k zeros (j + S i)))) <$> seq 0 n.

Lemma hashed_app t j n m : hashed t j (n + m) = hashed t j n ++ hashed (drop (16 * n) t) (j + n) m.
Proof.
  unfold hashed. rewrite seq_app, fmap_app. f_equal. rewrite (Nat.add_comm 0 n), <- fmap_add_seq, <- list_fmap_compose.
  apply list_fmap_ext. intros i x _. cbn [compose]. rewrite chunk_drop. do 3 f_equal. lia.
Qed.

Lemma reprs_hashed oa t j n : octets t -> (16 * n <= length t)%nat -> reprs oa (offsets zeros j n) ->
  reprs (encrypt_block k <$> zip_with xor_block oa (block_at t <$> seq 0 n)) (hashed t j n).
Proof.
  intros Ht Hn Hoa. assert (Hpt : reprs (block_at t <$> seq 0 n) (chunks n t)) by (apply reprs_chunks; [done|]; apply Forall_forall; intros i Hi%elem_of_seq; lia).
  pose proof (reprs_map _ _ _ _ repr_encrypt (reprs_xor _ _ _ _ Hoa Hpt)) as H. enough (E : aes_encrypt k <$> zip_with octets_xor (offsets zeros j n) (chunks n t) = hashed t j n) by (by rewrite <- E).
  unfold hashed, offsets, chunks. clear. enough (E : forall s, aes_encrypt k <$> zip_with octets_xor (ocb_offset k zeros <$> seq (j + S s) n) (chunk t <$> seq s n) =
    (fun i => aes_encrypt k (octets_xor (chunk t i) (ocb_offset k zeros (j + S i)))) <$> seq s n) by (rewrite <- (E 0%nat); do 4 f_equal; lia).
  induction n as [|n IH]; intros s; [done|]. cbn. rewrite xor_comm. f_equal. specialize (IH (S s)). by replace (j + S (S s))%nat with (S (j + S s)) in IH by lia.
Qed.

(** The third offset is the first one's with the table's second value. *)
Lemma ad_offsets_ok off l0 l1 lt j : (j mod 4 = 0)%nat -> repr off (ocb_offset k zeros j) -> repr l0 (ocb_L k 0) -> repr l1 (ocb_L k 1) ->
  repr lt (ocb_L k (Z.to_nat (ntz (Z.of_nat (j + 4))))) ->
  reprs [xor_block off l0; xor_block (xor_block off l0) l1; xor_block off l1; xor_block (xor_block off l1) lt] (offsets zeros j 4).
Proof.
  intros Hj Hoff H0 H1 Hlt. pose proof (offset_first zeros j Hj) as O1. pose proof (offset_second zeros j Hj) as O2. pose proof (offset_third zeros j Hj) as O3.
  assert (E3 : ocb_offset k zeros (S (S (S j))) = octets_xor (ocb_offset k zeros j) (ocb_L k 1)).
  { rewrite O3, O2, O1, !xor_assoc. f_equal. rewrite (xor_comm (ocb_L k 1)). apply xor_cancel. rewrite !(proj1 (L16 k _)). done. }
  assert (O4 : ocb_offset k zeros (S (S (S (S j)))) = octets_xor (ocb_offset k zeros (S (S (S j)))) (ocb_L k (Z.to_nat (ntz (Z.of_nat (j + 4)))))).
  { cbn [ocb_offset]. by replace (S (S (S (S j)))) with (j + 4)%nat by lia. }
  unfold offsets. cbn [seq fmap list_fmap]. rewrite O4, E3, O2, O1. repeat (apply Forall2_cons; split; [by auto using repr_xor|]). apply Forall2_nil_2.
Qed.

Lemma ad_groups_ok c i : ctx_ok c -> forall t j off sum s,
  octets t -> (64 * i <= length t)%nat -> repr off (ocb_offset k zeros j) -> repr sum s -> (j mod 4 = 0)%nat -> Z.of_nat (j + 4 * i) < 2 ^ 16 ->
  exists off' sum', ad_groups i c t (Z.of_nat j) off sum = Ok (drop (64 * i) t, Z.of_nat (j + 4 * i), off', sum') /\
    repr off' (ocb_offset k zeros (j + 4 * i)) /\ repr sum' (foldl octets_xor s (hashed t j (4 * i))).
Proof.
  intros Hc. pose proof (co_key _ Hc) as (_ & Ek & _). induction i as [|i IH]; intros t j off sum s Ht Hl Hoff Hsum Hj Hb.
  { exists off, sum. cbn [ad_groups]. rewrite Nat.mul_0_r, Nat.add_0_r. done. }
  cbn [ad_groups]. cbv zeta. replace (u32 (Z.of_nat j + BPI)) with (Z.of_nat (j + 4)) by (unfold u32, BPI; rewrite Z.mod_small; lia).
  destruct (getL_ok c 0 Hc ltac:(lia)) as (l0 & E0 & H0). destruct (getL_ok c 1 Hc ltac:(lia)) as (l1 & E1 & H1).
  destruct (getL_ok c (ntz (Z.of_nat (j + 4))) Hc (ntz_bound (Z.of_nat (j + 4)) 16 ltac:(lia) ltac:(lia))) as (lt & Et & Hlt).
  rewrite E0, E1. cbn [mbind result_bind]. rewrite Et. cbn [mbind result_bind].
  set (oa := [xor_block off l0; xor_block (xor_block off l0) l1; xor_block off l1; xor_block (xor_block off l1) lt]).
  assert (Hoa : reprs oa (offsets zeros j 4)) by (by apply (ad_offsets_ok off l0 l1 lt j)).
  pose proof (reprs_hashed oa t j 4 Ht ltac:(lia) Hoa) as Hh. pose proof (reprs_last _ _ _ _ Hoa Hoff) as Hlast. rewrite offsets_last in Hlast.
  unfold ecb_encrypt_blks. rewrite Ek. destruct (IH (drop 64 t) (j + 4)%nat _ _ _ ltac:(by apply Forall_drop) ltac:(rewrite length_drop; lia) Hlast
    (reprs_foldl _ _ _ _ Hh Hsum) (mod4_step j Hj) ltac:(lia)) as (off' & sum' & E & Hoff' & Hsum').
  exists off', sum'. rewrite drop_drop in E.
  split; [replace (64 * S i)%nat with (64 + 64 * i)%nat by lia; replace (j + 4 * S i)%nat with (j + 4 + 4 * i)%nat by lia; exact E|]. replace (4 * S i)%nat with (4 + 4 * i)%nat by lia.
  rewrite hashed_app, foldl_app, Nat.add_assoc. done.
Qed.

Lemma ad_rest_eq c t j off sum : ctx_ok c -> (length t < 64)%nat -> repr off (ocb_offset k zeros j) -> (j mod 4 = 0)%nat ->
  exists oa, reprs oa (offsets zeros j (full_blocks t)) /\
    ad_rest c t (lenZ t) off sum =
      let ta := zip_with xor_block oa (block_at t <$> seq 0 (full_blocks t)) in
      let ta := if negb (lenZ t mod 16 =? 0) then ta ++ [xor_block (xor_block (List.last oa off) (Lstar c)) (load (pad_block (partial t)))] else ta in
      Ok (foldr (fun t s => xor_block s t) sum (ecb_encrypt_blks ta (encrypt_key c))).
Proof.
  intros Hc Hl Hoff Hj. destruct (short_text t Hl) as (En & Elen & Ep & _). destruct (rest_offsets_ok c (lenZ t) off zeros j Hc ltac:(unfold lenZ; lia) Hoff Hj) as (oa & E & Hoa).
  rewrite En in Hoa. exists oa. split; [done|]. assert (Epad : pad_block (partial t) = take (Z.to_nat (lenZ t mod 16)) (drop (16 * full_blocks t) t) ++ [0x80] ++ replicate (15 - Z.to_nat (lenZ t mod 16)) 0) by (by rewrite Ep, Elen).
  rewrite Epad. clear Epad Ep Elen Hoa Hl. revert E. unfold rest_offsets, ad_rest. change (ntz 2) with 1. rewrite <- En.
  destruct (getL_ok c 0 Hc ltac:(lia)) as (l0 & -> & _). destruct (getL_ok c 1 Hc ltac:(lia)) as (l1 & -> & _).
  assert (Hdiv : forall q x, lenZ t = 16 * q + x -> 0 <= x < 16 -> lenZ t / 16 = q /\ lenZ t mod 16 = x) by (intros q x Hx; Z.to_euclidean_division_equations; lia).
  pose proof (Z.mod_pos_bound (lenZ t) 16). pose proof (lenZ_nonneg t).
  destruct (Z.leb_spec 32 (lenZ t)); cbn [mbind result_bind];
    [destruct (Z.leb_spec 16 (lenZ t - 32))|destruct (Z.leb_spec 16 (lenZ t))]; cbn [mbind result_bind]; intros [= <- Er].
  - destruct (Hdiv 3 (lenZ t - 32 - 16)) as [-> ->]; [lia|lia|]. done.
  - destruct (Hdiv 2 (lenZ t - 32)) as [-> ->]; [lia|lia|]. done.
  - destruct (Hdiv 1 (lenZ t - 16)) as [-> ->]; [lia|lia|]. done.
  - destruct (Hdiv 0 (lenZ t)) as [-> ->]; [lia|lia|]. done.
Qed.

Lemma ad_rest_ok c t j off sum s : ctx_ok c -> octets t -> (length t < 64)%nat -> repr off (ocb_offset k zeros j) -> repr sum s -> (j mod 4 = 0)%nat ->
  let n := full_blocks t in
  exists sum', ad_rest c t (lenZ t) off sum = Ok sum' /\
    repr sum' (let s' := foldl octets_xor s (hashed t j n) in
      if bool_decide (partial t = []) then s'
      else octets_xor s' (aes_encrypt k (octets_xor (pad_block (partial t)) (octets_xor (ocb_offset k zeros (j + n)) (ocb_Lstar k))))).
Proof.
  intros Hc Ht Hl Hoff Hsum Hj. cbv zeta. destruct (short_text t Hl) as (En & Elen & Ep & E0). pose proof (partial_short t) as Hps. pose proof (full_blocks_le t) as Hfb.
  pose proof (co_key _ Hc) as (_ & Ek & _). destruct (ad_rest_eq c t j off sum Hc Hl Hoff Hj) as (oa & Hoa & ->).
  cbv zeta. rewrite Ek, E0. pose proof (reprs_hashed oa t j (full_blocks t) Ht Hfb Hoa) as Hh. eexists. split; [done|].
  case_bool_decide as Hp; cbn [negb]; [exact (reprs_foldr _ _ _ _ Hh Hsum)|]. unfold ecb_encrypt_blks. rewrite fmap_app, foldr_app. cbn [fmap list_fmap foldr].
  rewrite foldl_xor_r. apply reprs_foldr; [exact Hh|]. apply repr_xor; [done|]. apply repr_encrypt.
  pose proof (reprs_last _ _ _ _ Hoa Hoff) as Hlast. rewrite offsets_last in Hlast. rewrite xor_comm.
  apply repr_xor; [apply repr_xor; [done|apply Hc]|]. apply repr_load, pad_block16; [by apply partial_octets|done].
Qed.
End code.
