(* ===== verification/OcbCall.v ===== *)
(** * Calls of the cipher

    [ae_encrypt] and [ae_decrypt] of a context that has processed part of a
    message, and whole messages. *)
From S2P Require Export OcbCode.

(** ** Texts in two parts, the first of whole blocks *)

Section parts.
Context `{HBC : BlockCipher} `{HBL : !BlockCipherLaws} (k : bytes) (m : nat) (P t : bytes) (HP : length P = (16 * m)%nat).

Lemma full_blocks_parts : full_blocks (P ++ t) = (m + full_blocks t)%nat.
Proof using HP. unfold full_blocks. rewrite length_app, HP, Nat.mul_comm, Nat.div_add_l by lia. done. Qed.
Lemma partial_parts : partial (P ++ t) = partial t.
Proof using HP. unfold partial. rewrite full_blocks_parts, Nat.mul_add_distr_l, <- drop_drop, drop_app_length' by done. done. Qed.
Lemma chunk_parts i : (i < m)%nat -> chunk (P ++ t) i = chunk P i.
Proof using HP. intros Hi. unfold chunk. rewrite drop_app_le by lia. apply take_app_le. rewrite length_drop. lia. Qed.
Lemma chunks_parts n : chunks (m + n) (P ++ t) = chunks m P ++ chunks n t.
Proof using HP.
  rewrite chunks_app, drop_app_length' by done. f_equal. apply list_fmap_ext. intros i x [-> Hi]%lookup_seq. apply chunk_parts. lia.
Qed.
Lemma hashed_parts j n : hashed k (P ++ t) j (m + n) = hashed k P j m ++ hashed k t (j + m) n.
Proof using HP.
  rewrite hashed_app, drop_app_length' by done. f_equal. apply list_fmap_ext. intros i x [-> Hi]%lookup_seq. rewrite chunk_parts by lia. done.
Qed.
Lemma blocks_out_parts f o j n : blocks_out k f o (P ++ t) j (m + n) = blocks_out k f o P j m ++ blocks_out k f o t (j + m) n.
Proof using HP.
  rewrite blocks_out_app, drop_app_length' by done. f_equal. apply bind_ext. intros i Hi. by rewrite chunk_parts by lia.
Qed.
End parts.

Lemma full_blocks_mul P m : length P = (16 * m)%nat -> full_blocks P = m /\ partial P = [].
Proof. intros HP. assert (E : full_blocks P = m) by (unfold full_blocks; rewrite HP, Nat.mul_comm; by apply Nat.div_mul). split; [done|]. unfold partial. rewrite E. apply drop_ge. lia. Qed.

(** ** A message under way *)

Section calls.
Context `{HB : BlockOps} `{HBO : !BlockLaws} `{HBC : BlockCipher} `{HBL : !BlockCipherLaws} (k : bytes).

(** [P] is the plaintext so far, of a message whose first offset is [o]. *)
Record text_at (o P : bytes) (c : ae_ctx) : Prop := {
  ta_ctx : ctx_ok k c;
  ta_octets : octets16 o /\ octets P;
  ta_groups : (length P mod 64 = 0)%nat;
  ta_offset : repr (offset c) (ocb_offset k o (full_blocks P));
  ta_checksum : repr (checksum c) (ocb_sum (chunks (full_blocks P) P));
  ta_blocks : blocks_processed c = Z.of_nat (full_blocks P) }.

(** [A] is the associated data so far. *)
Record ad_at (A : bytes) (c : ae_ctx) : Prop := {
  aa_octets : octets A;
  aa_groups : (length A mod 64 = 0)%nat;
  aa_offset : repr (ad_offset c) (ocb_offset k zeros (full_blocks A));
  aa_checksum : repr (ad_checksum c) (ocb_sum (hashed k A 0 (full_blocks A)));
  aa_blocks : ad_blocks_processed c = Z.of_nat (full_blocks A) }.

Lemma groups_blocks P : (length P mod 64 = 0)%nat -> exists q, length P = (16 * (4 * q))%nat /\ full_blocks P = (4 * q)%nat /\ partial P = [].
Proof.
  intros HP. exists (length P / 64)%nat. assert (E : length P = (16 * (4 * (length P / 64)))%nat) by (pose proof (Nat.Div0.div_mod (length P) 64); lia).
  split; [done|]. by apply full_blocks_mul.
Qed.

(** The groups of a text and what is left of it. *)
Lemma group_split t : let i := Z.to_nat (lenZ t / (BPI * 16)) in let r := drop (64 * i) t in
  (64 * i <= length t)%nat /\ (length r < 64)%nat /\ lenZ t mod (BPI * 16) = lenZ r /\ full_blocks t = (4 * i + full_blocks r)%nat /\ partial t = partial r.
Proof.
  cbv zeta. unfold BPI. change (4 * 16) with 64. assert (Ei : Z.to_nat (lenZ t / 64) = (length t / 64)%nat).
  { unfold lenZ. rewrite <- (Nat2Z.inj_div (length t) 64 : _ = _ / 64). by rewrite Nat2Z.id. }
  rewrite Ei. set (i := (length t / 64)%nat). pose proof (Nat.Div0.div_mod (length t) 64) as Hd. pose proof (Nat.mod_upper_bound (length t) 64 ltac:(lia)) as Hm. fold i in Hd.
  assert (Hle : (64 * i <= length t)%nat) by lia. assert (Hr : length (drop (64 * i) t) = (length t mod 64)%nat) by (rewrite length_drop; lia).
  assert (Hp : length (take (64 * i) t) = (16 * (4 * i))%nat) by (rewrite length_take; lia).
  pose proof (full_blocks_parts (4 * i) _ (drop (64 * i) t) Hp) as H1. pose proof (partial_parts (4 * i) _ (drop (64 * i) t) Hp) as H2. rewrite take_drop in H1, H2.
  split_and!; [done|lia| |done|done]. unfold lenZ. rewrite Hr. by rewrite (Nat2Z.inj_mod (length t) 64).
Qed.

Lemma lenZ_groups (t : bytes) : (length t mod 64 = 0)%nat -> drop (64 * Z.to_nat (lenZ t / (BPI * 16))) t = [].
Proof.
  intros Ht. destruct (group_split t) as (Hle & Hr & Hm & _). cbv zeta in *. apply length_zero_iff_nil. unfold lenZ, BPI in *. change (4 * 16) with 64 in *.
  rewrite <- (Nat2Z.inj_mod (length t) 64 : _ = _ mod 64), Ht in Hm. lia.
Qed.

(** ** Associated data *)

(** Only the fields of the associated data change. *)
Definition same_text (c c' : ae_ctx) : Prop :=
  offset c' = offset c /\ checksum c' = checksum c /\ blocks_processed c' = blocks_processed c.

Lemma same_text_at o P c c' : same_text c c' -> ctx_ok k c' -> text_at o P c -> text_at o P c'.
Proof. intros (E1 & E2 & E3) Hc' [Hc H1 H2 H3 H4 H5]. split; rewrite ?E1, ?E2, ?E3; done. Qed.

Lemma ad_fields_ok c n o s : ctx_ok k c -> let c' := c <| ad_blocks_processed := n |> <| ad_offset := o |> <| ad_checksum := s |> in ctx_ok k c' /\ same_text c c'.
Proof. intros []. split; [by split|done]. Qed.
Lemma ad_checksum_ok c s : ctx_ok k c -> let c' := c <| ad_checksum := s |> in ctx_ok k c' /\ same_text c c'.
Proof. intros []. split; [by split|done]. Qed.

(** The fields can be written back when there was no group, too. *)
Lemma process_ad_eq a final c : process_ad a final c =
  ('(adp, num, off, sum) ← ad_groups (Z.to_nat (lenZ a / (BPI * 16))) c a (ad_blocks_processed c) (ad_offset c) (ad_checksum c);
   let c := c <| ad_blocks_processed := num |> <| ad_offset := off |> <| ad_checksum := sum |> in
   if final && negb (lenZ a mod (BPI * 16) =? 0) then sum ← ad_rest c adp (lenZ a mod (BPI * 16)) off sum; Ok (c <| ad_checksum := sum |>) else Ok c).
Proof. unfold process_ad. by destruct (Z.to_nat _); [destruct c|]. Qed.

Lemma process_ad_ok A a final c : ctx_ok k c -> ad_at A c -> octets a -> Z.of_nat (length (A ++ a)) < 2 ^ 20 ->
  exists c', process_ad a final c = Ok c' /\ ctx_ok k c' /\ same_text c c' /\
    if final then repr (ad_checksum c') (ocb_hash k (A ++ a)) else (length a mod 64 = 0)%nat -> ad_at (A ++ a) c'.
Proof.
  intros Hc [HA HAm Hoff Hsum Hn] Ha Hlen. destruct (groups_blocks A HAm) as (q & HlA & EA & _). rewrite length_app in Hlen.
  destruct (group_split a) as (Hle & Hr & Em & Efb & Epar). rewrite process_ad_eq, Hn. set (i := Z.to_nat _) in *. set (r := drop (64 * i) a) in *. rewrite EA in *.
  assert (Hq : ((4 * q) mod 4 = 0)%nat) by (rewrite Nat.mul_comm; apply Nat.Div0.mod_mul).
  destruct (ad_groups_ok k c i Hc a (4 * q) (ad_offset c) (ad_checksum c) _ Ha Hle Hoff Hsum Hq ltac:(lia)) as (off & sum & -> & Hoff' & Hsum'). cbn [mbind result_bind]. cbv zeta. fold r.
  destruct (ad_fields_ok c (Z.of_nat (4 * q + 4 * i)) off sum Hc) as [Hc1 Hsame]. cbv zeta in Hc1, Hsame. set (c1 := c <| ad_blocks_processed := _ |> <| ad_offset := _ |> <| ad_checksum := _ |>) in *.
  assert (EAa : full_blocks (A ++ a) = (4 * q + (4 * i + full_blocks r))%nat) by (rewrite (full_blocks_parts (4 * q)), Efb by done; done).
  assert (Eh : forall x, foldl octets_xor (foldl octets_xor (ocb_sum (hashed k A 0 (4 * q))) (hashed k a (4 * q) (4 * i))) (hashed k r (4 * q + 4 * i) x) =
    ocb_sum (hashed k (A ++ a) 0 (4 * q + (4 * i + x)))).
  { intros x. rewrite hashed_parts by done. unfold ocb_sum. rewrite hashed_app, !foldl_app. by replace (16 * (4 * i))%nat with (64 * i)%nat by lia. }
  destruct final; cbn [andb].
  - assert (Ehash : ocb_hash k (A ++ a) = if bool_decide (partial r = []) then ocb_sum (hashed k (A ++ a) 0 (4 * q + (4 * i + full_blocks r)))
      else octets_xor (ocb_sum (hashed k (A ++ a) 0 (4 * q + (4 * i + full_blocks r))))
        (aes_encrypt k (octets_xor (pad_block (partial r)) (octets_xor (ocb_offset k zeros (4 * q + 4 * i + full_blocks r)) (ocb_Lstar k))))).
    { unfold ocb_hash. cbv zeta. rewrite EAa, (partial_parts (4 * q)), Epar by done. by rewrite Nat.add_assoc. }
    rewrite Ehash, Em. rewrite <- Eh. assert (Hi4 : ((4 * q + 4 * i) mod 4 = 0)%nat) by (rewrite <- Nat.mul_add_distr_l, Nat.mul_comm; apply Nat.Div0.mod_mul).
    destruct (Z.eqb_spec (lenZ r) 0) as [E0|E0]; cbn [negb].
    + eexists. split; [done|]. split; [done|split; [done|]]. assert (r = []) as -> by (apply length_zero_iff_nil; unfold lenZ in E0; lia). cbn. exact Hsum'.
    + destruct (ad_rest_ok k c1 r (4 * q + 4 * i) off sum _ Hc1 ltac:(by apply Forall_drop) Hr Hoff' Hsum' Hi4) as (sum2 & -> & Hsum2). cbn [mbind result_bind].
      eexists. split; [done|]. destruct (ad_checksum_ok c1 sum2 Hc1) as [Hc2 Hs2]. split; [exact Hc2|split; [exact Hsame|exact Hsum2]].
  - eexists. split; [done|]. split; [done|split; [done|]]. intros Hm. rewrite (lenZ_groups a Hm : r = []) in EAa, Eh. change (full_blocks []) with 0%nat in EAa. rewrite Nat.add_0_r in EAa.
    specialize (Eh 0%nat). cbn [hashed fmap list_fmap foldl seq] in Eh. rewrite Nat.add_0_r in Eh.
    split; [by apply Forall_app|rewrite length_app, <- Nat.Div0.add_mod_idemp_l, HAm; done|rewrite EAa; exact Hoff'|rewrite EAa, <- Eh; exact Hsum'|by rewrite EAa].
Qed.

(** The data of one call. *)
Lemma process_any_ad_ok A a final c : ctx_ok k c -> ad_at A c -> octets a -> Z.of_nat (length (A ++ a)) < 2 ^ 20 ->
  exists c', process_any_ad (Some a) final c = Ok c' /\ ctx_ok k c' /\ same_text c c' /\
    if final then repr (ad_checksum c') (ocb_hash k (A ++ a)) else (length a mod 64 = 0)%nat -> ad_at (A ++ a) c'.
Proof.
  intros Hc HA Ha Hl. cbn [process_any_ad]. case_bool_decide as E; [|by apply process_ad_ok]. subst a. rewrite app_nil_r in *.
  exists c. split; [done|]. split; [done|split; [done|]]. destruct final; [|done]. destruct (groups_blocks A (aa_groups _ _ HA)) as (q & _ & _ & Ep).
  unfold ocb_hash. cbv zeta. rewrite Ep, bool_decide_true by done. apply (aa_checksum _ _ HA).
Qed.

(** ** The start of a message *)

Lemma gen_offset_cached n c : ad_checksum (gen_offset_from_nonce n c).2 = ad_checksum c.
Proof. unfold gen_offset_from_nonce. cbv zeta. cbn [snd]. by destruct (unequal_blocks _ _). Qed.
Lemma start_fields_ok c o : ctx_ok k c ->
  ctx_ok k (c <| offset := o |> <| checksum := zero_block |> <| ad_offset := zero_block |> <| blocks_processed := 0 |> <| ad_blocks_processed := 0 |>).
Proof. intros []. by split. Qed.

Lemma start_message_ok n ad c : ctx_ok k c -> length n = 12%nat -> octets n ->
  let c' := start_message (Some n) ad c in
  text_at (ocb_offset0 k n) [] c' /\ match ad with Some _ => ad_at [] c' | None => ad_checksum c' = ad_checksum c end.
Proof.
  intros Hc Hl Hn. cbv zeta. unfold start_message. pose proof (gen_offset_cached n c) as Hcached. destruct (gen_offset_ok k n c Hc Hl Hn) as (o & c1 & E & Ho & Hc1). rewrite E in *.
  pose proof (start_fields_ok c1 o Hc1) as Hc2. destruct ad as [a|]; split.
  - split; [by apply ad_checksum_ok|split; [apply offset0_16|done]|done|exact Ho|exact repr_zero|done].
  - split; [done|done|exact repr_zero|exact repr_zero|done].
  - split; [done|split; [apply offset0_16|done]|done|exact Ho|exact repr_zero|done].
  - exact Hcached.
Qed.

(** ** Encryption *)

(** Only the fields of the text change. *)
Definition same_ad (c c' : ae_ctx) : Prop :=
  ad_offset c' = ad_offset c /\ ad_checksum c' = ad_checksum c /\ ad_blocks_processed c' = ad_blocks_processed c.
Lemma same_ad_at A c c' : same_ad c c' -> ad_at A c -> ad_at A c'.
Proof. intros (E1 & E2 & E3) [H1 H2 H3 H4 H5]. split; rewrite ?E1, ?E2, ?E3; done. Qed.
Lemma text_fields_ok c n o s : ctx_ok k c -> let c' := c <| offset := o |> <| blocks_processed := n |> <| checksum := s |> in ctx_ok k c' /\ same_ad c c'.
Proof. intros []. split; [by split|done]. Qed.

Lemma encrypt_text_eq pt tag final c : encrypt_text pt tag final c =
  ('(ptp, ct, num, off, sum) ← encrypt_groups (Z.to_nat (lenZ pt / (BPI * 16))) c pt [] (blocks_processed c) (offset c) (checksum c);
   let c := c <| offset := off |> <| blocks_processed := num |> <| checksum := sum |> in
   if final then
     '(rest, t) ← encrypt_rest c ptp (lenZ pt mod (BPI * 16)) off sum;
     if (tag : bool) then Ok (lenZ pt, ct ++ rest, Some (store t), c) else Ok (lenZ pt + OCB_TAG_LEN, ct ++ rest ++ store t, None, c)
   else Ok (lenZ pt, ct, None, c)).
Proof. unfold encrypt_text. by destruct (Z.to_nat _); [destruct c|]. Qed.

Lemma ocb_text_blocks f o t : ocb_text k f o t = blocks_out k f o t 0 (full_blocks t) ++ ocb_partial k (ocb_offset k o (full_blocks t)) (partial t).
Proof. reflexivity. Qed.

(** The text after [P], in groups and a rest. *)
Section text.
Context (o P t : bytes) (q : nat) (HP : length P = (16 * (4 * q))%nat).
Let i := Z.to_nat (lenZ t / (BPI * 16)).
Let r := drop (64 * i) t.
Let n := full_blocks r.

Lemma text_out f : ocb_text k f o (P ++ t) =
  ocb_text k f o P ++ blocks_out k f o t (4 * q) (4 * i) ++ blocks_out k f o r (4 * q + 4 * i) n ++ ocb_partial k (ocb_offset k o (4 * q + 4 * i + n)) (partial r).
Proof using HP.
  destruct (group_split t) as (_ & _ & _ & Efb & Epar). fold i in Efb, Epar. fold r n in Efb, Epar. rewrite !ocb_text_blocks.
  rewrite (full_blocks_parts (4 * q)), (partial_parts (4 * q)), Efb, Epar by done. rewrite (blocks_out_parts k (4 * q)) by done. cbn [Nat.add]. rewrite blocks_out_app.
  destruct (full_blocks_mul P (4 * q) HP) as [-> ->].
  replace (16 * (4 * i))%nat with (64 * i)%nat by lia. fold r. unfold ocb_partial at 2. cbn [octets_xor zip_with]. rewrite app_nil_r, <- !app_assoc, !Nat.add_assoc. done.
Qed.

Lemma text_sum : ocb_sum (chunks (full_blocks (P ++ t)) (P ++ t)) = foldl octets_xor (foldl octets_xor (ocb_sum (chunks (4 * q) P)) (chunks (4 * i) t)) (chunks n r).
Proof using HP.
  destruct (group_split t) as (_ & _ & _ & Efb & _). fold i in Efb. fold r n in Efb. rewrite (full_blocks_parts (4 * q)), (chunks_parts (4 * q)), Efb by done.
  unfold ocb_sum. rewrite chunks_app, !foldl_app. by replace (16 * (4 * i))%nat with (64 * i)%nat by lia.
Qed.

Lemma text_final h : ocb_final k o h (P ++ t) =
  let s := foldl octets_xor (foldl octets_xor (ocb_sum (chunks (4 * q) P)) (chunks (4 * i) t)) (chunks n r) in
  let '(s, o') := if bool_decide (partial r = []) then (s, ocb_offset k o (4 * q + 4 * i + n))
                  else (octets_xor s (pad_block (partial r)), octets_xor (ocb_offset k o (4 * q + 4 * i + n)) (ocb_Lstar k)) in
  octets_xor (aes_encrypt k (octets_xor (octets_xor s o') (ocb_Ldollar k))) h.
Proof using HP.
  destruct (group_split t) as (_ & _ & _ & Efb & Epar). fold i in Efb, Epar. fold r n in Efb, Epar. unfold ocb_final. cbv zeta.
  rewrite text_sum, (full_blocks_parts (4 * q)), (partial_parts (4 * q)), Efb, Epar, Nat.add_assoc by done. done.
Qed.
End text.

Lemma encrypt_text_ok o P pt (tag final : bool) h c : text_at o P c -> octets pt -> Z.of_nat (length (P ++ pt)) < 2 ^ 20 -> repr (ad_checksum c) h ->
  exists ct c', ctx_ok k c' /\ same_ad c c' /\
    if final then
      encrypt_text pt tag final c =
        Ok (if (tag : bool) then (lenZ pt, ct, Some (ocb_final k o h (P ++ pt)), c') else (lenZ pt + OCB_TAG_LEN, ct ++ ocb_final k o h (P ++ pt), None, c')) /\
      ocb_text k (aes_encrypt k) o (P ++ pt) = ocb_text k (aes_encrypt k) o P ++ ct
    else
      encrypt_text pt tag final c = Ok (lenZ pt, ct, None, c') /\
      ((length pt mod 64 = 0)%nat -> text_at o (P ++ pt) c' /\ ocb_text k (aes_encrypt k) o (P ++ pt) = ocb_text k (aes_encrypt k) o P ++ ct).
Proof.
  intros [Hc [Ho HP] HPm Hoff Hsum Hn] Hpt Hlen Hh. destruct (groups_blocks P HPm) as (q & HlP & EP & _). rewrite length_app in Hlen.
  destruct (group_split pt) as (Hle & Hr & Em & Efb & _). pose proof (text_out o P pt q HlP (aes_encrypt k)) as Eout. pose proof (text_final o P pt q HlP h) as Efin. pose proof (text_sum P pt q HlP) as Esum.
  rewrite encrypt_text_eq, Hn. set (i := Z.to_nat _) in *. set (r := drop (64 * i) pt) in *. rewrite EP in *.
  assert (Hq : ((4 * q) mod 4 = 0)%nat) by (rewrite Nat.mul_comm; apply Nat.Div0.mod_mul).
  assert (Hi4 : ((4 * q + 4 * i) mod 4 = 0)%nat) by (rewrite <- Nat.mul_add_distr_l, Nat.mul_comm; apply Nat.Div0.mod_mul).
  destruct (encrypt_groups_ok k c o i Hc pt [] (4 * q) (offset c) (checksum c) _ Hpt Hle Hoff Hsum Hq ltac:(lia)) as (off & sum & -> & Hoff' & Hsum'). cbn [mbind result_bind app]. cbv zeta. fold r.
  destruct (text_fields_ok c (Z.of_nat (4 * q + 4 * i)) off sum Hc) as [Hc1 Hsame]. cbv zeta in Hc1, Hsame. set (c1 := c <| offset := _ |> <| blocks_processed := _ |> <| checksum := _ |>) in *.
  destruct final.
  - pose proof (encrypt_rest_ok k c1 o r (4 * q + 4 * i) off sum _ h Hc1 ltac:(by apply Forall_drop) Hr Hoff' Hsum' Hh Hi4) as Hrest. cbv zeta in Hrest, Efin. rewrite Em.
    set (ct := blocks_out k (aes_encrypt k) o pt (4 * q) (4 * i) ++ blocks_out k (aes_encrypt k) o r (4 * q + 4 * i) (full_blocks r) ++ _) in *. exists ct, c1.
    split; [done|split; [done|]]. split; [|done]. destruct (bool_decide (partial r = [])); destruct Hrest as (tg & -> & _ & Etg); cbn [mbind result_bind]; rewrite Etg, <- Efin; destruct tag; cbn; rewrite ?app_assoc; done.
  - exists (blocks_out k (aes_encrypt k) o pt (4 * q) (4 * i)), c1. split; [done|split; [done|]]. split; [done|]. intros Hm. pose proof (lenZ_groups pt Hm : r = []) as Er. rewrite Er in *.
    change (full_blocks []) with 0%nat in *. rewrite Nat.add_0_r in *. split; [|rewrite Eout; unfold ocb_partial; cbn; by rewrite app_nil_r].
    assert (Efull : full_blocks (P ++ pt) = (4 * q + 4 * i)%nat) by (rewrite (full_blocks_parts (4 * q)), Efb by done; done).
    split; [done|split; [done|by apply Forall_app]|rewrite length_app, <- Nat.Div0.add_mod_idemp_l, HPm; done|rewrite Efull; exact Hoff'|rewrite Esum; exact Hsum'|by rewrite Efull].
Qed.

(** ** Decryption *)

Lemma decrypt_text_eq ct ct_len tag final c : decrypt_text ct ct_len tag final c =
  ('(ctp, pt, num, off, sum) ← decrypt_groups (Z.to_nat (ct_len / (BPI * 16))) c ct [] (blocks_processed c) (offset c) (checksum c);
   let c := c <| offset := off |> <| blocks_processed := num |> <| checksum := sum |> in
   if final then
     '(rest, t) ← decrypt_rest c ctp (ct_len mod (BPI * 16)) off sum;
     let bad := match tag with
                | Some g => unequal_blocks t (load g)
                | None => negb (constant_time_memcmp (Z.to_nat OCB_TAG_LEN) (drop (Z.to_nat ct_len) ct) (store t) 0 =? 0)
                end in
     Ok (if (bad : bool) then AE_INVALID else ct_len, pt ++ rest, c)
   else Ok (ct_len, pt, c)).
Proof. unfold decrypt_text. by destruct (Z.to_nat (ct_len / _)); [destruct c|]. Qed.

(** What follows the text is not read. *)
Lemma block_at_app t g i : (16 * (i + 1) <= length t)%nat -> block_at (t ++ g) i = block_at t i.
Proof. intros Hi. unfold block_at. rewrite drop_app_le by lia. f_equal. apply take_app_le. rewrite length_drop. lia. Qed.
Lemma blocks_out_prefix f o t g j n : (16 * n <= length t)%nat -> blocks_out k f o (t ++ g) j n = blocks_out k f o t j n.
Proof. intros Hn. apply bind_ext. intros i Hi. f_equal. unfold chunk. rewrite drop_app_le by lia. apply take_app_le. rewrite length_drop. lia. Qed.

Lemma decrypt_rest_app c t g off sum j o : ctx_ok k c -> (length t < 64)%nat -> repr off (ocb_offset k o j) -> (j mod 4 = 0)%nat ->
  decrypt_rest c (t ++ g) (lenZ t) off sum = decrypt_rest c t (lenZ t) off sum.
Proof.
  intros Hc Hl Hoff Hj. destruct (short_text t Hl) as (En & Elen & _). unfold decrypt_rest.
  destruct (rest_offsets_ok k c (lenZ t) off o j Hc ltac:(unfold lenZ; lia) Hoff Hj) as (oa & -> & Hoa%Forall2_length). cbn [mbind result_bind].
  rewrite length_offsets, En in Hoa. rewrite Hoa, Elen. pose proof (full_blocks_le t) as Hfb.
  assert (Eb : block_at (t ++ g) <$> seq 0 (full_blocks t) = block_at t <$> seq 0 (full_blocks t)).
  { apply list_fmap_ext. intros i x [-> Hi]%lookup_seq. apply block_at_app. lia. }
  assert (Et : take (length (partial t)) (drop (16 * full_blocks t) (t ++ g)) = take (length (partial t)) (drop (16 * full_blocks t) t)).
  { rewrite drop_app_le by lia. apply take_app_le. done. }
  by rewrite Eb, Et.
Qed.

Lemma memcmp_lor n a b r : constant_time_memcmp n a b r = Z.lor r (constant_time_memcmp n a b 0).
Proof.
  revert a b r. induction n as [|n IH]; intros a b r; cbn [constant_time_memcmp]; [by rewrite Z.lor_0_r|].
  rewrite IH, (IH _ _ (Z.lor 0 _)), Z.lor_0_l. by rewrite Z.lor_assoc.
Qed.
Lemma memcmp_spec a b : length a = length b -> (constant_time_memcmp (length a) a b 0 =? 0) = bool_decide (a = b).
Proof.
  revert b. induction a as [|x a IH]; intros [|y b] Hl; cbn in Hl; try done. cbn [length constant_time_memcmp nth]. change (drop 1 (x :: a)) with a. change (drop 1 (y :: b)) with b. rewrite memcmp_lor, Z.lor_0_l.
  specialize (IH b ltac:(lia)). apply eq_true_iff_eq. rewrite Z.eqb_eq, Z.lor_eq_0_iff, Z.lxor_eq_0_iff, <- (Z.eqb_eq (constant_time_memcmp _ _ _ _)), IH, !bool_decide_eq_true. split; [by intros [-> ->]|by intros [= -> ->]].
Qed.

Lemma tag_check tg T (t g : bytes) (tag : option bytes) : repr tg T -> match tag with Some g' => octets16 g' | None => length g = 16%nat end ->
  match tag with
  | Some g' => unequal_blocks tg (load g')
  | None => negb (constant_time_memcmp (Z.to_nat OCB_TAG_LEN) (drop (Z.to_nat (lenZ t)) (t ++ g)) (store tg) 0 =? 0)
  end = negb (bool_decide (default g tag = T)).
Proof.
  intros Htg Hg. pose proof (repr16 _ _ Htg) as [HT _]. destruct tag as [g'|]; cbn [default].
  - rewrite (repr_eq _ _ _ _ Htg (repr_load _ Hg)). f_equal. by apply bool_decide_ext.
  - unfold lenZ. rewrite Nat2Z.id, drop_app_length, (proj2 Htg). f_equal. change (Z.to_nat OCB_TAG_LEN) with 16%nat. rewrite <- Hg at 1. apply memcmp_spec. lia.
Qed.

(** The tag of a plaintext in three parts. *)
Lemma final_parts o P B R m l h : length P = (16 * m)%nat -> length B = (16 * l)%nat ->
  ocb_final k o h (P ++ B ++ R) =
  let n := full_blocks R in
  let s := foldl octets_xor (foldl octets_xor (ocb_sum (chunks m P)) (chunks l B)) (chunks n R) in
  let '(s, o') := if bool_decide (partial R = []) then (s, ocb_offset k o (m + l + n))
                  else (octets_xor s (pad_block (partial R)), octets_xor (ocb_offset k o (m + l + n)) (ocb_Lstar k)) in
  octets_xor (aes_encrypt k (octets_xor (octets_xor s o') (ocb_Ldollar k))) h.
Proof.
  intros HP HB'. unfold ocb_final. cbv zeta. rewrite (full_blocks_parts m), (full_blocks_parts l), (partial_parts m), (partial_parts l), (chunks_parts m), (chunks_parts l) by done.
  unfold ocb_sum. rewrite !foldl_app, Nat.add_assoc. done.
Qed.

(** The plaintext of one call follows that of the earlier ones; with the last,
    the tag decides on the value returned. *)
Lemma decrypt_text_ok o C t g (tag : option bytes) (final : bool) h c :
  let P := ocb_text k (aes_decrypt k) o C in
  text_at o P c -> octets (t ++ g) -> (length C mod 64 = 0)%nat -> Z.of_nat (length (C ++ t)) < 2 ^ 20 -> repr (ad_checksum c) h ->
  match tag with Some g' => octets16 g' | None => if final then length g = 16%nat else True end ->
  exists pt c', ctx_ok k c' /\ same_ad c c' /\
    if final then
      decrypt_text (t ++ g) (lenZ t) tag final c =
        Ok (if bool_decide (default g tag = ocb_final k o h (P ++ pt)) then lenZ t else AE_INVALID, pt, c') /\
      ocb_text k (aes_decrypt k) o (C ++ t) = P ++ pt
    else
      decrypt_text (t ++ g) (lenZ t) tag final c = Ok (lenZ t, pt, c') /\
      ((length t mod 64 = 0)%nat -> text_at o (P ++ pt) c' /\ ocb_text k (aes_decrypt k) o (C ++ t) = P ++ pt).
Proof.
  intros P [Hc [Ho HP] HPm Hoff Hsum Hn] Hpt HCm Hlen Hh Htag. destruct (groups_blocks C HCm) as (q & HlC & _).
  assert (HlP : length P = (16 * (4 * q))%nat) by (unfold P; rewrite length_ocb_text; auto with ocb). destruct (full_blocks_mul P (4 * q) HlP) as [EP _]. rewrite length_app in Hlen.
  destruct (group_split t) as (Hle & Hr & Em & Efb & _). pose proof (text_out o C t q HlC (aes_decrypt k)) as Eout. fold P in Eout.
  rewrite decrypt_text_eq, Hn. set (i := Z.to_nat (lenZ t / (BPI * 16))) in *. set (r := drop (64 * i) t) in *. rewrite EP in *.
  assert (Hq : ((4 * q) mod 4 = 0)%nat) by (rewrite Nat.mul_comm; apply Nat.Div0.mod_mul).
  assert (Hi4 : ((4 * q + 4 * i) mod 4 = 0)%nat) by (rewrite <- Nat.mul_add_distr_l, Nat.mul_comm; apply Nat.Div0.mod_mul).
  apply Forall_app in Hpt as Hpt2. destruct Hpt2 as [Ht Hg].
  destruct (decrypt_groups_ok k c o i Hc Ho (t ++ g) [] (4 * q) (offset c) (checksum c) _ Hpt ltac:(rewrite length_app; lia) Hoff Hsum Hq ltac:(lia)) as (off & sum & -> & Hoff' & Hsum').
  cbn [mbind result_bind app]. cbv zeta. rewrite (blocks_out_prefix (aes_decrypt k) o t g) in * by lia. rewrite (drop_app_le t g (64 * i)) by lia. fold r. set (B := blocks_out k (aes_decrypt k) o t (4 * q) (4 * i)) in *.
  assert (HlB : length B = (16 * (4 * i))%nat) by (apply length_blocks_out; auto with ocb).
  destruct (text_fields_ok c (Z.of_nat (4 * q + 4 * i)) off sum Hc) as [Hc1 Hsame]. cbv zeta in Hc1, Hsame. set (c1 := c <| offset := _ |> <| blocks_processed := _ |> <| checksum := _ |>) in *.
  destruct final.
  - pose proof (decrypt_rest_ok k c1 o r (4 * q + 4 * i) off sum _ h Hc1 Ho ltac:(by apply Forall_drop) Hr Hoff' Hsum' Hh Hi4) as Hrest. cbv zeta in Hrest.
    rewrite Em, (decrypt_rest_app c1 r g off sum _ o Hc1 Hr Hoff' Hi4). set (R := blocks_out k (aes_decrypt k) o r (4 * q + 4 * i) (full_blocks r) ++ _) in *.
    exists (B ++ R), c1. split; [done|split; [done|]]. split; [|exact Eout].
    assert (Hrn : full_blocks R = full_blocks r) by (apply partial_out; [auto with ocb|done|rewrite length_partial; [apply partial_short|apply partial_short]]).
    rewrite (final_parts o P B R (4 * q) (4 * i) h HlP HlB). cbv zeta. rewrite Hrn. clear Eout.
    destruct (bool_decide (partial R = [])); destruct Hrest as (tg & -> & Htg); cbn [mbind result_bind]; rewrite (tag_check tg _ t g tag Htg Htag); by destruct (bool_decide (default g tag = _)).
  - exists B, c1. split; [done|split; [done|]]. split; [done|]. intros Hm. pose proof (lenZ_groups t Hm : r = []) as Er. rewrite Er in *.
    change (full_blocks []) with 0%nat in *. rewrite Nat.add_0_r in *. split; [|rewrite Eout; unfold ocb_partial; cbn; by rewrite app_nil_r].
    assert (Efull : full_blocks (P ++ B) = (4 * q + 4 * i)%nat) by (rewrite (full_blocks_parts (4 * q)) by done; by destruct (full_blocks_mul B (4 * i) HlB) as [-> _]).
    split; [done|split; [done|]|rewrite length_app, HlP, HlB| | |by rewrite Efull].
    + apply Forall_app. split; [done|]. apply Forall_bind, Forall_forall. intros x _. apply ocb_block16; auto with ocb.
    + replace (16 * (4 * q) + 16 * (4 * i))%nat with ((q + i) * 64)%nat by lia. apply Nat.Div0.mod_mul.
    + rewrite Efull. exact Hoff'.
    + rewrite Efull, (chunks_parts (4 * q)) by done. unfold ocb_sum. rewrite foldl_app. exact Hsum'.
Qed.

(** ** Whole messages *)

(** The value of [ad_len] decides whether a message has associated data of its
    own: below zero, that of the message before counts. *)
Definition ad_of (reuse : bool) (a : bytes) : option bytes := if reuse then None else Some a.
Definition ad_state (reuse : bool) (last A : bytes) (c : ae_ctx) : Prop :=
  if reuse then repr (ad_checksum c) (ocb_hash k last) else ad_at A c.

Lemma ad_state_checksum reuse last A c : ad_state reuse last A c -> exists h, repr (ad_checksum c) h.
Proof. destruct reuse; cbn; [by eexists|]. intros []. by eexists. Qed.
Lemma same_ad_state reuse last A c c' : same_ad c c' -> ad_state reuse last A c -> ad_state reuse last A c'.
Proof. intros Hs. destruct reuse; cbn; [|by apply same_ad_at]. by destruct Hs as (_ & -> & _). Qed.

Lemma ad_step reuse last A a (final : bool) c : ctx_ok k c -> ad_state reuse last A c -> octets a -> Z.of_nat (length (A ++ a)) < 2 ^ 20 ->
  exists c', process_any_ad (ad_of reuse a) final c = Ok c' /\ ctx_ok k c' /\ same_text c c' /\
    if final then repr (ad_checksum c') (ocb_hash k (if reuse then last else A ++ a)) else (length a mod 64 = 0)%nat -> ad_state reuse last (A ++ a) c'.
Proof.
  intros Hc HA Ha Hl. destruct reuse; [|by apply process_any_ad_ok]. exists c. split; [done|]. split; [done|split; [done|]]. by destruct final.
Qed.

(** Calls with the text in pieces, the last one of them final. *)
Fixpoint encrypt_pieces (nonce : option bytes) (reuse : bool) (l : list (bytes * bytes)) (pt a : bytes) (c : ae_ctx) : result fault (Z * bytes * ae_ctx) :=
  match l with
  | [] => '(v, ct, _, c) ← ae_encrypt nonce pt (ad_of reuse a) false true c; Ok (v, ct, c)
  | (p, b) :: l' =>
      '(_, ct, _, c) ← ae_encrypt nonce p (ad_of reuse b) false false c;
      '(v, ct', c) ← encrypt_pieces None reuse l' pt a c;
      Ok (v, ct ++ ct', c)
  end.
Fixpoint decrypt_pieces (nonce : option bytes) (reuse : bool) (l : list (bytes * bytes)) (ct a : bytes) (c : ae_ctx) : result fault (Z * bytes * ae_ctx) :=
  match l with
  | [] => ae_decrypt nonce ct (ad_of reuse a) None true c
  | (p, b) :: l' =>
      '(_, pt, c) ← ae_decrypt nonce p (ad_of reuse b) None false c;
      '(v, pt', c) ← decrypt_pieces None reuse l' ct a c;
      Ok (v, pt ++ pt', c)
  end.

Definition whole_groups (l : list (bytes * bytes)) : Prop :=
  Forall (fun x => octets x.1 /\ octets x.2 /\ (length x.1 mod 64 = 0)%nat /\ (length x.2 mod 64 = 0)%nat) l.
Abbreviation texts l := (concat l.*1).
Abbreviation datas l := (concat l.*2).
Abbreviation short t := (Z.of_nat (length t) < 2 ^ 20).

Lemma app_short {X} (a b : list X) : short (a ++ b) -> short a.
Proof. rewrite length_app. lia. Qed.

Lemma encrypt_pieces_ok o reuse last pt a l : octets pt -> octets a -> whole_groups l -> forall P A c,
  text_at o P c -> ad_state reuse last A c -> short (P ++ texts l ++ pt) -> short (A ++ datas l ++ a) ->
  exists ct c', encrypt_pieces None reuse l pt a c = Ok (lenZ pt + OCB_TAG_LEN, ct, c') /\
    ctx_ok k c' /\ let data := if reuse then last else A ++ datas l ++ a in repr (ad_checksum c') (ocb_hash k data) /\
    ocb_text k (aes_encrypt k) o P ++ ct = ocb_text k (aes_encrypt k) o (P ++ texts l ++ pt) ++ ocb_tag k o data (P ++ texts l ++ pt).
Proof.
  intros Hpt Ha Hl. induction Hl as [|[p b] l (Hp & Hb & Hpm & Hbm) _ IH]; intros P A c HP HA Hs Hsa; cbn [fst snd] in *.
  - cbn [fmap list_fmap concat app encrypt_pieces] in *. unfold ae_encrypt. cbn [start_message]. destruct (ad_step reuse last A a true c (ta_ctx _ _ _ HP) HA Ha Hsa) as (c1 & -> & Hc1 & Hst & Hh).
    cbn [mbind result_bind]. destruct (encrypt_text_ok o P pt false true _ c1 (same_text_at _ _ _ _ Hst Hc1 HP) Hpt Hs Hh) as (ct & c2 & Hc2 & (_ & Ead & _) & -> & Eout).
    cbn [mbind result_bind]. eexists _, c2. split; [done|]. split; [done|]. cbv zeta. rewrite Ead. split; [done|]. by rewrite Eout, <- app_assoc.
  - cbn [fmap list_fmap concat encrypt_pieces fst snd] in *. rewrite <- !app_assoc in *. rewrite (app_assoc P), (app_assoc A) in *. unfold ae_encrypt. cbn [start_message].
    destruct (ad_step reuse last A b false c (ta_ctx _ _ _ HP) HA Hb (app_short _ _ Hsa)) as (c1 & -> & Hc1 & Hst & Hh). specialize (Hh Hbm). destruct (ad_state_checksum _ _ _ _ Hh) as [h Hh'].
    cbn [mbind result_bind]. destruct (encrypt_text_ok o P p false false h c1 (same_text_at _ _ _ _ Hst Hc1 HP) Hp (app_short _ _ Hs) Hh') as (ct & c2 & Hc2 & Had & -> & Eout).
    destruct (Eout Hpm) as [HP2 Eo]. cbn [mbind result_bind]. destruct (IH _ _ c2 HP2 (same_ad_state _ _ _ _ _ Had Hh) Hs Hsa) as (ct' & c3 & -> & Hc3 & Hh3 & Eo3).
    cbn [mbind result_bind]. eexists _, c3. split; [done|]. split; [done|split; [done|]]. by rewrite <- Eo3, Eo, <- app_assoc.
Qed.

Lemma decrypt_pieces_ok o reuse last t g a l : octets (t ++ g) -> length g = 16%nat -> octets a -> whole_groups l -> forall C A c,
  text_at o (ocb_text k (aes_decrypt k) o C) c -> (length C mod 64 = 0)%nat -> ad_state reuse last A c -> short (C ++ texts l ++ t) -> short (A ++ datas l ++ a) ->
  exists pt c' data, data = (if reuse then last else A ++ datas l ++ a) /\
    decrypt_pieces None reuse l (t ++ g) a c = Ok (if bool_decide (g = ocb_tag k o data (ocb_text k (aes_decrypt k) o (C ++ texts l ++ t))) then lenZ t else AE_INVALID, pt, c') /\
    ctx_ok k c' /\ repr (ad_checksum c') (ocb_hash k data) /\
    ocb_text k (aes_decrypt k) o C ++ pt = ocb_text k (aes_decrypt k) o (C ++ texts l ++ t).
Proof.
  intros Ht Hg Ha Hl. induction Hl as [|[p b] l (Hp & Hb & Hpm & Hbm) _ IH]; intros C A c HC HCm HA Hs Hsa; cbn [fst snd] in *.
  - cbn [fmap list_fmap concat app decrypt_pieces] in *. unfold ae_decrypt. cbn [start_message andb]. rewrite bool_decide_true by done. 
    replace (lenZ (t ++ g) - OCB_TAG_LEN) with (lenZ t) by (rewrite lenZ_app; unfold lenZ, OCB_TAG_LEN; rewrite Hg; lia). rewrite (proj2 (Z.ltb_ge (lenZ t) 0)) by apply lenZ_nonneg.
    destruct (ad_step reuse last A a true c (ta_ctx _ _ _ HC) HA Ha Hsa) as (c1 & -> & Hc1 & Hst & Hh).
    cbn [mbind result_bind]. destruct (decrypt_text_ok o C t g None true _ c1 (same_text_at _ _ _ _ Hst Hc1 HC) Ht HCm Hs Hh Hg) as (pt & c2 & Hc2 & (_ & Ead & _) & -> & Eout).
    eexists _, c2, _. rewrite Ead, Eout. done.
  - cbn [fmap list_fmap concat decrypt_pieces fst snd] in *. rewrite <- !app_assoc in *. rewrite (app_assoc C), (app_assoc A) in *. unfold ae_decrypt. cbn [start_message andb].
    rewrite (proj2 (Z.ltb_ge (lenZ p) 0)) by apply lenZ_nonneg.
    destruct (ad_step reuse last A b false c (ta_ctx _ _ _ HC) HA Hb (app_short _ _ Hsa)) as (c1 & -> & Hc1 & Hst & Hh). specialize (Hh Hbm). destruct (ad_state_checksum _ _ _ _ Hh) as [h Hh'].
    cbn [mbind result_bind]. pose proof (decrypt_text_ok o C p [] None false h c1 (same_text_at _ _ _ _ Hst Hc1 HC)) as Htext. rewrite app_nil_r in Htext.
    destruct (Htext Hp HCm (app_short _ _ Hs) Hh' I) as (pt & c2 & Hc2 & Had & -> & Eout). destruct (Eout Hpm) as [HP2 Eo]. cbn [mbind result_bind]. rewrite <- Eo in HP2.
    assert (HCm' : (length (C ++ p) mod 64 = 0)%nat) by (rewrite length_app, <- Nat.Div0.add_mod_idemp_l, HCm; done).
    destruct (IH _ _ c2 HP2 HCm' (same_ad_state _ _ _ _ _ Had Hh) Hs Hsa) as (pt' & c3 & data & Ed & -> & Hc3 & Hh3 & Eo3).
    cbn [mbind result_bind]. eexists _, c3, data. split; [done|]. split; [done|]. split; [done|split; [done|]]. by rewrite <- Eo3, Eo, <- app_assoc.
Qed.
End calls.
