(* ===== verification/OcbRun.v ===== *)
(** * One context, many messages

    A context that is set up for a key and used for any messages computes the
    stateless OCB of RFC 7253 on each, on every platform. *)
From S2P Require Export OcbCall.

(** A message in pieces, each with its part of the associated data. *)
Record message : Type := MkMessage {
  m_seal : bool; m_nonce : bytes; m_reuse : bool; m_pieces : list (bytes * bytes); m_text : bytes; m_data : bytes }.

Definition message_text (m : message) : bytes := concat (m_pieces m).*1 ++ m_text m.
Definition message_data (last : bytes) (m : message) : bytes := if m_reuse m then last else concat (m_pieces m).*2 ++ m_data m.

(** The nonce is 12 octets, what is not at the end comes in whole groups, and
    what is opened has a tag. *)
Record message_ok (m : message) : Prop := {
  mo_nonce : length (m_nonce m) = 12%nat /\ octets (m_nonce m);
  mo_pieces : whole_groups (m_pieces m);
  mo_end : octets (m_text m) /\ octets (m_data m);
  mo_short : Z.of_nat (length (message_text m)) < 2 ^ 20 /\ Z.of_nat (length (concat (m_pieces m).*2 ++ m_data m)) < 2 ^ 20;
  mo_tag : m_seal m = false -> (16 <= length (m_text m))%nat }.

(** The messages of one context, by its code; and what they should be: the
    value of the last call and all that was written. *)
Section run.
Context `{HB : BlockOps} `{HBC : BlockCipher}.

Definition run_message (m : message) (c : ae_ctx) : result fault (Z * bytes * ae_ctx) :=
  (if m_seal m then encrypt_pieces else decrypt_pieces) (Some (m_nonce m)) (m_reuse m) (m_pieces m) (m_text m) (m_data m) c.
Fixpoint run_messages (l : list message) (c : ae_ctx) : result fault (list (Z * bytes)) :=
  match l with
  | [] => Ok []
  | m :: l' =>
      '(v, out, c) ← run_message m c;
      outs ← run_messages l' c;
      Ok ((v, out) :: outs)
  end.
Definition run_context (key : bytes) (l : list message) (c : ae_ctx) : result fault (list (Z * bytes)) := run_messages l (ae_init key 12 c).2.

(** What is opened is written even when its tag is wrong. *)
Definition spec_message (key last : bytes) (m : message) : Z * bytes :=
  let t := message_text m in let a := message_data last m in
  if m_seal m then (lenZ (m_text m) + 16, ocb_encrypt key (m_nonce m) a t)
  else (match ocb_decrypt key (m_nonce m) a t with Some _ => lenZ (m_text m) - 16 | None => AE_INVALID end,
        ocb_text key (aes_decrypt key) (ocb_offset0 key (m_nonce m)) (take (length t - 16) t)).
Fixpoint spec_messages (key last : bytes) (l : list message) : list (Z * bytes) :=
  match l with
  | [] => []
  | m :: l' => spec_message key last m :: spec_messages key (message_data last m) l'
  end.
End run.

Section refinement.
Context `{HB : BlockOps} `{HBO : !BlockLaws} `{HBC : BlockCipher} `{HBL : !BlockCipherLaws} (k : bytes).

(** Between messages, the hash of the last associated data is kept. *)
Definition idle (last : bytes) (c : ae_ctx) : Prop := ctx_ok k c /\ repr (ad_checksum c) (ocb_hash k last).

Lemma start_state n reuse last a c : idle last c -> length n = 12%nat -> octets n ->
  let c' := start_message (Some n) (ad_of reuse a) c in text_at k (ocb_offset0 k n) [] c' /\ ad_state k reuse last [] c'.
Proof.
  intros [Hc Hl] Hn Ho. cbv zeta. destruct (start_message_ok k n (ad_of reuse a) c Hc Hn Ho) as [Ht Hd]. split; [done|].
  destruct reuse; cbn in *; [by rewrite Hd|done].
Qed.

(** The nonce comes with the first call. *)
Lemma encrypt_pieces_start n reuse l pt a c : exists b,
  encrypt_pieces (Some n) reuse l pt a c = encrypt_pieces None reuse l pt a (start_message (Some n) (ad_of reuse b) c).
Proof. destruct l as [|[p b] l]; [by exists a|by exists b]. Qed.
Lemma decrypt_pieces_start n reuse l ct a c : exists b,
  decrypt_pieces (Some n) reuse l ct a c = decrypt_pieces None reuse l ct a (start_message (Some n) (ad_of reuse b) c).
Proof. destruct l as [|[p b] l]; [by exists a|by exists b]. Qed.

Lemma decrypt_tag n a t g : length g = 16%nat ->
  ocb_decrypt k n a (t ++ g) = let pt := ocb_text k (aes_decrypt k) (ocb_offset0 k n) t in if bool_decide (g = ocb_tag k (ocb_offset0 k n) a pt) then Some pt else None.
Proof.
  intros Hg. unfold ocb_decrypt. rewrite lenZ_app. unfold lenZ. rewrite Hg. rewrite (proj2 (Z.ltb_ge _ 16)) by lia. cbv zeta. rewrite length_app, Hg, Nat.add_sub, take_app_length, drop_app_length. done.
Qed.

Lemma run_message_ok last m c : idle last c -> message_ok m -> exists c', run_message m c = Ok (spec_message k last m, c') /\ idle (message_data last m) c'.
Proof.
  intros Hi [[Hn Ho] Hp [Ht Ha] [Hs Hsa] Htag]. unfold run_message, spec_message, message_data, message_text in *. destruct m as [seal n reuse l t a]. cbn [m_seal m_nonce m_reuse m_pieces m_text m_data] in *.
  destruct seal.
  - destruct (encrypt_pieces_start n reuse l t a c) as [b ->]. destruct (start_state n reuse last b c Hi Hn Ho) as [H1 H2].
    destruct (encrypt_pieces_ok k _ reuse last t a l Ht Ha Hp [] [] _ H1 H2 Hs Hsa) as (ct & c' & E & Hc' & Hh & Eo). rewrite E. cbn [app] in *. exists c'. split; [|done]. do 3 f_equal. exact Eo.
  - specialize (Htag eq_refl). assert (Et : t = take (length t - 16) t ++ drop (length t - 16) t) by (by rewrite take_drop).
    set (g := drop (length t - 16) t) in *. assert (Hg : length g = 16%nat) by (unfold g; rewrite length_drop; lia). set (t' := take (length t - 16) t) in *. clearbody g t'. subst t.
    destruct (decrypt_pieces_start n reuse l (t' ++ g) a c) as [b ->]. destruct (start_state n reuse last b c Hi Hn Ho) as [H1 H2].
    assert (Hs' : Z.of_nat (length ([] ++ concat l.*1 ++ t')) < 2 ^ 20) by (rewrite !length_app in *; cbn [length]; lia).
    destruct (decrypt_pieces_ok k _ reuse last t' g a l Ht Hg Ha Hp [] [] _ H1 eq_refl H2 Hs' Hsa) as (pt & c' & data & Ed & E & Hc' & Hh & Eo). cbn [app] in *. rewrite E, Ed in *. exists c'. split; [|done].
    rewrite (app_assoc (concat _)), (decrypt_tag _ _ _ _ Hg), (length_app _ g), Hg, Nat.add_sub, take_app_length. cbv zeta. rewrite lenZ_app. unfold lenZ at 3. rewrite Hg. do 2 f_equal. f_equal; [|exact Eo].
    case_bool_decide; [lia|done].
Qed.
End refinement.

Section context.
Context `{HB : BlockOps} `{HBO : !BlockLaws} `{HBC : BlockCipher} `{HBL : !BlockCipherLaws}.

Lemma run_messages_ok k last l c : idle k last c -> Forall message_ok l -> run_messages l c = Ok (spec_messages k last l).
Proof.
  intros Hi Hl. revert last c Hi. induction Hl as [|m l Hm _ IH]; intros last c Hi; [done|]. cbn [run_messages spec_messages].
  destruct (run_message_ok k last m c Hi Hm) as (c' & -> & Hi'). destruct (spec_message k last m) as [v out]. cbn [mbind result_bind]. by rewrite (IH _ _ Hi').
Qed.

(** A fresh context hashes no associated data. *)
Lemma ae_init_idle k c : octets16 k -> idle k [] (ae_init k 12 c).2.
Proof. intros Hk. destruct (ae_init_ok k c Hk) as (c' & E & Hc'). split; [by rewrite E|]. exact repr_zero. Qed.

Lemma run_context_ok k l c : octets16 k -> Forall message_ok l -> run_context k l c = Ok (spec_messages k [] l).
Proof. intros Hk Hl. by apply run_messages_ok, Hl; apply ae_init_idle. Qed.

(** One message of one call. *)
Lemma run_seal k n a pt c : octets16 k -> message_ok (MkMessage true n false [] pt a) ->
  run_context k [MkMessage true n false [] pt a] c = Ok [(lenZ pt + 16, ocb_encrypt k n a pt)].
Proof. intros Hk Hm. rewrite run_context_ok by (done || by apply Forall_singleton). done. Qed.
Lemma run_open k n a ct c : octets16 k -> message_ok (MkMessage false n false [] ct a) ->
  run_context k [MkMessage false n false [] ct a] c =
  Ok [(match ocb_decrypt k n a ct with Some _ => lenZ ct - 16 | None => AE_INVALID end,
       ocb_text k (aes_decrypt k) (ocb_offset0 k n) (take (length ct - 16) ct))].
Proof. intros Hk Hm. rewrite run_context_ok; [done|done|by apply Forall_singleton]. Qed.
Lemma open_sealed k n a pt : octets16 k -> octets a -> octets pt ->
  ocb_text k (aes_decrypt k) (ocb_offset0 k n) (take (length (ocb_encrypt k n a pt) - 16) (ocb_encrypt k n a pt)) = pt.
Proof.
  intros Hk Ha Hpt. rewrite length_ocb_encrypt by done. unfold ocb_encrypt. cbv zeta. rewrite take_app_length' by (rewrite Nat.add_sub, length_ocb_text; auto with ocb).
  apply ocb_text_inverse; auto with ocb.
Qed.
Lemma sealed_octets k n a pt : octets a -> octets pt -> octets (ocb_encrypt k n a pt).
Proof. intros Ha Hpt. apply Forall_app. split; [apply ocb_text_octets; auto with ocb|by apply tag16]. Qed.

(** C8. One context, set up for a key in memory of any contents and used for
    any number of messages, sealed or opened, in one call or in pieces, with
    associated data of their own or that of the message before, computes on
    each what RFC 7253 defines for the key, the nonce, the data and the text
    alone: the octets written and the value returned, [AE_INVALID] exactly when
    the tag does not verify.  No read of the table is out of its bounds. *)
Theorem ocb_context_refines key l c : octets16 key -> Forall message_ok l -> run_context key l c = Ok (spec_messages key [] l).
Proof. apply run_context_ok. Qed.

(** C20. A context opens exactly what a context of its key sealed: the value
    returned is the length of a text if and only if the octets are what sealing
    some text of that length with the nonce and the data gives; then that text
    is written, and there is no other. *)
Theorem opens_exactly key n a ct c v out : octets16 key ->
  message_ok (MkMessage false n false [] ct a) ->
  run_context key [MkMessage false n false [] ct a] c = Ok [(v, out)] ->
  (v <> AE_INVALID <-> exists pt, octets pt /\ ct = ocb_encrypt key n a pt) /\
  (forall pt, octets pt -> ct = ocb_encrypt key n a pt -> v = lenZ pt /\ out = pt).
Proof.
  intros Hk Hm. rewrite (run_open key n a ct c Hk Hm). intros [= Hv Hout]. destruct Hm as [_ _ [Ht Ha] _ _]. cbn [m_text m_data] in Ht, Ha.
  assert (Hsome : forall pt, octets pt -> ct = ocb_encrypt key n a pt -> v = lenZ pt /\ out = pt).
  { intros pt Hpt ->. rewrite ocb_decrypt_encrypt in Hv by done. rewrite open_sealed in Hout by done. split; [|done]. subst v. unfold lenZ. rewrite length_ocb_encrypt by done. lia. }
  split; [|done]. split.
  - destruct (ocb_decrypt key n a ct) as [pt|] eqn:E; [|by subst v]. intros _. destruct (ocb_encrypt_decrypt key n a ct pt Hk Ht E) as [Ec Hpt]. exists pt. by split.
  - intros (pt & Hpt & E). destruct (Hsome pt Hpt E) as [-> _]. unfold AE_INVALID. pose proof (lenZ_nonneg pt). lia.
Qed.
End context.

Lemma platform_laws (B : BlockOps) : B ∈ [PortableBlock; Sse2Block; NeonBlock] -> BlockLaws (H := B).
Proof. rewrite !elem_of_cons, elem_of_nil. intros [->|[->|[->|[]]]]; apply _. Qed.

(** The platforms agree: what a context of one of the three block
    arithmetics (64-bit words, SSE2, NEON) seals, a context of any other opens
    to the same text, and both write the same octets. *)
Theorem sealed_opens_elsewhere (B1 B2 : BlockOps) (C : BlockCipher) key n a pt c1 c2 :
  B1 ∈ [PortableBlock; Sse2Block; NeonBlock] -> B2 ∈ [PortableBlock; Sse2Block; NeonBlock] -> BlockCipherLaws ->
  octets16 key -> message_ok (MkMessage true n false [] pt a) -> Z.of_nat (length pt + 16) < 2 ^ 20 ->
  exists ct, run_context (HB := B1) key [MkMessage true n false [] pt a] c1 = Ok [(lenZ pt + 16, ct)] /\
    run_context (HB := B2) key [MkMessage false n false [] ct a] c2 = Ok [(lenZ pt, pt)].
Proof.
  intros H1 H2 HL Hk Hm Hs. assert (L1 : BlockLaws (H := B1)) by (by apply platform_laws). assert (L2 : BlockLaws (H := B2)) by (by apply platform_laws).
  exists (ocb_encrypt key n a pt). split; [exact (run_seal key n a pt c1 Hk Hm)|]. destruct Hm as [Hn _ [Ht Ha] [_ Hsa] _]. cbn [m_nonce m_text m_data m_pieces] in Hn, Ht, Ha, Hsa.
  rewrite (run_open key n a _ c2 Hk), (ocb_decrypt_encrypt key n a pt Hk Ha Ht), (open_sealed key n a pt Hk Ha Ht).
  - unfold lenZ. rewrite length_ocb_encrypt by done. do 3 f_equal. lia.
  - split; cbn [m_nonce m_text m_data m_pieces m_seal]; [done|apply Forall_nil_2|by split; [apply sealed_octets|]| |rewrite length_ocb_encrypt by done; lia].
    unfold message_text. cbn [m_pieces m_text fmap list_fmap concat app]. by rewrite length_ocb_encrypt.
Qed.

(** ** Examples *)

Definition blank_ctx `{BlockOps} : ae_ctx :=
  MkCtx zero_block zero_block zero_block zero_block [] zero_block zero_block zero_block 0 0 0 0 0 [] [].
Definition example_key : bytes := Z.of_nat <$> seq 0 16.
Definition example_nonce : bytes := replicate 12 9.
Definition example_sealed : message := MkMessage true example_nonce false [(replicate 64 7, replicate 64 5)] (replicate 70 1) (replicate 3 2).
Definition example_forged : message := MkMessage false example_nonce true [] (replicate 40 3) [].

Lemma example_key16 : octets16 example_key.
Proof. split; [done|]. by repeat constructor. Qed.
Lemma example_nonce_ok : length example_nonce = 12%nat /\ octets example_nonce.
Proof. split; [done|]. by apply Forall_replicate. Qed.
Lemma example_sealed_ok : message_ok example_sealed.
Proof.
  split; [apply example_nonce_ok| |split; by apply Forall_replicate|split; vm_compute; done|done].
  apply Forall_singleton. split; [by apply Forall_replicate|]. split; [by apply Forall_replicate|done].
Qed.
Lemma example_forged_ok : message_ok example_forged.
Proof. split; [apply example_nonce_ok|apply Forall_nil_2|split; [by apply Forall_replicate|done]|split; vm_compute; done|intros _; cbn; lia]. Qed.

Lemma ocb_context_refines_witness :
  run_context (HB := PortableBlock) (HBC := XorCipher) example_key [example_sealed; example_forged] blank_ctx =
    Ok (spec_messages (HBC := XorCipher) example_key [] [example_sealed; example_forged]) /\
  (spec_messages (HBC := XorCipher) example_key [] [example_sealed; example_forged]).*1 = [86; AE_INVALID].
Proof.
  split; [|vm_compute; reflexivity].
  apply (ocb_context_refines (HB := PortableBlock) (HBC := XorCipher) example_key [example_sealed; example_forged] blank_ctx); [apply example_key16|].
  apply Forall_cons. split; [apply example_sealed_ok|]. apply Forall_singleton, example_forged_ok.
Defined.

Lemma example_open_ok : message_ok (MkMessage false example_nonce false [] (replicate 40 3) []).
Proof. split; [apply example_nonce_ok|apply Forall_nil_2|split; [by apply Forall_replicate|done]|split; vm_compute; done|intros _; cbn; lia]. Qed.

Lemma opens_exactly_witness :
  ~ exists pt, octets pt /\ replicate 40 3 = ocb_encrypt (H := XorCipher) example_key example_nonce [] pt.
Proof.
  pose proof (opens_exactly (HB := Sse2Block) (HBC := XorCipher) example_key example_nonce [] (replicate 40 3) blank_ctx AE_INVALID
    (ocb_text (H := XorCipher) example_key (aes_decrypt (BlockCipher := XorCipher) example_key) (ocb_offset0 (H := XorCipher) example_key example_nonce) (replicate 24 3))
    example_key16 example_open_ok ltac:(vm_compute; reflexivity)) as [[_ H] _].
  intros Hex. by apply H in Hex.
Defined.

Lemma example_text_ok : message_ok (MkMessage true example_nonce false [] (replicate 21 4) [6]).
Proof. split; [apply example_nonce_ok|apply Forall_nil_2|split; [by apply Forall_replicate|by apply Forall_singleton]|split; vm_compute; done|done]. Qed.

Lemma sealed_opens_elsewhere_witness : exists ct,
  run_context (HB := Sse2Block) (HBC := XorCipher) example_key [MkMessage true example_nonce false [] (replicate 21 4) [6]] blank_ctx = Ok [(37, ct)] /\
  run_context (HB := NeonBlock) (HBC := XorCipher) example_key [MkMessage false example_nonce false [] ct [6]] blank_ctx = Ok [(21, replicate 21 4)].
Proof.
  apply (sealed_opens_elsewhere Sse2Block NeonBlock XorCipher example_key example_nonce [6] (replicate 21 4) blank_ctx blank_ctx);
    [apply list_elem_of_further, list_elem_of_here|do 2 apply list_elem_of_further; apply list_elem_of_here|apply XorLaws|apply example_key16|apply example_text_ok|cbn; lia].
Defined.
