(* ===== verification/Openssl.v ===== *)
(** * The cipher mode through OpenSSL (crypto/ocb_openssl.cc)

    The other implementation of ae.h: it drives OpenSSL's contexts, which are a
    class of calls here, and takes a message in one call only. *)
From S2P Require Export OcbRun.

(** Calls on an [EVP_CIPHER_CTX]; [false] or [None] is a result other than 1. *)
Class EVP : Type := {
  EVP_CIPHER_CTX : Type;
  EVP_CIPHER_CTX_new : option EVP_CIPHER_CTX;
  EVP_CipherInit : bytes -> bool -> EVP_CIPHER_CTX -> bool * EVP_CIPHER_CTX;
  EVP_set_ivlen : Z -> EVP_CIPHER_CTX -> bool * EVP_CIPHER_CTX;
  EVP_set_taglen : Z -> EVP_CIPHER_CTX -> bool * EVP_CIPHER_CTX;
  EVP_Init_nonce : bytes -> EVP_CIPHER_CTX -> bool * EVP_CIPHER_CTX;
  EVP_Update_aad : bytes -> EVP_CIPHER_CTX -> bool * EVP_CIPHER_CTX;
  EVP_Update : bytes -> EVP_CIPHER_CTX -> option bytes * EVP_CIPHER_CTX;
  EVP_Final : EVP_CIPHER_CTX -> option bytes * EVP_CIPHER_CTX;
  EVP_get_tag : Z -> EVP_CIPHER_CTX -> option bytes * EVP_CIPHER_CTX;
  EVP_set_tag : bytes -> EVP_CIPHER_CTX -> bool * EVP_CIPHER_CTX;
}.

(** Calls in sequence: the first that fails ends the function with a value. *)
Definition V `{EVP} (A : Type) : Type := EVP_CIPHER_CTX -> result Z A * EVP_CIPHER_CTX.
#[export] Instance V_ret `{EVP} : MRet V := fun A a e => (Ok a, e).
#[export] Instance V_bind `{EVP} : MBind V :=
  fun A B f m e => match m e with (Ok a, e') => f a e' | (Err v, e') => (Err v, e') end.

Section openssl.
Context `{EVP}.

Definition V_check (code : Z) (call : EVP_CIPHER_CTX -> bool * EVP_CIPHER_CTX) : V unit :=
  fun e => let '(ok, e') := call e in (if (ok : bool) then Ok tt else Err code, e').
Definition V_get {A} (code : Z) (call : EVP_CIPHER_CTX -> option A * EVP_CIPHER_CTX) : V A :=
  fun e => let '(r, e') := call e in (match r with Some a => Ok a | None => Err code end, e').

(** The context; a pointer that is not set is [None]. *)
Record ossl_ctx : Type := MkOssl { enc_ctx : option EVP_CIPHER_CTX; dec_ctx : option EVP_CIPHER_CTX; tag_len : Z }.
#[export] Instance eta_ossl_ctx : Eta ossl_ctx := fun c => MkOssl (enc_ctx c) (dec_ctx c) (tag_len c).

Definition ossl_clear (c : ossl_ctx) : Z * ossl_ctx := (AE_SUCCESS, MkOssl None None 0).

Definition ae_evp_cipher_init (direction : bool) (key : bytes) (nonce_len s_tag_len : Z) : Z * option EVP_CIPHER_CTX :=
  match EVP_CIPHER_CTX_new with
  | None => (-3, None)
  | Some e =>
      let m : V unit :=
        V_check (-3) (EVP_CipherInit key direction) ;;
        V_check (-3) (EVP_set_ivlen nonce_len) ;;
        V_check (-3) (EVP_set_taglen s_tag_len) in
      let '(r, e) := m e in
      (match r with Ok _ => AE_SUCCESS | Err v => v end, Some e)
  end.

Definition ossl_init (key : bytes) (key_len nonce_len s_tag_len : Z) (c : ossl_ctx) : Z * ossl_ctx :=
  if negb (nonce_len =? 12) then (AE_NOT_SUPPORTED, c) else
  if negb (key_len =? 16) then (AE_NOT_SUPPORTED, c) else
  let '(r, e) := ae_evp_cipher_init true key nonce_len s_tag_len in
  let c := c <| enc_ctx := e |> in
  if negb (r =? AE_SUCCESS) then (r, c) else
  let '(r, e) := ae_evp_cipher_init false key nonce_len s_tag_len in
  let c := c <| dec_ctx := e |> in
  if negb (r =? AE_SUCCESS) then (r, c) else
  (AE_SUCCESS, c <| tag_len := s_tag_len |>).

(** The associated data of a call: none for a null pointer or a length that is
    not positive. *)
Definition ossl_aad (ad : option bytes) : V unit :=
  match ad with
  | Some a => if 0 <? lenZ a then V_check (-3) (EVP_Update_aad a) else mret tt
  | None => mret tt
  end.
Definition ossl_update (t : bytes) : V bytes :=
  if 0 <? lenZ t then V_get (-3) (EVP_Update t) else mret [].

Definition run_V {A} (m : V A) (e : option EVP_CIPHER_CTX) : result fault (result Z A * option EVP_CIPHER_CTX) :=
  match e with
  | None => Err OutOfRange
  | Some e => let '(r, e) := m e in Ok (r, Some e)
  end.

(** [ae_encrypt]: the value returned, the octets at [ct] and those at [tag].
    What a call that fails has written is not kept. *)
Definition ossl_encrypt (nonce : option bytes) (pt : bytes) (ad : option bytes) (tag final : bool) (c : ossl_ctx)
  : result fault (Z * bytes * option bytes * ossl_ctx) :=
  if negb final then Ok (AE_NOT_SUPPORTED, [], None, c) else
  match nonce with
  | None => Ok (AE_NOT_SUPPORTED, [], None, c)
  | Some n =>
      let m : V (bytes * bytes) :=
        V_check (-3) (EVP_Init_nonce n) ;;
        ossl_aad ad ;;
        ct ← ossl_update pt;
        ct' ← V_get (-3) EVP_Final;
        t ← V_get (-3) (EVP_get_tag (tag_len c));
        mret (ct ++ ct', t) in
      '(r, e) ← run_V m (enc_ctx c);
      let c := c <| enc_ctx := e |> in
      match r with
      | Err v => Ok (v, [], None, c)
      | Ok (ct, t) =>
          if (tag : bool) then Ok (lenZ ct, ct, Some t, c) else Ok (lenZ ct + tag_len c, ct ++ t, None, c)
      end
  end.

Definition ossl_decrypt (nonce : option bytes) (ct : bytes) (ad : option bytes) (tag : option bytes) (final : bool) (c : ossl_ctx)
  : result fault (Z * bytes * ossl_ctx) :=
  if lenZ ct <? tag_len c then Ok (AE_INVALID, [], c) else
  let ct_len := if bool_decide (tag = None) then lenZ ct - tag_len c else lenZ ct in
  if negb final then Ok (AE_NOT_SUPPORTED, [], c) else
  match nonce with
  | None => Ok (AE_NOT_SUPPORTED, [], c)
  | Some n =>
      let m : V bytes :=
        V_check (-3) (EVP_Init_nonce n) ;;
        ossl_aad ad ;;
        pt ← ossl_update (take (Z.to_nat ct_len) ct);
        V_check (-3) (EVP_set_tag (take (Z.to_nat (tag_len c)) (default (drop (Z.to_nat ct_len) ct) tag))) ;;
        pt' ← V_get AE_INVALID EVP_Final;
        mret (pt ++ pt') in
      '(r, e) ← run_V m (dec_ctx c);
      let c := c <| dec_ctx := e |> in
      match r with
      | Err v => Ok (v, [], c)
      | Ok pt => Ok (lenZ pt, pt, c)
      end
  end.
End openssl.

(** ** What is documented of the calls *)

(** [evp_conf]: set up for a direction and a key, with lengths of nonce and tag.
    [evp_at]: in a message with a nonce, associated data, input and output so
    far; [evp_tagged]: with the tag to compare.  OpenSSL computes the OCB of RFC
    7253, and how much of the output comes before the end is its own affair. *)
Class EVPLaws `{EVP} `{BlockCipher} : Type := {
  evp_conf : bool -> bytes -> Z -> Z -> EVP_CIPHER_CTX -> Prop;
  evp_at : bool -> bytes -> bytes -> bytes -> bytes -> bytes -> EVP_CIPHER_CTX -> Prop;
  evp_tagged : bytes -> bytes -> bytes -> bytes -> bytes -> bytes -> EVP_CIPHER_CTX -> Prop;
  evp_init key dir e e' : EVP_CipherInit key dir e = (true, e') -> exists iv tl, evp_conf dir key iv tl e';
  evp_ivlen key dir iv tl n e e' : evp_conf dir key iv tl e -> EVP_set_ivlen n e = (true, e') -> evp_conf dir key n tl e';
  evp_taglen key dir iv tl n e e' : evp_conf dir key iv tl e -> EVP_set_taglen n e = (true, e') -> evp_conf dir key iv n e';
  evp_start key dir n e : evp_conf dir key 12 16 e -> length n = 12%nat ->
    exists e', EVP_Init_nonce n e = (true, e') /\ evp_at dir key n [] [] [] e';
  evp_aad key dir n a e : evp_at dir key n [] [] [] e -> exists e', EVP_Update_aad a e = (true, e') /\ evp_at dir key n a [] [] e';
  evp_update key dir n a i o t e : evp_at dir key n a i o e ->
    exists out e', EVP_Update t e = (Some out, e') /\ evp_at dir key n a (i ++ t) (o ++ out) e';
  evp_seal key n a i o e : evp_at true key n a i o e ->
    exists out e' e'', EVP_Final e = (Some out, e') /\ o ++ out = ocb_text key (aes_encrypt key) (ocb_offset0 key n) i /\
      EVP_get_tag 16 e' = (Some (ocb_tag key (ocb_offset0 key n) a i), e'') /\ evp_conf true key 12 16 e'';
  evp_tag key n a i o g e : evp_at false key n a i o e -> length g = 16%nat ->
    exists e', EVP_set_tag g e = (true, e') /\ evp_tagged key n a i o g e';
  evp_open key n a i o g e : evp_tagged key n a i o g e ->
    let pt := ocb_text key (aes_decrypt key) (ocb_offset0 key n) i in
    exists r e', EVP_Final e = (r, e') /\ evp_conf false key 12 16 e' /\
      if bool_decide (g = ocb_tag key (ocb_offset0 key n) a pt) then exists out, r = Some out /\ o ++ out = pt else r = None;
}.

(** ** Messages of one call *)

Section messages.
Context `{HE : EVP} `{HBC : BlockCipher} `{HL : !EVPLaws}.

Definition ossl_run_message (m : message) (c : ossl_ctx) : result fault (Z * bytes * ossl_ctx) :=
  if m_seal m then '(v, ct, _, c) ← ossl_encrypt (Some (m_nonce m)) (m_text m) (Some (m_data m)) false true c; Ok (v, ct, c)
  else ossl_decrypt (Some (m_nonce m)) (m_text m) (Some (m_data m)) None true c.
Fixpoint ossl_run_messages (l : list message) (c : ossl_ctx) : result fault (list (Z * bytes)) :=
  match l with
  | [] => Ok []
  | m :: l' =>
      '(v, out, c) ← ossl_run_message m c;
      outs ← ossl_run_messages l' c;
      Ok ((v, out) :: outs)
  end.

Record ossl_ready (key : bytes) (c : ossl_ctx) : Prop := {
  or_enc : exists e, enc_ctx c = Some e /\ evp_conf true key 12 16 e;
  or_dec : exists e, dec_ctx c = Some e /\ evp_conf false key 12 16 e;
  or_tag : tag_len c = 16 }.

Lemma cipher_init_ok dir key e : ae_evp_cipher_init dir key 12 16 = (AE_SUCCESS, e) -> exists e', e = Some e' /\ evp_conf dir key 12 16 e'.
Proof.
  unfold ae_evp_cipher_init. destruct EVP_CIPHER_CTX_new as [e0|]; [|done]. unfold V_check, mbind, V_bind.
  destruct (EVP_CipherInit key dir e0) as [[] e1] eqn:E1; [|done]. destruct (EVP_set_ivlen 12 e1) as [[] e2] eqn:E2; [|done]. destruct (EVP_set_taglen 16 e2) as [[] e3] eqn:E3; [|done].
  intros [= <-]. exists e3. split; [done|]. destruct (evp_init _ _ _ _ E1) as (iv & tl & H1). exact (evp_taglen _ _ _ _ _ _ _ (evp_ivlen _ _ _ _ _ _ _ H1 E2) E3).
Qed.

Lemma ossl_init_ok key c c' : ossl_init key 16 12 16 c = (AE_SUCCESS, c') -> ossl_ready key c'.
Proof.
  unfold ossl_init. cbn [Z.eqb Pos.eqb negb]. destruct (ae_evp_cipher_init true key 12 16) as [r e] eqn:E1. destruct (Z.eqb_spec r AE_SUCCESS) as [->|Hr]; cbn [negb]; [|by intros [= -> _]].
  destruct (ae_evp_cipher_init false key 12 16) as [r d] eqn:E2. destruct (Z.eqb_spec r AE_SUCCESS) as [->|Hr]; cbn [negb]; [|by intros [= -> _]].
  intros [= <-]. split; [by apply cipher_init_ok|by apply cipher_init_ok|done].
Qed.

(** The data and the text, or the calls that are left out for empty ones. *)
Lemma ossl_aad_ok key dir n a e : evp_at dir key n [] [] [] e -> exists e', ossl_aad (Some a) e = (Ok tt, e') /\ evp_at dir key n a [] [] e'.
Proof.
  intros He. cbn [ossl_aad]. destruct (Z.ltb_spec 0 (lenZ a)) as [Ha|Ha].
  - destruct (evp_aad key dir n a e He) as (e' & E & He'). exists e'. unfold V_check. by rewrite E.
  - assert (a = []) as -> by (destruct a; [done|unfold lenZ in Ha; cbn in Ha; lia]). by exists e.
Qed.
Lemma ossl_update_ok key dir n a t e : evp_at dir key n a [] [] e -> exists out e', ossl_update t e = (Ok out, e') /\ evp_at dir key n a t out e'.
Proof.
  intros He. unfold ossl_update. destruct (Z.ltb_spec 0 (lenZ t)) as [Ht|Ht].
  - destruct (evp_update key dir n a [] [] t e He) as (out & e' & E & He'). exists out, e'. unfold V_get. by rewrite E.
  - assert (t = []) as -> by (destruct t; [done|unfold lenZ in Ht; cbn in Ht; lia]). by exists [], e.
Qed.
Lemma V_bind_ok {A B} (m : V A) (f : A -> V B) e a e' : m e = (Ok a, e') -> (m ≫= f) e = f a e'.
Proof. intros E. unfold mbind, V_bind. by rewrite E. Qed.
Lemma V_check_ok v call e e' : call e = (true, e') -> V_check v call e = (Ok tt, e').
Proof. intros E. unfold V_check. by rewrite E. Qed.

Lemma V_bind_err {A B} (m : V A) (f : A -> V B) e v e' : m e = (Err v, e') -> (m ≫= f) e = (Err v, e').
Proof. intros E. unfold mbind, V_bind. by rewrite E. Qed.
Lemma V_get_ok {A} v (call : EVP_CIPHER_CTX -> option A * EVP_CIPHER_CTX) e a e' : call e = (Some a, e') -> V_get v call e = (Ok a, e').
Proof. intros E. unfold V_get. by rewrite E. Qed.
Lemma V_get_err {A} v (call : EVP_CIPHER_CTX -> option A * EVP_CIPHER_CTX) e e' : call e = (None, e') -> V_get v call e = (Err v, e').
Proof. intros E. unfold V_get. by rewrite E. Qed.
Lemma V_ret_eq {A} (a : A) e : (mret a : V A) e = (Ok a, e).
Proof. done. Qed.

Lemma ossl_encrypt_ok key n a pt c : BlockCipherLaws -> ossl_ready key c -> length n = 12%nat ->
  exists c', ossl_encrypt (Some n) pt (Some a) false true c = Ok (lenZ pt + 16, ocb_encrypt key n a pt, None, c') /\ ossl_ready key c'.
Proof.
  intros HC [(e & Ee & He) Hd Et] Hn. unfold ossl_encrypt. cbn [negb]. rewrite Ee, Et. cbn [run_V].
  destruct (evp_start _ _ n e He Hn) as (e1 & E1 & H1). rewrite (V_bind_ok _ _ _ _ _ (V_check_ok _ _ _ _ E1)).
  destruct (ossl_aad_ok _ _ _ a e1 H1) as (e2 & E2 & H2). rewrite (V_bind_ok _ _ _ _ _ E2). destruct (ossl_update_ok _ _ _ _ pt e2 H2) as (o & e3 & E3 & H3). rewrite (V_bind_ok _ _ _ _ _ E3).
  destruct (evp_seal _ _ _ _ _ _ H3) as (out & e4 & e5 & E4 & Eo & E5 & H5). rewrite (V_bind_ok _ _ _ _ _ (V_get_ok _ _ _ _ _ E4)), (V_bind_ok _ _ _ _ _ (V_get_ok _ _ _ _ _ E5)), V_ret_eq.
  unfold mbind at 1. cbn [result_bind tag_len set_field]. rewrite Et, Eo. exists (c <| enc_ctx := Some e5 |>). split; [|split; [by exists e5|done|done]].
  unfold ocb_encrypt. cbv zeta. unfold lenZ. by rewrite length_ocb_text by auto with ocb.
Qed.

Lemma ossl_decrypt_ok key n a ct c : BlockCipherLaws -> ossl_ready key c -> length n = 12%nat -> 
  exists c' out, ossl_decrypt (Some n) ct (Some a) None true c = Ok (match ocb_decrypt key n a ct with Some pt => lenZ pt | None => AE_INVALID end, out, c') /\
    ossl_ready key c' /\ (forall pt, ocb_decrypt key n a ct = Some pt -> out = pt).
Proof.
  intros HC Hc Hn. pose proof Hc as [He (d & Ed & Hd) Et]. unfold ossl_decrypt, ocb_decrypt. rewrite Ed, Et. destruct (Z.ltb_spec (lenZ ct) 16) as [Hl|Hl]; [by exists c, []|].
  cbn [negb run_V]. rewrite bool_decide_true by done. cbn [default]. replace (Z.to_nat (lenZ ct - 16)) with (length ct - 16)%nat by (unfold lenZ; lia). change (Z.to_nat 16) with 16%nat.
  assert (Hg : length (drop (length ct - 16) ct) = 16%nat) by (rewrite length_drop; unfold lenZ in Hl; lia). rewrite (take_ge (drop _ ct)) by lia.
  destruct (evp_start _ _ n d Hd Hn) as (e1 & E1 & H1). rewrite (V_bind_ok _ _ _ _ _ (V_check_ok _ _ _ _ E1)).
  destruct (ossl_aad_ok _ _ _ a e1 H1) as (e2 & E2 & H2). rewrite (V_bind_ok _ _ _ _ _ E2). destruct (ossl_update_ok _ _ _ _ (take (length ct - 16) ct) e2 H2) as (o & e3 & E3 & H3). rewrite (V_bind_ok _ _ _ _ _ E3).
  destruct (evp_tag _ _ _ _ _ _ _ H3 Hg) as (e4 & E4 & H4). rewrite (V_bind_ok _ _ _ _ _ (V_check_ok _ _ _ _ E4)). pose proof (evp_open _ _ _ _ _ _ _ H4) as Hopen. cbv zeta in *.
  destruct Hopen as (r & e5 & E5 & H5 & Hr). set (pt := ocb_text _ _ _ _) in *. clearbody pt.
  case_bool_decide as E; [destruct Hr as (out & -> & Eo)|subst r].
  - rewrite (V_bind_ok _ _ _ _ _ (V_get_ok _ _ _ _ _ E5)), V_ret_eq, Eo. exists (c <| dec_ctx := Some e5 |>), pt. split; [done|]. split; [by split; [|exists e5|]|]. by intros ? [= <-].
  - rewrite (V_bind_err _ _ _ _ _ (V_get_err _ _ _ _ E5)). exists (c <| dec_ctx := Some e5 |>), []. split; [done|]. split; [by split; [|exists e5|]|done].
Qed.
End messages.

(** A message of one call, with its own data. *)
Definition one_call (m : message) : Prop := m_pieces m = [] /\ m_reuse m = false.

(** The same values, and the same octets where there is something to read. *)
Definition agree (x y : Z * bytes) : Prop := x.1 = y.1 /\ (x.1 <> AE_INVALID -> x.2 = y.2).

Section agreement.
Context `{HE : EVP} `{HBC : BlockCipher} `{HL : !EVPLaws} `{HCL : !BlockCipherLaws}.

Lemma decrypt_written key n a ct pt : ocb_decrypt key n a ct = Some pt -> pt = ocb_text key (aes_decrypt key) (ocb_offset0 key n) (take (length ct - 16) ct) /\ lenZ pt = lenZ ct - 16.
Proof.
  unfold ocb_decrypt. destruct (Z.ltb_spec (lenZ ct) 16); [done|]. cbv zeta. case_bool_decide; [|done]. intros [= <-]. split; [done|].
  unfold lenZ in *. rewrite length_ocb_text, length_take by auto with ocb. lia.
Qed.

Lemma ossl_message_ok key last m c : ossl_ready key c -> message_ok m -> one_call m ->
  exists x c', ossl_run_message m c = Ok (x, c') /\ ossl_ready key c' /\ agree x (spec_message key last m).
Proof.
  intros Hc [[Hn _] _ _ _ _] [Ep Er]. unfold ossl_run_message, spec_message, message_text, message_data. destruct m as [seal n reuse l t a]. cbn [m_seal m_nonce m_reuse m_pieces m_text m_data] in *. subst l reuse.
  cbn [fmap list_fmap concat app]. destruct seal.
  - destruct (ossl_encrypt_ok key n a t c HCL Hc Hn) as (c' & -> & Hc'). eexists _, c'. split; [done|]. by split.
  - destruct (ossl_decrypt_ok key n a t c HCL Hc Hn) as (c' & out & -> & Hc' & Hout). eexists (_, out), c'. split; [done|]. split; [done|]. unfold agree. cbn [fst snd].
    destruct (ocb_decrypt key n a t) as [pt|] eqn:E; [|done]. destruct (decrypt_written _ _ _ _ _ E) as [Ept El]. rewrite (Hout pt eq_refl). split; [lia|done].
Qed.

Lemma ossl_messages_ok key l : Forall message_ok l -> Forall one_call l -> forall last c, ossl_ready key c ->
  exists outs, ossl_run_messages l c = Ok outs /\ Forall2 agree outs (spec_messages key last l).
Proof.
  induction 1 as [|m l Hm _ IH]; intros Hl last c Hc; [by exists []|]. inversion_clear Hl as [|? ? H1 H2]. cbn [ossl_run_messages spec_messages].
  destruct (ossl_message_ok key last m c Hc Hm H1) as ([v out] & c' & -> & Hc' & Ha). cbn [mbind result_bind]. destruct (IH H2 (message_data last m) c' Hc') as (outs & -> & Hs).
  cbn [mbind result_bind]. exists ((v, out) :: outs). split; [done|]. by apply Forall2_cons.
Qed.

(** C31. The two implementations of ae.h are interchangeable for messages of
    one call with data of their own and the tag bundled with the text, as a
    session uses them (with a separate tag they are not: [short_text_refused]): once both are set up for a key, the one on
    OpenSSL and the one in C return the same values, [AE_INVALID] included, and
    write the same octets whenever the caller may read them, on every platform
    of the latter. *)
Theorem openssl_agrees `{HB : BlockOps} `{HBO : !BlockLaws} key l (c : ae_ctx) (o o' : ossl_ctx) :
  octets16 key -> Forall message_ok l -> Forall one_call l -> ossl_init key 16 12 16 o = (AE_SUCCESS, o') ->
  exists outs1 outs2, run_context key l c = Ok outs1 /\ ossl_run_messages l o' = Ok outs2 /\ Forall2 agree outs2 outs1.
Proof.
  intros Hk Hl H1 Ho. destruct (ossl_messages_ok key l Hl H1 [] o' (ossl_init_ok key o o' Ho)) as (outs & E & Ha).
  eexists _, outs. split; [by apply run_context_ok|]. by split.
Qed.
End agreement.

(** ** An OpenSSL for examples *)

(** It keeps what it is given and computes at the end. *)
Record evp_state : Type := MkEvp {
  e_dir : bool; e_key : bytes; e_iv : Z; e_tl : Z; e_nonce : bytes; e_aad : bytes; e_in : bytes; e_tag : bytes; e_live : bool }.

Definition LazyEVP `{BlockCipher} : EVP := {|
  EVP_CIPHER_CTX := evp_state;
  EVP_CIPHER_CTX_new := Some (MkEvp false [] 0 0 [] [] [] [] false);
  EVP_CipherInit key dir e := (true, MkEvp dir key 12 16 [] [] [] [] false);
  EVP_set_ivlen n e := (true, MkEvp (e_dir e) (e_key e) n (e_tl e) (e_nonce e) (e_aad e) (e_in e) (e_tag e) false);
  EVP_set_taglen n e := (true, MkEvp (e_dir e) (e_key e) (e_iv e) n (e_nonce e) (e_aad e) (e_in e) (e_tag e) false);
  EVP_Init_nonce n e := (true, MkEvp (e_dir e) (e_key e) (e_iv e) (e_tl e) n [] [] [] true);
  EVP_Update_aad a e := (true, MkEvp (e_dir e) (e_key e) (e_iv e) (e_tl e) (e_nonce e) a (e_in e) (e_tag e) true);
  EVP_Update t e := (Some [], MkEvp (e_dir e) (e_key e) (e_iv e) (e_tl e) (e_nonce e) (e_aad e) (e_in e ++ t) (e_tag e) true);
  EVP_Final e :=
    let o := ocb_offset0 (e_key e) (e_nonce e) in
    if e_dir e then (Some (ocb_text (e_key e) (aes_encrypt (e_key e)) o (e_in e)), e)
    else let pt := ocb_text (e_key e) (aes_decrypt (e_key e)) o (e_in e) in
         (if bool_decide (e_tag e = ocb_tag (e_key e) o (e_aad e) pt) then Some pt else None, e);
  EVP_get_tag n e := (Some (ocb_tag (e_key e) (ocb_offset0 (e_key e) (e_nonce e)) (e_aad e) (e_in e)), e);
  EVP_set_tag g e := (true, MkEvp (e_dir e) (e_key e) (e_iv e) (e_tl e) (e_nonce e) (e_aad e) (e_in e) g true);
|}.

Definition LazyLaws `{HBC : BlockCipher} : @EVPLaws LazyEVP HBC.
Proof.
  refine (@Build_EVPLaws LazyEVP HBC
    (fun dir key iv tl (e : evp_state) => e_dir e = dir /\ e_key e = key /\ e_iv e = iv /\ e_tl e = tl)
    (fun dir key n a i o (e : evp_state) => e_dir e = dir /\ e_key e = key /\ e_iv e = 12 /\ e_tl e = 16 /\ e_nonce e = n /\ e_aad e = a /\ e_in e = i /\ o = [])
    (fun key n a i o g (e : evp_state) => e_dir e = false /\ e_key e = key /\ e_iv e = 12 /\ e_tl e = 16 /\ e_nonce e = n /\ e_aad e = a /\ e_in e = i /\ o = [] /\ e_tag e = g)
    _ _ _ _ _ _ _ _ _).
  - intros key dir e e' [= <-]. by exists 12, 16.
  - intros key dir iv tl n e e' (<- & <- & <- & <-) [= <-]. done.
  - intros key dir iv tl n e e' (<- & <- & <- & <-) [= <-]. done.
  - intros key dir n e (<- & <- & E1 & E2) Hn. eexists. by split.
  - intros key dir n a e (<- & <- & E1 & E2 & <- & E3 & E4 & _). eexists. by split.
  - intros key dir n a i o t e (<- & <- & E1 & E2 & <- & <- & <- & ->). eexists [], _. by split.
  - intros key n a i o e (Hd & <- & E1 & E2 & <- & <- & <- & ->). eexists _, e, e. cbn [EVP_Final EVP_get_tag LazyEVP]. rewrite Hd. by split_and!.
  - intros key n a i o g e (Hd & <- & E1 & E2 & <- & <- & <- & ->) Hg. eexists. by split.
  - intros key n a i o g e (Hd & <- & E1 & E2 & <- & <- & <- & -> & <-). cbv zeta. cbn [EVP_Final LazyEVP]. rewrite Hd. eexists _, e. split; [done|]. split; [done|]. case_bool_decide; [by eexists|done].
Defined.

Definition example_ossl : ossl_ctx (H := LazyEVP (H := XorCipher)) := (ossl_init (H := LazyEVP (H := XorCipher)) example_key 16 12 16 (MkOssl (H := LazyEVP (H := XorCipher)) None None 0)).2.
Definition example_calls : list message :=
  [MkMessage true example_nonce false [] (replicate 21 4) [6]; MkMessage false example_nonce false [] (replicate 40 3) []].

Lemma openssl_agrees_witness : exists outs1 outs2,
  run_context (HB := PortableBlock) (HBC := XorCipher) example_key example_calls blank_ctx = Ok outs1 /\
  ossl_run_messages (HE := LazyEVP (H := XorCipher)) example_calls example_ossl = Ok outs2 /\ Forall2 agree outs2 outs1.
Proof.
  apply (openssl_agrees (HE := LazyEVP (H := XorCipher)) (HBC := XorCipher) (HL := LazyLaws (HBC := XorCipher)) (HB := PortableBlock) example_key example_calls blank_ctx
    (MkOssl (H := LazyEVP (H := XorCipher)) None None 0) example_ossl).
  - apply example_key16.
  - apply Forall_cons. split; [apply example_text_ok|]. apply Forall_singleton, example_open_ok.
  - apply Forall_cons. split; [done|]. by apply Forall_singleton.
  - reflexivity.
Defined.

(** Where they differ: data of the message before is not kept, and a short text
    with a tag of its own is refused. *)
Lemma sticky_data_ignored :
  let two := [MkMessage true example_nonce false [] [] [6]; MkMessage true example_nonce true [] [] []] in
  let one := ossl_encrypt (H := LazyEVP (H := XorCipher)) (Some example_nonce) [] None false true example_ossl in
  match run_context (HB := PortableBlock) (HBC := XorCipher) example_key two blank_ctx, one with
  | Ok [(_, ct); (_, again)], Ok (_, ct', _, _) => bool_decide (again = ct) && negb (bool_decide (ct' = ct))
  | _, _ => false
  end = true.
Proof. vm_compute. reflexivity. Qed.
Lemma short_text_refused `{EVP} n ct a g c : lenZ ct < tag_len c -> ossl_decrypt (Some n) ct a (Some g) true c = Ok (AE_INVALID, [], c).
Proof. intros Hl. unfold ossl_decrypt. by rewrite (proj2 (Z.ltb_lt _ _) Hl). Qed.
