(* ===== verification/Connection.v ===== *)
(** * Datagrams and the connection (mosh/src/network/network.{h,cc})

    [Packet], [Connection::send], [recv] and [recv_one] with replay protection,
    roaming and round-trip measurement, socket pruning, [timeout] and
    [parse_portrange].  The clock is the frozen timestamp of the current
    iteration (what a datagram does is specified in Receive.v); what the sockets do ([recvmsg], [sendto], [socket],
    [getnameinfo]) is an argument. *)
From stdpp Require Import relations.
From Stdlib Require Import SpecFloat.
From S2P Require Export Crypto.

(** ** Packets *)

Inductive Direction : Type := TO_SERVER | TO_CLIENT.
#[export] Instance Direction_eq_dec : EqDecision Direction.
Proof. solve_decision. Defined.

Definition DIRECTION_MASK : Z := 2 ^ 63.
Definition SEQUENCE_MASK : Z := Z.lxor UINT64_MAX DIRECTION_MASK.

(** [uint16_t( -1 )]: no timestamp. *)
Definition NO_TIMESTAMP : Z := 65535.

Record Packet : Type := MkPacket {
  seq : Z; direction : Direction; timestamp_ : Z; timestamp_reply : Z; payload : bytes }.

Definition Packet_of_message (m : Message) : result exn Packet :=
  let v := nonce_val (nonce m) in
  if lenZ (text m) <? 4 then Err (CryptoException false) else
  Ok (MkPacket (Z.land v SEQUENCE_MASK)
        (if Z.land v DIRECTION_MASK =? 0 then TO_SERVER else TO_CLIENT)
        (be16toh (take 2 (text m))) (be16toh (take 2 (drop 2 (text m)))) (drop 4 (text m))).

Definition toMessage (p : Packet) : Message :=
  let direction_seq :=
    Z.lor (Z.shiftl (if decide (direction p = TO_CLIENT) then 1 else 0) 63) (Z.land (seq p) SEQUENCE_MASK) in
  let timestamps := htobe16 (timestamp_ p) ++ htobe16 (timestamp_reply p) in
  MkMessage (Nonce_of_val direction_seq) (timestamps ++ payload p).

(** ** Clock *)

Definition timestamp16 (now : Z) : Z :=
  let ts := now mod 65536 in if ts =? 65535 then u16 (ts + 1) else ts.

Definition timestamp_diff (tsnew tsold : Z) : result fault Z :=
  let diff := tsnew - tsold in
  let diff := if diff <? 0 then diff + 65536 else diff in
  if negb (0 <=? diff) then Err AssertFail
  else if negb (diff <=? 65535) then Err AssertFail
  else Ok (u16 diff).

(** ** Doubles: IEEE binary64 *)

Definition double := spec_float.
Definition dbl (z : Z) : double := binary_normalize 53 1024 z 0 false.
Definition dadd := SFadd 53 1024.
Definition dsub := SFsub 53 1024.
Definition dmul := SFmul 53 1024.
Definition ddiv := SFdiv 53 1024.
Definition one_eighth : double := ddiv (dbl 1) (dbl 8).
Definition one_quarter : double := ddiv (dbl 1) (dbl 4).

(** [lrint( ceil( x ) )]; on values outside [long] the result is the most
    negative one. *)
Definition lrint_ceil (x : double) : Z :=
  let v := match x with
           | S754_zero _ => 0
           | S754_finite s m e =>
               let z := if s then - Z.pos m else Z.pos m in
               if 0 <=? e then z * 2 ^ e else - ((- z) / 2 ^ (- e))
           | _ => 2 ^ 63
           end in
  if (- 2 ^ 63 <=? v) && (v <? 2 ^ 63) then v else - 2 ^ 63.

(** ** Connection *)

Definition DEFAULT_SEND_MTU : Z := 500.
Definition MIN_RTO : Z := 50.
Definition MAX_RTO : Z := 1000.
Definition SERVER_ASSOCIATION_TIMEOUT : Z := 40000.
Definition PORT_HOP_INTERVAL : Z := 10000.
Definition MAX_PORTS_OPEN : Z := 10.
Definition MAX_OLD_SOCKET_AGE : Z := 60000.
Definition CONGESTION_TIMESTAMP_PENALTY : Z := 500.
Definition connection_ADDED_BYTES : Z := 8 + 4.

(** [socks] are descriptors, the newest last; [remote_addr] is the first
    [remote_addr_len] octets of the address; [counter] is the process-wide
    counter of [Crypto::unique]; [wire] records what was handed to [sendto]. *)
Record Connection : Type := MkConnection {
  socks : list Z; has_remote_addr : bool; remote_addr : bytes; server : bool; MTU : Z;
  session : Session; conn_direction : Direction;
  saved_timestamp : Z; saved_timestamp_received_at : Z; expected_receiver_seq : Z;
  last_heard : Z; last_port_choice : Z; last_roundtrip_success : Z;
  RTT_hit : bool; SRTT : double; RTTVAR : double; send_error : option Z; counter : Z; wire : list bytes }.
#[export] Instance eta_Connection : Eta Connection :=
  fun c => MkConnection (socks c) (has_remote_addr c) (remote_addr c) (server c) (MTU c)
    (session c) (conn_direction c) (saved_timestamp c) (saved_timestamp_received_at c)
    (expected_receiver_seq c) (last_heard c) (last_port_choice c) (last_roundtrip_success c)
    (RTT_hit c) (SRTT c) (RTTVAR c) (send_error c) (counter c) (wire c).

(** The members both constructors start from, before sockets are bound. *)
Definition Connection_init (is_server : bool) (key : bytes) (now g : Z) : Connection :=
  MkConnection [] false [] is_server DEFAULT_SEND_MTU (Session_new key)
    (if is_server then TO_CLIENT else TO_SERVER) NO_TIMESTAMP 0 0
    UINT64_MAX now UINT64_MAX false (dbl 1000) (dbl 500) None g [].

(** What the sockets do during a call. *)
Inductive recvmsg_result : Type :=
| RecvError (errno : Z)
| RecvTruncated (errno : Z)
| RecvDatagram (data : bytes) (addr : bytes) (congestion_experienced : bool) (name_ok : bool).

Record SendEnv : Type := MkSendEnv {
  sendto_error : option Z; (* errno, or everything was sent *)
  new_socket : result Z Z; (* a descriptor, or errno *)
}.

Definition EAGAIN : Z := 11.
Definition EMSGSIZE : Z := 90.

Definition prune_sockets (now : Z) (c : Connection) : Connection :=
  if 1 <? lenZ (socks c) then
    let c := if MAX_OLD_SOCKET_AGE <? u64 (now - last_port_choice c)
             then c <| socks := drop (length (socks c) - 1) (socks c) |> else c in
    if MAX_PORTS_OPEN <? lenZ (socks c)
    then c <| socks := drop (length (socks c) - Z.to_nat MAX_PORTS_OPEN) (socks c) |> else c
  else c.

Definition on_session {A} (m : X Session A) : X Connection A :=
  zoom session (fun t c => c <| session := t |>) m.
Definition on_counter {A} (m : X Z A) : X Connection A :=
  zoom counter (fun t c => c <| counter := t |>) m.

Section connection.
Context `{AE}.

Definition new_packet (now : Z) (s_payload : bytes) : X Connection Packet :=
  c ← noexn get;
  let recent := u64 (now - saved_timestamp_received_at c) <? 1000 in
  let reply := if recent then u16 (saved_timestamp c + u64 (now - saved_timestamp_received_at c))
               else NO_TIMESTAMP in
  (if recent
   then noexn (modify (fun c => c <| saved_timestamp := NO_TIMESTAMP |>
                                  <| saved_timestamp_received_at := 0 |>))
   else mret tt) ;;
  s ← on_counter unique;
  mret (MkPacket s (conn_direction c) (timestamp16 now) reply s_payload).

Definition hop_port (now : Z) (sock : result Z Z) : X Connection unit :=
  c ← noexn get;
  noexn (assert_ (negb (server c))) ;;
  noexn (modify (fun c => c <| last_port_choice := now |>)) ;;
  noexn (assert_ (negb (lenZ (remote_addr c) =? 0))) ;;
  match sock with
  | Err e => throw (NetworkException e)
  | Ok fd => noexn (modify (fun c => prune_sockets now (c <| socks := socks c ++ [fd] |>)))
  end.

(** A failed [sendto] is made available to the frontend. *)
Definition note_sendto (env : SendEnv) (c : Connection) : Connection :=
  match sendto_error env with
  | None => c
  | Some e =>
      let c := c <| send_error := Some e |> in
      if e =? EMSGSIZE then c <| MTU := DEFAULT_SEND_MTU |> else c
  end.

Definition send (now : Z) (env : SendEnv) (s : bytes) : X Connection unit :=
  c ← noexn get;
  if negb (has_remote_addr c) then mret tt else
  px ← new_packet now s;
  p ← on_session (encrypt (toMessage px));
  noexn (assert_ (negb (bool_decide (socks c = [])))) ;;
  noexn (modify (fun c => c <| wire := wire c ++ [p] |>)) ;;
  noexn (modify (note_sendto env)) ;;
  c ← noexn get;
  (if server c then
     if SERVER_ASSOCIATION_TIMEOUT <? u64 (now - last_heard c)
     then noexn (modify (fun c => c <| has_remote_addr := false |>)) else mret tt
   else if (PORT_HOP_INTERVAL <? u64 (now - last_port_choice c))
           && (PORT_HOP_INTERVAL <? u64 (now - last_roundtrip_success c))
   then hop_port now (new_socket env) else mret tt).

(** The round-trip estimate after a measurement of [R] milliseconds. *)
Definition update_RTT (R : Z) (c : Connection) : Connection :=
  if 5000 <=? R then c else
  let R := dbl R in
  if negb (RTT_hit c)
  then c <| SRTT := R |> <| RTTVAR := ddiv R (dbl 2) |> <| RTT_hit := true |>
  else
    let alpha := one_eighth in
    let beta := one_quarter in
    let rttvar := dadd (dmul (dsub (dbl 1) beta) (RTTVAR c))
                       (dmul beta (SFabs (dsub (SRTT c) R))) in
    let srtt := dadd (dmul (dsub (dbl 1) alpha) (SRTT c)) (dmul alpha R) in
    c <| RTTVAR := rttvar |> <| SRTT := srtt |>.

Definition recv_one (now : Z) (r : recvmsg_result) : X Connection bytes :=
  match r with
  | RecvError e => throw (NetworkException e)
  | RecvTruncated e => throw (NetworkException e)
  | RecvDatagram data addr congestion_experienced name_ok =>
      m ← on_session (decrypt data);
      match Packet_of_message m with
      | Err e => throw e
      | Ok p =>
          c ← noexn get;
          dos_assert (bool_decide (direction p = if server c then TO_SERVER else TO_CLIENT)) ;;
          if seq p <? expected_receiver_seq c then mret (payload p) else
          noexn (modify (fun c => c <| expected_receiver_seq := u64 (seq p + 1) |>)) ;;
          (if timestamp_ p =? NO_TIMESTAMP then mret tt else
           noexn (modify (fun c =>
             let c := c <| saved_timestamp := timestamp_ p |>
                        <| saved_timestamp_received_at := now |> in
             if congestion_experienced
             then c <| saved_timestamp := u16 (saved_timestamp c - CONGESTION_TIMESTAMP_PENALTY) |>
             else c))) ;;
          (if timestamp_reply p =? NO_TIMESTAMP then mret tt else
           R ← noexn (lift (timestamp_diff (timestamp16 now) (timestamp_reply p)));
           noexn (modify (update_RTT R))) ;;
          noexn (modify (fun c => c <| has_remote_addr := true |> <| last_heard := now |>)) ;;
          c ← noexn get;
          if server c && negb (bool_decide (remote_addr c = addr)) then
            noexn (modify (fun c => c <| remote_addr := addr |>)) ;;
            if name_ok : bool then mret (payload p) else throw (NetworkException 0)
          else mret (payload p)
      end
  end.

(** The loop of [recv] over the sockets. *)
Fixpoint recv_loop (now : Z) (recvmsg : Z -> recvmsg_result) (fds : list Z) : X Connection bytes :=
  match fds with
  | [] => throw (NetworkException 0)
  | fd :: fds' =>
      fun c =>
        match recv_one now (recvmsg fd) c with
        | Ok (Err (NetworkException e), c') =>
            if e =? EAGAIN then recv_loop now recvmsg fds' c' else Ok (Err (NetworkException e), c')
        | Ok (Err e, c') => Ok (Err e, c')
        | Ok (Ok payload, c') => Ok (Ok payload, prune_sockets now c')
        | Err f => Err f
        end
  end.

Definition recv (now : Z) (recvmsg : Z -> recvmsg_result) : X Connection bytes :=
  c ← noexn get;
  noexn (assert_ (negb (bool_decide (socks c = [])))) ;;
  recv_loop now recvmsg (socks c).
End connection.

Definition timeout (c : Connection) : Z :=
  let RTO := u64 (lrint_ceil (dadd (SRTT c) (dmul (dbl 4) (RTTVAR c)))) in
  if RTO <? MIN_RTO then MIN_RTO else if MAX_RTO <? RTO then MAX_RTO else RTO.

Definition set_last_roundtrip_success (t : Z) (c : Connection) : Connection :=
  c <| last_roundtrip_success := t |>.

(** [set_MTU]: 1280-octet MTUs less the IP and UDP headers. *)
Inductive family : Type := AF_INET | AF_INET6 | AF_OTHER.
Definition set_MTU (f : family) : X Connection unit :=
  match f with
  | AF_INET => noexn (modify (fun c => c <| MTU := 1280 - (20 + 8) |>))
  | AF_INET6 => noexn (modify (fun c => c <| MTU := 1280 - (40 + 16 + 8) |>))
  | AF_OTHER => throw (NetworkException 0)
  end.

(** [parse_portrange]: [Some (low, high)] when it returns true. *)
Definition parse_portrange (desired_port : bytes) : option (Z * Z) :=
  let r := strtol desired_port in
  if st_erange r || negb (match st_end r with [] => true | c :: _ => c =? chr ":" end) then None
  else if (st_val r <? 0) || (65535 <? st_val r) then None
  else
    let low := st_val r in
    match st_end r with
    | [] => Some (low, low)
    | _ :: cp =>
        let r := strtol cp in
        if st_erange r || negb (bool_decide (st_end r = [])) then None
        else if (st_val r <? 0) || (65535 <? st_val r) then None
        else
          let high := st_val r in
          if high <? low then None
          else if low =? 0 then None
          else Some (low, high)
    end.

(** ** Packets round trip *)

Definition packet_wf (p : Packet) : Prop :=
  0 <= seq p < 2 ^ 63 /\ is_u16 (timestamp_ p) /\ is_u16 (timestamp_reply p).

Definition direction_seq (p : Packet) : Z :=
  (if decide (direction p = TO_CLIENT) then 2 ^ 63 else 0) + seq p mod 2 ^ 63.

Lemma SEQUENCE_MASK_ones : SEQUENCE_MASK = Z.ones 63.
Proof. done. Qed.

Lemma toMessage_nonce p : nonce (toMessage p) = Nonce_of_val (direction_seq p).
Proof.
  unfold toMessage, direction_seq. cbn [nonce]. f_equal. rewrite SEQUENCE_MASK_ones, Z.land_ones by lia.
  rewrite lor_shiftl_add by (lia || apply Z.mod_pos_bound; lia). by destruct (decide _).
Qed.

Lemma direction_seq_u64 p : is_u64 (direction_seq p).
Proof.
  unfold direction_seq, is_u64. pose proof (Z.mod_pos_bound (seq p) (2 ^ 63) ltac:(lia)).
  case_decide; lia.
Qed.

Lemma direction_bit p :
  (Z.land (direction_seq p) DIRECTION_MASK =? 0) = bool_decide (direction p = TO_SERVER) /\
  Z.land (direction_seq p) SEQUENCE_MASK = seq p mod 2 ^ 63.
Proof.
  unfold direction_seq. rewrite SEQUENCE_MASK_ones, Z.land_ones by lia.
  pose proof (Z.mod_pos_bound (seq p) (2 ^ 63) ltac:(lia)) as Hs. set (q := seq p mod 2 ^ 63) in *.
  assert (Hbit : forall b : bool, Z.land ((if b then 2 ^ 63 else 0) + q) DIRECTION_MASK = if b then 2 ^ 63 else 0).
  { intros b. replace ((if b then 2 ^ 63 else 0) + q) with (Z.lor (Z.shiftl (if b then 1 else 0) 63) q)
      by (rewrite lor_shiftl_add by lia; by destruct b).
    apply Z.bits_inj'. intros n Hn. rewrite Z.land_spec, Z.lor_spec, Z.shiftl_spec by done.
    unfold DIRECTION_MASK. rewrite Z.pow2_bits_eqb by lia. destruct (Z.eqb_spec 63 n) as [<-|Hne].
    - rewrite (bits_above q 63) by lia. rewrite orb_false_r, andb_true_r. by destruct b.
    - rewrite andb_false_r. destruct b; [|by rewrite Z.bits_0].
      by rewrite Z.pow2_bits_false by lia. }
  split.
  - destruct (direction p); [rewrite decide_False by done; by rewrite (Hbit false)|].
    rewrite decide_True by done. by rewrite (Hbit true).
  - case_decide.
    + replace (2 ^ 63 + q) with (q + 1 * 2 ^ 63) by lia. rewrite Z.mod_add by lia. by apply Z.mod_small.
    + by apply Z.mod_small.
Qed.

(** Packets survive the wire: the message built from any packet (63-bit
    sequence number, either direction, any timestamps and payload) is read
    back as the same packet. *)
Theorem packet_roundtrip p : packet_wf p -> Packet_of_message (toMessage p) = Ok p.
Proof.
  intros (Hs & Ht & Hr). unfold Packet_of_message. rewrite toMessage_nonce, nonce_val_of_val by apply direction_seq_u64.
  destruct (direction_bit p) as [-> ->]. rewrite (Z.mod_small (seq p)) by done.
  unfold toMessage. cbn [text]. rewrite (proj2 (Z.ltb_ge _ 4)).
  2:{ rewrite !lenZ_app. pose proof (lenZ_nonneg (payload p)). unfold lenZ at 1 2. cbn [length htobe16]. lia. }
  change (take 2 ((htobe16 ?a ++ ?b) ++ ?c)) with (htobe16 a).
  change (take 2 (drop 2 ((htobe16 ?a ++ htobe16 ?b) ++ ?c))) with (htobe16 b).
  change (drop 4 ((htobe16 ?a ++ htobe16 ?b) ++ ?c)) with c.
  rewrite !be16_roundtrip by done. destruct p as [q []]; done.
Qed.

Lemma packet_roundtrip_witness :
  Packet_of_message (toMessage (MkPacket 7 TO_CLIENT 1000 65535 [1; 2])) =
    Ok (MkPacket 7 TO_CLIENT 1000 65535 [1; 2]).
Proof. apply packet_roundtrip. repeat split; cbn; lia. Defined.

(** ** Nonces are never reused *)

(** The part of the connection that decides which nonces are used. *)
Definition core (c : Connection) : Session * Z * list bytes * Direction :=
  (session c, counter c, wire c, conn_direction c).

Section nonces.
Context `{AE} `{!AELaws}.

Lemma new_packet_core now s c :
  0 <= counter c < 2 ^ 64 - 1 ->
  exists p c', new_packet now s c = Ok (Ok p, c') /\ seq p = counter c /\
    direction p = conn_direction c /\ payload p = s /\
    core c' = (session c, counter c + 1, wire c, conn_direction c) /\ socks c' = socks c.
Proof.
  intros Hc. unfold new_packet. rewrite (X_bind_Ok _ _ c c c) by done. cbv zeta.
  set (b := u64 (now - saved_timestamp_received_at c) <? 1000).
  set (c1 := if b then c <| saved_timestamp := NO_TIMESTAMP |> <| saved_timestamp_received_at := 0 |> else c).
  rewrite (X_bind_Ok _ _ c tt c1) by (unfold c1; by destruct b).
  assert (H1 : core c1 = core c /\ socks c1 = socks c) by (unfold c1; by destruct b).
  destruct H1 as [H1 H1s]. unfold core in H1. injection H1 as Hs Hn Hw Hd.
  rewrite (X_bind_Ok _ _ c1 (counter c) (c1 <| counter := counter c + 1 |>)).
  2:{ unfold on_counter, zoom, unique. rewrite Hn. unfold u64. rewrite Z.mod_small by lia.
      by rewrite (proj2 (Z.eqb_neq _ 0)) by lia. }
  do 2 eexists. split; [done|]. cbn [seq direction payload]. split_and!; try done.
  unfold core. cbn. by rewrite Hs, Hw, Hd.
Qed.

Lemma prune_core now c : core (prune_sockets now c) = core c.
Proof. unfold prune_sockets. by repeat case_match. Qed.

Lemma hop_port_core now sock c r c' :
  hop_port now sock c = Ok (r, c') -> core c' = core c /\ r <> Err (CryptoException true).
Proof.
  unfold hop_port. rewrite (X_bind_Ok _ _ c c c) by done.
  unfold mbind, X_bind, noexn, assert_, modify. destruct (negb (server c)); [|done]. cbn.
  destruct (negb _); [|done]. cbn. destruct sock as [fd|e]; cbn; intros [= <- <-]; [|done].
  by rewrite prune_core.
Qed.

(** The tail of [send], after the datagram was handed to the socket. *)
Lemma send_tail_core now env c r c' :
  (c ← noexn get;
   (if server c then
      if SERVER_ASSOCIATION_TIMEOUT <? u64 (now - last_heard c)
      then noexn (modify (fun c => c <| has_remote_addr := false |>)) else mret tt
    else if (PORT_HOP_INTERVAL <? u64 (now - last_port_choice c))
            && (PORT_HOP_INTERVAL <? u64 (now - last_roundtrip_success c))
    then hop_port now (new_socket env) else mret tt)) c = Ok (r, c') ->
  core c' = core c /\ r <> Err (CryptoException true).
Proof.
  rewrite (X_bind_Ok _ _ c c c) by done.
  destruct (server c); [|destruct (_ && _); [apply hop_port_core|by intros [= <- <-]]].
  destruct (_ <? _); by intros [= <- <-].
Qed.

Definition dir_bit (d : Direction) : Z := if decide (d = TO_CLIENT) then 2 ^ 63 else 0.

Lemma encrypt_too_long m s : RECEIVE_MTU < lenZ (text m) + 16 -> encrypt m s = Err AssertFail.
Proof.
  intros Hl. unfold encrypt, mbind, X_bind, noexn, assert_.
  by rewrite (proj2 (Z.leb_gt _ _)) by lia.
Qed.

(** What [send] does to the core: nothing, or one more datagram, whose first
    eight octets are the direction bit and the counter. *)
Lemma send_core now env s c r c' :
  0 <= counter c <= blocks_encrypted (session c) -> blocks_encrypted (session c) < 2 ^ 47 ->
  send now env s c = Ok (r, c') -> r <> Err (CryptoException true) ->
  core c' = core c \/
  exists d, take 8 d = htobe64 (dir_bit (conn_direction c) + counter c) /\
    core c' = (session c', counter c + 1, wire c ++ [d], conn_direction c) /\
    counter c + 1 <= blocks_encrypted (session c') < 2 ^ 47.
Proof.
  intros Hc Hb. unfold send. rewrite (X_bind_Ok _ _ c c c) by done.
  destruct (negb (has_remote_addr c)); [intros [= <- <-]; by left|].
  destruct (new_packet_core now s c) as (p & c1 & E1 & Hseq & Hdir & Hpay & Hcore & Hsocks); [lia|].
  rewrite (X_bind_Ok _ _ _ _ _ E1). unfold core in Hcore. injection Hcore as Hs1 Hn1 Hw1 Hd1.
  destruct (Z.leb_spec (lenZ (text (toMessage p)) + 16) RECEIVE_MTU) as [Hfit|Hbig].
  2:{ intros E. unfold mbind at 1, X_bind at 1, on_session, zoom in E.
      rewrite encrypt_too_long in E by done. done. }
  assert (Hlen : 4 <= lenZ (text (toMessage p))).
  { unfold toMessage. cbn [text]. rewrite !lenZ_app. pose proof (lenZ_nonneg (payload p)).
    unfold lenZ at 1 2. cbn [length htobe16]. lia. }
  assert (Hblk : 1 <= blocks (lenZ (text (toMessage p)))).
  { unfold blocks. Z.to_euclidean_division_equations; lia. }
  unfold on_session, zoom at 1. unfold mbind at 1, X_bind at 1. rewrite Hs1.
  rewrite encrypt_eq by lia. set (b := _ + blocks _) in *.
  destruct (Z.ltb_spec b (2 ^ 47)) as [Hlt|Hge]; [|by intros [= <- <-]].
  set (d := cc_str _ ++ _). set (c2 := c1 <| session := _ |>).
  unfold mbind at 1, X_bind at 1, noexn at 1, assert_. destruct (negb _); [|done].
  cbn [mret M_ret]. rewrite (X_bind_Ok _ _ c2 tt (c2 <| wire := wire c2 ++ [d] |>)) by done.
  set (c3 := c2 <| wire := _ |>).
  rewrite (X_bind_Ok _ _ c3 tt (note_sendto env c3)) by done. set (c4 := note_sendto env c3).
  assert (Hc4 : core c4 = core c3) by (unfold c4, note_sendto; by repeat case_match).
  intros E Hr. apply send_tail_core in E as [Ec _]. right. exists d.
  split; [|split].
  - unfold d. rewrite toMessage_nonce, cc_str_of_val. unfold direction_seq, dir_bit.
    rewrite Hseq, Hdir, Z.mod_small by lia. done.
  - rewrite Hc4 in Ec. unfold core in *. injection Ec as -> -> -> ->.
    cbn. by rewrite Hn1, Hw1, Hd1.
  - rewrite Hc4 in Ec. unfold core in Ec. injection Ec as -> _ _ _. cbn. fold b. lia.
Qed.
End nonces.

(** ** Receiving *)

Section receiving.
Context `{AE} `{!AELaws}.

(** The packet a datagram carries, with the exception it raises otherwise. *)
Definition packet_of (data : bytes) (s : Session) : result exn Packet :=
  match decrypt data s with
  | Ok (Ok m, _) => Packet_of_message m
  | Ok (Err e, _) => Err e
  | Err _ => Err (CryptoException false)
  end.

Lemma decrypt_total_eq d s :
  lenZ d <= RECEIVE_MTU -> exists r, decrypt d s = Ok (r, s) /\ r <> Err (CryptoException true).
Proof.
  intros Hl. destruct (Z.ltb_spec (lenZ d) 24).
  - exists (Err (CryptoException false)). unfold decrypt. by rewrite (proj2 (Z.ltb_lt _ _)) by lia.
  - rewrite decrypt_eq by lia. eexists. split; [done|]. by case_match.
Qed.

Lemma packet_of_seq d s p : packet_of d s = Ok p -> 0 <= seq p < 2 ^ 63.
Proof.
  unfold packet_of, Packet_of_message. destruct (decrypt d s) as [[[m|e] ?]|]; try done.
  destruct (_ <? 4); [done|]. intros [= <-]. cbn [seq].
  rewrite SEQUENCE_MASK_ones, Z.land_ones by lia. apply Z.mod_pos_bound. lia.
Qed.

(** The part of [recv_one] that follows the acceptance of a fresh packet. *)
Definition accept (now : Z) (p : Packet) (addr : bytes) (ecn : bool) (c : Connection)
  : result fault Connection :=
  let c := c <| expected_receiver_seq := u64 (seq p + 1) |> in
  let c := if timestamp_ p =? NO_TIMESTAMP then c else
           let c := c <| saved_timestamp := timestamp_ p |> <| saved_timestamp_received_at := now |> in
           if ecn then c <| saved_timestamp := u16 (saved_timestamp c - CONGESTION_TIMESTAMP_PENALTY) |>
           else c in
  c ← (if timestamp_reply p =? NO_TIMESTAMP then Ok c else
       R ← timestamp_diff (timestamp16 now) (timestamp_reply p); Ok (update_RTT R c));
  let c := c <| has_remote_addr := true |> <| last_heard := now |> in
  Ok (if server c && negb (bool_decide (remote_addr c = addr)) then c <| remote_addr := addr |> else c).

Lemma put_session_same c : c <| session := session c |> = c.
Proof. by destruct c. Qed.

Lemma update_RTT_server R c : server (update_RTT R c) = server c.
Proof. unfold update_RTT. by repeat case_match. Qed.
Lemma update_RTT_addr R c : remote_addr (update_RTT R c) = remote_addr c.
Proof. unfold update_RTT. by repeat case_match. Qed.

Lemma recv_one_eq now data addr ecn nm c :
  lenZ data <= RECEIVE_MTU ->
  recv_one now (RecvDatagram data addr ecn nm) c =
    match packet_of data (session c) with
    | Err e => Ok (Err e, c)
    | Ok p =>
        if negb (bool_decide (direction p = if server c then TO_SERVER else TO_CLIENT))
        then Ok (Err (CryptoException false), c)
        else if seq p <? expected_receiver_seq c then Ok (Ok (payload p), c)
        else match accept now p addr ecn c with
             | Err f => Err f
             | Ok c' => Ok (if server c && negb (bool_decide (remote_addr c = addr)) && negb nm
                            then Err (NetworkException 0) else Ok (payload p), c')
             end
    end.
Proof.
  intros Hl. destruct (decrypt_total_eq data (session c) Hl) as (r & E & _).
  unfold packet_of. rewrite E. unfold recv_one, on_session.
  unfold mbind at 1, X_bind at 1, zoom. rewrite E, put_session_same.
  destruct r as [m|e]; [|done]. destruct (Packet_of_message m) as [p|e]; [|done].
  rewrite (X_bind_Ok _ _ c c c) by done. unfold dos_assert.
  destruct (bool_decide _); cbn [negb]; [|done].
  rewrite (X_bind_Ok _ _ c tt c) by done. destruct (seq p <? _); [done|].
  unfold accept, mbind, X_bind, noexn, modify, lift, result_bind.
  destruct (timestamp_ p =? NO_TIMESTAMP), ecn, (timestamp_reply p =? NO_TIMESTAMP);
    cbn [mret X_ret]; try (destruct (timestamp_diff _ _) as [R|]; [|done]);
    cbn [server remote_addr set_field get]; rewrite ?update_RTT_server, ?update_RTT_addr;
    cbn [server remote_addr set_field];
    destruct (server c && negb (bool_decide (remote_addr c = addr))), nm; done.
Qed.

Lemma be16toh_u16 b : Forall is_u8 b -> is_u16 (be16toh b).
Proof.
  intros Hb. assert (Hn : forall i, is_u8 (nth i b 0)).
  { intros i. rewrite nth_lookup. destruct (b !! i) as [x|] eqn:E; cbn; [|unfold is_u8; lia].
    by apply (Forall_lookup_1 _ _ _ _ Hb E). }
  pose proof (Hn 0%nat). pose proof (Hn 1%nat). unfold be16toh, is_u8, is_u16 in *.
  rewrite lor_shiftl_add by lia. lia.
Qed.

Lemma packet_of_timestamps d s p :
  Forall is_u8 d -> lenZ d <= RECEIVE_MTU -> packet_of d s = Ok p ->
  is_u16 (timestamp_ p) /\ is_u16 (timestamp_reply p).
Proof.
  intros Hd Hl. unfold packet_of. destruct (Z.ltb_spec (lenZ d) 24).
  { unfold decrypt. by rewrite (proj2 (Z.ltb_lt _ _)) by lia. }
  rewrite decrypt_eq by lia. destruct (ae_decrypt _ _ _) as [pt|] eqn:E; [|done].
  apply ae_decrypt_octets in E; [|by apply Forall_drop]. unfold Packet_of_message. cbn [text].
  destruct (_ <? 4); [done|]. intros [= <-]. cbn [timestamp_ timestamp_reply].
  split; apply be16toh_u16; auto using Forall_take, Forall_drop.
Qed.

Lemma timestamp_diff_eq a b :
  is_u16 a -> is_u16 b -> timestamp_diff a b = Ok ((a - b) mod 65536).
Proof.
  unfold is_u16, timestamp_diff, u16. intros Ha Hb. destruct (Z.ltb_spec (a - b) 0).
  - rewrite (proj2 (Z.leb_le 0 _)), (proj2 (Z.leb_le _ 65535)) by lia. cbn [negb].
    f_equal. rewrite Z.mod_small by lia. apply Z.mod_unique with (-1); lia.
  - rewrite (proj2 (Z.leb_le 0 _)), (proj2 (Z.leb_le _ 65535)) by lia. done.
Qed.

Lemma timestamp16_u16 now : is_u16 (timestamp16 now).
Proof.
  unfold timestamp16. case_match; [apply u16_range|]. unfold is_u16.
  pose proof (Z.mod_pos_bound now 65536 eq_refl). lia.
Qed.

Lemma update_RTT_core R c :
  core (update_RTT R c) = core c /\ expected_receiver_seq (update_RTT R c) = expected_receiver_seq c.
Proof. unfold update_RTT. by repeat case_match. Qed.

Lemma accept_ok now p addr ecn c :
  is_u16 (timestamp_reply p) -> 0 <= seq p < 2 ^ 63 ->
  exists c', accept now p addr ecn c = Ok c' /\ core c' = core c /\ server c' = server c /\
    expected_receiver_seq c' = seq p + 1 /\ last_heard c' = now /\ has_remote_addr c' = true.
Proof.
  intros Ht Hs. unfold accept. cbv zeta. rewrite u64_id by (unfold is_u64; lia).
  set (c1 := c <| expected_receiver_seq := seq p + 1 |>).
  set (c2 := if timestamp_ p =? NO_TIMESTAMP then c1 else _).
  assert (H2 : core c2 = core c /\ server c2 = server c /\ expected_receiver_seq c2 = seq p + 1).
  { unfold c2. by repeat case_match. }
  set (r := if timestamp_reply p =? NO_TIMESTAMP then Ok c2 else _).
  assert (H3 : exists c3, r = Ok c3 /\ core c3 = core c /\ server c3 = server c /\
                expected_receiver_seq c3 = seq p + 1).
  { unfold r. case_match; [by exists c2|].
    rewrite timestamp_diff_eq by (done || apply timestamp16_u16). cbn [mbind result_bind].
    eexists. split; [done|]. destruct (update_RTT_core ((timestamp16 now - timestamp_reply p) mod 65536) c2) as [-> ->].
    by rewrite update_RTT_server. }
  destruct H3 as (c3 & -> & Hc & Hsv & He). cbn [mbind result_bind]. eexists. split; [done|].
  case_match; unfold core in *; cbn; by rewrite Hc, Hsv, He.
Qed.

(** A datagram that carries no packet under the key, or none at all. *)
Definition forged (s : Session) (r : recvmsg_result) : Prop :=
  match r with
  | RecvDatagram data _ _ _ => lenZ data <= RECEIVE_MTU /\ exists e, packet_of data s = Err e
  | _ => True
  end.

Lemma packet_of_not_fatal data s : lenZ data <= RECEIVE_MTU -> packet_of data s <> Err (CryptoException true).
Proof.
  intros Hl. destruct (decrypt_total_eq data s Hl) as (r & E & Hr). unfold packet_of. rewrite E. destruct r as [m|e]; [|congruence]. unfold Packet_of_message. by case_match.
Qed.

Lemma recv_forged now recvmsg c : socks c <> [] -> (forall fd, forged (session c) (recvmsg fd)) -> exists e, recv now recvmsg c = Ok (Err e, c) /\ e <> CryptoException true.
Proof.
  intros Hs Hf. unfold recv. rewrite (X_bind_Ok _ _ c c c) by done. rewrite bool_decide_false by done. rewrite (X_bind_Ok _ _ c tt c) by done. clear Hs.
  induction (socks c) as [|fd fds IH]; cbn [recv_loop]; [by eexists|]. specialize (Hf fd). destruct (recvmsg fd) as [e|e|data a ecn nm]; cbn [forged] in Hf.
  - cbn [recv_one throw]. destruct (e =? EAGAIN); [done|]. by eexists.
  - cbn [recv_one throw]. destruct (e =? EAGAIN); [done|]. by eexists.
  - destruct Hf as (Hl & e & He). rewrite recv_one_eq by done. pose proof (packet_of_not_fatal data (session c) Hl) as Hn. rewrite He in *. destruct e as [[]|e]; [done|by eexists|]. destruct (e =? EAGAIN); [done|]. by eexists.
Qed.

(** Only the key of a session matters. *)
Lemma packet_of_key data s s' : key s = key s' -> packet_of data s = packet_of data s'.
Proof.
  intros E. unfold packet_of, decrypt. cbv zeta. destruct (_ <? 24); [done|].
  unfold assert_. destruct (0 <=? _); [|done]. rewrite !(X_bind_Ok (noexn (mret tt)) _ _ tt _) by done. destruct (i32 _ <=? _); [|done]. rewrite !(X_bind_Ok (noexn (mret tt)) _ _ tt _) by done.
  destruct (_ <=? _); [|done]. rewrite !(X_bind_Ok (noexn (mret tt)) _ _ tt _) by done. destruct (Nonce_of_bytes _); [|done]. rewrite !(X_bind_Ok (noexn (gets key)) _ _ _ _ eq_refl), E.
  destruct (ae_decrypt _ _ _); [|done]. by destruct (negb _).
Qed.
Lemma forged_key s s' r : key s = key s' -> forged s r -> forged s' r.
Proof. intros E. destruct r; [done..|]. cbn [forged]. by rewrite (packet_of_key _ s s' E). Qed.
End receiving.

Definition sample_server : Connection :=
  (Connection_init true sample_key 5000 0) <| socks := [3] |>.
Definition sample_datagram : bytes :=
  match encrypt (toMessage (MkPacket 0 TO_SERVER 1000 65535 [9])) (Session_new sample_key) with
  | Ok (Ok d, _) => d
  | _ => []
  end.

Lemma sample_datagram_ok : Forall is_u8 sample_datagram /\ lenZ sample_datagram <= RECEIVE_MTU.
Proof. split; [vm_compute; repeat constructor; congruence|vm_compute; congruence]. Qed.

(** ** The connection as a state machine *)

Definition recvmsg_ok (r : recvmsg_result) : Prop :=
  match r with
  | RecvDatagram data _ _ _ => Forall is_u8 data /\ lenZ data <= RECEIVE_MTU
  | _ => True
  end.

Section machine.
Context `{AE} `{!AELaws}.

Lemma recv_one_core now r c res c' :
  recvmsg_ok r -> recv_one now r c = Ok (res, c') -> core c' = core c.
Proof.
  destruct r as [e|e|data addr ecn nm]; cbn [recvmsg_ok]; [by intros _ [= _ <-]..|].
  intros [Hd Hl]. rewrite recv_one_eq by done.
  destruct (packet_of data (session c)) as [p|] eqn:Ep; [|by intros [= _ <-]].
  destruct (negb _); [by intros [= _ <-]|]. destruct (_ <? _); [by intros [= _ <-]|].
  destruct (packet_of_timestamps _ _ _ Hd Hl Ep) as [_ Ht]. pose proof (packet_of_seq _ _ _ Ep) as Hs.
  destruct (accept_ok now p addr ecn c Ht Hs) as (c1 & -> & Hc & _). by intros [= _ <-].
Qed.

Lemma recv_core now recvmsg c res c' :
  (forall fd, recvmsg_ok (recvmsg fd)) -> recv now recvmsg c = Ok (res, c') -> core c' = core c.
Proof.
  intros Hok. unfold recv. rewrite (X_bind_Ok _ _ c c c) by done.
  unfold mbind, X_bind, noexn, assert_. destruct (negb _); [|done]. cbn [mret M_ret].
  generalize (socks c). intros fds. revert c.
  induction fds as [|fd fds IH]; intros c; cbn [recv_loop]; [by intros [= _ <-]|].
  destruct (recv_one now (recvmsg fd) c) as [[[pl|[f|e]] c1]|] eqn:E1; [..|done];
    apply recv_one_core in E1; auto.
  - intros [= _ <-]. by rewrite prune_core.
  - intros [= _ <-]. done.
  - destruct (e =? EAGAIN); [|by intros [= _ <-]]. intros E2. by rewrite (IH _ E2).
Qed.

(** A step: a call of [send] or [recv] that does not end the process. *)
Inductive conn_step : Connection -> Connection -> Prop :=
| step_send now env s c r c' :
    send now env s c = Ok (r, c') -> r <> Err (CryptoException true) -> conn_step c c'
| step_recv now recvmsg c r c' :
    (forall fd, recvmsg_ok (recvmsg fd)) ->
    recv now recvmsg c = Ok (r, c') -> r <> Err (CryptoException true) -> conn_step c c'
| step_roundtrip t c : conn_step c (set_last_roundtrip_success t c).

(** The nonces on the wire are the numbers below the counter. *)
Record nonce_inv (dir : Direction) (c : Connection) : Prop := {
  ni_dir : conn_direction c = dir;
  ni_counter : 0 <= counter c <= blocks_encrypted (session c);
  ni_blocks : blocks_encrypted (session c) < 2 ^ 47;
  ni_wire : exists qs, Forall (fun q => 0 <= q < counter c) qs /\ NoDup qs /\
    take 8 <$> wire c = (fun q => htobe64 (dir_bit dir + q)) <$> qs }.

Lemma nonce_inv_core dir c c' : core c' = core c -> nonce_inv dir c -> nonce_inv dir c'.
Proof.
  unfold core. intros [= Hs Hn Hw Hd] []. split; rewrite ?Hs, ?Hn, ?Hw, ?Hd; done.
Qed.

Lemma conn_step_nonces dir c c' : conn_step c c' -> nonce_inv dir c -> nonce_inv dir c'.
Proof.
  intros [now env s c1 r c2 E Hr|now recvmsg c1 r c2 Hok E Hr|t c1] Hi.
  - pose proof Hi as [Hd Hc Hb (qs & Hq & Hnd & Hw)].
    destruct (send_core now env s c1 r c2 Hc Hb E Hr) as [Hcore|(d & Ht & Hcore & Hbl)];
      [by eapply nonce_inv_core|].
    unfold core in Hcore. injection Hcore as Hn2 Hw2 Hd2. split.
    + congruence.
    + lia.
    + lia.
    + exists (qs ++ [counter c1]). rewrite Hn2, Hw2. split_and!.
      * apply Forall_app. split; [eapply Forall_impl; [exact Hq|]; cbv beta; lia|].
        apply Forall_singleton. lia.
      * apply NoDup_app. split_and!; [done| |apply NoDup_singleton].
        intros q Hin ->%list_elem_of_singleton. rewrite Forall_forall in Hq. apply Hq in Hin. lia.
      * rewrite !fmap_app, Hw. cbn. by rewrite Ht, Hd.
  - eapply nonce_inv_core; [by eapply recv_core|done].
  - by eapply nonce_inv_core; [|exact Hi].
Qed.

Lemma nonce_inv_rtc dir c c' : rtc conn_step c c' -> nonce_inv dir c -> nonce_inv dir c'.
Proof. induction 1; eauto using conn_step_nonces. Qed.

Lemma nonce_inv_start dir k c : core c = (Session_new k, 0, [], dir) -> nonce_inv dir c.
Proof.
  unfold core. intros [= Hs Hn Hw Hd]. split; rewrite ?Hs, ?Hn, ?Hw; try done.
  exists []. split_and!; [done|constructor|done].
Qed.

Lemma htobe64_inj x y : is_u64 x -> is_u64 y -> htobe64 x = htobe64 y -> x = y.
Proof. intros Hx Hy E. by rewrite <- (be64_roundtrip x), E, be64_roundtrip. Qed.

Lemma nonce_inv_wire dir c : nonce_inv dir c ->
  NoDup (take 8 <$> wire c) /\
  Forall (fun n => exists q, 0 <= q < 2 ^ 47 /\ n = htobe64 (dir_bit dir + q)) (take 8 <$> wire c).
Proof.
  intros [_ Hc Hb (qs & Hq & Hnd & ->)]. split.
  - apply NoDup_fmap_2_strong; [|done]. intros x y Hx Hy E. rewrite Forall_forall in Hq.
    apply Hq in Hx, Hy. apply htobe64_inj in E; [lia|..];
      unfold is_u64, dir_bit; case_decide; lia.
  - apply Forall_fmap. eapply Forall_impl; [exact Hq|]. intros q Hr. cbv beta in Hr. exists q.
    split; [lia|done].
Qed.

(** C14. No nonce is used twice under a key: along any run of a server and of
    a client that share a key (sends, receptions of arbitrary datagrams,
    socket errors, port hops, in any order), the nonces of all datagrams the
    two put on the wire are pairwise distinct. *)
Theorem nonces_never_repeat k s0 c0 s c :
  core s0 = (Session_new k, 0, [], TO_CLIENT) -> core c0 = (Session_new k, 0, [], TO_SERVER) ->
  rtc conn_step s0 s -> rtc conn_step c0 c ->
  NoDup (take 8 <$> wire s ++ wire c).
Proof.
  intros Hs0 Hc0 Hs Hc.
  destruct (nonce_inv_wire _ _ (nonce_inv_rtc _ _ _ Hs (nonce_inv_start _ _ _ Hs0))) as [N1 F1].
  destruct (nonce_inv_wire _ _ (nonce_inv_rtc _ _ _ Hc (nonce_inv_start _ _ _ Hc0))) as [N2 F2].
  rewrite fmap_app. apply NoDup_app. split_and!; [done| |done].
  rewrite Forall_forall in F1, F2. intros n H1 H2.
  destruct (F1 n H1) as (q1 & Hq1 & ->), (F2 _ H2) as (q2 & Hq2 & E).
  change (dir_bit TO_CLIENT) with (2 ^ 63) in E. change (dir_bit TO_SERVER) with 0 in E.
  apply htobe64_inj in E; unfold is_u64; lia.
Qed.
End machine.

Definition sample_client : Connection :=
  (Connection_init false sample_key 5000 0)
    <| socks := [4] |> <| has_remote_addr := true |> <| remote_addr := [1] |>.
Definition sample_peer : Connection := sample_server <| has_remote_addr := true |>.
Definition sent_by (c : Connection) : Connection :=
  match send 5100 (MkSendEnv None (Ok 9)) [1; 2; 3] c with Ok (_, c') => c' | Err _ => c end.

Lemma nonces_never_repeat_witness :
  wire (sent_by sample_peer) <> [] /\ wire (sent_by sample_client) <> [] /\
  NoDup (take 8 <$> wire (sent_by sample_peer) ++ wire (sent_by sample_client)).
Proof.
  split; [vm_compute; congruence|]. split; [vm_compute; congruence|].
  apply (nonces_never_repeat sample_key sample_peer sample_client); [done|done|..];
    apply rtc_once, (step_send 5100 (MkSendEnv None (Ok 9)) [1; 2; 3] _ (Ok tt));
    vm_compute; congruence.
Defined.

(** ** Timing *)

(** The retransmission timeout is clamped: whatever the estimates are, it
    lies between 50 and 1000 milliseconds. *)
Theorem timeout_bounds c : MIN_RTO <= timeout c <= MAX_RTO.
Proof. unfold timeout, MIN_RTO, MAX_RTO. repeat case_match; lia. Qed.

(** [timestamp16] is the clock modulo 2{^16}, the value 65535 being skipped. *)
Definition clock16_ok (t : Z) : Prop := t mod 65536 <> 65535.

Lemma timestamp16_eq t : clock16_ok t -> timestamp16 t = t mod 65536.
Proof. intros Ht. unfold timestamp16. by rewrite (proj2 (Z.eqb_neq _ _)). Qed.

Lemma new_packet_reply now s c p c' :
  new_packet now s c = Ok (Ok p, c') ->
  timestamp_reply p = (if u64 (now - saved_timestamp_received_at c) <? 1000
                       then u16 (saved_timestamp c + u64 (now - saved_timestamp_received_at c))
                       else NO_TIMESTAMP).
Proof.
  unfold new_packet. rewrite (X_bind_Ok _ _ c c c) by done. cbv zeta.
  unfold mbind, X_bind, on_counter, zoom, unique, noexn, modify.
  destruct (u64 (now - saved_timestamp_received_at c) <? 1000); cbn [mret X_ret];
    destruct (_ =? 0); by intros [= <- _].
Qed.

(** Round trips are measured net of the time the peer held the timestamp:
    if one side sent at [tA], the other received it at [tB1] and answers at
    [tB2] within a second, and the answer arrives at [tA2], the difference the
    first side computes is [tA2 - tA - (tB2 - tB1)], on clocks that wrap every
    65536 milliseconds. *)
Theorem rtt_measured c tA tB1 tB2 tA2 s p c' :
  saved_timestamp c = timestamp16 tA -> saved_timestamp_received_at c = tB1 ->
  0 <= tB2 - tB1 < 1000 -> clock16_ok tA -> clock16_ok tA2 ->
  0 <= tA2 - tA - (tB2 - tB1) < 65536 ->
  new_packet tB2 s c = Ok (Ok p, c') ->
  timestamp_diff (timestamp16 tA2) (timestamp_reply p) = Ok (tA2 - tA - (tB2 - tB1)).
Proof.
  intros Hs Hr Hh HA HA2 HR E. apply new_packet_reply in E. rewrite E, Hr, Hs.
  rewrite u64_id by (unfold is_u64; lia). rewrite (proj2 (Z.ltb_lt _ _)) by lia.
  rewrite timestamp_diff_eq by (apply timestamp16_u16 || apply u16_range).
  rewrite !timestamp16_eq by done. unfold u16. change (2 ^ 16) with 65536.
  rewrite Zplus_mod_idemp_l, Zminus_mod_idemp_l, Zminus_mod_idemp_r. f_equal.
  rewrite <- (Z.mod_small (tA2 - tA - (tB2 - tB1)) 65536) by done. f_equal. lia.
Qed.

Lemma rtt_measured_witness :
  exists p c', new_packet 700100 [] (sample_server <| saved_timestamp := timestamp16 65500 |>
                  <| saved_timestamp_received_at := 700000 |>) = Ok (Ok p, c') /\
    timestamp_diff (timestamp16 65700) (timestamp_reply p) = Ok (65700 - 65500 - (700100 - 700000)).
Proof.
  do 2 eexists. split; [vm_compute; reflexivity|].
  apply (rtt_measured (sample_server <| saved_timestamp := timestamp16 65500 |>
                  <| saved_timestamp_received_at := 700000 |>) 65500 700000 700100 65700 [] _
           (match new_packet 700100 [] (sample_server <| saved_timestamp := timestamp16 65500 |>
                  <| saved_timestamp_received_at := 700000 |>) with
            | Ok (_, c) => c | _ => sample_server end));
    try done; try lia; vm_compute; congruence.
Defined.

(** ** Port ranges *)

Lemma dec_ne_range z : 0 <= z <= 65535 -> 0 <= z <= LONG_MAX.
Proof. unfold LONG_MAX. lia. Qed.

(** Port ranges: a decimal port or [low:high] with
    [1 <= low <= high <= 65535] is accepted as written, and whatever text is
    accepted, the result is an ordered pair of ports, with no range starting
    at 0. *)
Theorem parse_portrange_spec lo hi s :
  (0 <= lo <= 65535 -> parse_portrange (dec lo) = Some (lo, lo)) /\
  (1 <= lo <= hi -> hi <= 65535 -> parse_portrange (dec lo ++ 58 :: dec hi) = Some (lo, hi)) /\
  (parse_portrange s = Some (lo, hi) -> 0 <= lo <= hi /\ hi <= 65535 /\ (lo < hi -> 1 <= lo)).
Proof.
  split_and!.
  - intros Hlo. unfold parse_portrange. rewrite <- (app_nil_r (dec lo)).
    rewrite strtol_dec by (by apply dec_ne_range || done). cbn [st_erange st_end st_val orb negb].
    rewrite (proj2 (Z.ltb_ge lo 0)), (proj2 (Z.ltb_ge 65535 lo)) by lia. done.
  - intros Hlo Hhi. unfold parse_portrange.
    rewrite strtol_dec by (done || (apply dec_ne_range; lia)). cbn [st_erange st_end st_val].
    change (58 =? chr ":") with true. cbn [orb negb].
    rewrite (proj2 (Z.ltb_ge lo 0)), (proj2 (Z.ltb_ge 65535 lo)) by lia. cbn [orb].
    rewrite <- (app_nil_r (dec hi)). rewrite strtol_dec by (done || (apply dec_ne_range; lia)).
    cbn [st_erange st_end st_val]. rewrite bool_decide_true by done. cbn [orb negb].
    rewrite (proj2 (Z.ltb_ge hi 0)), (proj2 (Z.ltb_ge 65535 hi)), (proj2 (Z.ltb_ge hi lo)),
      (proj2 (Z.eqb_neq lo 0)) by lia. done.
  - unfold parse_portrange. destruct (_ || _); [done|].
    destruct ((st_val _ <? 0) || _) eqn:E1; [done|]. destruct (st_end (strtol s)) as [|c cp].
    { intros [= <- <-]. lia. }
    destruct (st_erange (strtol cp) || _); [done|]. destruct ((st_val (strtol cp) <? 0) || _) eqn:E2; [done|].
    destruct (Z.ltb_spec (st_val (strtol cp)) (st_val (strtol s))); [done|].
    destruct (Z.eqb_spec (st_val (strtol s)) 0); [done|]. intros [= <- <-]. lia.
Qed.

Lemma parse_portrange_spec_witness :
  parse_portrange (dec 22) = Some (22, 22) /\
  parse_portrange (dec 60001 ++ 58 :: dec 60999) = Some (60001, 60999) /\
  (0 <= 60001 <= 60999 /\ 60999 <= 65535 /\ (60001 < 60999 -> 1 <= 60001)).
Proof.
  split; [apply (parse_portrange_spec 22 0 []); lia|].
  split; [apply (parse_portrange_spec 60001 60999 []); lia|].
  apply (parse_portrange_spec 60001 60999 (dec 60001 ++ 58 :: dec 60999)). vm_compute. reflexivity.
Defined.
