(* ===== verification/Receive.v ===== *)
(** * What a datagram does to a connection (mosh/src/network/network.cc)

    The octets that carry a packet, read without the code's own parser; what
    [Connection::recv_one] does on a fresh packet, on an old one and on octets
    that carry none; replays and reordering along a run of a connection. *)
From stdpp Require Import relations.
From Stdlib Require Import SpecFloat.
From S2P Require Export Connection.

(** ** What is on the wire *)

(** Octets as a number, the most significant first. *)
Definition be_value (octets : bytes) : Z := foldl (fun v o => 256 * v + o) 0 octets.

(** The datagram opens under the key to the packet: eight octets of nonce (the
    direction in the highest bit, the number in the other 63), then the sealed
    text, two octets of timestamp, two of timestamp reply and the payload. *)
Definition carries `{AE} (k data : bytes) (p : Packet) : Prop :=
  exists pt, ae_decrypt k (replicate 4 0 ++ take 8 data) (drop 8 data) = Some pt /\ 4 <= lenZ pt /\
    seq p = be_value (take 8 data) mod 2 ^ 63 /\
    direction p = (if be_value (take 8 data) <? 2 ^ 63 then TO_SERVER else TO_CLIENT) /\
    timestamp_ p = be_value (take 2 pt) /\ timestamp_reply p = be_value (take 2 (drop 2 pt)) /\
    payload p = drop 4 pt.

(** The direction of the packets a connection receives. *)
Definition to_me (c : Connection) : Direction := if server c then TO_SERVER else TO_CLIENT.

Lemma be_value_16 b : Forall is_u8 b -> length b = 2%nat -> be16toh b = be_value b.
Proof.
  intros Hb Hl. destruct b as [|x [|y [|z b]]]; try done. unfold be16toh, be_value. cbn [nth foldl].
  apply Forall_cons in Hb as [Hx [Hy _]%Forall_cons]. unfold is_u8 in *. rewrite lor_shiftl_add by lia. lia.
Qed.

Lemma lor_octet x y k :
  0 <= k -> is_u8 y -> Z.lor (x * 2 ^ (k + 8)) (Z.shiftl y k) = (256 * x + y) * 2 ^ k.
Proof.
  intros Hk Hy. unfold is_u8 in Hy. rewrite Z.pow_add_r by lia. change (2 ^ 8) with 256.
  replace (x * (2 ^ k * 256)) with (Z.shiftl x 8 * 2 ^ k) by (rewrite Z.shiftl_mul_pow2 by lia; lia).
  rewrite <- !(Z.shiftl_mul_pow2 _ k) by lia. rewrite <- Z.shiftl_lor, lor_shiftl_add by lia. f_equal. lia.
Qed.

Lemma be_value_64 b : Forall is_u8 b -> length b = 8%nat -> be64toh b = be_value b.
Proof.
  intros Hb Hl. do 9 (destruct b as [|? b]; try done). unfold be64toh, be_value. cbn [nth foldl].
  repeat (apply Forall_cons in Hb as [? Hb]). rewrite (Z.shiftl_mul_pow2 _ 56) by lia.
  rewrite (lor_octet _ _ 48), (lor_octet _ _ 40), (lor_octet _ _ 32), (lor_octet _ _ 24), (lor_octet _ _ 16),
    (lor_octet _ _ 8) by (done || lia). pose proof (lor_octet) as Hlast. specialize (Hlast (256 * (256 * (256 * (256 *
    (256 * (256 * z + z0) + z1) + z2) + z3) + z4) + z5) z6 0 ltac:(lia) ltac:(done)).
  rewrite Z.shiftl_0_r, Z.mul_1_r in Hlast. etransitivity; [exact Hlast|lia].
Qed.

Lemma be_value_range b n : Forall is_u8 b -> length b = n -> 0 <= be_value b < 2 ^ (8 * Z.of_nat n).
Proof.
  revert n. induction b as [|x b IH] using rev_ind; intros n Hb <-; [done|].
  apply Forall_app in Hb as [Hb [Hx _]%Forall_cons]. specialize (IH _ Hb eq_refl).
  unfold be_value in *. rewrite foldl_app, length_app. cbn [foldl length]. unfold is_u8 in Hx.
  replace (8 * Z.of_nat (length b + 1)) with (8 * Z.of_nat (length b) + 8) by lia.
  rewrite Z.pow_add_r by lia. lia.
Qed.

Lemma land_top_bit v : 0 <= v < 2 ^ 64 -> (Z.land v DIRECTION_MASK =? 0) = (v <? 2 ^ 63).
Proof.
  intros Hv. unfold DIRECTION_MASK. destruct (Z.ltb_spec v (2 ^ 63)) as [Hlt|Hge].
  - apply Z.eqb_eq, Z.bits_inj'. intros n Hn. rewrite Z.land_spec, Z.bits_0, Z.pow2_bits_eqb by lia.
    destruct (Z.eqb_spec 63 n) as [<-|]; [|by rewrite andb_false_r]. by rewrite (bits_above v 63) by lia.
  - apply Z.eqb_neq. intros E. apply (f_equal (fun z => Z.testbit z 63)) in E.
    rewrite Z.land_spec, Z.bits_0, Z.pow2_bits_true, andb_true_r in E by lia.
    apply Z.testbit_false in E; [|lia]. Z.to_euclidean_division_equations; lia.
Qed.

Section receive.
Context `{AE} `{!AELaws}.

Lemma carries_length k data p : carries k data p -> 24 <= lenZ data.
Proof.
  intros (pt & E & _). apply ae_decrypt_length in E. rewrite length_drop in E. unfold lenZ. lia.
Qed.

(** The code's reading of a datagram is that one. *)
Lemma carries_packet data s p :
  Forall is_u8 data -> lenZ data <= RECEIVE_MTU -> (packet_of data s = Ok p <-> carries (key s) data p).
Proof.
  intros Hd Hl. destruct (Z.ltb_spec (lenZ data) 24) as [Hlt|Hge].
  { split; [|intros Hc%carries_length; lia]. unfold packet_of, decrypt. by rewrite (proj2 (Z.ltb_lt _ _)) by lia. }
  unfold packet_of. rewrite decrypt_eq by lia. set (n := replicate 4 0 ++ take 8 data).
  assert (Hn8 : length (take 8 data) = 8%nat) by (unfold lenZ in *; rewrite length_take_le; lia).
  pose proof (be_value_range (take 8 data) 8 ltac:(by apply Forall_take) Hn8) as Hr.
  unfold carries. fold n. destruct (ae_decrypt (key s) n (drop 8 data)) as [pt|] eqn:E.
  2:{ split; [done|]. by intros (pt & [=] & _). }
  pose proof (ae_decrypt_octets _ _ _ _ (Forall_drop _ _ _ Hd) E) as Hpt.
  unfold Packet_of_message. cbn [text nonce].
  assert (Hv : nonce_val n = be_value (take 8 data)).
  { unfold nonce_val, n. change (drop 4 (replicate 4 0 ++ ?x)) with x. by apply be_value_64; [apply Forall_take|]. }
  rewrite Hv, SEQUENCE_MASK_ones, Z.land_ones, land_top_bit by (done || lia).
  destruct (Z.ltb_spec (lenZ pt) 4) as [Hs|Hs].
  { split; [done|]. intros (pt' & [= <-] & ? & _). lia. }
  assert (H2 : forall b, Forall is_u8 b -> (2 <= length b)%nat -> be16toh (take 2 b) = be_value (take 2 b)).
  { intros b Hb Hb2. apply be_value_16; [by apply Forall_take|]. rewrite length_take_le by lia. done. }
  unfold lenZ in Hs. rewrite !H2 by (auto using Forall_drop || (rewrite ?length_drop; lia)). split.
  - intros [= <-]. exists pt. cbn. split_and!; done || (unfold lenZ; lia).
  - intros (pt' & [= <-] & _ & H1). destruct p. cbn in *. destruct H1 as (-> & -> & -> & -> & ->). done.
Qed.

(** A datagram carries one packet at most. *)
Lemma carries_unique k data p q : carries k data p -> carries k data q -> p = q.
Proof.
  intros (pt & E & _ & Hp) (pt' & E' & _ & Hq). rewrite E in E'. injection E' as <-.
  destruct p, q; cbn in *.
  destruct Hp as (-> & -> & -> & -> & ->), Hq as (-> & -> & -> & -> & ->). done.
Qed.
End receive.

(** ** What a fresh packet does *)

(** A round trip of [R] milliseconds: the first one is the estimate, the later
    ones are smoothed with factors 1/8 and 1/4 (RFC 6298), in binary64. *)
Definition measured (R : Z) (c : Connection) : Connection :=
  if RTT_hit c
  then c <| RTTVAR := dadd (dmul (ddiv (dbl 3) (dbl 4)) (RTTVAR c))
                           (dmul (ddiv (dbl 1) (dbl 4)) (SFabs (dsub (SRTT c) (dbl R)))) |>
         <| SRTT := dadd (dmul (ddiv (dbl 7) (dbl 8)) (SRTT c)) (dmul (ddiv (dbl 1) (dbl 8)) (dbl R)) |>
  else c <| SRTT := dbl R |> <| RTTVAR := ddiv (dbl R) (dbl 2) |> <| RTT_hit := true |>.

(** The clock modulo 2{^16}, which never shows 65535, the sign of no timestamp. *)
Definition clock16 (now : Z) : Z := if now mod 65536 =? 65535 then 0 else now mod 65536.

(** The connection after a fresh packet: the next number is expected, the peer
    was heard, a server answers to where the packet came from; the packet's
    timestamp is kept to be echoed, 500 ms older if the network is congested;
    a timestamp reply gives a round trip, unless it is of 5 s or more. *)
Definition heard_from (now : Z) (p : Packet) (addr : bytes) (congested : bool) (c : Connection) : Connection :=
  let c := c <| expected_receiver_seq := seq p + 1 |> <| last_heard := now |> <| has_remote_addr := true |>
             <| remote_addr := if server c then addr else remote_addr c |> in
  let c := if timestamp_ p =? 65535 then c
           else c <| saved_timestamp := if congested then (timestamp_ p - 500) mod 65536 else timestamp_ p |>
                  <| saved_timestamp_received_at := now |> in
  let R := (clock16 now - timestamp_reply p) mod 65536 in
  if (timestamp_reply p =? 65535) || (5000 <=? R) then c else measured R c.

Lemma clock16_eq now : timestamp16 now = clock16 now.
Proof.
  unfold timestamp16, clock16. cbv zeta. destruct (Z.eqb_spec (now mod 65536) 65535) as [->|]; [|done]. done.
Qed.

Lemma update_RTT_eq R c : update_RTT R c = if 5000 <=? R then c else measured R c.
Proof.
  unfold update_RTT, measured. destruct (5000 <=? R); [done|]. cbv zeta. destruct (RTT_hit c); [|done]. cbn [negb].
  replace (dsub (dbl 1) one_quarter) with (ddiv (dbl 3) (dbl 4)) by (vm_compute; reflexivity).
  replace (dsub (dbl 1) one_eighth) with (ddiv (dbl 7) (dbl 8)) by (vm_compute; reflexivity).
  unfold one_quarter, one_eighth. by destruct c.
Qed.

Lemma accept_eq now p addr ecn c :
  is_u16 (timestamp_reply p) -> 0 <= seq p < 2 ^ 63 ->
  accept now p addr ecn c = Ok (heard_from now p addr ecn c).
Proof.
  intros Ht Hs. unfold accept, heard_from. cbv zeta. rewrite u64_id by (unfold is_u64; lia).
  unfold NO_TIMESTAMP, CONGESTION_TIMESTAMP_PENALTY, u16. change (2 ^ 16) with 65536.
  destruct (timestamp_reply p =? 65535) eqn:Er; cbn [orb mbind result_bind].
  - f_equal. destruct (timestamp_ p =? 65535), ecn, (server c) eqn:Es; cbn; rewrite ?Es;
      cbn; try case_bool_decide; subst; destruct c; cbn in *; by subst.
  - rewrite timestamp_diff_eq by (done || apply timestamp16_u16). cbn [mbind result_bind].
    rewrite clock16_eq. set (R := _ mod 65536). rewrite update_RTT_eq. f_equal.
    unfold measured. destruct (5000 <=? R), (timestamp_ p =? 65535), ecn, (server c) eqn:Es, (RTT_hit c) eqn:Eh;
      cbn; rewrite ?Es, ?Eh; cbn; rewrite ?Es; cbn; try case_bool_decide; subst; destruct c; cbn in *; by subst.
Qed.

(** ** Along a run *)

(** A connection keeps its key and its role, and the number it expects only
    grows. *)
Definition advances (c c' : Connection) : Prop :=
  key (session c') = key (session c) /\ server c' = server c /\
  expected_receiver_seq c <= expected_receiver_seq c'.
#[export] Instance advances_preorder : PreOrder advances.
Proof. split; [done|]. intros c c1 c2 (? & ? & ?) (? & ? & ?). split_and!; [congruence..|lia]. Qed.

Lemma advances_prune now c : advances c (prune_sockets now c).
Proof. unfold prune_sockets. by repeat case_match. Qed.

Lemma advances_heard now p addr ecn c :
  expected_receiver_seq c <= seq p -> advances c (heard_from now p addr ecn c).
Proof.
  intros Hs. unfold heard_from, measured. cbv zeta. repeat case_match; (split; [done|split; [done|cbn; lia]]).
Qed.

Section sending.
Context `{AE}.

Lemma key_encrypt m : keeps key (encrypt m).
Proof. unfold encrypt, assert_. follows_by fail. Qed.

Lemma advances_send now env s : follows advances (send now env s).
Proof.
  assert (Hunique : follows advances (on_counter unique)) by (by apply follows_zoom).
  assert (Hpacket : follows advances (new_packet now s)) by (unfold new_packet; follows_by exact Hunique).
  assert (Hencrypt : forall m, follows advances (on_session (encrypt m))).
  { intros m. eapply follows_zoom_in; [|apply key_encrypt]. done. }
  assert (Hhop : forall sock, follows advances (hop_port now sock)).
  { intros sock. unfold hop_port, assert_. follows_by fail. destruct sock; [|apply follows_throw, _].
    apply follows_noexn, follows_modify. intros c. etransitivity; [|apply advances_prune]. done. }
  unfold send, assert_.
  follows_by (first [exact Hpacket|apply Hencrypt|apply Hhop
    |apply follows_modify; intros c; unfold note_sendto; by repeat case_match]).
Qed.
End sending.

Section receiving.
Context `{AE} `{!AELaws}.

Lemma recv_one_cases now data addr ecn nm c :
  Forall is_u8 data -> lenZ data <= RECEIVE_MTU ->
  exists r c', recv_one now (RecvDatagram data addr ecn nm) c = Ok (r, c') /\
    (forall p, carries (key (session c)) data p -> direction p = to_me c ->
       if expected_receiver_seq c <=? seq p
       then c' = heard_from now p addr ecn c /\
            r = if server c && negb (bool_decide (remote_addr c = addr)) && negb nm
                then Err (NetworkException 0) else Ok (payload p)
       else c' = c /\ r = Ok (payload p)) /\
    ((forall p, carries (key (session c)) data p -> direction p <> to_me c) ->
     c' = c /\ r = Err (CryptoException false)).
Proof.
  intros Hd Hl. rewrite recv_one_eq by done. pose proof (carries_packet data (session c)) as Hc.
  destruct (packet_of data (session c)) as [p|e] eqn:Ep.
  - pose proof (proj1 (Hc p Hd Hl) eq_refl) as Hp.
    destruct (packet_of_timestamps _ _ _ Hd Hl Ep) as [_ Ht]. pose proof (packet_of_seq _ _ _ Ep) as Hs.
    rewrite accept_eq by done. fold (to_me c). rewrite Z.ltb_antisym.
    assert (Hall : forall q, carries (key (session c)) data q -> q = p) by (intros q Hq; by eapply carries_unique).
    case_bool_decide as Hdir; cbn [negb].
    + destruct (expected_receiver_seq c <=? seq p) eqn:Hle; cbn [negb]; do 2 eexists; (split; [done|]);
        (split; [intros q ->%Hall _; by rewrite Hle|intros Hno; by destruct (Hno p Hp)]).
    + do 2 eexists. split; [done|]. split; [|done]. by intros q ->%Hall.
  - exists (Err e), c. split; [done|]. split.
    + intros p Hp%Hc; done.
    + intros _. split; [done|]. unfold packet_of in Ep. f_equal.
      destruct (decrypt_total_eq data (session c) Hl) as (r & E & Hr).
      destruct (Z.ltb_spec (lenZ data) 24) as [Hlt|Hge].
      * unfold decrypt in Ep. rewrite (proj2 (Z.ltb_lt _ _)) in Ep by lia. by injection Ep as <-.
      * rewrite decrypt_eq in Ep by lia. destruct (ae_decrypt _ _ _); [|by injection Ep as <-].
        unfold Packet_of_message in Ep. case_match; [by injection Ep as <-|done].
Qed.

Lemma advances_recv_one now r c res c' :
  recvmsg_ok r -> recv_one now r c = Ok (res, c') -> advances c c'.
Proof.
  destruct r as [e|e|data addr ecn nm]; cbn [recvmsg_ok]; [by intros _ [= _ <-]..|]. intros [Hd Hl].
  rewrite recv_one_eq by done. destruct (packet_of data (session c)) as [p|] eqn:Ep; [|by intros [= _ <-]].
  destruct (negb _); [by intros [= _ <-]|]. destruct (Z.ltb_spec (seq p) (expected_receiver_seq c)); [by intros [= _ <-]|].
  destruct (packet_of_timestamps _ _ _ Hd Hl Ep) as [_ Ht]. pose proof (packet_of_seq _ _ _ Ep) as Hs.
  rewrite accept_eq by done. intros [= _ <-]. by apply advances_heard.
Qed.

Lemma advances_recv now recvmsg c res c' :
  (forall fd, recvmsg_ok (recvmsg fd)) -> recv now recvmsg c = Ok (res, c') -> advances c c'.
Proof.
  intros Hok. unfold recv. rewrite (X_bind_Ok _ _ c c c) by done.
  unfold mbind, X_bind, noexn, assert_. destruct (negb _); [|done]. cbn [mret M_ret].
  generalize (socks c). intros fds. revert c.
  induction fds as [|fd fds IH]; intros c; cbn [recv_loop]; [by intros [= _ <-]|].
  destruct (recv_one now (recvmsg fd) c) as [[[pl|[f|e]] c1]|] eqn:E1; [..|done];
    apply advances_recv_one in E1; auto.
  - intros [= _ <-]. etransitivity; [exact E1|apply advances_prune].
  - by intros [= _ <-].
  - destruct (e =? EAGAIN); [|by intros [= _ <-]]. intros E2%IH. by etransitivity.
Qed.

Lemma advances_step c c' : conn_step c c' -> advances c c'.
Proof.
  intros [now env s c1 r c2 E _|now recvmsg c1 r c2 Hok E _|t c1]; [|by eapply advances_recv|done].
  by apply (advances_send _ _ _ _ _ _ E).
Qed.

Lemma advances_run c c' : rtc conn_step c c' -> advances c c'.
Proof. induction 1 as [|c c1 c' Hs _ IH]; [done|]. etransitivity; [by apply advances_step|done]. Qed.

(** C15. What any datagram does to a connection: octets that carry no packet of
    the peer's direction under the key (the octets read by [carries]) raise a
    non-fatal crypto exception and change nothing; a packet whose number is
    below the expected one hands up its payload and changes nothing; a packet
    with the expected number or a later one, and only such a one, moves the
    connection, by [heard_from] and nothing else: number, time, roaming,
    timestamp to echo and round-trip estimate.  Its payload is handed up,
    unless the name of a new address cannot be printed. *)
Theorem recv_one_fresh now data addr ecn nm c :
  Forall is_u8 data -> lenZ data <= RECEIVE_MTU ->
  exists r c', recv_one now (RecvDatagram data addr ecn nm) c = Ok (r, c') /\
    (forall p, carries (key (session c)) data p -> direction p = to_me c ->
       if expected_receiver_seq c <=? seq p
       then c' = heard_from now p addr ecn c /\
            r = if server c && negb (bool_decide (remote_addr c = addr)) && negb nm
                then Err (NetworkException 0) else Ok (payload p)
       else c' = c /\ r = Ok (payload p)) /\
    ((forall p, carries (key (session c)) data p -> direction p <> to_me c) ->
     c' = c /\ r = Err (CryptoException false)).
Proof. apply recv_one_cases. Qed.

(** C16. Replayed, reordered and overtaken datagrams are harmless: once a
    connection has received the packet of number [seq p], whatever it then
    sends and receives, any datagram of its peer whose number is at most that
    one (the same octets again, or older ones that arrive late) leaves it
    exactly as it is, from whatever address and whenever it comes (no
    roaming, no timestamps, no round trip), and hands up its own payload. *)
Theorem replay_harmless now data addr ecn nm c r c1 p c2 now2 data2 addr2 ecn2 nm2 p2 :
  Forall is_u8 data -> lenZ data <= RECEIVE_MTU ->
  carries (key (session c)) data p -> direction p = to_me c ->
  recv_one now (RecvDatagram data addr ecn nm) c = Ok (r, c1) -> rtc conn_step c1 c2 ->
  Forall is_u8 data2 -> lenZ data2 <= RECEIVE_MTU ->
  carries (key (session c)) data2 p2 -> direction p2 = to_me c -> seq p2 <= seq p ->
  recv_one now2 (RecvDatagram data2 addr2 ecn2 nm2) c2 = Ok (Ok (payload p2), c2).
Proof.
  intros Hd Hl Hp Hdir E Hrun Hd2 Hl2 Hp2 Hdir2 Hle.
  assert (Hexp : advances c c1 /\ seq p < expected_receiver_seq c1).
  { split; [by eapply (advances_recv_one _ (RecvDatagram data addr ecn nm))|].
    destruct (recv_one_cases now data addr ecn nm c Hd Hl) as (r' & c' & E' & Hcase & _). rewrite E in E'.
    injection E' as <- <-. specialize (Hcase p Hp Hdir). destruct (Z.leb_spec (expected_receiver_seq c) (seq p)).
    - destruct Hcase as [-> _]. unfold heard_from, measured. cbv zeta. repeat case_match; cbn; lia.
    - destruct Hcase as [-> _]. lia. }
  destruct Hexp as [H1 Hlt]. pose proof (advances_run _ _ Hrun) as H2.
  destruct H1 as (Hk1 & Hs1 & _), H2 as (Hk2 & Hs2 & He2).
  destruct (recv_one_cases now2 data2 addr2 ecn2 nm2 c2 Hd2 Hl2) as (r' & c' & E' & Hcase & _).
  rewrite E'. assert (Hto : to_me c2 = to_me c) by (unfold to_me; by rewrite Hs2, Hs1).
  specialize (Hcase p2 ltac:(by rewrite Hk2, Hk1) ltac:(by rewrite Hto)).
  rewrite (proj2 (Z.leb_gt _ _)) in Hcase by lia. by destruct Hcase as [-> ->].
Qed.
End receiving.

(** ** Concrete datagrams *)

(** Three datagrams of a client: the numbers 0, 1 and 2. *)
Definition client_datagram (number : Z) (content : bytes) : bytes :=
  match encrypt (toMessage (MkPacket number TO_SERVER 1000 65535 content)) (Session_new sample_key) with
  | Ok (Ok d, _) => d
  | _ => []
  end.

Lemma client_datagram_ok n x :
  n = 0 \/ n = 1 \/ n = 2 -> x = 7 \/ x = 8 \/ x = 9 ->
  Forall is_u8 (client_datagram n [x]) /\ lenZ (client_datagram n [x]) <= RECEIVE_MTU /\
  carries sample_key (client_datagram n [x]) (MkPacket n TO_SERVER 1000 65535 [x]).
Proof.
  intros [->|[->| ->]] [->|[->| ->]];
    (split; [vm_compute; repeat constructor; congruence|split; [vm_compute; congruence|]]);
    (eexists; split; [vm_compute; reflexivity|]; split_and!; vm_compute; congruence).
Qed.

Lemma recv_one_fresh_witness :
  exists r c', recv_one 6000 (RecvDatagram (client_datagram 1 [9]) [1; 2] false true) sample_server = Ok (r, c') /\
    (forall p, carries sample_key (client_datagram 1 [9]) p -> direction p = TO_SERVER ->
       if 0 <=? seq p
       then c' = heard_from 6000 p [1; 2] false sample_server /\
            r = if server sample_server && negb (bool_decide (remote_addr sample_server = [1; 2])) && negb true
                then Err (NetworkException 0) else Ok (payload p)
       else c' = sample_server /\ r = Ok (payload p)) /\
    ((forall p, carries sample_key (client_datagram 1 [9]) p -> direction p <> TO_SERVER) ->
     c' = sample_server /\ r = Err (CryptoException false)).
Proof.
  apply (recv_one_fresh 6000 _ [1; 2] false true sample_server); apply client_datagram_ok; tauto.
Defined.

(** Number 2 overtakes number 1, which then comes from another address. *)
Definition overtaken : Connection :=
  match recv_one 6000 (RecvDatagram (client_datagram 2 [9]) [1; 2] false true) sample_server with
  | Ok (_, c) => c
  | Err _ => sample_server
  end.

Lemma replay_harmless_witness :
  recv_one 6000 (RecvDatagram (client_datagram 2 [9]) [1; 2] false true) sample_server = Ok (Ok [9], overtaken) /\
  recv_one 99000 (RecvDatagram (client_datagram 1 [8]) [7; 7] true false) overtaken = Ok (Ok [8], overtaken).
Proof.
  split; [vm_compute; reflexivity|].
  apply (replay_harmless 6000 (client_datagram 2 [9]) [1; 2] false true sample_server (Ok [9]) overtaken
    (MkPacket 2 TO_SERVER 1000 65535 [9]) overtaken 99000 (client_datagram 1 [8]) [7; 7] true false
    (MkPacket 1 TO_SERVER 1000 65535 [8])).
  - apply client_datagram_ok; tauto.
  - apply client_datagram_ok; tauto.
  - apply (client_datagram_ok 2 9); tauto.
  - done.
  - vm_compute. reflexivity.
  - apply rtc_refl.
  - apply client_datagram_ok; tauto.
  - apply client_datagram_ok; tauto.
  - apply (client_datagram_ok 1 8); tauto.
  - done.
  - cbn. lia.
Defined.

(** The packet with number 2 made the server roam; the late one did not. *)
Example roaming :
  match recv_one 6000 (RecvDatagram (client_datagram 2 [9]) [1; 2] false true) sample_server with
  | Ok (r, c) => (r, remote_addr c, saved_timestamp c, expected_receiver_seq c)
  | Err _ => (Ok [], [], 0, 0)
  end = (Ok [9], [1; 2], 1000, 3).
Proof. vm_compute. reflexivity. Qed.
