(* ===== verification/Fragment.v ===== *)
(** * Fragments (mosh/src/network/transportfragment.{h,cc}, compressor.cc)

    The wire form of a fragment, the fragmenter and the reassembly buffer.
    Protocol buffers (generated code) and zlib are classes with the laws the
    code relies on. *)
From stdpp Require Import gmap fin_sets.
From S2P Require Export Crypto.

(** ** Instructions (transportinstruction.proto) *)

Record Instruction : Type := MkInstruction {
  protocol_version : Z; old_num : Z; new_num : Z; ack_num : Z; throwaway_num : Z;
  diff : bytes; chaff : bytes }.

Definition inst_wf (i : Instruction) : Prop :=
  0 <= protocol_version i < 2 ^ 32 /\ is_u64 (old_num i) /\ is_u64 (new_num i) /\
  is_u64 (ack_num i) /\ is_u64 (throwaway_num i).

(** [SerializeAsString] and [ParseFromString] of the generated class, and
    [compress] and [uncompress] of zlib ([None] for anything but [Z_OK]) into
    a buffer of [BUFFER_SIZE] octets. *)
Class TransportCodec : Type := {
  SerializeAsString : Instruction -> bytes;
  ParseFromString : bytes -> option Instruction;
  zlib_compress : bytes -> option bytes;
  zlib_uncompress : bytes -> option bytes;
}.

Definition BUFFER_SIZE : Z := 2048 * 2048.

Class TransportCodecLaws `{TransportCodec} : Prop := {
  parse_serialize i : inst_wf i -> ParseFromString (SerializeAsString i) = Some i;
  zlib_nonempty s z : zlib_compress s = Some z -> z <> [];
  zlib_bounded s z : zlib_compress s = Some z -> lenZ z <= BUFFER_SIZE;
  zlib_inverse s z : lenZ s <= BUFFER_SIZE -> zlib_compress s = Some z -> zlib_uncompress z = Some s;
}.

Section compressor.
Context `{TransportCodec}.
Definition compress_str (input : bytes) : result exn bytes :=
  match zlib_compress input with Some z => Ok z | None => Err (CryptoException false) end.
Definition uncompress_str (input : bytes) : result exn bytes :=
  match zlib_uncompress input with Some s => Ok s | None => Err (CryptoException false) end.
End compressor.

(** ** Fragments *)

Definition frag_header_len : Z := 8 + 2.

Record Fragment : Type := MkFragment {
  id : Z; fragment_num : Z; final : bool; initialized : bool; fcontents : bytes }.
#[export] Instance Fragment_eq_dec : EqDecision Fragment.
Proof. solve_decision. Defined.

Definition Fragment_default : Fragment := MkFragment UINT64_MAX UINT16_MAX false false [].
Definition Fragment_new (s_id s_fragment_num : Z) (s_final : bool) (s_contents : bytes) : Fragment :=
  MkFragment s_id s_fragment_num s_final true s_contents.

Definition tostring (f : Fragment) : result fault bytes :=
  if negb (initialized f) then Err AssertFail
  else if negb (Z.land (fragment_num f) 0x8000 =? 0) then Err AssertFail
  else
    let combined := u16 (Z.lor (Z.shiftl (if final f then 1 else 0) 15) (fragment_num f)) in
    let ret := htobe64 (id f) ++ htobe16 combined in
    if negb (lenZ ret =? frag_header_len) then Err AssertFail
    else Ok (ret ++ fcontents f).

Definition Fragment_of_string (x : bytes) : result fault Fragment :=
  if lenZ x <? frag_header_len then Err AssertFail
  else
    let n := be16toh (take 2 (drop 8 x)) in
    Ok (MkFragment (be64toh (take 8 x)) (Z.land n 0x7FFF) (negb (Z.shiftr (Z.land n 0x8000) 15 =? 0))
          true (drop 10 x)).

(** ** Reassembly *)

Record FragmentAssembly : Type := MkAssembly {
  fragments : list Fragment; current_id : Z; fragments_arrived : Z; fragments_total : Z }.
#[export] Instance eta_FragmentAssembly : Eta FragmentAssembly :=
  fun a => MkAssembly (fragments a) (current_id a) (fragments_arrived a) (fragments_total a).

Definition FragmentAssembly_new : FragmentAssembly := MkAssembly [] UINT64_MAX 0 (-1).

(** [fragments.resize( n )] and [fragments.at( i ) = f]. *)
Definition resize_frags (n : Z) (a : FragmentAssembly) : FragmentAssembly :=
  a <| fragments := list.resize (Z.to_nat n) Fragment_default (fragments a) |>.
Definition put_frag (i : Z) (f : Fragment) : M FragmentAssembly unit :=
  l ← gets fragments;
  _ ← lift (at_ l i);
  modify (fun a => a <| fragments := updateZ (fragments a) i f |>).

(** The two halves of [add_fragment]: the fragment is stored, then the buffer
    is checked for completeness. *)
Definition store_fragment (frag : Fragment) : M FragmentAssembly unit :=
  a ← get;
  if negb (current_id a =? id frag) then
    modify (fun a => a <| fragments := [] |>) ;;
    modify (resize_frags (fragment_num frag + 1)) ;;
    put_frag (fragment_num frag) frag ;;
    modify (fun a => a <| fragments_arrived := 1 |> <| fragments_total := -1 |>
                       <| current_id := id frag |>)
  else
    match (if fragment_num frag <? lenZ (fragments a) then lookupZ (fragments a) (fragment_num frag)
           else None) with
    | Some f =>
        if initialized f then assert_ (bool_decide (f = frag))
        else put_frag (fragment_num frag) frag ;;
             modify (fun a => a <| fragments_arrived := fragments_arrived a + 1 |>)
    | None =>
        when_ (lenZ (fragments a) <? fragment_num frag + 1)
          (modify (resize_frags (fragment_num frag + 1))) ;;
        put_frag (fragment_num frag) frag ;;
        modify (fun a => a <| fragments_arrived := fragments_arrived a + 1 |>)
    end.

Definition note_final (frag : Fragment) : M FragmentAssembly unit :=
  when_ (final frag) (
    modify (fun a => a <| fragments_total := fragment_num frag + 1 |>) ;;
    a ← get;
    assert_ (lenZ (fragments a) <=? fragments_total a) ;;
    modify (resize_frags (fragments_total a))).

Definition add_fragment (frag : Fragment) : M FragmentAssembly bool :=
  store_fragment frag ;;
  note_final frag ;;
  a ← get;
  when_ (negb (fragments_total a =? -1)) (assert_ (fragments_arrived a <=? fragments_total a)) ;;
  mret (fragments_arrived a =? fragments_total a).

(** The loop of [get_assembly] over the first [n] fragments. *)
Fixpoint concat_fragments (n : nat) (i : Z) (l : list Fragment) : result fault bytes :=
  match n with
  | O => Ok []
  | S n' =>
      f ← at_ l i;
      if negb (initialized f) then Err AssertFail else
      rest ← concat_fragments n' (i + 1) l;
      Ok (fcontents f ++ rest)
  end.

Section assembly.
Context `{TransportCodec}.

Definition get_assembly : X FragmentAssembly Instruction :=
  a ← noexn get;
  noexn (assert_ (fragments_arrived a =? fragments_total a)) ;;
  encoded ← noexn (lift (concat_fragments (Z.to_nat (fragments_total a)) 0 (fragments a)));
  match uncompress_str encoded with
  | Err e => throw e
  | Ok s =>
      match ParseFromString s with
      | None => noexn (fail AssertFail)
      | Some ret =>
          noexn (modify (fun a => a <| fragments := [] |> <| fragments_arrived := 0 |>
                                    <| fragments_total := -1 |>)) ;;
          mret ret
      end
  end.

(** The first statements of [Transport::recv]: the datagram is a fragment, and
    a complete packet is an instruction. *)
Definition recv_fragment (s : bytes) : X FragmentAssembly (option Instruction) :=
  frag ← noexn (lift (Fragment_of_string s));
  full ← noexn (add_fragment frag);
  if (full : bool) then inst ← get_assembly; mret (Some inst) else mret None.

Fixpoint recv_fragments (l : list bytes) : X FragmentAssembly (list (option Instruction)) :=
  match l with
  | [] => mret []
  | s :: l' => r ← recv_fragment s; rs ← recv_fragments l'; mret (r :: rs)
  end.
End assembly.

(** ** The fragmenter *)

Record Fragmenter : Type := MkFragmenter {
  next_instruction_id : Z; last_instruction : Instruction; last_MTU : Z }.
#[export] Instance eta_Fragmenter : Eta Fragmenter :=
  fun f => MkFragmenter (next_instruction_id f) (last_instruction f) (last_MTU f).

Definition Fragmenter_new : Fragmenter :=
  MkFragmenter 0 (MkInstruction 0 UINT64_MAX UINT64_MAX 0 0 [] []) UINT64_MAX.

(** The loop of [make_fragments]; [None] when it does not terminate. *)
Fixpoint split_payload (fuel : nat) (MTU iid num : Z) (payload : bytes) : option (list Fragment) :=
  match payload with
  | [] => Some []
  | _ =>
      match fuel with
      | O => None
      | S fuel' =>
          if MTU <? lenZ payload
          then rest ← split_payload fuel' MTU iid (u16 (num + 1)) (drop (Z.to_nat MTU) payload);
               Some (Fragment_new iid num false (take (Z.to_nat MTU) payload) :: rest)
          else Some [Fragment_new iid num true payload]
      end
  end.

Definition last_ack_sent (f : Fragmenter) : Z := ack_num (last_instruction f).

Section fragmenter.
Context `{TransportCodec}.

Definition make_fragments (inst : Instruction) (MTU : Z) : X Fragmenter (list Fragment) :=
  let MTU := u64 (MTU - frag_header_len) in
  f ← noexn get;
  let last := last_instruction f in
  (if negb (old_num inst =? old_num last) || negb (new_num inst =? new_num last)
      || negb (ack_num inst =? ack_num last) || negb (throwaway_num inst =? throwaway_num last)
      || negb (bool_decide (chaff inst = chaff last))
      || negb (protocol_version inst =? protocol_version last) || negb (last_MTU f =? MTU)
   then noexn (modify (fun f => f <| next_instruction_id := u64 (next_instruction_id f + 1) |>))
   else mret tt) ;;
  (if (old_num inst =? old_num last) && (new_num inst =? new_num last)
   then noexn (assert_ (bool_decide (diff inst = diff last))) else mret tt) ;;
  noexn (modify (fun f => f <| last_instruction := inst |> <| last_MTU := MTU |>)) ;;
  iid ← noexn (gets next_instruction_id);
  match compress_str (SerializeAsString inst) with
  | Err e => throw e
  | Ok payload =>
      match split_payload (length payload) MTU iid 0 payload with
      | None => noexn (fail Undefined)
      | Some ret => mret ret
      end
  end.
End fragmenter.

(** ** Round trip of one fragment *)

Definition fragment_wf (f : Fragment) : Prop :=
  is_u64 (id f) /\ 0 <= fragment_num f < 2 ^ 15 /\ initialized f = true.

Lemma land_bit15 (b : bool) n :
  0 <= n < 2 ^ 15 ->
  let c := Z.lor (Z.shiftl (if b then 1 else 0) 15) n in
  c = (if b then 2 ^ 15 else 0) + n /\ Z.land c 0x7FFF = n /\
  Z.shiftr (Z.land c 0x8000) 15 = if b then 1 else 0.
Proof.
  intros Hn c. assert (Hc : c = (if b then 2 ^ 15 else 0) + n).
  { unfold c. rewrite lor_shiftl_add by lia. destruct b; lia. }
  split; [done|]. split.
  - change 0x7FFF with (Z.ones 15). rewrite Z.land_ones, Hc by lia.
    destruct b; [|by apply Z.mod_small]. symmetry. apply Z.mod_unique with 1; lia.
  - rewrite Z.shiftr_land. change (Z.shiftr 0x8000 15) with (Z.ones 1).
    rewrite Z.land_ones, Z.shiftr_div_pow2, Hc by lia.
    destruct b; [|by rewrite Z.div_small].
    replace ((2 ^ 15 + n) / 2 ^ 15) with 1; [done|]. apply Z.div_unique with n; lia.
Qed.

Lemma tostring_eq f :
  fragment_wf f ->
  tostring f = Ok (htobe64 (id f) ++ htobe16 ((if final f then 2 ^ 15 else 0) + fragment_num f) ++ fcontents f).
Proof.
  intros (Hid & Hn & Hi). unfold tostring. rewrite Hi. cbn [negb].
  destruct (land_bit15 (final f) (fragment_num f) Hn) as (Hc & _ & _).
  assert (Hz : Z.land (fragment_num f) 0x8000 = 0).
  { destruct (land_bit15 false (fragment_num f) Hn) as (H0 & _ & Hs). cbv zeta in *.
    rewrite H0, Z.add_0_l in Hs. rewrite Z.shiftr_div_pow2 in Hs by lia.
    change 0x8000 with (2 ^ 15) in *. apply Z.bits_inj'. intros k Hk. rewrite Z.land_spec, Z.bits_0.
    rewrite Z.pow2_bits_eqb by lia. destruct (Z.eqb_spec 15 k) as [<-|]; [|apply andb_false_r].
    by rewrite (bits_above _ 15) by lia. }
  rewrite Hz, Hc. cbn [Z.eqb negb]. unfold u16.
  rewrite Z.mod_small by (destruct (final f); lia).
  change (lenZ (htobe64 ?a ++ htobe16 ?b) =? frag_header_len) with true.
  cbn [negb]. by rewrite <- app_assoc.
Qed.

Lemma tostring_length f w M : lenZ (fcontents f) <= M - 10 -> tostring f = Ok w -> lenZ w <= M.
Proof.
  intros Hl. unfold tostring. destruct (negb (initialized f)); [done|].
  destruct (negb (_ =? 0)); [done|]. cbv zeta.
  match goal with |- (if negb (lenZ ?r =? _) then _ else _) = _ -> _ => set (ret := r) end.
  destruct (Z.eqb_spec (lenZ ret) frag_header_len) as [E|]; [|done]. cbn [negb]. clearbody ret.
  intros Hw. assert (w = ret ++ fcontents f) as -> by congruence. rewrite lenZ_app, E. unfold frag_header_len. lia.
Qed.

Lemma Fragment_of_tostring f :
  fragment_wf f -> exists s, tostring f = Ok s /\ Fragment_of_string s = Ok f.
Proof.
  intros Hf. pose proof Hf as (Hid & Hn & Hi). eexists. split; [by apply tostring_eq|].
  unfold Fragment_of_string. rewrite (proj2 (Z.ltb_ge _ _)).
  2:{ rewrite !lenZ_app. pose proof (lenZ_nonneg (fcontents f)). unfold lenZ at 1 2, frag_header_len.
      cbn [length htobe64 htobe16]. lia. }
  change (take 8 (htobe64 ?a ++ ?b)) with (htobe64 a).
  change (take 2 (drop 8 (htobe64 ?a ++ htobe16 ?b ++ ?c))) with (htobe16 b).
  change (drop 10 (htobe64 ?a ++ htobe16 ?b ++ ?c)) with c.
  rewrite be64_roundtrip by done.
  rewrite be16_roundtrip by (unfold is_u16; destruct (final f); lia). cbv zeta.
  destruct (land_bit15 (final f) (fragment_num f) Hn) as (Hc & H1 & H2). rewrite Hc in H1, H2.
  rewrite H1, H2. destruct f as [? ? [] ini ?]; cbn in *; by subst ini.
Qed.

(** Fragments survive the wire: every fragment of a 64-bit instruction id
    and a 15-bit number prints, and what is read from its text is the same
    fragment. *)
Theorem fragment_roundtrip f :
  fragment_wf f -> exists s, tostring f = Ok s /\ Fragment_of_string s = Ok f.
Proof. apply Fragment_of_tostring. Qed.

Lemma fragment_roundtrip_witness :
  exists s, tostring (MkFragment 7 300 true true [1; 2]) = Ok s /\
    Fragment_of_string s = Ok (MkFragment 7 300 true true [1; 2]).
Proof. apply fragment_roundtrip. repeat split; cbn; lia. Defined.

(** ** What the fragmenter makes *)

(** The fragments of one instruction: consecutive numbers, one id, the last
    and only the last final, and together the payload. *)
Record fragmentation (iid : Z) (payload : bytes) (fs : list Fragment) : Prop := {
  fr_nums : forall i f, fs !! i = Some f ->
    f = Fragment_new iid (Z.of_nat i) (bool_decide (S i = length fs)) (fcontents f);
  fr_concat : mjoin (fcontents <$> fs) = payload;
  fr_nonempty : fs <> [] }.

Lemma split_payload_spec fuel MTU iid num payload :
  0 < MTU -> (length payload <= fuel)%nat -> payload <> [] ->
  0 <= num -> lenZ payload <= (2 ^ 16 - num) * MTU ->
  exists fs, split_payload fuel MTU iid num payload = Some fs /\ fs <> [] /\
    (forall i f, fs !! i = Some f ->
       f = Fragment_new iid (num + Z.of_nat i) (bool_decide (S i = length fs)) (fcontents f) /\
       lenZ (fcontents f) <= MTU) /\
    mjoin (fcontents <$> fs) = payload /\ (lenZ fs - 1) * MTU < lenZ payload.
Proof.
  intros HM. revert num payload. induction fuel as [|fuel IH]; intros num payload Hl Hne Hn0 Hn.
  { destruct payload; [done|cbn in Hl; lia]. }
  destruct payload as [|c p]; [done|]. set (payload := c :: p) in *.
  change (split_payload (S fuel) MTU iid num payload) with
    (if MTU <? lenZ payload
     then rest ← split_payload fuel MTU iid (u16 (num + 1)) (drop (Z.to_nat MTU) payload);
          Some (Fragment_new iid num false (take (Z.to_nat MTU) payload) :: rest)
     else Some [Fragment_new iid num true payload]).
  destruct (Z.ltb_spec MTU (lenZ payload)) as [Hlt|Hge].
  - assert (Hlen : (0 < length (drop (Z.to_nat MTU) payload) < length payload)%nat).
    { rewrite length_drop. unfold lenZ in Hlt. lia. }
    assert (num + 1 < 2 ^ 16) by nia.
    rewrite u16_id by (unfold is_u16; lia).
    destruct (IH (num + 1) (drop (Z.to_nat MTU) payload)) as (fs & E & Hfs & Hnums & Hcat & Hcount).
    { lia. } { by destruct (drop (Z.to_nat MTU) payload); [cbn in Hlen; lia|]. } { lia. }
    { unfold lenZ in *. rewrite length_drop. nia. }
    rewrite E. cbn [mbind option_bind]. eexists. split; [done|]. split; [done|]. split.
    + intros [|i] f Hi; cbn [lookup list_lookup] in Hi.
      * injection Hi as <-. cbn [fcontents Fragment_new length]. rewrite Z.add_0_r. split.
        -- unfold Fragment_new. f_equal. rewrite bool_decide_false; [done|]. destruct fs; [done|cbn; lia].
        -- unfold lenZ. rewrite length_take. lia.
      * destruct (Hnums i f Hi) as [Hf Hc]. split; [|done]. rewrite Hf at 1. cbn [length].
        unfold Fragment_new. f_equal; [lia|]. apply bool_decide_ext. lia.
    + split.
      * transitivity (take (Z.to_nat MTU) payload ++ mjoin (fcontents <$> fs)); [done|].
        rewrite Hcat. apply take_drop.
      * unfold lenZ in *. rewrite length_drop in Hcount. cbn [length]. nia.
  - eexists. split; [done|]. split; [done|]. split.
    + intros [|i] f Hi; cbn in Hi; [|done]. injection Hi as <-. rewrite Z.add_0_r. split; [done|].
      cbn [fcontents Fragment_new]. done.
    + split; [cbn; by rewrite app_nil_r|]. unfold payload, lenZ. cbn [length]. lia.
Qed.

(** ** Reassembly of one instruction *)

Lemma lookupZ_nat {A} (l : list A) (i : nat) : lookupZ l (Z.of_nat i) = l !! i.
Proof. unfold lookupZ. rewrite decide_True by lia. by rewrite Nat2Z.id. Qed.
Lemma updateZ_nat {A} (l : list A) (i : nat) x : updateZ l (Z.of_nat i) x = <[i:=x]> l.
Proof. unfold updateZ. rewrite decide_True by lia. by rewrite Nat2Z.id. Qed.

Lemma put_frag_eq (i : nat) f a :
  (i < length (fragments a))%nat ->
  put_frag (Z.of_nat i) f a = Ok (tt, a <| fragments := <[i:=f]> (fragments a) |>).
Proof.
  intros Hi. unfold put_frag, mbind, M_bind, gets, lift, at_, modify. rewrite lookupZ_nat.
  destruct (lookup_lt_is_Some_2 _ _ Hi) as [x ->]. by rewrite updateZ_nat.
Qed.

(** The buffer with room for the index [i]. *)
Definition room (i : nat) (l : list Fragment) : list Fragment :=
  list.resize (Nat.max (length l) (S i)) Fragment_default l.

Lemma store_fragment_new (i : nat) f a :
  current_id a <> id f -> fragment_num f = Z.of_nat i ->
  store_fragment f a = Ok (tt, MkAssembly (<[i:=f]> (room i [])) (id f) 1 (-1)).
Proof.
  intros Hid Hn. unfold store_fragment. unfold get at 1. unfold mbind at 1, M_bind at 1.
  rewrite (proj2 (Z.eqb_neq _ _) Hid). cbn [negb].
  erewrite M_bind_Ok by reflexivity. erewrite M_bind_Ok by reflexivity.
  rewrite Hn. erewrite M_bind_Ok.
  2:{ apply put_frag_eq. unfold resize_frags. cbn -[list.resize]. rewrite length_resize. lia. }
  unfold modify. do 2 f_equal. unfold resize_frags, room. cbn -[list.resize].
  replace (Z.to_nat (Z.of_nat i + 1)) with (S i) by lia. done.
Qed.

Lemma store_fragment_dup (i : nat) f a :
  current_id a = id f -> fragment_num f = Z.of_nat i -> initialized f = true ->
  fragments a !! i = Some f -> store_fragment f a = Ok (tt, a).
Proof.
  intros Hid Hn Hini Hi. unfold store_fragment, get, mbind, M_bind.
  rewrite Hid, Z.eqb_refl, Hn, lookupZ_nat, Hi. cbn [negb].
  rewrite (proj2 (Z.ltb_lt _ _)) by (apply lookup_lt_Some in Hi; unfold lenZ; lia).
  rewrite Hini, bool_decide_true by done. done.
Qed.

Lemma store_fragment_add (i : nat) f a :
  current_id a = id f -> fragment_num f = Z.of_nat i ->
  fragments a !! i = None \/ fragments a !! i = Some Fragment_default ->
  store_fragment f a =
    Ok (tt, MkAssembly (<[i:=f]> (room i (fragments a))) (id f) (fragments_arrived a + 1) (fragments_total a)).
Proof.
  intros Hid Hn Hi. unfold store_fragment. unfold get at 1. unfold mbind at 1, M_bind at 1.
  rewrite Hid, Z.eqb_refl, Hn, lookupZ_nat. cbn [negb]. destruct a as [l c ar tot]. cbn [fragments] in *.
  destruct (Nat.lt_ge_cases i (length l)) as [Hl|Hl].
  - rewrite (proj2 (Z.ltb_lt _ _)) by (unfold lenZ; lia).
    destruct Hi as [Hi%lookup_ge_None|Hi]; [lia|]. rewrite Hi. cbn [initialized Fragment_default].
    erewrite M_bind_Ok by (by apply put_frag_eq). unfold modify, room.
    rewrite Nat.max_l, resize_all by lia. cbn in *. by subst.
  - rewrite (proj2 (Z.ltb_ge _ _)) by (unfold lenZ; lia).
    rewrite (proj2 (Z.ltb_lt _ _)) by (unfold lenZ; lia). cbn [when_].
    erewrite M_bind_Ok by reflexivity.
    erewrite M_bind_Ok.
    2:{ apply put_frag_eq. unfold resize_frags. cbn -[list.resize]. rewrite length_resize. lia. }
    unfold modify, resize_frags, room. cbn -[list.resize] in *. subst.
    by replace (Z.to_nat (Z.of_nat i + 1)) with (Nat.max (length l) (S i)) by lia.
Qed.

Lemma lookup_room i l j :
  room i l !! j = l !! j \/ (l !! j = None /\ room i l !! j = Some Fragment_default).
Proof.
  unfold room. destruct (Nat.lt_ge_cases j (length l)).
  { left. apply lookup_resize; lia. }
  rewrite (lookup_ge_None_2 l j) by lia.
  destruct (Nat.lt_ge_cases j (Nat.max (length l) (S i))).
  - right. split; [done|]. apply lookup_resize_new; lia.
  - left. apply lookup_resize_old. lia.
Qed.

Section reassembly.
Context (iid : Z) (payload : bytes) (fs : list Fragment) (Hfs : fragmentation iid payload fs).
Notation n := (length fs).

(** What the buffer holds after the fragments of the indices [R] arrived. *)
Record holds (R : gset nat) (a : FragmentAssembly) : Prop := {
  h_id : current_id a = iid;
  h_in : forall j, j ∈ R -> fragments a !! j = fs !! j;
  h_out : forall j, j ∉ R -> fragments a !! j = None \/ fragments a !! j = Some Fragment_default;
  h_arrived : fragments_arrived a = Z.of_nat (size R);
  h_length : (length (fragments a) <= n)%nat;
  h_bound : forall j, j ∈ R -> (j < n)%nat }.

(** The total is known once the final fragment has arrived. *)
Definition counted (R : gset nat) (a : FragmentAssembly) : Prop :=
  if decide (Nat.pred n ∈ R) then fragments_total a = Z.of_nat n /\ length (fragments a) = n
  else fragments_total a = -1.

Lemma n_pos : (0 < n)%nat.
Proof. destruct Hfs as [_ _ Hne]. destruct fs; [done|cbn; lia]. Qed.

Lemma holds_empty a :
  current_id a = iid -> fragments a = [] -> fragments_arrived a = 0 -> holds ∅ a.
Proof.
  intros H1 H2 H3. split; rewrite ?H2, ?H3; auto; try set_solver; cbn; lia.
Qed.

Lemma size_full (R : gset nat) : (forall j, j ∈ R -> (j < n)%nat) -> (size R <= n)%nat.
Proof.
  intros HR. rewrite <- (size_set_seq (C := gset nat) 0 n).
  apply subseteq_size. intros j Hj. apply elem_of_set_seq. specialize (HR j Hj). lia.
Qed.

Lemma size_full_iff (R : gset nat) :
  (forall j, j ∈ R -> (j < n)%nat) -> size R = n <-> R = set_seq 0 n.
Proof.
  intros HR. split; [|intros ->; apply size_set_seq].
  intros Hs. apply leibniz_equiv, set_subseteq_size_equiv.
  - intros j Hj. apply elem_of_set_seq. specialize (HR j Hj). lia.
  - rewrite size_set_seq. lia.
Qed.

Lemma holds_grow R a k :
  holds R a -> (k <= n)%nat -> (length (fragments a) <= k)%nat ->
  holds R (a <| fragments := list.resize k Fragment_default (fragments a) |>).
Proof.
  intros [H1 H2 H3 H4 H5 H6] Hk Hl. split; cbn -[list.resize lookup size length]; auto.
  - intros j Hj. rewrite <- (H2 j Hj).
    destruct (lookup_lt_is_Some_2 fs j (H6 j Hj)) as [x Hx].
    rewrite <- (H2 j Hj) in Hx. apply lookup_lt_Some in Hx. apply lookup_resize; lia.
  - intros j Hj. destruct (Nat.lt_ge_cases j (length (fragments a))).
    + rewrite lookup_resize by lia. auto.
    + destruct (Nat.lt_ge_cases j k); [right; apply lookup_resize_new; lia|].
      left. apply lookup_resize_old. lia.
  - cbn. rewrite length_resize. lia.
Qed.

Lemma holds_set_total R a t : holds R a -> holds R (a <| fragments_total := t |>).
Proof. by intros []. Qed.

Lemma note_final_spec R i f a :
  fs !! i = Some f -> holds R a -> i ∈ R -> (Nat.pred n <> i -> counted R a) ->
  exists a', note_final f a = Ok (tt, a') /\ holds R a' /\ counted R a'.
Proof.
  intros Hf HR Hi Hc. pose proof n_pos as Hn. rewrite (fr_nums _ _ _ Hfs i f Hf).
  unfold note_final. cbn [final Fragment_new fragment_num]. case_bool_decide as Hlast.
  - pose proof (h_length _ _ HR) as Hl. eexists. split.
    + unfold when_, mbind, M_bind, modify, get, assert_. cbn [fragments fragments_total].
      rewrite (proj2 (Z.leb_le _ _)); [reflexivity|]. unfold lenZ. cbn -[length Z.of_nat]. lia.
    + unfold resize_frags. cbn -[list.resize Z.to_nat Z.of_nat Z.add].
      replace (Z.to_nat (Z.of_nat i + 1)) with n by lia. split.
      * by destruct (holds_grow R a n HR ltac:(lia) Hl).
      * unfold counted. rewrite decide_True by (by replace (Nat.pred n) with i by lia).
        cbn -[list.resize Z.of_nat]. rewrite length_resize. lia.
  - exists a. split; [done|]. split; [done|]. apply Hc. lia.
Qed.

(** Storing the fragment of index [i]. *)
Lemma store_fragment_spec R i f a :
  fs !! i = Some f -> holds R a -> counted R a ->
  exists a', store_fragment f a = Ok (tt, a') /\ holds ({[i]} ∪ R) a' /\
    (Nat.pred n <> i -> counted ({[i]} ∪ R) a').
Proof.
  intros Hf HR Hc. pose proof (fr_nums _ _ _ Hfs i f Hf) as Ef.
  assert (Hi : id f = iid /\ fragment_num f = Z.of_nat i /\ initialized f = true) by (by rewrite Ef).
  destruct Hi as (Hid & Hnum & Hini). pose proof (lookup_lt_Some _ _ _ Hf) as Hin.
  destruct (decide (i ∈ R)) as [Hi|Hi].
  - exists a. rewrite subseteq_union_1_L by (by apply singleton_subseteq_l). split; [|done].
    apply (store_fragment_dup i); try done; [by rewrite (h_id _ _ HR)|]. by rewrite (h_in _ _ HR).
  - eexists. split.
    { apply (store_fragment_add i); [by rewrite (h_id _ _ HR)|done|by apply (h_out _ _ HR)]. }
    assert (Hroom : (length (room i (fragments a)) = Nat.max (length (fragments a)) (S i))%nat)
      by apply length_resize.
    pose proof (h_length _ _ HR) as Hl. split; [split; cbn [fragments current_id fragments_arrived]|].
    + done.
    + intros j Hj. destruct (decide (j = i)) as [->|Hne].
      * rewrite list_lookup_insert_eq by lia. done.
      * rewrite list_lookup_insert_ne by done. assert (j ∈ R) as HjR by set_solver.
        rewrite <- (h_in _ _ HR j HjR). destruct (lookup_room i (fragments a) j) as [|[H _]]; [done|].
        rewrite (h_in _ _ HR j HjR) in H. apply lookup_ge_None in H. pose proof (h_bound _ _ HR j HjR). lia.
    + intros j Hj. rewrite list_lookup_insert_ne by set_solver.
      destruct (lookup_room i (fragments a) j) as [->|[_ ->]]; [|auto]. apply (h_out _ _ HR). set_solver.
    + rewrite (h_arrived _ _ HR), size_union by set_solver. rewrite size_singleton. lia.
    + rewrite length_insert. lia.
    + intros j [->%elem_of_singleton|Hj]%elem_of_union; [done|]. by apply (h_bound _ _ HR).
    + intros Hne. unfold counted in *. cbn [fragments fragments_total]. rewrite length_insert, Hroom.
      assert (Hin' : Nat.pred n ∈ {[i]} ∪ R <-> Nat.pred n ∈ R)
        by (rewrite elem_of_union, elem_of_singleton; tauto).
      rewrite (decide_ext _ _ _ _ Hin'). case_decide; [|done]. destruct Hc. split; [done|]. lia.
Qed.

Lemma add_fragment_spec R i f a :
  fs !! i = Some f -> holds R a -> counted R a ->
  exists a', add_fragment f a = Ok (bool_decide ({[i]} ∪ R = set_seq 0 n), a') /\
    holds ({[i]} ∪ R) a' /\ counted ({[i]} ∪ R) a'.
Proof.
  intros Hf HR Hc. destruct (store_fragment_spec R i f a Hf HR Hc) as (a1 & E1 & HR1 & Hc1).
  destruct (note_final_spec _ i f a1 Hf HR1 ltac:(set_solver) Hc1) as (a2 & E2 & HR2 & Hc2).
  exists a2. split; [|done]. unfold add_fragment. rewrite (M_bind_Ok _ _ _ _ _ E1), (M_bind_Ok _ _ _ _ _ E2).
  unfold mbind, M_bind, get. set (R' := {[i]} ∪ R) in *. rewrite (h_arrived _ _ HR2).
  pose proof (size_full R' (h_bound _ _ HR2)) as Hsz. pose proof (size_full_iff R' (h_bound _ _ HR2)) as Hiff.
  pose proof n_pos as Hn. unfold counted in Hc2. destruct (decide (Nat.pred n ∈ R')) as [Hp|Hp].
  - destruct Hc2 as [-> _]. rewrite (proj2 (Z.eqb_neq _ _)) by lia. cbn [negb when_ assert_].
    rewrite (proj2 (Z.leb_le _ _)) by lia. unfold mret, M_ret. do 2 f_equal.
    case_bool_decide as E; rewrite <- Hiff in E; [apply Z.eqb_eq|apply Z.eqb_neq]; lia.
  - rewrite Hc2. cbn [Z.eqb negb when_]. unfold mret, M_ret. do 2 f_equal.
    rewrite bool_decide_false; [by apply Z.eqb_neq; lia|].
    intros ->. apply Hp, elem_of_set_seq. lia.
Qed.

Lemma concat_fragments_spec k i :
  (k + i = n)%nat ->
  concat_fragments k (Z.of_nat i) fs = Ok (mjoin (fcontents <$> drop i fs)).
Proof.
  revert i. induction k as [|k IH]; intros i Hk.
  { by rewrite drop_ge by lia. }
  cbn [concat_fragments]. destruct (lookup_lt_is_Some_2 fs i) as [f Hf]; [lia|].
  unfold at_. rewrite lookupZ_nat, Hf. cbn [mbind result_bind].
  rewrite (fr_nums _ _ _ Hfs i f Hf) at 1. cbn [initialized Fragment_new negb].
  replace (Z.of_nat i + 1) with (Z.of_nat (S i)) by lia. rewrite IH by lia. cbn [mbind result_bind].
  by rewrite (drop_S _ _ _ Hf).
Qed.

Lemma holds_full a : holds (set_seq 0 n) a -> counted (set_seq 0 n) a ->
  fragments a = fs /\ fragments_arrived a = Z.of_nat n /\ fragments_total a = Z.of_nat n.
Proof.
  intros HR Hc. pose proof n_pos. unfold counted in Hc.
  rewrite decide_True in Hc by (apply elem_of_set_seq; lia). destruct Hc as [Ht Hl].
  split; [|split; [|done]].
  - apply list_eq. intros j. destruct (Nat.lt_ge_cases j n).
    + apply (h_in _ _ HR), elem_of_set_seq. lia.
    + by rewrite !lookup_ge_None_2 by lia.
  - by rewrite (h_arrived _ _ HR), size_set_seq.
Qed.

Lemma get_assembly_spec `{TransportCodec} s inst a :
  holds (set_seq 0 n) a -> counted (set_seq 0 n) a ->
  zlib_uncompress payload = Some s -> ParseFromString s = Some inst ->
  get_assembly a = Ok (Ok inst, MkAssembly [] iid 0 (-1)).
Proof.
  intros HR Hc Hz Hp. destruct (holds_full a HR Hc) as (Hf & Ha & Ht).
  unfold get_assembly. rewrite (X_bind_Ok _ _ a a a) by done.
  rewrite Ha, Ht, Z.eqb_refl, Nat2Z.id, Hf. rewrite (X_bind_Ok _ _ a tt a) by done.
  rewrite (X_bind_Ok _ _ a payload a).
  2:{ unfold noexn, lift. change 0 with (Z.of_nat 0). rewrite concat_fragments_spec by lia.
      by rewrite drop_0, (fr_concat _ _ _ Hfs). }
  unfold uncompress_str. rewrite Hz, Hp.
  destruct a as [? c ? ?]. by rewrite <- (h_id _ _ HR).
Qed.

(** The buffer before or during the arrival of the instruction. *)
Definition started (R : gset nat) (a : FragmentAssembly) : Prop :=
  (holds R a /\ counted R a) \/ (R = ∅ /\ current_id a <> iid).

Lemma add_fragment_started R i f a :
  fs !! i = Some f -> started R a ->
  exists a', add_fragment f a = Ok (bool_decide ({[i]} ∪ R = set_seq 0 n), a') /\
    holds ({[i]} ∪ R) a' /\ counted ({[i]} ∪ R) a'.
Proof.
  intros Hf [[HR Hc]|[-> Hid]]; [by apply add_fragment_spec|].
  pose proof (fr_nums _ _ _ Hfs i f Hf) as Ef.
  assert (Hi : id f = iid /\ fragment_num f = Z.of_nat i) by (by rewrite Ef).
  destruct Hi as [Hi1 Hi2].
  destruct (add_fragment_spec ∅ i f (MkAssembly [] iid 0 (-1)) Hf) as (a' & E & H').
  { by apply holds_empty. } { unfold counted. by rewrite decide_False by set_solver. }
  exists a'. split; [|done]. rewrite <- E. unfold add_fragment.
  rewrite (M_bind_Ok _ _ _ _ _ (store_fragment_new i f a ltac:(by rewrite Hi1) Hi2)).
  rewrite (M_bind_Ok _ _ _ _ _ (store_fragment_add i f (MkAssembly [] iid 0 (-1)) (eq_sym Hi1) Hi2
             (or_introl eq_refl))).
  by rewrite Hi1.
Qed.
End reassembly.

(** The datagrams that carry the fragments [fs]. *)
Definition datagrams (fs : list Fragment) (ws : list bytes) : Prop :=
  Forall2 (fun f w => tostring f = Ok w /\ Fragment_of_string w = Ok f) fs ws.

Section arrival.
Context `{TransportCodec} (iid : Z) (payload : bytes) (fs : list Fragment) (ws : list bytes).
Context (Hfs : fragmentation iid payload fs) (Hws : datagrams fs ws).

Lemma recv_fragments_app l1 l2 a rs1 a1 :
  recv_fragments l1 a = Ok (Ok rs1, a1) ->
  recv_fragments (l1 ++ l2) a = (recv_fragments l2 ≫= (fun rs2 => mret (rs1 ++ rs2))) a1.
Proof.
  revert a rs1. induction l1 as [|w l1 IH]; intros a rs1; cbn [recv_fragments app].
  - intros [= <- <-]. unfold mbind, X_bind. by destruct (recv_fragments l2 a) as [[[]]|].
  - unfold mbind, X_bind. destruct (recv_fragment w a) as [[[r|] a0]|]; try done.
    destruct (recv_fragments l1 a0) as [[[rs|] a0']|] eqn:E; try done. intros [= <- <-].
    rewrite (IH _ _ E). unfold mbind, X_bind. by destruct (recv_fragments l2 a0') as [[[]]|].
Qed.

Lemma datagram_lookup i w :
  ws !! i = Some w -> exists f, fs !! i = Some f /\ Fragment_of_string w = Ok f.
Proof. intros Hw. destruct (Forall2_lookup_r _ _ _ _ _ Hws Hw) as (f & Hf & _ & Hp). eauto. Qed.

Lemma datagram_unique i j w : ws !! i = Some w -> ws !! j = Some w -> i = j.
Proof.
  intros (f & Hf & Ef)%datagram_lookup (g & Hg & Eg)%datagram_lookup. rewrite Ef in Eg.
  injection Eg as <-. pose proof (fr_nums _ _ _ Hfs i f Hf) as H1.
  pose proof (fr_nums _ _ _ Hfs j f Hg) as H2. rewrite H2 in H1. injection H1. lia.
Qed.

Lemma recv_incomplete k arrivals : forall R a,
  started iid fs R a -> k ∉ R -> (k < length fs)%nat ->
  (forall w, w ∈ arrivals -> exists i, ws !! i = Some w /\ i <> k) ->
  exists R' a', recv_fragments arrivals a = Ok (Ok (replicate (length arrivals) None), a') /\
    started iid fs R' a' /\ k ∉ R' /\ R ⊆ R' /\
    (forall i w, ws !! i = Some w -> w ∈ arrivals -> i ∈ R').
Proof.
  induction arrivals as [|w arrivals IH]; intros R a Hst Hk Hkn Hin.
  { exists R, a. repeat split; auto. by intros i w _ ?%elem_of_nil. }
  destruct (Hin w) as (i & Hi & Hik); [by apply list_elem_of_here|].
  destruct (datagram_lookup i w Hi) as (f & Hf & Ef).
  destruct (add_fragment_started iid payload fs Hfs R i f a Hf Hst) as (a1 & E1 & H1).
  assert (Hk1 : k ∉ {[i]} ∪ R) by (rewrite elem_of_union, elem_of_singleton; intros [|]; auto).
  rewrite bool_decide_false in E1.
  2:{ intros Heq. apply Hk1. rewrite Heq. apply elem_of_set_seq. lia. }
  destruct (IH ({[i]} ∪ R) a1) as (R' & a' & E' & Hst' & Hk' & Hsub & Hall); auto.
  { by left. } { intros w' Hw'. apply Hin. by apply list_elem_of_further. }
  exists R', a'. split.
  { cbn [recv_fragments]. rewrite (X_bind_Ok _ _ a None a1).
    - by rewrite (X_bind_Ok _ _ _ _ _ E').
    - unfold recv_fragment. rewrite (X_bind_Ok _ _ a f a) by (unfold noexn, lift; by rewrite Ef).
      rewrite (X_bind_Ok _ _ a false a1); [done|]. unfold noexn. by rewrite E1. }
  repeat split; auto; [set_solver|].
  intros j v Hj [->|Hv]%elem_of_cons; [|by apply (Hall j v)].
  rewrite (datagram_unique j i w Hj Hi). set_solver.
Qed.

(** The last missing datagram completes the instruction. *)
Lemma recv_complete s inst arrivals x a :
  zlib_uncompress payload = Some s -> ParseFromString s = Some inst ->
  current_id a <> iid ->
  (forall w, w ∈ arrivals -> w ∈ ws) -> x ∈ ws -> x ∉ arrivals ->
  (forall w, w ∈ ws -> w = x \/ w ∈ arrivals) ->
  recv_fragments (arrivals ++ [x]) a =
    Ok (Ok (replicate (length arrivals) None ++ [Some inst]), MkAssembly [] iid 0 (-1)).
Proof.
  intros Hz Hp Hid Hin (k & Hk)%list_elem_of_lookup Hx Hall.
  destruct (datagram_lookup k x Hk) as (f & Hf & Ef). pose proof (lookup_lt_Some _ _ _ Hf) as Hkn.
  destruct (recv_incomplete k arrivals ∅ a) as (R & a1 & E1 & Hst & HkR & _ & HR); auto.
  { by right. } { set_solver. }
  { intros w Hw. destruct (proj1 (list_elem_of_lookup _ _) (Hin w Hw)) as [i Hi]. exists i.
    split; [done|]. intros ->. rewrite Hk in Hi. injection Hi as <-. done. }
  destruct (add_fragment_started iid payload fs Hfs R k f a1 Hf Hst) as (a2 & E2 & H1 & H2).
  assert (Hfull : {[k]} ∪ R = set_seq 0 (length fs)).
  { apply leibniz_equiv, set_equiv_subseteq. split; intros j Hj.
    - apply elem_of_set_seq. pose proof (h_bound _ _ _ _ H1 j Hj). lia.
    - apply elem_of_set_seq in Hj. rewrite elem_of_union, elem_of_singleton.
      destruct (lookup_lt_is_Some_2 ws j) as [w Hw].
      { rewrite <- (Forall2_length _ _ _ Hws). lia. }
      destruct (Hall w) as [->|Hw'].
      + by apply list_elem_of_lookup_2 with j.
      + left. by apply (datagram_unique j k x).
      + right. by apply (HR j w). }
  rewrite bool_decide_true in E2 by done. rewrite Hfull in H1, H2.
  rewrite (recv_fragments_app _ _ _ _ _ E1). cbn [recv_fragments].
  rewrite (X_bind_Ok _ _ a1 [Some inst] (MkAssembly [] iid 0 (-1))); [done|].
  rewrite (X_bind_Ok _ _ a1 (Some inst) (MkAssembly [] iid 0 (-1))); [done|].
  unfold recv_fragment. rewrite (X_bind_Ok _ _ a1 f a1) by (unfold noexn, lift; by rewrite Ef).
  rewrite (X_bind_Ok _ _ a1 true a2) by (unfold noexn; by rewrite E2).
  by rewrite (X_bind_Ok _ _ _ _ _ (get_assembly_spec iid payload fs Hfs s inst a2 H1 H2 Hz Hp)).
Qed.
End arrival.

(** ** End to end *)

Lemma make_fragments_inv `{TransportCodec} inst MTU f fs f' :
  is_u64 (next_instruction_id f) -> make_fragments inst MTU f = Ok (Ok fs, f') ->
  is_u64 (next_instruction_id f') /\
  exists payload, zlib_compress (SerializeAsString inst) = Some payload /\
    split_payload (length payload) (u64 (MTU - frag_header_len)) (next_instruction_id f') 0 payload = Some fs.
Proof.
  intros Hf. unfold make_fragments. intros (f0 & f0' & [= <- <-] & E)%X_bind_inv. revert E.
  intros ([] & f1 & E1 & E)%X_bind_inv. assert (Hf1 : is_u64 (next_instruction_id f1)).
  { destruct (_ || _) in E1; injection E1 as <-; [apply u64_range|done]. }
  revert E. intros ([] & f2 & E2 & E)%X_bind_inv. assert (f2 = f1) as ->.
  { destruct (_ && _) in E2; [|by injection E2]. unfold noexn, assert_ in E2.
    destruct (bool_decide _) in E2; [by injection E2|done]. }
  revert E. intros ([] & f3 & [= <-] & E)%X_bind_inv. revert E. intros (iid & f4 & [= <- <-] & E)%X_bind_inv.
  unfold compress_str in E. destruct (zlib_compress _) as [payload|]; [|done].
  destruct (split_payload _ _ _ _ _) eqn:Es; [|done]. injection E as <- <-. eauto.
Qed.

Lemma make_fragments_spec `{TransportCodecLaws} inst MTU f fs f' :
  is_u64 (next_instruction_id f) -> 138 <= MTU < 2 ^ 64 ->
  make_fragments inst MTU f = Ok (Ok fs, f') ->
  exists payload, zlib_compress (SerializeAsString inst) = Some payload /\
    is_u64 (next_instruction_id f') /\ fragmentation (next_instruction_id f') payload fs /\
    lenZ fs <= 2 ^ 15 /\ Forall (fun fr => lenZ (fcontents fr) <= MTU - 10) fs.
Proof.
  intros Hf HM E. destruct (make_fragments_inv _ _ _ _ _ Hf E) as (Hf' & payload & Hz & Hs).
  exists payload. split; [done|]. split; [done|].
  rewrite u64_id in Hs by (unfold is_u64, frag_header_len; lia).
  pose proof (zlib_bounded _ _ Hz) as Hb. unfold BUFFER_SIZE in Hb.
  destruct (split_payload_spec (length payload) (MTU - frag_header_len) (next_instruction_id f') 0 payload)
    as (fs' & E' & Hne & Hnums & Hcat & Hcount).
  { unfold frag_header_len. lia. } { done. } { by apply (zlib_nonempty _ _ Hz). } { lia. }
  { unfold frag_header_len. nia. }
  rewrite Hs in E'. injection E' as <-. split; [|split].
  - split; [|done..]. intros i fr Hi. by destruct (Hnums i fr Hi).
  - unfold frag_header_len in Hcount. nia.
  - apply Forall_lookup. intros i fr Hi. destruct (Hnums i fr Hi). unfold frag_header_len in *. lia.
Qed.

Lemma datagrams_exist iid payload fs :
  fragmentation iid payload fs -> is_u64 iid -> lenZ fs <= 2 ^ 15 -> exists ws, datagrams fs ws.
Proof.
  intros Hfr Hid Hl.
  assert (H : Forall (fun f => exists w, tostring f = Ok w /\ Fragment_of_string w = Ok f) fs).
  { apply Forall_lookup. intros i f Hi. apply Fragment_of_tostring.
    rewrite (fr_nums _ _ _ Hfr i f Hi). apply lookup_lt_Some in Hi. unfold lenZ in Hl.
    repeat split; cbn; try apply Hid; lia. }
  clear -H. induction H as [|f l (w & Hw) _ [ws IH]].
  - exists []. constructor.
  - exists (w :: ws). by constructor.
Qed.

(** C21. Fragmentation and reassembly are inverse on an unreliable network.
    When the fragmenter cuts an instruction for a path of at least 138 octets,
    every fragment prints to a datagram that fits the MTU, and a receiver whose
    buffer is in any state (of another instruction) that gets these datagrams
    in any order, with any repetitions, reports nothing until the last missing
    one arrives and then exactly the instruction that was sent. *)
Theorem reassembly `{TransportCodecLaws} inst MTU f fs f' a :
  is_u64 (next_instruction_id f) -> inst_wf inst -> 138 <= MTU < 2 ^ 64 ->
  lenZ (SerializeAsString inst) <= BUFFER_SIZE ->
  make_fragments inst MTU f = Ok (Ok fs, f') ->
  current_id a <> next_instruction_id f' ->
  exists ws, Forall2 (fun fr w => tostring fr = Ok w) fs ws /\
    Forall (fun w => lenZ w <= MTU) ws /\
    forall arrivals x,
      (forall w, w ∈ arrivals -> w ∈ ws) -> x ∈ ws -> x ∉ arrivals ->
      (forall w, w ∈ ws -> w = x \/ w ∈ arrivals) ->
      exists a', recv_fragments (arrivals ++ [x]) a =
        Ok (Ok (replicate (length arrivals) None ++ [Some inst]), a').
Proof.
  intros Hf Hi HM Hlen E Ha.
  destruct (make_fragments_spec _ _ _ _ _ Hf HM E) as (payload & Hz & Hid & Hfr & Hl & Hc).
  destruct (datagrams_exist _ _ _ Hfr Hid Hl) as [ws Hws]. exists ws. split; [|split].
  - by apply (Forall2_impl _ _ _ _ Hws); intros ? ? [].
  - apply (Forall2_Forall_r _ _ _ _ Hws). apply (Forall_impl _ _ _ Hc).
    intros fr Hfr' w [Hw _]. by apply (tostring_length fr w).
  - intros arrivals x H1 H2 H3 H4. eexists.
    apply (recv_complete _ payload fs ws Hfr Hws (SerializeAsString inst)); auto.
    + by apply zlib_inverse with (1 := Hlen).
    + by apply parse_serialize.
Qed.

(** A codec for concrete runs: an instruction is the list of its numbers, the
    length of its difference and its strings; the compressor stores. *)
#[export] Instance StoreCodec : TransportCodec := {
  SerializeAsString i :=
    [protocol_version i; old_num i; new_num i; ack_num i; throwaway_num i; lenZ (diff i)] ++ diff i ++ chaff i;
  ParseFromString s :=
    match s with
    | v :: o :: n :: a :: t :: l :: d =>
        Some (MkInstruction v o n a t (take (Z.to_nat l) d) (drop (Z.to_nat l) d))
    | _ => None
    end;
  zlib_compress s := if (0 <? lenZ s) && (lenZ s <=? BUFFER_SIZE) then Some s else None;
  zlib_uncompress s := Some s;
}.

#[export] Instance StoreCodecLaws : TransportCodecLaws.
Proof.
  split.
  - intros [v o n a t d c] _. cbn. unfold lenZ. rewrite Nat2Z.id. by rewrite take_app_length, drop_app_length.
  - intros s z. cbn. destruct (Z.ltb_spec 0 (lenZ s)) as [Hs|]; [|done].
    destruct (_ <=? _); [|done]. cbn. intros [= <-] ->. by apply Z.lt_irrefl in Hs.
  - intros s z. cbn. destruct (0 <? lenZ s), (Z.leb_spec (lenZ s) BUFFER_SIZE); cbn; try done. by intros [= <-].
  - intros s z _. cbn. destruct (_ && _); [|done]. by intros [= <-].
Qed.

Definition sample_instruction : Instruction := MkInstruction 2 0 1 0 0 (replicate 300 7) [9].

Lemma reassembly_witness :
  exists fs f', make_fragments sample_instruction 138 Fragmenter_new = Ok (Ok fs, f') /\ length fs = 3%nat /\
  exists ws, Forall2 (fun fr w => tostring fr = Ok w) fs ws /\
    Forall (fun w => lenZ w <= 138) ws /\
    forall arrivals x,
      (forall w, w ∈ arrivals -> w ∈ ws) -> x ∈ ws -> x ∉ arrivals ->
      (forall w, w ∈ ws -> w = x \/ w ∈ arrivals) ->
      exists a', recv_fragments (arrivals ++ [x]) FragmentAssembly_new =
        Ok (Ok (replicate (length arrivals) None ++ [Some sample_instruction]), a').
Proof.
  do 2 eexists. split; [vm_compute; reflexivity|]. split; [reflexivity|].
  eapply (reassembly sample_instruction 138 Fragmenter_new).
  - split; cbn; lia.
  - repeat split; cbn; lia.
  - lia.
  - by vm_compute.
  - vm_compute. reflexivity.
  - done.
Defined.
