(* ===== verification/Sync.v ===== *)
(** * Synchronised objects (mosh/src/statesync/user.{h,cc})

    The interface the transport requires of the objects it synchronises, what
    it promises to the transport, and the stream of user input as its first
    instance.  Protocol buffers (generated code) are a class with the laws the
    code relies on. *)
From S2P Require Export Prelude.

(** ** The interface of the transport *)

(** [subtract] with a prefix that is another object, [subtract_self] with the
    object itself; [init_diff] and [compare] are only used for diagnostics. *)
Class SyncState (S : Type) : Type := {
  subtract : S -> S -> result fault S;
  subtract_self : S -> S;
  diff_from : S -> S -> result fault bytes;
  apply_string : bytes -> S -> result fault S;
  state_eqb : S -> S -> bool;
  reset_input : S -> S;
}.

(** What the object promises.  [repr b s f]: the object [s] of the sender stands
    for the meaning [f] when the part [b] of it has been subtracted.
    [held b r f]: the object [r] that a receiver has built up from differences
    shows it.  [prec f g]: the meaning [g] can follow [f].  [same f g]: no
    difference and no receiver tells [f] from [g]. *)
Class SyncLaws (S : Type) `{SyncState S} : Type := {
  meaning : Type;
  prec : meaning -> meaning -> Prop;
  same : meaning -> meaning -> Prop;
  repr : meaning -> S -> meaning -> Prop;
  held : meaning -> S -> meaning -> Prop;
  prec_preorder : PreOrder prec;
  same_equivalence : Equivalence same;
  repr_subtract b s f s0 f0 :
    repr b s f -> repr b s0 f0 -> prec f0 f ->
    exists s', subtract s s0 = Ok s' /\ repr f0 s' f;
  repr_subtract_self b s f : repr b s f -> repr f (subtract_self s) f;
  repr_eqb b s f s0 f0 :
    repr b s f -> repr b s0 f0 -> prec f0 f -> state_eqb s s0 = true -> same f0 f;
  repr_diff b s f s0 f0 :
    repr b s f -> repr b s0 f0 -> prec f0 f ->
    exists d, diff_from s s0 = Ok d /\
      forall b' r, held b' r f0 ->
        exists r', (if decide (d = []) then Ok r else apply_string d r) = Ok r' /\ held b' r' f;
  held_same b r f g : same f g -> held b r f -> held b r g;
}.
#[export] Existing Instance prec_preorder.
#[export] Existing Instance same_equivalence.

(** The difference of two meanings is the same string whatever objects stand
    for them, and equal meanings have the empty difference. *)
Class DiffDetermined (S : Type) `{SyncLaws S} : Prop := {
  diff_determined b s f s0 f0 b' s' f' s0' :
    repr b s f -> repr b s0 f0 -> repr b' s' f' -> repr b' s0' f0 -> same f f' -> prec f0 f -> prec f0 f' ->
    diff_from s s0 = diff_from s' s0';
  diff_same b s f s0 : repr b s f -> repr b s0 f -> diff_from s s0 = Ok [];
}.

(** A receiver's object is as good as a sender's, so that the receiver can take
    differences of its own. *)
Class ReadBack (S : Type) `{SyncLaws S} : Prop := read_back b s f : held b s f <-> repr b s f.

(** ** User events *)

(** [UserEvent]: a keystroke octet or a resize; the fields of the other kind
    always hold the same values. *)
Inductive UserEvent : Type :=
| UserByteEvent (c : Z)
| ResizeEvent (width height : Z).
#[export] Instance UserEvent_eq_dec : EqDecision UserEvent.
Proof. solve_decision. Defined.

Definition UserStream : Type := list UserEvent.

(** ** Messages (userinput.proto) *)

Record UserInstruction : Type := MkUserInstruction {
  keystroke : option bytes; resize_ : option (Z * Z) }.

Class UserCodec : Type := {
  SerializeUserMessage : list UserInstruction -> bytes;
  ParseUserMessage : bytes -> option (list UserInstruction);
}.

Definition is_i32 (z : Z) : Prop := - 2 ^ 31 <= z < 2 ^ 31.
Definition user_instruction_wf (i : UserInstruction) : Prop :=
  match resize_ i with Some (w, h) => is_i32 w /\ is_i32 h | None => True end.

Class UserCodecLaws `{UserCodec} : Prop := {
  user_parse_serialize m :
    Forall user_instruction_wf m -> ParseUserMessage (SerializeUserMessage m) = Some m;
  user_serialize_empty : SerializeUserMessage [] = [];
}.

(** ** UserStream *)

Definition push_back (e : UserEvent) (actions : UserStream) : UserStream := actions ++ [e].

Fixpoint stream_subtract (actions prefix : UserStream) {struct prefix} : result fault UserStream :=
  match prefix with
  | [] => Ok actions
  | i :: prefix' =>
      match actions with
      | [] => Err AssertFail
      | front :: actions' =>
          if decide (i = front) then stream_subtract actions' prefix' else Err AssertFail
      end
  end.

(** The first loop of [diff_from]: the actions after the existing ones. *)
Definition skip_existing (existing actions : UserStream) : result fault UserStream :=
  stream_subtract actions existing.

(** The body of the second loop; a keystroke joins a previous keystroke. *)
Definition add_event (output : list UserInstruction) (e : UserEvent) : list UserInstruction :=
  match e with
  | UserByteEvent c =>
      match last output with
      | Some (MkUserInstruction (Some keys) r) =>
          removelast output ++ [MkUserInstruction (Some (keys ++ [c])) r]
      | _ => output ++ [MkUserInstruction (Some [c]) None]
      end
  | ResizeEvent w h => output ++ [MkUserInstruction None (Some (i32 w, i32 h))]
  end.

Section user.
Context `{UserCodec}.

Definition stream_diff_from (actions existing : UserStream) : result fault bytes :=
  rest ← skip_existing existing actions;
  Ok (SerializeUserMessage (foldl add_event [] rest)).

(** The events of one instruction; the [int32] sizes become [size_t]s. *)
Definition instruction_events (i : UserInstruction) : UserStream :=
  match keystroke i, resize_ i with
  | Some keys, _ => UserByteEvent <$> keys
  | None, Some (w, h) => [ResizeEvent (u64 w) (u64 h)]
  | None, None => []
  end.

Definition stream_apply_string (diff : bytes) (actions : UserStream) : result fault UserStream :=
  match ParseUserMessage diff with
  | None => Err AssertFail
  | Some input => Ok (actions ++ mjoin (instruction_events <$> input))
  end.

#[export] Instance UserStream_sync : SyncState UserStream := {
  subtract := stream_subtract;
  subtract_self _ := [];
  diff_from := stream_diff_from;
  apply_string := stream_apply_string;
  state_eqb x y := bool_decide (x = y);
  reset_input x := x;
}.
End user.

(** ** The stream keeps the promises *)

Lemma stream_subtract_app p s : stream_subtract (p ++ s) p = Ok s.
Proof. induction p as [|e p IH]; [done|]. cbn [stream_subtract app]. by rewrite decide_True. Qed.

Definition event_wf (e : UserEvent) : Prop :=
  match e with UserByteEvent _ => True | ResizeEvent w h => 0 <= w < 2 ^ 31 /\ 0 <= h < 2 ^ 31 end.

Definition message_events (m : list UserInstruction) : UserStream := mjoin (instruction_events <$> m).

Lemma message_events_app m1 m2 : message_events (m1 ++ m2) = message_events m1 ++ message_events m2.
Proof. unfold message_events. rewrite fmap_app. apply join_app. Qed.

Lemma add_event_spec m e :
  Forall user_instruction_wf m -> event_wf e ->
  Forall user_instruction_wf (add_event m e) /\ message_events (add_event m e) = message_events m ++ [e].
Proof.
  intros Hm He. destruct e as [c|w h]; cbn [add_event].
  - destruct (last m) as [[[keys|] r]|] eqn:El.
    + apply last_Some in El as [m' ->]. rewrite removelast_last.
      apply Forall_app in Hm as [Hm' Hl]. rewrite Forall_singleton in Hl. split.
      * apply Forall_app. split; [done|]. apply Forall_singleton; exact Hl.
      * rewrite !message_events_app, <- app_assoc. f_equal. unfold message_events. cbn.
        by rewrite fmap_app, !app_nil_r.
    + split; [|by rewrite message_events_app]. apply Forall_app. split; [done|]. by apply Forall_singleton.
    + split; [|by rewrite message_events_app]. apply Forall_app. split; [done|]. by apply Forall_singleton.
  - destruct He as [Hw Hh]. rewrite !i32_small by lia. split.
    + apply Forall_app. split; [done|]. apply Forall_singleton. split; unfold is_i32; lia.
    + rewrite message_events_app. f_equal. unfold message_events. cbn. by rewrite !u64_id by (unfold is_u64; lia).
Qed.

Lemma foldl_add_event evs m :
  Forall user_instruction_wf m -> Forall event_wf evs ->
  Forall user_instruction_wf (foldl add_event m evs) /\
  message_events (foldl add_event m evs) = message_events m ++ evs.
Proof.
  revert m. induction evs as [|e evs IH]; intros m Hm Hevs; cbn [foldl].
  { by rewrite app_nil_r. }
  apply Forall_cons in Hevs as [He Hevs]. destruct (add_event_spec m e Hm He) as [H1 H2].
  destruct (IH _ H1 Hevs) as [H3 H4]. split; [done|]. rewrite H4, H2. by rewrite <- app_assoc.
Qed.

Section user_laws.
Context `{UserCodecLaws}.

(** A receiver that applies the difference of two streams appends the events
    the existing one lacks. *)
Lemma stream_diff_apply old new_events r :
  Forall event_wf new_events ->
  exists d, stream_diff_from (old ++ new_events) old = Ok d /\
    (if decide (d = []) then Ok r else stream_apply_string d r) = Ok (r ++ new_events).
Proof.
  intros Hwf. unfold stream_diff_from, skip_existing. rewrite stream_subtract_app. cbn [mbind result_bind].
  eexists. split; [done|]. destruct (foldl_add_event new_events [] (Forall_nil_2 _) Hwf) as [H1 H2].
  case_decide as Hd.
  - assert (Hm : foldl add_event [] new_events = []).
    { pose proof (user_parse_serialize _ H1) as Hp. rewrite Hd, <- user_serialize_empty in Hp.
      rewrite user_parse_serialize in Hp by done. by injection Hp. }
    rewrite Hm in H2. cbn in H2. by rewrite <- H2, app_nil_r.
  - unfold stream_apply_string. rewrite user_parse_serialize by done.
    change (mjoin (instruction_events <$> ?m)) with (message_events m). by rewrite H2.
Qed.

#[export] Program Instance UserStream_laws : SyncLaws UserStream := {
  meaning := UserStream;
  prec := prefix;
  same := eq;
  repr b s f := f = b ++ s /\ Forall event_wf f;
  held b s f := f = b ++ s /\ Forall event_wf f;
}.
Next Obligation. intros b s f s0 f0 [-> Hf] [-> _] [k Hk]. exists k.
  rewrite <- app_assoc in Hk. apply app_inv_head in Hk as ->.
  cbn. rewrite stream_subtract_app. by rewrite app_assoc in Hf; rewrite app_assoc.
Qed.
Next Obligation. intros b s f [-> Hf]. cbn. by rewrite app_nil_r. Qed.
Next Obligation. intros b s f s' f' [-> _] [-> _] _ Heq%bool_decide_eq_true. by rewrite Heq. Qed.
Next Obligation.
  intros b s f s0 f0 [-> Hf] [-> _] [k Hk]. rewrite <- app_assoc in Hk. apply app_inv_head in Hk as ->.
  rewrite app_assoc in Hf. pose proof Hf as [_ Hk]%Forall_app.
  destruct (stream_diff_apply s0 k [] Hk) as (d & Hd & _). exists d. split; [done|].
  intros b' r [Hr _]. destruct (stream_diff_apply s0 k r Hk) as (d' & Hd' & Ha).
  rewrite Hd in Hd'. injection Hd' as <-. exists (r ++ k). split; [done|].
  split; [by rewrite !app_assoc, Hr|]. by rewrite app_assoc.
Qed.
Next Obligation. by intros b r f g <-. Qed.

#[export] Instance UserStream_determined : DiffDetermined UserStream.
Proof.
  split.
  2:{ intros b s f s0 [-> _] [Hs _]. apply app_inv_head in Hs as ->. cbn.
      unfold stream_diff_from, skip_existing. rewrite <- (app_nil_r s0) at 1.
      rewrite stream_subtract_app. cbn. by rewrite user_serialize_empty. }
  intros b s f s0 f0 b' s' f' s0' [-> _] [-> _] [Hf' _] [Hf0 _] <- [k Hk] _.
  assert (s = s0 ++ k) as ->. { rewrite <- app_assoc in Hk. by apply app_inv_head in Hk. }
  assert (s' = s0' ++ k) as ->. { rewrite app_assoc, Hf0, <- app_assoc in Hf'. by apply app_inv_head in Hf'. }
  cbn. unfold stream_diff_from, skip_existing. by rewrite !stream_subtract_app.
Qed.

#[export] Instance UserStream_read_back : ReadBack UserStream.
Proof. done. Qed.
End user_laws.

(** ** A codec for concrete runs *)

Definition encode_user (i : UserInstruction) : bytes :=
  match keystroke i with None => [0] | Some k => 1 :: lenZ k :: k end
  ++ match resize_ i with None => [0] | Some (w, h) => [1; w; h] end.

Definition decode_keys (s : bytes) : option (option bytes * bytes) :=
  match s with
  | 0 :: s' => Some (None, s')
  | 1 :: n :: s' => Some (Some (take (Z.to_nat n) s'), drop (Z.to_nat n) s')
  | _ => None
  end.
Definition decode_resize (s : bytes) : option (option (Z * Z) * bytes) :=
  match s with
  | 0 :: s' => Some (None, s')
  | 1 :: w :: h :: s' => Some (Some (w, h), s')
  | _ => None
  end.

Fixpoint decode_user (fuel : nat) (s : bytes) : option (list UserInstruction) :=
  match s, fuel with
  | [], _ => Some []
  | _, O => None
  | _, S fuel' =>
      '(k, s1) ← decode_keys s;
      '(r, s2) ← decode_resize s1;
      m ← decode_user fuel' s2;
      Some (MkUserInstruction k r :: m)
  end.

#[export] Instance StoreUserCodec : UserCodec := {
  SerializeUserMessage m := mjoin (encode_user <$> m);
  ParseUserMessage s := decode_user (length s) s;
}.

Lemma decode_encode i rest :
  exists k1, decode_keys (encode_user i ++ rest) = Some (keystroke i, k1) /\
    decode_resize k1 = Some (resize_ i, rest) /\ (0 < length (encode_user i))%nat.
Proof.
  destruct i as [[keys|] r]; unfold encode_user; cbn [keystroke resize_].
  - eexists. split_and!; [| |cbn; lia].
    + cbn. unfold lenZ. rewrite Nat2Z.id, <- !app_assoc. by rewrite take_app_length, drop_app_length.
    + by destruct r as [[w h]|].
  - eexists. split_and!; [reflexivity| |cbn; lia]. by destruct r as [[w h]|].
Qed.

Lemma decode_user_spec m : forall fuel,
  (length (mjoin (encode_user <$> m)) <= fuel)%nat -> decode_user fuel (mjoin (encode_user <$> m)) = Some m.
Proof.
  induction m as [|i m IH]; intros fuel Hf; [by destruct fuel|].
  change (mjoin (encode_user <$> i :: m)) with (encode_user i ++ mjoin (encode_user <$> m)) in *.
  destruct (decode_encode i (mjoin (encode_user <$> m))) as (k1 & E1 & E2 & Hpos).
  rewrite length_app in Hf. destruct fuel as [|fuel]; [lia|]. set (rest := mjoin _) in *.
  assert (Hne : exists c s, encode_user i ++ rest = c :: s).
  { destruct (encode_user i); [cbn in Hpos; lia|]. cbn. eauto. }
  destruct Hne as (c & s & Es). cbn [decode_user]. rewrite Es in *. rewrite E1. cbn. rewrite E2. cbn.
  unfold rest. rewrite IH by (fold rest; lia). by destruct i.
Qed.

#[export] Instance StoreUserCodecLaws : UserCodecLaws.
Proof. split; [|done]. intros m _. by apply decode_user_spec. Qed.
