(* ===== verification/Sender.v ===== *)
(** * The sender of the transport (mosh/src/network/transportsender{.h,-impl.h})

    The queue of sent states, the assumed state of the receiver, the timers and
    the acknowledgements, for any synchronised object. *)
From S2P Require Export Connection Fragment Sync.

(** ** Parameters *)

Definition SEND_INTERVAL_MIN : Z := 20.
Definition SEND_INTERVAL_MAX : Z := 250.
Definition ACK_INTERVAL : Z := 3000.
Definition ACK_DELAY : Z := 100.
Definition SHUTDOWN_RETRIES : Z := 16.
Definition ACTIVE_RETRY_TIMEOUT : Z := 10000.
Definition MOSH_PROTOCOL_VERSION : Z := 2.

(** ** State *)

(** [TimestampedState], a node of a [std::list]; iterators are the [node_id]s
    of the nodes, which stay valid until the node is erased. *)
Record TimestampedState (S : Type) : Type := MkState {
  node_id : nat; timestamp : Z; num : Z; state : S }.
Arguments MkState {S} _ _ _ _.
Arguments node_id {S} _.
Arguments timestamp {S} _.
Arguments num {S} _.
Arguments state {S} _.

(** [instructions] records what was handed to the fragmenter; [next_node] is
    the identity of the next node of the list. *)
Record TransportSender (S : Type) : Type := MkSender {
  current_state : S; sent_states : list (TimestampedState S); assumed_receiver_state : nat;
  fragmenter : Fragmenter; next_ack_time : Z; next_send_time : Z;
  shutdown_in_progress : bool; shutdown_tries : Z; shutdown_start : Z;
  sender_ack_num : Z; pending_data_ack : bool; SEND_MINDELAY : Z; sender_last_heard : Z;
  mindelay_clock : Z; next_node : nat; instructions : list Instruction }.
Arguments MkSender {S} _ _ _ _ _ _ _ _ _ _ _ _ _ _ _ _.
Arguments current_state {S} _.
Arguments sent_states {S} _.
Arguments assumed_receiver_state {S} _.
Arguments fragmenter {S} _.
Arguments next_ack_time {S} _.
Arguments next_send_time {S} _.
Arguments shutdown_in_progress {S} _.
Arguments shutdown_tries {S} _.
Arguments shutdown_start {S} _.
Arguments sender_ack_num {S} _.
Arguments pending_data_ack {S} _.
Arguments SEND_MINDELAY {S} _.
Arguments sender_last_heard {S} _.
Arguments mindelay_clock {S} _.
Arguments next_node {S} _.
Arguments instructions {S} _.
#[export] Instance eta_TransportSender S : Eta (TransportSender S) :=
  fun s => MkSender (current_state s) (sent_states s) (assumed_receiver_state s) (fragmenter s)
    (next_ack_time s) (next_send_time s) (shutdown_in_progress s) (shutdown_tries s)
    (shutdown_start s) (sender_ack_num s) (pending_data_ack s) (SEND_MINDELAY s)
    (sender_last_heard s) (mindelay_clock s) (next_node s) (instructions s).

Definition TransportSender_new {S} (now : Z) (initial_state : S) : TransportSender S :=
  MkSender initial_state [MkState 0 now 0 initial_state] 0 Fragmenter_new now now
    false 0 UINT64_MAX 0 false 8 0 UINT64_MAX 1 [].

(** The sender and the connection it points to. *)
Record Endpoint (S : Type) : Type := MkEndpoint { sender : TransportSender S; conn : Connection }.
Arguments MkEndpoint {S} _ _.
Arguments sender {S} _.
Arguments conn {S} _.
#[export] Instance eta_Endpoint S : Eta (Endpoint S) := fun e => MkEndpoint (sender e) (conn e).

(** What the outside world contributes to one call: the results of the system
    calls of each datagram sent and the random octets. *)
Record TickEnv : Type := MkTickEnv { send_env : nat -> SendEnv; prng_uint8 : Z; prng_fill : bytes }.

(** ** Operations *)

Definition send_interval (c : Connection) : Z :=
  let SEND_INTERVAL := i32 (lrint_ceil (ddiv (SRTT c) (dbl 2))) in
  if SEND_INTERVAL <? SEND_INTERVAL_MIN then SEND_INTERVAL_MIN
  else if SEND_INTERVAL_MAX <? SEND_INTERVAL then SEND_INTERVAL_MAX
  else SEND_INTERVAL.

Definition make_chaff (env : TickEnv) : bytes :=
  take (Z.to_nat (prng_uint8 env mod (16 + 1))) (prng_fill env).

Section sender.
Context {S : Type} `{SyncState S} `{AE} `{TransportCodec}.
Notation Sender := (TransportSender S).
Notation Node := (TimestampedState S).

Definition on_sender {A} (m : M Sender A) : M (Endpoint S) A :=
  zoom sender (fun s e => e <| sender := s |>) m.
Definition on_conn {A} (m : X Connection A) : X (Endpoint S) A :=
  zoom conn (fun c e => e <| conn := c |>) m.
Definition on_fragmenter {A} (m : X Fragmenter A) : X (Endpoint S) A :=
  zoom (fun e => fragmenter (sender e))
       (fun f e => e <| sender := (sender e) <| fragmenter := f |> |>) m.

(** [front()] and [back()] of the list, and the node of an iterator. *)
Definition front (l : list Node) : result fault Node :=
  match l with [] => Err Undefined | n :: _ => Ok n end.
Definition back (l : list Node) : result fault Node :=
  match last l with None => Err Undefined | Some n => Ok n end.
Definition deref (i : nat) (l : list Node) : result fault Node :=
  match list_find (fun n => node_id n = i) l with None => Err Undefined | Some (_, n) => Ok n end.

(** The loop of [update_assumed_receiver_state] from the second state on. *)
Fixpoint assume_loop (now limit : Z) (l : list Node) (assumed : nat) : result fault nat :=
  match l with
  | [] => Ok assumed
  | i :: l' =>
      if negb (timestamp i <=? now) then Err AssertFail
      else if u64 (now - timestamp i) <? limit then assume_loop now limit l' (node_id i)
      else Ok assumed
  end.

Definition update_assumed_receiver_state (now : Z) : M (Endpoint S) unit :=
  e ← get;
  match sent_states (sender e) with
  | [] => fail Undefined
  | first :: rest =>
      i ← lift (assume_loop now (u64 (timeout (conn e) + ACK_DELAY)) rest (node_id first));
      on_sender (modify (fun s => s <| assumed_receiver_state := i |>))
  end.

Definition subtract_node (known : S) (n : Node) : result fault Node :=
  s ← subtract (state n) known;
  Ok (MkState (node_id n) (timestamp n) (num n) s).
Fixpoint subtract_all (known : S) (l : list Node) : result fault (list Node) :=
  match l with
  | [] => Ok []
  | n :: l' => n' ← subtract_node known n; l'' ← subtract_all known l'; Ok (n' :: l'')
  end.

(** The prefix is the front state itself, so the last step of the loop (over
    the reversed list) subtracts it from itself. *)
Definition rationalize_list (l : list Node) : result fault (list Node) :=
  match l with
  | [] => Err Undefined
  | first :: rest =>
      rest' ← subtract_all (state first) rest;
      Ok (MkState (node_id first) (timestamp first) (num first) (subtract_self (state first)) :: rest')
  end.

Definition rationalize_states : M Sender unit :=
  s ← get;
  known ← lift (front (sent_states s));
  current ← lift (subtract (current_state s) (state known));
  l ← lift (rationalize_list (sent_states s));
  modify (fun s => s <| current_state := current |> <| sent_states := l |>).

(** The rest of [calculate_timers] after the two calls. *)
Definition set_timers (now : Z) : M (Endpoint S) unit :=
  c ← gets conn;
  on_sender (modify (fun s =>
    if pending_data_ack s && (u64 (now + ACK_DELAY) <? next_ack_time s)
    then s <| next_ack_time := u64 (now + ACK_DELAY) |> else s)) ;;
  s ← gets sender;
  last_sent ← lift (back (sent_states s));
  known ← lift (front (sent_states s));
  (if negb (state_eqb (current_state s) (state last_sent)) then
     on_sender (modify (fun s =>
       if mindelay_clock s =? UINT64_MAX then s <| mindelay_clock := now |> else s)) ;;
     on_sender (modify (fun s => s <| next_send_time :=
       Z.max (u64 (mindelay_clock s + SEND_MINDELAY s)) (u64 (timestamp last_sent + send_interval c)) |>))
   else
     assumed ← lift (deref (assumed_receiver_state s) (sent_states s));
     if negb (state_eqb (current_state s) (state assumed))
        && (now <? u64 (sender_last_heard s + ACTIVE_RETRY_TIMEOUT)) then
       on_sender (modify (fun s => s <| next_send_time := u64 (timestamp last_sent + send_interval c) |>)) ;;
       on_sender (modify (fun s =>
         if mindelay_clock s =? UINT64_MAX then s
         else s <| next_send_time :=
                Z.max (next_send_time s) (u64 (mindelay_clock s + SEND_MINDELAY s)) |>))
     else if negb (state_eqb (current_state s) (state known))
             && (now <? u64 (sender_last_heard s + ACTIVE_RETRY_TIMEOUT)) then
       on_sender (modify (fun s => s <| next_send_time :=
         u64 (u64 (timestamp last_sent + timeout c) + ACK_DELAY) |>))
     else on_sender (modify (fun s => s <| next_send_time := UINT64_MAX |>))) ;;
  on_sender (modify (fun s =>
    if shutdown_in_progress s || (sender_ack_num s =? UINT64_MAX)
    then s <| next_ack_time := u64 (timestamp last_sent + send_interval c) |> else s)).

Definition calculate_timers (now : Z) : M (Endpoint S) unit :=
  update_assumed_receiver_state now ;;
  on_sender rationalize_states ;;
  set_timers now.

(** [wait_time]: the [uint64_t] difference becomes an [int]. *)
Definition wait_time (now : Z) : M (Endpoint S) Z :=
  calculate_timers now ;;
  e ← get;
  let s := sender e in
  let next_wakeup := if next_send_time s <? next_ack_time s then next_send_time s else next_ack_time s in
  if negb (has_remote_addr (conn e)) then mret INT_MAX
  else mret (if now <? next_wakeup then i32 (next_wakeup - now) else 0).

Definition add_sent_state (the_timestamp num : Z) (st : S) : M Sender unit :=
  modify (fun s => s <| sent_states := sent_states s ++ [MkState (next_node s) the_timestamp num st] |>
                     <| next_node := Datatypes.S (next_node s) |>) ;;
  modify (fun s =>
    let n := length (sent_states s) in
    if (32 <? n)%nat
    then s <| sent_states := delete (n - 16)%nat (sent_states s) |> else s).

(** The loop that sends the fragments; [k] counts the datagrams of the call. *)
Fixpoint send_each (now : Z) (env : TickEnv) (k : nat) (l : list Fragment) : X (Endpoint S) unit :=
  match l with
  | [] => mret tt
  | f :: l' =>
      w ← noexn (lift (tostring f));
      on_conn (send now (send_env env k) w) ;;
      send_each now env (Datatypes.S k) l'
  end.

Definition send_in_fragments (now : Z) (env : TickEnv) (diff : bytes) (new_num : Z) : X (Endpoint S) unit :=
  e ← noexn get;
  let s := sender e in
  assumed ← noexn (lift (deref (assumed_receiver_state s) (sent_states s)));
  known ← noexn (lift (front (sent_states s)));
  let inst := MkInstruction MOSH_PROTOCOL_VERSION (num assumed) new_num (sender_ack_num s) (num known)
                diff (make_chaff env) in
  noexn (on_sender (modify (fun s =>
    if new_num =? UINT64_MAX then s <| shutdown_tries := shutdown_tries s + 1 |> else s))) ;;
  noexn (on_sender (modify (fun s => s <| instructions := instructions s ++ [inst] |>))) ;;
  fragments ← on_fragmenter
    (make_fragments inst (u64 (MTU (conn e) - connection_ADDED_BYTES - session_ADDED_BYTES)));
  send_each now env 0 fragments ;;
  noexn (on_sender (modify (fun s => s <| pending_data_ack := false |>))).

Definition send_empty_ack (now : Z) (env : TickEnv) : X (Endpoint S) unit :=
  s ← noexn (gets sender);
  noexn (assert_ (next_ack_time s <=? now)) ;;
  last_sent ← noexn (lift (back (sent_states s)));
  let new_num := if shutdown_in_progress s then UINT64_MAX else u64 (num last_sent + 1) in
  noexn (on_sender (add_sent_state now new_num (current_state s))) ;;
  send_in_fragments now env [] new_num ;;
  noexn (on_sender (modify (fun s => s <| next_ack_time := u64 (now + ACK_INTERVAL) |>
                                       <| next_send_time := UINT64_MAX |>))).

Definition set_back_timestamp (now : Z) (l : list Node) : list Node :=
  match last l with
  | None => l
  | Some n => removelast l ++ [MkState (node_id n) now (num n) (state n)]
  end.

Definition send_to_receiver (now : Z) (env : TickEnv) (diff : bytes) : X (Endpoint S) unit :=
  s ← noexn (gets sender);
  last_sent ← noexn (lift (back (sent_states s)));
  let new_num := if state_eqb (current_state s) (state last_sent) then num last_sent
                 else u64 (num last_sent + 1) in
  let new_num := if shutdown_in_progress s then UINT64_MAX else new_num in
  (if new_num =? num last_sent
   then noexn (on_sender (modify (fun s => s <| sent_states := set_back_timestamp now (sent_states s) |>)))
   else noexn (on_sender (add_sent_state now new_num (current_state s)))) ;;
  send_in_fragments now env diff new_num ;;
  s ← noexn (gets sender);
  last_sent ← noexn (lift (back (sent_states s)));
  noexn (on_sender (modify (fun s => s <| assumed_receiver_state := node_id last_sent |>
                                       <| next_ack_time := u64 (now + ACK_INTERVAL) |>
                                       <| next_send_time := UINT64_MAX |>))).

Definition attempt_prospective_resend_optimization (proposed_diff : bytes) : M Sender bytes :=
  s ← get;
  known ← lift (front (sent_states s));
  if bool_decide (assumed_receiver_state s = node_id known) then mret proposed_diff else
  resend_diff ← lift (diff_from (current_state s) (state known));
  if (lenZ resend_diff <=? lenZ proposed_diff)
     || ((lenZ resend_diff <? 1000) && (u64 (lenZ resend_diff - lenZ proposed_diff) <? 100)) then
    modify (fun s => s <| assumed_receiver_state := node_id known |>) ;;
    mret resend_diff
  else mret proposed_diff.

Definition tick (now : Z) (env : TickEnv) : X (Endpoint S) unit :=
  noexn (calculate_timers now) ;;
  e ← noexn get;
  if negb (has_remote_addr (conn e)) then mret tt else
  let s := sender e in
  if (now <? next_ack_time s) && (now <? next_send_time s) then mret tt else
  assumed ← noexn (lift (deref (assumed_receiver_state s) (sent_states s)));
  diff ← noexn (lift (diff_from (current_state s) (state assumed)));
  diff ← noexn (on_sender (attempt_prospective_resend_optimization diff));
  if bool_decide (diff = []) then
    (if next_ack_time s <=? now
     then send_empty_ack now env ;;
          noexn (on_sender (modify (fun s => s <| mindelay_clock := UINT64_MAX |>)))
     else mret tt) ;;
    noexn (on_sender (modify (fun s =>
      if next_send_time s <=? now
      then s <| next_send_time := UINT64_MAX |> <| mindelay_clock := UINT64_MAX |> else s)))
  else if (next_send_time s <=? now) || (next_ack_time s <=? now) then
    send_to_receiver now env diff ;;
    noexn (on_sender (modify (fun s => s <| mindelay_clock := UINT64_MAX |>)))
  else mret tt.

(** Acknowledgements, and the methods of the class body. *)
Definition process_acknowledgment_through (ack_num : Z) : M Sender unit :=
  modify (fun s =>
    if existsb (fun n => num n =? ack_num) (sent_states s)
    then s <| sent_states := filter (fun n => ack_num <= num n) (sent_states s) |> else s) ;;
  s ← get;
  assert_ (negb (bool_decide (sent_states s = []))).

Definition shutdown_ack_timed_out (now : Z) (s : Sender) : bool :=
  shutdown_in_progress s
  && ((SHUTDOWN_RETRIES <=? shutdown_tries s)
      || (ACTIVE_RETRY_TIMEOUT <=? u64 (now - shutdown_start s))).

Definition set_ack_num (s_ack_num : Z) (s : Sender) : Sender := s <| sender_ack_num := s_ack_num |>.
Definition set_data_ack (s : Sender) : Sender := s <| pending_data_ack := true |>.
Definition remote_heard (ts : Z) (s : Sender) : Sender := s <| sender_last_heard := ts |>.
Definition start_shutdown (now : Z) (s : Sender) : Sender :=
  if shutdown_in_progress s then s
  else s <| shutdown_start := now |> <| shutdown_in_progress := true |>.
Definition get_current_state (s : Sender) : result fault S :=
  if shutdown_in_progress s then Err AssertFail else Ok (current_state s).
Definition set_current_state (x : S) : M Sender unit :=
  s ← get;
  assert_ (negb (shutdown_in_progress s)) ;;
  modify (fun s => s <| current_state := reset_input x |>).
Definition set_send_delay (new_delay : Z) (s : Sender) : Sender := s <| SEND_MINDELAY := new_delay |>.
Definition get_shutdown_acknowledged (s : Sender) : result fault bool :=
  n ← front (sent_states s); Ok (num n =? UINT64_MAX).
Definition get_sent_state_acked_timestamp (s : Sender) : result fault Z :=
  n ← front (sent_states s); Ok (timestamp n).
Definition get_sent_state_acked (s : Sender) : result fault Z :=
  n ← front (sent_states s); Ok (num n).
Definition get_sent_state_last (s : Sender) : result fault Z :=
  n ← back (sent_states s); Ok (num n).
End sender.
