(* ===== verification/SenderSpec.v ===== *)
(** * Properties of the sender

    What the sender keeps true of its queue of states, for any synchronised
    object: numbers and timestamps ascend, the assumed receiver state is always
    a node of the queue when it is used, no assertion fails, and every
    instruction is the difference of two numbered states. *)
From stdpp Require Import sorting.
From S2P Require Export Sender.

(** ** Sorted lists *)

Lemma Forall_sublist {A} (P : A -> Prop) l k : l `sublist_of` k -> Forall P k -> Forall P l.
Proof. rewrite !Forall_forall. intros Hs Hk x Hx. apply Hk. by eapply elem_of_sublist. Qed.

(** Sublists of sorted lists are sorted. *)
Lemma StronglySorted_sublist {A} (R : relation A) l k :
  l `sublist_of` k -> StronglySorted R k -> StronglySorted R l.
Proof.
  intros Hs. induction Hs as [|x l k Hs IH|x l k Hs IH]; intros Hk; [constructor| |].
  - apply StronglySorted_cons in Hk as [Hx Hk]. apply StronglySorted_cons.
    split; [by eapply Forall_sublist|auto].
  - apply StronglySorted_cons in Hk as [_ Hk]. auto.
Qed.

Lemma StronglySorted_snoc {A} (R : relation A) l x :
  StronglySorted R l -> Forall (fun y => R y x) l -> StronglySorted R (l ++ [x]).
Proof.
  intros Hl Hx. apply StronglySorted_app_2; auto.
  - intros y z Hy ->%list_elem_of_singleton. rewrite Forall_forall in Hx. auto.
  - repeat constructor.
Qed.

Lemma StronglySorted_last {A} (R : relation A) l x :
  StronglySorted R (l ++ [x]) -> StronglySorted R l /\ Forall (fun y => R y x) l.
Proof.
  intros H. split.
  - eapply StronglySorted_app_1_l, H.
  - apply Forall_forall. intros y Hy.
    eapply StronglySorted_app_1_elem_of; [exact H|done|by apply list_elem_of_singleton].
Qed.

(** ** Sending datagrams *)

(** A bound socket, an address to hop to, and one of the MTUs [set_MTU] and
    [send] choose. *)
Definition conn_ok (c : Connection) : Prop :=
  socks c <> [] /\ (server c = false -> remote_addr c <> []) /\ 166 <= MTU c <= 1300.

Definition conn_key (c : Connection) := (socks c, server c, remote_addr c, MTU c).

Lemma conn_ok_key c c' : conn_key c' = conn_key c -> conn_ok c -> conn_ok c'.
Proof. unfold conn_key, conn_ok. by intros [= -> -> -> ->]. Qed.

Lemma prune_ok now c : conn_ok c -> conn_ok (prune_sockets now c).
Proof.
  assert (Hd : forall (l : list Z) k, l <> [] -> (0 < k)%nat -> drop (length l - k) l <> []).
  { intros l k Hl Hk E. apply (f_equal length) in E. rewrite length_drop in E. destruct l; [done|]. cbn in E. lia. }
  intros (H1 & H2 & H3). unfold prune_sockets, conn_ok.
  assert (H10 : (0 < Z.to_nat MAX_PORTS_OPEN)%nat) by (unfold MAX_PORTS_OPEN; lia).
  repeat case_match; cbn; auto using Nat.lt_0_1.
Qed.

Section sending.
Context `{AE}.

(** Changes that leave the sockets, the address and the MTU alone. *)
Definition keeps_key {A} (m : X Connection A) (phi : A -> Prop) : Prop :=
  forall c, exists r c', m c = Ok (r, c') /\ conn_key c' = conn_key c /\
    match r with Ok a => phi a | Err _ => True end.

Lemma keeps_xtriple {A} (m : X Connection A) phi c :
  keeps_key m phi -> conn_ok c ->
  xtriple (fun c' => conn_key c' = conn_key c) m (fun a c' => conn_key c' = conn_key c /\ phi a) conn_ok.
Proof.
  intros Hm Hc c1 H1. destruct (Hm c1) as ([a|e] & c2 & E & Hk & Hp).
  - exists (Ok a), c2. rewrite Hk. auto.
  - exists (Err e), c2. split; [done|]. apply (conn_ok_key c); [by rewrite Hk|done].
Qed.

Lemma new_packet_keeps now w : lenZ w <= 1300 -> keeps_key (new_packet now w) (fun p => lenZ (payload p) <= 1300).
Proof.
  intros Hw c. unfold new_packet, mbind, X_bind, noexn, get, modify, on_counter, zoom, unique.
  destruct (_ <? 1000); cbn -[u64 lenZ]; destruct (u64 (counter c + 1) =? 0); eexists _, _; by split_and!.
Qed.

Lemma encrypt_keeps p : lenZ (payload p) <= 1300 -> keeps_key (on_session (encrypt (toMessage p))) (fun _ => True).
Proof.
  intros Hp c. assert (Hl : lenZ (text (toMessage p)) <= 1304).
  { unfold toMessage. cbn [text]. rewrite !lenZ_app. unfold lenZ at 1 2. cbn [length htobe16]. lia. }
  unfold on_session, zoom, encrypt, mbind, X_bind, noexn, assert_, gets, modify, throw.
  rewrite !(proj2 (Z.leb_le _ RECEIVE_MTU)) by (unfold RECEIVE_MTU; lia). cbn -[lenZ u64 Z.land Z.shiftr].
  destruct (negb _); [by eexists _, _|]. destruct (_ =? 0); cbn -[lenZ u64 Z.land Z.shiftr];
    destruct (negb _); by eexists _, _.
Qed.

Lemma hop_port_safe now sock c :
  conn_ok c -> server c = false ->
  exists r c', hop_port now sock c = Ok (r, c') /\ conn_ok c'.
Proof.
  intros Hc Hs. unfold hop_port, mbind, X_bind, noexn, get, modify, assert_, throw. rewrite Hs. cbn [negb].
  assert (Ha : (lenZ (remote_addr c) =? 0) = false).
  { apply Z.eqb_neq. destruct Hc as (_ & Hr & _). specialize (Hr Hs). destruct (remote_addr c); [done|].
    unfold lenZ. cbn. lia. }
  rewrite Ha. cbn [negb mret M_ret]. destruct sock as [fd|err]; eexists _, _; split; try reflexivity.
  - apply prune_ok. destruct Hc as (H1 & H2 & H3). split; [cbn; by destruct (socks c)|by split].
  - by apply (conn_ok_key c).
Qed.

Lemma send_safe now env w : lenZ w <= 1300 -> xtriple conn_ok (send now env w) (fun _ => conn_ok) conn_ok.
Proof.
  intros Hw. unfold send. apply xtriple_get. intros c Hc.
  destruct (negb (has_remote_addr c)); [apply xtriple_ret; by intros ? ->|].
  apply xtriple_bind with (R := fun p c' => conn_key c' = conn_key c /\ lenZ (payload p) <= 1300).
  { eapply xtriple_conseq; [by apply (keeps_xtriple _ _ c (new_packet_keeps now w Hw))|..]; auto.
    by intros ? ->. }
  intros p. apply xtriple_bind with (R := fun _ c' => conn_key c' = conn_key c).
  { intros c' [Hk Hp]. revert c' Hk. eapply xtriple_conseq;
      [by apply (keeps_xtriple _ _ c (encrypt_keeps p Hp))|..]; auto. by intros ? ? []. }
  intros d. apply xtriple_bind with (R := fun _ c' => conn_key c' = conn_key c).
  { apply xtriple_noexn, triple_assert. intros c' Hc'. split; [|done].
    by rewrite bool_decide_false by apply Hc. }
  intros []. apply xtriple_bind with (R := fun _ c' => conn_key c' = conn_key c).
  { apply xtriple_noexn, triple_modify. done. }
  intros []. apply xtriple_bind with (R := fun _ => conn_ok).
  { apply xtriple_noexn, triple_modify. intros c' Hc'. apply (conn_ok_key c) in Hc'; [|done].
    unfold note_sendto, conn_ok, DEFAULT_SEND_MTU in *. repeat case_match; cbn; intuition lia. }
  intros []. apply xtriple_get. intros c2 Hc2. destruct (server c2) eqn:Hs.
  - destruct (_ <? _); [|by apply xtriple_ret; intros ? ->].
    apply xtriple_noexn, triple_modify. intros ? ->. by apply (conn_ok_key c2).
  - destruct (_ && _); [|by apply xtriple_ret; intros ? ->].
    intros ? ->. destruct (hop_port_safe now (new_socket env) c2 Hc2 Hs) as (r & c' & E & Hok).
    exists r, c'. by destruct r.
Qed.
End sending.

(** ** The invariant *)

Section spec.
Context {S : Type} `{HSync : SyncState S} `{HLaws : !SyncLaws S} `{HDet : !DiffDetermined S}.
Context `{HAE : AE} `{HCodec : TransportCodec} `{!TransportCodecLaws}.
Notation Node := (TimestampedState S).

(** A node of the queue with the meaning in place of its state. *)
Record mnode : Type := MkM { m_id : nat; m_time : Z; m_num : Z; m_full : meaning }.

Definition before (p q : mnode) : Prop :=
  m_time p <= m_time q /\ m_num p <= m_num q /\ prec (m_full p) (m_full q).

Definition node_repr (b : meaning) (n : Node) (m : mnode) : Prop :=
  node_id n = m_id m /\ timestamp n = m_time m /\ num n = m_num m /\ repr b (state n) (m_full m).

(** The numbered meanings ever put in the queue. *)
Definition log : Type := list (Z * meaning).

(** A number whose state is the meaning, or cannot be told from it. *)
Definition numbered (L : log) (n : Z) (g : meaning) : Prop := exists f, (n, f) ∈ L /\ same f g.

(** An instruction carries the difference of two numbered states, whatever
    objects stand for them, takes any receiver from one to the other, and asks
    to throw away nothing it refers to. *)
Record inst_ok (L : log) (i : Instruction) : Prop := {
  io_version : protocol_version i = MOSH_PROTOCOL_VERSION;
  io_throwaway : 0 <= throwaway_num i <= old_num i;
  io_diff : exists f0 f, (old_num i, f0) ∈ L /\ (new_num i, f) ∈ L /\
    (forall b r, held b r f0 ->
       exists r', (if decide (diff i = []) then Ok r else apply_string (diff i) r) = Ok r' /\ held b r' f) /\
    forall b s g s0, same f g -> prec f0 g -> repr b s g -> repr b s0 f0 -> diff_from s s0 = Ok (diff i) }.

Record log_ok (L : log) (cur : meaning) (shut : bool) (sent : Z) : Prop := {
  lo_fun : forall n f g, (n, f) ∈ L -> (n, g) ∈ L -> f = g;
  lo_mono : forall n f m g, (n, f) ∈ L -> (m, g) ∈ L -> n <= m -> prec f g;
  lo_cur : forall n f, (n, f) ∈ L -> prec f cur;
  lo_range : forall n f, (n, f) ∈ L -> 0 <= n /\ (n <= sent \/ n = UINT64_MAX);
  lo_shut : forall f, (UINT64_MAX, f) ∈ L -> shut = true /\ f = cur }.

Record inv_at (b : meaning) (a : list mnode) (cur : meaning) (L : log) (N T : Z)
    (s : TransportSender S) : Prop := {
  i_repr : Forall2 (node_repr b) (sent_states s) a;
  i_cur : repr b (current_state s) cur;
  i_sorted : StronglySorted before a;
  i_nodes : Forall (fun m => 0 <= m_time m <= T /\ (m_id m < next_node s)%nat /\ (m_num m, m_full m) ∈ L) a;
  i_ids : NoDup (m_id <$> a);
  i_len : (0 < length a)%nat;
  i_last : forall m n f, last a = Some m -> (n, f) ∈ L -> n <= m_num m;
  i_log : log_ok L cur (shutdown_in_progress s) N;
  i_insts : Forall (inst_ok L) (instructions s);
  i_frag : is_u64 (next_instruction_id (fragmenter s));
  i_lastinst : last_instruction (fragmenter s) = last_instruction Fragmenter_new \/
               last_instruction (fragmenter s) ∈ instructions s }.

(** The fields the invariant reads. *)
Definition kernel (s : TransportSender S) :=
  (current_state s, sent_states s, fragmenter s, shutdown_in_progress s, next_node s, instructions s).

Lemma inv_kernel b a cur L N T s s' : kernel s' = kernel s -> inv_at b a cur L N T s -> inv_at b a cur L N T s'.
Proof.
  unfold kernel. intros E [H1 H2 H3 H4 H5 H6 H7 H8 H9 H10 H11].
  injection E as E1 E2 E3 E4 E5 E6. split; rewrite ?E1, ?E2, ?E3, ?E4, ?E5, ?E6; auto.
Qed.

Lemma inv_later b a cur L N T T' s : T <= T' -> inv_at b a cur L N T s -> inv_at b a cur L N T' s.
Proof.
  intros HT [H1 H2 H3 H4 H5 H6 H7 H8 H9 H10 H11]. split; auto.
  eapply Forall_impl; [exact H4|]. cbn. intros p ?. intuition lia.
Qed.

(** The iterator is at index [k]. *)
Definition assumed_at (k : nat) (s : TransportSender S) : Prop :=
  exists n, sent_states s !! k = Some n /\ assumed_receiver_state s = node_id n.

Lemma inv_ids b a cur L N T s : inv_at b a cur L N T s -> node_id <$> sent_states s = m_id <$> a.
Proof.
  intros Hi. pose proof (i_repr _ _ _ _ _ _ _ Hi) as Hr. clear Hi.
  induction Hr as [|n m l k (E & _) _ IH]; [done|]. cbn. by rewrite E, IH.
Qed.

Lemma inv_length b a cur L N T s : inv_at b a cur L N T s -> length (sent_states s) = length a.
Proof. intros Hi. apply (Forall2_length _ _ _ (i_repr _ _ _ _ _ _ _ Hi)). Qed.

Lemma deref_at l k (n : Node) :
  NoDup (node_id <$> l) -> l !! k = Some n -> deref (node_id n) l = Ok n.
Proof.
  intros Hnd Hk. unfold deref.
  rewrite (proj2 (list_find_Some (fun m => node_id m = node_id n) l k n)); [done|].
  split; [done|]. split; [done|]. intros j m Hj Hlt Heq. assert (j = k); [|lia].
  eapply (NoDup_lookup (node_id <$> l)); [done| |]; rewrite list_lookup_fmap.
  - by rewrite Hj.
  - rewrite Hk. cbn. by rewrite Heq.
Qed.

(** ** The assumed receiver state *)

Lemma assume_loop_last now limit (l : list Node) i :
  Forall (fun n => timestamp n <= now) l -> 0 <= now < 2 ^ 64 ->
  Forall (fun n => 0 <= timestamp n) l ->
  (forall n, n ∈ l -> now - timestamp n < limit) ->
  assume_loop now limit l i = Ok (match last l with Some n => node_id n | None => i end).
Proof.
  intros Hle Hnow H0. revert i. induction l as [|n l IH]; intros i Hlim; [done|].
  apply Forall_cons in Hle as [Hn Hle]. apply Forall_cons in H0 as [Hn0 H0].
  cbn [assume_loop]. rewrite (proj2 (Z.leb_le _ _)) by done. cbn [negb].
  rewrite u64_id by (unfold is_u64; lia).
  rewrite (proj2 (Z.ltb_lt _ _)) by (apply Hlim; apply list_elem_of_here).
  rewrite IH; [|done..|]. 2:{ intros m Hm. apply Hlim. by apply list_elem_of_further. }
  destruct l as [|m l]; [done|]. cbn. by destruct (last (m :: l)) eqn:E; [|by apply last_None in E].
Qed.

(** Timestamps ascend, so the states recent enough are all but the first, or
    none: the assumed state is the first or the last. *)
Lemma assume_loop_spec now limit (l : list Node) i :
  Forall (fun n => 0 <= timestamp n <= now) l -> 0 <= now < 2 ^ 64 ->
  StronglySorted (fun n m => timestamp n <= timestamp m) l ->
  assume_loop now limit l i = Ok i \/
  exists n, last l = Some n /\ assume_loop now limit l i = Ok (node_id n).
Proof.
  intros Hl Hnow Hs. destruct l as [|n l]; [by left|].
  pose proof Hl as [Hn Hl']%Forall_cons. apply StronglySorted_cons in Hs as [Hn' Hs].
  destruct (Z.ltb_spec (now - timestamp n) limit) as [Hlt|Hge].
  - right. rewrite assume_loop_last; cycle 1.
    { eapply Forall_impl; [exact Hl|]. cbn. lia. } { done. }
    { eapply Forall_impl; [exact Hl|]. cbn. lia. }
    { intros m [->|Hm]%elem_of_cons; [done|]. rewrite Forall_forall in Hn'. specialize (Hn' m Hm). lia. }
    destruct (last (n :: l)) as [m|] eqn:E; [eauto|]. by apply last_None in E.
  - left. cbn [assume_loop]. rewrite (proj2 (Z.leb_le _ _)) by lia. cbn [negb].
    rewrite u64_id by (unfold is_u64; lia). by rewrite (proj2 (Z.ltb_ge _ _)) by lia.
Qed.

(** ** Rationalization *)

Lemma subtract_all_spec b known f0 l a :
  repr b known f0 -> Forall2 (node_repr b) l a -> Forall (fun m => prec f0 (m_full m)) a ->
  exists l', subtract_all known l = Ok l' /\ Forall2 (node_repr f0) l' a.
Proof.
  intros Hk Hl. induction Hl as [|n m l a (E1 & E2 & E3 & Hr) Hl IH]; intros Ha; cbn [subtract_all].
  { by exists []. }
  apply Forall_cons in Ha as [Hm Ha]. destruct (repr_subtract _ _ _ _ _ Hr Hk Hm) as (s' & Es & Hs').
  destruct (IH Ha) as (l' & El & Hl'). unfold subtract_node. rewrite Es. cbn. rewrite El. cbn.
  eexists. split; [done|]. by constructor.
Qed.

Lemma rationalize_spec b a cur L N T s :
  inv_at b a cur L N T s ->
  exists f0 c l, rationalize_states s = Ok (tt, s <| current_state := c |> <| sent_states := l |>) /\
    inv_at f0 a cur L N T (s <| current_state := c |> <| sent_states := l |>).
Proof.
  intros Hi. pose proof Hi as [H1 H2 H3 H4 H5 H6 H7 H8 H9 H10 H11].
  destruct (sent_states s) as [|n l] eqn:El; destruct a as [|m a]; try by inversion H1.
  { cbn in H6. lia. }
  apply Forall2_cons in H1 as [(E1 & E2 & E3 & Hr) H1].
  pose proof H3 as [Hb Hs]%StronglySorted_cons. pose proof H4 as [(_ & _ & Hlog) _]%Forall_cons.
  destruct (subtract_all_spec b (state n) (m_full m) l a Hr H1) as (l' & Es & Hl').
  { eapply Forall_impl; [exact Hb|]. by intros x (_ & _ & ?). }
  destruct (repr_subtract _ _ _ _ _ H2 Hr) as (c & Ec & Hc).
  { by apply (lo_cur _ _ _ _ H8) with (m_num m). }
  exists (m_full m), c. eexists. unfold rationalize_states, mbind, M_bind, get, lift.
  rewrite El. cbn [front]. rewrite Ec. cbn [rationalize_list]. rewrite Es. cbn [mbind result_bind].
  split; [reflexivity|]. split; auto.
  constructor; [|done]. split_and!; auto. by apply repr_subtract_self with b.
Qed.

(** ** The timers *)

(** Nothing but the timers differs. *)
Definition frame (e0 e : Endpoint S) : Prop :=
  kernel (sender e) = kernel (sender e0) /\
  assumed_receiver_state (sender e) = assumed_receiver_state (sender e0) /\
  conn e = conn e0 /\ sender_ack_num (sender e) = sender_ack_num (sender e0).

Lemma frame_modify e0 (f : TransportSender S -> TransportSender S) :
  (forall s, kernel (f s) = kernel s /\ assumed_receiver_state (f s) = assumed_receiver_state s /\
             sender_ack_num (f s) = sender_ack_num s) ->
  preserves (frame e0) (on_sender (modify f)).
Proof.
  intros Hf e (H1 & H2 & H3 & H4). eexists _, _. split; [reflexivity|].
  destruct (Hf (sender e)) as (E1 & E2 & E3). unfold frame. cbn. by rewrite E1, E2, E3.
Qed.

Lemma assumed_at_frame k e0 e : frame e0 e -> assumed_at k (sender e0) -> assumed_at k (sender e).
Proof.
  intros (H1 & H2 & _) (n & Hn & Ha). exists n. unfold kernel in H1. injection H1 as _ E _ _ _ _.
  by rewrite E, H2.
Qed.

Lemma nodes_times b (l : list Node) a now :
  Forall2 (node_repr b) l a -> Forall (fun m => 0 <= m_time m <= now) a -> StronglySorted before a ->
  Forall (fun n => 0 <= timestamp n <= now) l /\
  StronglySorted (fun n m : Node => timestamp n <= timestamp m) l.
Proof.
  intros Hr. induction Hr as [|x y l a (_ & E & _) Hr IH]; intros Hn Hs; [split; constructor|].
  apply Forall_cons in Hn as [Hy Hn]. apply StronglySorted_cons in Hs as [Hb Hs].
  destruct (IH Hn Hs) as [IH1 IH2]. split; [constructor; [by rewrite E|done]|].
  apply StronglySorted_cons. split; [|done]. rewrite E. clear -Hr Hb.
  induction Hr as [|x' y' l a (_ & E' & _) Hr IH]; [constructor|].
  apply Forall_cons in Hb as [(Ht & _) Hb]. constructor; [by rewrite E'|auto].
Qed.

Lemma update_assumed_spec b a cur L N T now e :
  inv_at b a cur L N T (sender e) -> T <= now -> 0 <= now < 2 ^ 64 ->
  exists i k, update_assumed_receiver_state now e =
      Ok (tt, e <| sender := (sender e) <| assumed_receiver_state := i |> |>) /\
    assumed_at k ((sender e) <| assumed_receiver_state := i |>) /\ (k = 0 \/ k = Nat.pred (length a))%nat.
Proof.
  intros Hi HT Hnow. pose proof (i_repr _ _ _ _ _ _ _ Hi) as Hr. pose proof (i_nodes _ _ _ _ _ _ _ Hi) as Hn.
  pose proof (i_sorted _ _ _ _ _ _ _ Hi) as Hs. pose proof (inv_length _ _ _ _ _ _ _ Hi) as Hlen.
  unfold update_assumed_receiver_state. unfold mbind at 1, M_bind at 1, get at 1.
  destruct (sent_states (sender e)) as [|n l] eqn:El.
  { pose proof (i_len _ _ _ _ _ _ _ Hi). cbn in Hlen. lia. }
  assert (Hl : Forall (fun n => 0 <= timestamp n <= now) (n :: l) /\
               StronglySorted (fun n m : Node => timestamp n <= timestamp m) (n :: l)).
  { apply (nodes_times b _ a); [done| |done]. eapply Forall_impl; [exact Hn|]. cbn. lia. }
  destruct Hl as [Hl1 Hl2]. apply Forall_cons in Hl1 as [_ Hl1]. apply StronglySorted_cons in Hl2 as [_ Hl2].
  destruct (assume_loop_spec now (u64 (timeout (conn e) + ACK_DELAY)) l (node_id n) Hl1 Hnow Hl2)
    as [E|(m & Hm & E)].
  - exists (node_id n), 0%nat. unfold mbind, M_bind, lift. rewrite E. split; [done|]. split; [|by left].
    exists n. split; [|done]. cbn. by rewrite El.
  - exists (node_id m), (Nat.pred (length a)). unfold mbind, M_bind, lift. rewrite E. split; [done|]. split; [|by right].
    exists m. split; [|done]. cbn. rewrite El, <- Hlen. apply last_Some in Hm as [l' ->].
    change (n :: l' ++ [m]) with ((n :: l') ++ [m]). apply lookup_snoc_Some. right. cbn. rewrite length_app. cbn. split; [lia|done].
Qed.

Ltac frame_step := apply frame_modify; intros s'; by repeat case_match.

Lemma set_timers_frame now e0 k :
  NoDup (node_id <$> sent_states (sender e0)) -> assumed_at k (sender e0) ->
  preserves (frame e0) (set_timers now).
Proof.
  intros Hnd (n & Hn & Ha). unfold set_timers. apply triple_bind_gets with (phi := fun _ => True); [done|].
  intros c _. apply triple_seq; [frame_step|intros _].
  apply triple_bind_gets with (phi := fun s => sent_states s = sent_states (sender e0) /\
    assumed_receiver_state s = assumed_receiver_state (sender e0)).
  { intros e (H1 & H2 & _). unfold kernel in H1. by injection H1. }
  intros s [Es Eas]. rewrite Es, Eas, Ha. pose proof (deref_at _ k n Hnd Hn) as Hd.
  destruct (sent_states (sender e0)) as [|x l] eqn:El; [done|].
  apply triple_bind_lift with (phi := fun _ => True).
  { unfold back. destruct (last (x :: l)) eqn:E; [eauto|by apply last_None in E]. }
  intros last_sent _. apply triple_bind_lift with (phi := fun _ => True); [by eauto|].
  intros known _. apply triple_seq; [|intros _; frame_step].
  destruct (negb _).
  { apply triple_seq; [frame_step|intros _; frame_step]. }
  apply triple_bind_lift with (phi := fun _ => True); [by eauto|]. intros assumed _.
  destruct (_ && _); [apply triple_seq; [frame_step|intros _; frame_step]|].
  destruct (_ && _); frame_step.
Qed.

Lemma calculate_timers_spec b a cur L N T now e :
  inv_at b a cur L N T (sender e) -> T <= now -> 0 <= now < 2 ^ 64 ->
  exists e' b' k, calculate_timers now e = Ok (tt, e') /\ inv_at b' a cur L N now (sender e') /\
    conn e' = conn e /\ assumed_at k (sender e') /\ (k = 0 \/ k = Nat.pred (length a))%nat /\
    instructions (sender e') = instructions (sender e).
Proof.
  intros Hi HT Hnow. destruct (update_assumed_spec _ _ _ _ _ _ _ _ Hi HT Hnow) as (i & k & E1 & Hk & Hkk).
  unfold calculate_timers. rewrite (M_bind_Ok _ _ _ _ _ E1). clear E1.
  set (e1 := e <| sender := _ |>). assert (Hi1 : inv_at b a cur L N now (sender e1)).
  { eapply inv_kernel, inv_later; [|exact HT|exact Hi]. done. }
  destruct (rationalize_spec _ _ _ _ _ _ _ Hi1) as (f0 & c & l & E2 & Hi2).
  set (s2 := (sender e1) <| current_state := c |> <| sent_states := l |>) in *.
  assert (Hk2 : assumed_at k s2).
  { destruct Hk as (n & Hn & Ha).
    pose proof (inv_ids _ _ _ _ _ _ _ Hi) as Hid. pose proof (inv_ids _ _ _ _ _ _ _ Hi2) as Hid2.
    assert (Hid' : node_id <$> sent_states (sender e) = node_id <$> sent_states s2) by congruence.
    assert (Hx : (node_id <$> sent_states s2) !! k = Some (node_id n))
      by (rewrite <- Hid'; rewrite list_lookup_fmap; cbn in Hn; by rewrite Hn).
    rewrite list_lookup_fmap in Hx. destruct (sent_states s2 !! k) as [n'|] eqn:E; [|done].
    exists n'. split; [done|]. cbn in Hx. injection Hx as ->. done. }
  rewrite (M_bind_Ok _ _ e1 tt (e1 <| sender := s2 |>)) by (unfold on_sender, zoom; by rewrite E2).
  set (e2 := e1 <| sender := s2 |>).
  edestruct (set_timers_frame now e2 k) as ([] & e' & E & Hf).
  { change (sender e2) with s2. rewrite (inv_ids _ _ _ _ _ _ _ Hi2). apply (i_ids _ _ _ _ _ _ _ Hi2). } { exact Hk2. } { done. }
  exists e', f0, k. split; [exact E|]. pose proof Hf as (Hker & _ & Hconn & _).
  split; [by eapply inv_kernel|]. split; [done|]. split; [by eapply assumed_at_frame|]. split; [done|].
  unfold kernel in Hker. injection Hker as _ _ _ _ _ Hins. by rewrite Hins.
Qed.

(** ** Fragments *)

Lemma make_fragments_total inst M f :
  is_u64 (next_instruction_id f) -> 138 <= M < 2 ^ 64 ->
  (old_num inst = old_num (last_instruction f) -> new_num inst = new_num (last_instruction f) ->
   diff inst = diff (last_instruction f)) ->
  exists r f', make_fragments inst M f = Ok (r, f') /\ is_u64 (next_instruction_id f') /\
    last_instruction f' = inst.
Proof.
  intros Hf HM Hd. unfold make_fragments. rewrite (X_bind_Ok _ _ f f f) by done.
  match goal with |- context [if ?c then noexn (modify ?g) else mret tt] =>
    set (f1 := if c then g f else f);
    rewrite (X_bind_Ok (if c then noexn (modify g) else mret tt) _ f tt f1) by (unfold f1; by destruct c)
  end.
  assert (Hf1 : is_u64 (next_instruction_id f1)) by (unfold f1; destruct (_ || _); [apply u64_range|done]).
  clearbody f1. rewrite (X_bind_Ok _ _ f1 tt f1).
  2:{ destruct (_ && _) eqn:Ec; [|done]. apply andb_prop in Ec as [H1%Z.eqb_eq H2%Z.eqb_eq].
      by rewrite bool_decide_true by auto. }
  rewrite (X_bind_Ok _ _ f1 tt _) by reflexivity.
  rewrite (X_bind_Ok _ _ _ (next_instruction_id f1) _) by reflexivity.
  unfold compress_str. destruct (zlib_compress _) as [payload|] eqn:Hz; [|by eexists _, _].
  pose proof (zlib_bounded _ _ Hz) as Hb. unfold BUFFER_SIZE in Hb.
  rewrite u64_id by (unfold is_u64, frag_header_len; lia).
  destruct (split_payload_spec (length payload) (M - frag_header_len) (next_instruction_id f1) 0 payload)
    as (fs & E & _); [unfold frag_header_len; lia|done|by apply (zlib_nonempty _ _ Hz)|lia|
                      unfold frag_header_len; nia|].
  rewrite E. by eexists _, _.
Qed.

Lemma make_fragments_safe inst M f :
  is_u64 (next_instruction_id f) -> 138 <= M < 2 ^ 64 ->
  (old_num inst = old_num (last_instruction f) -> new_num inst = new_num (last_instruction f) ->
   diff inst = diff (last_instruction f)) ->
  exists r f', make_fragments inst M f = Ok (r, f') /\ is_u64 (next_instruction_id f') /\
    last_instruction f' = inst /\
    match r with
    | Ok fs => Forall (fun fr => fragment_wf fr /\ lenZ (fcontents fr) <= M - 10) fs
    | Err _ => True
    end.
Proof.
  intros Hf HM Hd.
  destruct (make_fragments_total inst M f Hf HM Hd) as (r & f' & E & H1 & H2).
  exists r, f'. split; [done|]. split; [done|]. split; [done|].
  destruct r as [fs|]; [|done].
  destruct (make_fragments_spec _ _ _ _ _ Hf HM E) as (payload & Hz & Hid & Hfr & Hl & Hc).
  apply Forall_lookup. intros i fr Hi. split; [|by rewrite Forall_lookup in Hc; apply (Hc i)].
  rewrite (fr_nums _ _ _ Hfr i fr Hi). apply lookup_lt_Some in Hi. unfold lenZ in Hl.
  repeat split; cbn; try apply Hid; lia.
Qed.

Lemma send_each_safe now env M fs : forall k (e : Endpoint S),
  conn_ok (conn e) -> M <= 1300 ->
  Forall (fun fr => fragment_wf fr /\ lenZ (fcontents fr) <= M - 10) fs ->
  exists r e', send_each now env k fs e = Ok (r, e') /\ sender e' = sender e /\ conn_ok (conn e').
Proof.
  induction fs as [|fr fs IH]; intros k e Hc HM Hfs; cbn [send_each].
  { by exists (Ok tt), e. }
  apply Forall_cons in Hfs as [[Hwf Hl] Hfs]. destruct (Fragment_of_tostring fr Hwf) as (w & Ew & _).
  rewrite (X_bind_Ok _ _ e w e) by (unfold noexn, lift; by rewrite Ew).
  pose proof (tostring_length fr w M Hl Ew) as Hw.
  destruct (send_safe now (send_env env k) w ltac:(lia) (conn e) Hc) as (r & c' & E & Hr).
  set (e1 := e <| conn := c' |>).
  assert (E1 : on_conn (send now (send_env env k) w) e = Ok (r, e1)) by (unfold on_conn, zoom; by rewrite E).
  destruct r as [[]|ex].
  - rewrite (X_bind_Ok _ _ _ _ _ E1). apply (IH (Datatypes.S k) e1 Hr HM Hfs).
  - rewrite (X_bind_Err _ _ _ _ _ E1). by exists (Err ex), e1.
Qed.

(** What is known of the node at an index. *)
Lemma inv_lookup b a cur L N T s k n :
  inv_at b a cur L N T s -> sent_states s !! k = Some n ->
  exists m, a !! k = Some m /\ node_repr b n m /\ 0 <= m_time m <= T /\ (m_id m < next_node s)%nat /\
    (m_num m, m_full m) ∈ L.
Proof.
  intros Hi Hn. destruct (Forall2_lookup_l _ _ _ _ _ (i_repr _ _ _ _ _ _ _ Hi) Hn) as (m & Hm & Hr).
  exists m. pose proof (i_nodes _ _ _ _ _ _ _ Hi) as Ha. rewrite Forall_lookup in Ha.
  destruct (Ha k m Hm) as (? & ? & ?). auto.
Qed.

Lemma first_before a h k m :
  StronglySorted before a -> a !! 0%nat = Some h -> a !! k = Some m -> m_num h <= m_num m.
Proof.
  intros Hs Hh Hm. destruct a as [|x a]; [done|]. injection Hh as ->. destruct k as [|k].
  - injection Hm as ->. lia.
  - apply StronglySorted_cons in Hs as [Hb _]. rewrite Forall_lookup in Hb. by destruct (Hb k m Hm) as (_ & ? & _).
Qed.

(** Retransmissions repeat the difference. *)
Lemma same_diff b a cur L N T s inst n m :
  inv_at b a cur L N T s -> n ∈ sent_states s -> node_repr b n m -> (m_num m, m_full m) ∈ L ->
  old_num inst = num n -> numbered L (new_num inst) cur -> diff_from (current_state s) (state n) = Ok (diff inst) ->
  old_num inst = old_num (last_instruction (fragmenter s)) ->
  new_num inst = new_num (last_instruction (fragmenter s)) ->
  diff inst = diff (last_instruction (fragmenter s)).
Proof.
  intros Hi Hn (_ & _ & En & Hr) Hm Ho (g & Hnew & Hg) Hd E1 E2. pose proof (i_log _ _ _ _ _ _ _ Hi) as HL.
  pose proof (i_cur _ _ _ _ _ _ _ Hi) as Hcur.
  destruct (i_lastinst _ _ _ _ _ _ _ Hi) as [Hl|Hl].
  - rewrite Hl in *. cbn [Fragmenter_new last_instruction old_num new_num diff] in *.
    rewrite E2 in Hnew. assert (m_full m = cur) as Hmc.
    { rewrite En in Ho. rewrite <- Ho, E1 in Hm. by apply (lo_shut _ _ _ _ HL). }
    rewrite (diff_same b (current_state s) cur (state n)) in Hd by (done || by rewrite <- Hmc). by injection Hd.
  - pose proof (i_insts _ _ _ _ _ _ _ Hi) as Hins. rewrite Forall_forall in Hins.
    destruct (Hins _ Hl) as [_ _ (f0 & f & Hf0 & Hf & _ & Hdd)].
    rewrite <- E2 in Hf. rewrite (lo_fun _ _ _ _ HL _ _ _ Hf Hnew) in Hdd.
    rewrite <- E1, Ho, En in Hf0. rewrite (lo_fun _ _ _ _ HL _ _ _ Hf0 Hm) in Hdd.
    rewrite (Hdd b (current_state s) cur (state n) Hg (lo_cur _ _ _ _ HL _ _ Hm) Hcur Hr) in Hd. by injection Hd.
Qed.

Lemma inv_record b a cur L N T s s' inst f' :
  inv_at b a cur L N T s -> inst_ok L inst -> is_u64 (next_instruction_id f') -> last_instruction f' = inst ->
  kernel s' = (current_state s, sent_states s, f', shutdown_in_progress s, next_node s, instructions s ++ [inst]) ->
  inv_at b a cur L N T s'.
Proof.
  unfold kernel. intros [H1 H2 H3 H4 H5 H6 H7 H8 H9 H10 H11] Hok Hu Hl E.
  injection E as E1 E2 E3 E4 E5 E6. split; rewrite ?E1, ?E2, ?E3, ?E4, ?E5, ?E6; auto.
  - apply Forall_app. split; [done|]. by apply Forall_singleton.
  - right. rewrite Hl. apply elem_of_app. right. apply list_elem_of_here.
Qed.

(** Sending an instruction records it and changes nothing of the queue. *)
Lemma send_in_fragments_spec b a cur L N T now env d new_num e k n :
  inv_at b a cur L N T (sender e) -> conn_ok (conn e) ->
  sent_states (sender e) !! k = Some n -> assumed_receiver_state (sender e) = node_id n ->
  numbered L new_num cur -> diff_from (current_state (sender e)) (state n) = Ok d ->
  exists r e', send_in_fragments now env d new_num e = Ok (r, e') /\
    inv_at b a cur L N T (sender e') /\ conn_ok (conn e') /\
    length (instructions (sender e')) = Datatypes.S (length (instructions (sender e))) /\
    sent_states (sender e') = sent_states (sender e).
Proof.
  intros Hi Hc Hn Ha Hnew Hd. unfold send_in_fragments.
  rewrite (X_bind_Ok _ _ e e e) by done. pose proof (inv_ids _ _ _ _ _ _ _ Hi) as Hids.
  assert (Hnd : NoDup (node_id <$> sent_states (sender e))).
  { rewrite Hids. apply (i_ids _ _ _ _ _ _ _ Hi). }
  rewrite Ha. rewrite (X_bind_Ok _ _ e n e) by (unfold noexn, lift; by rewrite (deref_at _ k n)).
  destruct (inv_lookup _ _ _ _ _ _ _ _ _ Hi Hn) as (m & Hm & Hnm & _ & _ & HmL).
  destruct (sent_states (sender e) !! 0%nat) as [x|] eqn:Hx.
  2:{ apply lookup_ge_None in Hx. apply lookup_lt_Some in Hn. lia. }
  rewrite (X_bind_Ok _ _ e x e) by (unfold noexn, lift, front; by destruct (sent_states (sender e)); [|injection Hx as ->]).
  set (inst := MkInstruction _ _ _ _ _ _ _).
  pose proof (i_log _ _ _ _ _ _ _ Hi) as HL.
  assert (Hok : inst_ok L inst).
  { destruct (inv_lookup _ _ _ _ _ _ _ _ _ Hi Hx) as (h & Hh & (_ & _ & Eh & _) & _ & _ & HhL).
    destruct Hnm as (E1 & E2 & E3 & Hr). split; cbn.
    - done.
    - rewrite Eh, E3. split; [apply (lo_range _ _ _ _ HL _ _ HhL)|].
      by apply (first_before a h k m (i_sorted _ _ _ _ _ _ _ Hi)).
    - destruct Hnew as (f & Hf & Hfcur). pose proof (lo_cur _ _ _ _ HL _ _ HmL) as Hp.
      pose proof (i_cur _ _ _ _ _ _ _ Hi) as Hcur. exists (m_full m), f. rewrite E3. split_and!; auto.
      + destruct (repr_diff _ _ _ _ _ Hcur Hr Hp) as (d' & Ed & Hap). rewrite Hd in Ed. injection Ed as <-.
        intros b' r Hb. destruct (Hap b' r Hb) as (r' & ? & ?). exists r'. split; [done|]. by apply held_same with cur.
      + intros b' s g s0 Hg Hpg Hs Hs0. rewrite <- Hd.
        apply (diff_determined b' s g s0 (m_full m) b _ cur); auto. by rewrite <- Hg. }
  set (g := fun s : TransportSender S => if new_num =? UINT64_MAX then _ else s).
  rewrite (X_bind_Ok _ _ e tt (e <| sender := g (sender e) |>)) by done.
  set (e1 := e <| sender := g (sender e) |>).
  set (e2 := e1 <| sender := (sender e1) <| instructions := instructions (sender e1) ++ [inst] |> |>).
  rewrite (X_bind_Ok _ _ e1 tt e2) by done.
  set (M := u64 _). assert (HM : 138 <= M <= 1272).
  { unfold M. destruct Hc as (_ & _ & Hmtu). unfold connection_ADDED_BYTES, session_ADDED_BYTES.
    rewrite u64_id by (unfold is_u64; lia). lia. }
  destruct (make_fragments_safe inst M (fragmenter (sender e))) as (r1 & f' & E1 & Hu & Hlast & Hfs).
  { apply (i_frag _ _ _ _ _ _ _ Hi). } { lia. }
  { intros H1 H2. apply (same_diff b a cur L N T (sender e) inst n m); auto.
    by apply list_elem_of_lookup_2 with k. }
  set (e3 := e2 <| sender := (sender e2) <| fragmenter := f' |> |>).
  assert (E3 : on_fragmenter (make_fragments inst M) e2 = Ok (r1, e3)).
  { assert (Ef : fragmenter (sender e2) = fragmenter (sender e)) by (cbn; unfold g; by destruct (_ =? _)).
    unfold on_fragmenter, zoom. by rewrite Ef, E1. }
  assert (Hrec : forall e', sender e' = sender e3 \/ sender e' = (sender e3) <| pending_data_ack := false |> ->
    inv_at b a cur L N T (sender e') /\
    length (instructions (sender e')) = Datatypes.S (length (instructions (sender e))) /\
    sent_states (sender e') = sent_states (sender e)).
  { intros e' He'. assert (Hker : kernel (sender e') = (current_state (sender e), sent_states (sender e), f',
      shutdown_in_progress (sender e), next_node (sender e), instructions (sender e) ++ [inst])).
    { destruct He' as [-> | ->]; unfold kernel; cbn; unfold g; by destruct (_ =? _). }
    split; [by apply (inv_record b a cur L N T (sender e) (sender e') inst f')|].
    unfold kernel in Hker. injection Hker as _ -> _ _ _ ->. rewrite length_app. cbn. split; [lia|done]. }
  destruct r1 as [fs|ex].
  2:{ rewrite (X_bind_Err _ _ _ _ _ E3). exists (Err ex), e3. destruct (Hrec e3) as (? & ? & ?); [by left|]. auto. }
  rewrite (X_bind_Ok _ _ _ _ _ E3).
  destruct (send_each_safe now env M fs 0 e3) as (r2 & e4 & E4 & Hs4 & Hc4); [done|lia|done|].
  destruct (Hrec e4) as (? & ? & ?); [by left|]. destruct r2 as [[]|ex].
  2:{ rewrite (X_bind_Err _ _ _ _ _ E4). exists (Err ex), e4. auto. }
  rewrite (X_bind_Ok _ _ _ _ _ E4). eexists _, _. split; [reflexivity|].
  destruct (Hrec (e4 <| sender := (sender e4) <| pending_data_ack := false |> |>)) as (? & ? & ?).
  { right. cbn. by rewrite Hs4. } auto.
Qed.

(** ** The queue *)

Lemma log_ok_add L cur shut N N' n :
  log_ok L cur shut N -> N <= N' < UINT64_MAX -> 0 <= n -> n <= N' \/ n = UINT64_MAX /\ shut = true ->
  (forall m f, (m, f) ∈ L -> m <= n) -> (forall f, (n, f) ∈ L -> f = cur) ->
  log_ok (L ++ [(n, cur)]) cur shut N'.
Proof.
  intros [H1 H2 H3 H4 H5] HN Hn Hr Hmax Hsame.
  assert (Hin : forall m f, (m, f) ∈ L ++ [(n, cur)] <-> (m, f) ∈ L \/ m = n /\ f = cur).
  { intros m f. rewrite elem_of_app, list_elem_of_singleton.
    split; [intros [?|[= -> ->]]|intros [?|[-> ->]]]; auto. }
  split; setoid_rewrite Hin.
  - intros m f g [Hf|[-> ->]] [Hg|[E ->]]; auto; [by apply (H1 m)|subst; auto|by rewrite (Hsame g Hg)].
  - intros m f k g [Hf|[-> ->]] [Hg|[-> ->]] Hle; eauto; [|done].
    specialize (Hmax k g Hg). assert (k = n) as -> by lia. by rewrite (Hsame g Hg).
  - intros m f [Hf|[-> ->]]; [eauto|done].
  - intros m f [Hf|[-> ->]]; [|intuition lia]. destruct (H4 m f Hf). intuition lia.
  - intros f [Hf|[Hm ->]]; [auto|]. split; [|done]. destruct Hr as [?|[? ?]]; [lia|done].
Qed.

(** A queue with some nodes other than the last removed. *)
Lemma inv_trim b a a' cur L N T s l' :
  inv_at b a cur L N T s -> a' `sublist_of` a -> last a' = last a -> Forall2 (node_repr b) l' a' ->
  inv_at b a' cur L N T (s <| sent_states := l' |>).
Proof.
  intros [H1 H2 H3 H4 H5 H6 H7 H8 H9 H10 H11] Hs Hl Hr. split; auto.
  - by eapply StronglySorted_sublist.
  - by eapply Forall_sublist.
  - eapply sublist_NoDup; [exact H5|]. by apply fmap_sublist.
  - destruct a'; [|cbn; lia]. symmetry in Hl. apply last_None in Hl. subst. cbn in H6. lia.
  - rewrite Hl. auto.
Qed.

Lemma last_snoc_delete {A} (l : list A) x i : (i < length l)%nat -> last (delete i (l ++ [x])) = Some x.
Proof.
  intros Hi. rewrite delete_take_drop. rewrite drop_app_le by lia. rewrite app_assoc. apply last_snoc.
Qed.

Lemma inst_ok_mono L L' i : L ⊆ L' -> inst_ok L i -> inst_ok L' i.
Proof. intros HL [H1 H2 (f0 & f & Hf0 & Hf & ?)]. split; [done..|]. exists f0, f. auto. Qed.

Lemma inv_snoc b a cur L N N' T now new_num s :
  inv_at b a cur L N T s -> T <= now -> N <= N' < UINT64_MAX -> 0 <= new_num ->
  new_num <= N' \/ new_num = UINT64_MAX /\ shutdown_in_progress s = true ->
  (forall m f, (m, f) ∈ L -> m <= new_num) -> (forall f, (new_num, f) ∈ L -> f = cur) ->
  inv_at b (a ++ [MkM (next_node s) now new_num cur]) cur (L ++ [(new_num, cur)]) N' now
    (s <| sent_states := sent_states s ++ [MkState (next_node s) now new_num (current_state s)] |>
       <| next_node := Datatypes.S (next_node s) |>).
Proof.
  intros Hi HT HN Hn0 Hr Hmax Hsame. pose proof Hi as [H1 H2 H3 H4 H5 H6 H7 H8 H9 H10 H11].
  assert (HLsub : L ⊆ L ++ [(new_num, cur)]) by (intros x Hx; apply elem_of_app; by left).
  assert (HLnew : (new_num, cur) ∈ L ++ [(new_num, cur)]) by (apply elem_of_app; right; apply list_elem_of_here).
  rewrite Forall_forall in H4. split; cbn; auto.
  - apply Forall2_app; [done|]. constructor; [|done]. by split_and!.
  - apply StronglySorted_snoc; [done|]. apply Forall_forall. intros y Hy. destruct (H4 y Hy) as (Ht & _ & Hl).
    split_and!; cbn; [lia|by apply (Hmax _ (m_full y))|by apply (lo_cur _ _ _ _ H8 (m_num y))].
  - apply Forall_app. split.
    + apply Forall_forall. intros y Hy. destruct (H4 y Hy) as (Ht & Hid & Hl). split_and!; [lia..|auto].
    + apply Forall_singleton. cbn. destruct a as [|y a]; [cbn in H6; lia|].
      destruct (H4 y) as (Ht & _); [apply list_elem_of_here|]. split_and!; [lia..|done].
  - rewrite fmap_app. apply NoDup_app. split; [done|]. split; [|apply NoDup_singleton].
    intros x (y & -> & Hy)%list_elem_of_fmap Hx%list_elem_of_singleton. cbn in Hx. destruct (H4 y Hy) as (_ & Hid & _). lia.
  - rewrite length_app. cbn. lia.
  - intros m n f. rewrite last_snoc. intros [= <-] [Hin|[= -> _]%list_elem_of_singleton]%elem_of_app; cbn; [eauto|lia].
  - by apply log_ok_add with N.
  - eapply Forall_impl; [exact H9|]. intros i. by apply inst_ok_mono.
Qed.

Lemma add_sent_state_spec b a cur L N N' T now new_num s :
  inv_at b a cur L N T s -> T <= now -> N <= N' < UINT64_MAX -> 0 <= new_num ->
  new_num <= N' \/ new_num = UINT64_MAX /\ shutdown_in_progress s = true ->
  (forall m f, (m, f) ∈ L -> m <= new_num) -> (forall f, (new_num, f) ∈ L -> f = cur) ->
  exists s' a', add_sent_state now new_num (current_state s) s = Ok (tt, s') /\
    inv_at b a' cur (L ++ [(new_num, cur)]) N' now s' /\
    ((length a <= 32)%nat -> (length a' <= 32)%nat) /\
    current_state s' = current_state s /\ instructions s' = instructions s /\
    shutdown_in_progress s' = shutdown_in_progress s /\
    assumed_receiver_state s' = assumed_receiver_state s /\
    (forall k n, (k = 0 \/ k = Nat.pred (length a))%nat -> sent_states s !! k = Some n ->
       exists k', sent_states s' !! k' = Some n).
Proof.
  intros Hi HT HN Hn0 Hr Hmax Hsame. pose proof Hi as [H1 H2 H3 H4 H5 H6 H7 H8 H9 H10 H11].
  set (m := MkM (next_node s) now new_num cur).
  set (s1 := s <| sent_states := sent_states s ++ [MkState (next_node s) now new_num (current_state s)] |>
               <| next_node := Datatypes.S (next_node s) |>).
  assert (Hi1 : inv_at b (a ++ [m]) cur (L ++ [(new_num, cur)]) N' now s1).
  { by apply inv_snoc with N T. }
  pose proof (inv_length _ _ _ _ _ _ _ Hi) as Hlen.
  destruct (Nat.ltb_spec 32 (length (sent_states s1))) as [Hlt|Hge].
  - set (l' := delete (length (sent_states s1) - 16)%nat (sent_states s1)).
    assert (Hl1 : length (sent_states s1) = Datatypes.S (length a)) by (cbn; rewrite length_app, Hlen; cbn; lia).
    exists (s1 <| sent_states := l' |>), (delete (length (sent_states s1) - 16)%nat (a ++ [m])). split.
    { unfold add_sent_state, mbind, M_bind, modify. fold s1. rewrite (proj2 (Nat.ltb_lt _ _)) by done. done. }
    split.
    { apply (inv_trim b (a ++ [m])); [done|apply sublist_delete| |].
      - rewrite last_snoc, last_snoc_delete; [done|lia].
      - by apply Forall2_delete, (i_repr _ _ _ _ _ _ _ Hi1). }
    split.
    { intros Ha. rewrite Hl1 in Hlt |- *. rewrite length_delete, length_app; [cbn; lia|].
      apply lookup_lt_is_Some. rewrite length_app. cbn. lia. }
    repeat (split; [done|]). intros k n Hk Hn.
    assert (Hn1 : sent_states s1 !! k = Some n) by (cbn; by apply lookup_app_l_Some).
    destruct Hk as [-> | ->].
    + exists 0%nat. change (l' !! 0%nat = Some n). unfold l'. by rewrite list_lookup_delete_lt by lia.
    + exists (Nat.pred (Nat.pred (length a))). change (l' !! Nat.pred (Nat.pred (length a)) = Some n).
      unfold l'. rewrite list_lookup_delete_ge by lia.
      by replace (Datatypes.S (Nat.pred (Nat.pred (length a)))) with (Nat.pred (length a)) by lia.
  - exists s1, (a ++ [m]). split.
    { unfold add_sent_state, mbind, M_bind, modify. fold s1. rewrite (proj2 (Nat.ltb_ge _ _)) by done. done. }
    split; [done|]. split.
    { cbn in Hge. rewrite length_app in Hge |- *. cbn in *. lia. }
    repeat (split; [done|]). intros k n _ Hn. exists k. cbn. by apply lookup_app_l_Some.
Qed.

(** ** Sending *)

(** The iterator points to the first or the last node, from whose state [d] is
    the difference. *)
Definition aimed (d : bytes) (s : TransportSender S) : Prop :=
  exists k n, sent_states s !! k = Some n /\ (k = 0 \/ k = Nat.pred (length (sent_states s)))%nat /\
    assumed_receiver_state s = node_id n /\ diff_from (current_state s) (state n) = Ok d.

(** The invariant between calls. *)
Definition sinv (cur : meaning) (L : log) (T : Z) (e : Endpoint S) : Prop :=
  exists b a, inv_at b a cur L (Z.of_nat (length (instructions (sender e)))) T (sender e) /\
    (length a <= 32)%nat /\ conn_ok (conn e).

(** ... with more numbered states and at most [K] instructions. *)
Definition sent_to (cur : meaning) (L : log) (T : Z) (K : nat) (e : Endpoint S) : Prop :=
  exists L', L ⊆ L' /\ sinv cur L' T e /\ (length (instructions (sender e)) <= K)%nat.

Lemma sinv_kernel cur L T e e' : kernel (sender e') = kernel (sender e) -> conn e' = conn e -> sinv cur L T e -> sinv cur L T e'.
Proof.
  intros Hk Hc (b & a & Hi & Ha & Hok). exists b, a. rewrite Hc.
  assert (instructions (sender e') = instructions (sender e)) as -> by (unfold kernel in Hk; by injection Hk).
  split; [by eapply inv_kernel|done].
Qed.

Lemma inv_back b a cur L N T s :
  inv_at b a cur L N T s -> exists n m, back (sent_states s) = Ok n /\ last a = Some m /\ node_repr b n m /\
    last (sent_states s) = Some n /\ (m_num m, m_full m) ∈ L.
Proof.
  intros Hi. pose proof (i_repr _ _ _ _ _ _ _ Hi) as Hr. pose proof (i_len _ _ _ _ _ _ _ Hi) as Hl.
  destruct (last a) as [m|] eqn:Em; [|apply last_None in Em; subst; cbn in Hl; lia].
  apply last_Some in Em as [a' ->]. apply Forall2_app_inv_r in Hr as (l1 & l2 & H1 & H2 & El).
  apply Forall2_cons_inv_r in H2 as (n & l3 & Hn & H2 & ->). apply Forall2_nil_inv_r in H2 as ->.
  exists n, m. unfold back. rewrite El, last_snoc. split_and!; auto.
  pose proof (i_nodes _ _ _ _ _ _ _ Hi) as Hnodes. apply Forall_app in Hnodes as [_ Hm].
  rewrite Forall_singleton in Hm. by destruct Hm as (_ & _ & ?).
Qed.

(** The next number is fresh, or it is the shutdown number of the final state. *)
Lemma next_num_ok b a cur L N T s (n : Node) m :
  inv_at b a cur L N T s -> 0 <= N < UINT64_MAX - 1 -> last a = Some m -> num n = m_num m ->
  (m_num m, m_full m) ∈ L ->
  let new_num := if shutdown_in_progress s then UINT64_MAX else u64 (num n + 1) in
  0 <= new_num /\ (new_num <= N + 1 \/ new_num = UINT64_MAX /\ shutdown_in_progress s = true) /\
  (forall k f, (k, f) ∈ L -> k <= new_num) /\ (forall f, (new_num, f) ∈ L -> f = cur) /\
  (shutdown_in_progress s = false -> new_num = m_num m + 1).
Proof.
  intros Hi HN Hm En HmL. pose proof (i_log _ _ _ _ _ _ _ Hi) as Hlog.
  destruct (lo_range _ _ _ _ Hlog _ _ HmL) as [H0 Hle].
  destruct (shutdown_in_progress s) eqn:Esd; cbv zeta.
  - split; [done|]. split; [by right|]. split; [|split; [|done]].
    + intros k f Hk. destruct (lo_range _ _ _ _ Hlog _ _ Hk) as [_ [?| ->]]; [unfold UINT64_MAX in *; lia|done].
    + intros f Hf. by apply (lo_shut _ _ _ _ Hlog).
  - assert (m_num m <= N).
    { destruct Hle as [|E]; [done|]. rewrite E in HmL. by destruct (lo_shut _ _ _ _ Hlog _ HmL). }
    rewrite En, u64_id by (unfold is_u64, UINT64_MAX in *; lia).
    split; [lia|]. split; [left; lia|].
    assert (Hmax : forall k f, (k, f) ∈ L -> k <= m_num m) by (intros k f; by apply (i_last _ _ _ _ _ _ _ Hi)).
    split; [intros k f Hk; specialize (Hmax k f Hk); lia|]. split; [|done].
    intros f Hf. specialize (Hmax _ f Hf). lia.
Qed.

Lemma send_empty_ack_spec b a cur L now env e :
  inv_at b a cur L (Z.of_nat (length (instructions (sender e)))) now (sender e) -> (length a <= 32)%nat ->
  conn_ok (conn e) -> aimed [] (sender e) -> next_ack_time (sender e) <= now ->
  Z.of_nat (length (instructions (sender e))) < UINT64_MAX - 1 ->
  exists r e', send_empty_ack now env e = Ok (r, e') /\
    sent_to cur L now (Datatypes.S (length (instructions (sender e)))) e'.
Proof.
  intros Hi Ha Hc (k & n & Hn & Hk & Has & Hd) Hack HN. unfold send_empty_ack.
  rewrite (X_bind_Ok _ _ e (sender e) e) by done.
  rewrite (X_bind_Ok _ _ e tt e) by (unfold noexn, assert_; by rewrite (proj2 (Z.leb_le _ _)) by done).
  destruct (inv_back _ _ _ _ _ _ _ Hi) as (x & m & Ex & Hm & (_ & _ & En & _) & _ & HmL).
  rewrite (X_bind_Ok _ _ e x e) by (unfold noexn, lift; by rewrite Ex).
  destruct (next_num_ok _ _ _ _ _ _ _ x m Hi ltac:(lia) Hm En HmL) as (H0 & Hr & Hmax & Hsame & _).
  set (new_num := if shutdown_in_progress (sender e) then UINT64_MAX else _) in *.
  destruct (add_sent_state_spec b a cur L _ (Z.of_nat (length (instructions (sender e))) + 1) now now new_num (sender e)
    Hi ltac:(lia) ltac:(lia) H0 Hr Hmax Hsame) as (s1 & a1 & E1 & Hi1 & Ha1 & Hcur1 & Hins1 & Hsd1 & Has1 & Hkeep).
  rewrite (inv_length _ _ _ _ _ _ _ Hi) in Hk. destruct (Hkeep k n Hk Hn) as (k1 & Hn1).
  set (e1 := e <| sender := s1 |>).
  rewrite (X_bind_Ok _ _ e tt e1) by (unfold noexn, on_sender, zoom; by rewrite E1).
  destruct (send_in_fragments_spec b a1 cur (L ++ [(new_num, cur)]) (Z.of_nat (length (instructions (sender e))) + 1)
    now now env [] new_num e1 k1 n) as (r & e2 & E2 & Hi2 & Hc2 & Hlen2 & _); auto.
  { cbn. by rewrite Has1. } { exists cur. split; [apply elem_of_app; right; apply list_elem_of_here|done]. }
  { cbn. by rewrite Hcur1. }
  assert (Hlen : length (instructions (sender e2)) = Datatypes.S (length (instructions (sender e))))
    by (rewrite Hlen2; cbn; by rewrite Hins1).
  assert (Hs2 : sinv cur (L ++ [(new_num, cur)]) now e2).
  { exists b, a1. rewrite Hlen2. cbn. rewrite Hins1.
    replace (Z.of_nat (Datatypes.S (length (instructions (sender e)))))
      with (Z.of_nat (length (instructions (sender e))) + 1) by lia. auto. }
  assert (HL : L ⊆ L ++ [(new_num, cur)]) by (intros y Hy; apply elem_of_app; by left).
  destruct r as [[]|ex].
  - rewrite (X_bind_Ok _ _ _ _ _ E2). eexists _, _. split; [reflexivity|].
    exists (L ++ [(new_num, cur)]). split; [done|]. split; [by eapply sinv_kernel; [..|exact Hs2]|]. cbn. lia.
  - rewrite (X_bind_Err _ _ _ _ _ E2). eexists _, _. split; [reflexivity|].
    exists (L ++ [(new_num, cur)]). split_and!; [done..|lia].
Qed.

(** Refreshing the timestamp of the last node. *)
Lemma refresh_spec b a cur L N T now s m :
  inv_at b a cur L N T s -> T <= now -> last a = Some m ->
  let s' := s <| sent_states := set_back_timestamp now (sent_states s) |> in
  exists a', inv_at b a' cur L N now s' /\ length a' = length a /\
    (forall k n, sent_states s !! k = Some n ->
       exists n', sent_states s' !! k = Some n' /\ node_id n' = node_id n /\ state n' = state n).
Proof.
  intros Hi HT Hm. cbv zeta. destruct (inv_back _ _ _ _ _ _ _ Hi) as (n & m' & _ & Hm' & Hnm & Hln & _).
  rewrite Hm in Hm'. injection Hm' as <-.
  pose proof (inv_later _ _ _ _ _ _ _ _ HT Hi) as [H1 H2 H3 H4 H5 H6 H7 H8 H9 H10 H11].
  apply last_Some in Hm as [a0 ->]. apply last_Some in Hln as [l0 El].
  unfold set_back_timestamp. rewrite El, last_snoc, removelast_last.
  exists (a0 ++ [MkM (m_id m) now (m_num m) (m_full m)]).
  assert (Hl0 : Forall2 (node_repr b) l0 a0).
  { rewrite El in H1. by apply Forall2_app_inv in H1 as [? _];
      [|apply Forall2_length in H1; rewrite !length_app in H1; cbn in H1; lia]. }
  apply StronglySorted_last in H3 as [Hs Hb]. apply Forall_app in H4 as [Hn0 Hm0]. rewrite Forall_singleton in Hm0.
  split; [split; cbn; auto|split; [by rewrite !length_app|]].
  - apply Forall2_app; [done|]. constructor; [|done]. destruct Hnm as (E1 & E2 & E3 & Hr). by split_and!.
  - apply StronglySorted_snoc; [done|]. rewrite Forall_forall in Hb, Hn0 |- *. intros y Hy.
    destruct (Hb y Hy) as (_ & ? & ?). destruct (Hn0 y Hy) as (? & _). split_and!; cbn; [lia|done..].
  - apply Forall_app. split; [done|]. apply Forall_singleton. cbn. intuition lia.
  - by rewrite fmap_app in H5 |- *.
  - by rewrite length_app in H6 |- *.
  - intros x k f. rewrite last_snoc. intros [= <-] Hk. cbn. apply (H7 m k f); [by rewrite last_snoc|done].
  - intros k x Hx. cbn. apply lookup_app_Some in Hx as [Hx|[Hge Hx]].
    + exists x. split; [by apply lookup_app_l_Some|done].
    + exists (MkState (node_id n) now (num n) (state n)).
      apply list_lookup_singleton_Some in Hx as [Hk <-]. split; [|done].
      rewrite lookup_app_r by lia. by rewrite Hk.
Qed.

(** The state a number stands for when it is sent again. *)
Lemma resend_num b a cur L N T s n m :
  inv_at b a cur L N T s -> 0 <= N < UINT64_MAX - 1 -> last a = Some m -> node_repr b n m ->
  (m_num m, m_full m) ∈ L ->
  let new_num := if state_eqb (current_state s) (state n) then num n else u64 (num n + 1) in
  let new_num := if shutdown_in_progress s then UINT64_MAX else new_num in
  (new_num = num n -> numbered L new_num cur) /\
  (new_num <> num n ->
   new_num = if shutdown_in_progress s then UINT64_MAX else u64 (num n + 1)).
Proof.
  intros Hi HN Hm (_ & _ & En & Hr) HmL. cbv zeta. pose proof (i_log _ _ _ _ _ _ _ Hi) as Hlog.
  destruct (shutdown_in_progress s) eqn:Esd.
  - split; [|done]. intros E. rewrite E, En in *. rewrite <- E in HmL.
    destruct (lo_shut _ _ _ _ Hlog _ HmL) as [_ Hcur]. exists (m_full m). rewrite <- E. split; [done|by rewrite Hcur].
  - destruct (state_eqb _ _) eqn:Eq.
    + split; [|done]. intros _. exists (m_full m). rewrite En. split; [done|].
      apply (repr_eqb _ _ _ _ _ (i_cur _ _ _ _ _ _ _ Hi) Hr); [by apply (lo_cur _ _ _ _ Hlog (m_num m))|done].
    + split; [|done]. pose proof (next_num_ok _ _ _ _ _ _ _ n m Hi HN Hm En HmL) as Hnext. rewrite Esd in Hnext.
      destruct Hnext as (_ & _ & _ & _ & Hplus). specialize (Hplus eq_refl). lia.
Qed.

(** The state after [send_to_receiver] put the state in the queue. *)
Lemma queue_spec b a cur L N now s n m d :
  inv_at b a cur L N now s -> (length a <= 32)%nat -> 0 <= N < UINT64_MAX - 1 ->
  last a = Some m -> node_repr b n m -> (m_num m, m_full m) ∈ L -> aimed d s ->
  let new_num := if state_eqb (current_state s) (state n) then num n else u64 (num n + 1) in
  let new_num := if shutdown_in_progress s then UINT64_MAX else new_num in
  exists s' a' L' k n', (if new_num =? num n
      then modify (fun s => s <| sent_states := set_back_timestamp now (sent_states s) |>)
      else add_sent_state now new_num (current_state s)) s = Ok (tt, s') /\
    L ⊆ L' /\ inv_at b a' cur L' (N + 1) now s' /\ (length a' <= 32)%nat /\ numbered L' new_num cur /\
    instructions s' = instructions s /\
    sent_states s' !! k = Some n' /\ assumed_receiver_state s' = node_id n' /\
    diff_from (current_state s') (state n') = Ok d.
Proof.
  intros Hi Ha HN Hm Hnm HmL (k & x & Hx & Hk & Has & Hd). cbv zeta.
  destruct (resend_num _ _ _ _ _ _ _ n m Hi HN Hm Hnm HmL) as [Hre Hnew].
  set (new_num := if shutdown_in_progress s then _ else _) in *.
  destruct (Z.eqb_spec new_num (num n)) as [E|E].
  - destruct (refresh_spec _ _ _ _ _ _ now _ _ Hi ltac:(lia) Hm) as (a' & Hi' & Hl' & Hkeep).
    destruct (Hkeep k x Hx) as (x' & Hx' & Hid & Hst).
    eexists _, a', L, k, x'. split; [reflexivity|]. split; [done|]. split.
    { destruct Hi' as [? ? ? ? ? ? ? H8 ? ? ?]. split; auto. destruct H8 as [? ? ? H8 ?]. split; auto.
      intros j f Hj. destruct (H8 j f Hj). intuition lia. }
    split; [lia|]. split; [auto|]. split; [done|]. split; [done|].
    rewrite Hid, Hst. done.
  - specialize (Hnew E). rewrite Hnew in *.
    destruct (next_num_ok _ _ _ _ _ _ _ n m Hi HN Hm ltac:(by destruct Hnm as (_ & _ & ? & _)) HmL)
      as (H0 & Hr & Hmax & Hsame & _).
    destruct (add_sent_state_spec b a cur L N (N + 1) now now _ s Hi ltac:(lia) ltac:(lia) H0 Hr Hmax Hsame)
      as (s1 & a1 & E1 & Hi1 & Ha1 & Hcur1 & Hins1 & Hsd1 & Has1 & Hkeep).
    rewrite (inv_length _ _ _ _ _ _ _ Hi) in Hk. destruct (Hkeep k x Hk Hx) as (k1 & Hn1).
    eexists s1, a1, _, k1, x. split; [exact E1|].
    split; [intros y Hy; apply elem_of_app; by left|]. split; [exact Hi1|]. split; [auto|].
    split; [exists cur; split; [apply elem_of_app; right; apply list_elem_of_here|done]|]. rewrite Has1, Hcur1. auto.
Qed.

Lemma send_to_receiver_spec b a cur L now env d e :
  inv_at b a cur L (Z.of_nat (length (instructions (sender e)))) now (sender e) -> (length a <= 32)%nat ->
  conn_ok (conn e) -> aimed d (sender e) -> Z.of_nat (length (instructions (sender e))) < UINT64_MAX - 1 ->
  exists r e', send_to_receiver now env d e = Ok (r, e') /\
    sent_to cur L now (Datatypes.S (length (instructions (sender e)))) e'.
Proof.
  intros Hi Ha Hc Haim HN. unfold send_to_receiver. rewrite (X_bind_Ok _ _ e (sender e) e) by done.
  destruct (inv_back _ _ _ _ _ _ _ Hi) as (n & m & En & Hm & Hnm & _ & HmL).
  rewrite (X_bind_Ok _ _ e n e) by (unfold noexn, lift; by rewrite En).
  destruct (queue_spec _ _ _ _ _ _ _ n m d Hi Ha ltac:(lia) Hm Hnm HmL Haim)
    as (s1 & a1 & L1 & k & x & E1 & HL1 & Hi1 & Ha1 & Hnew & Hins & Hx & Has & Hd).
  set (new_num := if shutdown_in_progress (sender e) then _ else _) in *.
  set (e1 := e <| sender := s1 |>).
  rewrite (X_bind_Ok _ _ e tt e1).
  2:{ destruct (new_num =? num n); unfold noexn, on_sender, zoom; by rewrite E1. }
  destruct (send_in_fragments_spec b a1 cur L1 (Z.of_nat (length (instructions (sender e))) + 1)
    now now env d new_num e1 k x) as (r & e2 & E2 & Hi2 & Hc2 & Hlen2 & _); auto.
  assert (Hlen : length (instructions (sender e2)) = Datatypes.S (length (instructions (sender e))))
    by (rewrite Hlen2; cbn; by rewrite Hins).
  assert (Hs2 : sinv cur L1 now e2).
  { exists b, a1. rewrite Hlen2. cbn. rewrite Hins.
    replace (Z.of_nat (Datatypes.S (length (instructions (sender e)))))
      with (Z.of_nat (length (instructions (sender e))) + 1) by lia. auto. }
  destruct r as [[]|ex].
  - rewrite (X_bind_Ok _ _ _ _ _ E2). destruct (inv_back _ _ _ _ _ _ _ Hi2) as (y & _ & Ey & _).
    rewrite (X_bind_Ok _ _ e2 (sender e2) e2) by done.
    rewrite (X_bind_Ok _ _ e2 y e2) by (unfold noexn, lift; by rewrite Ey).
    eexists _, _. split; [reflexivity|]. exists L1. split; [done|].
    split; [by eapply sinv_kernel; [..|exact Hs2]|]. cbn. lia.
  - rewrite (X_bind_Err _ _ _ _ _ E2). eexists _, _. split; [reflexivity|]. exists L1. split_and!; [done..|lia].
Qed.

Lemma attempt_spec b a cur L N T s d :
  inv_at b a cur L N T s -> aimed d s ->
  exists d' i, attempt_prospective_resend_optimization d s = Ok (d', s <| assumed_receiver_state := i |>) /\
    aimed d' (s <| assumed_receiver_state := i |>).
Proof.
  intros Hi (k & n & Hn & Hk & Has & Hd). unfold attempt_prospective_resend_optimization.
  unfold mbind, M_bind, get, lift. destruct (sent_states s) as [|x l] eqn:El; [done|]. cbn [front].
  assert (Hsame : aimed d (s <| assumed_receiver_state := assumed_receiver_state s |>)).
  { exists k, n. cbn. rewrite El. auto. }
  assert (Heta : s <| assumed_receiver_state := assumed_receiver_state s |> = s) by (by destruct s).
  case_bool_decide.
  { exists d, (assumed_receiver_state s). by rewrite Heta in *. }
  destruct (inv_lookup _ _ _ _ _ _ _ 0%nat x Hi) as (m & _ & (_ & _ & _ & Hr) & _ & _ & HmL); [by rewrite El|].
  destruct (repr_diff _ _ _ _ _ (i_cur _ _ _ _ _ _ _ Hi) Hr) as (d' & Ed' & _).
  { by apply (lo_cur _ _ _ _ (i_log _ _ _ _ _ _ _ Hi) (m_num m)). }
  rewrite Ed'. destruct (_ || _).
  - exists d', (node_id x). split; [done|]. exists 0%nat, x. cbn. rewrite El. auto.
  - exists d, (assumed_receiver_state s). by rewrite Heta in *.
Qed.

Lemma sent_to_kernel cur L T K e e' :
  kernel (sender e') = kernel (sender e) -> conn e' = conn e -> sent_to cur L T K e -> sent_to cur L T K e'.
Proof.
  intros Hk Hc (L' & HL & Hs & HK). exists L'. split; [done|]. split; [by eapply sinv_kernel|].
  unfold kernel in Hk. injection Hk as _ _ _ _ _ ->. done.
Qed.

(** What [tick] does once it has decided on the difference. *)
Lemma tick_send_spec b a cur L now env d e :
  inv_at b a cur L (Z.of_nat (length (instructions (sender e)))) now (sender e) -> (length a <= 32)%nat ->
  conn_ok (conn e) -> aimed d (sender e) -> Z.of_nat (length (instructions (sender e))) < UINT64_MAX - 1 ->
  exists r e',
    (if bool_decide (d = []) then
       (if next_ack_time (sender e) <=? now
        then send_empty_ack now env ;;
             noexn (on_sender (modify (fun s => s <| mindelay_clock := UINT64_MAX |>)))
        else mret tt) ;;
       noexn (on_sender (modify (fun s =>
         if next_send_time s <=? now
         then s <| next_send_time := UINT64_MAX |> <| mindelay_clock := UINT64_MAX |> else s)))
     else if (next_send_time (sender e) <=? now) || (next_ack_time (sender e) <=? now) then
       send_to_receiver now env d ;;
       noexn (on_sender (modify (fun s => s <| mindelay_clock := UINT64_MAX |>)))
     else mret tt) e = Ok (r, e') /\
    sent_to cur L now (Datatypes.S (length (instructions (sender e)))) e'.
Proof.
  intros Hi Ha Hc Haim HN. set (K := Datatypes.S (length (instructions (sender e)))).
  assert (Hs : sent_to cur L now K e) by (exists L; split; [done|]; split; [by exists b, a|unfold K; lia]).
  case_bool_decide as Hd.
  - rewrite Hd in Haim. set (m2 := noexn (on_sender (modify (fun s => if next_send_time s <=? now then _ else s)))).
    assert (Hm2 : forall e, sent_to cur L now K e -> exists r e', m2 e = Ok (r, e') /\ sent_to cur L now K e').
    { intros e0 H0. eexists _, _. split; [reflexivity|]. eapply sent_to_kernel; [..|exact H0]; cbn; by repeat case_match. }
    destruct (Z.leb_spec (next_ack_time (sender e)) now) as [Hle|_].
    + destruct (send_empty_ack_spec _ _ _ _ _ env _ Hi Ha Hc Haim Hle HN) as ([[]|ex] & e1 & E1 & Hs1).
      * unfold mbind at 1, X_bind at 1. rewrite (X_bind_Ok _ _ _ _ _ E1). cbn [noexn on_sender zoom modify].
        apply Hm2. by eapply sent_to_kernel; [..|exact Hs1].
      * exists (Err ex), e1. split; [|done]. unfold mbind at 1, X_bind at 1. by rewrite (X_bind_Err _ _ _ _ _ E1).
    + rewrite (X_bind_Ok _ _ e tt e) by done. by apply Hm2.
  - destruct (_ || _); [|by exists (Ok tt), e].
    destruct (send_to_receiver_spec _ _ _ _ _ env _ _ Hi Ha Hc Haim HN) as ([[]|ex] & e1 & E1 & Hs1).
    + rewrite (X_bind_Ok _ _ _ _ _ E1). eexists _, _. split; [reflexivity|]. by eapply sent_to_kernel; [..|exact Hs1].
    + rewrite (X_bind_Err _ _ _ _ _ E1). by eexists _, _.
Qed.

Lemma tick_inv cur L T now env e :
  sinv cur L T e -> T <= now -> 0 <= now < 2 ^ 64 ->
  Z.of_nat (length (instructions (sender e))) < UINT64_MAX - 1 ->
  exists r e', tick now env e = Ok (r, e') /\
    sent_to cur L now (Datatypes.S (length (instructions (sender e)))) e'.
Proof.
  intros (b0 & a & Hi0 & Ha & Hc) HT Hnow HN. unfold tick.
  destruct (calculate_timers_spec _ _ _ _ _ _ _ _ Hi0 HT Hnow)
    as (e1 & b & k & E1 & Hi & Hc1 & (n & Hn & Has) & Hk & Hins).
  rewrite (X_bind_Ok _ _ e tt e1) by (unfold noexn; by rewrite E1).
  rewrite (X_bind_Ok _ _ e1 e1 e1) by done. rewrite <- Hc1 in Hc. rewrite <- Hins in Hi, HN.
  rewrite <- Hins.
  assert (Hs1 : sent_to cur L now (Datatypes.S (length (instructions (sender e1)))) e1)
    by (exists L; split; [done|]; split; [by exists b, a|lia]).
  destruct (negb _); [by exists (Ok tt), e1|]. destruct (_ && _); [by exists (Ok tt), e1|].
  assert (Hnd : NoDup (node_id <$> sent_states (sender e1))).
  { rewrite (inv_ids _ _ _ _ _ _ _ Hi). apply (i_ids _ _ _ _ _ _ _ Hi). }
  rewrite Has. rewrite (X_bind_Ok _ _ e1 n e1) by (unfold noexn, lift; by rewrite (deref_at _ k n)).
  destruct (inv_lookup _ _ _ _ _ _ _ k n Hi Hn) as (m & _ & (_ & _ & _ & Hr) & _ & _ & HmL).
  destruct (repr_diff _ _ _ _ _ (i_cur _ _ _ _ _ _ _ Hi) Hr) as (d & Ed & _).
  { by apply (lo_cur _ _ _ _ (i_log _ _ _ _ _ _ _ Hi) (m_num m)). }
  rewrite (X_bind_Ok _ _ e1 d e1) by (unfold noexn, lift; by rewrite Ed).
  destruct (attempt_spec _ _ _ _ _ _ _ d Hi) as (d' & i & Eat & Haim).
  { exists k, n. rewrite (inv_length _ _ _ _ _ _ _ Hi). auto. }
  set (e2 := e1 <| sender := (sender e1) <| assumed_receiver_state := i |> |>).
  rewrite (X_bind_Ok _ _ e1 d' e2) by (unfold noexn, on_sender, zoom; by rewrite Eat).
  apply (tick_send_spec b a cur L now env d' e2); auto. by apply (inv_kernel b a cur L _ now (sender e1)).
Qed.

(** ** The other calls *)

Lemma wait_time_inv cur L T now e :
  sinv cur L T e -> T <= now -> 0 <= now < 2 ^ 64 ->
  exists r e', wait_time now e = Ok (r, e') /\ sinv cur L now e' /\
    instructions (sender e') = instructions (sender e).
Proof.
  intros (b0 & a & Hi0 & Ha & Hc) HT Hnow. unfold wait_time.
  destruct (calculate_timers_spec _ _ _ _ _ _ _ _ Hi0 HT Hnow)
    as (e1 & b & k & E1 & Hi & Hc1 & _ & _ & Hins).
  rewrite (M_bind_Ok _ _ _ _ _ E1). rewrite (M_bind_Ok _ _ e1 e1 e1) by done.
  assert (Hs : sinv cur L now e1) by (exists b, a; rewrite Hins, Hc1; auto).
  cbv zeta. destruct (negb _); by eexists _, e1.
Qed.

Lemma process_ack_inv cur L T n e :
  sinv cur L T e -> exists e', on_sender (process_acknowledgment_through n) e = Ok (tt, e') /\ sinv cur L T e' /\
    instructions (sender e') = instructions (sender e).
Proof.
  intros (b & a & Hi & Ha & Hc). unfold process_acknowledgment_through, on_sender, zoom.
  pose proof (inv_length _ _ _ _ _ _ _ Hi) as Hlen. pose proof (i_len _ _ _ _ _ _ _ Hi) as Hpos.
  unfold mbind, M_bind, modify, get, assert_.
  destruct (existsb _ _) eqn:Ex.
  2:{ rewrite bool_decide_false by (intros E; rewrite E in Hlen; cbn in Hlen; lia).
      eexists. split; [reflexivity|]. split; [|done]. by exists b, a. }
  set (l' := filter (fun n0 : Node => n <= num n0) (sent_states (sender e))).
  set (a' := filter (fun m => n <= m_num m) a).
  assert (Hr' : Forall2 (node_repr b) l' a').
  { apply Forall2_filter; [|apply (i_repr _ _ _ _ _ _ _ Hi)]. intros x m (_ & _ & -> & _). done. }
  assert (Hlast : last a' = last a).
  { destruct (inv_back _ _ _ _ _ _ _ Hi) as (x & m & _ & Hm & _ & _ & HmL). rewrite Hm.
    apply existsb_exists in Ex as (y & Hy%list_elem_of_In & Ey%Z.eqb_eq).
    apply list_elem_of_lookup in Hy as [k Hy].
    destruct (inv_lookup _ _ _ _ _ _ _ k y Hi Hy) as (my & _ & (_ & _ & En & _) & _ & _ & HyL).
    pose proof (i_last _ _ _ _ _ _ _ Hi m _ _ Hm HyL) as Hle. apply last_Some in Hm as [a0 ->].
    unfold a'. rewrite filter_app, filter_cons_True by lia. rewrite filter_nil. apply last_snoc. }
  pose proof (inv_trim _ _ a' _ _ _ _ _ l' Hi (sublist_filter _ _) Hlast Hr') as Hi'.
  rewrite bool_decide_false.
  2:{ cbn. intros E. apply Forall2_length in Hr'. rewrite E in Hr'. pose proof (i_len _ _ _ _ _ _ _ Hi'). cbn in Hr'. lia. }
  eexists. split; [reflexivity|]. split; [|done]. exists b, a'. split; [done|]. split; [|done].
  unfold a'. pose proof (sublist_length _ _ (sublist_filter (fun m => n <= m_num m) a)). lia.
Qed.

(** The application changes the current state, and its meaning to one that can
    follow it. *)
Definition extends (g : S -> S) (f f' : meaning) : Prop := forall b s, repr b s f -> prec f f' /\ repr b (g s) f'.

Lemma edit_inv cur cur' L T g e :
  sinv cur L T e -> extends g cur cur' -> shutdown_in_progress (sender e) = false ->
  sinv cur' L T (e <| sender := (sender e) <| current_state := g (current_state (sender e)) |> |>).
Proof.
  intros (b & a & [H1 H2 H3 H4 H5 H6 H7 H8 H9 H10 H11] & Ha & Hc) Hg Hsd.
  destruct (Hg _ _ H2) as (Hp & Hr). exists b, a. split; [|done]. split; auto.
  destruct H8 as [L1 L2 L3 L4 L5]. rewrite Hsd in L5. split; auto; cbn.
  - intros n f Hn. etransitivity; [by apply (L3 n)|done].
  - intros f Hf. by destruct (L5 f Hf).
Qed.

Lemma conn_inv cur L T c e : sinv cur L T e -> conn_ok c -> sinv cur L T (e <| conn := c |>).
Proof. intros (b & a & Hi & Ha & _) Hc. by exists b, a. Qed.

Lemma shutdown_inv cur L T now e :
  sinv cur L T e -> sinv cur L T (e <| sender := start_shutdown now (sender e) |>).
Proof.
  intros (b & a & [H1 H2 H3 H4 H5 H6 H7 H8 H9 H10 H11] & Ha & Hc). exists b, a. split; [|done].
  unfold start_shutdown. destruct (shutdown_in_progress (sender e)) eqn:E; split; cbn; auto; try by rewrite E.
  destruct H8 as [L1 L2 L3 L4 L5]. split; auto. intros f Hf. by destruct (L5 f Hf).
Qed.

(** ** Runs of the sender *)

(** What the program does with a sender: the main loop ticks and asks for the
    time to wait, the transport reports what it received, the application
    edits the current state, the connection changes when it receives. *)
Inductive sender_op : Type :=
| Tick (now : Z) (env : TickEnv)
| WaitTime (now : Z)
| AckThrough (n : Z)
| SetAckNum (n : Z)
| DataAck
| RemoteHeard (ts : Z)
| SetSendDelay (d : Z)
| StartShutdown (now : Z)
| EditState (g : S -> S)
| NewConnection (c : Connection).

Definition run_op (op : sender_op) : X (Endpoint S) unit :=
  match op with
  | Tick now env => tick now env
  | WaitTime now => noexn (wait_time now) ;; mret tt
  | AckThrough n => noexn (on_sender (process_acknowledgment_through n))
  | SetAckNum n => noexn (on_sender (modify (set_ack_num n)))
  | DataAck => noexn (on_sender (modify set_data_ack))
  | RemoteHeard ts => noexn (on_sender (modify (remote_heard ts)))
  | SetSendDelay d => noexn (on_sender (modify (set_send_delay d)))
  | StartShutdown now => noexn (on_sender (modify (start_shutdown now)))
  | EditState g =>
      s ← noexn (gets sender);
      x ← noexn (lift (get_current_state s));
      noexn (on_sender (modify (fun s => s <| current_state := g x |>)))
  | NewConnection c => noexn (modify (fun e => e <| conn := c |>))
  end.

(** The main loop goes on after exceptions. *)
Fixpoint run_ops (ops : list sender_op) (e : Endpoint S) : result fault (Endpoint S) :=
  match ops with
  | [] => Ok e
  | op :: ops' => '(_, e') ← run_op op e; run_ops ops' e'
  end.

(** The clock does not go back, edits stop at shutdown, and the connection
    stays usable. *)
Fixpoint clock_ok (T : Z) (shut : bool) (ops : list sender_op) : Prop :=
  match ops with
  | [] => True
  | Tick now _ :: ops' | WaitTime now :: ops' => T <= now < 2 ^ 64 /\ clock_ok now shut ops'
  | StartShutdown now :: ops' => clock_ok T true ops'
  | EditState g :: ops' => shut = false /\ clock_ok T shut ops'
  | NewConnection c :: ops' => conn_ok c /\ clock_ok T shut ops'
  | _ :: ops' => clock_ok T shut ops'
  end.

(** Each edit takes the state to a meaning that can follow the one before. *)
Fixpoint edits_ok (f : meaning) (ops : list sender_op) : Prop :=
  match ops with
  | [] => True
  | EditState g :: ops' => exists f', extends g f f' /\ edits_ok f' ops'
  | _ :: ops' => edits_ok f ops'
  end.

Definition ops_ok (f : meaning) (T : Z) (shut : bool) (ops : list sender_op) : Prop :=
  clock_ok T shut ops /\ edits_ok f ops.

Lemma sinv_nonneg cur L T e : sinv cur L T e -> 0 <= T.
Proof.
  intros (b & a & Hi & _). pose proof (i_nodes _ _ _ _ _ _ _ Hi) as H1. pose proof (i_len _ _ _ _ _ _ _ Hi).
  destruct a as [|m a]; [cbn in *; lia|]. apply Forall_cons in H1 as [(? & _) _]. lia.
Qed.

(** ** Nothing but [start_shutdown] starts the shutdown *)

Definition keeps_shut {A} (m : M (Endpoint S) A) : Prop :=
  forall e x e', m e = Ok (x, e') -> shutdown_in_progress (sender e') = shutdown_in_progress (sender e).

Lemma ks_bind {A B} (m : M (Endpoint S) A) (k : A -> M (Endpoint S) B) :
  keeps_shut m -> (forall x, keeps_shut (k x)) -> keeps_shut (m ≫= k).
Proof.
  intros Hm Hk e y e'. unfold mbind, M_bind. destruct (m e) as [[x e1]|] eqn:E; [|done].
  intros H1. rewrite (Hk _ _ _ _ H1). by eapply Hm.
Qed.

Lemma ks_xbind {A B} (m : X (Endpoint S) A) (k : A -> X (Endpoint S) B) :
  keeps_shut m -> (forall x, keeps_shut (k x)) -> keeps_shut (m ≫= k : X (Endpoint S) B).
Proof.
  intros Hm Hk e y e'. unfold mbind, X_bind. destruct (m e) as [[[x|ex] e1]|] eqn:E; [| |done].
  - intros H1. rewrite (Hk _ _ _ _ H1). by eapply Hm.
  - intros [= <- <-]. by eapply Hm.
Qed.

Lemma ks_noexn {A} (m : M (Endpoint S) A) : keeps_shut m -> keeps_shut (noexn m).
Proof.
  intros Hm e x e'. unfold noexn. destruct (m e) as [[y e1]|] eqn:E; [|done]. intros [= <- <-]. by eapply Hm.
Qed.

Lemma ks_pure {A} (m : M (Endpoint S) A) : (forall e x e', m e = Ok (x, e') -> e' = e) -> keeps_shut m.
Proof. intros Hm e x e' H1. by rewrite (Hm _ _ _ H1). Qed.

Lemma ks_ret {A} (x : A) : keeps_shut (mret x).
Proof. apply ks_pure. by intros ? ? ? [= <- <-]. Qed.
Lemma ks_xret {A} (x : A) : keeps_shut (mret x : X (Endpoint S) A).
Proof. apply ks_pure. by intros ? ? ? [= <- <-]. Qed.
Lemma ks_gets {A} (f : Endpoint S -> A) : keeps_shut (gets f).
Proof. apply ks_pure. by intros ? ? ? [= <- <-]. Qed.
Lemma ks_get : keeps_shut get.
Proof. apply ks_pure. by intros ? ? ? [= <- <-]. Qed.
Lemma ks_fail {A} f : keeps_shut (fail f : M (Endpoint S) A).
Proof. by intros ? ? ?. Qed.
Lemma ks_lift {A} (r : result fault A) : keeps_shut (lift r).
Proof. apply ks_pure. unfold lift. intros e x e'. destruct r; [by intros [= <- <-]|done]. Qed.
Lemma ks_assert c : keeps_shut (assert_ c).
Proof. apply ks_pure. unfold assert_. intros e x e'. destruct c; [by intros [= <- <-]|done]. Qed.

Lemma ks_modify (f : TransportSender S -> TransportSender S) :
  (forall s, shutdown_in_progress (f s) = shutdown_in_progress s) -> keeps_shut (on_sender (modify f)).
Proof. intros Hf e x e' [= <- <-]. apply Hf. Qed.

Lemma ks_on_conn {A} (m : X Connection A) : keeps_shut (on_conn m).
Proof. intros e x e'. unfold on_conn, zoom. destruct (m (conn e)) as [[? ?]|]; [by intros [= <- <-]|done]. Qed.
Lemma ks_on_fragmenter {A} (m : X Fragmenter A) : keeps_shut (on_fragmenter m).
Proof. intros e x e'. unfold on_fragmenter, zoom. destruct (m _) as [[? ?]|]; [by intros [= <- <-]|done]. Qed.

Lemma ks_rationalize : keeps_shut (on_sender rationalize_states).
Proof.
  intros e x e'. unfold on_sender, zoom, rationalize_states, mbind, M_bind, get, lift, modify.
  destruct (front _); [|done]. destruct (subtract _ _); [|done]. destruct (rationalize_list _); [|done].
  by intros [= <- <-].
Qed.
Lemma ks_add_sent_state now n st : keeps_shut (on_sender (add_sent_state now n st)).
Proof.
  intros e x e'. unfold on_sender, zoom, add_sent_state, mbind, M_bind, modify.
  destruct (32 <? _)%nat; by intros [= <- <-].
Qed.
Lemma ks_attempt d : keeps_shut (on_sender (attempt_prospective_resend_optimization d)).
Proof.
  intros e x e'. unfold on_sender, zoom, attempt_prospective_resend_optimization, mbind, M_bind, get, lift, modify.
  destruct (front _); [|done]. destruct (bool_decide _); [by intros [= <- <-]|].
  destruct (diff_from _ _); [|done]. destruct (_ || _); by intros [= <- <-].
Qed.

Ltac ks :=
  repeat first
    [ match goal with |- forall _, _ => intros ? end
    | apply ks_noexn | apply ks_xbind | apply ks_bind | apply ks_ret | apply ks_xret | apply ks_gets | apply ks_get
    | apply ks_fail | apply ks_lift | apply ks_assert | apply ks_on_conn | apply ks_on_fragmenter
    | apply ks_rationalize | apply ks_add_sent_state | apply ks_attempt
    | apply ks_modify; intros; by repeat case_match
    | progress cbv zeta
    | match goal with |- keeps_shut (if ?c then _ else _) => destruct c end
    | match goal with |- keeps_shut (match ?c with [] => _ | _ :: _ => _ end) => destruct c end ].

Lemma calculate_timers_shut now : keeps_shut (calculate_timers now).
Proof. unfold calculate_timers, update_assumed_receiver_state, set_timers. ks. Qed.

Lemma wait_time_shut now : keeps_shut (wait_time now).
Proof. unfold wait_time. apply ks_bind; [apply calculate_timers_shut|]. ks. Qed.

Lemma send_each_shut now env l : forall k, keeps_shut (send_each now env k l).
Proof. induction l as [|f l IH]; intros k; cbn [send_each]; ks. apply IH. Qed.

Lemma send_in_fragments_shut now env d n : keeps_shut (send_in_fragments now env d n).
Proof. unfold send_in_fragments. ks. apply send_each_shut. Qed.

Lemma tick_shut now env : keeps_shut (tick now env).
Proof.
  unfold tick, send_empty_ack, send_to_receiver. apply ks_xbind; [apply ks_noexn, calculate_timers_shut|].
  ks; apply send_each_shut.
Qed.

(** ** The sender never fails *)

Definition running (cur : meaning) (L : log) (T : Z) (shut : bool) (K : nat) (e : Endpoint S) : Prop :=
  sinv cur L T e /\ shutdown_in_progress (sender e) = shut /\ (length (instructions (sender e)) <= K)%nat.

Lemma running_kernel cur L T shut K e e' :
  running cur L T shut K e -> kernel (sender e') = kernel (sender e) -> conn e' = conn e ->
  running cur L T shut (Datatypes.S K) e'.
Proof.
  intros (Hs & Hsd & HK) Hk Hc. split; [by eapply sinv_kernel|].
  unfold kernel in Hk. injection Hk as _ _ _ -> _ ->. split; [done|lia].
Qed.

(** The same edit on another copy of the object. *)
Definition edit (op : sender_op) (doc : S) : S := match op with EditState g => g doc | _ => doc end.

Lemma run_op_safe cur L T shut K e op ops :
  running cur L T shut K e -> ops_ok cur T shut (op :: ops) -> Z.of_nat K < UINT64_MAX - 1 ->
  exists r e' cur' L' T' shut', run_op op e = Ok (r, e') /\ ops_ok cur' T' shut' ops /\
    running cur' L' T' shut' (Datatypes.S K) e' /\ L ⊆ L' /\
    forall b doc, repr b doc cur -> repr b (edit op doc) cur'.
Proof.
  intros Hrun [Hok Hed] HK. pose proof Hrun as (Hs & Hsd & Hlen). pose proof (sinv_nonneg _ _ _ _ Hs) as HT0.
  destruct op as [now env|now|n|n| |ts|d|now|g|c]; cbn [run_op clock_ok edits_ok edit] in *.
  - destruct Hok as [Hnow Hok]. destruct (tick_inv cur L T now env e Hs ltac:(lia) ltac:(lia) ltac:(lia))
      as (r & e' & E & L' & HL & Hs' & Hlen'). exists r, e', cur, L', now, shut. split; [done|]. split; [done|].
    split; [|done]. split; [done|]. split; [by rewrite (tick_shut _ _ _ _ _ E)|lia].
  - destruct Hok as [Hnow Hok].
    destruct (wait_time_inv cur L T now e Hs ltac:(lia) ltac:(lia)) as (r & e' & E & Hs' & Hins).
    exists (Ok tt), e', cur, L, now, shut. split; [rewrite (X_bind_Ok _ _ e r e'); [done|]; unfold noexn; by rewrite E|].
    split; [done|]. split; [|done]. split; [done|]. split; [by rewrite (wait_time_shut _ _ _ _ E)|rewrite Hins; lia].
  - destruct (process_ack_inv cur L T n e Hs) as (e' & E & Hs' & Hins). exists (Ok tt), e', cur, L, T, shut.
    split; [unfold noexn; by rewrite E|]. split; [done|]. split; [|done]. split; [done|]. split; [|rewrite Hins; lia].
    rewrite <- Hsd. revert E. clear. unfold on_sender, zoom, process_acknowledgment_through, mbind, M_bind, modify, get, assert_.
    destruct (existsb _ _), (negb _); intros [= <-]; done.
  - eexists _, _, cur, L, T, shut. split; [reflexivity|]. split; [done|]. split; [by apply (running_kernel _ _ _ _ _ e)|done].
  - eexists _, _, cur, L, T, shut. split; [reflexivity|]. split; [done|]. split; [by apply (running_kernel _ _ _ _ _ e)|done].
  - eexists _, _, cur, L, T, shut. split; [reflexivity|]. split; [done|]. split; [by apply (running_kernel _ _ _ _ _ e)|done].
  - eexists _, _, cur, L, T, shut. split; [reflexivity|]. split; [done|]. split; [by apply (running_kernel _ _ _ _ _ e)|done].
  - eexists _, _, cur, L, T, true. split; [reflexivity|]. split; [done|]. split; [|done].
    split; [by apply (shutdown_inv cur L T now e)|].
    cbn. unfold start_shutdown. destruct (shutdown_in_progress (sender e)) eqn:E; cbn; split; auto; lia.
  - destruct Hok as [-> Hok], Hed as (cur' & Hg & Hed). eexists _, _, cur', L, T, false. split.
    { rewrite (X_bind_Ok _ _ e (sender e) e) by done.
      rewrite (X_bind_Ok _ _ e (current_state (sender e)) e) by (unfold noexn, lift, get_current_state; by rewrite Hsd).
      reflexivity. }
    split; [done|]. split; [split; [by apply (edit_inv cur cur')|cbn; split; [done|lia]]|].
    split; [done|]. intros b doc Hd. by apply Hg.
  - destruct Hok as [Hc Hok]. eexists _, _, cur, L, T, shut. split; [reflexivity|]. split; [done|].
    split; [|done]. split; [by apply conn_inv|]. cbn. split; [done|lia].
Qed.

Lemma run_ops_safe ops : forall cur L T shut K e,
  running cur L T shut K e -> ops_ok cur T shut ops -> Z.of_nat (K + length ops) < UINT64_MAX ->
  exists e' cur' L' T', run_ops ops e = Ok e' /\ sinv cur' L' T' e'.
Proof.
  induction ops as [|op ops IH]; intros cur L T shut K e Hrun Hok HK; cbn [run_ops].
  { exists e, cur, L, T. split; [done|]. by destruct Hrun. }
  cbn [length] in HK. destruct (run_op_safe cur L T shut K e op ops Hrun Hok ltac:(lia))
    as (r & e1 & cur1 & L1 & T1 & sh1 & E & Hok1 & Hrun1 & _ & _).
  rewrite E. cbn [mbind result_bind]. apply (IH cur1 L1 T1 sh1 (Datatypes.S K) e1 Hrun1 Hok1). lia.
Qed.

Lemma sinv_new now c b x f :
  0 <= now -> repr b x f -> conn_ok c -> sinv f [(0, f)] now (MkEndpoint (TransportSender_new now x) c).
Proof.
  intros Hnow Hx Hc. exists b, [MkM 0 now 0 f]. split; [|split; [cbn; lia|done]]. 
  assert (Hin : forall n g, (n, g) ∈ [(0, f)] <-> n = 0 /\ g = f).
  { intros n g. rewrite list_elem_of_singleton. split; [by intros [= -> ->]|by intros [-> ->]]. }
  split; cbn; auto.
  - constructor; [|constructor]. by split_and!.
  - repeat constructor.
  - apply Forall_singleton. cbn. split_and!; [lia..|by apply Hin].
  - apply NoDup_singleton.
  - intros m n g [= <-] [-> _]%Hin. cbn. lia.
  - split; setoid_rewrite Hin.
    + by intros ? ? ? [_ ->] [_ ->].
    + by intros ? ? ? ? [_ ->] [_ ->].
    + by intros ? ? [_ ->].
    + intros n g [-> _]. split; [done|]. left. lia.
    + by intros g [? _].
  - split; cbn; lia.
Qed.

(** C22. The sender is safe.  Start from a fresh sender whose object keeps the
    promises of [SyncLaws] and [DiffDetermined] (the user's stream does,
    [UserStream_laws], and the terminals of a host, [host_laws] of
    CompleteLaws.v) and drive it in any order with
    ticks, waits, acknowledgements of any number, shutdown and edits, the clock
    never going back: no assertion fails (timestamps in the future, an empty
    queue, objects that are not prefixes, a retransmission that differs), no
    erased queue node is dereferenced, and the queue never holds more than 32
    states. *)
Theorem sender_safe now c b x f ops :
  repr b x f -> conn_ok c -> 0 <= now -> ops_ok f now false ops -> Z.of_nat (length ops) < UINT64_MAX ->
  exists e, run_ops ops (MkEndpoint (TransportSender_new now x) c) = Ok e /\
    (0 < length (sent_states (sender e)) <= 32)%nat.
Proof.
  intros Hx Hc Hnow Hops Hlen.
  destruct (run_ops_safe ops f [(0, f)] now false 0 (MkEndpoint (TransportSender_new now x) c))
    as (e & cur & L & T & E & b' & a & Hi & Ha & _); auto.
  - split; [by eapply sinv_new|]. cbn. split; [done|lia].
  - exists e. split; [done|]. rewrite (inv_length _ _ _ _ _ _ _ Hi). split; [apply (i_len _ _ _ _ _ _ _ Hi)|done].
Qed.
End spec.

(** ** A concrete sender of user input *)

Lemma extends_push e f : event_wf e -> extends (S := UserStream) (push_back e) f (push_back e f).
Proof.
  intros He b s [-> Hf]. unfold push_back. split; [by exists [e]|]. split; [by rewrite app_assoc|].
  apply Forall_app. split; [done|]. by apply Forall_singleton.
Qed.

Definition sample_env : TickEnv := MkTickEnv (fun _ => MkSendEnv None (Ok 4)) 3 [1; 2; 3; 4].
Definition sample_conn : Connection :=
  (Connection_init false sample_key 1000 0) <| socks := [3] |> <| has_remote_addr := true |>
    <| remote_addr := [127; 0; 0; 1] |>.
Definition sample_ops : list (sender_op (S := UserStream)) :=
  [EditState (push_back (UserByteEvent 65)); Tick 1010 sample_env; WaitTime 1011; Tick 1020 sample_env;
   EditState (push_back (UserByteEvent 66)); AckThrough 1; Tick 1300 sample_env; Tick 1310 sample_env; StartShutdown 1400;
   Tick 1700 sample_env; Tick 2000 sample_env].

Lemma sender_safe_witness :
  exists e, run_ops sample_ops (MkEndpoint (TransportSender_new 1000 []) sample_conn) = Ok e /\
    (0 < length (sent_states (sender e)) <= 32)%nat.
Proof.
  apply (sender_safe (S := UserStream) (HLaws := UserStream_laws) 1000 sample_conn ([] : UserStream) [] ([] : UserStream)).
  - by split.
  - split; [done|]. split; [done|]. cbn. unfold DEFAULT_SEND_MTU. lia.
  - lia.
  - split; [cbn; split_and!; try lia; done|]. by repeat (eexists; split; [by apply extends_push|]).
  - cbn. unfold UINT64_MAX. lia.
Defined.

(** The run sends the first keystroke, then the second from the acknowledged
    state, and the shutdown twice. *)
Example sample_run :
  match run_ops sample_ops (MkEndpoint (TransportSender_new 1000 []) sample_conn) with
  | Ok e => (fun i => (old_num i, new_num i)) <$> instructions (sender e)
  | Err _ => []
  end = [(0, 1); (1, 2); (1, UINT64_MAX); (1, UINT64_MAX)].
Proof. vm_compute. reflexivity. Qed.
