(* ===== verification/Transport.v ===== *)
(** * The transport (mosh/src/network/networktransport{.h,-impl.h})

    One end of the state synchronisation protocol: the sender, the connection
    and the queue of received states. *)
From S2P Require Export Sender.

(** [TimestampedState] in the receiver's list, whose iterators do not outlive
    a call. *)
Record Received (S : Type) : Type := MkReceived { r_timestamp : Z; r_num : Z; r_state : S }.
Arguments MkReceived {S} _ _ _.
Arguments r_timestamp {S} _.
Arguments r_num {S} _.
Arguments r_state {S} _.

Record Transport (MyState RemoteState : Type) : Type := MkTransport {
  endpoint : Endpoint MyState; received_states : list (Received RemoteState);
  receiver_quench_timer : Z; last_receiver_state : RemoteState; assembly : FragmentAssembly }.
Arguments MkTransport {MyState RemoteState} _ _ _ _ _.
Arguments endpoint {MyState RemoteState} _.
Arguments received_states {MyState RemoteState} _.
Arguments receiver_quench_timer {MyState RemoteState} _.
Arguments last_receiver_state {MyState RemoteState} _.
Arguments assembly {MyState RemoteState} _.
#[export] Instance eta_Transport A B : Eta (Transport A B) :=
  fun t => MkTransport (endpoint t) (received_states t) (receiver_quench_timer t)
    (last_receiver_state t) (assembly t).

Definition Transport_new {A B} (now : Z) (c : Connection) (initial_state : A) (initial_remote : B) : Transport A B :=
  MkTransport (MkEndpoint (TransportSender_new now initial_state) c) [MkReceived now 0 initial_remote] 0
    initial_remote FragmentAssembly_new.

Section transport.
Context {MyState RemoteState : Type} `{SyncState MyState} `{SyncState RemoteState} `{AE} `{TransportCodec}.
Notation T := (Transport MyState RemoteState).

Definition on_endpoint {A} (m : M (Endpoint MyState) A) : M T A :=
  zoom endpoint (fun e t => t <| endpoint := e |>) m.
Definition on_assembly {A} (m : X FragmentAssembly A) : X T A :=
  zoom assembly (fun a t => t <| assembly := a |>) m.

(** The list after [process_throwaway_until]. *)
Definition process_throwaway_until (throwaway_num : Z) : M T unit :=
  modify (fun t => t <| received_states :=
    filter (fun r => throwaway_num <= r_num r) (received_states t) |>) ;;
  t ← get;
  assert_ (negb (bool_decide (received_states t = []))).

(** The insertion in sorted place; [None] when the state goes to the end. *)
Fixpoint insert_before (new_state : Received RemoteState) (l : list (Received RemoteState))
  : option (list (Received RemoteState)) :=
  match l with
  | [] => None
  | i :: l' =>
      if r_num new_state <? r_num i then Some (new_state :: i :: l')
      else (fun l'' => i :: l'') <$> insert_before new_state l'
  end.

(** The new state built from the reference state; the iterator to it dangles
    when the state has just been thrown away. *)
Definition apply_to_reference (now : Z) (inst : Instruction) (reference : Received RemoteState)
  : result fault (Received RemoteState) :=
  if r_num reference <? throwaway_num inst then Err Undefined else
  s ← (if bool_decide (diff inst = []) then Ok (r_state reference)
       else apply_string (diff inst) (r_state reference));
  Ok (MkReceived now (new_num inst) s).

Definition accept_state (now : Z) (inst : Instruction) (reference : Received RemoteState) : M T unit :=
  new_state ← lift (apply_to_reference now inst reference);
  t ← get;
  match insert_before new_state (received_states t) with
  | Some l => modify (fun t => t <| received_states := l |>)
  | None =>
      modify (fun t => t <| received_states := received_states t ++ [new_state] |>) ;;
      on_endpoint (on_sender (modify (fun s =>
        let s := remote_heard (r_timestamp new_state) (set_ack_num (r_num new_state) s) in
        if bool_decide (diff inst = []) then s else set_data_ack s)))
  end.

(** [recv] once an instruction is complete. *)
Definition recv_instruction (now : Z) (inst : Instruction) : X T unit :=
  if negb (protocol_version inst =? MOSH_PROTOCOL_VERSION) then throw (NetworkException 0) else
  noexn (on_endpoint (on_sender (process_acknowledgment_through (ack_num inst)))) ;;
  t ← noexn get;
  ts ← noexn (lift (get_sent_state_acked_timestamp (sender (endpoint t))));
  noexn (on_endpoint (modify (fun e => e <| conn := set_last_roundtrip_success ts (conn e) |>))) ;;
  t ← noexn get;
  if existsb (fun r => r_num r =? new_num inst) (received_states t) then mret tt else
  match list_find (fun r => r_num r = old_num inst) (received_states t) with
  | None => mret tt
  | Some (_, reference) =>
      noexn (process_throwaway_until (throwaway_num inst)) ;;
      t ← noexn get;
      if (1024 <? length (received_states t))%nat && (now <? receiver_quench_timer t) then mret tt else
      (if (1024 <? length (received_states t))%nat
       then noexn (modify (fun t => t <| receiver_quench_timer := u64 (now + 15000) |>)) else mret tt) ;;
      noexn (accept_state now inst reference)
  end.

Definition on_connection {A} (m : X Connection A) : X T A :=
  zoom endpoint (fun e t => t <| endpoint := e |>) (on_conn m).

Definition transport_recv (now : Z) (recvmsg : Z -> recvmsg_result) : X T unit :=
  s ← on_connection (recv now recvmsg);
  r ← on_assembly (recv_fragment s);
  match r with
  | None => mret tt
  | Some inst => recv_instruction now inst
  end.

Fixpoint subtract_received (known : RemoteState) (l : list (Received RemoteState))
  : result fault (list (Received RemoteState)) :=
  match l with
  | [] => Ok []
  | r :: l' =>
      s ← subtract (r_state r) known;
      l'' ← subtract_received known l';
      Ok (MkReceived (r_timestamp r) (r_num r) s :: l'')
  end.

(** The prefix is the oldest state itself, subtracted from itself last. *)
Definition get_remote_diff : M T bytes :=
  t ← get;
  match received_states t, last (received_states t) with
  | oldest :: rest, Some newest =>
      ret ← lift (diff_from (r_state newest) (last_receiver_state t));
      rest' ← lift (subtract_received (r_state oldest) rest);
      let l := MkReceived (r_timestamp oldest) (r_num oldest) (subtract_self (r_state oldest)) :: rest' in
      modify (fun t => t <| received_states := l |>
                         <| last_receiver_state :=
                              match last l with Some r => r_state r | None => last_receiver_state t end |>) ;;
      mret ret
  | _, _ => fail Undefined
  end.

Definition get_latest_remote_state (t : T) : result fault (Received RemoteState) :=
  match last (received_states t) with Some r => Ok r | None => Err Undefined end.
Definition get_remote_state_num (t : T) : result fault Z :=
  match last (received_states t) with Some r => Ok (r_num r) | None => Err Undefined end.
End transport.
