(* ===== verification/TransportSpec.v ===== *)
(** * Properties of the transport

    The receiver's queue: every received state stands for what the sender
    numbered so, the queue stays sorted, genuine instructions never fail an
    assertion, and the differences handed to the application add up. *)
From stdpp Require Import sorting.
From S2P Require Export SenderSpec Transport.

Section receiver.
Context {A R : Type} `{HA : SyncState A} `{HR : SyncState R} `{HLR : !SyncLaws R}.
Context `{HAE : AE} `{HCodec : TransportCodec}.
Notation T := (Transport A R).
Notation Rec := (Received R).

Definition older (r r' : Rec) : Prop := r_num r < r_num r'.

(** The object [app] to which an application applies the remote differences
    shows what [last_receiver_state] shows. *)
Record recv_inv (ba b : meaning) (nl : Z) (fl : meaning) (L : log (S := R)) (app : R) (t : T) : Prop := {
  v_sorted : StronglySorted older (received_states t);
  v_states : Forall (fun r => exists f, (r_num r, f) ∈ L /\ held b (r_state r) f) (received_states t);
  v_nonempty : received_states t <> [];
  v_last : held b (last_receiver_state t) fl;
  v_lastlog : (nl, fl) ∈ L;
  v_latest : forall r, last (received_states t) = Some r -> nl <= r_num r;
  v_app : held ba app fl }.

Lemma recv_inv_mono ba b nl fl L L' app t : L ⊆ L' -> recv_inv ba b nl fl L app t -> recv_inv ba b nl fl L' app t.
Proof.
  intros HL [H1 H2 H3 H4 H5 H6 H7]. split; auto.
  eapply Forall_impl; [exact H2|]. intros r (f & Hf & Hr). eauto.
Qed.

Lemma recv_inv_fields ba b nl fl L app t t' :
  received_states t' = received_states t -> last_receiver_state t' = last_receiver_state t ->
  recv_inv ba b nl fl L app t -> recv_inv ba b nl fl L app t'.
Proof. intros E1 E2 [H1 H2 H3 H4 H5 H6 H7]. split; rewrite ?E1, ?E2; auto. Qed.

(** The sorted insertion. *)
Lemma insert_before_spec (x : Rec) l :
  StronglySorted older l -> (forall r, r ∈ l -> r_num r <> r_num x) ->
  match insert_before x l with
  | Some l' => StronglySorted older l' /\ (forall y, y ∈ l' <-> y = x \/ y ∈ l) /\ last l' = last l
  | None => Forall (fun r => older r x) l
  end.
Proof.
  intros Hs. induction l as [|i l IH]; intros Hne; cbn [insert_before]; [constructor|].
  apply StronglySorted_cons in Hs as [Hi Hs].
  destruct (Z.ltb_spec (r_num x) (r_num i)) as [Hlt|Hge].
  - split; [|split; [|done]].
    + apply StronglySorted_cons. split; [|by apply StronglySorted_cons]. constructor; [done|].
      eapply Forall_impl; [exact Hi|]. unfold older. lia.
    + intros y. apply elem_of_cons.
  - assert (Hix : older i x).
    { specialize (Hne i ltac:(apply list_elem_of_here)). unfold older. lia. }
    specialize (IH Hs ltac:(intros r Hr; apply Hne; by apply list_elem_of_further)).
    destruct (insert_before x l) as [l'|]; cbn [fmap option_fmap option_map].
    + destruct IH as (IH1 & IH2 & IH3). split; [|split].
      * apply StronglySorted_cons. split; [|done]. rewrite Forall_forall in Hi |- *.
        intros y [->|Hy]%IH2; auto.
      * intros y. rewrite !elem_of_cons, IH2. tauto.
      * destruct l as [|j l]; [|by rewrite (last_cons i l'), (last_cons i (j :: l)), IH3].
        destruct l' as [|y l']; [done|]. exfalso.
        rewrite last_cons in IH3. by destruct (last l').
    + by constructor.
Qed.

Lemma filter_last {B} (P : B -> Prop) `{!forall x, Decision (P x)} l x :
  last l = Some x -> P x -> last (filter P l) = Some x.
Proof.
  intros [l' ->]%last_Some Hx. rewrite filter_app, filter_cons_True by done. rewrite filter_nil. apply last_snoc.
Qed.

Lemma newest_ge l (r newest : Rec) :
  StronglySorted older l -> r ∈ l -> last l = Some newest -> r_num r <= r_num newest.
Proof.
  intros Hs Hr [l' ->]%last_Some. apply StronglySorted_last in Hs as [_ Hl].
  apply elem_of_app in Hr as [Hr|Hr%list_elem_of_singleton]; [|subst; lia].
  rewrite Forall_forall in Hl. specialize (Hl r Hr). unfold older in Hl. lia.
Qed.

(** ** Accepting a state *)

Section accept.
Context (L : log (S := R)) (cur : meaning) (shut : bool) (N : Z) (HL : log_ok L cur shut N).

Lemma throwaway_inv ba b nl fl app t n r :
  recv_inv ba b nl fl L app t -> r ∈ received_states t -> n <= r_num r ->
  exists t', process_throwaway_until n t = Ok (tt, t') /\ recv_inv ba b nl fl L app t' /\
    r ∈ received_states t' /\ endpoint t' = endpoint t /\
    (forall x, x ∈ received_states t' -> x ∈ received_states t).
Proof.
  intros Hv Hr Hn. pose proof Hv as [H1 H2 H3 H4 H5 H6 H7].
  set (l' := filter (fun r0 : Rec => n <= r_num r0) (received_states t)).
  assert (Hr' : r ∈ l') by (apply list_elem_of_filter; done).
  exists (t <| received_states := l' |>). split.
  { unfold process_throwaway_until, mbind, M_bind, modify, get, assert_. fold l'.
    rewrite bool_decide_false; [done|]. cbn. intros E. rewrite E in Hr'. by apply elem_of_nil in Hr'. }
  assert (Hsub : forall x, x ∈ l' -> x ∈ received_states t) by (intros x [_ ?]%list_elem_of_filter; done).
  split; [|done]. split; cbn; auto.
  - eapply StronglySorted_sublist; [apply sublist_filter|done].
  - eapply Forall_sublist; [apply sublist_filter|done].
  - intros E. rewrite E in Hr'. by apply elem_of_nil in Hr'.
  - destruct (last (received_states t)) as [x|] eqn:Ex; [|by apply last_None in Ex].
    assert (Hge : n <= r_num x) by (pose proof (newest_ge _ _ _ H1 Hr Ex); lia).
    unfold l'. intros y. rewrite (filter_last _ _ x Ex Hge). intros [= <-]. auto.
Qed.

Lemma reference_applies ba b nl fl app t inst now r :
  recv_inv ba b nl fl L app t -> inst_ok L inst -> r ∈ received_states t -> r_num r = old_num inst ->
  exists x f, apply_to_reference now inst r = Ok x /\ r_num x = new_num inst /\ r_timestamp x = now /\
    (new_num inst, f) ∈ L /\ held b (r_state x) f.
Proof.
  intros Hv [_ Hth (f0 & f & Hf0 & Hf & Hap & _)] Hr En.
  pose proof (v_states _ _ _ _ _ _ _ Hv) as Hst. rewrite Forall_forall in Hst.
  destruct (Hst r Hr) as (f0' & Hf0' & Hrep). rewrite En in Hf0'.
  rewrite (lo_fun _ _ _ _ HL _ _ _ Hf0' Hf0) in Hrep.
  destruct (Hap _ _ Hrep) as (x & Ex & Hx).
  exists (MkReceived now (new_num inst) x), f. split; [|done].
  unfold apply_to_reference. rewrite (proj2 (Z.ltb_ge _ _)) by lia.
  case_bool_decide; [rewrite decide_True in Ex by done|rewrite decide_False in Ex by done]; by rewrite Ex.
Qed.

Lemma accept_inv ba b nl fl app t inst now r :
  recv_inv ba b nl fl L app t -> inst_ok L inst -> r ∈ received_states t -> r_num r = old_num inst ->
  (forall x, x ∈ received_states t -> r_num x <> new_num inst) ->
  exists t', accept_state now inst r t = Ok (tt, t') /\ recv_inv ba b nl fl L app t' /\
    exists f, endpoint t' = (endpoint t) <| sender := f (sender (endpoint t)) |> /\
      forall s, kernel (f s) = kernel s.
Proof.
  intros Hv Hok Hr En Hnew. destruct (reference_applies _ _ _ _ _ _ _ now _ Hv Hok Hr En)
    as (x & f & Ex & Ex1 & Ex2 & Hf & Hrep). pose proof Hv as [H1 H2 H3 H4 H5 H6 H7].
  unfold accept_state. rewrite (M_bind_Ok _ _ t x t) by (unfold lift; by rewrite Ex).
  rewrite (M_bind_Ok _ _ t t t) by done.
  pose proof (insert_before_spec x (received_states t) H1) as Hins. rewrite Ex1 in Hins. specialize (Hins Hnew).
  destruct (insert_before x (received_states t)) as [l|].
  - destruct Hins as (Hs & Hin & Hl). eexists. split; [reflexivity|]. split.
    + split; cbn; auto; [|intros ->|by rewrite Hl].
      * rewrite Forall_forall in H2 |- *. intros y [->|Hy]%Hin; [rewrite Ex1; eauto|auto].
      * specialize (proj2 (Hin x) (or_introl eq_refl)). apply not_elem_of_nil.
    + exists (fun s => s). split; [|done]. cbn. by destruct (endpoint t).
  - eexists. split; [reflexivity|]. split.
    + split; cbn; auto.
      * by apply StronglySorted_snoc.
      * apply Forall_app. split; [done|]. apply Forall_singleton. rewrite Ex1. eauto.
      * by destruct (received_states t).
      * intros y. rewrite last_snoc. intros [= <-].
        destruct (last (received_states t)) as [z|] eqn:Ez; [|by apply last_None in Ez].
        specialize (H6 z eq_refl). rewrite Forall_forall in Hins.
        specialize (Hins z ltac:(apply last_Some_elem_of; done)). unfold older in Hins. lia.
    + exists (fun s => let s := remote_heard (r_timestamp x) (set_ack_num (r_num x) s) in
                      if bool_decide (diff inst = []) then s else set_data_ack s).
      split; [done|]. intros s. cbv zeta. by case_bool_decide.
Qed.
End accept.

(** ** What the application gets *)

Context `{HRB : !ReadBack R}.

Lemma held_repr (L : log (S := R)) b (l : list Rec) :
  Forall (fun r => exists f, (r_num r, f) ∈ L /\ held b (r_state r) f) l <->
  Forall (fun r => exists f, (r_num r, f) ∈ L /\ repr b (r_state r) f) l.
Proof. apply Forall_iff. intros r. by setoid_rewrite read_back. Qed.

Lemma subtract_received_spec b known f0 (l : list Rec) :
  repr b known f0 ->
  Forall (fun r => exists f, prec f0 f /\ repr b (r_state r) f) l ->
  exists l', subtract_received known l = Ok l' /\
    Forall2 (fun r r' => r_num r' = r_num r /\ forall f, prec f0 f -> repr b (r_state r) f -> repr f0 (r_state r') f) l l'.
Proof.
  intros Hk. induction l as [|r l IH]; intros Hl; cbn [subtract_received].
  { exists []. by split. }
  apply Forall_cons in Hl as [(f & Hp & Hr) Hl]. destruct (IH Hl) as (l' & El & Hl').
  destruct (repr_subtract _ _ _ _ _ Hr Hk Hp) as (s & Es & _).
  exists (MkReceived (r_timestamp r) (r_num r) s :: l'). rewrite Es. cbn. rewrite El. cbn. split; [done|].
  constructor; [|done]. split; [done|]. intros g Hg Hrg. cbn.
  destruct (repr_subtract _ _ _ _ _ Hrg Hk Hg) as (s' & Es' & Hs'). rewrite Es in Es'. by injection Es' as ->.
Qed.

Lemma sorted_nums (l l' : list Rec) :
  r_num <$> l' = r_num <$> l -> StronglySorted older l -> StronglySorted older l'.
Proof.
  revert l'. induction l as [|r l IH]; intros [|r' l'] E Hs; try done.
  cbn in E. injection E as E1 E2. apply StronglySorted_cons in Hs as [Hr Hs]. apply StronglySorted_cons.
  split; [|by apply IH]. unfold older in *. rewrite E1. clear -E2 Hr.
  revert l' E2. induction Hr as [|x l Hx _ IH]; intros [|x' l'] E; try done. cbn in E. injection E as E1 E2.
  constructor; [by rewrite E1|by apply IH].
Qed.

Lemma rationalize_received L cur shut N ba b nl fl app t :
  log_ok L cur shut N -> recv_inv ba b nl fl L app t ->
  exists oldest rest rest' f0, received_states t = oldest :: rest /\
    subtract_received (r_state oldest) rest = Ok rest' /\
    let l := MkReceived (r_timestamp oldest) (r_num oldest) (subtract_self (r_state oldest)) :: rest' in
    r_num <$> l = r_num <$> received_states t /\
    Forall (fun r => exists f, (r_num r, f) ∈ L /\ held f0 (r_state r) f) l.
Proof.
  intros HL [H1 H2 H3 H4 H5 H6 H7]. rewrite held_repr in H2. destruct (received_states t) as [|oldest rest]; [done|].
  apply StronglySorted_cons in H1 as [Ho Hs]. apply Forall_cons in H2 as [(f0 & Hf0 & Hr0) H2].
  destruct (subtract_received_spec b (r_state oldest) f0 rest Hr0) as (rest' & E & Hrest).
  { rewrite Forall_forall in H2, Ho |- *. intros r Hr. destruct (H2 r Hr) as (f & Hf & Hrf). exists f. split; [|done].
    apply (lo_mono _ _ _ _ HL _ _ _ _ Hf0 Hf). specialize (Ho r Hr). unfold older in Ho. lia. }
  exists oldest, rest, rest', f0. split; [done|]. split; [done|]. cbv zeta. split.
  { cbn. f_equal. clear -Hrest. induction Hrest as [|x y l l' [E _] _ IH]; [done|]. cbn. by rewrite E, IH. }
  apply held_repr. constructor; [cbn; exists f0; split; [done|by apply repr_subtract_self with b]|].
  apply Forall_lookup. intros i r' Hi. destruct (Forall2_lookup_r _ _ _ _ _ Hrest Hi) as (r & Hr & En & Hrep).
  rewrite Forall_lookup in H2, Ho. destruct (H2 i r Hr) as (f & Hf & Hrf). exists f. rewrite En. split; [done|].
  apply Hrep; [|done]. apply (lo_mono _ _ _ _ HL _ _ _ _ Hf0 Hf). specialize (Ho i r Hr). unfold older in Ho. lia.
Qed.

Lemma get_remote_diff_spec L cur shut N ba b nl fl app t :
  log_ok L cur shut N -> recv_inv ba b nl fl L app t ->
  exists d t' newest app' b' f, get_remote_diff t = Ok (d, t') /\
    last (received_states t) = Some newest /\
    (if decide (d = []) then Ok app else apply_string d app) = Ok app' /\
    recv_inv ba b' (r_num newest) f L app' t' /\ endpoint t' = endpoint t.
Proof.
  intros HL Hv. pose proof Hv as [H1 H2 H3 H4 H5 H6 H7]. rewrite held_repr in H2. rewrite read_back in H4.
  destruct (rationalize_received _ _ _ _ _ _ _ _ _ _ HL Hv) as (oldest & rest & rest' & f0 & El & Es & Hnums & Hst).
  set (l := MkReceived _ _ _ :: rest') in *.
  destruct (last (received_states t)) as [newest|] eqn:Elast; [|by apply last_None in Elast].
  rename H7 into Hba. specialize (H6 newest eq_refl).
  rewrite Forall_forall in H2. destruct (H2 newest) as (fn & Hfn & Hrn); [by apply last_Some_elem_of|].
  destruct (repr_diff _ _ _ _ _ Hrn H4) as (d & Ed & Hap).
  { by apply (lo_mono _ _ _ _ HL _ _ _ _ H5 Hfn). }
  destruct (Hap _ _ Hba) as (app' & Eapp & Happ').
  assert (Hll : exists x, last l = Some x /\ r_num x = r_num newest).
  { apply (f_equal last) in Hnums. rewrite !fmap_last, Elast in Hnums. destruct (last l) as [x|]; [|done].
    injection Hnums as Hx. eauto. }
  destruct Hll as (x & Ex & Hx). rewrite Forall_forall in Hst.
  destruct (Hst x) as (fx & Hfx & Hrx); [by apply last_Some_elem_of|]. rewrite Hx in Hfx.
  rewrite (lo_fun _ _ _ _ HL _ _ _ Hfx Hfn) in *.
  eexists d, _, newest, app', f0, fn. split; [|split; [done|split; [done|split]]].
  - unfold get_remote_diff. rewrite (M_bind_Ok _ _ t t t) by done. rewrite El in *. rewrite Elast.
    rewrite (M_bind_Ok _ _ t d t) by (unfold lift; by rewrite Ed).
    rewrite (M_bind_Ok _ _ t rest' t) by (unfold lift; by rewrite Es). fold l. reflexivity.
  - split; cbn [received_states last_receiver_state]; auto.
    + by apply (sorted_nums (received_states t)).
    + by apply Forall_forall.
    + cbn. by rewrite Ex.
    + intros r. cbn. fold l. rewrite Ex. intros [= <-]. lia.
  - done.
Qed.
End receiver.
