(* ===== verification/Ssp.v ===== *)
(** * Two transports over an unreliable network

    A client and a server run the protocol against each other.  The network
    may lose, delay, duplicate and reorder: an instruction once sent can be
    delivered at any later time, any number of times, or never.  The objects
    are any that keep the promises of Sync.v; SspSpec.v is about those of the
    program. *)
From stdpp Require Import sorting.
From S2P Require Export TransportSpec.

(** ** One side *)

(** A side with its transport, the document its application edits and the copy
    to which it applies the differences it gets. *)
Record Side (A R : Type) : Type := MkSide { transport : Transport A R; doc : A; copy : R }.
Arguments MkSide {A R} _ _ _.
Arguments transport {A R} _.
Arguments doc {A R} _.
Arguments copy {A R} _.
#[export] Instance eta_Side A R : Eta (Side A R) := fun s => MkSide (transport s) (doc s) (copy s).

Inductive side_op (A : Type) : Type :=
| SenderOp (op : sender_op (S := A))
| Deliver (now : Z) (k : nat)
| Query.
Arguments SenderOp {A} _.
Arguments Deliver {A} _ _.
Arguments Query {A}.

Section side.
Context {A R : Type} `{HA : SyncState A} `{HR : SyncState R} `{HAE : AE} `{HCodec : TransportCodec}.

(** [peer] is what the other side has sent so far. *)
Definition side_step (peer : list Instruction) (op : side_op A) (s : Side A R) : result fault (Side A R) :=
  match op with
  | SenderOp op =>
      '(_, e) ← run_op op (endpoint (transport s));
      Ok (s <| transport := (transport s) <| endpoint := e |> |> <| doc := edit op (doc s) |>)
  | Deliver now k =>
      match peer !! k with
      | None => Ok s
      | Some inst => '(_, t) ← recv_instruction now inst (transport s); Ok (s <| transport := t |>)
      end
  | Query =>
      '(d, t) ← get_remote_diff (transport s);
      x ← (if decide (d = []) then Ok (copy s) else apply_string d (copy s));
      Ok (s <| transport := t |> <| copy := x |>)
  end.

Definition sent (s : Side A R) : list Instruction := instructions (sender (endpoint (transport s))).
End side.

Section side_inv.
Context {A R : Type} `{HA : SyncState A} `{HR : SyncState R} `{HLA : !SyncLaws A} `{HDA : !DiffDetermined A}.
Context `{HLR : !SyncLaws R} `{HDR : !DiffDetermined R} `{HAE : AE} `{HCodec : TransportCodec} `{HCL : !TransportCodecLaws}.

Lemma recv_instruction_spec cur (L : log (S := A)) T (LR : log (S := R)) curR shutR NR ba b nl fl app
    (t : Transport A R) now inst :
  sinv cur L T (endpoint t) -> log_ok LR curR shutR NR -> recv_inv ba b nl fl LR app t -> inst_ok LR inst ->
  exists r t', recv_instruction now inst t = Ok (r, t') /\ sinv cur L T (endpoint t') /\
    recv_inv ba b nl fl LR app t' /\
    instructions (sender (endpoint t')) = instructions (sender (endpoint t)) /\
    shutdown_in_progress (sender (endpoint t')) = shutdown_in_progress (sender (endpoint t)).
Proof.
  intros Hs HL Hv Hok. unfold recv_instruction. rewrite (io_version _ _ Hok), Z.eqb_refl. cbn [negb].
  destruct (process_ack_inv cur L T (ack_num inst) (endpoint t) Hs) as (e1 & E1 & Hs1 & Hins1).
  assert (Hsd1 : shutdown_in_progress (sender e1) = shutdown_in_progress (sender (endpoint t))).
  { revert E1. clear. unfold on_sender, zoom, process_acknowledgment_through, mbind, M_bind, modify, get, assert_.
    destruct (existsb _ _), (negb _); intros [= <-]; done. }
  set (t1 := t <| endpoint := e1 |>).
  rewrite (X_bind_Ok _ _ t tt t1) by (unfold noexn, on_endpoint, zoom at 1; by rewrite E1).
  rewrite (X_bind_Ok _ _ t1 t1 t1) by done.
  assert (Hf : exists ts, get_sent_state_acked_timestamp (sender e1) = Ok ts).
  { destruct Hs1 as (b0 & a0 & Hi & _). pose proof (inv_length _ _ _ _ _ _ _ Hi) as Hlen.
    pose proof (i_len _ _ _ _ _ _ _ Hi). unfold get_sent_state_acked_timestamp, front.
    destruct (sent_states (sender e1)); [cbn in Hlen; lia|cbn; eauto]. }
  destruct Hf as (ts & Ets).
  rewrite (X_bind_Ok _ _ t1 ts t1) by (unfold noexn, lift; change (endpoint t1) with e1; by rewrite Ets).
  set (e2 := e1 <| conn := set_last_roundtrip_success ts (conn e1) |>). set (t2 := t1 <| endpoint := e2 |>).
  rewrite (X_bind_Ok _ _ t1 tt t2) by done. rewrite (X_bind_Ok _ _ t2 t2 t2) by done.
  assert (Hs2 : sinv cur L T e2).
  { apply conn_inv; [done|]. destruct Hs1 as (? & ? & _ & _ & Hc). by apply (conn_ok_key (conn e1)). }
  assert (Hv2 : recv_inv ba b nl fl LR app t2) by (by apply (recv_inv_fields _ _ _ _ _ _ t)).
  assert (Hdone : forall t', endpoint t' = e2 -> recv_inv ba b nl fl LR app t' ->
    sinv cur L T (endpoint t') /\ recv_inv ba b nl fl LR app t' /\
    instructions (sender (endpoint t')) = instructions (sender (endpoint t)) /\
    shutdown_in_progress (sender (endpoint t')) = shutdown_in_progress (sender (endpoint t))).
  { intros t' -> Hv'. split_and!; auto. }
  destruct (existsb _ _) eqn:Ex; [exists (Ok tt), t2; split; [done|]; by apply Hdone|].
  destruct (list_find _ _) as [[i ref]|] eqn:Ef; [|exists (Ok tt), t2; split; [done|]; by apply Hdone].
  apply list_find_Some in Ef as (Hi & Hnum & _). apply list_elem_of_lookup_2 in Hi.
  destruct (throwaway_inv LR ba b nl fl app t2 (throwaway_num inst) ref Hv2 Hi)
    as (t3 & E3 & Hv3 & Hi3 & He3 & Hsub).
  { rewrite Hnum. apply (io_throwaway _ _ Hok). }
  rewrite (X_bind_Ok _ _ t2 tt t3) by (unfold noexn; by rewrite E3).
  rewrite (X_bind_Ok _ _ t3 t3 t3) by done.
  destruct (_ && _); [exists (Ok tt), t3; split; [done|]; by apply Hdone|].
  set (t4 := if (1024 <? length (received_states t3))%nat
             then t3 <| receiver_quench_timer := u64 (now + 15000) |> else t3).
  rewrite (X_bind_Ok _ _ t3 tt t4) by (unfold t4; by destruct (1024 <? _)%nat).
  assert (Ht4 : received_states t4 = received_states t3 /\ last_receiver_state t4 = last_receiver_state t3 /\
    endpoint t4 = endpoint t3) by (unfold t4; by destruct (1024 <? _)%nat).
  destruct Ht4 as (Er & El & Ee).
  destruct (accept_inv LR curR shutR NR HL ba b nl fl app t4 inst now ref) as (t5 & E5 & Hv5 & f & He5 & Hker).
  { by apply (recv_inv_fields _ _ _ _ _ _ t3). } { done. } { by rewrite Er. } { done. }
  { rewrite Er. intros x Hx Heq. apply Hsub in Hx. apply list_elem_of_In in Hx.
    assert (Hex : existsb (fun r => r_num r =? new_num inst) (received_states t2) = true).
    { apply existsb_exists. exists x. split; [done|]. by apply Z.eqb_eq. }
    by rewrite Ex in Hex. }
  exists (Ok tt), t5. split; [unfold noexn; by rewrite E5|]. rewrite He5, Ee, He3. change (endpoint t2) with e2.
  specialize (Hker (sender e2)). pose proof Hker as Hk'. unfold kernel in Hk'. injection Hk' as _ _ _ Hk1 _ Hk2.
  split; [by apply (sinv_kernel cur L T e2)|]. split; [done|]. cbn. rewrite Hk1, Hk2. auto.
Qed.
End side_inv.

(** ** Both sides *)

Section half.
Context {A R : Type} `{HA : SyncState A} `{HR : SyncState R} `{HLA : !SyncLaws A} `{HDA : !DiffDetermined A}.
Context `{HAE : AE} `{HCodec : TransportCodec}.

(** One direction: [x] sends its document, [y] receives it. *)
Definition half (bd ba : meaning) (ops : list (sender_op (S := A))) (K : nat) (x : Side A R) (y : Side R A) : Prop :=
  exists cur L T shut b nl fl,
    running cur L T shut K (endpoint (transport x)) /\ ops_ok cur T shut ops /\ repr bd (doc x) cur /\
    recv_inv ba b nl fl L (copy y) (transport y).

Lemma running_more cur L T shut K K' (e : Endpoint A) : (K <= K')%nat -> running cur L T shut K e -> running cur L T shut K' e.
Proof. intros HK (H1 & H2 & H3). split_and!; auto. lia. Qed.

(** The receiving end of a direction is not touched by what only concerns the
    sender of its side. *)
Lemma half_receiver bd ba ops K K' x y y' :
  (K <= K')%nat -> received_states (transport y') = received_states (transport y) ->
  last_receiver_state (transport y') = last_receiver_state (transport y) -> copy y' = copy y ->
  half bd ba ops K x y -> half bd ba ops K' x y'.
Proof.
  intros HK E1 E2 E3 (cur & L & T & shut & b & nl & fl & H1 & H2 & H3 & H4).
  exists cur, L, T, shut, b, nl, fl. rewrite E3. split_and!; auto.
  - by apply (running_more _ _ _ _ K).
  - by apply (recv_inv_fields _ _ _ _ _ _ (transport y)).
Qed.
End half.

Section steps.
Context {A R : Type} `{HA : SyncState A} `{HR : SyncState R} `{HLA : !SyncLaws A} `{HDA : !DiffDetermined A}.
Context `{HLR : !SyncLaws R} `{HDR : !DiffDetermined R} `{HAE : AE} `{HCodec : TransportCodec} `{HCL : !TransportCodecLaws}.

Lemma side_step_sender bdA baA bdR baR op ops opsR K (x : Side A R) (y : Side R A) peer :
  half bdA baA (op :: ops) K x y -> half bdR baR opsR K y x -> Z.of_nat K < UINT64_MAX - 1 ->
  exists x', side_step peer (SenderOp op) x = Ok x' /\
    half bdA baA ops (Datatypes.S K) x' y /\ half bdR baR opsR (Datatypes.S K) y x'.
Proof.
  intros (cur & L & T & shut & b & nl & fl & Hrun & Hok & Hd & Hv) Hyx HK.
  destruct (run_op_safe cur L T shut K _ op ops Hrun Hok HK)
    as (r & e' & cur' & L' & T' & shut' & E & Hok' & Hrun' & HL & Hdoc).
  eexists. cbn [side_step]. rewrite E. cbn [mbind result_bind]. split; [reflexivity|]. split.
  - exists cur', L', T', shut', b, nl, fl. split; [exact Hrun'|]. split; [done|].
    split; [by apply Hdoc|by apply (recv_inv_mono _ _ _ _ L)].
  - apply (half_receiver bdR baR opsR K _ y x); auto.
Qed.

Lemma side_step_deliver bdA baA bdR baR ops opsR K (x : Side A R) (y : Side R A) now k :
  half bdA baA ops K x y -> half bdR baR opsR K y x ->
  exists x', side_step (sent y) (Deliver now k) x = Ok x' /\
    half bdA baA ops (Datatypes.S K) x' y /\ half bdR baR opsR (Datatypes.S K) y x'.
Proof.
  intros (cur & L & T & shut & b & nl & fl & (Hs & Hsd & Hlen) & Hok & Hd & Hv)
    (cur2 & L2 & T2 & shut2 & b2 & nl2 & fl2 & Hrun2 & Hok2 & Hd2 & Hv2).
  cbn [side_step]. destruct (sent y !! k) as [inst|] eqn:Ek.
  2:{ exists x. split; [done|]. split.
      - exists cur, L, T, shut, b, nl, fl. split_and!; auto. apply (running_more _ _ _ _ K); [lia|done].
      - exists cur2, L2, T2, shut2, b2, nl2, fl2. split_and!; auto. apply (running_more _ _ _ _ K); [lia|done]. }
  pose proof Hrun2 as ((b0 & a0 & Hi & _) & _). pose proof (i_insts _ _ _ _ _ _ _ Hi) as Hins.
  rewrite Forall_lookup in Hins. specialize (Hins k inst Ek).
  destruct (recv_instruction_spec cur L T L2 _ _ _ baR b2 nl2 fl2 (copy x) (transport x) now inst Hs
    (i_log _ _ _ _ _ _ _ Hi) Hv2 Hins) as (r & t' & E & Hs' & Hv' & Hin' & Hsd').
  rewrite E. cbn [mbind result_bind]. eexists. split; [reflexivity|]. split.
  - exists cur, L, T, shut, b, nl, fl. split_and!; auto. split; [done|]. cbn. rewrite Hsd', Hin'. split; [done|lia].
  - exists cur2, L2, T2, shut2, b2, nl2, fl2. split_and!; auto. apply (running_more _ _ _ _ K); [lia|done].
Qed.

(** Only a receiver that can read back what it holds asks for differences. *)
Lemma side_step_query `{HRB : !ReadBack R} bdA baA bdR baR ops opsR K (x : Side A R) (y : Side R A) peer :
  half bdA baA ops K x y -> half bdR baR opsR K y x ->
  exists x', side_step peer Query x = Ok x' /\
    half bdA baA ops (Datatypes.S K) x' y /\ half bdR baR opsR (Datatypes.S K) y x'.
Proof.
  intros (cur & L & T & shut & b & nl & fl & (Hs & Hsd & Hlen) & Hok & Hd & Hv)
    (cur2 & L2 & T2 & shut2 & b2 & nl2 & fl2 & Hrun2 & Hok2 & Hd2 & Hv2).
  pose proof Hrun2 as ((b0 & a0 & Hi & _) & _).
  destruct (get_remote_diff_spec L2 _ _ _ baR b2 nl2 fl2 (copy x) (transport x) (i_log _ _ _ _ _ _ _ Hi) Hv2)
    as (d & t' & newest & app' & b' & f & E & _ & Eapp & Hv' & He).
  cbn [side_step]. rewrite E. cbn [mbind result_bind]. rewrite Eapp. cbn [mbind result_bind].
  eexists. split; [reflexivity|]. split.
  - exists cur, L, T, shut, b, nl, fl. split_and!; auto. apply (running_more _ _ _ _ K); [lia|]. cbn. by rewrite He.
  - exists cur2, L2, T2, shut2, b', (r_num newest), f. split_and!; auto. apply (running_more _ _ _ _ K); [lia|done].
Qed.

(** The sender operations among the steps of a side. *)
Definition sender_ops (ops : list (side_op A)) : list (sender_op (S := A)) :=
  omap (fun op => match op with SenderOp op => Some op | _ => None end) ops.

Definition is_query (op : side_op A) : bool := match op with Query => true | _ => false end.

Lemma side_step_spec bdA baA bdR baR op ops opsR K (x : Side A R) (y : Side R A) :
  (is_query op = true -> ReadBack R) ->
  half bdA baA (sender_ops (op :: ops)) K x y -> half bdR baR opsR K y x -> Z.of_nat K < UINT64_MAX - 1 ->
  exists x', side_step (sent y) op x = Ok x' /\
    half bdA baA (sender_ops ops) (Datatypes.S K) x' y /\ half bdR baR opsR (Datatypes.S K) y x'.
Proof.
  intros HQ H1 H2 HK. destruct op as [op|now k|].
  - by apply side_step_sender.
  - by apply side_step_deliver.
  - specialize (HQ eq_refl). by apply side_step_query.
Qed.
End steps.

(** ** The system *)

Record System (A B : Type) : Type := MkSystem { client : Side A B; host : Side B A }.
Arguments MkSystem {A B} _ _.
Arguments client {A B} _.
Arguments host {A B} _.

Inductive sys_op (A B : Type) : Type := AtClient (op : side_op A) | AtHost (op : side_op B).
Arguments AtClient {A B} _.
Arguments AtHost {A B} _.

Definition client_ops {A B} (ops : list (sys_op A B)) : list (side_op A) :=
  omap (fun op => match op with AtClient op => Some op | AtHost _ => None end) ops.
Definition host_ops {A B} (ops : list (sys_op A B)) : list (side_op B) :=
  omap (fun op => match op with AtHost op => Some op | AtClient _ => None end) ops.

Section system.
Context {A B : Type} `{HA : SyncState A} `{HB : SyncState B} `{HAE : AE} `{HCodec : TransportCodec}.

Definition sys_step (op : sys_op A B) (s : System A B) : result fault (System A B) :=
  match op with
  | AtClient op => x ← side_step (sent (host s)) op (client s); Ok (MkSystem x (host s))
  | AtHost op => y ← side_step (sent (client s)) op (host s); Ok (MkSystem (client s) y)
  end.

Fixpoint run_system (ops : list (sys_op A B)) (s : System A B) : result fault (System A B) :=
  match ops with
  | [] => Ok s
  | op :: ops' => s' ← sys_step op s; run_system ops' s'
  end.

(** Both sides start from the same pair of objects. *)
Definition system_new (now : Z) (c1 c2 : Connection) (x : A) (y : B) : System A B :=
  MkSystem (MkSide (Transport_new now c1 x y) x y) (MkSide (Transport_new now c2 y x) y x).
End system.

Section ssp.
Context {A B : Type} `{HA : SyncState A} `{HB : SyncState B} `{HLA : !SyncLaws A} `{HDA : !DiffDetermined A}.
Context `{HLB : !SyncLaws B} `{HDB : !DiffDetermined B} `{HAE : AE} `{HCodec : TransportCodec} `{HCL : !TransportCodecLaws}.

(** An application asks for differences only of objects that can be read back. *)
Definition queried (op : sys_op A B) : Prop :=
  match op with
  | AtClient op => is_query op = true -> ReadBack B
  | AtHost op => is_query op = true -> ReadBack A
  end.
Definition queries_ok (ops : list (sys_op A B)) : Prop := Forall queried ops.

Definition sys_inv (b1 : meaning (S := A)) (b2 : meaning (S := B)) (ops : list (sys_op A B)) (K : nat)
    (s : System A B) : Prop :=
  half (A := A) (R := B) b1 b1 (sender_ops (client_ops ops)) K (client s) (host s) /\
  half (A := B) (R := A) b2 b2 (sender_ops (host_ops ops)) K (host s) (client s).

Lemma sys_step_spec b1 b2 op ops K s :
  queries_ok [op] -> sys_inv b1 b2 (op :: ops) K s -> Z.of_nat K < UINT64_MAX - 1 ->
  exists s', sys_step op s = Ok s' /\ sys_inv b1 b2 ops (Datatypes.S K) s'.
Proof.
  intros [HQ _]%Forall_cons [H1 H2] HK. destruct op as [op|op]; cbn [sys_step queried] in *.
  - destruct (side_step_spec (A := A) (R := B) b1 b1 b2 b2 op (client_ops ops) _ K (client s) (host s) HQ H1 H2 HK)
      as (x & E & H1' & H2').
    rewrite E. cbn. eexists. split; [reflexivity|]. by split.
  - destruct (side_step_spec (A := B) (R := A) b2 b2 b1 b1 op (host_ops ops) _ K (host s) (client s) HQ H2 H1 HK)
      as (y & E & H2' & H1').
    rewrite E. cbn. eexists. split; [reflexivity|]. by split.
Qed.

Lemma run_system_spec b1 b2 ops : forall K s,
  queries_ok ops -> sys_inv b1 b2 ops K s -> Z.of_nat (K + length ops) < UINT64_MAX ->
  exists s', run_system ops s = Ok s' /\ sys_inv b1 b2 [] (K + length ops) s'.
Proof.
  induction ops as [|op ops IH]; intros K s HQ Hi HK; cbn [run_system length].
  { exists s. by rewrite Nat.add_0_r. }
  apply Forall_cons in HQ as [HQ1 HQ]. cbn [length] in HK.
  destruct (sys_step_spec b1 b2 op ops K s ltac:(by apply Forall_singleton) Hi ltac:(lia)) as (s1 & E & Hi1).
  rewrite E. cbn [mbind result_bind]. replace (K + Datatypes.S (length ops))%nat with (Datatypes.S K + length ops)%nat by lia.
  apply IH; [done|done|lia].
Qed.
End ssp.

(** ** What a direction guarantees *)

Section direction.
Context {A R : Type} `{HA : SyncState A} `{HR : SyncState R} `{HLA : !SyncLaws A} `{HDA : !DiffDetermined A}.
Context `{HAE : AE} `{HCodec : TransportCodec}.

Lemma half_new b ops now c1 c2 (x : A) (y : R) f :
  0 <= now -> conn_ok c1 -> repr b x f -> held b x f -> ops_ok f now false ops ->
  half b b ops 0 (MkSide (Transport_new now c1 x y) x y) (MkSide (Transport_new now c2 y x) y x).
Proof.
  intros Hnow Hc Hx Hh Hops. exists f, [(0, f)], now, false, b, 0, f. split_and!; auto.
  - split; [by apply (sinv_new now c1 b x f)|]. cbn. split; [done|lia].
  - split; cbn; auto.
    + repeat constructor.
    + apply Forall_singleton. exists f. split; [apply list_elem_of_here|done].
    + apply list_elem_of_here.
    + intros r [= <-]. cbn. lia.
Qed.

(** What the receiver's application has applied shows a meaning that the
    document of the sender can follow. *)
Lemma half_copy b ops K (x : Side A R) (y : Side R A) :
  half b b ops K x y -> exists f g, held b (copy y) f /\ repr b (doc x) g /\ prec f g.
Proof.
  intros (cur & L & T & shut & b' & nl & fl & ((b0 & a0 & Hi & _) & _) & _ & Hd & Hv). exists fl, cur.
  split; [apply (v_app _ _ _ _ _ _ _ Hv)|]. split; [done|].
  by apply (lo_cur _ _ _ _ (i_log _ _ _ _ _ _ _ Hi) nl), (v_lastlog _ _ _ _ _ _ _ Hv).
Qed.

(** So does the last state it received. *)
Lemma half_latest b ops K (x : Side A R) (y : Side R A) :
  half b b ops K x y ->
  exists r b' f g, get_latest_remote_state (transport y) = Ok r /\ held b' (r_state r) f /\ repr b (doc x) g /\ prec f g.
Proof.
  intros (cur & L & T & shut & b' & nl & fl & ((b0 & a0 & Hi & _) & _) & _ & Hd & Hv).
  pose proof (v_states _ _ _ _ _ _ _ Hv) as Hst. rewrite Forall_forall in Hst. unfold get_latest_remote_state.
  destruct (last (received_states (transport y))) as [r|] eqn:Er.
  2:{ apply last_None in Er. by destruct (v_nonempty _ _ _ _ _ _ _ Hv). }
  destruct (Hst r ltac:(by apply last_Some_elem_of)) as (f & Hf & Hr). exists r, b', f, cur. split_and!; auto.
  by apply (lo_cur _ _ _ _ (i_log _ _ _ _ _ _ _ Hi) (r_num r)).
Qed.

(** The sender has nothing left to send and its last state has arrived. *)
Definition caught_up (x : Side A R) (y : Side R A) : bool :=
  match last (sent_states (sender (endpoint (transport x)))), last (received_states (transport y)) with
  | Some n, Some r => (r_num r =? num n) && state_eqb (current_state (sender (endpoint (transport x)))) (state n)
  | _, _ => false
  end.

Lemma last_repr b a cur L N T (s : TransportSender A) n :
  inv_at b a cur L N T s -> last (sent_states s) = Some n ->
  exists f, repr b (state n) f /\ (num n, f) ∈ L.
Proof.
  intros Hi Hn. pose proof (i_repr _ _ _ _ _ _ _ Hi) as Hr. pose proof (i_nodes _ _ _ _ _ _ _ Hi) as Hl.
  rewrite last_lookup in Hn. destruct (Forall2_lookup_l _ _ _ _ _ Hr Hn) as (m & Hm & _ & _ & En & Hrep).
  rewrite Forall_lookup in Hl. destruct (Hl _ _ Hm) as (_ & _ & Hin). exists (m_full m). by rewrite En.
Qed.

(** The number of the last state sent then stands for the document. *)
Lemma caught_up_num b a cur L N T (x : Side A R) (y : Side R A) r f :
  inv_at b a cur L N T (sender (endpoint (transport x))) -> caught_up x y = true ->
  last (received_states (transport y)) = Some r -> (r_num r, f) ∈ L -> same f cur.
Proof.
  intros Hi Hc Hr Hf. unfold caught_up in Hc. rewrite Hr in Hc.
  destruct (last (sent_states _)) as [n|] eqn:En; [|done]. apply andb_true_iff in Hc as [Hnum%Z.eqb_eq Heq].
  destruct (last_repr _ _ _ _ _ _ _ _ Hi En) as (g & Hg & Hin). pose proof (i_log _ _ _ _ _ _ _ Hi) as HL.
  rewrite Hnum in Hf. rewrite (lo_fun _ _ _ _ HL _ _ _ Hf Hin).
  apply (repr_eqb _ _ _ _ _ (i_cur _ _ _ _ _ _ _ Hi) Hg); [by apply (lo_cur _ _ _ _ HL (num n))|done].
Qed.

(** The last state received then shows the document. *)
Lemma latest_caught_up b ops K (x : Side A R) (y : Side R A) :
  half b b ops K x y -> caught_up x y = true ->
  exists r b' f, get_latest_remote_state (transport y) = Ok r /\ held b' (r_state r) f /\ repr b (doc x) f.
Proof.
  intros (cur & L & T & shut & b' & nl & fl & ((b0 & a0 & Hi & _) & _) & _ & Hd & Hv) Hc.
  pose proof (v_states _ _ _ _ _ _ _ Hv) as Hst. rewrite Forall_forall in Hst. unfold get_latest_remote_state.
  destruct (last (received_states (transport y))) as [r|] eqn:Er.
  2:{ apply last_None in Er. by destruct (v_nonempty _ _ _ _ _ _ _ Hv). }
  destruct (Hst r ltac:(by apply last_Some_elem_of)) as (f & Hf & Hr). exists r, b', cur. split_and!; auto.
  apply held_same with f; [by apply (caught_up_num _ _ _ _ _ _ x y r f Hi Hc)|done].
Qed.

(** A query after the last state arrived brings the copy to the document. *)
Lemma query_caught_up `{HRB : !ReadBack A} b ops K (x : Side A R) (y : Side R A) peer :
  half b b ops K x y -> caught_up x y = true ->
  exists y', side_step peer Query y = Ok y' /\ exists f, held b (copy y') f /\ repr b (doc x) f.
Proof.
  intros (cur & L & T & shut & b' & nl & fl & ((b0 & a0 & Hi & _) & _) & _ & Hd & Hv) Hc.
  destruct (get_remote_diff_spec L _ _ _ b b' nl fl (copy y) (transport y) (i_log _ _ _ _ _ _ _ Hi) Hv)
    as (d & t' & newest & app' & b2 & f & E & Hlast & Eapp & Hv' & He).
  cbn [side_step]. rewrite E. cbn [mbind result_bind]. rewrite Eapp. cbn [mbind result_bind].
  eexists. split; [reflexivity|]. exists cur. split; [|done].
  apply held_same with f; [|apply (v_app _ _ _ _ _ _ _ Hv')].
  apply (caught_up_num _ _ _ _ _ _ x y newest f Hi Hc Hlast), (v_lastlog _ _ _ _ _ _ _ Hv').
Qed.
End direction.

(** ** Runs *)

(** The edits a list of sender operations makes, on a document of its own. *)
Definition edits {A} (ops : list (sender_op (S := A))) (d : A) : A := foldl (fun d op => edit op d) d ops.

Section run.
Context {A B : Type} `{HA : SyncState A} `{HB : SyncState B} `{HLA : !SyncLaws A} `{HDA : !DiffDetermined A}.
Context `{HLB : !SyncLaws B} `{HDB : !DiffDetermined B} `{HAE : AE} `{HCodec : TransportCodec} `{HCL : !TransportCodecLaws}.

Lemma side_step_doc {C D} `{SyncState C, SyncState D} peer (op : side_op C) (x x' : Side C D) :
  side_step peer op x = Ok x' -> doc x' = match op with SenderOp o => edit o (doc x) | _ => doc x end.
Proof.
  unfold side_step. destruct op as [o|now k|].
  - destruct (run_op _ _) as [[r e]|]; [|done]. by intros [= <-].
  - destruct (peer !! k); [|by intros [= <-]]. destruct (recv_instruction _ _ _) as [[r t]|]; [|done].
    by intros [= <-].
  - destruct (get_remote_diff _) as [[d t]|]; [|done]. cbn. destruct (if decide _ then _ else _); [|done].
    by intros [= <-].
Qed.

Lemma run_system_docs ops : forall (s s' : System A B),
  run_system ops s = Ok s' ->
  doc (client s') = edits (sender_ops (client_ops ops)) (doc (client s)) /\
  doc (host s') = edits (sender_ops (host_ops ops)) (doc (host s)).
Proof.
  induction ops as [|op ops IH]; intros s s'; cbn [run_system]; [by intros [= <-]|].
  destruct op as [op|op]; cbn [sys_step]; (destruct (side_step _ _ _) as [x|] eqn:E; [|done]); cbn [mbind result_bind];
    intros [H1 H2]%IH; apply side_step_doc in E; rewrite H1, H2; cbn; rewrite E; by destruct op.
Qed.

(** Two sides that start together run without a fault. *)
Lemma system_inv b1 b2 now c1 c2 (x : A) (y : B) f g ops :
  repr b1 x f -> held b1 x f -> repr b2 y g -> held b2 y g -> conn_ok c1 -> conn_ok c2 -> 0 <= now ->
  ops_ok f now false (sender_ops (client_ops ops)) -> ops_ok g now false (sender_ops (host_ops ops)) ->
  queries_ok ops -> Z.of_nat (length ops) < UINT64_MAX ->
  exists s K, run_system ops (system_new now c1 c2 x y) = Ok s /\ sys_inv b1 b2 [] K s /\
    doc (client s) = edits (sender_ops (client_ops ops)) x /\ doc (host s) = edits (sender_ops (host_ops ops)) y.
Proof.
  intros Hx Hx' Hy Hy' Hc1 Hc2 Hnow H1 H2 HQ Hlen.
  destruct (run_system_spec b1 b2 ops 0 (system_new now c1 c2 x y) HQ) as (s & E & Hs); [|done|].
  { split; [by apply (half_new _ _ _ _ _ _ _ f)|by apply (half_new _ _ _ _ _ _ _ g)]. }
  exists s, (0 + length ops)%nat. split; [done|]. split; [done|]. by apply (run_system_docs _ _ _ E).
Qed.
End run.

(** An authenticated peer that does not follow the protocol can name a
    reference state which it asks in the same instruction to throw away:
    [Transport::recv] then reads the erased list node.  The instructions of
    [TransportSender] never do ([io_throwaway]). *)
Example recv_reads_erased_reference :
  let instruction old new throwaway := MkInstruction MOSH_PROTOCOL_VERSION old new 0 throwaway [] [] in
  let t0 := Transport_new (A := UserStream) (B := UserStream) 1000 sample_conn [] [] in
  exists t1, recv_instruction 1010 (instruction 0 1 0) t0 = Ok (Ok tt, t1) /\
    recv_instruction 1020 (instruction 0 2 1) t1 = Err Undefined.
Proof. eexists. vm_compute. split; reflexivity. Qed.
