(* ===== verification/Display.v ===== *)
(** * Differences of two frames (mosh/src/terminal/terminaldisplay*.{h,cc})

    [Display::new_frame] writes the control sequences that take a terminal
    showing one frame to another.  Row objects are shared between frames; the
    source skips a row whose object did not change, so the frames come with
    the addresses of their row objects. *)
From S2P Require Export Framebuffer.

(** ** Frame state *)

(** [last_frame] is the argument [last] of the functions that read it. *)
Record FrameState : Type := MkFrameState {
  fs_str : bytes; cursor_x : Z; cursor_y : Z;
  current_rendition : Renditions; current_hyperlink : Hyperlink; fs_cursor_visible : bool }.
#[export] Instance eta_FrameState : Eta FrameState :=
  fun f => MkFrameState (fs_str f) (cursor_x f) (cursor_y f) (current_rendition f)
             (current_hyperlink f) (fs_cursor_visible f).

Definition initial_rendition : Renditions := Renditions_new 0.

Definition FrameState_new (last : Framebuffer) : FrameState :=
  MkFrameState [] 0 0 (Renditions_new 0) Hyperlink_empty (cursor_visible (ds last)).

Definition append (s : bytes) (f : FrameState) : FrameState := f <| fs_str := fs_str f ++ s |>.
(** [append( size_t, char )]. *)
Definition append_n (n c : Z) (f : FrameState) : FrameState := append (replicate (Z.to_nat n) c) f.
(** [append( wchar_t )] for each character of a title. *)
Fixpoint append_chars (t : list Z) (f : FrameState) : result fault FrameState :=
  match t with
  | [] => Ok f
  | c :: t' => s ← append_to_str (fs_str f) c; append_chars t' (f <| fs_str := s |>)
  end.
Definition append_cell (c : Cell) (f : FrameState) : FrameState :=
  f <| fs_str := print_grapheme c (fs_str f) |>.

Definition append_move (y x : Z) (f : FrameState) : FrameState :=
  let last_x := cursor_x f in
  let last_y := cursor_y f in
  let f := f <| cursor_x := x |> <| cursor_y := y |> in
  let known := negb (last_x =? -1) && negb (last_y =? -1) in
  if known && (x =? 0) && (0 <=? y - last_y) && (y - last_y <? 5) then
    append_n (y - last_y) 10 (if negb (last_x =? 0) then append [13] f else f)
  else if known && (y =? last_y) && (x - last_x <? 0) && (-5 <? x - last_x) then
    append_n (last_x - x) 8 f
  else append (snprintf 64 (27 :: str "[" ++ dec (y + 1) ++ str ";" ++ dec (x + 1) ++ str "H")) f.

Definition append_silent_move (y x : Z) (f : FrameState) : FrameState :=
  if (cursor_x f =? x) && (cursor_y f =? y) then f else
  append_move y x
    (if fs_cursor_visible f then (append (27 :: str "[?25l") f) <| fs_cursor_visible := false |> else f).

Definition update_rendition (r : Renditions) (force : bool) (f : FrameState) : FrameState :=
  if force || negb (bool_decide (current_rendition f = r))
  then (append (sgr r) f) <| current_rendition := r |> else f.

Definition update_hyperlink (h : Hyperlink) (force : bool) (f : FrameState) : FrameState :=
  if force || negb (Hyperlink_eqb (current_hyperlink f) h)
  then (append (osc8 h) f) <| current_hyperlink := h |> else f.

(** ** The display *)

Record Display : Type := MkDisplay {
  has_ech : bool; has_bce : bool; has_title : bool; smcup : option bytes; rmcup : option bytes }.

(** What [setupterm], [tigetstr], [tigetflag] and [getenv] answer; a string
    capability is absent, a string, or invalid, which throws. *)
Inductive capability (A : Type) : Type := Cap (a : A) | InvalidCap.
Arguments Cap {A} a.
Arguments InvalidCap {A}.
Record TerminfoEnv : Type := MkTerminfoEnv {
  setupterm_ok : bool;
  ti_ech : capability (option bytes); ti_bce : capability bool;
  term_type : option bytes; no_term_init : bool;
  ti_smcup : capability (option bytes); ti_rmcup : capability (option bytes) }.

Definition title_term_types : list bytes :=
  str <$> ["xterm"; "rxvt"; "kterm"; "Eterm"; "alacritty"; "screen"; "tmux"]%string.

Definition Display_default : Display := MkDisplay true true true None None.

(** The constructor; [None] is an exception. *)
Definition Display_new (use_environment : option TerminfoEnv) : option Display :=
  match use_environment with
  | None => Some Display_default
  | Some env =>
      if negb (setupterm_ok env) then None else
      match ti_ech env, ti_bce env with
      | Cap ech, Cap bce =>
          let title := match term_type env with
                       | None => false
                       | Some t => existsb (fun p => bool_decide (take (length p) t = p)) title_term_types
                       end in
          let has_ech := match ech with Some _ => true | None => false end in
          if no_term_init env then Some (MkDisplay has_ech bce title None None)
          else match ti_smcup env, ti_rmcup env with
               | Cap s, Cap r => Some (MkDisplay has_ech bce title s r)
               | _, _ => None
               end
      | _, _ => None
      end
  end.

Definition display_open (d : Display) : bytes := default [] (smcup d) ++ 27 :: str "[?1h".
Definition display_close (d : Display) : bytes :=
  27 :: str "[?1l" ++ 27 :: str "[0m" ++ 27 :: str "[?25h" ++ 27 :: str "[?1003l" ++ 27 :: str "[?1002l"
    ++ 27 :: str "[?1001l" ++ 27 :: str "[?1000l" ++ 27 :: str "[?1015l" ++ 27 :: str "[?1006l"
    ++ 27 :: str "[?1005l" ++ default [] (rmcup d).

(** ** One row *)

Definition can_use_erase (d : Display) (f : FrameState) : bool :=
  has_bce d || (bool_decide (current_rendition f = initial_rendition)
                && match current_hyperlink f with None => true | Some _ => false end).

(** The variables of the loop of [put_row]. *)
Record RowState : Type := MkRowState {
  frame_x : Z; clear_count : Z; wrote_last_cell : bool;
  blank_renditions : Renditions; blank_hyperlink : Hyperlink; rs_frame : FrameState }.
#[export] Instance eta_RowState : Eta RowState :=
  fun p => MkRowState (frame_x p) (clear_count p) (wrote_last_cell p) (blank_renditions p)
             (blank_hyperlink p) (rs_frame p).

(** The pending blanks before [frame_x], when the row goes on. *)
Definition clear_cells (d : Display) (frame_y : Z) (p : RowState) : FrameState :=
  let f := append_silent_move frame_y (frame_x p - clear_count p) (rs_frame p) in
  let f := update_rendition (blank_renditions p) false f in
  let f := update_hyperlink (blank_hyperlink p) false f in
  if can_use_erase d f && has_ech d && (4 <? clear_count p)
  then append (snprintf 64 (27 :: str "[" ++ dec (clear_count p) ++ str "X")) f
  else (append_n (clear_count p) 32 f) <| cursor_x := frame_x p |>.

(** A character cell at [frame_x]. *)
Definition draw_cell_at (frame_y row_width : Z) (wrap_this : bool) (cell : Cell) (p : RowState) : RowState :=
  let cell_width := get_width_cell cell in
  let f := rs_frame p in
  let f := if wrap_this && (row_width <=? frame_x p + cell_width)
           then f <| cursor_x := -1 |> <| cursor_y := -1 |> else f in
  let f := append_silent_move frame_y (frame_x p) f in
  let f := update_rendition (cell_renditions cell) false f in
  let f := update_hyperlink (cell_hyperlink cell) false f in
  let f := append_cell cell f in
  let f := f <| cursor_x := cursor_x f + cell_width |> in
  let p := p <| frame_x := frame_x p + cell_width |> <| rs_frame := f |> in
  if row_width <=? frame_x p then p <| wrote_last_cell := true |> else p.

(** One iteration of the loop. *)
Definition put_step (d : Display) (initialized : bool) (frame_y row_width : Z) (wrap_this : bool)
    (cells old_cells : list Cell) (p : RowState) : result fault RowState :=
  cell ← at_ cells (frame_x p);
  unchanged ← (if initialized && (clear_count p =? 0)
               then old ← at_ old_cells (frame_x p); Ok (bool_decide (cell = old)) else Ok false);
  if (unchanged : bool) then Ok (p <| frame_x := frame_x p + get_width_cell cell |>) else
  let p := if Cell_empty cell && (clear_count p =? 0)
           then p <| blank_renditions := cell_renditions cell |> <| blank_hyperlink := cell_hyperlink cell |>
           else p in
  if Cell_empty cell && bool_decide (cell_renditions cell = blank_renditions p)
     && Hyperlink_eqb (cell_hyperlink cell) (blank_hyperlink p)
  then Ok (p <| clear_count := clear_count p + 1 |> <| frame_x := frame_x p + 1 |>) else
  let pending := negb (clear_count p =? 0) in
  let p := if pending then p <| rs_frame := clear_cells d frame_y p |> <| clear_count := 0 |> else p in
  if pending && Cell_empty cell
  then Ok (p <| blank_renditions := cell_renditions cell |> <| blank_hyperlink := cell_hyperlink cell |>
             <| clear_count := 1 |> <| frame_x := frame_x p + 1 |>)
  else Ok (draw_cell_at frame_y row_width wrap_this cell p).

(** Every iteration advances [frame_x], so the columns left are enough fuel. *)
Fixpoint put_loop (fuel : nat) (d : Display) (initialized : bool) (frame_y row_width : Z) (wrap_this : bool)
    (cells old_cells : list Cell) (p : RowState) : result fault RowState :=
  if negb (frame_x p <? row_width) then Ok p else
  match fuel with
  | O => Err Undefined
  | S fuel' =>
      p ← put_step d initialized frame_y row_width wrap_this cells old_cells p;
      put_loop fuel' d initialized frame_y row_width wrap_this cells old_cells p
  end.

(** The end of the line: pending blanks, and the way to the next row. *)
Definition clear_to_end (d : Display) (frame_y : Z) (wrap_this : bool) (p : RowState) : RowState :=
  if clear_count p =? 0 then p else
  let f := append_silent_move frame_y (frame_x p - clear_count p) (rs_frame p) in
  let f := update_rendition (blank_renditions p) false f in
  let f := update_hyperlink (blank_hyperlink p) false f in
  if can_use_erase d f && negb wrap_this then p <| rs_frame := append (27 :: str "[K") f |>
  else p <| rs_frame := (append_n (clear_count p) 32 f) <| cursor_x := frame_x p |> |>
         <| wrote_last_cell := true |>.

Definition end_row (frame_y height : Z) (wrap_this : bool) (p : RowState) : bool * FrameState :=
  let f := rs_frame p in
  if negb (wrote_last_cell p && (frame_y <? height - 1)) then (false, f)
  else if wrap_this then (true, f <| cursor_x := 0 |> <| cursor_y := cursor_y f + 1 |>)
  else (false, (append [13; 10] f) <| cursor_x := 0 |> <| cursor_y := cursor_y f + 1 |>).

(** A row object of a frame: its address, 0 for one that no other frame
    holds, and its value. *)
Notation row_pointer := (Z * Row)%type (only parsing).
Definition same_object (x y : row_pointer) : bool := (x.1 =? y.1) && negb (x.1 =? 0).

(** The first cell of a row reached by wrapping around. *)
Definition put_wrapped (cell : Cell) (f : FrameState) : FrameState :=
  let f := update_rendition (cell_renditions cell) false f in
  let f := update_hyperlink (cell_hyperlink cell) false f in
  let f := append_cell cell f in
  f <| cursor_x := cursor_x f + get_width_cell cell |>.

Definition put_row (d : Display) (initialized : bool) (f : Framebuffer) (frame_y : Z) (row old_row : row_pointer)
    (wrap : bool) (frame : FrameState) : result fault (bool * FrameState) :=
  '(frame_x, frame) ← (if wrap
    then cell ← at_ (cells row.2) 0; Ok (get_width_cell cell, put_wrapped cell frame)
    else Ok (0, frame));
  if initialized && same_object row old_row then Ok (false, frame) else
  wrap_this ← Row_get_wrap row.2;
  let row_width := width (ds f) in
  p ← put_loop (Z.to_nat (row_width - frame_x)) d initialized frame_y row_width wrap_this
        (cells row.2) (cells old_row.2)
        (MkRowState frame_x 0 false initial_rendition Hyperlink_empty frame);
  Ok (end_row frame_y (height (ds f)) wrap_this (clear_to_end d frame_y wrap_this p)).

(** ** A frame *)

Definition title_part (d : Display) (initialized : bool) (last f : Framebuffer) (frame : FrameState)
  : result fault FrameState :=
  if has_title d && title_initialized f
     && (negb initialized || negb (bool_decide (icon_name f = icon_name last))
         || negb (bool_decide (window_title f = window_title last))) then
    if bool_decide (icon_name f = window_title f) then
      frame ← append_chars (window_title f) (append (27 :: str "]0;") frame);
      Ok (append [7] frame)
    else
      frame ← append_chars (icon_name f) (append (27 :: str "]1;") frame);
      frame ← append_chars (window_title f) (append (27 :: str "]2;") (append [7] frame));
      Ok (append [7] frame)
  else Ok frame.

Definition clipboard_part (last f : Framebuffer) (frame : FrameState) : result fault FrameState :=
  if bool_decide (clipboard f = clipboard last) then Ok frame else
  frame ← append_chars (clipboard f) (append (27 :: str "]52;c;") frame);
  Ok (append [7] frame).

(** Bell, titles, clipboard, reverse video. *)
Definition frame_head (d : Display) (initialized : bool) (last f : Framebuffer) : result fault FrameState :=
  let frame := FrameState_new last in
  let frame := if bell_count f =? bell_count last then frame else append [7] frame in
  frame ← title_part d initialized last f frame;
  frame ← clipboard_part last f frame;
  Ok (if negb initialized || negb (Bool.eqb (reverse_video (ds f)) (reverse_video (ds last)))
      then append (27 :: str "[?5" ++ (if reverse_video (ds f) then str "h" else str "l")) frame else frame).

(** A change of size clears the screen; the new value of [initialized]. *)
Definition frame_size (initialized : bool) (last f : Framebuffer) (frame : FrameState) : bool * FrameState :=
  if negb initialized || negb (width (ds f) =? width (ds last)) || negb (height (ds f) =? height (ds last)) then
    let frame := append (27 :: str "[r" ++ 27 :: str "[0m" ++ 27 :: str "[H" ++ 27 :: str "[2J") frame in
    let frame := frame <| cursor_x := 0 |> <| cursor_y := 0 |> <| current_rendition := initial_rendition |>
                       <| current_hyperlink := Hyperlink_empty |> in
    (false, append (27 :: str "[?25l") (frame <| fs_cursor_visible := false |>))
  else
    (true, frame <| cursor_x := cursor_col (ds last) |> <| cursor_y := cursor_row (ds last) |>
                 <| current_rendition := ds_renditions (ds last) |>
                 <| current_hyperlink := ds_hyperlink (ds last) |>).

(** The objects of a frame's rows; an address beyond the list is 0. *)
Definition row_pointers (addrs : list Z) (f : Framebuffer) : list row_pointer :=
  imap (fun i r => (default 0 (addrs !! i), r)) (rows f).

(** The old rows at the new size; the rows that are copied or added are new
    objects.  [Row( w, c )] draws a generation number, [g]. *)
Definition extend_rows (last f : Framebuffer) (g : Z) (rs : list row_pointer) : list row_pointer :=
  let rs := if width (ds last) <? width (ds f)
            then (fun p : row_pointer => (0, p.2 <| cells := list.resize (Z.to_nat (width (ds f)))
                    (Cell_new (get_background_rendition (ds f))) (cells p.2) |>)) <$> rs
            else rs in
  if lenZ rs <? height (ds f) then list.resize (Z.to_nat (height (ds f))) (0, Row_new (width (ds f)) 0 g) rs else rs.

(** How many rows of the new frame from [region_height] on match the old rows
    [lines_scrolled] below, for at most [n] rows; the count so far is [acc]. *)
Fixpoint region_matches (n : nat) (frows : list Row) (rs : list row_pointer) (lines_scrolled region_height acc : Z)
  : result fault Z :=
  match n with
  | O => Ok acc
  | S n' =>
      r ← at_ frows region_height;
      o ← at_ rs (lines_scrolled + region_height);
      if bool_decide (r = o.2)
      then region_matches n' frows rs lines_scrolled (region_height + 1) (region_height + 1) else Ok acc
  end.

(** The search for the new first row among the old ones from [row] on. *)
Fixpoint find_scroll (n : nat) (frows : list Row) (rs : list row_pointer) (height row : Z)
  : result fault (Z * Z) :=
  match n with
  | O => Ok (0, 0)
  | S n' =>
      new_row ← at_ frows 0;
      old_row ← at_ rs row;
      if bool_decide (new_row = old_row.2) then
        if row =? 0 then Ok (0, 0) else
        h ← region_matches (Z.to_nat (height - row - 1)) frows rs row 1 1;
        Ok (row, h)
      else find_scroll n' frows rs height (row + 1)
  end.

(** The loop that moves the local index, from row [i] on. *)
Fixpoint shift_rows (n : nat) (i lines_scrolled bottom_margin : Z) (blank_row : row_pointer)
    (rs : list row_pointer) : result fault (list row_pointer) :=
  match n with
  | O => Ok rs
  | S n' =>
      r ← (if i + lines_scrolled <=? bottom_margin then at_ rs (i + lines_scrolled) else Ok blank_row);
      _ ← at_ rs i;
      shift_rows n' (i + 1) lines_scrolled bottom_margin blank_row (updateZ rs i r)
  end.

(** The scrolling of the screen by [lines_scrolled] in [scroll_height] more
    rows from the top. *)
Definition scroll_frame (height lines_scrolled scroll_height : Z) (frame : FrameState) : FrameState :=
  let frame := update_rendition initial_rendition true frame in
  let frame := update_hyperlink Hyperlink_empty true frame in
  let bottom_margin := lines_scrolled + scroll_height - 1 in
  if (scroll_height + lines_scrolled =? height) && (cursor_y frame + 1 =? height) then
    (append_n lines_scrolled 10 (append [13] frame)) <| cursor_x := 0 |>
  else
    let frame := append (snprintf 64 (27 :: str "[" ++ dec 1 ++ str ";" ++ dec (bottom_margin + 1) ++ str "r")) frame in
    let frame := append_silent_move bottom_margin 0 (frame <| cursor_x := -1 |> <| cursor_y := -1 |>) in
    let frame := append (27 :: str "[r") (append_n lines_scrolled 10 frame) in
    frame <| cursor_x := -1 |> <| cursor_y := -1 |>.

(** The shortcut for a display that moved up: the first row to draw, the local
    index of the old rows and the frame. *)
Definition frame_scroll (initialized : bool) (f : Framebuffer) (g : Z) (rs : list row_pointer) (frame : FrameState)
  : result fault (Z * list row_pointer * FrameState) :=
  if negb initialized then Ok (0, rs, frame) else
  '(lines_scrolled, scroll_height) ← find_scroll (Z.to_nat (height (ds f))) (rows f) rs (height (ds f)) 0;
  if scroll_height =? 0 then Ok (0, rs, frame) else
  if lines_scrolled =? 0 then Ok (scroll_height, rs, frame) else
  let bottom_margin := lines_scrolled + scroll_height - 1 in
  if negb (bottom_margin <? height (ds f)) then Err AssertFail else
  let frame := scroll_frame (height (ds f)) lines_scrolled scroll_height frame in
  rs ← shift_rows (Z.to_nat (bottom_margin + 1)) 0 lines_scrolled bottom_margin (0, Row_new (width (ds f)) 0 g) rs;
  Ok (scroll_height, rs, frame).

(** The rows from [frame_y] on. *)
Fixpoint put_rows_from (n : nat) (d : Display) (initialized : bool) (f : Framebuffer) (frows rs : list row_pointer)
    (frame_y : Z) (wrap : bool) (frame : FrameState) : result fault FrameState :=
  match n with
  | O => Ok frame
  | S n' =>
      old ← at_ rs frame_y;
      row ← at_ frows frame_y;
      '(wrap, frame) ← put_row d initialized f frame_y row old wrap frame;
      put_rows_from n' d initialized f frows rs (frame_y + 1) wrap frame
  end.

Definition mode_part (initialized : bool) (none now last : Z) (off : bytes) (frame : FrameState) : FrameState :=
  if initialized && (now =? last) then frame
  else if now =? none then append off frame
  else
    let frame := if last =? none then frame else append (snprintf 64 (27 :: str "[?" ++ dec last ++ str "l")) frame in
    append (snprintf 64 (27 :: str "[?" ++ dec now ++ str "h")) frame.

(** Cursor, renditions and modes. *)
Definition frame_tail (initialized : bool) (last f : Framebuffer) (frame : FrameState) : FrameState :=
  let df := ds f in
  let dl := ds last in
  let frame := if negb initialized || negb (cursor_row df =? cursor_y frame) || negb (cursor_col df =? cursor_x frame)
               then append_move (cursor_row df) (cursor_col df) frame else frame in
  let frame := if negb initialized || negb (Bool.eqb (cursor_visible df) (fs_cursor_visible frame))
               then append (27 :: str (if cursor_visible df then "[?25h" else "[?25l")) frame else frame in
  let frame := update_rendition (ds_renditions df) (negb initialized) frame in
  let frame := update_hyperlink (ds_hyperlink df) (negb initialized) frame in
  let frame := if negb initialized || negb (Bool.eqb (bracketed_paste df) (bracketed_paste dl))
               then append (27 :: str (if bracketed_paste df then "[?2004h" else "[?2004l")) frame else frame in
  let frame := mode_part initialized MOUSE_REPORTING_NONE (mouse_reporting_mode df) (mouse_reporting_mode dl)
    (27 :: str "[?1003l" ++ 27 :: str "[?1002l" ++ 27 :: str "[?1001l" ++ 27 :: str "[?1000l") frame in
  let frame := if negb initialized || negb (Bool.eqb (mouse_focus_event df) (mouse_focus_event dl))
               then append (27 :: str (if mouse_focus_event df then "[?1004h" else "[?1004l")) frame else frame in
  mode_part initialized MOUSE_ENCODING_DEFAULT (mouse_encoding_mode df) (mouse_encoding_mode dl)
    (27 :: str "[?1015l" ++ 27 :: str "[?1006l" ++ 27 :: str "[?1005l") frame.

(** [addr_last] and [addr_f] are the addresses of the row objects, [g] the
    generation number of a row the call makes. *)
Definition new_frame (d : Display) (initialized : bool) (last f : Framebuffer) (addr_last addr_f : list Z) (g : Z)
  : result fault bytes :=
  frame ← frame_head d initialized last f;
  let '(initialized, frame) := frame_size initialized last f frame in
  let rs := extend_rows last f g (row_pointers addr_last last) in
  '(frame_y, rs, frame) ← frame_scroll initialized f g rs frame;
  frame ← put_rows_from (Z.to_nat (height (ds f) - frame_y)) d initialized f (row_pointers addr_f f) rs
            frame_y false frame;
  Ok (fs_str (frame_tail initialized last f frame)).
