(* ===== verification/DisplaySpec.v ===== *)
(** * Properties of the display

    [Display::new_frame] returns for every pair of frames, and what it writes
    does not depend on which row objects the frames share. *)
From S2P Require Export Display.

(** ** Rows *)

(** What one frame needs of its rows: [w] cells each, at least one. *)
Definition row_len (w : Z) (r : Row) : Prop := lenZ (cells r) = w.

Record frame_ok (w h : Z) (f : Framebuffer) : Prop := {
  fo_width : width (ds f) = w;
  fo_height : height (ds f) = h;
  fo_size : 0 < w /\ 0 < h;
  fo_rows : lenZ (rows f) = h /\ Forall (row_len w) (rows f);
  fo_icon : Forall (fun c => is_scalar c = true) (icon_name f);
  fo_title : Forall (fun c => is_scalar c = true) (window_title f);
  fo_clipboard : Forall (fun c => is_scalar c = true) (clipboard f) }.

Lemma get_width_pos c : 1 <= get_width_cell c <= 2.
Proof. unfold get_width_cell. destruct (wide c); lia. Qed.

Lemma Row_get_wrap_ok w r : 0 < w -> row_len w r -> exists b, Row_get_wrap r = Ok b.
Proof.
  unfold row_len, Row_get_wrap, lenZ. intros Hw Hr. destruct (last (cells r)) eqn:E; [eauto|].
  apply last_None in E. rewrite E in Hr. cbn in Hr. lia.
Qed.

(** ** The loop of [put_row] *)

Section put_row.
Context (d : Display) (w : Z) (initialized : bool) (frame_y : Z) (wrap_this : bool).

Lemma draw_cell_at_x rw cell p :
  frame_x (draw_cell_at frame_y rw wrap_this cell p) = frame_x p + get_width_cell cell.
Proof. unfold draw_cell_at. by case_match. Qed.

Lemma put_step_ok cs ocs p :
  lenZ cs = w -> w <= lenZ ocs -> 0 <= frame_x p < w ->
  exists p', put_step d initialized frame_y w wrap_this cs ocs p = Ok p' /\ frame_x p < frame_x p'.
Proof.
  intros Hc Ho Hx. unfold put_step.
  destruct (at_ok cs (frame_x p)) as (c & -> & _); [lia|]. cbn [mbind result_bind].
  destruct (at_ok ocs (frame_x p)) as (o & -> & _); [lia|]. cbn [mbind result_bind].
  pose proof (get_width_pos c) as Hw.
  destruct (initialized && (clear_count p =? 0)); cbn [mbind result_bind];
    [destruct (bool_decide (c = o)); [eexists; split; [done|cbn; lia]|]|];
    destruct (Cell_empty c), (clear_count p =? 0); cbn [andb negb]; repeat case_match;
    eexists; (split; [reflexivity|]); rewrite ?draw_cell_at_x; cbn -[get_width_cell]; lia.
Qed.

Lemma put_loop_ok cs ocs : lenZ cs = w -> w <= lenZ ocs -> forall fuel p,
  0 <= frame_x p -> w - frame_x p <= Z.of_nat fuel ->
  exists p', put_loop fuel d initialized frame_y w wrap_this cs ocs p = Ok p'.
Proof.
  intros Hc Ho. induction fuel as [|fuel IH]; intros p Hx Hf; cbn [put_loop];
    destruct (Z.ltb_spec (frame_x p) w); cbn [negb]; try (eexists; reflexivity); [lia|].
  destruct (put_step_ok cs ocs p Hc Ho) as (p' & -> & Hlt); [lia|]. cbn [mbind result_bind].
  apply IH; lia.
Qed.
End put_row.

Lemma put_row_ok d w h initialized f frame_y row old wrap frame :
  frame_ok w h f -> row_len w row.2 -> w <= lenZ (cells old.2) ->
  exists r, put_row d initialized f frame_y row old wrap frame = Ok r.
Proof.
  intros Hf Hr Ho. pose proof (fo_size _ _ _ Hf) as [Hw _]. unfold put_row.
  destruct (at_ok (cells row.2) 0) as (c & -> & _); [rewrite Hr; lia|]. cbn [mbind result_bind].
  pose proof (get_width_pos c) as Hc. rewrite (fo_width _ _ _ Hf).
  destruct (Row_get_wrap_ok w row.2 Hw Hr) as (b & Eb).
  destruct wrap; cbn [mbind result_bind]; (destruct (initialized && _); [eauto|]); rewrite Eb; cbn [mbind result_bind];
    match goal with |- context [put_loop _ _ _ _ _ _ _ _ ?p] =>
      destruct (put_loop_ok d w initialized frame_y b (cells row.2) (cells old.2) Hr Ho
        (Z.to_nat (w - frame_x p)) p) as (p' & Ep); cbn [frame_x] in *; try lia; rewrite Ep end;
    cbn [mbind result_bind]; eauto.
Qed.

(** ** The local index of old rows *)

Definition old_rows_ok (w h : Z) (rs : list row_pointer) : Prop :=
  h <= lenZ rs /\ Forall (fun p => w <= lenZ (cells p.2)) rs.

Lemma row_pointers_vals addrs f : (row_pointers addrs f).*2 = rows f.
Proof.
  apply list_eq. intros i. unfold row_pointers. rewrite list_lookup_fmap, list_lookup_imap.
  by destruct (rows f !! i).
Qed.

Lemma row_pointers_Forall addrs f (P : Row -> Prop) :
  Forall P (rows f) -> Forall (fun p => P p.2) (row_pointers addrs f).
Proof. rewrite <- (row_pointers_vals addrs f) at 1. by rewrite Forall_fmap. Qed.

Lemma lenZ_row_pointers addrs f : lenZ (row_pointers addrs f) = lenZ (rows f).
Proof. unfold lenZ, row_pointers. by rewrite length_imap. Qed.

Lemma extend_rows_ok w h w0 h0 last f addrs g :
  frame_ok w0 h0 last -> frame_ok w h f ->
  old_rows_ok w h (extend_rows last f g (row_pointers addrs last)).
Proof.
  intros Hl Hf. pose proof (fo_size _ _ _ Hf). pose proof (fo_rows _ _ _ Hl) as [Hh0 Hr0].
  unfold extend_rows. rewrite (fo_width _ _ _ Hf), (fo_height _ _ _ Hf), (fo_width _ _ _ Hl).
  set (rs := if w0 <? w then _ else _).
  assert (Hrs : Forall (fun p => w <= lenZ (cells p.2)) rs).
  { unfold rs. destruct (Z.ltb_spec w0 w).
    - apply Forall_fmap, Forall_forall. intros p _. cbn. unfold lenZ. rewrite length_resize. lia.
    - apply (row_pointers_Forall addrs last (fun r => w <= lenZ (cells r))). eapply Forall_impl; [exact Hr0|]. unfold row_len. lia. }
  clearbody rs. destruct (Z.ltb_spec (lenZ rs) h); [|by split]. split.
  - unfold lenZ. rewrite length_resize. lia.
  - apply Forall_resize; [|done]. cbn. rewrite lenZ_replicate; lia.
Qed.

Lemma region_matches_ok frows rs lines h n : forall region acc,
  h <= lenZ frows -> h <= lenZ rs -> 0 < lines -> 0 <= region -> lines + region + Z.of_nat n <= h ->
  exists a, region_matches n frows rs lines region acc = Ok a /\ (a = acc \/ region < a <= region + Z.of_nat n).
Proof.
  induction n as [|n IH]; intros region acc Hf Hr Hl Hg Hn; cbn [region_matches]; [eauto|].
  destruct (at_ok frows region) as (x & -> & _); [lia|]. cbn [mbind result_bind].
  destruct (at_ok rs (lines + region)) as (y & -> & _); [lia|]. cbn [mbind result_bind].
  case_bool_decide; [|eauto]. destruct (IH (region + 1) (region + 1)) as (a & E & Ha); try lia.
  exists a. split; [done|]. lia.
Qed.

Lemma find_scroll_ok frows rs h n : forall row,
  0 < h -> h <= lenZ frows -> h <= lenZ rs -> 0 <= row -> row + Z.of_nat n <= h ->
  exists lines height, find_scroll n frows rs h row = Ok (lines, height) /\
    (height = 0 \/ (0 < lines /\ 0 < height /\ lines + height <= h)).
Proof.
  induction n as [|n IH]; intros row Hh Hf Hr H0 Hn; cbn [find_scroll]; [do 2 eexists; eauto|].
  destruct (at_ok frows 0) as (x & -> & _); [lia|]. cbn [mbind result_bind].
  destruct (at_ok rs row) as (y & -> & _); [lia|]. cbn [mbind result_bind].
  case_bool_decide; [|apply IH; lia]. destruct (Z.eqb_spec row 0); [do 2 eexists; eauto|].
  destruct (region_matches_ok frows rs row h (Z.to_nat (h - row - 1)) 1 1) as (a & -> & Ha); try lia.
  do 2 eexists. split; [done|]. lia.
Qed.

Lemma shift_rows_ok (P : row_pointer -> Prop) lines bottom blank n : forall i rs,
  0 <= i -> 0 < lines -> i + Z.of_nat n <= bottom + 1 -> bottom < lenZ rs -> Forall P rs -> P blank ->
  exists rs', shift_rows n i lines bottom blank rs = Ok rs' /\ lenZ rs' = lenZ rs /\ Forall P rs'.
Proof.
  induction n as [|n IH]; intros i rs Hi Hl Hn Hb HP Hbl; cbn [shift_rows]; [eauto|].
  assert (Hr : exists r, (if i + lines <=? bottom then at_ rs (i + lines) else Ok blank) = Ok r /\ P r).
  { destruct (Z.leb_spec (i + lines) bottom); [|eauto].
    destruct (at_ok rs (i + lines)) as (r & -> & Hr); [lia|]. exists r. split; [done|]. by apply (lookupZ_Forall P) in Hr. }
  destruct Hr as (r & -> & Hr). cbn [mbind result_bind].
  destruct (at_ok rs i) as (x & -> & _); [lia|]. cbn [mbind result_bind].
  destruct (IH (i + 1) (updateZ rs i r)) as (rs' & E & Hlen & HP'); try lia; auto.
  - by rewrite lenZ_updateZ.
  - unfold updateZ. case_decide; [|done]. by apply Forall_insert.
  - exists rs'. rewrite lenZ_updateZ in Hlen. auto.
Qed.

Lemma frame_scroll_ok (P : row_pointer -> Prop) initialized w h f g rs frame :
  frame_ok w h f -> h <= lenZ rs -> Forall P rs -> P (0, Row_new w 0 g) ->
  exists y rs' frame', frame_scroll initialized f g rs frame = Ok (y, rs', frame') /\
    0 <= y <= h /\ lenZ rs' = lenZ rs /\ Forall P rs'.
Proof.
  intros Hf Hh HP Hb. pose proof (fo_size _ _ _ Hf). pose proof (fo_rows _ _ _ Hf) as [Hr _].
  unfold frame_scroll. rewrite (fo_width _ _ _ Hf), (fo_height _ _ _ Hf).
  destruct initialized; cbn [negb]; [|do 3 eexists; split; [reflexivity|split_and!; auto; lia]].
  destruct (find_scroll_ok (rows f) rs h (Z.to_nat h) 0) as (lines & sh & -> & Hs); try lia. cbn [mbind result_bind].
  destruct (Z.eqb_spec sh 0); [do 3 eexists; split; [reflexivity|split_and!; auto; lia]|].
  destruct (Z.eqb_spec lines 0); [lia|]. destruct (Z.ltb_spec (lines + sh - 1) h); [|lia]. cbn [negb].
  destruct (shift_rows_ok P lines (lines + sh - 1) (0, Row_new w 0 g) (Z.to_nat (lines + sh - 1 + 1)) 0 rs)
    as (rs' & -> & Hl & HP'); try lia; auto.
  cbn [mbind result_bind]. do 3 eexists. split; [reflexivity|]. split_and!; auto; lia.
Qed.

Lemma put_rows_from_ok d w h initialized f addrs rs n : forall y wrap frame,
  frame_ok w h f -> old_rows_ok w h rs -> 0 <= y -> y + Z.of_nat n <= h ->
  exists frame', put_rows_from n d initialized f (row_pointers addrs f) rs y wrap frame = Ok frame'.
Proof.
  intros y wrap frame Hf [Hh Hrs]. pose proof (fo_rows _ _ _ Hf) as [Hl Hr].
  apply (row_pointers_Forall addrs) in Hr. revert y wrap frame.
  induction n as [|n IH]; intros y wrap frame Hy Hn; cbn [put_rows_from]; [eauto|].
  destruct (at_ok rs y) as (old & -> & Ho); [lia|]. cbn [mbind result_bind].
  destruct (at_ok (row_pointers addrs f) y) as (row & -> & Hrow); [rewrite lenZ_row_pointers; lia|].
  cbn [mbind result_bind].
  destruct (put_row_ok d w h initialized f y row old wrap frame Hf) as ([wr fr] & ->).
  - by apply (lookupZ_Forall _ _ _ _ Hr) in Hrow.
  - by apply (lookupZ_Forall _ _ _ _ Hrs) in Ho.
  - cbn [mbind result_bind]. apply IH; lia.
Qed.

(** ** The head of a frame *)

Lemma append_chars_ok t : forall f, Forall (fun c => is_scalar c = true) t -> exists f', append_chars t f = Ok f'.
Proof.
  induction t as [|c t IH]; intros f Ht; cbn [append_chars]; [eauto|].
  apply Forall_cons in Ht as [Hc Ht]. unfold append_to_str.
  destruct (u32 c <=? 127); cbn [mbind result_bind]; [by apply IH|].
  destruct (wcrtomb_scalar c Hc) as (s & -> & _). cbn [mbind result_bind]. by apply IH.
Qed.

Lemma frame_head_ok d initialized w h last f :
  frame_ok w h f -> exists frame, frame_head d initialized last f = Ok frame.
Proof.
  intros [_ _ _ _ H1 H2 H3]. unfold frame_head.
  assert (Ht : forall fr, exists fr', title_part d initialized last f fr = Ok fr').
  { intros fr. unfold title_part. destruct (_ && _ && _); [|eauto]. case_bool_decide.
    - destruct (append_chars_ok (window_title f) (append (27 :: str "]0;") fr) H2) as (? & ->). cbn. eauto.
    - destruct (append_chars_ok (icon_name f) (append (27 :: str "]1;") fr) H1) as (f1 & ->). cbn [mbind result_bind].
      destruct (append_chars_ok (window_title f) (append (27 :: str "]2;") (append [7] f1)) H2) as (? & ->). cbn. eauto. }
  set (fr := if bell_count f =? _ then _ else _). destruct (Ht fr) as (f1 & ->). cbn [mbind result_bind].
  unfold clipboard_part. case_bool_decide; cbn [mbind result_bind]; [eauto|].
  destruct (append_chars_ok (clipboard f) (append (27 :: str "]52;c;") f1) H3) as (? & ->). cbn. eauto.
Qed.

Lemma new_frame_ok d initialized w0 h0 w h last f addr_last addr_f g :
  frame_ok w0 h0 last -> frame_ok w h f ->
  exists s, new_frame d initialized last f addr_last addr_f g = Ok s.
Proof.
  intros Hl Hf. pose proof (fo_size _ _ _ Hf). unfold new_frame.
  destruct (frame_head_ok d initialized w h last f Hf) as (fr & ->). cbn [mbind result_bind].
  destruct (frame_size initialized last f fr) as [i fr1].
  destruct (extend_rows_ok w h w0 h0 last f addr_last g Hl Hf) as [Hh Hrs].
  destruct (frame_scroll_ok (fun p => w <= lenZ (cells p.2)) i w h f g _ fr1 Hf Hh Hrs)
    as (y & rs & fr2 & -> & Hy & Hlen & Hrs'); [cbn; rewrite lenZ_replicate; lia|]. cbn [mbind result_bind].
  rewrite (fo_height _ _ _ Hf).
  destruct (put_rows_from_ok d w h i f addr_f rs (Z.to_nat (h - y)) y false fr2 Hf) as (fr3 & ->); try lia.
  - split; [lia|done].
  - cbn. eauto.
Qed.

(** C26. A frame can always be drawn.  For any two frames of any sizes, any
    terminal capabilities and any sharing of rows, [Display::new_frame]
    terminates and returns: no row or cell is accessed out of range, the
    assertion on the margins holds and every loop ends within its fuel. *)
Theorem new_frame_total d initialized w0 h0 w h last f addr_last addr_f g :
  frame_ok w0 h0 last -> frame_ok w h f ->
  exists s, new_frame d initialized last f addr_last addr_f g = Ok s.
Proof. apply new_frame_ok. Qed.

(** ** Sharing *)

(** The addresses are right when two rows at the same address are one row. *)
Definition sharing_sound (last f : Framebuffer) (addr_last addr_f : list Z) : Prop :=
  forall p q, p ∈ row_pointers addr_last last -> q ∈ row_pointers addr_f f -> same_object q p = true -> q.2 = p.2.

Definition unshared (p : row_pointer) : row_pointer := (0, p.2).

Lemma same_object_unshared p q : same_object (unshared p) q = false.
Proof. unfold same_object. cbn. apply andb_false_r. Qed.

Lemma at_fmap {A B} (g : A -> B) l i : at_ (g <$> l) i = match at_ l i with Ok x => Ok (g x) | Err e => Err e end.
Proof.
  unfold at_, lookupZ. case_decide; [|done]. rewrite list_lookup_fmap. by destruct (l !! Z.to_nat i).
Qed.

(** A row that did not change is skipped cell by cell. *)
Lemma put_loop_same d w y wrap_this cs : lenZ cs = w -> forall fuel p,
  0 <= frame_x p -> w - frame_x p <= Z.of_nat fuel -> clear_count p = 0 ->
  exists x, put_loop fuel d true y w wrap_this cs cs p = Ok (p <| frame_x := x |>).
Proof.
  intros Hc. induction fuel as [|fuel IH]; intros p Hx Hf H0; cbn [put_loop];
    destruct (Z.ltb_spec (frame_x p) w); cbn [negb]; try (exists (frame_x p); by destruct p); [lia|].
  unfold put_step. destruct (at_ok cs (frame_x p)) as (c & -> & _); [lia|]. cbn [mbind result_bind].
  rewrite H0. cbn [Z.eqb andb mbind result_bind]. rewrite bool_decide_true by done. cbn [mbind result_bind].
  pose proof (get_width_pos c).
  destruct (IH (p <| frame_x := frame_x p + get_width_cell c |>)) as (x & ->); cbn -[get_width_cell]; try lia; auto.
  exists x. done.
Qed.

Lemma put_row_unshared d initialized w h f y row old wrap frame :
  frame_ok w h f -> row_len w row.2 -> (same_object row old = true -> row.2 = old.2) ->
  put_row d initialized f y row old wrap frame = put_row d initialized f y (unshared row) (unshared old) wrap frame.
Proof.
  intros Hf Hr Hs. pose proof (fo_size _ _ _ Hf) as [Hw _]. unfold put_row. rewrite same_object_unshared, andb_false_r.
  cbn [unshared snd]. rewrite (fo_width _ _ _ Hf).
  destruct (at_ok (cells row.2) 0) as (c & -> & _); [rewrite Hr; lia|]. cbn [mbind result_bind].
  pose proof (get_width_pos c). destruct (initialized && same_object row old) eqn:E; [|by destruct wrap].
  apply andb_true_iff in E as [-> E]. specialize (Hs E). rewrite <- Hs.
  destruct (Row_get_wrap_ok w row.2 Hw Hr) as (b & Eb). rewrite Eb.
  destruct wrap; cbn [mbind result_bind];
    match goal with |- context [put_loop _ _ _ _ _ _ _ _ ?p] =>
      destruct (put_loop_same d w y b (cells row.2) Hr (Z.to_nat (w - frame_x p)) p) as (x & Ep);
      cbn [frame_x clear_count] in *; try lia; rewrite Ep end; cbn; reflexivity.
Qed.

Lemma extend_rows_unshared last f g rs :
  extend_rows last f g (unshared <$> rs) = unshared <$> extend_rows last f g rs.
Proof.
  unfold extend_rows. match goal with |- context [@fmap list list_fmap _ _ ?g (unshared <$> rs)] => set (g1 := g) end.
  assert (Hg : g1 <$> (unshared <$> rs) = unshared <$> (g1 <$> rs)) by (by rewrite <- !list_fmap_compose).
  assert (Hif : forall b : bool, (if b then g1 <$> (unshared <$> rs) else unshared <$> rs) =
    unshared <$> (if b then g1 <$> rs else rs)) by (by intros []).
  rewrite Hif. unfold lenZ. rewrite length_fmap.
  destruct (_ <? height _); [|done]. by rewrite fmap_resize.
Qed.

Lemma extend_rows_Forall (P : row_pointer -> Prop) last f g rs :
  (forall r, P (0, r)) -> Forall P rs -> Forall P (extend_rows last f g rs).
Proof.
  intros H0 Hrs. unfold extend_rows.
  destruct (width (ds last) <? width (ds f)); (destruct (_ <? height _); [apply Forall_resize; [done|]|]); auto;
    apply Forall_fmap, Forall_forall; intros p _; apply H0.
Qed.

Lemma region_matches_unshared frows rs lines n : forall region acc,
  region_matches n frows (unshared <$> rs) lines region acc = region_matches n frows rs lines region acc.
Proof.
  induction n as [|n IH]; intros region acc; cbn [region_matches]; [done|]. rewrite at_fmap.
  destruct (at_ frows region); [|done]. cbn [mbind result_bind].
  destruct (at_ rs (lines + region)) as [o|]; [|done]. cbn [mbind result_bind unshared snd]. by rewrite IH.
Qed.

Lemma find_scroll_unshared frows rs h n : forall row,
  find_scroll n frows (unshared <$> rs) h row = find_scroll n frows rs h row.
Proof.
  induction n as [|n IH]; intros row; cbn [find_scroll]; [done|]. rewrite at_fmap.
  destruct (at_ frows 0); [|done]. cbn [mbind result_bind].
  destruct (at_ rs row) as [o|]; [|done]. cbn [mbind result_bind unshared snd].
  by rewrite IH, region_matches_unshared.
Qed.

Lemma shift_rows_unshared lines bottom b n : forall i rs,
  shift_rows n i lines bottom (0, b) (unshared <$> rs) =
  match shift_rows n i lines bottom (0, b) rs with Ok rs' => Ok (unshared <$> rs') | Err e => Err e end.
Proof.
  induction n as [|n IH]; intros i rs; cbn [shift_rows]; [done|]. rewrite !at_fmap.
  assert (Hu : forall r, updateZ (unshared <$> rs) i (unshared r) = unshared <$> updateZ rs i r).
  { intros r. unfold updateZ. case_decide; [|done]. by rewrite list_fmap_insert. }
  destruct (_ <=? bottom).
  - destruct (at_ rs (i + lines)) as [r|]; [|done]. cbn [mbind result_bind].
    destruct (at_ rs i); [|done]. cbn [mbind result_bind]. by rewrite Hu, IH.
  - cbn [mbind result_bind]. destruct (at_ rs i); [|done]. cbn [mbind result_bind].
    change (0, b) with (unshared (0, b)) at 2. by rewrite Hu, IH.
Qed.

Lemma frame_scroll_unshared i f g rs frame :
  frame_scroll i f g (unshared <$> rs) frame =
  match frame_scroll i f g rs frame with Ok (y, rs', fr) => Ok (y, unshared <$> rs', fr) | Err e => Err e end.
Proof.
  unfold frame_scroll. destruct (negb i); [done|]. rewrite find_scroll_unshared.
  destruct (find_scroll _ _ _ _ _) as [[lines sh]|]; [|done]. cbn [mbind result_bind].
  destruct (sh =? 0); [done|]. destruct (lines =? 0); [done|]. destruct (negb _); [done|].
  rewrite shift_rows_unshared. by destruct (shift_rows _ _ _ _ _ rs).
Qed.

Lemma put_rows_from_unshared d i w h f (fr rs : list row_pointer) n : forall y wrap frame,
  frame_ok w h f -> Forall (fun p => row_len w p.2) fr ->
  (forall p q, p ∈ rs -> q ∈ fr -> same_object q p = true -> q.2 = p.2) ->
  put_rows_from n d i f fr rs y wrap frame = put_rows_from n d i f (unshared <$> fr) (unshared <$> rs) y wrap frame.
Proof.
  induction n as [|n IH]; intros y wrap frame Hf Hfr Hs; cbn [put_rows_from]; [done|]. rewrite !at_fmap.
  destruct (at_ rs y) as [old|] eqn:Eo; [|done]. cbn [mbind result_bind].
  destruct (at_ fr y) as [row|] eqn:Er; [|done]. cbn [mbind result_bind].
  apply at_inv in Eo, Er. rewrite (put_row_unshared d i w h f y row old wrap frame Hf).
  - destruct (put_row _ _ _ _ _ _ _ _) as [[wr fr']|]; [|done]. cbn [mbind result_bind]. by apply IH.
  - by apply (lookupZ_Forall _ _ _ _ Hfr) in Er.
  - intros. apply Hs; [by eapply lookupZ_elem|by eapply lookupZ_elem|done].
Qed.

Lemma row_pointers_unshared addrs f : row_pointers [] f = unshared <$> row_pointers addrs f.
Proof. unfold row_pointers. rewrite fmap_imap. by apply imap_ext. Qed.

Lemma new_frame_shared d initialized w0 h0 w h last f addr_last addr_f g :
  frame_ok w0 h0 last -> frame_ok w h f -> sharing_sound last f addr_last addr_f ->
  new_frame d initialized last f addr_last addr_f g = new_frame d initialized last f [] [] g.
Proof.
  intros Hl Hf Hs. unfold new_frame.
  destruct (frame_head d initialized last f) as [fr|]; [|done]. cbn [mbind result_bind].
  destruct (frame_size initialized last f fr) as [i fr1].
  rewrite (row_pointers_unshared addr_last last), (row_pointers_unshared addr_f f).
  rewrite extend_rows_unshared, frame_scroll_unshared.
  set (rs := extend_rows last f g (row_pointers addr_last last)).
  set (sound := fun p => forall q, q ∈ row_pointers addr_f f -> same_object q p = true -> q.2 = p.2).
  assert (H0 : forall r, sound (0, r)).
  { intros r [a s] _. unfold same_object. cbn. destruct (Z.eqb_spec a 0); done. }
  assert (Hrs : Forall sound rs).
  { apply extend_rows_Forall; auto. apply Forall_forall. intros p Hp q Hq. by apply Hs. }
  destruct (extend_rows_ok w h w0 h0 last f addr_last g Hl Hf) as [Hh _].
  destruct (frame_scroll_ok sound i w h f g rs fr1 Hf Hh Hrs (H0 _)) as (y & rs' & fr2 & -> & _ & _ & Hrs').
  cbn [mbind result_bind]. rewrite (put_rows_from_unshared d i w h); [done|done| |].
  - apply (row_pointers_Forall addr_f f (row_len w)), (fo_rows _ _ _ Hf).
  - intros p q Hp. rewrite Forall_forall in Hrs'. by apply Hrs'.
Qed.

(** Sharing is only an optimisation.  Skipping a row whose object both
    frames share writes the same octets as comparing it cell by cell: what
    [new_frame] returns depends on the values of the frames alone. *)
Theorem new_frame_sharing d initialized w0 h0 w h last f addr_last addr_f g :
  frame_ok w0 h0 last -> frame_ok w h f -> sharing_sound last f addr_last addr_f ->
  new_frame d initialized last f addr_last addr_f g = new_frame d initialized last f [] [] g.
Proof. apply new_frame_shared. Qed.

(** ** Frames that are alike *)

Lemma put_rows_from_same d w h f fr n : frame_ok w h f -> Forall (fun p : row_pointer => row_len w p.2) fr ->
  forall y frame, 0 <= y -> y + Z.of_nat n <= lenZ fr -> put_rows_from n d true f fr fr y false frame = Ok frame.
Proof.
  intros Hf Hr. pose proof (fo_size _ _ _ Hf) as [Hw _]. induction n as [|n IH]; intros y frame Hy Hn; [done|]. cbn [put_rows_from].
  destruct (at_ok fr y) as (r & Er & Hin); [lia|]. rewrite Er. cbn [mbind result_bind]. unfold put_row. cbn [mbind result_bind].
  assert (Hlen : row_len w r.2) by (by apply (lookupZ_Forall _ _ _ _ Hr) in Hin).
  destruct (same_object r r); cbn [andb mbind result_bind]; [apply IH; lia|].
  destruct (Row_get_wrap_ok w r.2 Hw Hlen) as (b & ->). cbn [mbind result_bind]. rewrite (fo_width _ _ _ Hf).
  match goal with |- context [put_loop _ _ _ _ _ _ _ _ ?p] =>
    destruct (put_loop_same d w y b (cells r.2) Hlen (Z.to_nat (w - 0)) p) as (x & ->); cbn [frame_x clear_count]; try lia end.
  cbn [mbind result_bind]. apply IH; lia.
Qed.

(** ** The generation number of a blank row *)

(** The same object up to the generation number. *)
Definition same_cells (p q : row_pointer) : Prop := p.1 = q.1 /\ cells p.2 = cells q.2.

Lemma same_cells_refl l : Forall2 same_cells l l.
Proof. apply Forall_Forall2_diag, Forall_forall. by intros p _. Qed.

Lemma at_Forall2 {A} (R : A -> A -> Prop) l l' i :
  Forall2 R l l' ->
  match at_ l i, at_ l' i with
  | Ok x, Ok y => R x y
  | Err e, Err e' => e = e'
  | _, _ => False
  end.
Proof.
  intros Hl. unfold at_, lookupZ. case_decide; [|done].
  destruct (l !! Z.to_nat i) as [x|] eqn:E1.
  - destruct (Forall2_lookup_l R l l' _ _ Hl E1) as (y & E2 & Hxy). by rewrite E2.
  - apply lookup_ge_None in E1. rewrite (Forall2_length _ _ _ Hl) in E1. apply lookup_ge_None in E1. by rewrite E1.
Qed.

Lemma updateZ_Forall2 {A} (R : A -> A -> Prop) l l' i x y :
  Forall2 R l l' -> R x y -> Forall2 R (updateZ l i x) (updateZ l' i y).
Proof. intros. unfold updateZ. case_decide; [|done]. by apply Forall2_insert. Qed.

Lemma shift_rows_gen lines bottom b b' n : same_cells b b' -> forall i rs rs',
  Forall2 same_cells rs rs' ->
  match shift_rows n i lines bottom b rs, shift_rows n i lines bottom b' rs' with
  | Ok x, Ok y => Forall2 same_cells x y
  | Err e, Err e' => e = e'
  | _, _ => False
  end.
Proof.
  intros Hb. induction n as [|n IH]; intros i rs rs' Hrs; cbn [shift_rows]; [done|].
  pose proof (at_Forall2 _ _ _ (i + lines) Hrs) as H1. pose proof (at_Forall2 _ _ _ i Hrs) as H2.
  assert (Hgo : forall x y, same_cells x y ->
    match (_ ← at_ rs i; shift_rows n (i + 1) lines bottom b (updateZ rs i x)),
          (_ ← at_ rs' i; shift_rows n (i + 1) lines bottom b' (updateZ rs' i y)) with
    | Ok x, Ok y => Forall2 same_cells x y | Err e, Err e' => e = e' | _, _ => False end).
  { intros x y Hxy. destruct (at_ rs i), (at_ rs' i); try done. cbn. by apply IH, updateZ_Forall2. }
  destruct (_ <=? bottom); [|by apply Hgo].
  destruct (at_ rs (i + lines)), (at_ rs' (i + lines)); try done. cbn. by apply Hgo.
Qed.

Lemma put_rows_from_gen d i f fr rs rs' n : Forall2 same_cells rs rs' -> forall y wrap frame,
  put_rows_from n d i f fr rs y wrap frame = put_rows_from n d i f fr rs' y wrap frame.
Proof.
  intros Hrs. induction n as [|n IH]; intros y wrap frame; cbn [put_rows_from]; [done|].
  pose proof (at_Forall2 _ _ _ y Hrs) as H1. destruct (at_ rs y) as [o|], (at_ rs' y) as [o'|]; try done; [|by subst].
  cbn [mbind result_bind]. destruct (at_ fr y) as [row|]; [|done]. cbn [mbind result_bind].
  destruct H1 as [Ha Hc].
  replace (put_row d i f y row o' wrap frame) with (put_row d i f y row o wrap frame)
    by (unfold put_row, same_object; by rewrite Ha, Hc).
  destruct (put_row _ _ _ _ _ _ _ _) as [[wr fr']|]; [|done]. cbn [mbind result_bind]. by apply IH.
Qed.

Lemma extend_rows_gen last f g g' rs :
  Forall2 same_cells (extend_rows last f g rs) (extend_rows last f g' rs).
Proof.
  unfold extend_rows. destruct (width (ds last) <? width (ds f)); (destruct (_ <? height _); [|apply same_cells_refl]);
    rewrite !resize_spec; (apply Forall2_app; [apply same_cells_refl|by apply Forall2_replicate]).
Qed.

Lemma extend_rows_same last f g rs :
  width (ds last) = width (ds f) -> height (ds f) <= lenZ rs -> extend_rows last f g rs = rs.
Proof. intros Hw Hh. unfold extend_rows. rewrite Hw, Z.ltb_irrefl. cbv beta iota zeta. destruct (Z.ltb_spec (lenZ rs) (height (ds f))); [lia|done]. Qed.

Lemma new_frame_gen d initialized w0 h0 last f addr_last addr_f g g' :
  frame_ok w0 h0 last ->
  new_frame d initialized last f addr_last addr_f g = new_frame d initialized last f addr_last addr_f g'.
Proof.
  intros Hl. unfold new_frame. destruct (frame_head d initialized last f) as [fr|]; [|done]. cbn [mbind result_bind].
  destruct (frame_size initialized last f fr) as [i fr1] eqn:Es.
  unfold frame_scroll. destruct i; cbn [negb].
  - assert (Hsz : width (ds f) = width (ds last) /\ height (ds f) = height (ds last)).
    { unfold frame_size in Es. destruct (negb initialized || _ || _) eqn:E; [done|].
      rewrite !orb_false_iff, !negb_false_iff, !Z.eqb_eq in E. tauto. }
    destruct Hsz as [Hw Hh]. pose proof (fo_rows _ _ _ Hl) as [Hr _]. pose proof (fo_height _ _ _ Hl).
    rewrite !extend_rows_same by (rewrite ?lenZ_row_pointers; lia).
    destruct (find_scroll _ _ _ _ _) as [[lines sh]|]; [|done]. cbn [mbind result_bind].
    destruct (sh =? 0); [done|]. destruct (lines =? 0); [done|]. destruct (negb _); [done|].
    pose proof (shift_rows_gen lines (lines + sh - 1) (0, Row_new (width (ds f)) 0 g) (0, Row_new (width (ds f)) 0 g')
      (Z.to_nat (lines + sh - 1 + 1)) ltac:(done) 0 (row_pointers addr_last last) (row_pointers addr_last last)) as H1.
    destruct (shift_rows _ _ _ _ _ _) as [x|], (shift_rows _ _ _ _ _ _) as [y|];
      try (destruct H1; apply same_cells_refl); cbn [mbind result_bind].
    + rewrite (put_rows_from_gen _ _ _ _ x y); [done|]. apply H1, same_cells_refl.
    + f_equal. apply H1, same_cells_refl.
  - cbn [mbind result_bind]. rewrite (put_rows_from_gen _ _ _ _ _ _ _ (extend_rows_gen last f g g' _)). done.
Qed.

(** ** Two frames that share their second row *)

Definition sample_last : Framebuffer :=
  MkFramebuffer [Row_new 4 0 1; Row_new 4 0 2] [] [] [] 0 false (DrawState_new 4 2).
Definition sample_next : Framebuffer :=
  MkFramebuffer [MkRow [Cell_new 0; (Cell_new 0) <| contents := [65] |>; Cell_new 0; Cell_new 0] 1; Row_new 4 0 2]
    [] (str "title") [] 1 true (DrawState_new 4 2).

Lemma sample_last_ok : frame_ok 4 2 sample_last.
Proof. split; try done. split; [done|]. by repeat constructor. Qed.
Lemma sample_next_ok : frame_ok 4 2 sample_next.
Proof. split; try done; [split; [done|]|]; by repeat constructor. Qed.

Lemma new_frame_total_witness : exists s, new_frame Display_default true sample_last sample_next [1; 2] [3; 2] 5 = Ok s.
Proof. apply (new_frame_total _ _ 4 2 4 2); [apply sample_last_ok|apply sample_next_ok]. Defined.

Lemma new_frame_sharing_witness :
  new_frame Display_default true sample_last sample_next [1; 2] [3; 2] 5 =
  new_frame Display_default true sample_last sample_next [] [] 5.
Proof.
  apply (new_frame_sharing _ _ 4 2 4 2); [apply sample_last_ok|apply sample_next_ok|].
  intros p q Hp Hq. cbn in Hp, Hq. rewrite !elem_of_cons in Hp, Hq.
  destruct Hp as [->|[->|Hp]], Hq as [->|[->|Hq]]; try done; by apply elem_of_nil in Hp || apply elem_of_nil in Hq.
Defined.

(** Bell, titles (the icon name is empty), the moved cursor, the cell. *)
Example sample_frame :
  new_frame Display_default true sample_last sample_next [1; 2] [3; 2] 5 =
  Ok (7 :: 27 :: str "]1;" ++ 7 :: 27 :: str "]2;title" ++ 7 :: 27 :: str "[?25l" ++ 27 :: str "[1;2HA" ++
      13 :: 27 :: str "[?25h").
Proof. vm_compute. reflexivity. Qed.
