(* ===== verification/Complete.v ===== *)
(** * The complete terminal as a synchronised object
      (mosh/src/statesync/completeterminal.{h,cc})

    Differences between two terminals and their application, and the echo
    acknowledgements: which user input the terminal has had time to reflect.
    The protocol buffers of hostinput.proto are a class with the laws the code
    relies on. *)
From stdpp Require Import sorting.
From S2P Require Export Emulator DisplaySpec Sync.

(** ** Equality *)

Definition DrawState_eqb (x y : DrawState) : bool :=
  (width x =? width y) && (height x =? height y) && (cursor_col x =? cursor_col y)
  && (cursor_row x =? cursor_row y) && Bool.eqb (cursor_visible x) (cursor_visible y)
  && Bool.eqb (reverse_video x) (reverse_video y) && bool_decide (ds_renditions x = ds_renditions y)
  && Bool.eqb (bracketed_paste x) (bracketed_paste y) && (mouse_reporting_mode x =? mouse_reporting_mode y)
  && Bool.eqb (mouse_focus_event x) (mouse_focus_event y)
  && Bool.eqb (mouse_alternate_scroll x) (mouse_alternate_scroll y)
  && (mouse_encoding_mode x =? mouse_encoding_mode y) && Hyperlink_eqb (ds_hyperlink x) (ds_hyperlink y).

(** The rows are compared as pointers, so their addresses are arguments, as in
    [new_frame]. *)
Definition rows_eqb (addr_x addr_y : list Z) (x y : Framebuffer) : bool :=
  (lenZ (rows x) =? lenZ (rows y)) && forallb (uncurry same_object) (zip (row_pointers addr_x x) (row_pointers addr_y y)).

Definition Framebuffer_eqb (addr_x addr_y : list Z) (x y : Framebuffer) : bool :=
  rows_eqb addr_x addr_y x y && bool_decide (window_title x = window_title y)
  && bool_decide (clipboard x = clipboard y) && (bell_count x =? bell_count y) && DrawState_eqb (ds x) (ds y).

Definition get_fb (c : Complete) : Framebuffer := fb (screen (ctx (terminal c))).

Definition Complete_eqb (addr_x addr_y : list Z) (x y : Complete) : bool :=
  Framebuffer_eqb addr_x addr_y (get_fb x) (get_fb y) && (echo_ack x =? echo_ack y).

(** ** Echo acknowledgements *)

Definition ECHO_TIMEOUT : Z := 50.

Definition register_input_frame (n now : Z) (c : Complete) : Complete :=
  c <| input_history := input_history c ++ [(n, now)] |>.

(** The first loop: the last frame in the list that is old enough. *)
Definition newer (now newest : Z) (i : Z * Z) : Z := if i.2 <=? u64 (now - ECHO_TIMEOUT) then i.1 else newest.
Definition newest_echo_ack (now : Z) (history : list (Z * Z)) : Z := foldl (newer now) 0 history.

Definition set_echo_ack (now : Z) (c : Complete) : bool * Complete :=
  let newest := newest_echo_ack now (input_history c) in
  (negb (echo_ack c =? newest),
   c <| input_history := filter (fun i => newest <= i.1) (input_history c) |> <| echo_ack := newest |>).

Definition complete_wait_time (now : Z) (c : Complete) : Z :=
  match input_history c with
  | _ :: it :: _ =>
      let next_echo_ack_time := u64 (it.2 + ECHO_TIMEOUT) in
      if next_echo_ack_time <=? now then 0 else i32 (u64 (next_echo_ack_time - now))
  | _ => INT_MAX
  end.

Definition complete_reset_input (c : Complete) : Complete := c <| c_parser := utf8_reset_input (c_parser c) |>.

(** ** Messages (hostinput.proto) *)

Record HostInstruction : Type := MkHostInstruction {
  hostbytes : option bytes; host_resize : option (Z * Z); echoack : option Z }.

Class HostCodec : Type := {
  SerializeHostMessage : list HostInstruction -> bytes;
  ParseHostMessage : bytes -> option (list HostInstruction) }.

Definition host_instruction_wf (i : HostInstruction) : Prop :=
  match host_resize i with Some (w, h) => is_i32 w /\ is_i32 h | None => True end /\
  match echoack i with Some n => is_u64 n | None => True end.

Class HostCodecLaws `{HostCodec} : Prop := {
  host_parse_serialize m : Forall host_instruction_wf m -> ParseHostMessage (SerializeHostMessage m) = Some m;
  host_serialize_empty : SerializeHostMessage [] = [] }.

Section complete_sync.
Context `{Libc} `{HostCodec}.

(** The part of the message on the screen.  The generation number of a row
    that [new_frame] makes does not matter ([new_frame_gen]). *)
Definition screen_message (addr_existing addr_f : list Z) (existing f : Framebuffer)
  : result fault (list HostInstruction) :=
  if Framebuffer_eqb addr_existing addr_f existing f then Ok [] else
  let resized := negb (width (ds existing) =? width (ds f)) || negb (height (ds existing) =? height (ds f)) in
  update ← new_frame Display_default true existing f addr_existing addr_f 0;
  Ok ((if resized then [MkHostInstruction None (Some (i32 (width (ds f)), i32 (height (ds f)))) None] else [])
      ++ (if bool_decide (update = []) then [] else [MkHostInstruction (Some update) None None])).

Definition echo_message (existing c : Complete) : result fault (list HostInstruction) :=
  if echo_ack existing =? echo_ack c then Ok [] else
  if negb (echo_ack existing <=? echo_ack c) then Err AssertFail else
  Ok [MkHostInstruction None None (Some (echo_ack c))].

Definition complete_diff_from (addr_c addr_existing : list Z) (c existing : Complete) : result fault bytes :=
  echo ← echo_message existing c;
  scr ← screen_message addr_existing addr_c (get_fb existing) (get_fb c);
  Ok (SerializeHostMessage (echo ++ scr)).

(** No row of the new terminal is shared. *)
Definition init_diff (addr_c : list Z) (c : Complete) : result fault bytes :=
  blank ← Complete_new (width (ds (get_fb c))) (height (ds (get_fb c))) 0;
  complete_diff_from addr_c [] c blank.

Definition apply_instruction (i : HostInstruction) : M Complete unit :=
  match hostbytes i, host_resize i, echoack i with
  | Some s, _, _ =>
      terminal_to_host ← act s;
      assert_ (bool_decide (terminal_to_host = []))
  | None, Some (w, h), _ => act_one (MkAction (Resize (u64 w) (u64 h)) 0 false) ;; mret tt
  | None, None, Some n =>
      c ← get;
      assert_ (echo_ack c <=? n) ;;
      modify (fun c => c <| echo_ack := n |>)
  | None, None, None => mret tt
  end.

Fixpoint apply_instructions (m : list HostInstruction) : M Complete unit :=
  match m with
  | [] => mret tt
  | i :: m' => apply_instruction i ;; apply_instructions m'
  end.

Definition complete_apply_string (diff : bytes) : M Complete unit :=
  match ParseHostMessage diff with
  | None => fail AssertFail
  | Some m => apply_instructions m
  end.

Definition complete_subtract (other c : Complete) : Complete := c.
End complete_sync.

(** ** The terminal as a synchronised object *)

(** [addr] gives the addresses of the rows of a terminal. *)
Definition CompleteSync `{Libc} `{HostCodec} (addr : Complete -> list Z) : SyncState Complete := {|
  subtract c other := Ok (complete_subtract other c);
  subtract_self c := c;
  diff_from c existing := complete_diff_from (addr c) (addr existing) c existing;
  apply_string d c := '(_, c') ← complete_apply_string d c; Ok c';
  state_eqb x y := Complete_eqb (addr x) (addr y) x y;
  reset_input := complete_reset_input |}.

(** ** A codec for concrete runs *)

Definition encode_host (i : HostInstruction) : bytes :=
  encode_user (MkUserInstruction (hostbytes i) (host_resize i)) ++ match echoack i with None => [0] | Some n => [1; n] end.

Definition decode_ack (s : bytes) : option (option Z * bytes) :=
  match s with 0 :: s' => Some (None, s') | 1 :: n :: s' => Some (Some n, s') | _ => None end.

Fixpoint decode_host (fuel : nat) (s : bytes) : option (list HostInstruction) :=
  match s, fuel with
  | [], _ => Some []
  | _, O => None
  | _, S fuel' =>
      '(k, s1) ← decode_keys s;
      '(r, s2) ← decode_resize s1;
      '(a, s3) ← decode_ack s2;
      m ← decode_host fuel' s3;
      Some (MkHostInstruction k r a :: m)
  end.

#[export] Instance StoreHostCodec : HostCodec := {
  SerializeHostMessage m := mjoin (encode_host <$> m);
  ParseHostMessage s := decode_host (length s) s;
}.

Lemma decode_host_spec m : forall fuel,
  (length (mjoin (encode_host <$> m)) <= fuel)%nat -> decode_host fuel (mjoin (encode_host <$> m)) = Some m.
Proof.
  induction m as [|i m IH]; intros fuel Hf; [by destruct fuel|].
  change (mjoin (encode_host <$> i :: m)) with (encode_host i ++ mjoin (encode_host <$> m)) in *.
  rewrite length_app in Hf. set (rest := mjoin _) in *. unfold encode_host in *. rewrite <- app_assoc. rewrite length_app in Hf.
  set (tail := _ ++ rest). set (u := MkUserInstruction _ _) in *.
  destruct (decode_encode u tail) as (k1 & E1 & E2 & Hpos). destruct fuel as [|fuel]; [lia|].
  assert (Hne : exists c s, encode_user u ++ tail = c :: s).
  { destruct (encode_user u); [cbn in Hpos; lia|]. cbn. eauto. }
  assert (E3 : decode_ack tail = Some (echoack i, rest)) by (unfold tail; by destruct (echoack i)).
  destruct Hne as (c & s & Es). cbn [decode_host]. rewrite Es in *. rewrite E1. cbn. rewrite E2. cbn. rewrite E3. cbn.
  unfold rest. rewrite IH by (fold rest; lia). by destruct i.
Qed.

#[export] Instance StoreHostCodecLaws : HostCodecLaws.
Proof. split; [|done]. intros m _. by apply decode_host_spec. Qed.

(** ** Differences do not depend on shared rows *)

Lemma find_scroll_same frows (rs : list row_pointer) h : rs.*2 = frows -> 0 < lenZ frows ->
  find_scroll (Z.to_nat (lenZ frows)) frows rs h 0 = Ok (0, 0).
Proof.
  intros <- Hl. destruct rs as [|r rs]; [done|]. unfold lenZ. rewrite Nat2Z.id. cbn [fmap list_fmap length find_scroll].
  change (at_ (r :: rs) 0) with (@Ok fault _ r). change (at_ (r.2 :: rs.*2) 0) with (@Ok fault _ r.2).
  cbn [mbind result_bind]. by rewrite bool_decide_true.
Qed.

Lemma extend_rows_id last f g rs :
  width (ds last) = width (ds f) -> lenZ rs = height (ds f) -> extend_rows last f g rs = rs.
Proof. intros Hw Hh. unfold extend_rows. by rewrite Hw, Z.ltb_irrefl, Hh, Z.ltb_irrefl. Qed.

Lemma frame_tail_same last f fr :
  DrawState_eqb (ds last) (ds f) = true -> cursor_y fr = cursor_row (ds f) -> cursor_x fr = cursor_col (ds f) ->
  fs_cursor_visible fr = cursor_visible (ds f) -> current_rendition fr = ds_renditions (ds f) ->
  current_hyperlink fr = ds_hyperlink (ds f) -> frame_tail true last f fr = fr.
Proof.
  intros Hd Hy Hx Hv Hr Hh. unfold DrawState_eqb in Hd. rewrite !andb_true_iff, !Z.eqb_eq, !eqb_true_iff in Hd.
  destruct Hd as [[[[[[[[[[[[_ _] _] _] _] _] _] E8] E9] E10] _] E12] _].
  unfold frame_tail, mode_part, update_rendition, update_hyperlink, Hyperlink_eqb. cbv zeta. cbn [negb orb andb].
  rewrite Hy, Hx, !Z.eqb_refl. cbn [negb orb]. rewrite Hv, eqb_reflx. cbn [negb].
  rewrite Hr, (bool_decide_true (ds_renditions _ = _)) by done. cbn [negb].
  rewrite Hh, (bool_decide_true (ds_hyperlink _ = _)) by done. cbn [negb].
  by rewrite E8, E9, E10, E12, !eqb_reflx, !Z.eqb_refl.
Qed.

(** Nothing is written for a frame that looks like the last. *)
Lemma new_frame_same d w h last f g :
  frame_ok w h f -> rows last = rows f -> window_title last = window_title f -> icon_name last = icon_name f ->
  clipboard last = clipboard f -> bell_count last = bell_count f -> DrawState_eqb (ds last) (ds f) = true ->
  new_frame d true last f [] [] g = Ok [].
Proof.
  intros Hf Hr Ht Hi Hc Hb Hd. pose proof (fo_size _ _ _ Hf) as [Hw Hh]. pose proof (fo_rows _ _ _ Hf) as [Hl Hrs].
  pose proof Hd as Hd'. unfold DrawState_eqb, Hyperlink_eqb in Hd'.
  rewrite !andb_true_iff, !Z.eqb_eq, !eqb_true_iff, !bool_decide_eq_true in Hd'.
  destruct Hd' as [[[[[[[[[[[[E1 E2] E3] E4] E5] E6] E7] E8] E9] E10] E11] E12] E13].
  unfold new_frame, frame_head, title_part, clipboard_part, frame_size.
  rewrite Hb, Z.eqb_refl, Ht, Hi, Hc, E1, E2, E6, eqb_reflx, !Z.eqb_refl, !bool_decide_true by done.
  cbn [negb orb]. rewrite andb_false_r. cbn [mbind result_bind].
  rewrite extend_rows_id by (by rewrite ?lenZ_row_pointers, ?Hr, ?Hl, ?(fo_height _ _ _ Hf)).
  unfold frame_scroll. cbn [negb]. rewrite (fo_height _ _ _ Hf), <- Hl.
  rewrite find_scroll_same by (rewrite ?row_pointers_vals; done || lia). cbn [mbind result_bind Z.eqb].
  replace (row_pointers [] last) with (row_pointers [] f) by (unfold row_pointers; by rewrite Hr).
  rewrite (put_rows_from_same d w h); [|done| |lia|rewrite lenZ_row_pointers; lia].
  - cbn [mbind result_bind]. by rewrite frame_tail_same.
  - apply (row_pointers_Forall [] f (row_len w)), Hrs.
Qed.

Lemma rows_eqb_rows addr_x addr_y x y :
  sharing_sound x y addr_x addr_y -> rows_eqb addr_x addr_y x y = true -> rows x = rows y.
Proof.
  unfold rows_eqb. intros Hs [Hl Hz]%andb_true_iff. apply Z.eqb_eq in Hl.
  rewrite <- (row_pointers_vals addr_x x), <- (row_pointers_vals addr_y y).
  rewrite <- (lenZ_row_pointers addr_x x), <- (lenZ_row_pointers addr_y y) in Hl. unfold sharing_sound in Hs.
  revert Hl Hz Hs. generalize (row_pointers addr_x x), (row_pointers addr_y y). clear.
  induction l as [|p l IH]; intros [|q l'] Hl Hz Hs; try done. cbn [zip zip_with forallb uncurry] in Hz.
  apply andb_true_iff in Hz as [Hpq Hz]. rewrite !fmap_cons. f_equal.
  - symmetry. apply Hs; [apply list_elem_of_here..|]. unfold same_object in *. rewrite andb_true_iff, Z.eqb_eq in *.
    destruct Hpq as [E ?]. by rewrite <- E.
  - apply IH; [unfold lenZ in *; cbn in Hl; lia|done|]. intros p' q' Hp Hq. by apply Hs; apply list_elem_of_further.
Qed.

Lemma Framebuffer_eqb_unshared w h existing f : frame_ok w h f -> Framebuffer_eqb [] [] existing f = false.
Proof.
  intros Hf. unfold Framebuffer_eqb, rows_eqb. pose proof (fo_rows _ _ _ Hf) as [Hh _]. pose proof (fo_size _ _ _ Hf).
  destruct (rows existing) as [|r rs] eqn:E1.
  - unfold lenZ at 1. cbn [length]. destruct (Z.eqb_spec (Z.of_nat 0) (lenZ (rows f))); [lia|done].
  - unfold row_pointers. rewrite E1. destruct (rows f); [unfold lenZ in Hh; cbn in Hh; lia|]. cbn. by rewrite andb_false_r.
Qed.

Lemma screen_message_shared w0 h0 w h existing f addr_existing addr_f :
  frame_ok w0 h0 existing -> frame_ok w h f -> sharing_sound existing f addr_existing addr_f ->
  (window_title existing = window_title f -> icon_name existing = icon_name f) ->
  screen_message addr_existing addr_f existing f = screen_message [] [] existing f.
Proof.
  intros Hl Hf Hs Hi. unfold screen_message. rewrite (new_frame_shared _ _ w0 h0 w h _ _ addr_existing addr_f) by done.
  rewrite (Framebuffer_eqb_unshared w h) by done.
  destruct (Framebuffer_eqb _ _ _ _) eqn:E; [|done]. unfold Framebuffer_eqb in E. rewrite !andb_true_iff, !bool_decide_eq_true, Z.eqb_eq in E.
  destruct E as [[[[Er Et] Ec] Eb] Ed]. rewrite (new_frame_same _ w h) by (done || apply rows_eqb_rows in Er; auto).
  unfold DrawState_eqb in Ed. rewrite !andb_true_iff in Ed. destruct Ed as [[[[[[[[[[[[-> ->] _] _] _] _] _] _] _] _] _] _] _]. done.
Qed.

(** Differences do not depend on shared rows.  [operator==] compares the
    rows of two screens by their addresses, and unequal addresses do not mean
    unequal rows; [diff_from] still returns the same octets as if no row were
    shared, when the icon name, which [operator==] does not compare, changed
    only along with the window title. *)
Theorem diff_from_sharing `{HostCodec} w0 h0 w h c existing addr_c addr_existing :
  frame_ok w0 h0 (get_fb existing) -> frame_ok w h (get_fb c) ->
  sharing_sound (get_fb existing) (get_fb c) addr_existing addr_c ->
  (window_title (get_fb existing) = window_title (get_fb c) -> icon_name (get_fb existing) = icon_name (get_fb c)) ->
  complete_diff_from addr_c addr_existing c existing = complete_diff_from [] [] c existing.
Proof.
  intros Hl Hf Hs Hi. unfold complete_diff_from. by rewrite (screen_message_shared w0 h0 w h _ _ addr_existing addr_c).
Qed.

(** The frames of [new_frame_sharing_witness] as terminals. *)
Definition sample_terminal (f : Framebuffer) (ack : Z) : Complete :=
  MkComplete (MkUTF8Parser Ground []) (MkEmulator (MkContext (MkScreen 5 f) Dispatcher_new) UI_Ground) [] ack.

Lemma diff_from_sharing_witness :
  complete_diff_from [3; 2] [1; 2] (sample_terminal sample_next 7) (sample_terminal sample_last 4) =
  complete_diff_from [] [] (sample_terminal sample_next 7) (sample_terminal sample_last 4).
Proof.
  apply (diff_from_sharing 4 2 4 2); [apply sample_last_ok|apply sample_next_ok| |done].
  intros p q Hp Hq. cbn in Hp, Hq. rewrite !elem_of_cons in Hp, Hq.
  destruct Hp as [->|[->|Hp]], Hq as [->|[->|Hq]]; try done; by apply elem_of_nil in Hp || apply elem_of_nil in Hq.
Defined.

(** A new icon name alone is not sent: the octets of the difference are empty,
    although [new_frame] would write the name. *)
Example icon_name_not_sent :
  let c := sample_terminal (sample_next <| icon_name := str "icon" |>) 4 in
  let existing := sample_terminal sample_next 4 in
  complete_diff_from [1; 2] [1; 2] c existing = Ok [] /\ new_frame Display_default true (get_fb existing) (get_fb c) [1; 2] [1; 2] 0 =
    Ok (27 :: str "]1;icon" ++ 7 :: 27 :: str "]2;title" ++ [7]).
Proof. vm_compute. done. Qed.

(** ** What the echo acknowledgement is *)

Inductive echo_op : Type := RegisterInputFrame (n now : Z) | SetEchoAck (now : Z).

Definition echo_step (c : Complete) (op : echo_op) : Complete :=
  match op with
  | RegisterInputFrame n now => register_input_frame n now c
  | SetEchoAck now => (set_echo_ack now c).2
  end.
Definition run_echo (ops : list echo_op) (c : Complete) : Complete := foldl echo_step c ops.

(** Every frame ever registered. *)
Definition registered (ops : list echo_op) : list (Z * Z) :=
  omap (fun op => match op with RegisterInputFrame n now => Some (n, now) | SetEchoAck _ => None end) ops.

(** The clock does not go back and has passed the timeout; frame numbers go up. *)
Fixpoint echo_ops_ok (n t : Z) (ops : list echo_op) : Prop :=
  match ops with
  | [] => True
  | RegisterInputFrame n' now :: ops' => n < n' /\ t <= now < 2 ^ 64 /\ echo_ops_ok n' now ops'
  | SetEchoAck now :: ops' => t <= now < 2 ^ 64 /\ echo_ops_ok n now ops'
  end.

Definition later (i j : Z * Z) : Prop := i.1 < j.1 /\ i.2 <= j.2.

Lemma newest_app now l l' :
  newest_echo_ack now (l ++ l') =
  foldl (newer now) (newest_echo_ack now l) l'.
Proof. apply foldl_app. Qed.

Lemma newest_none now l acc :
  Forall (fun i => u64 (now - ECHO_TIMEOUT) < i.2) l ->
  foldl (newer now) acc l = acc.
Proof.
  induction 1 as [|i l Hi _ IH]; [done|]. cbn [foldl]. unfold newer at 2. destruct (Z.leb_spec i.2 (u64 (now - ECHO_TIMEOUT))); [lia|done].
Qed.

(** In a sorted list the old frames come first. *)
Lemma newest_split now l :
  StronglySorted later l ->
  Forall (fun i => u64 (now - ECHO_TIMEOUT) < i.2) l \/
  exists a i b, l = a ++ i :: b /\ i.2 <= u64 (now - ECHO_TIMEOUT) /\ Forall (fun j => u64 (now - ECHO_TIMEOUT) < j.2) b /\
    newest_echo_ack now l = i.1.
Proof.
  induction l as [|i l IH] using rev_ind; intros Hs; [by left|].
  apply StronglySorted_app in Hs as (_ & Hl & _).
  destruct (Z.le_gt_cases i.2 (u64 (now - ECHO_TIMEOUT))) as [Hle|Hgt].
  - right. exists l, i, []. split_and!; auto. rewrite newest_app. cbn [foldl]. unfold newer.
    destruct (Z.leb_spec i.2 (u64 (now - ECHO_TIMEOUT))); [done|lia].
  - destruct (IH Hl) as [Hn|(a & j & b & -> & Hj & Hb & En)].
    + left. apply Forall_app. split; [done|]. by constructor.
    + right. exists a, j, (b ++ [i]). split_and!; auto.
      * by rewrite <- app_assoc.
      * apply Forall_app. split; [done|]. by constructor.
      * rewrite newest_app, En. apply newest_none. by constructor.
Qed.

(** The history against the log of all registrations: what was pruned comes
    before the acknowledged frame, which stays at the front. *)
Definition echo_inv (l : list (Z * Z)) (n t : Z) (c : Complete) : Prop :=
  StronglySorted later l /\ Forall (fun i => 0 < i.1 <= n /\ i.2 <= t) l /\ ECHO_TIMEOUT <= t < 2 ^ 64 /\
  ((input_history c = l /\ echo_ack c = 0) \/
   exists pre i rest, l = pre ++ i :: rest /\ input_history c = i :: rest /\ echo_ack c = i.1 /\ i.2 <= t - ECHO_TIMEOUT).

Lemma filter_later a i b :
  StronglySorted later (a ++ i :: b) -> filter (fun j => i.1 <= j.1) (a ++ i :: b) = i :: b.
Proof.
  intros Hs. apply StronglySorted_app in Hs as (Hab & _ & Hb). apply StronglySorted_cons in Hb as [Hi _].
  rewrite filter_app, filter_none.
  - rewrite filter_all; [done|]. constructor; [lia|]. eapply Forall_impl; [exact Hi|]. intros j [? _]. lia.
  - apply Forall_forall. intros j Hj. destruct (Hab j i Hj) as [? _]; [apply list_elem_of_here|]. lia.
Qed.

Lemma echo_inv_later l n t t' c : t <= t' < 2 ^ 64 -> echo_inv l n t c -> echo_inv l n t' c.
Proof.
  intros Ht (Hs & Hl & Hr & Hc). split_and!; auto; try lia.
  - eapply Forall_impl; [exact Hl|]. cbn. intros. lia.
  - destruct Hc as [Hc|(pre & i & rest & H1 & H2 & H3 & H4)]; [by left|]. right. exists pre, i, rest. split_and!; auto. lia.
Qed.

Lemma echo_inv_register l n t c n' now :
  echo_inv l n t c -> 0 <= n -> n < n' -> t <= now < 2 ^ 64 ->
  echo_inv (l ++ [(n', now)]) n' now (register_input_frame n' now c).
Proof.
  intros Hi Hn0 Hn Ht. pose proof (echo_inv_later _ _ _ now _ Ht Hi) as (Hs & Hl & Hr & Hc).
  destruct Hi as (_ & Hl0 & _). split; [|split; [|split; [done|]]].
  - apply StronglySorted_app_2; [|done|repeat constructor]. intros i j Hi ->%list_elem_of_singleton.
    rewrite Forall_forall in Hl0. specialize (Hl0 i Hi). unfold later. cbn. lia.
  - apply Forall_app. split; [|repeat constructor; cbn; lia]. eapply Forall_impl; [exact Hl|]. cbn. lia.
  - destruct Hc as [[H1 H2]|(pre & i & rest & -> & H2 & H3 & H4)].
    + left. cbn. by rewrite H1.
    + right. exists pre, i, (rest ++ [(n', now)]). cbn. rewrite H2, <- app_assoc. split_and!; auto.
Qed.

(** Pruning does not change the answer. *)
Lemma echo_inv_newest l n t c now :
  echo_inv l n t c -> t <= now < 2 ^ 64 -> newest_echo_ack now (input_history c) = newest_echo_ack now l.
Proof.
  intros (_ & _ & Hr & [[-> _]|(pre & i & rest & -> & -> & _ & Hi)]) Hnow; [done|].
  rewrite newest_app. cbn [newest_echo_ack foldl]. unfold newest_echo_ack. cbn [foldl]. unfold newer at 2 4.
  unfold ECHO_TIMEOUT in *. rewrite u64_id by (unfold is_u64; lia). destruct (Z.leb_spec i.2 (now - 50)); [done|lia].
Qed.

Lemma echo_inv_set l n t c now :
  echo_inv l n t c -> t <= now < 2 ^ 64 ->
  echo_inv l n now (set_echo_ack now c).2 /\ echo_ack c <= echo_ack (set_echo_ack now c).2.
Proof.
  intros Hi Hnow. pose proof (echo_inv_later _ _ _ now _ Hnow Hi) as (Hs & Hl & Hr & Hc).
  assert (Hu : u64 (now - ECHO_TIMEOUT) = now - ECHO_TIMEOUT) by (apply u64_id; unfold is_u64, ECHO_TIMEOUT in *; lia).
  assert (Hh : exists pre, l = pre ++ input_history c).
  { destruct Hc as [[-> _]|(pre & i & rest & -> & -> & _)]; [by exists []|by exists pre]. }
  destruct Hh as (pre & El). cbn [set_echo_ack snd]. set (h := input_history c) in *.
  assert (Hsh : StronglySorted later h) by (rewrite El in Hs; by apply StronglySorted_app in Hs as (_ & _ & ?)).
  destruct (newest_split now h Hsh) as [Hnone|(a & k & b & Eh & Hle & Hb & ->)].
  - destruct Hc as [[H1 H2]|(pre' & i & rest & _ & H1 & _ & H4)];
      [|rewrite H1 in Hnone; apply Forall_cons in Hnone as [? _]; lia].
    unfold newest_echo_ack. rewrite newest_none by done. split; [|cbn; lia]. split; [done|]. split; [done|]. split; [done|].
    left. split; [|done]. cbn. rewrite filter_all; [done|]. rewrite H1. eapply Forall_impl; [exact Hl|]. cbn. lia.
  - rewrite Eh in Hsh. rewrite Eh, filter_later by done. split.
    + split; [done|]. split; [done|]. split; [done|]. right. exists (pre ++ a), k, b. rewrite <- app_assoc, <- Eh. split_and!; auto; lia.
    + cbn. destruct Hc as [[_ ->]|(pre' & i & rest & _ & H1 & -> & _)].
      * rewrite El, Eh, !Forall_app, Forall_cons in Hl. lia.
      * rewrite H1 in Eh. destruct a as [|i' a]; cbn in Eh; injection Eh as <- Er; [lia|].
        cbn in Hsh. apply StronglySorted_cons in Hsh as [Hi' _]. rewrite Forall_app, Forall_cons in Hi'.
        destruct Hi' as (_ & [? _] & _). lia.
Qed.

Lemma run_echo_inv ops : forall l n t c,
  echo_inv l n t c -> 0 <= n -> echo_ops_ok n t ops ->
  exists n' t', echo_inv (l ++ registered ops) n' t' (run_echo ops c) /\
    forall now, echo_ops_ok n t (ops ++ [SetEchoAck now]) -> t' <= now < 2 ^ 64.
Proof.
  induction ops as [|op ops IH]; intros l n t c Hi Hn Hok.
  { exists n, t. cbn. rewrite app_nil_r. split; [done|]. tauto. }
  destruct op as [n1 now|now]; cbn [echo_ops_ok] in Hok.
  - destruct Hok as (H1 & H2 & H3).
    destruct (IH _ _ _ _ (echo_inv_register _ _ _ _ _ _ Hi Hn H1 H2) ltac:(lia) H3) as (n' & t' & Hi' & Ht).
    exists n', t'. rewrite <- app_assoc in Hi'. split; [exact Hi'|]. intros u (_ & _ & Hu). by apply Ht.
  - destruct Hok as (H2 & H3).
    destruct (IH _ _ _ _ (proj1 (echo_inv_set _ _ _ _ _ Hi H2)) Hn H3) as (n' & t' & Hi' & Ht).
    exists n', t'. split; [exact Hi'|]. intros u (_ & Hu). by apply Ht.
Qed.

(** In the log itself: the acknowledged frame is the greatest of those old
    enough, and the history is the log from it on. *)
Lemma echo_inv_meaning l n now c :
  echo_inv l n now c -> echo_ack c = newest_echo_ack now l ->
  (echo_ack c = 0 /\ Forall (fun i => now - 50 < i.2) l \/ exists t, (echo_ack c, t) ∈ l /\ t <= now - 50) /\
  (forall k t, (k, t) ∈ l -> t <= now - 50 -> k <= echo_ack c) /\
  (forall i, i ∈ input_history c <-> i ∈ l /\ echo_ack c <= i.1).
Proof.
  intros (Hs & Hl & Hr & Hc) En. rewrite Forall_forall in Hl. unfold ECHO_TIMEOUT in Hr.
  assert (Hu : u64 (now - ECHO_TIMEOUT) = now - 50) by (apply u64_id; unfold is_u64, ECHO_TIMEOUT; lia).
  destruct (newest_split now l Hs) as [Hn|(a & i & b & -> & Hi & Hb & Ei)].
  - rewrite Hu in Hn. unfold newest_echo_ack in En. rewrite newest_none in En by (by rewrite Hu). split; [by left|].
    rewrite Forall_forall in Hn. split.
    + intros k t Hk Ht. specialize (Hn _ Hk). cbn in Hn. lia.
    + destruct Hc as [[-> _]|(pre & i & rest & -> & _ & Hi & _)].
      * intros i. split; [|tauto]. intros Hi. specialize (Hl _ Hi). split; [done|lia].
      * assert (Hin : i ∈ pre ++ i :: rest) by (apply elem_of_app; right; apply list_elem_of_here).
        specialize (Hl _ Hin). lia.
  - rewrite Hu in Hi, Hb. rewrite Ei in En. pose proof Hs as Hs'. apply StronglySorted_app in Hs' as (Hab & _ & Hib).
    apply StronglySorted_cons in Hib as [Hib _]. rewrite Forall_forall in Hb, Hib.
    assert (Hin : i ∈ a ++ i :: b) by (apply elem_of_app; right; apply list_elem_of_here). split; [|split].
    + right. exists i.2. rewrite En. by destruct i.
    + intros k t Hk Ht. rewrite En. apply elem_of_app in Hk as [Hk|[<-|Hk]%elem_of_cons]; [|cbn; lia|].
      * destruct (Hab _ i Hk ltac:(apply list_elem_of_here)) as [Hlt _]. cbn in Hlt. lia.
      * specialize (Hb _ Hk). cbn in Hb. lia.
    + destruct Hc as [[_ H0]|(pre & j & rest & El & -> & Hj & _)]; [specialize (Hl _ Hin); lia|].
      intros x. rewrite El. rewrite El in Hs. apply StronglySorted_app in Hs as (Hpj & _ & Hjr).
      apply StronglySorted_cons in Hjr as [Hjr _]. rewrite Forall_forall in Hjr. rewrite elem_of_app. split.
      * intros Hx. split; [by right|]. apply elem_of_cons in Hx as [->|Hx]; [lia|]. destruct (Hjr _ Hx). lia.
      * intros [[Hx|Hx] Hge]; [|done]. destruct (Hpj x j Hx ltac:(apply list_elem_of_here)) as [? _]. lia.
Qed.

(** C28. Echo acknowledgements.  However registrations and updates follow each
    other (the clock does not go back and has passed 50 ms, frame numbers go
    up), an update acknowledges the greatest frame ever registered that was
    registered at least 50 ms ago, or 0 when there is none; the history is
    left with that frame and the later ones, no earlier ones; the update says
    whether the acknowledged frame changed.  It never goes down, so that the
    assertion of [diff_from] on the echo acknowledgements of a terminal and an
    earlier copy of it holds. *)
Theorem echo_ack_exact c ops now :
  input_history c = [] -> echo_ack c = 0 -> echo_ops_ok 0 50 (ops ++ [SetEchoAck now]) ->
  let before := run_echo ops c in
  let changed := (set_echo_ack now before).1 in
  let after := (set_echo_ack now before).2 in
  let frames := registered ops in
  (echo_ack after = 0 /\ Forall (fun i => now - 50 < i.2) frames \/
   exists t, (echo_ack after, t) ∈ frames /\ t <= now - 50) /\
  (forall k t, (k, t) ∈ frames -> t <= now - 50 -> k <= echo_ack after) /\
  (forall i, i ∈ input_history after <-> i ∈ frames /\ echo_ack after <= i.1) /\
  (changed = true <-> echo_ack after <> echo_ack before) /\ echo_ack before <= echo_ack after /\
  exists m, echo_message before after = Ok m.
Proof.
  intros Hh He Hok. cbv zeta. change 50 with ECHO_TIMEOUT in Hok.
  assert (Hok' : echo_ops_ok 0 ECHO_TIMEOUT ops).
  { revert Hok. generalize 0, ECHO_TIMEOUT. clear. induction ops as [|[n1 t1|t1] ops IH]; cbn; intros n t; intuition eauto. }
  destruct (run_echo_inv ops [] 0 ECHO_TIMEOUT c) as (n' & t' & Hi & Ht); [|done|done|].
  { split_and!; try done; try (unfold ECHO_TIMEOUT; lia); [constructor|]. left. auto. }
  specialize (Ht now Hok). cbn [app] in Hi. destruct (echo_inv_set _ _ _ _ _ Hi Ht) as [Hset Hmono].
  destruct (echo_inv_meaning _ _ _ _ Hset (echo_inv_newest _ _ _ _ _ Hi Ht)) as (H1 & H2 & H3).
  split_and!; [exact H1|exact H2|exact H3| |exact Hmono|].
  - cbn [set_echo_ack fst snd echo_ack set_field]. rewrite negb_true_iff, Z.eqb_neq. split; congruence.
  - cbn [set_echo_ack snd] in *. unfold echo_message.
    destruct (_ =? _); [eauto|]. match goal with |- context [negb ?b] => replace b with true by (symmetry; by apply Z.leb_le) end.
    cbn. eauto.
Qed.

(** Frames 1, 2 and 3; the first two are old enough at 140 ms. *)
Definition sample_echo : list echo_op :=
  [RegisterInputFrame 1 60; SetEchoAck 80; RegisterInputFrame 2 85; SetEchoAck 111; RegisterInputFrame 3 120].

Lemma echo_ack_exact_witness :
  match Complete_new 3 2 0 with
  | Ok c =>
      let before := run_echo sample_echo c in
      let changed := (set_echo_ack 140 before).1 in
      let after := (set_echo_ack 140 before).2 in
      let frames := [(1, 60); (2, 85); (3, 120)] in
      (echo_ack after = 0 /\ Forall (fun i => 140 - 50 < i.2) frames \/
       exists t, (echo_ack after, t) ∈ frames /\ t <= 140 - 50) /\
      (forall k t, (k, t) ∈ frames -> t <= 140 - 50 -> k <= echo_ack after) /\
      (forall i, i ∈ input_history after <-> i ∈ frames /\ echo_ack after <= i.1) /\
      (changed = true <-> echo_ack after <> echo_ack before) /\ echo_ack before <= echo_ack after /\
      exists m, echo_message before after = Ok m
  | Err _ => False
  end.
Proof.
  destruct (Complete_new 3 2 0) as [c|] eqn:E; [|by vm_compute in E].
  apply (echo_ack_exact c sample_echo 140).
  - vm_compute in E. by injection E as <-.
  - vm_compute in E. by injection E as <-.
  - cbn. lia.
Defined.

Example sample_echo_run :
  match Complete_new 3 2 0 with
  | Ok c => let after := (set_echo_ack 140 (run_echo sample_echo c)).2 in (echo_ack after, input_history after)
  | Err _ => (0, [])
  end = (2, [(2, 85); (3, 120)]).
Proof. vm_compute. reflexivity. Qed.
