(* ===== verification/Mirror.v ===== *)
(** * A client that follows a host

    The host's terminal interprets output and resizes; after each of them the
    client applies the difference.  The examples at the end are runs on which
    the client does not show what the host shows. *)
From S2P Require Export Complete.

Inductive host_event : Type := Output (s : bytes) | ResizeTo (w h : Z).

Definition host_step (ev : host_event) (c : Complete) : result fault Complete :=
  '(_, c') ← (match ev with
              | Output s => act s c
              | ResizeTo w h => act_one (MkAction (Resize w h) 0 false) c
              end);
  Ok c'.

(** The host's terminal and the client's. *)
Definition mirror_step `{Libc} (ev : host_event) (s k : Complete) : result fault (Complete * Complete) :=
  s' ← host_step ev s;
  m ← screen_message [] [] (get_fb s) (get_fb s');
  '(_, k') ← apply_instructions m k;
  Ok (s', k').

Fixpoint mirror_run `{Libc} (evs : list host_event) (s k : Complete) : result fault (Complete * Complete) :=
  match evs with
  | [] => Ok (s, k)
  | ev :: evs' => '(s', k') ← mirror_step ev s k; mirror_run evs' s' k'
  end.

Definition mirror `{Libc} (w h : Z) (evs : list host_event) : result fault (Complete * Complete) :=
  c ← Complete_new w h 0;
  mirror_run evs c c.

(** ** What the two show *)

Definition texts (c : Complete) : list (list bytes) := (fun r => contents <$> cells r) <$> rows (get_fb c).
Definition links (c : Complete) : list (list Hyperlink) := (fun r => cell_hyperlink <$> cells r) <$> rows (get_fb c).
Definition cursor (c : Complete) : Z * Z := (cursor_row (ds (get_fb c)), cursor_col (ds (get_fb c))).

Definition both {A} (show : Complete -> A) (r : result fault (Complete * Complete)) : result fault (A * A) :=
  '(s, k) ← r; Ok (show s, show k).

(** The characters of a line, one in each cell. *)
Definition line (s : bytes) : list bytes := (fun c => [c]) <$> s.

(** A title, a scroll and a change of renditions. *)
Example mirror_follows :
  let r := mirror 6 2 [Output (27 :: str "]0;t" ++ [7]); Output (str "one" ++ [13; 10] ++ str "two");
                       Output ([13; 10] ++ 27 :: str "[1mx"); ResizeTo 4 2] in
  both texts r = Ok ([line (str "two") ++ [[]]; line (str "x") ++ [[]; []; []]],
                     [line (str "two") ++ [[]]; line (str "x") ++ [[]; []; []]]) /\
  both cursor r = Ok ((1, 1), (1, 1)).
Proof. by vm_compute. Qed.

(** ** Runs on which the client goes wrong *)

(** After the last column of the last row the cursor is kept on that column,
    but [frame.cursor_x] is one past it, so the backspaces of [append_move]
    go one column too far: what is typed next lands in the wrong cells. *)
Example backspace_past_margin :
  both cursor (mirror 4 2 [Output (str "ab"); Output (str "cdefgh")]) = Ok ((1, 3), (1, 2)) /\
  both texts (mirror 4 2 [Output (str "ab"); Output (str "cdefgh"); Output (8 :: 8 :: str "x"); Output (str "y")]) =
    Ok ([line (str "abcd"); line (str "exyh")], [line (str "abcd"); line (str "xygh")]).
Proof. by vm_compute. Qed.

(** Both halves of a wide character are overwritten, the right one first.
    [put_row] steps over the cell behind a wide one that did not change, so
    the client never gets the right half. *)
Example wide_cell_hides_change :
  both texts (mirror 4 1 [Output ([0xE4; 0xB8; 0x80] ++ 27 :: str "[1;2Ha"); Output (27 :: str "[1;1Hb")]) =
    Ok ([[[98]; [97]; []; []]], [[[98]; []; []; []]]).
Proof. by vm_compute. Qed.

(** After a resize [new_frame] takes the terminal's hyperlink to be closed
    without closing it: the text is drawn again inside the link. *)
Example link_left_open :
  both links (mirror 4 1 [Output (65 :: 27 :: str "]8;;u" ++ [7]); ResizeTo 5 1]) =
    Ok ([replicate 5 None], [Some ([], str "u") :: replicate 4 None]).
Proof. by vm_compute. Qed.

(** A hyperlink changes between the last column of a row and the first of the
    next: the escape sequence makes the client's terminal forget that it is
    about to wrap, and the first cell of the row overwrites the last of the
    row above. *)
Example link_breaks_wrap :
  both texts (mirror 4 2 [Output (str "abc"); Output (str "d" ++ 27 :: str "]8;;u" ++ 7 :: str "ef")]) =
    Ok ([line (str "abcd"); [[101]; [102]; []; []]], [line (str "abce"); [[102]; []; []; []]]).
Proof. by vm_compute. Qed.
