(* ===== verification/View.v ===== *)
(** * What a terminal shows

    The visible state of a terminal as a value, and what the octets the display
    writes do to it: one lemma per kind of sequence, proved on the emulator.  A
    blank cell and a printed space look alike, and so do a combining character
    on nothing and on a no-break space. *)
From S2P Require Export ScreenSpec Complete.

(** ** Views *)

(** A cell as it is seen: the grapheme it prints, its renditions and link. *)
Definition vis (c : Cell) : Cell :=
  MkCell (print_grapheme c []) (cell_renditions c) (cell_hyperlink c) (wide c) false false.

Record View : Type := MkView {
  v_rows : list (list Cell); v_row : Z; v_col : Z; v_pend : bool; v_top : Z; v_bot : Z;
  v_rend : Renditions; v_link : Hyperlink; v_visible : bool; v_reverse : bool; v_paste : bool;
  v_mouse : Z; v_focus : bool; v_enc : Z; v_icon : list Z; v_title : list Z; v_clip : list Z }.
#[export] Instance eta_View : Eta View :=
  fun v => MkView (v_rows v) (v_row v) (v_col v) (v_pend v) (v_top v) (v_bot v) (v_rend v) (v_link v)
    (v_visible v) (v_reverse v) (v_paste v) (v_mouse v) (v_focus v) (v_enc v) (v_icon v) (v_title v) (v_clip v).

Definition vis_rows (rs : list Row) : list (list Cell) := (fun r => vis <$> cells r) <$> rs.

Definition view_of (f : Framebuffer) : View :=
  MkView (vis_rows (rows f)) (cursor_row (ds f)) (cursor_col (ds f)) (next_print_will_wrap (ds f))
    (scrolling_region_top_row (ds f)) (scrolling_region_bottom_row (ds f)) (ds_renditions (ds f)) (ds_hyperlink (ds f))
    (cursor_visible (ds f)) (reverse_video (ds f)) (bracketed_paste (ds f)) (mouse_reporting_mode (ds f))
    (mouse_focus_event (ds f)) (mouse_encoding_mode (ds f)) (icon_name f) (window_title f) (clipboard f).

(** The modes of a terminal that only a display writes to. *)
Definition plain_modes (d : DrawState) : Prop :=
  insert_mode d = false /\ origin_mode d = false /\ auto_wrap_mode d = true.

Definition emu_fb (e : Emulator) : Framebuffer := fb (screen (ctx e)).

(** ** Writing cells *)

(** [cs] over the cells of a row from column [m] on. *)
Definition write_at {A} (m : nat) (cs row : list A) : list A := take m row ++ cs ++ drop (m + length cs) row.

Lemma length_write_at {A} m (cs row : list A) : (m + length cs <= length row)%nat -> length (write_at m cs row) = length row.
Proof. intros. unfold write_at. rewrite !length_app, length_take, length_drop. lia. Qed.

Lemma write_at_one {A} m (x : A) row : (m < length row)%nat -> write_at m [x] row = <[m := x]> row.
Proof.
  intros Hm. unfold write_at. cbn [length]. rewrite insert_take_drop by done. by rewrite Nat.add_1_r.
Qed.

Lemma write_at_nil {A} m (row : list A) : write_at m [] row = row.
Proof. unfold write_at. cbn [length app]. by rewrite Nat.add_0_r, take_drop. Qed.

Lemma write_at_app {A} m (cs cs' row : list A) :
  (m + length cs + length cs' <= length row)%nat ->
  write_at (m + length cs) cs' (write_at m cs row) = write_at m (cs ++ cs') row.
Proof.
  intros Hl. unfold write_at at 1 3. rewrite length_app.
  assert (H1 : take (m + length cs) (write_at m cs row) = take m row ++ cs).
  { unfold write_at. rewrite app_assoc, take_app_le by (rewrite length_app, length_take; lia).
    apply take_ge. rewrite length_app, length_take. lia. }
  assert (H2 : drop (m + length cs + length cs') (write_at m cs row) = drop (m + (length cs + length cs')) row).
  { unfold write_at. rewrite app_assoc, drop_app_ge by (rewrite length_app, length_take; lia).
    rewrite length_app, length_take, drop_drop. f_equal. lia. }
  by rewrite H1, H2, <- !app_assoc.
Qed.

Lemma fmap_write_at {A B} (f : A -> B) m cs row : f <$> write_at m cs row = write_at m (f <$> cs) (f <$> row).
Proof. unfold write_at. by rewrite !fmap_app, fmap_take, fmap_drop, length_fmap. Qed.

(** ... over the cells of row [i] of a screen. *)
Definition write_row (i m : nat) (cs : list Cell) (rs : list Row) : list Row :=
  alter (fun r => r <| cells := write_at m cs (cells r) |>) i rs.

Lemma vis_write_row i m cs rs : vis_rows (write_row i m cs rs) = alter (write_at m (vis <$> cs)) i (vis_rows rs).
Proof.
  unfold vis_rows, write_row. apply list_fmap_alter. apply Forall_forall. intros r _. cbn. apply fmap_write_at.
Qed.

Lemma write_row_app i m cs cs' rs :
  (forall r, rs !! i = Some r -> (m + length cs + length cs' <= length (cells r))%nat) ->
  write_row i (m + length cs) cs' (write_row i m cs rs) = write_row i m (cs ++ cs') rs.
Proof.
  intros Hl. unfold write_row. apply list_eq. intros j.
  destruct (decide (i = j)) as [<-|Hne]; [|by rewrite !list_lookup_alter_ne].
  rewrite !list_lookup_alter_eq. destruct (rs !! i) as [r|] eqn:E; [|done]. cbn. by rewrite write_at_app by by apply Hl.
Qed.

Lemma Cell_reset_new b c : Cell_reset b c = Cell_new b.
Proof. done. Qed.

Section screens.
Context (w h : Z).

(** A write to one cell. *)
Lemma with_cell_write row col f s r x x' :
  0 <= resolve_row row s -> 0 <= resolve_col col s ->
  lookupZ (rows (fb s)) (resolve_row row s) = Some r -> lookupZ (cells r) (resolve_col col s) = Some x -> f x = Ok x' ->
  with_cell row col f s =
    Ok (tt, put_rows (write_row (Z.to_nat (resolve_row row s)) (Z.to_nat (resolve_col col s)) [x'] (rows (fb s))) s).
Proof.
  intros Hi Hj Hr Hx Hf. unfold with_cell, with_row, get_row. unfold mbind at 1, M_bind at 1. cbn [gets].
  unfold mbind at 1, M_bind at 1. cbn [gets]. unfold mbind at 1, M_bind at 1.
  unfold mbind at 1, M_bind at 1. cbn [gets]. unfold mbind at 1, M_bind at 1. cbn [gets].
  unfold at_ at 1. rewrite Hr. cbn [lift]. unfold mbind at 1, M_bind at 1. unfold at_. rewrite Hx. cbn [mbind result_bind].
  rewrite Hf. cbn [mbind result_bind lift]. unfold modify. do 3 f_equal.
  unfold write_row, updateZ. rewrite !decide_True by done. apply list_eq. intros i.
  pose proof (lookupZ_Some_lt _ _ _ Hr) as Hrl. pose proof (lookupZ_Some_lt _ _ _ Hx) as Hxl. unfold lenZ in *.
  unfold lookupZ in Hr. rewrite decide_True in Hr by done.
  destruct (decide (i = Z.to_nat (resolve_row row s))) as [->|Hne].
  - rewrite list_lookup_insert_eq, list_lookup_alter_eq by lia. rewrite Hr. cbn. do 2 f_equal. symmetry. apply write_at_one. lia.
  - by rewrite list_lookup_insert_ne, list_lookup_alter_ne by done.
Qed.

Lemma write_row_inv i m cs s :
  scr_inv w h s -> (m + length cs <= Z.to_nat w)%nat -> Forall cell_wf cs ->
  scr_inv w h (put_rows (write_row i m cs (rows (fb s))) s).
Proof.
  intros [Hd [Hl Hr]] Hm Hcs. split; [done|]. split; [unfold lenZ, write_row in *; cbn; by rewrite length_alter|].
  cbn. unfold write_row. apply Forall_alter; [done|]. intros r Hi _. rewrite Forall_lookup in Hr. destruct (Hr _ _ Hi) as [Hlen Hwf].
  unfold lenZ in *. split; cbn.
  - unfold lenZ. rewrite length_write_at; lia.
  - unfold write_at. apply Forall_app. split; [by apply Forall_take|]. apply Forall_app. split; [done|]. by apply Forall_drop.
Qed.

(** [reset_cell] on the cursor row. *)
Lemma reset_cell_write i s :
  scr_inv w h s -> 0 <= i < w ->
  reset_cell (-1) i s = Ok (tt, put_rows (write_row (Z.to_nat (cursor_row (scr_ds s))) (Z.to_nat i)
    [Cell_new (get_background_rendition (scr_ds s))] (rows (fb s))) s).
Proof.
  intros [Hd Hrs] Hi. pose proof Hd as [].
  destruct (rows_at_ok w h (rows (fb s)) (cursor_row (scr_ds s)) Hrs) as (r & Er & [Hlen _]); [done|].
  apply at_inv in Er. destruct (lookupZ_lt (cells r) i) as (x & Ex); [lia|].
  unfold reset_cell. unfold mbind at 1, M_bind at 1. cbn [gets].
  rewrite (with_cell_write (-1) i _ s r x (Cell_new (get_background_rendition (scr_ds s)))).
  - unfold resolve_row, resolve_col. change (-1 =? -1) with true. cbv iota. destruct (Z.eqb_spec i (-1)); [lia|done].
  - unfold resolve_row. change (-1 =? -1) with true. cbv iota. lia.
  - unfold resolve_col. destruct (Z.eqb_spec i (-1)); lia.
  - done.
  - unfold resolve_col. destruct (Z.eqb_spec i (-1)); [lia|done].
  - done.
Qed.

Lemma clearline_write n a s d :
  scr_inv w h s -> 0 <= a -> a + Z.of_nat n <= w ->
  for_n n a (fun col => on_screen (reset_cell (-1) col)) (MkContext s d) =
    Ok (tt, MkContext (put_rows (write_row (Z.to_nat (cursor_row (scr_ds s))) (Z.to_nat a)
      (replicate n (Cell_new (get_background_rendition (scr_ds s)))) (rows (fb s))) s) d).
Proof.
  revert a s. induction n as [|n IH]; intros a s Hs Ha Hn; cbn [for_n].
  - cbn. unfold mret, M_ret. do 3 f_equal. unfold put_rows. cbn [replicate].
    assert (write_row (Z.to_nat (cursor_row (scr_ds s))) (Z.to_nat a) [] (rows (fb s)) = rows (fb s)) as ->.
    { unfold write_row. apply list_eq. intros j. destruct (decide (Z.to_nat (cursor_row (scr_ds s)) = j)) as [<-|];
        [|by rewrite list_lookup_alter_ne]. rewrite list_lookup_alter_eq. destruct (_ !! _) as [r|]; [|done].
      cbn. rewrite write_at_nil. by destruct r. }
    by destruct s as [? []].
  - set (s1 := put_rows (write_row (Z.to_nat (cursor_row (scr_ds s))) (Z.to_nat a)
      [Cell_new (get_background_rendition (scr_ds s))] (rows (fb s))) s).
    rewrite (M_bind_Ok _ _ _ tt (MkContext s1 d)).
    2:{ unfold on_screen, zoom. cbn [screen]. rewrite reset_cell_write by (done || lia). done. }
    assert (Hs1 : scr_inv w h s1).
    { apply write_row_inv; [done|cbn; lia|]. apply Forall_cons. split; [|done]. apply Cell_new_wf. apply inv_renditions with w h. by destruct Hs. }
    rewrite IH by (done || lia). do 3 f_equal. unfold s1. unfold put_rows. cbn [fb rows set_field scr_ds ds].
    change (scr_ds (s <| fb := (fb s) <| rows := ?r |> |>)) with (scr_ds s).
    replace (Z.to_nat (a + 1)) with (Z.to_nat a + length [Cell_new (get_background_rendition (scr_ds s))])%nat by (cbn; lia).
    rewrite write_row_app; [done|]. intros r Hr. destruct Hs as [_ [_ Hrs]]. rewrite Forall_lookup in Hrs.
    destruct (Hrs _ _ Hr) as [Hl _]. unfold lenZ in Hl. cbn [length]. rewrite length_replicate. lia.
Qed.
End screens.

Section views.
Context `{HL : Libc} `{HLL : !LibcLaws} (w h : Z).

(** A terminal between two sequences. *)
Record client (k : Complete) : Prop := {
  cl_inv : complete_inv w h k;
  cl_parser : c_parser k = MkUTF8Parser Ground [];
  cl_host : terminal_to_host (dispatch_ (ctx (terminal k))) = [];
  cl_modes : plain_modes (ds (get_fb k)) }.

(** The octets [s] take any terminal that shows [v] to one that shows [v']. *)
Definition draws (s : bytes) (v v' : View) : Prop :=
  forall k, client k -> view_of (get_fb k) = v ->
    exists k', act_octets s k = Ok (tt, k') /\ client k' /\ view_of (get_fb k') = v' /\
      echo_ack k' = echo_ack k /\ input_history k' = input_history k.

Lemma draws_nil v : draws [] v v.
Proof. intros k Hk Hv. exists k. done. Qed.

Lemma draws_app s1 s2 v1 v2 v3 : draws s1 v1 v2 -> draws s2 v2 v3 -> draws (s1 ++ s2) v1 v3.
Proof.
  intros H1 H2 k Hk Hv. destruct (H1 k Hk Hv) as (k1 & E1 & Hk1 & Hv1 & Ha1 & Hh1).
  destruct (H2 k1 Hk1 Hv1) as (k2 & E2 & Hk2 & Hv2 & Ha2 & Hh2). exists k2. rewrite act_octets_app.
  rewrite (M_bind_Ok _ _ _ tt k1 E1). split_and!; congruence || done.
Qed.

(** ASCII octets that leave the parser in the ground state, by their actions. *)
Lemma draws_actions s v v' :
  Forall (fun c => 0 <= c <= 127) s -> fst (parse_run Ground s) = Ground ->
  (forall e, emu_inv w h e -> plain_modes (ds (emu_fb e)) -> view_of (emu_fb e) = v ->
    exists e', act_all (snd (parse_run Ground s)) e = Ok (tt, e') /\ plain_modes (ds (emu_fb e')) /\
      view_of (emu_fb e') = v' /\ terminal_to_host (dispatch_ (ctx e')) = terminal_to_host (dispatch_ (ctx e))) ->
  draws s v v'.
Proof.
  intros Hs Hg He [p e hist ack] [[Hp Hinv] Hpar Hh Hm] Hv. cbn in Hpar. subst p.
  destruct (He e Hinv Hm Hv) as (e' & Ea & Hm' & Hv' & Hh'). eexists. rewrite act_octets_ascii by done.
  rewrite Ea, Hg. split; [reflexivity|]. split; [|done].
  assert (Hu : Forall is_u8 s) by (eapply Forall_impl; [exact Hs|]; unfold is_u8; cbn; intros; lia).
  destruct (act_octets_safe w h s Hu (MkComplete (MkUTF8Parser Ground []) e hist ack)) as (a & k' & Ek & Hk').
  { by split. }
  rewrite act_octets_ascii, Ea, Hg in Ek by done. injection Ek as _ <-. split; try done. cbn in *. congruence.
Qed.

(** Sequences without parameters from the frame: the actions compute. *)
Ltac fixed_seq :=
  apply draws_actions; [by repeat constructor|reflexivity|];
  intros [[[g [rs ic ti cl be tin []]] []] u] He (Hm1 & Hm2 & Hm3) Hv; cbn in Hm1, Hm2, Hm3;
  subst; unfold emu_fb in *; cbn in *;
  eexists; split; [vm_compute; reflexivity|]; split; [by split_and!|split; [reflexivity|reflexivity]].

(** ... and any octets, by the context they leave. *)
Lemma draws_ctx s v v' :
  Forall is_u8 s ->
  (forall k, client k -> view_of (get_fb k) = v ->
    exists s' d', act_octets s k = Ok (tt, k <| terminal := (terminal k) <| ctx := MkContext s' d' |> |>) /\
      terminal_to_host d' = terminal_to_host (dispatch_ (ctx (terminal k))) /\
      plain_modes (ds (fb s')) /\ view_of (fb s') = v') ->
  draws s v v'.
Proof.
  intros Hs H k Hk Hv. destruct (H k Hk Hv) as (s' & d' & E & Hh & Hm & Hv'). eexists. split; [exact E|].
  split; [|done]. destruct Hk as [Hi Hp Hh0 Hm0].
  destruct (act_octets_safe w h s Hs k Hi) as (a & k' & Ek & Hk'). rewrite E in Ek. injection Ek as _ <-.
  split; try done. cbn. by rewrite Hh.
Qed.

Lemma draws_visible (b : bool) v : draws (27 :: str (if b then "[?25h" else "[?25l")) v (v <| v_visible := b |>).
Proof. destruct b; fixed_seq. Qed.
Lemma draws_reverse (b : bool) v :
  draws (27 :: str "[?5" ++ (if b then str "h" else str "l")) v (v <| v_reverse := b |>).
Proof. destruct b; fixed_seq. Qed.
Lemma draws_paste (b : bool) v : draws (27 :: str (if b then "[?2004h" else "[?2004l")) v (v <| v_paste := b |>).
Proof. destruct b; fixed_seq. Qed.
Lemma draws_focus (b : bool) v : draws (27 :: str (if b then "[?1004h" else "[?1004l")) v (v <| v_focus := b |>).
Proof. destruct b; fixed_seq. Qed.

(** The reporting modes of [MouseReportingMode] and the encodings of
    [MouseEncodingMode]. *)
Definition mouse_modes : list Z := [9; 1000; 1001; 1002; 1003].
Definition enc_modes : list Z := [1005; 1006; 1015].

Lemma draws_mouse m (b : bool) v : m ∈ mouse_modes ->
  draws (27 :: str "[?" ++ dec m ++ str (if b then "h" else "l")) v (v <| v_mouse := if b then m else MOUSE_REPORTING_NONE |>).
Proof.
  unfold mouse_modes. rewrite !elem_of_cons, elem_of_nil.
  intros [->|[->|[->|[->|[->|[]]]]]]; destruct b; fixed_seq.
Qed.
Lemma draws_enc m (b : bool) v : m ∈ enc_modes ->
  draws (27 :: str "[?" ++ dec m ++ str (if b then "h" else "l")) v (v <| v_enc := if b then m else MOUSE_ENCODING_DEFAULT |>).
Proof.
  unfold enc_modes. rewrite !elem_of_cons, elem_of_nil. intros [->|[->|[->|[]]]]; destruct b; fixed_seq.
Qed.

Lemma draws_sgr r v : rend_wf r -> draws (sgr r) v (v <| v_rend := r |>).
Proof.
  intros Hr. apply draws_ctx.
  { destruct (sgr_params_ok r Hr) as [Hok _]. pose proof (param_char_ascii _ (join_params_chars _ Hok)) as Hc.
    rewrite sgr_text by done. apply Forall_cons. split; [by unfold is_u8|]. apply Forall_cons. split; [by unfold is_u8|].
    apply Forall_app. split; [|by repeat constructor]. eapply Forall_impl; [exact Hc|]. unfold is_u8. cbn. intros. lia. }
  intros k [[Hu Hi] Hp Hh Hm] Hv. destruct (sgr_act w h r k Hr Hi Hp) as (d' & E & Hh').
  do 2 eexists. split; [exact E|]. split; [done|]. split; [done|]. by rewrite <- Hv.
Qed.

(** *** Control characters *)

(** A control character of the registry, by what its function does to the screen. *)
Lemma draws_control c m v v' :
  0 < c < 32 -> parse_run Ground [c] = (Ground, [MkAction Execute c true]) ->
  call CONTROL [c] = (when_ true clear_wrap ;; on_screen m) ->
  (forall s, scr_inv w h s -> plain_modes (scr_ds s) -> view_of (fb s) = v <| v_pend := false |> ->
    exists s', m s = Ok (tt, s') /\ plain_modes (scr_ds s') /\ view_of (fb s') = v') ->
  draws [c] v v'.
Proof.
  intros Hc Hp Hcall Hm. apply draws_actions; [constructor; [lia|done]|by rewrite Hp|]. rewrite Hp. cbn [snd act_all].
  intros [[s d] u] [Hs Hd] Hmo Hv. unfold emu_fb in *. cbn [ctx screen] in *.
  set (s1 := put_ds ((scr_ds s) <| next_print_will_wrap := false |>) s).
  destruct (Hm s1) as (s' & E & Hmo' & Hv').
  - destruct Hs as [[] Hr]. split; [by split|done].
  - done.
  - by rewrite <- Hv.
  - exists (MkEmulator (MkContext s' d) u). split; [|done]. unfold mbind, M_bind, act_on_terminal. cbn [typ].
    unfold on_ctx, zoom, dispatch. cbn [ctx]. unfold mbind at 1, M_bind at 1. cbn [mret M_ret].
    unfold mbind at 1, M_bind at 1. unfold mbind at 1, M_bind at 1. cbn [ch].
    rewrite (proj2 (Z.leb_le c 255)) by lia. cbn [assert_ mret M_ret].
    rewrite u8_id by (unfold is_u8; lia). rewrite Hcall. cbn [when_]. unfold clear_wrap, set_ds, on_screen, on_ds, zoom, modify, mbind, M_bind.
    cbn [screen set_field]. fold s1. by rewrite E.
Qed.

Lemma move_col_abs d N :
  ds_inv w h d -> origin_mode d = false -> 0 <= N < w ->
  move_col N false false d =
    d <| cursor_col := N |> <| combining_char_col := N |> <| combining_char_row := cursor_row d |>
      <| next_print_will_wrap := false |>.
Proof.
  intros [] Ho HN. unfold move_col, new_grapheme. cbv zeta. rewrite snap_eq. unfold limit_top, limit_bottom.
  cbn -[Z.min Z.max Z.sub]. rewrite Ho. rewrite (Z.max_r 0 N), (Z.min_r _ N), (Z.max_r 0), Z.min_r by lia. by destruct d.
Qed.

Lemma move_row_to d N (rel : bool) :
  ds_inv w h d -> origin_mode d = false -> 0 <= N < h ->
  move_row (if rel then N - cursor_row d else N) rel d =
    d <| cursor_row := N |> <| combining_char_col := cursor_col d |> <| combining_char_row := N |>
      <| next_print_will_wrap := false |>.
Proof.
  intros [] Ho HN. unfold move_row, new_grapheme. cbv zeta. rewrite snap_eq. unfold limit_top, limit_bottom.
  destruct rel; cbn -[Z.min Z.max Z.sub Z.add]; rewrite Ho.
  - replace (cursor_row d + (N - cursor_row d)) with N by lia.
    rewrite (Z.max_r 0 N), (Z.min_r _ N), (Z.max_r 0), Z.min_r by lia. by destruct d.
  - rewrite Z.add_0_r, (Z.max_r 0 N), (Z.min_r _ N), (Z.max_r 0), Z.min_r by lia. by destruct d.
Qed.

Lemma draws_cr v : draws [13] v (v <| v_col := 0 |> <| v_pend := false |>).
Proof.
  apply (draws_control 13 (on_ds (move_col 0 false false))); [lia|done|done|].
  intros s [Hd Hr] Hm Hv. eexists. split; [reflexivity|]. pose proof Hd as [].
  rewrite move_col_abs by (done || apply Hm || lia). split; [done|].
  transitivity ((v <| v_pend := false |>) <| v_col := 0 |> <| v_pend := false |>); [by rewrite <- Hv|done].
Qed.

Lemma move_col_rel d N :
  ds_inv w h d -> origin_mode d = false -> 0 <= cursor_col d + N < w ->
  move_col N true false d = move_col (cursor_col d + N) false false d.
Proof. done. Qed.

Lemma draws_bs v : 0 < v_col v -> draws [8] v (v <| v_col := v_col v - 1 |> <| v_pend := false |>).
Proof.
  intros Hcol. apply (draws_control 8 (on_ds (move_col (-1) true false))); [lia|done|done|].
  intros s [Hd Hr] Hm Hv. eexists. split; [reflexivity|]. pose proof Hd as [].
  assert (Hc : cursor_col (scr_ds s) = v_col v) by (by rewrite <- (f_equal v_col Hv : v_col (view_of (fb s)) = v_col v)).
  rewrite move_col_rel, move_col_abs by (done || apply Hm || lia). split; [done|].
  transitivity ((v <| v_pend := false |>) <| v_col := v_col v + -1 |> <| v_pend := false |>); [|done]. rewrite <- Hv, <- Hc. done.
Qed.

Lemma draws_bs_n n v :
  Z.of_nat n <= v_col v -> (0 < n)%nat ->
  draws (replicate n 8) v (v <| v_col := v_col v - Z.of_nat n |> <| v_pend := false |>).
Proof.
  intros Hc Hn. destruct n as [|n]; [lia|]. clear Hn. revert v Hc. induction n as [|n IH]; intros v Hc.
  - apply draws_bs. lia.
  - change (replicate (S (S n)) 8) with ([8] ++ replicate (S n) 8). eapply draws_app; [apply draws_bs; lia|].
    set (v1 := v <| v_col := v_col v - 1 |> <| v_pend := false |>).
    replace (v <| v_col := v_col v - Z.of_nat (S (S n)) |> <| v_pend := false |>)
      with (v1 <| v_col := v_col v1 - Z.of_nat (S n) |> <| v_pend := false |>);
      [apply IH; change (v_col v1) with (v_col v - 1); lia|].
    unfold v1, set_field. cbn -[Z.sub Z.of_nat]. f_equal. lia.
Qed.

(** The last row of the scrolling region is the last of the screen, or the
    cursor stays inside the region. *)
Lemma draws_lf v : v_top v <= v_row v < v_bot v ->
  draws [10] v (v <| v_row := v_row v + 1 |> <| v_pend := false |>).
Proof.
  intros Hrow. apply (draws_control 10 (move_rows_autoscroll 1)); [lia|done|done|].
  intros s [Hd Hr] Hm Hv. pose proof Hd as [].
  assert (E1 : cursor_row (scr_ds s) = v_row v) by (by rewrite <- (f_equal v_row Hv : v_row (view_of (fb s)) = v_row v)).
  assert (E2 : scrolling_region_top_row (scr_ds s) = v_top v) by (by rewrite <- (f_equal v_top Hv : v_top (view_of (fb s)) = v_top v)).
  assert (E3 : scrolling_region_bottom_row (scr_ds s) = v_bot v) by (by rewrite <- (f_equal v_bot Hv : v_bot (view_of (fb s)) = v_bot v)).
  exists (put_ds (move_row 1 true (scr_ds s)) s). split.
  - unfold move_rows_autoscroll. unfold mbind at 1, M_bind at 1. cbn [gets].
    rewrite E1, E2, E3. destruct (Z.ltb_spec (v_row v) (v_top v)), (Z.ltb_spec (v_bot v) (v_row v)); try lia. cbn [orb].
    destruct (Z.ltb_spec (v_bot v) (v_row v + 1)), (Z.ltb_spec (v_row v + 1) (v_top v)); try lia. done.
  - assert (move_row 1 true (scr_ds s) = move_row (v_row v + 1 - cursor_row (scr_ds s)) true (scr_ds s)) as ->
      by (f_equal; lia).
    rewrite (move_row_to _ (v_row v + 1) true) by (done || apply Hm || lia).
    split; [done|]. transitivity ((v <| v_pend := false |>) <| v_row := v_row v + 1 |> <| v_pend := false |>); [|done]. by rewrite <- Hv.
Qed.

Lemma draws_lf_n n v :
  v_top v <= v_row v -> v_row v + Z.of_nat n <= v_bot v -> v_pend v = false ->
  draws (replicate n 10) v (v <| v_row := v_row v + Z.of_nat n |>).
Proof.
  revert v. induction n as [|n IH]; intros v H1 H2 H3.
  - rewrite Z.add_0_r. assert (v <| v_row := v_row v |> = v) as -> by (by destruct v). apply draws_nil.
  - change (replicate (S n) 10) with ([10] ++ replicate n 10). eapply draws_app; [apply draws_lf; lia|].
    set (v1 := v <| v_row := v_row v + 1 |> <| v_pend := false |>).
    replace (v <| v_row := v_row v + Z.of_nat (S n) |>)
      with (v1 <| v_row := v_row v1 + Z.of_nat n |>); [apply IH; [change (v_row v1) with (v_row v + 1); cbn; lia|
        change (v_row v1) with (v_row v + 1); change (v_bot v1) with (v_bot v); lia|done]|].
    unfold v1, set_field. cbn -[Z.add Z.of_nat]. rewrite <- H3. f_equal. lia.
Qed.

Lemma draws_bell v : draws [7] v (v <| v_pend := false |>).
Proof.
  apply (draws_control 7 (on_fb ring_bell)); [lia|done|done|].
  intros s Hs Hm Hv. eexists. split; [reflexivity|]. split; [done|]. by rewrite <- Hv.
Qed.

(** *** Control sequences *)

Lemma params_u8 pb f : Forall (fun c => is_param_char c = true) pb -> 0x40 <= f <= 0x7E -> Forall is_u8 (27 :: 91 :: pb ++ [f]).
Proof.
  intros Hp Hf. apply Forall_cons. split; [by unfold is_u8|]. apply Forall_cons. split; [by unfold is_u8|].
  apply Forall_app. split; [|repeat constructor; unfold is_u8; lia].
  eapply Forall_impl; [exact (param_char_ascii _ Hp)|]. unfold is_u8. cbn. intros. lia.
Qed.

Lemma draws_call pb f v v' :
  Forall (fun c => is_param_char c = true) pb -> lenZ pb <= 100 -> 0x40 <= f <= 0x7E ->
  (forall s d, scr_inv w h s -> plain_modes (scr_ds s) -> view_of (fb s) = v ->
    disp_inv d -> parameters d = segment_value <$> segments pb -> dispatch_chars d = [f] ->
    exists s' d', call CSI [f] (MkContext s d) = Ok (tt, MkContext s' d') /\ terminal_to_host d' = terminal_to_host d /\
      plain_modes (scr_ds s') /\ view_of (fb s') = v') ->
  draws (27 :: 91 :: pb ++ [f]) v v'.
Proof.
  intros Hp Hl Hf Hfn. apply draws_ctx; [by apply params_u8|].
  intros k [[Hu [Hs Hd]] Hpar Hh Hm] Hv. set (d1 := csi_dispatcher pb f (dispatch_ (ctx (terminal k)))).
  destruct (Hfn (screen (ctx (terminal k))) d1) as (s' & d' & E & Hh' & Hm' & Hv'); try done.
  - apply csi_dispatcher_inv; [done..|unfold is_u8; lia|done].
  - exists s', d'. split; [|done]. rewrite csi_call by done. unfold on_terminal, on_ctx, zoom.
    rewrite (M_bind_Ok _ _ _ tt ((ctx (terminal k)) <| dispatch_ := d1 |>)) by done.
    change ((ctx (terminal k)) <| dispatch_ := d1 |>) with (MkContext (screen (ctx (terminal k))) d1). by rewrite E.
Qed.

(** ... for a function that clears the wrap flag. *)
Lemma draws_csi pb f (fn_ : function) v v' :
  Forall (fun c => is_param_char c = true) pb -> lenZ pb <= 100 -> 0x40 <= f <= 0x7E ->
  call CSI [f] = (when_ true clear_wrap ;; fn_) ->
  (forall s d, scr_inv w h s -> plain_modes (scr_ds s) -> view_of (fb s) = v <| v_pend := false |> ->
    disp_inv d -> parameters d = segment_value <$> segments pb ->
    exists s' d', fn_ (MkContext s d) = Ok (tt, MkContext s' d') /\ terminal_to_host d' = terminal_to_host d /\
      plain_modes (scr_ds s') /\ view_of (fb s') = v') ->
  draws (27 :: 91 :: pb ++ [f]) v v'.
Proof.
  intros Hp Hl Hf Hcall Hfn. apply draws_call; [done..|]. intros s d Hs Hm Hv Hd Hps _.
  set (s1 := put_ds ((scr_ds s) <| next_print_will_wrap := false |>) s).
  destruct (Hfn s1 d) as (s' & d' & E & Hr); try done.
  - destruct Hs as [[] Hr]. split; [by split|done].
  - by rewrite <- Hv.
  - exists s', d'. split; [|done]. rewrite Hcall. rewrite (M_bind_Ok _ _ _ tt (MkContext s1 d)) by done. done.
Qed.

Definition vmove (y x : Z) (v : View) : View := v <| v_row := y |> <| v_col := x |> <| v_pend := false |>.

Lemma draws_move y x v :
  w <= PARAM_MAX -> h <= PARAM_MAX -> 0 <= y < h -> 0 <= x < w ->
  draws (27 :: 91 :: join_params [y + 1; x + 1] ++ [72]) v (vmove y x v).
Proof.
  intros Hw Hh Hy Hx. assert (Hok : Forall (fun z => 0 <= z <= PARAM_MAX) [y + 1; x + 1]) by (repeat constructor; lia).
  apply draws_call; [by apply join_params_chars|apply join_pair_length; lia|lia|].
  intros s d [Hs Hr] Hm Hv Hd Hps Hch. rewrite join_params_values in Hps by done.
  destruct (CUP_eq (y + 1) (x + 1) (MkContext s d)) as (d' & E & _ & Hh'); try done; try lia.
  do 2 eexists. split; [exact E|]. split; [done|]. cbn [screen].
  rewrite !Z.add_simpl_r. unfold cursor_moved. set (d0 := (scr_ds s) <| next_print_will_wrap := false |>).
  assert (Hd0 : ds_inv w h d0) by (destruct Hs; by split).
  pose proof (move_row_inv w h y false d0 Hd0) as Hd1. pose proof (move_row_to d0 y false Hd0) as Er. cbv iota in Er.
  rewrite Er in Hd1 |- * by (done || apply Hm). rewrite move_col_abs.
  - split; [done|]. by rewrite <- Hv.
  - done.
  - apply Hm.
  - done.
Qed.

(** The parameters the functions read. *)
Lemma getp_param N dv s d ps x :
  disp_inv d -> parameters d = ps -> default dv (lookupZ ps N) = x ->
  getp N dv (MkContext s d) = Ok (if x <? 1 then dv else x, MkContext s (parse_params d)).
Proof. intros Hd Hps Hx. rewrite getp_first by done. unfold param_of. cbn [dispatch_]. by rewrite Hps, Hx. Qed.

Lemma parse_params_parameters d : disp_inv d ->
  disp_inv (parse_params d) /\ parameters (parse_params d) = parameters d /\ terminal_to_host (parse_params d) = terminal_to_host d.
Proof. intros Hd. split; [by apply parse_params_inv|]. unfold parse_params. by case_match. Qed.
End views.
