(* ===== verification/Draw.v ===== *)
(** * Printing a cell

    A terminal that prints the grapheme of a cell, with the cell's renditions
    and hyperlink set, shows the cell. *)
From S2P Require Export View.

(** ** Encoded text reaches the terminal as the actions of its characters *)

Section text.
Context `{HL : Libc} `{HLL : !LibcLaws}.

Lemma act_octets_tail c s pre suf st e hist ack :
  (MB_CUR_MAX <= BUF_SIZE)%nat ->
  is_scalar c = true -> c <> 0 -> wcrtomb c = Some s -> s = pre ++ suf -> suf <> [] ->
  Forall (fun x => 0x7f < x) suf ->
  act_octets suf (MkComplete (MkUTF8Parser st pre) e hist ack) =
    match act_all (snd (parser_input st c [])) e with
    | Ok (_, e') => Ok (tt, MkComplete (MkUTF8Parser (fst (parser_input st c [])) []) e' hist ack)
    | Err x => Err x
    end.
Proof.
  intros Hmax Hc H0c Es. revert pre. induction suf as [|x suf IH]; intros pre E Hne Hf; [done|].
  apply Forall_cons in Hf as [Hx Hf]. cbn [act_octets].
  assert (Hpre : (length pre < BUF_SIZE)%nat).
  { destruct pre as [|y pre]; [cbn; unfold BUF_SIZE; lia|].
    apply Nat.lt_le_trans with MB_CUR_MAX; [|done]. apply mb_incomplete_len.
    rewrite <- (take_app_length (y :: pre) (x :: suf)), <- E.
    apply (mb_encoded_prefix c); [done|]. rewrite E, length_app. cbn. lia. }
  destruct suf as [|x' suf].
  - erewrite M_bind_Ok.
    2:{ unfold on_parser, zoom. cbn [c_parser]. rewrite (utf8_input_complete _ _ _ c); cbn [buf parser]; [reflexivity|done..|].
        rewrite <- E. pose proof (mb_encoded c s H0c Es) as Em. rewrite Em, E, length_app. done. }
    cbn [app]. unfold mbind, M_bind, on_terminal, zoom. cbn [terminal set_field].
    destruct (act_all _ e) as [[[] e']|]; done.
  - erewrite M_bind_Ok.
    2:{ unfold on_parser, zoom. cbn [c_parser]. rewrite utf8_input_pending; cbn [buf]; [reflexivity|done..|].
        replace (pre ++ [x]) with (take (length pre + 1) s).
        - apply (mb_encoded_prefix c); [done|]. rewrite E, length_app. cbn. lia.
        - rewrite E, take_app_add. done. }
    cbn [act_all]. rewrite (M_bind_Ok _ _ _ tt (MkComplete (MkUTF8Parser st (pre ++ [x])) e hist ack)) by done.
    apply IH; auto. by rewrite <- app_assoc.
Qed.

Lemma encode_cons c cs : encode (c :: cs) = default [] (wcrtomb c) ++ encode cs.
Proof. done. Qed.

Lemma act_octets_encode cs : forall st e hist ack,
  (MB_CUR_MAX <= BUF_SIZE)%nat -> Forall (fun c => is_scalar c = true /\ c <> 0) cs ->
  act_octets (encode cs) (MkComplete (MkUTF8Parser st []) e hist ack) =
    match act_all (snd (parse_run st cs)) e with
    | Ok (_, e') => Ok (tt, MkComplete (MkUTF8Parser (fst (parse_run st cs)) []) e' hist ack)
    | Err x => Err x
    end.
Proof.
  induction cs as [|c cs IH]; intros st e hist ack Hmax Hcs; [done|].
  apply Forall_cons in Hcs as [[Hc H0] Hcs]. rewrite encode_cons.
  destruct (wcrtomb_scalar c Hc) as (s & Es & _). rewrite Es. change (default [] (Some s)) with s.
  rewrite act_octets_app. unfold mbind, M_bind.
  assert (Hone : act_octets s (MkComplete (MkUTF8Parser st []) e hist ack) =
    match act_all (snd (parser_input st c [])) e with
    | Ok (_, e') => Ok (tt, MkComplete (MkUTF8Parser (fst (parser_input st c [])) []) e' hist ack)
    | Err x => Err x
    end).
  { destruct (Z.lt_ge_cases c 0x80) as [Hlt|Hge].
    - assert (s = [c]) as ->.
      { revert Es. unfold wcrtomb. rewrite Hc, (proj2 (Z.ltb_lt _ _) Hlt). by intros [= <-]. }
      rewrite act_octets_ascii, parse_run_one; [done|]. repeat constructor; unfold is_scalar in Hc; lia.
    - destruct (wcrtomb_multi _ _ Es Hge) as [Hne Hf]. by apply (act_octets_tail c s [] s). }
  rewrite Hone. cbn [parse_run]. destruct (parser_input st c []) as [s1 a1]. cbn [fst snd].
  specialize (IH s1). destruct (parse_run s1 cs) as [s2 a2]. cbn [fst snd] in *. rewrite act_all_app.
  unfold mbind, M_bind. destruct (act_all a1 e) as [[[] e']|]; [|done]. by rewrite IH.
Qed.
End text.

(** ** One grapheme *)

Lemma write_at_over {A} m (x x' : A) rest row :
  (m + S (length rest) <= length row)%nat ->
  write_at m [x'] (write_at m (x :: rest) row) = write_at m (x' :: rest) row.
Proof.
  intros Hl. unfold write_at. cbn [length].
  rewrite take_app_le, take_take, Nat.min_id by (rewrite length_take; lia). f_equal. cbn [app]. f_equal.
  rewrite drop_app_ge by (rewrite length_take; lia). rewrite length_take.
  replace (m + 1 - m `min` length row)%nat with 1%nat by lia. done.
Qed.

Lemma write_row_over i m x x' rest rs :
  (forall r, rs !! i = Some r -> (m + S (length rest) <= length (cells r))%nat) ->
  write_row i m [x'] (write_row i m (x :: rest) rs) = write_row i m (x' :: rest) rs.
Proof.
  intros Hl. unfold write_row. apply list_eq. intros j.
  destruct (decide (i = j)) as [<-|Hne]; [|by rewrite !list_lookup_alter_ne].
  rewrite !list_lookup_alter_eq. destruct (rs !! i) as [r|] eqn:E; [|done]. cbn. by rewrite write_at_over by by apply Hl.
Qed.

(** What a grapheme of octets [s] leaves behind: its cell, and a blank one
    behind a wide cell. *)
Definition glyph (d : DrawState) (s : bytes) (wd : bool) : list Cell :=
  MkCell s (ds_renditions d) (ds_hyperlink d) wd false false ::
  (if wd then [Cell_new (get_background_rendition d)] else []).

Definition put_glyph (s : bytes) (wd : bool) (scr : Screen) : Screen :=
  let d := scr_ds scr in
  put_ds (move_col (if wd then 2 else 1) true true d)
    (put_rows (write_row (Z.to_nat (cursor_row d)) (Z.to_nat (cursor_col d)) (glyph d s wd) (rows (fb scr))) scr).

Lemma put_rows_ds r r0 d s : put_rows r (put_ds d (put_rows r0 s)) = put_ds d (put_rows r s).
Proof. by destruct s as [? []]. Qed.

Lemma length_glyph d s wd : length (glyph d s wd) = if wd then 2%nat else 1%nat.
Proof. by destruct wd. Qed.

Section print.
Context `{HL : Libc} `{HLL : !LibcLaws} (w h : Z).

(** A row that a screen has. *)
Lemma row_of s i : scr_inv w h s -> 0 <= i < h -> exists r, lookupZ (rows (fb s)) i = Some r /\ lenZ (cells r) = w.
Proof.
  intros [_ Hrs] Hi. destruct (rows_at_ok w h (rows (fb s)) i Hrs) as (r & Er & [Hl _]); [done|].
  apply at_inv in Er. eauto.
Qed.

Lemma cursor_row_length s r :
  scr_inv w h s -> rows (fb s) !! Z.to_nat (cursor_row (scr_ds s)) = Some r -> length (cells r) = Z.to_nat w.
Proof.
  intros [_ [_ Hf]] Hr. rewrite Forall_lookup in Hf. destruct (Hf _ _ Hr) as [Hl _]. unfold lenZ in Hl. lia.
Qed.

Lemma Cell_append_scalar c x : is_scalar c = true ->
  Cell_append c x = Ok (x <| contents := contents x ++ encode [c] |>).
Proof.
  intros Hc. destruct (wcrtomb_scalar c Hc) as (s & Es & _). unfold Cell_append, append_to_str.
  unfold encode. cbn [fmap list_fmap mjoin list_join]. rewrite app_nil_r, Es.
  unfold is_scalar in Hc. unfold u32. rewrite Z.mod_small by lia.
  destruct (Z.leb_spec c 0x7f) as [Hle|Hgt]; [|done]. 
  unfold wcrtomb in Es. unfold is_scalar in Es. rewrite Hc in Es. cbn [negb] in Es.
  rewrite (proj2 (Z.ltb_lt c 0x80)) in Es by lia. by injection Es as <-.
Qed.

Lemma reset_cell_at i j s :
  scr_inv w h s -> 0 <= i < h -> 0 <= j < w ->
  reset_cell i j s = Ok (tt, put_rows (write_row (Z.to_nat i) (Z.to_nat j)
    [Cell_new (get_background_rendition (scr_ds s))] (rows (fb s))) s).
Proof.
  intros Hs Hi Hj. destruct (row_of s i Hs Hi) as (r & Er & Hl). destruct (lookupZ_lt (cells r) j) as (x & Ex); [lia|].
  assert (Ei : resolve_row i s = i) by (unfold resolve_row; destruct (Z.eqb_spec i (-1)); [lia|done]).
  assert (Ej : resolve_col j s = j) by (unfold resolve_col; destruct (Z.eqb_spec j (-1)); [lia|done]).
  unfold reset_cell. unfold mbind at 1, M_bind at 1. cbn [gets].
  rewrite (with_cell_write i j _ s r x (Cell_new (get_background_rendition (scr_ds s)))); rewrite ?Ei, ?Ej; done || lia.
Qed.

Lemma print_base c (wd : bool) s :
  scr_inv w h s -> plain_modes (scr_ds s) -> next_print_will_wrap (scr_ds s) = false ->
  is_scalar c = true -> char_width c = (if wd then 2 else 1) -> cursor_col (scr_ds s) + (if wd then 2 else 1) <= w ->
  print (MkAction Print c true) s = Ok (tt, put_glyph (encode [c]) wd s).
Proof.
  intros Hs (Hi & Ho & Ha) Hn Hc Hw Hcol. unfold print. cbn [char_present ch].
  rewrite (M_bind_Ok _ _ s tt s) by done. cbv zeta. pose proof Hs as [Hd _]. pose proof Hd as [].
  destruct (get_cell_ok w h (-1) (-1) s Hs) as [x0 Ex0]; [by left..|]. rewrite (M_bind_Ok _ _ s x0 s Ex0). rewrite Hw.
  replace (((if wd then 2 else 1) =? 1) || ((if wd then 2 else 1) =? 2)) with true by (by destruct wd).
  unfold print_normal. rewrite (M_bind_Ok _ _ s tt s).
  2:{ unfold print_wrap, mbind, M_bind, gets. rewrite Hn, Ha. cbn [andb].
      destruct wd; [|done]. change (2 =? 2) with true. cbn [andb].
      rewrite (proj2 (Z.eqb_neq (cursor_col (scr_ds s)) (width (scr_ds s) - 1))) by lia. done. }
  rewrite (M_bind_Ok _ _ s (scr_ds s) s) by done. rewrite Hi. rewrite (M_bind_Ok _ _ s tt s) by done.
  destruct (row_of s (cursor_row (scr_ds s)) Hs) as (r & Er & Hl); [done|].
  destruct (lookupZ_lt (cells r) (cursor_col (scr_ds s))) as (x & Ex); [lia|].
  set (x1 := MkCell (encode [c]) (ds_renditions (scr_ds s)) (ds_hyperlink (scr_ds s)) wd false false).
  set (s1 := put_rows (write_row (Z.to_nat (cursor_row (scr_ds s))) (Z.to_nat (cursor_col (scr_ds s))) [x1] (rows (fb s))) s).
  rewrite (M_bind_Ok _ _ s tt s1).
  2:{ rewrite (with_cell_write (-1) (-1) _ s r x x1); [done|..];
        unfold resolve_row, resolve_col; change (-1 =? -1) with true; cbv iota; try done; try lia.
      unfold draw_cell. rewrite Cell_append_scalar by done. cbn [mbind result_bind]. unfold x1. by destruct wd. }
  assert (Hlen : forall r', rows (fb s) !! Z.to_nat (cursor_row (scr_ds s)) = Some r' -> length (cells r') = Z.to_nat w)
    by (intros r'; by apply cursor_row_length).
  unfold put_glyph, glyph. fold x1. destruct wd; cbn [Z.eqb Pos.eqb andb when_]; [|by rewrite (M_bind_Ok _ _ s1 tt s1)].
  rewrite (proj2 (Z.ltb_lt (cursor_col (scr_ds s) + 1) (width (scr_ds s)))) by lia. cbn [when_].
  set (s2 := put_rows (write_row (Z.to_nat (cursor_row (scr_ds s))) (Z.to_nat (cursor_col (scr_ds s))) 
    [x1; Cell_new (get_background_rendition (scr_ds s))] (rows (fb s))) s).
  rewrite (M_bind_Ok _ _ s1 tt s2); [done|].
  assert (Hs1 : scr_inv w h s1).
  { apply write_row_inv; [done|cbn; lia|]. apply Forall_cons. split; [|done].
    split; [done|]. intros E. exfalso. revert E. cbn [contents x1]. destruct (wcrtomb_scalar c Hc) as (u & Eu & Hu).
    unfold encode. cbn. rewrite Eu, app_nil_r. done. }
  rewrite reset_cell_at by (done || cbn; lia). change (scr_ds s1) with (scr_ds s).
  replace (write_row _ _ _ (rows (fb s1))) with (rows (fb s2)); [done|]. cbn [s1 s2 put_rows fb rows set_field].
  replace (Z.to_nat (cursor_col (scr_ds s) + 1)) with (Z.to_nat (cursor_col (scr_ds s)) + length [x1])%nat by (cbn; lia).
  rewrite write_row_app; [done|]. intros r' Hr'. rewrite (Hlen r' Hr'). cbn. lia.
Qed.

Lemma lookup_write_row i m x cs rs r :
  lookupZ rs i = Some r -> 0 <= i -> (m <= length (cells r))%nat ->
  exists r', lookupZ (write_row (Z.to_nat i) m (x :: cs) rs) i = Some r' /\ lookupZ (cells r') (Z.of_nat m) = Some x.
Proof.
  unfold lookupZ. intros Hr Hi Hm. rewrite decide_True in Hr |- * by done. unfold write_row. rewrite list_lookup_alter_eq, Hr.
  eexists. split; [reflexivity|]. rewrite decide_True, Nat2Z.id by lia. cbn. unfold write_at.
  rewrite lookup_app_r by (rewrite length_take; lia). rewrite length_take, Nat.min_l, Nat.sub_diag by done. done.
Qed.

Lemma get_cell_at i j s r x :
  0 <= i -> 0 <= j -> lookupZ (rows (fb s)) i = Some r -> lookupZ (cells r) j = Some x -> get_cell i j s = Ok (x, s).
Proof.
  intros Hi Hj Hr Hx. unfold get_cell, get_row, mbind, M_bind, gets, lift, resolve_row, resolve_col, at_.
  destruct (Z.eqb_spec i (-1)), (Z.eqb_spec j (-1)); try lia. by rewrite Hr, Hx.
Qed.

Lemma glyph_inv s (wd : bool) scr :
  scr_inv w h scr -> cursor_col (scr_ds scr) + (if wd then 2 else 1) <= w -> s <> [] -> scr_inv w h (put_glyph s wd scr).
Proof.
  intros Hs Hc Hne. pose proof Hs as [[] _].
  assert (H1 : scr_inv w h (put_rows (write_row (Z.to_nat (cursor_row (scr_ds scr))) (Z.to_nat (cursor_col (scr_ds scr)))
    (glyph (scr_ds scr) s wd) (rows (fb scr))) scr)).
  { apply write_row_inv; [done|rewrite length_glyph; destruct wd; lia|]. unfold glyph. apply Forall_cons. split; [by split|].
    destruct wd; [|done]. apply Forall_cons. split; [|done]. apply Cell_new_wf. apply inv_renditions. }
  destruct H1 as [H1 H2]. split; [|done]. by apply move_col_inv.
Qed.

Lemma print_comb c (wd : bool) s scr :
  scr_inv w h scr -> origin_mode (scr_ds scr) = false -> cursor_col (scr_ds scr) + (if wd then 2 else 1) <= w ->
  is_scalar c = true -> char_width c = 0 -> s <> [] -> lenZ s < 32 ->
  print (MkAction Print c true) (put_glyph s wd scr) = Ok (tt, put_glyph (s ++ encode [c]) wd scr).
Proof.
  intros Hs Ho Hcol Hc Hw Hne Hlen. set (t := put_glyph s wd scr). pose proof Hs as [Hd _]. pose proof Hd as [].
  assert (Ht : scr_inv w h t) by (by apply glyph_inv).
  unfold print. cbn [char_present ch]. rewrite (M_bind_Ok _ _ t tt t) by done. cbv zeta.
  destruct (get_cell_ok w h (-1) (-1) t Ht) as [x0 Ex0]; [by left..|]. rewrite (M_bind_Ok _ _ t x0 t Ex0). rewrite Hw.
  change ((0 =? 1) || (0 =? 2)) with false. change (0 =? 0) with true. cbv iota.
  unfold print_combining. rewrite (M_bind_Ok _ _ t (scr_ds t) t) by done.
  assert (get_combining_cell (scr_ds t) = Some (cursor_row (scr_ds scr), cursor_col (scr_ds scr))) as ->.
  { unfold get_combining_cell. change (scr_ds t) with (move_col (if wd then 2 else 1) true true (scr_ds scr)).
    unfold move_col, new_grapheme. cbv zeta. rewrite snap_eq. cbn -[Z.min Z.max Z.sub Z.leb Z.ltb].
    rewrite inv_width, inv_height, !(proj2 (Z.ltb_ge _ _)), !(proj2 (Z.leb_gt _ _)) by lia. done. }
  set (x := MkCell s (ds_renditions (scr_ds scr)) (ds_hyperlink (scr_ds scr)) wd false false).
  destruct (row_of scr (cursor_row (scr_ds scr)) Hs) as (r0 & Er0 & Hl0); [done|]. unfold lenZ in Hl0.
  destruct (lookup_write_row (cursor_row (scr_ds scr)) (Z.to_nat (cursor_col (scr_ds scr))) x
    (if wd then [Cell_new (get_background_rendition (scr_ds scr))] else []) (rows (fb scr)) r0) as (r & Er & Ex); [done|lia|lia|].
  rewrite Z2Nat.id in Ex by lia. rewrite (M_bind_Ok _ _ t x t) by (apply (get_cell_at _ _ _ r); done || lia).
  assert (Cell_empty x = false) as -> by (by destruct s). rewrite (M_bind_Ok _ _ t tt t) by done.
  assert (Cell_full x = false) as -> by (unfold Cell_full; apply Z.leb_gt; done). cbn [negb when_].
  assert (Ei : resolve_row (cursor_row (scr_ds scr)) t = cursor_row (scr_ds scr))
    by (unfold resolve_row; destruct (Z.eqb_spec (cursor_row (scr_ds scr)) (-1)); [lia|done]).
  assert (Ej : resolve_col (cursor_col (scr_ds scr)) t = cursor_col (scr_ds scr))
    by (unfold resolve_col; destruct (Z.eqb_spec (cursor_col (scr_ds scr)) (-1)); [lia|done]).
  rewrite (with_cell_write _ _ _ t r x (x <| contents := s ++ encode [c] |>)); rewrite ?Ei, ?Ej;
    [|lia|lia|done|done|by apply Cell_append_scalar].
  assert (E : rows (fb t) = write_row (Z.to_nat (cursor_row (scr_ds scr))) (Z.to_nat (cursor_col (scr_ds scr)))
    (glyph (scr_ds scr) s wd) (rows (fb scr))) by reflexivity.
  rewrite E. unfold glyph. fold x. rewrite write_row_over.
  { unfold t, put_glyph. by rewrite put_rows_ds. }
  intros r' Hr'. rewrite (cursor_row_length scr r' Hs Hr'). destruct wd; cbn; lia.
Qed.

(** *** Whole graphemes *)

Definition text_char (c : Z) : Prop := is_scalar c = true /\ (0x20 <= c <= 0x7E \/ 0xA0 <= c).

Lemma anywhere_high c : 0xA0 <= c -> anywhere_rule c = MkTransition None None.
Proof. intros Hc. unfold anywhere_rule, Parser.between. repeat case_match; try done; lia. Qed.

Lemma parse_text cs :
  Forall text_char cs -> parse_run Ground cs = (Ground, (fun c => MkAction Print c true) <$> cs).
Proof.
  induction 1 as [|c cs [_ [Hc|Hc]] _ IH]; [done| |].
  - pose proof (parse_printable [c]) as H1. rewrite parse_run_one in H1. cbn [parse_run].
    rewrite H1 by (repeat constructor; unfold printable; lia). by rewrite IH.
  - cbn [parse_run]. assert (parser_input Ground c [] = (Ground, [MkAction Print c true])) as ->; [|by rewrite IH].
    unfold parser_input, State_input. rewrite anywhere_high by done.
    cbn [next_state]. rewrite (proj2 (Z.leb_le 0xA0 c)) by lia. reflexivity.
Qed.

(** A character and its combining characters, all of which fit in a cell. *)
Definition grapheme (s : bytes) (wd : bool) : Prop :=
  exists c cs, s = encode (c :: cs) /\ Forall text_char (c :: cs) /\ char_width c = (if wd then 2 else 1) /\
    Forall (fun c => char_width c = 0) cs /\ lenZ (encode (c :: removelast cs)) < 32.

Lemma encode_app a b : encode (a ++ b) = encode a ++ encode b.
Proof. induction a as [|c a IH]; [done|]. cbn [app]. by rewrite !encode_cons, IH, app_assoc. Qed.

Lemma encode_ne c cs : is_scalar c = true -> encode (c :: cs) <> [].
Proof.
  intros Hc. rewrite encode_cons. destruct (wcrtomb_scalar c Hc) as (s & -> & Hs). by intros [? _]%app_eq_nil.
Qed.

Definition on_scr (f : Screen -> Screen) (e : Emulator) : Emulator :=
  e <| ctx := (ctx e) <| screen := f (screen (ctx e)) |> |>.

Lemma act_print_eq c s' e :
  print (MkAction Print c true) (screen (ctx e)) = Ok (tt, s') ->
  act_on_terminal (MkAction Print c true) e = Ok (tt, on_scr (fun _ => s') e).
Proof. intros E. unfold act_on_terminal, on_ctx, on_screen, zoom. cbn [typ]. by rewrite E. Qed.

Lemma act_combs (wd : bool) e cs : forall s,
  scr_inv w h (screen (ctx e)) -> origin_mode (scr_ds (screen (ctx e))) = false ->
  cursor_col (scr_ds (screen (ctx e))) + (if wd then 2 else 1) <= w -> s <> [] ->
  Forall text_char cs -> Forall (fun c => char_width c = 0) cs -> (cs <> [] -> lenZ (s ++ encode (removelast cs)) < 32) ->
  act_all ((fun c => MkAction Print c true) <$> cs) (on_scr (put_glyph s wd) e) = Ok (tt, on_scr (put_glyph (s ++ encode cs) wd) e).
Proof.
  induction cs as [|c cs IH]; intros s Hs Ho Hcol Hne Ht Hw Hroom; [by rewrite app_nil_r|].
  apply Forall_cons in Ht as [[Hc _] Ht]. apply Forall_cons in Hw as [Hwc Hw]. rewrite fmap_cons, act_all_cons.
  specialize (Hroom ltac:(done)). rewrite (M_bind_Ok _ _ _ tt (on_scr (put_glyph (s ++ encode [c]) wd) e)).
  - rewrite IH; try done.
    + by rewrite <- app_assoc, <- encode_app.
    + by intros [? _]%app_eq_nil.
    + intros Hcs. rewrite <- app_assoc, <- encode_app. by destruct cs.
  - erewrite act_print_eq; [reflexivity|]. cbn [on_scr ctx screen set_field]. rewrite print_comb; try done.
    rewrite lenZ_app in Hroom. pose proof (lenZ_nonneg (encode (removelast (c :: cs)))). lia.
Qed.

Lemma act_grapheme c cs (wd : bool) e :
  scr_inv w h (screen (ctx e)) -> plain_modes (scr_ds (screen (ctx e))) ->
  next_print_will_wrap (scr_ds (screen (ctx e))) = false ->
  cursor_col (scr_ds (screen (ctx e))) + (if wd then 2 else 1) <= w ->
  Forall text_char (c :: cs) -> char_width c = (if wd then 2 else 1) -> Forall (fun c => char_width c = 0) cs ->
  lenZ (encode (c :: removelast cs)) < 32 ->
  act_all ((fun c => MkAction Print c true) <$> c :: cs) e = Ok (tt, on_scr (put_glyph (encode (c :: cs)) wd) e).
Proof.
  intros Hs Hm Hn Hcol Ht Hw Hw0 Hroom. apply Forall_cons in Ht as [[Hc Htc] Ht]. rewrite fmap_cons, act_all_cons.
  rewrite (M_bind_Ok _ _ _ tt (on_scr (put_glyph (encode [c]) wd) e)).
  - rewrite act_combs; try done; [by rewrite <- encode_app|by apply Hm|by apply encode_ne|].
    intros _. by rewrite <- encode_app.
  - erewrite act_print_eq; [reflexivity|]. by rewrite (print_base c wd).
Qed.

(** *** Wrapping *)

Lemma vis_set_wrap (r : Row) b : 0 < w -> lenZ (cells r) = w ->
  exists r', Row_set_wrap b r = Ok r' /\ vis <$> cells r' = vis <$> cells r.
Proof.
  intros Hw Hl. unfold Row_set_wrap. destruct (last (cells r)) as [x|] eqn:E.
  - eexists. split; [reflexivity|]. cbn. apply last_Some in E as [l El]. rewrite El.
    rewrite length_app. cbn. rewrite Nat.add_sub, take_app_length, !fmap_app. done.
  - apply last_None in E. rewrite E in Hl. unfold lenZ in Hl. cbn in Hl. lia.
Qed.

Lemma vis_updateZ rs i r r' :
  lookupZ rs i = Some r -> vis <$> cells r' = vis <$> cells r -> vis_rows (updateZ rs i r') = vis_rows rs.
Proof.
  unfold vis_rows, lookupZ, updateZ. case_decide; [|done]. intros Hr E.
  rewrite list_fmap_insert. apply list_insert_id. rewrite list_lookup_fmap, Hr. cbn. by rewrite E.
Qed.

Definition vwrap (v : View) : View := v <| v_row := v_row v + 1 |> <| v_col := 0 |> <| v_pend := false |>.

Lemma print_wrap_eq n s :
  scr_inv w h s -> plain_modes (scr_ds s) -> next_print_will_wrap (scr_ds s) = true ->
  scrolling_region_top_row (scr_ds s) <= cursor_row (scr_ds s) < scrolling_region_bottom_row (scr_ds s) ->
  exists s1, print_wrap n s = Ok (tt, s1) /\ scr_inv w h s1 /\ plain_modes (scr_ds s1) /\
    view_of (fb s1) = vwrap (view_of (fb s)).
Proof.
  intros Hs (Hi & Ho & Ha) Hn Hreg. pose proof Hs as [Hd _]. pose proof Hd as [].
  destruct (print_wrap_safe w h n s Hs) as ([] & s1 & E & Hs1).
  destruct (row_of s (cursor_row (scr_ds s)) Hs) as (r & Er & Hl); [done|].
  destruct (vis_set_wrap r true) as (r' & Er' & Hv); [lia|done|].
  set (d1 := move_col 0 false false (scr_ds s)). 
  assert (Ed1 : d1 = move_col 0 false false (scr_ds s)) by done. rewrite (move_col_abs w h) in Ed1 by (done || lia).
  assert (Hd1 : ds_inv w h d1) by (by apply move_col_inv).
  exists (put_ds (move_row 1 true d1) (put_rows (updateZ (rows (fb s)) (cursor_row (scr_ds s)) r') s)).
  assert (Ew : print_wrap n s = Ok (tt, put_ds (move_row 1 true d1) (put_rows (updateZ (rows (fb s)) (cursor_row (scr_ds s)) r') s))).
  { unfold print_wrap. unfold mbind at 1, M_bind at 1. cbn [gets]. rewrite Ha, Hn. cbn [andb].
    rewrite (M_bind_Ok _ _ _ tt (put_rows (updateZ (rows (fb s)) (cursor_row (scr_ds s)) r') s)).
    2:{ unfold with_row, get_row, mbind, M_bind, gets, lift, resolve_row, at_, modify. change (-1 =? -1) with true. cbv iota.
        by rewrite Er, Er'. }
    set (s0 := put_rows _ s). rewrite (M_bind_Ok _ _ s0 tt (put_ds d1 s0)) by done.
    unfold move_rows_autoscroll. unfold mbind at 1, M_bind at 1. cbn [gets].
    change (scr_ds (put_ds d1 s0)) with d1. rewrite Ed1. cbn -[Z.ltb Z.add]. 
    destruct (Z.ltb_spec (cursor_row (scr_ds s)) (scrolling_region_top_row (scr_ds s))),
      (Z.ltb_spec (scrolling_region_bottom_row (scr_ds s)) (cursor_row (scr_ds s))); try lia. cbn [orb].
    destruct (Z.ltb_spec (scrolling_region_bottom_row (scr_ds s)) (cursor_row (scr_ds s) + 1)),
      (Z.ltb_spec (cursor_row (scr_ds s) + 1) (scrolling_region_top_row (scr_ds s))); try lia. rewrite <- Ed1. done. }
  rewrite Ew in E. injection E as <-. split; [done|]. split; [done|].
  assert (Er1 : move_row 1 true d1 = move_row (cursor_row (scr_ds s) + 1 - cursor_row d1) true d1).
  { f_equal. rewrite Ed1. cbn. lia. }
  rewrite Er1, (move_row_to w h _ (cursor_row (scr_ds s) + 1) true Hd1) by (rewrite ?Ed1; cbn; done || lia).
  rewrite Ed1. split; [done|].
  unfold view_of, vwrap, put_ds, put_rows. cbn [fb rows ds set_field icon_name window_title clipboard].
  rewrite (vis_updateZ _ _ r) by done. reflexivity.
Qed.

(** *** What is seen of it *)

Definition cell_cols (wd : bool) : Z := if wd then 2 else 1.

Definition vglyph (v : View) (s : bytes) (wd : bool) : list Cell :=
  MkCell s (v_rend v) (v_link v) wd false false ::
  (if wd then [vis (Cell_new (background_color (v_rend v)))] else []).

Definition vput (s : bytes) (wd : bool) (v : View) : View :=
  v <| v_rows := alter (write_at (Z.to_nat (v_col v)) (vglyph v s wd)) (Z.to_nat (v_row v)) (v_rows v) |>
    <| v_col := Z.min (w - 1) (v_col v + cell_cols wd) |> <| v_pend := w <=? v_col v + cell_cols wd |>.

Lemma view_put_glyph s wd scr :
  scr_inv w h scr -> origin_mode (scr_ds scr) = false -> s <> [] ->
  view_of (fb (put_glyph s wd scr)) = vput s wd (view_of (fb scr)).
Proof.
  intros [Hd _] Ho Hne. destruct scr as [g [rs ic ti cl be tin d]]. unfold scr_ds in *. cbn [fb ds] in *. pose proof Hd as [].
  assert (Eg : vis <$> glyph d s wd = vglyph (view_of (MkFramebuffer rs ic ti cl be tin d)) s wd).
  { unfold glyph, vglyph. rewrite fmap_cons. f_equal; [|by destruct wd]. unfold vis, print_grapheme. cbn. by destruct s. }
  assert (Em : exists cc cr, move_col (cell_cols wd) true true d =
    d <| combining_char_col := cc |> <| combining_char_row := cr |> <| next_print_will_wrap := w <=? cursor_col d + cell_cols wd |>
      <| cursor_col := Z.min (w - 1) (cursor_col d + cell_cols wd) |>).
  { exists (cursor_col d), (cursor_row d). unfold move_col, new_grapheme. cbv zeta. rewrite snap_eq. unfold limit_top, limit_bottom.
    cbn -[Z.min Z.max Z.add Z.sub Z.leb cell_cols]. rewrite Ho.
    rewrite inv_width, inv_height, (Z.max_r 0 (cursor_row _)), (Z.min_r (h - 1) (cursor_row _)), (Z.max_r 0 (cursor_col _ + _)) by (destruct wd; cbn; lia).
    by destruct d. }
  destruct Em as (cc & cr & Em). unfold put_glyph. cbn [scr_ds fb ds rows]. change (if wd then 2 else 1) with (cell_cols wd).
  rewrite Em. unfold vput. rewrite <- Eg. 
  cbn -[Z.min Z.add Z.leb cell_cols glyph write_row vis_rows].
  rewrite <- vis_write_row. reflexivity.
Qed.

Lemma plain_put_glyph s wd scr : plain_modes (scr_ds scr) -> plain_modes (ds (fb (put_glyph s wd scr))).
Proof.
  intros Hm. change (ds (fb (put_glyph s wd scr))) with (move_col (cell_cols wd) true true (scr_ds scr)).
  unfold move_col, new_grapheme. cbv zeta. by rewrite snap_eq.
Qed.

Lemma encode_u8 cs : Forall is_u8 (encode cs).
Proof.
  induction cs as [|c cs IH]; [constructor|]. rewrite encode_cons. apply Forall_app. split; [|done].
  destruct (wcrtomb c) as [u|] eqn:E; [|constructor]. by apply wcrtomb_bytes in E.
Qed.

Lemma text_char_ok cs : Forall text_char cs -> Forall (fun c => is_scalar c = true /\ c <> 0) cs.
Proof. intros H. eapply Forall_impl; [exact H|]. intros c [? ?]. split; [done|lia]. Qed.

(** A grapheme that the terminal prints from screen [f]. *)
Lemma draws_text s wd v v' :
  grapheme s wd ->
  (forall scr, scr_inv w h scr -> plain_modes (scr_ds scr) -> view_of (fb scr) = v ->
    exists scr1, scr_inv w h scr1 /\ plain_modes (scr_ds scr1) /\ next_print_will_wrap (scr_ds scr1) = false /\
      cursor_col (scr_ds scr1) + cell_cols wd <= w /\ vput s wd (view_of (fb scr1)) = v' /\
      forall c, char_width c = cell_cols wd -> print (MkAction Print c true) scr = print (MkAction Print c true) scr1) ->
  draws w h s v v'.
Proof.
  intros (c & cs & -> & Ht & Hw & Hw0 & Hroom) Hscr. apply draws_ctx; [apply encode_u8|].
  intros [p [[scr d] u] hist ack] [[[Hmax Hu] [Hs Hd]] Hp Hh Hm] Hv. cbn in Hp, Hs, Hm, Hv. subst p.
  destruct (Hscr scr Hs Hm Hv) as (scr1 & Hs1 & Hm1 & Hn1 & Hc1 & Hv1 & Hpr).
  exists (put_glyph (encode (c :: cs)) wd scr1), d.
  assert (Hne : encode (c :: cs) <> []) by (apply encode_ne; by inversion Ht as [|? ? []]).
  rewrite act_octets_encode; [|done|by apply text_char_ok]. rewrite parse_text by done. cbn [fst snd].
  split; [|split; [done|split]].
  - rewrite fmap_cons, act_all_cons.
    assert (act_on_terminal (MkAction Print c true) (MkEmulator (MkContext scr d) u) =
            act_on_terminal (MkAction Print c true) (MkEmulator (MkContext scr1 d) u)) as E.
    { unfold act_on_terminal, on_ctx, on_screen, zoom. cbn [typ ctx screen set_field]. by rewrite Hpr. }
    unfold mbind, M_bind. rewrite E.
    pose proof (act_grapheme c cs wd (MkEmulator (MkContext scr1 d) u) Hs1 Hm1 Hn1 Hc1 Ht Hw Hw0 Hroom) as Ea.
    rewrite fmap_cons, act_all_cons in Ea. unfold mbind, M_bind in Ea. rewrite Ea. done.
  - by apply plain_put_glyph.
  - rewrite view_put_glyph by (done || apply Hm1). done.
Qed.

Lemma draws_grapheme s wd v :
  grapheme s wd -> v_pend v = false -> v_col v + cell_cols wd <= w -> draws w h s v (vput s wd v).
Proof.
  intros Hg Hp Hc. apply (draws_text s wd); [done|]. intros scr Hs Hm Hv. exists scr. subst v. by split_and!.
Qed.

Lemma draws_wrapped s wd v :
  grapheme s wd -> v_pend v = true -> v_top v <= v_row v < v_bot v -> 2 < w -> draws w h s v (vput s wd (vwrap v)).
Proof.
  intros Hg Hp Hr Hw. apply (draws_text s wd); [done|]. intros scr Hs Hm Hv. subst v.
  destruct (print_wrap_eq (cell_cols wd) scr Hs Hm Hp Hr) as (scr1 & E & Hs1 & Hm1 & Hv1).
  assert (Hn : next_print_will_wrap (scr_ds scr1) = false) by apply (f_equal v_pend Hv1).
  assert (Hc : cursor_col (scr_ds scr1) = 0) by apply (f_equal v_col Hv1).
  exists scr1. split_and!; try done; [rewrite Hc; destruct wd; cbn; lia|by rewrite Hv1|].
  intros c Hcw. unfold print. cbn [char_present ch].
  rewrite (M_bind_Ok _ _ scr tt scr), (M_bind_Ok _ _ scr1 tt scr1) by done. cbv zeta.
  destruct (get_cell_ok w h (-1) (-1) scr Hs) as [x Ex]; [by left..|].
  destruct (get_cell_ok w h (-1) (-1) scr1 Hs1) as [x1 Ex1]; [by left..|].
  rewrite (M_bind_Ok _ _ scr x scr Ex), (M_bind_Ok _ _ scr1 x1 scr1 Ex1), Hcw.
  replace ((cell_cols wd =? 1) || (cell_cols wd =? 2)) with true by (by destruct wd).
  unfold print_normal. rewrite (M_bind_Ok _ _ scr tt scr1 E), (M_bind_Ok _ _ scr1 tt scr1); [done|].
  destruct Hs1 as [[] _]. unfold print_wrap, mbind, M_bind, gets. rewrite Hn, andb_false_r, Hc, inv_width.
  rewrite (proj2 (Z.eqb_neq 0 (w - 1))), andb_false_r by lia. done.
Qed.
End print.
