(* ===== verification/Control.v ===== *)
(** * Erasing, scrolling and operating system commands

    What the remaining sequences of the display do to what a terminal shows. *)
From S2P Require Export Draw.

Section control.
Context `{HL : Libc} `{HLL : !LibcLaws} (w h : Z).

(** ** Erasing *)

(** [n] cells at the cursor in the current background. *)
Definition verase (n : Z) (v : View) : View :=
  v <| v_rows := alter (write_at (Z.to_nat (v_col v)) (replicate (Z.to_nat n) (vis (Cell_new (background_color (v_rend v))))))
         (Z.to_nat (v_row v)) (v_rows v) |> <| v_pend := false |>.

Lemma view_put_rows rs s : view_of (fb (put_rows rs s)) = (view_of (fb s)) <| v_rows := vis_rows rs |>.
Proof. by destruct s as [? []]. Qed.

Lemma clearline_view n s d v :
  scr_inv w h s -> view_of (fb s) = v <| v_pend := false |> -> 0 <= n -> v_col v + n <= w ->
  exists s', clearline (-1) (v_col v) (v_col v + n - 1) (MkContext s d) = Ok (tt, MkContext s' d) /\
    scr_ds s' = scr_ds s /\ view_of (fb s') = verase n v.
Proof.
  intros Hs Hv Hn Hc. pose proof Hs as [[] _].
  assert (Ec : cursor_col (scr_ds s) = v_col v) by (apply (f_equal v_col Hv)).
  unfold clearline, for_range. replace (v_col v + n - 1 + 1 - v_col v) with n by lia.
  rewrite (clearline_write w h) by (done || lia). eexists. split; [reflexivity|]. split; [done|].
  rewrite view_put_rows, vis_write_row, fmap_replicate, Hv.
  assert (Er : cursor_row (scr_ds s) = v_row v) by (apply (f_equal v_row Hv)).
  assert (Eb : get_background_rendition (scr_ds s) = background_color (v_rend v)) by (apply (f_equal (background_color ∘ v_rend) Hv)).
  assert (Ers : vis_rows (rows (fb s)) = v_rows v) by (apply (f_equal v_rows Hv)).
  rewrite Er, Eb, Ers. done.
Qed.

Lemma draws_ech n v : 1 <= n -> v_col v + n <= w -> 0 <= v_col v -> w <= PARAM_MAX ->
  draws w h (27 :: 91 :: dec n ++ [88]) v (verase n v).
Proof.
  intros Hn Hc Hc0 Hw. assert (Hp : 0 <= n <= PARAM_MAX) by lia. destruct (dec_param n Hp) as (Hne & Hdig & Hval).
  apply (draws_csi w h (dec n) 88 CSI_ECH); [|..|done|].
  - apply (join_params_chars [n]). apply Forall_cons. by split.
  - unfold PARAM_MAX in *. pose proof (dec_length n 5 ltac:(cbn; lia) ltac:(lia)). unfold lenZ. lia.
  - lia.
  - intros s d Hs Hm Hv Hd Hps. rewrite segments_digits_only in Hps by done. cbn in Hps. rewrite Hval in Hps.
    destruct (parse_params_parameters d Hd) as (_ & _ & Hh). pose proof Hs as [[] _].
    assert (Ec : cursor_col (scr_ds s) = v_col v) by (apply (f_equal v_col Hv)).
    destruct (clearline_view n s (parse_params d) v) as (s' & E & Hds & Hv'); [done..|lia|lia|].
    exists s', (parse_params d). split; [|split; [done|split; [by rewrite Hds|done]]].
    unfold CSI_ECH. rewrite (M_bind_Ok _ _ _ n (MkContext s (parse_params d))).
    2:{ rewrite (getp_param 0 1 s d [n] n) by done. rewrite (proj2 (Z.ltb_ge n 1)) by lia. done. }
    rewrite (M_bind_Ok _ _ _ (v_col v) (MkContext s (parse_params d))) by (by rewrite <- Ec).
    rewrite (M_bind_Ok _ _ _ w (MkContext s (parse_params d))) by (by rewrite <- inv_width). cbv zeta.
    rewrite (proj2 (Z.leb_gt w (v_col v + n - 1))) by lia. exact E.
Qed.

Lemma draws_el v : 0 <= v_col v <= w -> draws w h (27 :: str "[K") v (verase (w - v_col v) v).
Proof.
  intros Hc. apply (draws_csi w h [] 75 CSI_EL); [done|done|lia|done|].
  intros s d Hs Hm Hv Hd Hps. cbn in Hps.
  destruct (parse_params_parameters d Hd) as (_ & _ & Hh). pose proof Hs as [[] _].
  assert (Ec : cursor_col (scr_ds s) = v_col v) by (apply (f_equal v_col Hv)).
  destruct (clearline_view (w - v_col v) s (parse_params d) v) as (s' & E & Hds & Hv'); [done..|lia|lia|].
  exists s', (parse_params d). split; [|split; [done|split; [by rewrite Hds|done]]].
  unfold CSI_EL. rewrite (M_bind_Ok _ _ _ 0 (MkContext s (parse_params d))).
  2:{ by rewrite (getp_param 0 0 s d [-1] (-1)) by done. }
  rewrite (M_bind_Ok _ _ _ (v_col v) (MkContext s (parse_params d))) by (by rewrite <- Ec).
  rewrite (M_bind_Ok _ _ _ w (MkContext s (parse_params d))) by (by rewrite <- inv_width).
  change (0 =? 0) with true. cbv iota. replace (v_col v + (w - v_col v) - 1) with (w - 1) in E by lia. exact E.
Qed.

(** ** Margins *)

Definition vregion (b : Z) (v : View) : View :=
  v <| v_top := 0 |> <| v_bot := b |> <| v_row := 0 |> <| v_col := 0 |> <| v_pend := false |>.

Lemma set_region_eq b s d v :
  scr_inv w h s -> plain_modes (scr_ds s) -> view_of (fb s) = v <| v_pend := false |> -> 2 <= b <= h ->
  exists s', (set_ds (set_scrolling_region (1 - 1) (b - 1)) ;; set_ds (move_row 0 false) ;; set_ds (move_col 0 false false))
      (MkContext s d) = Ok (tt, MkContext s' d) /\ plain_modes (scr_ds s') /\ view_of (fb s') = vregion (b - 1) v.
Proof.
  intros Hs Hm Hv Hb. pose proof Hs as [Hd _]. pose proof Hd as []. pose proof Hm as (Hi & Ho & Ha).
  set (d1 := set_scrolling_region (1 - 1) (b - 1) (scr_ds s)).
  assert (Ed1 : d1 = (scr_ds s) <| scrolling_region_top_row := 0 |> <| scrolling_region_bottom_row := b - 1 |>).
  { unfold d1, set_scrolling_region. rewrite inv_height. rewrite (proj2 (Z.ltb_ge h 1)) by lia. cbv zeta.
    change (1 - 1 <? 0) with false. cbv iota. rewrite (proj2 (Z.leb_gt h (b - 1))), (proj2 (Z.ltb_ge (b - 1) (1 - 1))) by lia.
    cbn -[Z.sub]. by rewrite Ho. }
  assert (Hd1 : ds_inv w h d1) by (apply set_scrolling_region_inv; [lia|done]).
  assert (Ho1 : origin_mode d1 = false) by (by rewrite Ed1).
  pose proof (move_row_inv w h 0 false d1 Hd1) as Hd2. pose proof (move_row_to w h d1 0 false Hd1 Ho1 ltac:(lia)) as Er. cbv iota in Er.
  exists (put_ds (move_col 0 false false (move_row 0 false d1)) s). split; [|split].
  - rewrite !(M_bind_Ok _ _ _ tt _ (set_ds_eq _ _)). rewrite set_ds_eq. by destruct s as [? []].
  - rewrite Er in Hd2 |- *. rewrite (move_col_abs w h) by (done || lia). cbn. rewrite Ed1. done.
  - rewrite Er in Hd2 |- *. rewrite (move_col_abs w h) by (done || lia). rewrite Ed1.
    transitivity (vregion (b - 1) (v <| v_pend := false |>)); [by rewrite <- Hv; destruct s as [? []]|done].
Qed.

Lemma draws_region b v : 2 <= b <= h -> h <= PARAM_MAX ->
  draws w h (27 :: 91 :: join_params [1; b] ++ [114]) v (vregion (b - 1) v).
Proof.
  intros Hb Hh. assert (Hok : Forall (fun z => 0 <= z <= PARAM_MAX) [1; b]) by (unfold PARAM_MAX in *; repeat constructor; lia).
  apply (draws_csi w h _ 114 CSI_DECSTBM); [by apply join_params_chars|apply join_pair_length; unfold PARAM_MAX in *; lia|lia|done|].
  intros s d Hs Hm Hv Hd Hps. rewrite join_params_values in Hps by done.
  destruct (parse_params_parameters d Hd) as (Hd1 & Hps1 & Hh1). rewrite Hps in Hps1. set (d1 := parse_params d) in *.
  destruct (parse_params_parameters d1 Hd1) as (Hd2 & Hps2 & Hh2). pose proof Hs as [[] _].
  destruct (set_region_eq b s (parse_params d1) v) as (s' & E & Hm' & Hv'); [done..|].
  exists s', (parse_params d1). split; [|split; [congruence|done]].
  unfold CSI_DECSTBM. rewrite (M_bind_Ok _ _ _ 1 (MkContext s d1)) by (by rewrite (getp_param 0 1 s d [1; b] 1)).
  rewrite (M_bind_Ok _ _ _ h (MkContext s d1)) by (by rewrite <- inv_height).
  rewrite (M_bind_Ok _ _ _ b (MkContext s (parse_params d1))).
  2:{ rewrite (getp_param 1 h s d1 [1; b] b) by done. by rewrite (proj2 (Z.ltb_ge b 1)) by lia. }
  rewrite (proj2 (Z.leb_gt b 1)), (proj2 (Z.ltb_ge h 1)) by lia. exact E.
Qed.

Lemma draws_region_reset v : 2 <= h -> draws w h (27 :: str "[r") v (vregion (h - 1) v).
Proof.
  intros Hh. apply (draws_csi w h [] 114 CSI_DECSTBM); [done|done|lia|done|].
  intros s d Hs Hm Hv Hd Hps. cbn in Hps.
  destruct (parse_params_parameters d Hd) as (Hd1 & Hps1 & Hh1). rewrite Hps in Hps1. set (d1 := parse_params d) in *.
  destruct (parse_params_parameters d1 Hd1) as (Hd2 & Hps2 & Hh2). pose proof Hs as [[] _].
  destruct (set_region_eq h s (parse_params d1) v) as (s' & E & Hm' & Hv'); [done..|lia|].
  exists s', (parse_params d1). split; [|split; [congruence|done]].
  unfold CSI_DECSTBM. rewrite (M_bind_Ok _ _ _ 1 (MkContext s d1)) by (by rewrite (getp_param 0 1 s d [-1] (-1))).
  rewrite (M_bind_Ok _ _ _ h (MkContext s d1)) by (by rewrite <- inv_height).
  rewrite (M_bind_Ok _ _ _ h (MkContext s (parse_params d1))).
  2:{ rewrite (getp_param 1 h s d1 [-1] h) by done. by destruct (h <? 1). }
  rewrite (proj2 (Z.leb_gt h 1)), (proj2 (Z.ltb_ge h 1)) by lia. exact E.
Qed.

(** ** Scrolling by line feeds *)

(** Rows 0 to [b] move up by [n]. *)
Definition vshift (n b : nat) (blank : list Cell) (rs : list (list Cell)) : list (list Cell) :=
  take (S b - n) (drop n rs) ++ replicate n blank ++ drop (S b) rs.

Lemma vshift_0 b blank rs : vshift 0 b blank rs = rs.
Proof. unfold vshift. rewrite drop_0. cbn [replicate app]. rewrite Nat.sub_0_r. apply take_drop. Qed.

Lemma vshift_S n b blank rs :
  (n <= b < length rs)%nat -> vshift 1 b blank (vshift n b blank rs) = vshift (S n) b blank rs.
Proof.
  intros Hn. unfold vshift. set (A := take (S b - n) (drop n rs)). set (C := drop (S b) rs).
  assert (HA : length A = (S b - n)%nat) by (unfold A; rewrite length_take, length_drop; lia).
  assert (E1 : take (S b - 1) (drop 1 (A ++ replicate n blank ++ C)) = drop 1 A ++ replicate n blank).
  { rewrite drop_app_le by lia. rewrite app_assoc. apply take_app_length'. rewrite length_app, length_drop, length_replicate. lia. }
  assert (E2 : drop (S b) (A ++ replicate n blank ++ C) = C).
  { rewrite app_assoc. apply drop_app_length'. rewrite length_app, length_replicate. lia. }
  rewrite E1, E2. unfold A. rewrite skipn_firstn_comm, drop_drop, <- !app_assoc.
  replace (S b - n - 1)%nat with (S b - S n)%nat by lia. replace (n + 1)%nat with (S n) by lia. f_equal.
  rewrite app_assoc. f_equal. change [blank] with (replicate 1 blank). rewrite <- replicate_add. f_equal. lia.
Qed.

Definition vblank (v : View) : list Cell := replicate (Z.to_nat w) (vis (Cell_new (background_color (v_rend v)))).

Lemma scroll_vis s rs :
  scr_inv w h s -> scrolling_region_top_row (scr_ds s) = 0 -> (forall i, lookupZ rs i = row_after 1 s i) ->
  vis_rows rs = vshift 1 (Z.to_nat (scrolling_region_bottom_row (scr_ds s)))
    (replicate (Z.to_nat w) (vis (Cell_new (get_background_rendition (scr_ds s))))) (vis_rows (rows (fb s))).
Proof.
  intros [[] [Hl _]] Ht Hrs. unfold lenZ in Hl. set (b := scrolling_region_bottom_row (scr_ds s)) in *.
  set (blank := replicate _ _). apply list_eq. intros i. unfold vis_rows at 1. rewrite list_lookup_fmap.
  specialize (Hrs (Z.of_nat i)). unfold lookupZ in Hrs at 1. rewrite decide_True, Nat2Z.id in Hrs by lia. rewrite Hrs.
  unfold row_after. rewrite Ht. fold b. rewrite (proj2 (Z.leb_le 0 (Z.of_nat i))), (proj2 (Z.leb_le 0 (Z.of_nat i + 1))) by lia.
  cbn [andb]. unfold vshift. set (vr := vis_rows (rows (fb s))).
  assert (Hvr : length vr = Z.to_nat h) by (unfold vr, vis_rows; rewrite length_fmap; lia).
  assert (HA : length (take (S (Z.to_nat b) - 1) (drop 1 vr)) = Z.to_nat b) by (rewrite length_take, length_drop; lia).
  assert (Hlk : forall j, (fun r : Row => vis <$> cells r) <$> lookupZ (rows (fb s)) (Z.of_nat j) = vr !! j).
  { intros j. unfold lookupZ. rewrite decide_True, Nat2Z.id by lia. unfold vr, vis_rows. by rewrite list_lookup_fmap. }
  destruct (Z.leb_spec (Z.of_nat i) b), (Z.leb_spec (Z.of_nat i + 1) b); try lia.
  - rewrite lookup_app_l by lia. rewrite lookup_take_lt, lookup_drop by lia.
    replace (Z.of_nat i + 1) with (Z.of_nat (1 + i)) by lia. apply Hlk.
  - rewrite lookup_app_r by lia. rewrite HA. replace (i - Z.to_nat b)%nat with 0%nat by lia. cbn.
    unfold blank_row, Row_new. cbn. rewrite inv_width. unfold blank. by rewrite fmap_replicate.
  - rewrite app_assoc, lookup_app_r by (rewrite length_app, HA; cbn; lia). rewrite length_app, HA, lookup_drop. cbn [length replicate].
    rewrite Hlk. f_equal. lia.
Qed.

Definition vscroll (n : nat) (v : View) : View :=
  v <| v_rows := vshift n (Z.to_nat (v_bot v)) (vblank v) (v_rows v) |> <| v_pend := false |>.

Lemma draws_lf_scroll v : v_top v = 0 -> v_row v = v_bot v -> 1 <= v_row v -> draws w h [10] v (vscroll 1 v).
Proof.
  intros Ht Hrow H1. apply (draws_control w h 10 (move_rows_autoscroll 1)); [lia|done|done|].
  intros s Hs Hm Hv. pose proof Hs as [Hd _]. pose proof Hd as [].
  assert (E1 : cursor_row (scr_ds s) = v_row v) by apply (f_equal v_row Hv).
  assert (E2 : scrolling_region_top_row (scr_ds s) = v_top v) by apply (f_equal v_top Hv).
  assert (E3 : scrolling_region_bottom_row (scr_ds s) = v_bot v) by apply (f_equal v_bot Hv).
  assert (E4 : get_background_rendition (scr_ds s) = background_color (v_rend v)) by apply (f_equal (background_color ∘ v_rend) Hv).
  assert (E5 : vis_rows (rows (fb s)) = v_rows v) by apply (f_equal v_rows Hv).
  destruct (scroll_eq w h 1 s Hs) as (rs & E & Hrs); [done|]. apply scroll_vis in Hrs; [|done|congruence].
  rewrite E3, E4, E5 in Hrs. fold (vblank v) in Hrs.
  set (d1 := move_row (-1) true (scr_ds s)). destruct Hm as (Hi & Ho & Ha).
  assert (Ed1 : d1 = move_row (v_row v - 1 - cursor_row (scr_ds s)) true (scr_ds s)) by (unfold d1; f_equal; lia).
  rewrite (move_row_to w h _ (v_row v - 1) true Hd Ho) in Ed1 by lia.
  assert (Hd1 : ds_inv w h d1) by (by apply move_row_inv).
  assert (Ho1 : origin_mode d1 = false) by (by rewrite Ed1).
  assert (Ed2 : move_row 1 true d1 = move_row (v_row v - cursor_row d1) true d1) by (f_equal; rewrite Ed1; cbn; lia).
  rewrite (move_row_to w h _ (v_row v) true Hd1 Ho1) in Ed2 by lia.
  exists (put_ds (move_row 1 true d1) (put_rows rs (next_gen s))). split; [|split].
  - unfold move_rows_autoscroll. unfold mbind at 1, M_bind at 1. cbn [gets]. rewrite E1, E2, E3, Ht.
    destruct (Z.ltb_spec (v_row v) 0), (Z.ltb_spec (v_bot v) (v_row v)); try lia. cbn [orb].
    rewrite (proj2 (Z.ltb_lt (v_bot v) (v_row v + 1))) by lia. cbv zeta. replace (v_row v + 1 - v_bot v) with 1 by lia.
    rewrite (M_bind_Ok _ _ _ tt (put_ds d1 (put_rows rs (next_gen s)))); [done|]. by rewrite (M_bind_Ok _ _ _ tt _ E).
  - rewrite Ed2, Ed1. done.
  - rewrite Ed2, Ed1. unfold vscroll. rewrite <- Hrs.
    transitivity ((view_of (fb s)) <| v_rows := vis_rows rs |> <| v_pend := false |>); [|by rewrite Hv].
    rewrite <- E1. by destruct s as [? []].
Qed.

Lemma draws_lf_scroll_n n v :
  v_top v = 0 -> v_row v = v_bot v -> 1 <= v_row v -> (n <= S (Z.to_nat (v_bot v)))%nat -> v_bot v < lenZ (v_rows v) ->
  v_pend v = false -> draws w h (replicate n 10) v (vscroll n v).
Proof.
  intros Ht Hr H1 Hn Hb Hp. unfold lenZ in Hb. induction n as [|n IH].
  - unfold vscroll. rewrite vshift_0. assert (v <| v_rows := v_rows v |> <| v_pend := false |> = v) as ->; [|apply draws_nil].
    rewrite <- Hp. by destruct v.
  - replace (S n) with (n + 1)%nat by lia. rewrite replicate_add. eapply draws_app; [apply IH; lia|].
    replace (vscroll (n + 1) v) with (vscroll 1 (vscroll n v)); [apply draws_lf_scroll; done|].
    unfold vscroll at 1. change (v_rows (vscroll n v)) with (vshift n (Z.to_nat (v_bot v)) (vblank v) (v_rows v)).
    change (v_bot (vscroll n v)) with (v_bot v). change (vblank (vscroll n v)) with (vblank v).
    rewrite vshift_S by lia. rewrite Nat.add_1_r. done.
Qed.
End control.
