(* ===== verification/Osc.v ===== *)
(** * Operating system commands

    Titles, the clipboard and hyperlinks, from the octets to what the terminal
    shows. *)
From S2P Require Export Control.

Definition osc_char (c : Z) : Prop := is_scalar c = true /\ (0x20 <= c <= 0x7F \/ 0xA0 <= c).

Lemma parse_osc_text t :
  Forall osc_char t -> parse_run OSC_String t = (OSC_String, (fun c => MkAction OSC_Put c true) <$> t).
Proof.
  assert (Hall : forallb (fun c => (c <? 0x20) ||
    bool_decide (parser_input OSC_String c [] = (OSC_String, [MkAction OSC_Put c true]))) (seqZ 0 128) = true)
    by (vm_compute; reflexivity).
  induction 1 as [|c cs [_ [Hc|Hc]] _ IH]; [done| |]; cbn [parse_run].
  - pose proof (forall_range _ _ Hall c ltac:(lia)) as Hb. cbv beta in Hb.
    rewrite (proj2 (Z.ltb_ge c 0x20)) in Hb by lia. cbn [orb] in Hb. apply bool_decide_eq_true_1 in Hb. by rewrite Hb, IH.
  - assert (parser_input OSC_String c [] = (OSC_String, [MkAction OSC_Put c true])) as ->; [|by rewrite IH].
    unfold parser_input, State_input. rewrite anywhere_high by done.
    cbn [next_state]. rewrite (proj2 (Z.leb_le 0xA0 c)) by lia. reflexivity.
Qed.

Lemma osc_char_ok t : Forall osc_char t -> Forall (fun c => is_scalar c = true /\ c <> 0) t.
Proof. intros H. eapply Forall_impl; [exact H|]. intros c [? ?]. split; [done|lia]. Qed.

Definition on_disp (f : Dispatcher -> Dispatcher) (e : Emulator) : Emulator :=
  e <| ctx := (ctx e) <| dispatch_ := f (dispatch_ (ctx e)) |> |>.

Section osc.
Context `{HL : Libc} `{HLL : !LibcLaws} (w h : Z).

Lemma act_osc_put t e :
  lenZ (OSC_text (dispatch_ (ctx e))) + lenZ t <= MAXIMUM_CLIPBOARD_SIZE ->
  act_all ((fun c => MkAction OSC_Put c true) <$> t) e =
    Ok (tt, on_disp (fun d => d <| OSC_text := OSC_text d ++ t |>) e).
Proof.
  revert e. induction t as [|c t IH]; intros e Hl.
  { destruct e as [[s []] u]. cbn. unfold mret, M_ret. unfold on_disp. cbn. unfold set_field. cbn. by rewrite app_nil_r. }
  rewrite fmap_cons, act_all_cons. change (c :: t) with ([c] ++ t) in *. rewrite lenZ_app in Hl. change (lenZ [c]) with 1 in Hl.
  pose proof (lenZ_nonneg t).
  rewrite (M_bind_Ok _ _ _ tt (on_disp (fun d => d <| OSC_text := OSC_text d ++ [c] |>) e)).
  - rewrite IH.
    + unfold on_disp. cbn. unfold set_field. cbn. by rewrite <- app_assoc.
    + cbn. rewrite lenZ_app. change (lenZ [c]) with 1. lia.
  - unfold act_on_terminal, on_ctx, on_dispatch, zoom, OSC_put, mbind, M_bind, assert_, modify. cbn [typ char_present ch mret M_ret].
    rewrite (proj2 (Z.ltb_lt _ _)) by lia. done.
Qed.

(** The actions of a command up to its terminator. *)
Definition osc_disp (t : list Z) (d : Dispatcher) : Dispatcher := (OSC_start (clear d)) <| OSC_text := t |>.

Lemma parse_osc t : Forall osc_char t ->
  parse_run Ground ([27; 93] ++ t) =
    (OSC_String, [make_action Clear; make_action OSC_Start] ++ ((fun c => MkAction OSC_Put c true) <$> t)).
Proof.
  intros Ht. rewrite parse_run_app. change (parse_run Ground [27; 93]) with (OSC_String, [make_action Clear; make_action OSC_Start]).
  by rewrite parse_osc_text.
Qed.

Lemma act_osc t e : lenZ t <= MAXIMUM_CLIPBOARD_SIZE ->
  act_all ([make_action Clear; make_action OSC_Start] ++ ((fun c => MkAction OSC_Put c true) <$> t)) e =
    Ok (tt, on_disp (osc_disp t) e).
Proof.
  intros Hl. rewrite act_all_app. set (e1 := on_disp (fun d => OSC_start (clear d)) e).
  rewrite (M_bind_Ok _ _ _ tt e1) by done. rewrite act_osc_put; [done|]. change (OSC_text (dispatch_ (ctx e1))) with (@nil Z).
  rewrite Z.add_0_l. done.
Qed.

Lemma encode_ascii t : Forall (fun c => 0 <= c < 128) t -> encode t = t.
Proof.
  induction 1 as [|c t Hc _ IH]; [done|]. rewrite encode_cons, IH. unfold wcrtomb, is_scalar, is_surrogate.
  rewrite (proj2 (Z.ltb_lt c 128)) by lia.
  replace ((0 <=? c) && (c <=? 1114111) && negb ((55296 <=? c) && (c <=? 57343))) with true by lia. done.
Qed.

(** A command, by what [OSC_dispatch] does with its text; [ST] as terminator
    also clears the wrap flag. *)
Lemma draws_osc t (st : bool) v v' :
  Forall osc_char t -> lenZ t <= MAXIMUM_CLIPBOARD_SIZE ->
  (forall s d, scr_inv w h s -> plain_modes (scr_ds s) -> view_of (fb s) = v -> OSC_text d = t ->
    exists s', OSC_dispatch (MkContext s d) = Ok (tt, MkContext s' d) /\ plain_modes (scr_ds s') /\ view_of (fb s') = v') ->
  draws w h (27 :: 93 :: encode t ++ (if st then [27; 92] else [7])) v (if st then v' <| v_pend := false |> else v').
Proof.
  intros Ht Hl Hd. set (fin := if st then [27; 92] else [7]).
  assert (Henc : 27 :: 93 :: encode t ++ fin = encode (([27; 93] ++ t) ++ fin)).
  { rewrite !encode_app, (encode_ascii [27; 93]), (encode_ascii fin) by (unfold fin; destruct st; repeat constructor; lia). done. }
  assert (Hok : Forall (fun c => is_scalar c = true /\ c <> 0) (([27; 93] ++ t) ++ fin)).
  { rewrite !Forall_app. split; [split; [by repeat constructor|by apply osc_char_ok]|]. unfold fin. destruct st; by repeat constructor. }
  rewrite Henc. apply draws_ctx; [apply encode_u8|].
  intros [p [[s d] u] hist ack] [[[Hmax Hu] [Hs Hdi]] Hp Hh Hm] Hv. cbn in Hp, Hs, Hm, Hv, Hdi. subst p.
  destruct (Hd s (osc_disp t d) Hs Hm Hv eq_refl) as (s' & E & Hm' & Hv').
  set (e1 := MkEmulator (MkContext s (osc_disp t d)) u).
  assert (Hend : act_on_terminal (make_action OSC_End) e1 = Ok (tt, MkEmulator (MkContext s' (osc_disp t d)) u)).
  { unfold act_on_terminal, on_ctx, zoom. cbn [typ make_action e1 ctx]. by rewrite E. }
  rewrite act_octets_encode by done. rewrite parse_run_app, parse_osc by done. cbn [fst snd].
  rewrite act_all_app, (M_bind_Ok _ _ _ tt e1) by (by rewrite act_osc).
  destruct st; subst fin.
  - change (parse_run OSC_String [27; 92]) with
      (Ground, [make_action OSC_End; make_action Clear; MkAction Esc_Dispatch 92 true]). cbn [fst snd]. rewrite act_all_cons.
    rewrite (M_bind_Ok _ _ _ tt _ Hend). do 2 eexists. split; [reflexivity|]. split; [done|]. split; [done|]. by rewrite <- Hv'.
  - change (parse_run OSC_String [7]) with (Ground, [make_action OSC_End]). cbn [fst snd]. rewrite act_all_cons.
    rewrite (M_bind_Ok _ _ _ tt _ Hend). do 2 eexists. split; [reflexivity|]. split; [done|]. split; [done|]. done.
Qed.

(** ** Titles and the clipboard *)

Ltac forall_chars := cbn; repeat (apply Forall_cons; split; [lia|]); constructor.

Lemma osc_ascii (pre t : list Z) : Forall (fun c => 0x20 <= c < 0x7F) pre -> Forall osc_char t -> Forall osc_char (pre ++ t).
Proof.
  intros Hp Ht. apply Forall_app. split; [|done]. eapply Forall_impl; [exact Hp|]. intros c Hc. cbn in Hc.
  split; [unfold is_scalar, is_surrogate; lia|lia].
Qed.

(** [OSC_dispatch] on the commands 0 to 2. *)
Lemma OSC_title_eq n t s d :
  48 <= n <= 50 -> OSC_text d = n :: 59 :: t -> (length t <= 254)%nat ->
  OSC_dispatch (MkContext s d) =
    Ok (tt, MkContext (s <| fb := (fb s) <| title_initialized := true |>
      <| icon_name := if n =? 50 then icon_name (fb s) else t |> <| window_title := if n =? 49 then window_title (fb s) else t |> |>) d).
Proof.
  intros Hn Ht Hl. unfold OSC_dispatch. unfold mbind at 1, M_bind at 1. cbn [gets dispatch_]. rewrite Ht.
  rewrite (bool_decide_false (take 5 _ = _)) by (intros [= -> _]; lia). rewrite andb_false_r.
  assert (Hlen : lenZ (n :: 59 :: t) = 2 + lenZ t) by apply (lenZ_app [n; 59] t). pose proof (lenZ_nonneg t).
  rewrite !(proj2 (Z.leb_le _ _)) by lia. cbn [nth andb]. rewrite (proj2 (Z.eqb_neq n 59)) by lia. change (59 =? 59) with true. cbv iota zeta.
  rewrite (proj2 (Z.eqb_neq (n - 48) 8)) by lia. rewrite Nat.min_l by (cbn; lia). rewrite take_ge by (cbn; lia). cbn [drop].
  destruct s as [g []].
  assert (n = 48 \/ n = 49 \/ n = 50) as [->|[->| ->]] by lia; reflexivity.
Qed.

Lemma draws_title_n n t v :
  48 <= n <= 50 -> Forall osc_char t -> (length t <= 254)%nat ->
  draws w h (27 :: 93 :: n :: 59 :: encode t ++ [7]) v
    (v <| v_icon := if n =? 50 then v_icon v else t |> <| v_title := if n =? 49 then v_title v else t |>).
Proof.
  intros Hn Ht Hl.
  replace (27 :: 93 :: n :: 59 :: encode t ++ [7]) with (27 :: 93 :: encode ([n; 59] ++ t) ++ [7]).
  2:{ rewrite encode_app, (encode_ascii [n; 59]) by (forall_chars). done. }
  apply (draws_osc _ false).
  - apply osc_ascii; [forall_chars|done].
  - rewrite lenZ_app. unfold lenZ, MAXIMUM_CLIPBOARD_SIZE. cbn [length]. lia.
  - intros s d Hs Hm Hv Htx. rewrite (OSC_title_eq n t) by done. eexists. split; [reflexivity|]. split; [by destruct s as [? []]|].
    subst v. by destruct s as [? []].
Qed.

Lemma draws_clip t v :
  Forall osc_char t -> lenZ t <= MAXIMUM_CLIPBOARD_SIZE - 5 ->
  draws w h (27 :: str "]52;c;" ++ encode t ++ [7]) v (v <| v_clip := t |>).
Proof.
  intros Ht Hl.
  replace (27 :: str "]52;c;" ++ encode t ++ [7]) with (27 :: 93 :: encode (str "52;c;" ++ t) ++ [7]).
  2:{ rewrite encode_app, (encode_ascii (str "52;c;")) by (forall_chars). done. }
  apply (draws_osc _ false).
  - apply osc_ascii; [forall_chars|done].
  - rewrite lenZ_app. change (lenZ (str "52;c;")) with 5. lia.
  - intros s d Hs Hm Hv Htx. eexists. split.
    + unfold OSC_dispatch. unfold mbind at 1, M_bind at 1. cbn [gets dispatch_]. rewrite Htx.
      rewrite bool_decide_true by done. rewrite lenZ_app. change (lenZ (str "52;c;")) with 5. pose proof (lenZ_nonneg t).
      rewrite (proj2 (Z.leb_le 5 _)) by lia. cbn [andb]. reflexivity.
    + split; [by destruct s as [? []]|]. subst v. by destruct s as [? []].
Qed.

(** ** Hyperlinks *)

(** The links a terminal makes. *)
Definition link_ok (l : Hyperlink) : Prop :=
  match l with
  | None => True
  | Some (p, u) => Forall (fun c => 32 <= c <= 126 /\ c <> 59) p /\ Forall (fun c => 32 <= c <= 126) u /\ u <> [] /\
      lenZ p + lenZ u + 3 <= MAXIMUM_CLIPBOARD_SIZE
  end.

Lemma Parse_OSC_8_id t : Forall (fun c => 32 <= c <= 126) t -> Parse_OSC_8 t = Some t.
Proof.
  induction 1 as [|c t Hc _ IH]; [done|]. cbn [Parse_OSC_8].
  rewrite (proj2 (Z.ltb_ge c 32)), (proj2 (Z.ltb_ge 126 c)), IH, u8_id by (unfold is_u8; lia). done.
Qed.

Lemma find_semicolon_app p r : Forall (fun c => c <> 59) p -> find_semicolon (p ++ 59 :: r) = Some (length p).
Proof.
  induction 1 as [|c p Hc _ IH]; [done|]. cbn [app find_semicolon length]. by rewrite (proj2 (Z.eqb_neq c 59)), IH.
Qed.

Lemma OSC_8_eq p u s d :
  Forall (fun c => 32 <= c <= 126 /\ c <> 59) p -> Forall (fun c => 32 <= c <= 126) u -> OSC_text d = str "8;" ++ p ++ 59 :: u ->
  OSC_dispatch (MkContext s d) = Ok (tt, MkContext (put_ds (set_hyperlink (Hyperlink_new p u) (scr_ds s)) s) d).
Proof.
  intros Hp Hu Ht. unfold OSC_dispatch. unfold mbind at 1, M_bind at 1. cbn [gets dispatch_]. rewrite Ht.
  set (rest := p ++ 59 :: u). change (str "8;" ++ rest) with (56 :: 59 :: rest).
  assert (Hlen : lenZ (56 :: 59 :: rest) = 2 + lenZ rest) by apply (lenZ_app [56; 59] rest).
  assert (0 < lenZ rest) by (unfold rest, lenZ; rewrite length_app; cbn; lia).
  rewrite (bool_decide_false (take 5 _ = _)) by done. rewrite andb_false_r.
  rewrite !(proj2 (Z.leb_le _ _)) by lia. cbn [nth andb]. change (56 =? 59) with false. change (59 =? 59) with true. cbv iota zeta.
  change (56 - 48 =? 8) with true. cbv iota. rewrite Parse_OSC_8_id.
  - unfold on_screen, zoom, OSC_8. unfold mbind, M_bind, assert_. change (hd 0 (56 :: 59 :: rest) =? chr "8") with true. cbn [mret M_ret screen].
    rewrite Hlen, (proj2 (Z.leb_gt (2 + lenZ rest) 2)) by lia. cbn [nth orb negb]. change (59 =? 59) with true. cbv iota. cbn [negb drop]. rewrite drop_0.
    assert (find_semicolon rest = Some (length p)) as ->.
    { unfold rest. apply find_semicolon_app. eapply Forall_impl; [exact Hp|]; by intros ? []. }
    replace (take (length p) rest) with p by (unfold rest; by rewrite take_app_length).
    replace (drop (2 + length p + 1) (56 :: 59 :: rest)) with u; [by destruct s as [? []]|].
    replace (2 + length p + 1)%nat with (S (S (length p + 1))) by lia. cbn [drop]. unfold rest.
    rewrite drop_app_ge, Nat.add_comm, Nat.add_sub by lia. done.
  - do 2 (apply Forall_cons; split; [lia|]). unfold rest. apply Forall_app. split.
    + eapply Forall_impl; [exact Hp|]. by intros ? [].
    + apply Forall_cons. split; [lia|done].
Qed.

Lemma draws_link l v : link_ok l -> draws w h (osc8 l) v (v <| v_link := l |> <| v_pend := false |>).
Proof.
  intros Hl. destruct (match l with Some pu => pu | None => ([], []) end) as [p u] eqn:E.
  assert (Ho : osc8 l = 27 :: 93 :: encode (str "8;" ++ p ++ 59 :: u) ++ [27; 92]).
  { rewrite encode_ascii.
    - unfold osc8. destruct l as [[p' u']|]; injection E as <- <-; cbn; by rewrite <- ?app_assoc.
    - destruct l as [[p' u']|]; injection E as <- <-; [|forall_chars]. destruct Hl as (Hp & Hu & _).
      apply Forall_app. split; [forall_chars|]. apply Forall_app. split; [|apply Forall_cons; split; [lia|]];
        (eapply Forall_impl; [eassumption|]; cbn; intros; lia). }
  assert (Hpu : Forall (fun c => 32 <= c <= 126 /\ c <> 59) p /\ Forall (fun c => 32 <= c <= 126) u /\ Hyperlink_new p u = l /\
    lenZ p + lenZ u + 3 <= MAXIMUM_CLIPBOARD_SIZE).
  { destruct l as [[p' u']|]; injection E as <- <-; [|by split_and!]. destruct Hl as (Hp & Hu & Hne & Hlen).
    split_and!; try done. by destruct u'. }
  destruct Hpu as (Hp & Hu & Hnew & Hlen). rewrite Ho. apply (draws_osc _ true _ (v <| v_link := l |>)).
  - apply osc_ascii; [forall_chars|]. apply Forall_app. split; [|apply Forall_cons; split; [by split; [|lia]|]];
      (eapply Forall_impl; [eassumption|]; cbn; intros c Hc; split; [unfold is_scalar, is_surrogate; lia|lia]).
  - rewrite !lenZ_app. change (lenZ (str "8;")) with 2.
    assert (lenZ (59 :: u) = 1 + lenZ u) as -> by apply (lenZ_app [59] u). lia.
  - intros s d Hs Hm Hv Htx. rewrite (OSC_8_eq p u) by done. rewrite Hnew. eexists. split; [reflexivity|].
    split; [done|]. subst v. by destruct s as [? []].
Qed.
End osc.
