(* ===== verification/Paint.v ===== *)
(** * Painting

    What the pieces of [Display::new_frame] do to a terminal that shows the
    frame drawn so far.  The display keeps beliefs about the terminal's cursor,
    renditions and hyperlink; the predicates below tie them to what the
    terminal shows. *)
From S2P Require Export Osc.

(** The part of a view that drawing rows does not touch. *)
Definition misc (v : View) : bool * bool * Z * bool * Z * list Z * list Z * list Z :=
  (v_reverse v, v_paste v, v_mouse v, v_focus v, v_enc v, v_icon v, v_title v, v_clip v).

Section paint.
Context `{HL : Libc} `{HLL : !LibcLaws} (w h : Z).
Context (Hw : 2 < w <= PARAM_MAX) (Hh : 0 < h <= PARAM_MAX).
Context (v0 : View) (m : bool * bool * Z * bool * Z * list Z * list Z * list Z).

(** The octets so far take the terminal from [v0] to [v], which has the rows
    [rs] and the renditions, link and visibility the display believes in. *)
Record painted (rs : list (list Cell)) (fr : FrameState) (v : View) : Prop := {
  pt_draws : draws w h (fs_str fr) v0 v;
  pt_rows : v_rows v = rs;
  pt_rend : v_rend v = current_rendition fr;
  pt_link : v_link v = current_hyperlink fr;
  pt_visible : v_visible v = fs_cursor_visible fr;
  pt_region : v_top v = 0 /\ v_bot v = h - 1;
  pt_pos : 0 <= v_row v < h /\ 0 <= v_col v < w;
  pt_misc : misc v = m }.

(** The cursor is where the display believes it to be; the display does not
    know where it is; it is past the last column; it is about to wrap. *)
Definition drawn_at (y x : Z) (rs : list (list Cell)) (fr : FrameState) : Prop :=
  exists v, painted rs fr v /\ cursor_y fr = y /\ cursor_x fr = x /\ v_row v = y /\ v_col v = x /\ v_pend v = false.
Definition drawn_lost (rs : list (list Cell)) (fr : FrameState) : Prop :=
  exists v, painted rs fr v /\ cursor_y fr = -1 /\ cursor_x fr = -1.
Definition drawn_past (y : Z) (rs : list (list Cell)) (fr : FrameState) : Prop :=
  exists v, painted rs fr v /\ cursor_y fr = y /\ cursor_x fr = w /\ v_row v = y /\ v_col v = w - 1 /\ v_pend v = true.
Definition drawn_wrap (y : Z) (rs : list (list Cell)) (fr : FrameState) : Prop :=
  exists v, painted rs fr v /\ cursor_y fr = y + 1 /\ cursor_x fr = 0 /\ v_row v = y /\ v_col v = w - 1 /\ v_pend v = true.

Definition drawn (rs : list (list Cell)) (fr : FrameState) : Prop :=
  drawn_lost rs fr \/ exists y x, drawn_at y x rs fr.

(** More octets. *)
Lemma painted_append rs rs' s fr v v' (fr' : FrameState) :
  painted rs fr v -> draws w h s v v' -> fs_str fr' = fs_str fr ++ s ->
  v_rows v' = rs' -> v_rend v' = current_rendition fr' -> v_link v' = current_hyperlink fr' ->
  v_visible v' = fs_cursor_visible fr' -> v_top v' = v_top v -> v_bot v' = v_bot v ->
  (0 <= v_row v' < h /\ 0 <= v_col v' < w) -> misc v' = misc v -> painted rs' fr' v'.
Proof.
  intros [] Hd Hs Hr Hre Hl Hv Ht Hb Hp Hm. split; try done; [|by rewrite Ht, Hb|by rewrite Hm].
  rewrite Hs. by apply (draws_app w h _ _ _ v).
Qed.

(** ** Moving the cursor *)

Lemma move_text y x : 0 <= y < h -> 0 <= x < w ->
  snprintf 64 (27 :: str "[" ++ dec (y + 1) ++ str ";" ++ dec (x + 1) ++ str "H") = 27 :: 91 :: join_params [y + 1; x + 1] ++ [72].
Proof.
  intros Hy Hx. pose proof Hw as Hw'. pose proof Hh as Hh'. unfold PARAM_MAX in Hw', Hh'.
  pose proof (dec_length (y + 1) 5 ltac:(cbn; lia) ltac:(lia)). pose proof (dec_length (x + 1) 5 ltac:(cbn; lia) ltac:(lia)).
  unfold snprintf. cbn [join_params]. rewrite take_ge.
  - cbn. by rewrite <- app_assoc.
  - cbn -[dec]. rewrite !length_app. cbn -[dec]. rewrite !length_app. cbn -[dec]. lia.
Qed.

(** [append_move] ends at its target. *)
Lemma append_move_draws y x fr v :
  0 <= y < h -> 0 <= x < w -> v_top v = 0 -> v_bot v = h - 1 -> 0 <= v_row v < h -> 0 <= v_col v < w ->
  (cursor_y fr = -1 /\ cursor_x fr = -1 \/
   cursor_y fr = v_row v /\ cursor_x fr = v_col v /\ v_pend v = false \/
   cursor_y fr = v_row v /\ cursor_x fr = w /\ v_col v = w - 1 /\ (y <> v_row v \/ x = 0 \/ x + 5 <= w)) ->
  exists s, append_move y x fr = (append s fr) <| cursor_x := x |> <| cursor_y := y |> /\ draws w h s v (vmove y x v).
Proof.
  intros Hy Hx Ht Hb Hr Hc Hcur. unfold append_move. cbv zeta.
  assert (Hcsi : draws w h (snprintf 64 (27 :: str "[" ++ dec (y + 1) ++ str ";" ++ dec (x + 1) ++ str "H")) v (vmove y x v)).
  { rewrite move_text by done. apply draws_move; lia. }
  destruct (Z.eqb_spec (cursor_x fr) (-1)) as [Ex|Ex], (Z.eqb_spec (cursor_y fr) (-1)) as [Ey|Ey]; cbn [negb andb]; try lia;
    [by eexists|].
  destruct ((x =? 0) && (0 <=? y - cursor_y fr) && (y - cursor_y fr <? 5)) eqn:E1.
  - rewrite !andb_true_iff, Z.eqb_eq, Z.leb_le, Z.ltb_lt in E1. destruct E1 as [[-> E1] E2].
    exists ((if negb (cursor_x fr =? 0) then [13] else []) ++ replicate (Z.to_nat (y - cursor_y fr)) 10). split.
    { unfold append_n, append. destruct (negb _); cbn; by rewrite <- ?app_assoc. }
    set (v1 := v <| v_col := 0 |> <| v_pend := false |>).
    apply (draws_app w h _ _ _ v1).
    + destruct (Z.eqb_spec (cursor_x fr) 0) as [E0|E0]; cbn [negb]; [|apply draws_cr].
      assert (v1 = v) as ->; [|apply draws_nil]. destruct Hcur as [?|[(_ & Hcx & Hp)|?]]; [lia| |lia].
      unfold v1. destruct v; cbn in *. unfold set_field. cbn. f_equal; congruence.
    + replace (vmove y 0 v) with (v1 <| v_row := v_row v1 + Z.of_nat (Z.to_nat (y - cursor_y fr)) |>).
      * apply draws_lf_n; cbn; lia || done.
      * unfold vmove, v1. destruct v; cbn in *. unfold set_field. cbn. f_equal; lia.
  - destruct ((y =? cursor_y fr) && (x - cursor_x fr <? 0) && (-5 <? x - cursor_x fr)) eqn:E2; [|by eexists].
    rewrite !andb_true_iff, Z.eqb_eq, !Z.ltb_lt in E2. destruct E2 as [[Ey' E2] E3].
    assert (Hx0 : x <> 0). { intros ->. rewrite Z.eqb_refl, (proj2 (Z.leb_le 0 _)), (proj2 (Z.ltb_lt _ 5)) in E1 by lia. done. }
    destruct Hcur as [?|[(Hcy & Hcx & Hp)|?]]; [lia| |lia].
    exists (replicate (Z.to_nat (cursor_x fr - x)) 8). split; [done|].
    replace (vmove y x v) with (v <| v_col := v_col v - Z.of_nat (Z.to_nat (cursor_x fr - x)) |> <| v_pend := false |>).
    + apply draws_bs_n; lia.
    + unfold vmove. destruct v; cbn in *. unfold set_field. cbn. f_equal; lia.
Qed.

Lemma append_move_at y x rs fr :
  0 <= y < h -> 0 <= x < w -> drawn rs fr -> drawn_at y x rs (append_move y x fr).
Proof.
  intros Hy Hx Hd.
  assert (exists v, painted rs fr v /\ (cursor_y fr = -1 /\ cursor_x fr = -1 \/
    cursor_y fr = v_row v /\ cursor_x fr = v_col v /\ v_pend v = false)) as (v & Hp & Hc).
  { destruct Hd as [(v & Hp & H1 & H2)|(y' & x' & v & Hp & H1 & H2 & H3 & H4 & H5)]; exists v; [tauto|]. split; [done|right; split_and!; congruence]. }
  pose proof Hp as []. destruct (append_move_draws y x fr v) as (s & -> & Hs); try lia; [tauto|].
  exists (vmove y x v). split; [|by split_and!]. eapply (painted_append rs rs s fr v); [done..|]. cbn. done.
Qed.

Lemma append_move_past y' y x rs fr :
  0 <= y < h -> 0 <= x < w -> drawn_past y' rs fr -> (y <> y' \/ x = 0 \/ x + 5 <= w) -> drawn_at y x rs (append_move y x fr).
Proof.
  intros Hy Hx (v & Hp & H1 & H2 & H3 & H4 & H5) Hok.
  pose proof Hp as []. destruct (append_move_draws y x fr v) as (s & -> & Hs); try lia.
  exists (vmove y x v). split; [|by split_and!]. eapply (painted_append rs rs s fr v); [done..|]. cbn. done.
Qed.

Lemma drawn_hide rs fr : drawn rs fr -> drawn rs ((append (27 :: str "[?25l") fr) <| fs_cursor_visible := false |>).
Proof.
  intros [(v & Hp & H1 & H2)|(y' & x' & v & Hp & H1 & H2 & H3 & H4 & H5)]; [left|right; exists y', x'];
    exists (v <| v_visible := false |>); (split; [|by split_and!]); pose proof Hp as [];
    (eapply painted_append; [exact Hp|apply (draws_visible w h false)|done..]).
Qed.

Lemma append_silent_move_at y x rs fr :
  0 <= y < h -> 0 <= x < w -> drawn rs fr -> drawn_at y x rs (append_silent_move y x fr).
Proof.
  intros Hy Hx Hd. unfold append_silent_move. destruct ((cursor_x fr =? x) && (cursor_y fr =? y)) eqn:E.
  - rewrite andb_true_iff, !Z.eqb_eq in E. destruct E as [E1 E2].
    destruct Hd as [(v & Hp & H1 & H2)|(y' & x' & v & Hp & H1 & H2 & H3)]; [lia|]. exists v. split; [done|]. split_and!; intuition congruence.
  - apply append_move_at; [done..|]. destruct (fs_cursor_visible fr); [by apply drawn_hide|done].
Qed.

Lemma drawn_at_drawn y x rs fr : drawn_at y x rs fr -> drawn rs fr.
Proof. right. eauto. Qed.

Lemma drawn_trash rs fr : drawn rs fr -> drawn rs (fr <| cursor_x := -1 |> <| cursor_y := -1 |>).
Proof. intros [(v & [] & _)|(y' & x' & v & [] & _)]; left; exists v; by split. Qed.

(** ** Renditions and hyperlinks *)

Lemma update_rendition_current r b fr : current_rendition (update_rendition r b fr) = r.
Proof. unfold update_rendition. destruct (b || _) eqn:E; [done|]. apply orb_false_iff in E as [_ E]. by case_bool_decide. Qed.
Lemma update_rendition_link r b fr : current_hyperlink (update_rendition r b fr) = current_hyperlink fr.
Proof. unfold update_rendition. by destruct (_ || _). Qed.
Lemma update_hyperlink_current l b fr : current_hyperlink (update_hyperlink l b fr) = l.
Proof.
  unfold update_hyperlink, Hyperlink_eqb. destruct (b || _) eqn:E; [done|]. apply orb_false_iff in E as [_ E]. by case_bool_decide.
Qed.
Lemma update_hyperlink_rend l b fr : current_rendition (update_hyperlink l b fr) = current_rendition fr.
Proof. unfold update_hyperlink. by destruct (_ || _). Qed.

(** SGR changes nothing else, not even the pending wrap. *)
Lemma painted_rendition rs r b fr v :
  rend_wf r -> painted rs fr v ->
  exists v', painted rs (update_rendition r b fr) v' /\ v_row v' = v_row v /\ v_col v' = v_col v /\ v_pend v' = v_pend v.
Proof.
  intros Hr Hp. unfold update_rendition. destruct (_ || _); [|by exists v].
  exists (v <| v_rend := r |>). split; [|done]. pose proof Hp as []. by eapply painted_append; [exact Hp|by apply draws_sgr|..].
Qed.

Lemma cursor_update_rendition r b fr :
  cursor_x (update_rendition r b fr) = cursor_x fr /\ cursor_y (update_rendition r b fr) = cursor_y fr.
Proof. unfold update_rendition. by destruct (_ || _). Qed.
Lemma cursor_update_hyperlink l b fr :
  cursor_x (update_hyperlink l b fr) = cursor_x fr /\ cursor_y (update_hyperlink l b fr) = cursor_y fr.
Proof. unfold update_hyperlink. by destruct (_ || _). Qed.

Lemma update_rendition_at y x rs r b fr : rend_wf r -> drawn_at y x rs fr -> drawn_at y x rs (update_rendition r b fr).
Proof.
  intros Hr (v & Hp & H1 & H2 & H3 & H4 & H5). destruct (painted_rendition rs r b fr v Hr Hp) as (v' & Hp' & E1 & E2 & E3).
  destruct (cursor_update_rendition r b fr) as [E4 E5]. exists v'. split; [done|]. split_and!; congruence.
Qed.

Lemma update_rendition_wrap y rs r b fr : rend_wf r -> drawn_wrap y rs fr -> drawn_wrap y rs (update_rendition r b fr).
Proof.
  intros Hr (v & Hp & H1 & H2 & H3 & H4 & H5). destruct (painted_rendition rs r b fr v Hr Hp) as (v' & Hp' & E1 & E2 & E3).
  destruct (cursor_update_rendition r b fr) as [E4 E5]. exists v'. split; [done|]. split_and!; congruence.
Qed.

Lemma update_hyperlink_at y x rs l b fr : link_ok l -> drawn_at y x rs fr -> drawn_at y x rs (update_hyperlink l b fr).
Proof.
  intros Hl (v & Hp & H1 & H2 & H3 & H4 & H5). unfold update_hyperlink. destruct (_ || _); [|by exists v].
  exists (v <| v_link := l |> <| v_pend := false |>). split; [|by split_and!]. pose proof Hp as [].
  by eapply painted_append; [exact Hp|by apply draws_link|..].
Qed.

Lemma update_hyperlink_same fr : update_hyperlink (current_hyperlink fr) false fr = fr.
Proof. unfold update_hyperlink, Hyperlink_eqb. by rewrite bool_decide_true. Qed.

(** The renditions and link of a cell or of a run of blanks. *)
Definition pen (r : Renditions) (l : Hyperlink) (fr : FrameState) : FrameState :=
  update_hyperlink l false (update_rendition r false fr).

Lemma pen_at y x rs r l fr :
  rend_wf r -> link_ok l -> drawn_at y x rs fr ->
  drawn_at y x rs (pen r l fr) /\ current_rendition (pen r l fr) = r /\ current_hyperlink (pen r l fr) = l.
Proof.
  intros Hr Hl Hd. unfold pen. rewrite update_hyperlink_rend, update_rendition_current, update_hyperlink_current.
  split; [|done]. by apply update_hyperlink_at, update_rendition_at.
Qed.

(** ** Cells *)

(** What is seen of a cell and, when it is wide, of the cell behind it. *)
Definition vcells (c : Cell) : list Cell :=
  vis c :: (if wide c then [vis (Cell_new (background_color (cell_renditions c)))] else []).

Definition drawable (c : Cell) : Prop :=
  rend_wf (cell_renditions c) /\ link_ok (cell_hyperlink c) /\ grapheme (print_grapheme c []) (wide c).

Lemma print_grapheme_app c s : print_grapheme c s = s ++ print_grapheme c [].
Proof. unfold print_grapheme. by destruct (contents c). Qed.

Lemma length_vcells c : Z.of_nat (length (vcells c)) = get_width_cell c.
Proof. unfold vcells, get_width_cell. by destruct (wide c). Qed.

(** After a grapheme the cursor is on the next cell, or past the last. *)
Definition drawn_after (y x : Z) (rs : list (list Cell)) (fr : FrameState) : Prop :=
  if x <? w then drawn_at y x rs fr else drawn_past y rs fr.

Lemma painted_put y x s (wd : bool) rs fr fr' v :
  painted rs fr v -> v_row v = y -> v_col v = x -> v_pend v = false -> x + cell_cols wd <= w -> grapheme s wd ->
  fr' = (append s fr) <| cursor_x := x + cell_cols wd |> <| cursor_y := y |> ->
  drawn_after y (x + cell_cols wd) (alter (write_at (Z.to_nat x)
    (MkCell s (current_rendition fr) (current_hyperlink fr) wd false false ::
       (if wd then [vis (Cell_new (background_color (current_rendition fr)))] else []))) (Z.to_nat y) rs) fr'.
Proof.
  intros Hp Hr Hc Hn Hx Hg ->. pose proof Hp as [].
  assert (Hcols : 1 <= cell_cols wd <= 2) by (destruct wd; cbn; lia).
  assert (Hp' : painted (alter (write_at (Z.to_nat x)
    (MkCell s (current_rendition fr) (current_hyperlink fr) wd false false ::
       (if wd then [vis (Cell_new (background_color (current_rendition fr)))] else []))) (Z.to_nat y) rs)
    ((append s fr) <| cursor_x := x + cell_cols wd |> <| cursor_y := y |>) (vput w s wd v)).
  { eapply painted_append; [exact Hp|apply (draws_grapheme w h); [done|done|lia]|..]; try done.
    - unfold vput, vglyph. cbn -[Z.add cell_cols]. by rewrite <- pt_rows0, <- pt_rend0, <- pt_link0, Hr, Hc.
    - cbn -[Z.add Z.min cell_cols]. lia. }
  unfold drawn_after. destruct (Z.ltb_spec (x + cell_cols wd) w); eexists; (split; [exact Hp'|]);
    unfold vput; cbn -[Z.add Z.min Z.leb cell_cols]; rewrite Hc; split_and!; lia || (by rewrite ?(proj2 (Z.leb_gt _ _)), ?(proj2 (Z.leb_le _ _)) by lia) || done.
Qed.

Lemma append_cell_at y x c rs fr :
  drawn_at y x rs fr -> drawable c -> current_rendition fr = cell_renditions c -> current_hyperlink fr = cell_hyperlink c ->
  x + get_width_cell c <= w ->
  drawn_after y (x + get_width_cell c) (alter (write_at (Z.to_nat x) (vcells c)) (Z.to_nat y) rs)
    ((append_cell c fr) <| cursor_x := x + get_width_cell c |>).
Proof.
  intros (v & Hp & H1 & H2 & H3 & H4 & H5) (_ & _ & Hg) Er El Hx.
  pose proof (painted_put y x (print_grapheme c []) (wide c) rs fr _ v Hp H3 H4 H5 Hx Hg eq_refl) as H.
  rewrite Er, El in H. change (cell_cols (wide c)) with (get_width_cell c) in H.
  replace ((append_cell c fr) <| cursor_x := x + get_width_cell c |>)
    with ((append (print_grapheme c []) fr) <| cursor_x := x + get_width_cell c |> <| cursor_y := y |>); [exact H|].
  unfold append_cell, append. rewrite (print_grapheme_app c (fs_str fr)), <- H1. by destruct fr.
Qed.

Lemma append_cell_wrap y c rs fr :
  drawn_wrap y rs fr -> y + 1 < h -> drawable c -> current_rendition fr = cell_renditions c -> current_hyperlink fr = cell_hyperlink c ->
  drawn_at (y + 1) (get_width_cell c) (alter (write_at 0 (vcells c)) (Z.to_nat (y + 1)) rs)
    ((append_cell c fr) <| cursor_x := get_width_cell c |>).
Proof.
  intros (v & Hp & H1 & H2 & H3 & H4 & H5) Hy (_ & _ & Hg) Er El. pose proof Hp as [].
  assert (Hcols : 1 <= get_width_cell c <= 2) by (unfold get_width_cell; destruct (wide c); lia).
  exists (vput w (print_grapheme c []) (wide c) (vwrap v)). split; [|].
  - eapply painted_append; [exact Hp|apply (draws_wrapped w h); [done|done|lia|lia]|..]; try done.
    + cbn. apply print_grapheme_app.
    + unfold vput, vglyph, vcells, vwrap, vis at 1. cbn -[Z.add]. by rewrite pt_rows0, pt_rend0, pt_link0, H3, Er, El.
    + cbn -[Z.add Z.min cell_cols]. change (cell_cols (wide c)) with (get_width_cell c). lia.
  - change (cell_cols (wide c)) with (get_width_cell c).
    split_and!; cbn -[Z.add Z.min Z.leb cell_cols]; try done; try lia;
      change (cell_cols (wide c)) with (get_width_cell c); [lia|apply Z.leb_gt; lia].
Qed.

(** ** Blanks *)

Lemma grapheme_space : grapheme [32] false.
Proof.
  exists 32, []. split; [done|]. split; [|split; [done|split; [done|done]]].
  apply Forall_cons. split; [|done]. split; [done|lia].
Qed.

Definition vspace (r : Renditions) (l : Hyperlink) : Cell := MkCell [32] r l false false false.

Lemma drawn_after_step y x rs fr : drawn_after y x rs fr -> x < w -> drawn_at y x rs fr.
Proof. unfold drawn_after. intros H Hx. by rewrite (proj2 (Z.ltb_lt x w)) in H. Qed.

Lemma spaces_at n : forall y x rs fr,
  drawn_at y x rs fr -> (0 < n)%nat -> x + Z.of_nat n <= w ->
  (forall row, rs !! Z.to_nat y = Some row -> length row = Z.to_nat w) -> 
  drawn_after y (x + Z.of_nat n)
    (alter (write_at (Z.to_nat x) (replicate n (vspace (current_rendition fr) (current_hyperlink fr)))) (Z.to_nat y) rs)
    ((append (replicate n 32) fr) <| cursor_x := x + Z.of_nat n |>).
Proof.
  induction n as [|n IH]; intros y x rs fr Hd Hn Hx Hrow; [lia|].
  pose proof Hd as (v & Hp & H1 & H2 & H3 & H4 & H5). pose proof Hp as [].
  pose proof (painted_put y x [32] false rs fr _ v Hp H3 H4 H5 ltac:(cbn; lia) grapheme_space eq_refl) as Hone.
  cbn [cell_cols] in Hone. fold (vspace (current_rendition fr) (current_hyperlink fr)) in Hone.
  set (fr1 := (append [32] fr) <| cursor_x := x + 1 |> <| cursor_y := y |>) in *. set (sp := vspace _ _) in *.
  destruct (decide (n = 0)%nat) as [->|Hn0].
  { replace ((append (replicate 1 32) fr) <| cursor_x := x + Z.of_nat 1 |>) with fr1; [exact Hone|]. unfold fr1. rewrite <- H1. by destruct fr. }
  specialize (IH y (x + 1) _ fr1 (drawn_after_step _ _ _ _ Hone ltac:(lia)) ltac:(lia) ltac:(lia)).
  change (current_rendition fr1) with (current_rendition fr) in IH. change (current_hyperlink fr1) with (current_hyperlink fr) in IH. fold sp in IH.
  replace (x + Z.of_nat (S n)) with (x + 1 + Z.of_nat n) by lia.
  replace (alter (write_at (Z.to_nat x) (replicate (S n) sp)) (Z.to_nat y) rs) with
    (alter (write_at (Z.to_nat (x + 1)) (replicate n sp)) (Z.to_nat y) (alter (write_at (Z.to_nat x) [sp]) (Z.to_nat y) rs)).
  - replace ((append (replicate (S n) 32) fr) <| cursor_x := x + 1 + Z.of_nat n |>)
      with ((append (replicate n 32) fr1) <| cursor_x := x + 1 + Z.of_nat n |>); [apply IH|].
    + intros row. rewrite list_lookup_alter_eq. destruct (rs !! Z.to_nat y) as [row'|] eqn:E; [|done]. intros [= <-].
      rewrite length_write_at; [by apply Hrow|]. rewrite (Hrow _ eq_refl). cbn. lia.
    + unfold fr1, append. destruct fr; cbn in *. unfold set_field. cbn. rewrite <- app_assoc. subst. done.
  - apply list_eq. intros j. destruct (decide (Z.to_nat y = j)) as [<-|Hne]; [|by rewrite !list_lookup_alter_ne].
    rewrite !list_lookup_alter_eq. destruct (rs !! Z.to_nat y) as [row|] eqn:E; [|done]. cbn. f_equal.
    replace (Z.to_nat (x + 1)) with (Z.to_nat x + length [sp])%nat by (cbn; lia).
    rewrite write_at_app; [done|]. rewrite (Hrow _ eq_refl), length_replicate. cbn. lia.
Qed.

(** Erasing is like writing blanks in a plain background, but the cursor stays. *)
Lemma erase_at y x n s rs fr :
  drawn_at y x rs fr ->
  (forall v, v_col v = x -> draws w h s v (verase n v)) ->
  drawn_at y x (alter (write_at (Z.to_nat x) (replicate (Z.to_nat n)
    (vis (Cell_new (background_color (current_rendition fr)))))) (Z.to_nat y) rs) (append s fr).
Proof.
  intros (v & Hp & H1 & H2 & H3 & H4 & H5) Hs. pose proof Hp as [].
  exists (verase n v). split; [|by split_and!]. eapply painted_append; [exact Hp|by apply Hs|..]; try done.
  unfold verase. cbn. by rewrite pt_rows0, pt_rend0, H3, H4.
Qed.
End paint.
