(* ===== verification/PaintRow.v ===== *)
(** * Painting a row

    [Display::put_row] makes a terminal show the new row: every step of its
    loop keeps the part of the row before the pending blanks up to date. *)
From S2P Require Export Paint.

(** ** Rows that can be drawn *)

(** Erased cells have nothing but a background. *)
Definition plain (c : Cell) : Prop :=
  Cell_empty c = true ->
  cell_renditions c = Renditions_new (background_color (cell_renditions c)) /\ cell_hyperlink c = None /\ wide c = false.

(** Graphemes fit their cells, and behind a wide cell is a blank one. *)
Definition row_tidy `{Libc} (w : Z) (cs : list Cell) : Prop :=
  lenZ cs = w /\ forall x c, lookupZ cs x = Some c -> drawable c /\ plain c /\
    (wide c = true -> exists c', lookupZ cs (x + 1) = Some c' /\ vis c' = vis (Cell_new (background_color (cell_renditions c)))).

(** The hyperlink of the last grapheme of a row. *)
Definition end_link (w : Z) (cs : list Cell) : Hyperlink :=
  match lookupZ cs (w - 2), lookupZ cs (w - 1) with
  | Some c, Some c' => if wide c then cell_hyperlink c else cell_hyperlink c'
  | _, _ => None
  end.

Lemma plain_vis c : plain c -> Cell_empty c = true -> vis c = vis (Cell_new (background_color (cell_renditions c))).
Proof.
  intros Hp He. destruct (Hp He) as (Hr & Hl & Hw). unfold vis, print_grapheme. cbn. rewrite Hl, Hw, <- Hr.
  unfold Cell_empty in He. by destruct (contents c).
Qed.

Lemma empty_vis c : plain c -> Cell_empty c = true -> vis c = vspace (cell_renditions c) (cell_hyperlink c).
Proof.
  intros Hp He. destruct (Hp He) as (_ & _ & Hw). unfold vis, vspace, print_grapheme. rewrite Hw.
  unfold Cell_empty in He. by destruct (contents c).
Qed.

Section row.
Context `{HL : Libc} `{HLL : !LibcLaws} (w h : Z).
Context (Hw : 2 < w <= PARAM_MAX) (Hh : 0 < h <= PARAM_MAX).
Context (v0 : View) (m : bool * bool * Z * bool * Z * list Z * list Z * list Z).
Context (d : Display) (initialized : bool) (y : Z) (Hy : 0 <= y < h).
Context (cs ocs : list Cell) (ov : list Cell) (R : list (list Cell)).
Context (Hcs : row_tidy w cs) (Hov : length ov = Z.to_nat w) (HR : (Z.to_nat y < length R)%nat).
Context (Hocs : initialized = true -> row_tidy w ocs /\ ov = vis <$> ocs).

Local Abbreviation painted := (painted w h v0 m).
Local Abbreviation drawn := (drawn w h v0 m).
Local Abbreviation drawn_at := (drawn_at w h v0 m).
Local Abbreviation drawn_past := (drawn_past w h v0 m).
Local Abbreviation drawn_after := (drawn_after w h v0 m).

(** The screen when the first [k] cells of the row are new. *)
Definition row_upto (k : nat) : list (list Cell) := <[Z.to_nat y := take k (vis <$> cs) ++ drop k ov]> R.

Lemma len_cs : length (vis <$> cs) = Z.to_nat w.
Proof. destruct Hcs as [Hl _]. unfold lenZ in Hl. rewrite length_fmap. lia. Qed.

Lemma row_upto_row k : (k <= Z.to_nat w)%nat -> row_upto k !! Z.to_nat y = Some (take k (vis <$> cs) ++ drop k ov).
Proof. intros Hk. unfold row_upto. by rewrite list_lookup_insert_eq. Qed.

Lemma row_upto_length k row : (k <= Z.to_nat w)%nat -> row_upto k !! Z.to_nat y = Some row -> length row = Z.to_nat w.
Proof.
  intros Hk. rewrite row_upto_row by done. intros [= <-]. rewrite length_app, length_take, length_drop, len_cs, Hov. lia.
Qed.

Lemma row_upto_write k g :
  (k + length g <= Z.to_nat w)%nat -> take (length g) (drop k (vis <$> cs)) = g ->
  alter (write_at k g) (Z.to_nat y) (row_upto k) = row_upto (k + length g).
Proof.
  intros Hk Hg. unfold row_upto. apply list_eq. intros j. destruct (decide (Z.to_nat y = j)) as [<-|Hne].
  - rewrite list_lookup_alter_eq, !list_lookup_insert_eq by done. cbn. f_equal. unfold write_at.
    pose proof len_cs as Hlen.
    rewrite take_app_le, take_take, Nat.min_id by (rewrite length_take; lia).
    rewrite drop_app_ge by (rewrite length_take; lia). rewrite length_take, drop_drop, (Nat.min_l k) by lia.
    rewrite <- (take_take_drop _ k (length g)), Hg, <- app_assoc. do 3 f_equal. lia.
  - rewrite list_lookup_alter_ne, !list_lookup_insert_ne by done. done.
Qed.

Lemma row_upto_skip k n :
  (k + n <= Z.to_nat w)%nat -> take n (drop k (vis <$> cs)) = take n (drop k ov) -> row_upto (k + n) = row_upto k.
Proof.
  intros Hk E. unfold row_upto. f_equal. rewrite <- take_take_drop, E, <- app_assoc. f_equal.
  rewrite <- drop_drop. apply take_drop.
Qed.

(** The new cells from [k] on. *)
Lemma lookup_vis x c : lookupZ cs x = Some c -> (vis <$> cs) !! Z.to_nat x = Some (vis c) /\ 0 <= x < w.
Proof.
  intros Hx. pose proof (lookupZ_Some_lt _ _ _ Hx) as Hlt. destruct Hcs as [Hl _]. unfold lookupZ in Hx.
  case_decide; [|done]. rewrite list_lookup_fmap, Hx. split; [done|lia].
Qed.

Lemma take_drop_vcells (l : list Cell) x c :
  row_tidy w l -> lookupZ l x = Some c ->
  take (length (vcells c)) (drop (Z.to_nat x) (vis <$> l)) = vcells c /\ x + get_width_cell c <= w.
Proof.
  intros [Hl Ht] Hx. destruct (Ht x c Hx) as (_ & _ & Hwide). pose proof (lookupZ_Some_lt _ _ _ Hx) as Hlt.
  unfold lookupZ in Hx. case_decide; [|done].
  assert (E : drop (Z.to_nat x) (vis <$> l) = vis c :: drop (S (Z.to_nat x)) (vis <$> l)).
  { apply drop_S. by rewrite list_lookup_fmap, Hx. }
  rewrite E. unfold vcells, get_width_cell. destruct (wide c); [|split; [done|lia]].
  destruct (Hwide eq_refl) as (c' & Hc' & Hv). pose proof (lookupZ_Some_lt _ _ _ Hc') as Hlt'.
  unfold lookupZ in Hc'. case_decide; [|lia].
  assert (E' : drop (S (Z.to_nat x)) (vis <$> l) = vis c' :: drop (S (S (Z.to_nat x))) (vis <$> l)).
  { apply drop_S. replace (S (Z.to_nat x)) with (Z.to_nat (x + 1)) by lia. by rewrite list_lookup_fmap, Hc'. }
  rewrite E'. cbn [length take]. rewrite Hv. split; [done|lia].
Qed.

(** ** The loop *)

Record row_inv (p : RowState) : Prop := {
  ri_x : 0 <= clear_count p <= frame_x p /\ frame_x p <= w;
  ri_blank : forall i c, frame_x p - clear_count p <= i < frame_x p -> lookupZ cs i = Some c ->
    Cell_empty c = true /\ cell_renditions c = blank_renditions p /\ cell_hyperlink c = blank_hyperlink p;
  ri_bound : forall c, lookupZ cs (frame_x p - clear_count p - 1) = Some c -> wide c = false;
  ri_drawn : if wrote_last_cell p
             then frame_x p = w /\ clear_count p = 0 /\ drawn_past y (row_upto (Z.to_nat w)) (rs_frame p) /\
                  current_hyperlink (rs_frame p) = end_link w cs
             else drawn (row_upto (Z.to_nat (frame_x p - clear_count p))) (rs_frame p) }.

(** The cells of the pending blanks. *)
Lemma blank_run x n r l :
  0 <= n <= x -> x <= w ->
  (forall i c, x - n <= i < x -> lookupZ cs i = Some c -> Cell_empty c = true /\ cell_renditions c = r /\ cell_hyperlink c = l) ->
  take (Z.to_nat n) (drop (Z.to_nat (x - n)) (vis <$> cs)) = replicate (Z.to_nat n) (vspace r l) /\
  (0 < n -> rend_wf r /\ link_ok l /\ vspace r l = vis (Cell_new (background_color r))).
Proof.
  intros Hn Hx Hb. pose proof len_cs as Hlen.
  assert (Hcell : forall i, x - n <= i < x -> exists c, lookupZ cs i = Some c /\ vis c = vspace r l /\
    rend_wf r /\ link_ok l /\ vspace r l = vis (Cell_new (background_color r))).
  { intros i Hi. destruct Hcs as [Hl Ht]. destruct (lookupZ_lt cs i) as (c & Ec); [lia|].
    destruct (Hb i c Hi Ec) as (He & Hr & Hli). destruct (Ht i c Ec) as ((Hwf & Hlk & _) & Hp & _). exists c.
    rewrite <- Hr, <- Hli. split_and!; try done; [by apply empty_vis|]. rewrite <- empty_vis by done. by apply plain_vis. }
  split.
  - apply list_eq. intros j. destruct (decide (j < Z.to_nat n)%nat) as [Hj|Hj].
    + rewrite lookup_take_lt, lookup_drop, lookup_replicate_2 by done.
      destruct (Hcell (x - n + Z.of_nat j)) as (c & Ec & Ev & _); [lia|]. destruct (lookup_vis _ _ Ec) as [Ec' _].
      replace (Z.to_nat (x - n) + j)%nat with (Z.to_nat (x - n + Z.of_nat j)) by lia. by rewrite Ec', Ev.
    + rewrite !lookup_ge_None_2; [done|rewrite length_replicate; lia|rewrite length_take, length_drop; lia].
  - intros Hpos. destruct (Hcell (x - 1)) as (_ & _ & _ & ?); [lia|tauto].
Qed.

(** The pending blanks are written or erased. *)
Lemma blanks_at p :
  row_inv p -> 0 < clear_count p -> let n := clear_count p in let x := frame_x p in
  let f := pen (blank_renditions p) (blank_hyperlink p) (append_silent_move y (x - n) (rs_frame p)) in
  (forall s, (forall v, v_col v = x - n -> draws w h s v (verase n v)) -> drawn_at y (x - n) (row_upto (Z.to_nat x)) (append s f)) /\
  drawn_after y x (row_upto (Z.to_nat x)) ((append_n n 32 f) <| cursor_x := x |>) /\
  current_hyperlink f = blank_hyperlink p.
Proof.
  intros [Hx Hb _ Hd] Hn n x f. fold n x in Hx, Hb, Hn, Hd.
  assert (Hd' : drawn (row_upto (Z.to_nat (x - n))) (rs_frame p)).
  { destruct (wrote_last_cell p); [|done]. destruct Hd as (_ & ? & _). lia. }
  destruct (blank_run x n _ _ ltac:(lia) ltac:(lia) Hb) as [Hcells Hplain]. destruct (Hplain Hn) as (Hr & Hl & Hv).
  pose proof (append_silent_move_at w h Hw Hh v0 m y (x - n) _ _ Hy ltac:(lia) Hd') as Hat.
  destruct (pen_at w h v0 m y (x - n) _ (blank_renditions p) (blank_hyperlink p) _ Hr Hl Hat) as (Hat' & Er & El). fold f in Hat', Er, El.
  assert (Hwr : alter (write_at (Z.to_nat (x - n)) (replicate (Z.to_nat n) (vspace (blank_renditions p) (blank_hyperlink p)))) (Z.to_nat y)
    (row_upto (Z.to_nat (x - n))) = row_upto (Z.to_nat x)).
  { rewrite row_upto_write; rewrite ?length_replicate; [f_equal; lia|lia|done]. }
  split_and!; [| |done].
  - intros s Hs. pose proof (erase_at w h v0 m y (x - n) n s _ f Hat' Hs) as He.
    rewrite Er, <- Hv, Hwr in He. exact He.
  - pose proof (spaces_at w h Hw v0 m (Z.to_nat n) y (x - n) _ f Hat') as Hsp. rewrite Er, El, Hwr, Z2Nat.id in Hsp by lia.
    replace (x - n + n) with x in Hsp by lia. apply Hsp; [lia|lia|]. intros row. apply row_upto_length. lia.
Qed.

Lemma ech_text n : 0 <= n <= PARAM_MAX -> snprintf 64 (27 :: str "[" ++ dec n ++ str "X") = 27 :: 91 :: dec n ++ [88].
Proof.
  intros Hn. unfold PARAM_MAX in Hn. pose proof (dec_length n 5 ltac:(cbn; lia) ltac:(lia)). unfold snprintf. rewrite take_ge; [done|].
  cbn -[dec]. rewrite length_app. cbn. lia.
Qed.

Lemma clear_cells_drawn p :
  row_inv p -> 0 < clear_count p -> frame_x p < w -> drawn (row_upto (Z.to_nat (frame_x p))) (clear_cells d y p).
Proof.
  intros Hp Hn Hx. pose proof (blanks_at p Hp Hn) as (He & Hs & _). destruct Hp as [Hx' _ _ _]. unfold clear_cells.
  fold (pen (blank_renditions p) (blank_hyperlink p) (append_silent_move y (frame_x p - clear_count p) (rs_frame p))) in *. cbv zeta in *.
  destruct (_ && _).
  - rewrite ech_text by lia. eapply drawn_at_drawn. apply He. intros v Hv. apply draws_ech; lia.
  - apply drawn_after_step in Hs; [|lia]. by eapply drawn_at_drawn.
Qed.

(** ... or, at the end of the row, with the cursor past the last column. *)
Lemma clear_to_end_inv wrap_this p :
  row_inv p -> frame_x p = w ->
  let p' := clear_to_end d y wrap_this p in
  if wrote_last_cell p'
  then drawn_past y (row_upto (Z.to_nat w)) (rs_frame p') /\ current_hyperlink (rs_frame p') = end_link w cs
  else drawn (row_upto (Z.to_nat w)) (rs_frame p').
Proof.
  intros Hp Hx. unfold clear_to_end. destruct (Z.eqb_spec (clear_count p) 0) as [E0|E0]; cbv zeta.
  - destruct Hp as [_ _ _ Hd]. destruct (wrote_last_cell p); [tauto|]. by rewrite E0, Z.sub_0_r, Hx in Hd.
  - assert (Hn : 0 < clear_count p) by (destruct Hp; lia). pose proof (blanks_at p Hp Hn) as (He & Hs & El).
    fold (pen (blank_renditions p) (blank_hyperlink p) (append_silent_move y (frame_x p - clear_count p) (rs_frame p))) in *. cbv zeta in *.
    destruct Hp as [Hx' Hb Hbd Hd]. destruct (_ && _).
    + cbn [wrote_last_cell rs_frame set_field]. destruct (wrote_last_cell p); [lia|]. rewrite Hx in He |- *.
      eapply drawn_at_drawn. apply He. intros v Hv. replace (clear_count p) with (w - v_col v) by lia. apply draws_el. lia.
    + cbn [wrote_last_cell rs_frame set_field]. split.
      * unfold Paint.drawn_after in Hs. rewrite Hx, Z.ltb_irrefl in Hs. rewrite Hx. exact Hs.
      * change (current_hyperlink ((append_n (clear_count p) 32 (pen (blank_renditions p) (blank_hyperlink p)
          (append_silent_move y (frame_x p - clear_count p) (rs_frame p)))) <| cursor_x := frame_x p |>))
          with (current_hyperlink (pen (blank_renditions p) (blank_hyperlink p) (append_silent_move y (frame_x p - clear_count p) (rs_frame p)))).
        rewrite El. unfold end_link. destruct Hcs as [Hl Ht].
        destruct (lookupZ_lt cs (w - 2)) as (c2 & E2); [lia|]. destruct (lookupZ_lt cs (w - 1)) as (c1 & E1); [lia|]. rewrite E2, E1.
        destruct (Hb (w - 1) c1 ltac:(lia) E1) as (He1 & _ & <-). destruct (wide c2) eqn:Ew; [|done].
        exfalso. destruct (Z.eq_dec (clear_count p) 1) as [E|E].
        -- rewrite (Hbd c2) in Ew; [done|]. replace (frame_x p - clear_count p - 1) with (w - 2) by lia. done.
        -- destruct (Hb (w - 2) c2 ltac:(lia) E2) as (He2 & _). destruct (Ht _ _ E2) as (_ & Hpl & _).
           destruct (Hpl He2) as (_ & _ & ?). congruence.
Qed.

(** The cell before the next grapheme is not wide. *)
Lemma bound_after x c : lookupZ cs x = Some c ->
  forall c', lookupZ cs (x + get_width_cell c - 1) = Some c' -> wide c' = false.
Proof.
  intros Hc c' Hc'. destruct Hcs as [_ Ht]. destruct (Ht _ _ Hc) as (_ & _ & Hsh).
  unfold get_width_cell in Hc'. destruct (wide c) eqn:Ew.
  - destruct (Hsh eq_refl) as (c2 & E2 & Ev). replace (x + 2 - 1) with (x + 1) in Hc' by lia.
    rewrite E2 in Hc'. injection Hc' as <-. apply (f_equal wide Ev).
  - replace (x + 1 - 1) with x in Hc' by lia. rewrite Hc in Hc'. by injection Hc' as <-.
Qed.

Lemma end_link_cell x c :
  lookupZ cs x = Some c -> x + get_width_cell c = w -> (forall c', lookupZ cs (x - 1) = Some c' -> wide c' = false) ->
  end_link w cs = cell_hyperlink c.
Proof.
  intros Hc Hend Hbd. destruct Hcs as [Hl _]. unfold end_link.
  destruct (lookupZ_lt cs (w - 2)) as (c2 & E2); [lia|]. destruct (lookupZ_lt cs (w - 1)) as (c1 & E1); [lia|]. rewrite E2, E1.
  unfold get_width_cell in Hend. destruct (wide c) eqn:Ew.
  - replace (w - 2) with x in E2 by lia. rewrite Hc in E2. injection E2 as <-. by rewrite Ew.
  - replace (w - 1) with x in E1 by lia. rewrite Hc in E1. injection E1 as <-.
    rewrite (Hbd c2); [done|]. by replace (x - 1) with (w - 2) by lia.
Qed.

(** A character cell. *)
Lemma draw_cell_inv wrap_this c p :
  row_inv p -> clear_count p = 0 -> lookupZ cs (frame_x p) = Some c -> row_inv (draw_cell_at y w wrap_this c p).
Proof.
  intros [Hx _ Hbd Hd] Hn Hc. rewrite Hn, Z.sub_0_r in *. destruct (lookup_vis _ _ Hc) as [_ Hxw].
  assert (Hd' : drawn (row_upto (Z.to_nat (frame_x p))) (rs_frame p)).
  { destruct (wrote_last_cell p) eqn:Ew; [lia|done]. }
  assert (Hwr0 : wrote_last_cell p = false) by (destruct (wrote_last_cell p); [lia|done]).
  destruct (take_drop_vcells cs (frame_x p) c Hcs Hc) as [Hv Hfit].
  pose proof Hcs as [Hl Ht]. destruct (Ht _ _ Hc) as ((Hr & Hlk & Hg) & _ & Hsh).
  unfold draw_cell_at. cbv zeta.
  set (f0 := if wrap_this && (w <=? frame_x p + get_width_cell c) then _ else rs_frame p).
  assert (Hd0 : drawn (row_upto (Z.to_nat (frame_x p))) f0) by (unfold f0; destruct (_ && _); [by apply drawn_trash|done]).
  pose proof (append_silent_move_at w h Hw Hh v0 m y (frame_x p) _ _ Hy ltac:(lia) Hd0) as Hat.
  destruct (pen_at w h v0 m y (frame_x p) _ (cell_renditions c) (cell_hyperlink c) _ Hr Hlk Hat) as (Hat' & Er & El).
  fold (pen (cell_renditions c) (cell_hyperlink c) (append_silent_move y (frame_x p) f0)).
  set (f1 := pen _ _ _) in *.
  assert (Ecx : cursor_x (append_cell c f1) = frame_x p) by (destruct Hat' as (v & _ & _ & ? & _); done). rewrite Ecx.
  pose proof (append_cell_at w h Hw v0 m y (frame_x p) c _ f1 Hat' ltac:(done) Er El Hfit) as Haf.
  assert (Hlenv : Z.of_nat (length (vcells c)) = get_width_cell c) by apply length_vcells.
  rewrite row_upto_write in Haf; [|lia|done].
  replace (Z.to_nat (frame_x p) + length (vcells c))%nat with (Z.to_nat (frame_x p + get_width_cell c)) in Haf by lia.
  set (f2 := (append_cell c f1) <| cursor_x := frame_x p + get_width_cell c |>) in *.
  pose proof (get_width_pos c) as Hwp.
  cbn [frame_x set_field rs_frame]. unfold Paint.drawn_after in Haf.
  destruct (Z.leb_spec w (frame_x p + get_width_cell c)) as [Hge|Hlt].
  - assert (Hend : frame_x p + get_width_cell c = w) by lia. rewrite (proj2 (Z.ltb_ge _ _)) in Haf by lia.
    split; cbn [frame_x clear_count wrote_last_cell rs_frame blank_renditions blank_hyperlink set_field]; rewrite ?Hn; try lia.
    + rewrite Z.sub_0_r. by apply bound_after.
    + split_and!; try lia; [by rewrite Hend in Haf|]. change (current_hyperlink f2) with (current_hyperlink f1). rewrite El.
      symmetry. by apply (end_link_cell (frame_x p)).
  - rewrite (proj2 (Z.ltb_lt _ _)) in Haf by lia.
    split; cbn [frame_x clear_count wrote_last_cell rs_frame blank_renditions blank_hyperlink set_field]; rewrite ?Hn, ?Z.sub_0_r; try lia.
    + by apply bound_after.
    + rewrite Hwr0. by eapply drawn_at_drawn.
Qed.

Lemma inv_wrote p : row_inv p -> frame_x p < w -> wrote_last_cell p = false.
Proof. intros [_ _ _ Hd] Hx. destruct (wrote_last_cell p); [lia|done]. Qed.

(** An unchanged cell is skipped. *)
Lemma skip_inv c p :
  initialized = true -> row_inv p -> clear_count p = 0 -> lookupZ cs (frame_x p) = Some c -> lookupZ ocs (frame_x p) = Some c ->
  row_inv (p <| frame_x := frame_x p + get_width_cell c |>).
Proof.
  intros Hi Hp Hn Hc Ho. destruct (lookup_vis _ _ Hc) as [_ Hxw]. pose proof (inv_wrote p Hp ltac:(lia)) as Hwr.
  destruct Hp as [Hx _ Hbd Hd]. rewrite Hn, Z.sub_0_r in *. destruct (Hocs Hi) as [Htidy Eov].
  destruct (take_drop_vcells cs _ _ Hcs Hc) as [Hv Hfit]. destruct (take_drop_vcells ocs _ _ Htidy Ho) as [Hv' _].
  pose proof (length_vcells c) as Hlen. pose proof (get_width_pos c).
  split; cbn [frame_x clear_count wrote_last_cell rs_frame blank_renditions blank_hyperlink set_field]; rewrite Hn; try lia.
  - rewrite Z.sub_0_r. by apply bound_after.
  - rewrite Hwr in Hd |- *. replace (Z.to_nat (frame_x p + get_width_cell c - 0)) with (Z.to_nat (frame_x p) + length (vcells c))%nat by lia.
    rewrite row_upto_skip; [done|lia|]. by rewrite Hv, Eov, Hv'.
Qed.

(** A blank joins the pending ones. *)
Lemma slurp_inv c p :
  row_inv p -> lookupZ cs (frame_x p) = Some c -> Cell_empty c = true ->
  cell_renditions c = blank_renditions p -> cell_hyperlink c = blank_hyperlink p ->
  row_inv (p <| clear_count := clear_count p + 1 |> <| frame_x := frame_x p + 1 |>).
Proof.
  intros Hp Hc He Hr Hl. destruct (lookup_vis _ _ Hc) as [_ Hxw]. pose proof (inv_wrote p Hp ltac:(lia)) as Hwr.
  destruct Hp as [Hx Hb Hbd Hd].
  split; cbn [frame_x clear_count wrote_last_cell rs_frame blank_renditions blank_hyperlink set_field]; try lia.
  - intros i ci Hi Hci. destruct (Z.eq_dec i (frame_x p)) as [->|Hne]; [rewrite Hc in Hci; by injection Hci as <-|].
    apply (Hb i); [lia|done].
  - by replace (frame_x p + 1 - (clear_count p + 1) - 1) with (frame_x p - clear_count p - 1) by lia.
  - rewrite Hwr in Hd |- *. by replace (frame_x p + 1 - (clear_count p + 1)) with (frame_x p - clear_count p) by lia.
Qed.

(** The colour of the next blanks. *)
Lemma blank_inv r l p : row_inv p -> clear_count p = 0 -> row_inv (p <| blank_renditions := r |> <| blank_hyperlink := l |>).
Proof. intros [Hx _ Hbd Hd] Hn. split; cbn; try done. intros. lia. Qed.

(** The pending blanks are out of the way. *)
Lemma cleared_inv p :
  row_inv p -> 0 < clear_count p -> frame_x p < w ->
  row_inv (p <| rs_frame := clear_cells d y p |> <| clear_count := 0 |>).
Proof.
  intros Hp Hn Hx. pose proof (clear_cells_drawn p Hp Hn Hx) as Hd. pose proof (inv_wrote p Hp Hx) as Hwr. destruct Hp as [Hx' Hb _ _].
  split; cbn [frame_x clear_count wrote_last_cell rs_frame blank_renditions blank_hyperlink set_field]; try lia; rewrite Z.sub_0_r.
  - intros c Hc. destruct (Hb (frame_x p - 1) c ltac:(lia) Hc) as (He & _). destruct Hcs as [_ Ht].
    destruct (Ht _ _ Hc) as (_ & Hpl & _). by destruct (Hpl He) as (_ & _ & ?).
  - by rewrite Hwr.
Qed.

Lemma put_step_inv wrap_this p :
  row_inv p -> frame_x p < w ->
  exists p', put_step d initialized y w wrap_this cs ocs p = Ok p' /\ row_inv p' /\ frame_x p < frame_x p'.
Proof.
  intros Hp Hx. pose proof Hcs as [Hl _]. pose proof Hp as [Hx' _ _ _]. unfold put_step.
  destruct (at_ok cs (frame_x p)) as (c & -> & Hc); [lia|]. cbn [mbind result_bind]. pose proof (get_width_pos c) as Hwp.
  assert (Hun : exists b : bool, (if initialized && (clear_count p =? 0)
    then old ← at_ ocs (frame_x p); Ok (bool_decide (c = old)) else Ok false) = @Ok fault bool b /\
    (b = true -> initialized = true /\ clear_count p = 0 /\ lookupZ ocs (frame_x p) = Some c)).
  { destruct (initialized && (clear_count p =? 0)) eqn:E; [|by exists false]. apply andb_true_iff in E as [Hi E]. apply Z.eqb_eq in E.
    destruct (Hocs Hi) as [[Hlo _] _]. destruct (at_ok ocs (frame_x p)) as (o & -> & Ho); [lia|]. cbn [mbind result_bind].
    eexists. split; [reflexivity|]. intros ->%bool_decide_eq_true. done. }
  destruct Hun as (b & -> & Hb). cbn [mbind result_bind]. destruct b.
  { destruct (Hb eq_refl) as (Hi & Hn & Ho). eexists. split; [reflexivity|]. split; [by apply skip_inv|cbn; lia]. }
  clear Hb. set (p1 := if Cell_empty c && (clear_count p =? 0) then _ else p).
  assert (Hp1 : row_inv p1 /\ frame_x p1 = frame_x p /\ clear_count p1 = clear_count p /\
    (Cell_empty c = true -> clear_count p = 0 -> cell_renditions c = blank_renditions p1 /\ cell_hyperlink c = blank_hyperlink p1)).
  { unfold p1. destruct (Cell_empty c), (Z.eqb_spec (clear_count p) 0); cbn [andb]; split_and!; try done. by apply blank_inv. }
  destruct Hp1 as (Hp1 & Ex1 & En1 & Hfirst). rewrite <- Ex1 in Hc, Hx |- *. rewrite <- En1 in Hfirst. clear En1 Hx'.
  destruct (Cell_empty c && _ && _) eqn:Es.
  { rewrite !andb_true_iff, bool_decide_eq_true in Es. destruct Es as [[He Hr] Hlk]. apply bool_decide_eq_true in Hlk.
    eexists. split; [reflexivity|]. split; [by apply (slurp_inv c)|cbn; lia]. }
  cbv zeta. destruct (Z.eqb_spec (clear_count p1) 0) as [E0|E0]; cbn [negb andb].
  - assert (He : Cell_empty c = false).
    { destruct (Cell_empty c) eqn:He; [|done]. destruct (Hfirst eq_refl E0) as [Hr Hlk].
      rewrite Hr, Hlk in Es. unfold Hyperlink_eqb in Es. by rewrite !bool_decide_true in Es. }
    eexists. split; [reflexivity|]. split; [by apply draw_cell_inv|]. unfold draw_cell_at. cbn -[get_width_cell]. destruct (_ <=? _); cbn -[get_width_cell]; lia.
  - assert (Hn : 0 < clear_count p1) by (destruct Hp1; lia). pose proof (cleared_inv p1 Hp1 Hn Hx) as Hp2.
    set (p2 := p1 <| rs_frame := _ |> <| clear_count := 0 |>) in *.
    destruct (Cell_empty c) eqn:He; eexists; (split; [reflexivity|]).
    + split; [|cbn; lia]. pose proof (blank_inv (cell_renditions c) (cell_hyperlink c) p2 Hp2 eq_refl) as Hp3.
      exact (slurp_inv c _ Hp3 Hc He eq_refl eq_refl).
    + split; [by apply draw_cell_inv|]. unfold draw_cell_at. cbn -[get_width_cell]. destruct (_ <=? _); cbn -[get_width_cell]; lia.
Qed.

Lemma put_loop_inv wrap_this fuel : forall p,
  row_inv p -> w - frame_x p <= Z.of_nat fuel ->
  exists p', put_loop fuel d initialized y w wrap_this cs ocs p = Ok p' /\ row_inv p' /\ frame_x p' = w.
Proof.
  induction fuel as [|fuel IH]; intros p Hp Hf; cbn [put_loop]; destruct (Z.ltb_spec (frame_x p) w) as [Hlt|Hge]; cbn [negb].
  - lia.
  - exists p. split; [done|]. split; [done|]. destruct Hp. lia.
  - destruct (put_step_inv wrap_this p Hp Hlt) as (p' & -> & Hp' & Hx). cbn [mbind result_bind]. apply IH; [done|lia].
  - exists p. split; [done|]. split; [done|]. destruct Hp. lia.
Qed.

(** ** The end of the row *)

Lemma crlf_at rs fr :
  drawn_past y rs fr -> y < h - 1 ->
  drawn_at (y + 1) 0 rs ((append [13; 10] fr) <| cursor_x := 0 |> <| cursor_y := cursor_y fr + 1 |>).
Proof.
  intros (v & Hp & H1 & H2 & H3 & H4 & H5) Hlt. pose proof Hp as [].
  set (v1 := v <| v_col := 0 |> <| v_pend := false |>).
  exists (v1 <| v_row := v_row v1 + 1 |> <| v_pend := false |>). split.
  - eapply painted_append; [exact Hp| |done..|cbn; lia|done].
    change [13; 10] with ([13] ++ [10]). eapply draws_app; [apply draws_cr|]. apply (draws_lf w h v1). cbn. lia.
  - cbn. split_and!; done || lia.
Qed.

(** A row is done: the terminal shows it, and what the display believes holds. *)
Definition row_done (rs : list (list Cell)) (wr : bool) (fr : FrameState) : Prop :=
  if wr then y < h - 1 /\ drawn_wrap w h v0 m y rs fr /\ current_hyperlink fr = end_link w cs
  else drawn rs fr \/ (y = h - 1 /\ drawn_past y rs fr).

Lemma end_row_done wrap_this p :
  row_inv p -> frame_x p = w ->
  let res := end_row y h wrap_this (clear_to_end d y wrap_this p) in
  row_done (row_upto (Z.to_nat w)) res.1 res.2 /\ (res.1 = true -> wrap_this = true).
Proof.
  intros Hp Hx. pose proof (clear_to_end_inv wrap_this p Hp Hx) as Hd. cbv zeta in Hd. unfold end_row.
  set (p' := clear_to_end d y wrap_this p) in *. cbv zeta. destruct (wrote_last_cell p'); cbn [andb].
  - destruct Hd as [Hd El]. destruct (Z.ltb_spec y (h - 1)) as [Hlt|Hge]; cbn [negb].
    + destruct wrap_this; cbn [fst snd]; (split; [|done]).
      * split; [done|]. split; [|done]. destruct Hd as (v & [] & H1 & H2 & H3 & H4 & H5). exists v. split; [by split|]. cbn. split_and!; done || lia.
      * left. eapply drawn_at_drawn. by apply crlf_at.
    + split; [|done]. right. split; [lia|done].
  - split; [|done]. by left.
Qed.

(** ** The whole row *)

Lemma row_upto_0 : R !! Z.to_nat y = Some ov -> row_upto 0 = R.
Proof. intros E. unfold row_upto. cbn. rewrite drop_0. by apply list_insert_id. Qed.
Lemma row_upto_all : row_upto (Z.to_nat w) = <[Z.to_nat y := vis <$> cs]> R.
Proof. unfold row_upto. rewrite take_ge, drop_ge, app_nil_r by (rewrite ?len_cs; lia). done. Qed.

(** The row begins after a wrap, or anywhere. *)
Definition row_start (wr : bool) (fr : FrameState) : Prop :=
  if wr then drawn_wrap w h v0 m (y - 1) R fr /\ exists c, lookupZ cs 0 = Some c /\ cell_hyperlink c = current_hyperlink fr
  else drawn R fr.

Lemma put_wrapped_at c fr :
  R !! Z.to_nat y = Some ov -> drawn_wrap w h v0 m (y - 1) R fr -> lookupZ cs 0 = Some c -> cell_hyperlink c = current_hyperlink fr ->
  drawn_at y (get_width_cell c) (row_upto (Z.to_nat (get_width_cell c))) (put_wrapped c fr).
Proof.
  intros HRy Hd Hc El. pose proof Hcs as [_ Ht]. destruct (Ht _ _ Hc) as (Hdr & _). pose proof Hdr as (Hr & _).
  unfold put_wrapped. set (f1 := update_rendition (cell_renditions c) false fr).
  assert (El1 : current_hyperlink f1 = cell_hyperlink c) by (unfold f1; rewrite update_rendition_link; done).
  rewrite <- El1, update_hyperlink_same. pose proof (update_rendition_wrap w h v0 m (y - 1) R _ false fr Hr Hd) as Hd1. fold f1 in Hd1.
  destruct (take_drop_vcells cs 0 c Hcs Hc) as [Hv Hfit]. cbn [Z.to_nat] in Hv.
  pose proof (append_cell_wrap w h Hw v0 m (y - 1) c R f1 Hd1 ltac:(lia) Hdr ltac:(unfold f1; apply update_rendition_current) El1) as Ha.
  replace (y - 1 + 1) with y in Ha by lia. rewrite <- (row_upto_0 HRy) in Ha. rewrite row_upto_write in Ha;
    [|pose proof (length_vcells c); lia|done].
  replace (0 + length (vcells c))%nat with (Z.to_nat (get_width_cell c)) in Ha by (pose proof (length_vcells c); lia).
  assert (cursor_x (append_cell c f1) = 0) as ->; [|exact Ha]. destruct Hd1 as (v & _ & _ & ? & _). done.
Qed.

Lemma put_row_done (f : Framebuffer) g a g' wr fr :
  width (ds f) = w -> height (ds f) = h -> R !! Z.to_nat y = Some ov -> row_start wr fr ->
  exists wr' fr', put_row d initialized f y (0, MkRow cs g) (a, MkRow ocs g') wr fr = Ok (wr', fr') /\
    row_done (<[Z.to_nat y := vis <$> cs]> R) wr' fr' /\ (wr' = true -> Row_get_wrap (MkRow cs g) = Ok true).
Proof.
  intros Hfw Hfh HRy Hst. pose proof Hcs as [Hl _]. unfold put_row. cbn [snd cells fst]. rewrite Hfw, Hfh.
  assert (Hst' : exists x fr1, (if wr then cell ← at_ cs 0; Ok (get_width_cell cell, put_wrapped cell fr) else Ok (0, fr)) = @Ok fault _ (x, fr1) /\
    row_inv (MkRowState x 0 false initial_rendition Hyperlink_empty fr1)).
  { destruct wr.
    - destruct Hst as (Hd & c & Hc & El). unfold at_. rewrite Hc. cbn [mbind result_bind]. do 2 eexists. split; [reflexivity|].
      pose proof (get_width_pos c). split; cbn [frame_x clear_count wrote_last_cell rs_frame]; try lia; rewrite ?Z.sub_0_r.
      + apply (bound_after 0 c Hc).
      + eapply drawn_at_drawn. by apply put_wrapped_at.
    - do 2 eexists. split; [reflexivity|]. split; cbn [frame_x clear_count wrote_last_cell rs_frame]; try lia.
      + intros c Hc. apply lookupZ_Some_lt in Hc. lia.
      + change (Z.to_nat (0 - 0)) with 0%nat. by rewrite row_upto_0. }
  destruct Hst' as (x & fr1 & -> & Hinv). cbn [mbind result_bind].
  assert (initialized && same_object (0, MkRow cs g) (a, MkRow ocs g') = false) as -> by (unfold same_object; cbn; by rewrite !andb_false_r).
  destruct (Row_get_wrap_ok w (MkRow cs g)) as (wt & Ewt); [lia|done|]. rewrite Ewt. cbn [mbind result_bind].
  destruct (put_loop_inv wt (Z.to_nat (w - x)) _ Hinv) as (p & -> & Hp & Hpx); [cbn; lia|]. cbn [mbind result_bind].
  pose proof (end_row_done wt p Hp Hpx) as [Hd Hwt]. destruct (end_row _ _ _ _) as [wr' fr']. cbn [fst snd] in *.
  exists wr', fr'. split; [done|]. rewrite row_upto_all in Hd. split; [done|]. intros E. by rewrite (Hwt E).
Qed.
End row.
