(* ===== verification/PaintFrame.v ===== *)
(** * Painting a frame

    The rows of a frame, the scrolling shortcut, and the head and tail of
    [Display::new_frame]. *)
From S2P Require Export PaintRow.

(** ** The search for a scroll *)

Lemma region_matches_rows frows rs lines n : forall region a,
  region_matches n frows rs lines region region = Ok a ->
  forall i, region <= i < a -> lookupZ frows i = snd <$> lookupZ rs (lines + i).
Proof.
  induction n as [|n IH]; intros region a; cbn [region_matches]; [intros [= <-]; lia|].
  destruct (at_ frows region) as [r|] eqn:Er; [|done]. cbn [mbind result_bind].
  destruct (at_ rs (lines + region)) as [o|] eqn:Eo; [|done]. cbn [mbind result_bind].
  case_bool_decide as E; [|intros [= <-]; lia]. intros Ha i Hi. apply at_inv in Er, Eo.
  destruct (Z.eq_dec i region) as [->|Hne]; [by rewrite Er, Eo, E|]. apply (IH _ _ Ha). lia.
Qed.

Lemma find_scroll_rows frows rs h n : forall row lines sh,
  find_scroll n frows rs h row = Ok (lines, sh) -> forall i, 0 <= i < sh -> lookupZ frows i = snd <$> lookupZ rs (lines + i).
Proof.
  induction n as [|n IH]; intros row lines sh; cbn [find_scroll]; [intros [= <- <-]; lia|].
  destruct (at_ frows 0) as [r|] eqn:Er; [|done]. cbn [mbind result_bind].
  destruct (at_ rs row) as [o|] eqn:Eo; [|done]. cbn [mbind result_bind]. case_bool_decide as E; [|apply IH].
  destruct (row =? 0); [intros [= <- <-]; lia|].
  destruct (region_matches _ _ _ _ _ _) as [a|] eqn:Ea; [|done]. intros [= <- <-] i Hi. apply at_inv in Er, Eo.
  destruct (Z.eq_dec i 0) as [->|Hne]; [by rewrite Z.add_0_r, Er, Eo, E|]. apply (region_matches_rows _ _ _ _ _ _ Ea). lia.
Qed.

(** The local index after the shift. *)
Lemma shift_rows_lookup lines bottom blank n : forall i rs rs',
  0 <= i -> 0 < lines -> i + Z.of_nat n = bottom + 1 -> shift_rows n i lines bottom blank rs = Ok rs' ->
  forall j, lookupZ rs' j =
    if (i <=? j) && (j <=? bottom) then if j + lines <=? bottom then lookupZ rs (j + lines) else Some blank else lookupZ rs j.
Proof.
  induction n as [|n IH]; intros i rs rs' Hi Hl Hn; cbn [shift_rows].
  { intros [= <-] j. destruct (Z.leb_spec i j), (Z.leb_spec j bottom); cbn [andb]; done || lia. }
  destruct (if i + lines <=? bottom then _ else _) as [r|] eqn:Er; [|done]. cbn [mbind result_bind].
  destruct (at_ rs i) as [x|] eqn:Ex; [|done]. cbn [mbind result_bind]. intros E j. rewrite (IH (i + 1) _ _ ltac:(lia) Hl ltac:(lia) E j).
  apply at_inv in Ex. apply lookupZ_Some_lt in Ex.
  destruct (Z.eq_dec j i) as [->|Hne].
  - rewrite (proj2 (Z.leb_gt (i + 1) i)), Z.leb_refl, (proj2 (Z.leb_le i bottom)) by lia. cbn [andb]. rewrite lookupZ_updateZ_eq by lia.
    destruct (i + lines <=? bottom); [by apply at_inv in Er|by injection Er as <-].
  - destruct (Z.leb_spec (i + 1) j), (Z.leb_spec i j), (Z.leb_spec j bottom); cbn [andb]; try lia;
      by rewrite !lookupZ_updateZ_ne by lia.
Qed.

Section frame.
Context `{HL : Libc} `{HLL : !LibcLaws} (w h : Z).
Context (Hw : 2 < w <= PARAM_MAX) (Hh : 0 < h <= PARAM_MAX).
Context (v0 : View) (m : bool * bool * Z * bool * Z * list Z * list Z * list Z).
Context (d : Display) (f : Framebuffer).

Local Abbreviation painted := (painted w h v0 m).
Local Abbreviation drawn := (drawn w h v0 m).
Local Abbreviation drawn_at := (drawn_at w h v0 m).
Local Abbreviation drawn_past := (drawn_past w h v0 m).

(** Rows that wrap continue with the same hyperlink. *)
Definition wraps_linked (rs : list Row) : Prop :=
  forall i r r', rs !! i = Some r -> rs !! S i = Some r' -> Row_get_wrap r = Ok true ->
    exists c, lookupZ (cells r') 0 = Some c /\ cell_hyperlink c = end_link w (cells r).

Record rows_tidy (rs : list Row) : Prop := {
  rt_length : lenZ rs = h;
  rt_rows : Forall (fun r => row_tidy w (cells r)) rs }.

Context (Hfw : width (ds f) = w) (Hfh : height (ds f) = h) (Hf : rows_tidy (rows f)) (Hlinks : wraps_linked (rows f)).

(** ** The rows *)

Definition old_vis (rs : list row_pointer) : list (list Cell) := (fun p => vis <$> cells p.2) <$> rs.

(** The first [k] rows are new. *)
Definition rows_upto (k : nat) (O : list (list Cell)) : list (list Cell) := take k (vis_rows (rows f)) ++ drop k O.

Lemma rows_upto_S k O r :
  length O = Z.to_nat h -> rows f !! k = Some r -> <[k := vis <$> cells r]> (rows_upto k O) = rows_upto (S k) O.
Proof.
  intros HO Hr. destruct Hf as [Hl _]. unfold lenZ in Hl. pose proof (lookup_lt_Some _ _ _ Hr) as Hk.
  assert (Hlen : length (vis_rows (rows f)) = Z.to_nat h) by (unfold vis_rows; rewrite length_fmap; lia).
  unfold rows_upto. rewrite insert_app_r_alt by (rewrite length_take; lia). rewrite length_take, Nat.min_l, Nat.sub_diag by lia.
  destruct (lookup_lt_is_Some_2 O k) as (o & Eo); [lia|]. rewrite (drop_S O o k Eo). cbn [insert list_insert].
  rewrite (take_S_r _ k (vis <$> cells r)), <- app_assoc; [done|]. unfold vis_rows. by rewrite list_lookup_fmap, Hr.
Qed.

(** Where the loop over the rows is. *)
Definition rows_at (y : Z) (O : list (list Cell)) (wr : bool) (fr : FrameState) : Prop :=
  if wr then 1 <= y < h /\ drawn_wrap w h v0 m (y - 1) (rows_upto (Z.to_nat y) O) fr /\
    (exists r c, rows f !! Z.to_nat y = Some r /\ lookupZ (cells r) 0 = Some c /\ cell_hyperlink c = current_hyperlink fr)
  else drawn (rows_upto (Z.to_nat y) O) fr \/ (y = h /\ drawn_past (h - 1) (rows_upto (Z.to_nat y) O) fr).

Lemma put_rows_drawn (initialized : bool) (O : list (list Cell)) (rs : list row_pointer) n : forall y wr fr,
  h <= lenZ rs -> length O = Z.to_nat h -> Forall (fun row => length row = Z.to_nat w) O ->
  (initialized = true -> Forall (fun p : row_pointer => row_tidy w (cells p.2)) rs /\ O = old_vis rs) ->
  0 <= y -> y + Z.of_nat n = h -> rows_at y O wr fr ->
  exists fr', put_rows_from n d initialized f (row_pointers [] f) rs y wr fr = Ok fr' /\ rows_at h O false fr'.
Proof.
  intros y wr fr Hrs HO HOw Hinit. revert y wr fr. induction n as [|n IH]; intros y wr fr Hy Hn Hat; cbn [put_rows_from].
  { replace y with h in * by lia. exists fr. split; [done|]. destruct wr; [|done]. destruct Hat as [? _]. lia. }
  destruct (at_ok rs y) as ([a [ocs g']] & -> & Eo); [lia|]. cbn [mbind result_bind]. destruct Hf as [Hl Ht].
  destruct (at_ok (row_pointers [] f) y) as ([a' [cs g]] & -> & Er); [rewrite lenZ_row_pointers; lia|]. cbn [mbind result_bind].
  assert (Hrow : a' = 0 /\ rows f !! Z.to_nat y = Some (MkRow cs g)).
  { unfold lookupZ in Er. rewrite decide_True in Er by done. unfold row_pointers in Er. rewrite list_lookup_imap in Er.
    destruct (rows f !! Z.to_nat y) as [r|]; [|done]. cbn in Er. by injection Er as <- ->. }
  destruct Hrow as [-> Hrow]. destruct (lookup_lt_is_Some_2 O (Z.to_nat y)) as (ov & Eov); [lia|].
  pose proof (Forall_lookup_1 _ _ _ _ Ht Hrow) as Hcs. cbn in Hcs. pose proof (Forall_lookup_1 _ _ _ _ HOw Eov) as Hov.
  assert (Hlen : length (vis_rows (rows f)) = Z.to_nat h) by (unfold vis_rows, lenZ in *; rewrite length_fmap; lia).
  assert (HR : rows_upto (Z.to_nat y) O !! Z.to_nat y = Some ov).
  { unfold rows_upto. rewrite lookup_app_r by (rewrite length_take; lia). rewrite length_take, Nat.min_l, Nat.sub_diag, lookup_drop by lia.
    by rewrite Nat.add_0_r. }
  destruct (put_row_done w h Hw Hh v0 m d initialized y ltac:(lia) cs ocs ov (rows_upto (Z.to_nat y) O) Hcs Hov
    ltac:(by eapply lookup_lt_Some) ) with (f := f) (g := g) (a := a) (g' := g') (wr := wr) (fr := fr)
    as (wr' & fr' & -> & Hdone & Hwt); try done.
  - intros Hi. destruct (Hinit Hi) as [Hto ->]. unfold lookupZ in Eo. rewrite decide_True in Eo by done.
    pose proof (Forall_lookup_1 _ _ _ _ Hto Eo) as Hto'. split; [done|].
    unfold old_vis in Eov. rewrite list_lookup_fmap, Eo in Eov. by injection Eov as <-.
  - unfold row_start. destruct wr.
    + destruct Hat as (_ & Hd & r & c & Er' & Hc & El). rewrite Hrow in Er'. injection Er' as <-. cbn in Hc. eauto.
    + destruct Hat as [Hd|[? _]]; [done|lia].
  - cbn [mbind result_bind]. apply IH; [lia|lia|]. pose proof (rows_upto_S _ _ (MkRow cs g) HO Hrow) as ES. cbn [cells] in ES.
    rewrite ES in Hdone. unfold row_done in Hdone. unfold rows_at.
    replace (S (Z.to_nat y)) with (Z.to_nat (y + 1)) in Hdone by lia. destruct wr'.
    + destruct Hdone as (Hlt & Hd & El). split; [lia|]. replace (y + 1 - 1) with y by lia. split; [done|].
      destruct (lookup_lt_is_Some_2 (rows f) (Z.to_nat (y + 1))) as (r' & Er'); [unfold lenZ in Hl; lia|].
      destruct (Hlinks (Z.to_nat y) (MkRow cs g) r') as (c & Hc & Elc); [done| |by apply Hwt|].
      { by replace (S (Z.to_nat y)) with (Z.to_nat (y + 1)) by lia. }
      exists r', c. split_and!; [done|done|]. rewrite Elc, El. done.
    + destruct Hdone as [Hd|[Hyh Hd]]; [by left|]. right. split; [lia|]. by replace (h - 1) with y by lia.
Qed.

(** ** The scrolling shortcut *)

Definition blank_vis : list Cell := replicate (Z.to_nat w) (vis (Cell_new 0)).

Lemma old_vis_lookup rs j : 0 <= j -> old_vis rs !! Z.to_nat j = (fun p : row_pointer => vis <$> cells p.2) <$> lookupZ rs j.
Proof. intros Hj. unfold old_vis, lookupZ. by rewrite list_lookup_fmap, decide_True. Qed.

Lemma shift_vis lines bottom g rs rs' :
  0 < lines -> lines <= bottom + 1 -> 0 <= bottom < lenZ rs -> lenZ rs' = lenZ rs ->
  shift_rows (Z.to_nat (bottom + 1)) 0 lines bottom (0, Row_new w 0 g) rs = Ok rs' ->
  old_vis rs' = vshift (Z.to_nat lines) (Z.to_nat bottom) blank_vis (old_vis rs).
Proof.
  intros Hl Hlb Hb Hlen E. pose proof (shift_rows_lookup lines bottom (0, Row_new w 0 g) (Z.to_nat (bottom + 1)) 0 rs rs' ltac:(lia) Hl ltac:(lia) E) as Hlk. unfold lenZ in *.
  apply list_eq. intros i. rewrite <- (Nat2Z.id i) at 1. rewrite old_vis_lookup, Hlk by lia.
  assert (Hvis : length (old_vis rs) = length rs) by (unfold old_vis; apply length_fmap).
  assert (HA : length (take (S (Z.to_nat bottom) - Z.to_nat lines) (drop (Z.to_nat lines) (old_vis rs))) = (S (Z.to_nat bottom) - Z.to_nat lines)%nat)
    by (rewrite length_take, length_drop; lia).
  rewrite (proj2 (Z.leb_le 0 (Z.of_nat i))) by lia. cbn [andb]. unfold vshift.
  destruct (Z.leb_spec (Z.of_nat i) bottom); [destruct (Z.leb_spec (Z.of_nat i + lines) bottom)|].
  - rewrite lookup_app_l, lookup_take_lt, lookup_drop by lia. rewrite <- old_vis_lookup by lia. f_equal. lia.
  - rewrite lookup_app_r by lia. rewrite lookup_app_l by (rewrite length_replicate; lia).
    rewrite lookup_replicate_2 by lia. cbn. unfold blank_vis. by rewrite fmap_replicate.
  - rewrite app_assoc, lookup_app_r by (rewrite length_app, length_replicate; lia). rewrite length_app, length_replicate, HA, lookup_drop.
    rewrite <- old_vis_lookup by lia. f_equal. lia.
Qed.

(** Rows that the scroll put in place need not be drawn. *)
Lemma rows_upto_matched sh lines bottom g rs rs' :
  0 < lines -> 0 <= sh -> bottom = lines + sh - 1 -> 0 <= bottom < lenZ rs -> lenZ rs = h -> lenZ rs' = lenZ rs ->
  shift_rows (Z.to_nat (bottom + 1)) 0 lines bottom (0, Row_new w 0 g) rs = Ok rs' ->
  (forall i, 0 <= i < sh -> lookupZ (rows f) i = snd <$> lookupZ rs (lines + i)) ->
  rows_upto (Z.to_nat sh) (old_vis rs') = old_vis rs'.
Proof.
  intros Hl Hsh Hb Hbr Hrs Hlen E Hm. pose proof (shift_rows_lookup lines bottom (0, Row_new w 0 g) (Z.to_nat (bottom + 1)) 0 rs rs' ltac:(lia) Hl ltac:(lia) E) as Hlk.
  unfold rows_upto. rewrite <- (take_drop (Z.to_nat sh) (old_vis rs')) at 2. f_equal. destruct Hf as [Hlf _]. unfold lenZ in *.
  apply list_eq. intros i. destruct (decide (i < Z.to_nat sh)%nat) as [Hi|Hi].
  - rewrite !lookup_take_lt by done. rewrite <- (Nat2Z.id i). rewrite old_vis_lookup, Hlk by lia.
    rewrite (proj2 (Z.leb_le 0 _)), !(proj2 (Z.leb_le _ bottom)) by lia. cbn [andb].
    specialize (Hm (Z.of_nat i) ltac:(lia)). rewrite Z.add_comm. unfold lookupZ in Hm |- *. rewrite !decide_True in Hm by lia. rewrite !decide_True by lia.
    unfold vis_rows. rewrite list_lookup_fmap, Hm. by destruct (rs !! _).
  - rewrite !lookup_ge_None_2; [done| |]; rewrite length_take; lia.
Qed.

Lemma region_text b : 0 <= b <= PARAM_MAX ->
  snprintf 64 (27 :: str "[" ++ dec 1 ++ str ";" ++ dec b ++ str "r") = 27 :: 91 :: join_params [1; b] ++ [114].
Proof.
  intros Hb. unfold PARAM_MAX in Hb. pose proof (dec_length b 5 ltac:(cbn; lia) ltac:(lia)). unfold snprintf. cbn [join_params]. rewrite take_ge.
  - cbn -[dec]. by rewrite <- app_assoc.
  - change (dec 1) with [49]. cbn -[dec]. rewrite !length_app. cbn. lia.
Qed.

(** Line feeds at the bottom of the screen. *)
Lemma scroll_whole lines O fr :
  0 < lines < h -> length O = Z.to_nat h -> (exists x, drawn_at (h - 1) x O fr) -> current_rendition fr = initial_rendition ->
  drawn (vshift (Z.to_nat lines) (Z.to_nat (h - 1)) blank_vis O) ((append_n lines 10 (append [13] fr)) <| cursor_x := 0 |>).
Proof.
  intros Hl HO (x & v & Hp & H1 & H2 & H3 & H4 & H5) Er. pose proof Hp as [].
  right. exists (h - 1), 0. set (v1 := v <| v_col := 0 |> <| v_pend := false |>).
  exists (vscroll w (Z.to_nat lines) v1). split; [|by split_and!].
  eapply (painted_append w h v0 m O _ ([13] ++ replicate (Z.to_nat lines) 10)); [exact Hp| |cbn; by rewrite <- app_assoc|..]; try done.
  - eapply draws_app; [apply draws_cr|]. fold v1. apply draws_lf_scroll_n; cbn; try done; try lia.
    rewrite pt_rows. unfold lenZ. lia.
  - cbn. rewrite pt_rows. unfold vblank. cbn. rewrite pt_rend, Er. destruct pt_region as [_ ->]. done.
  - cbn. lia.
Qed.

(** A move from an unknown position, in any region. *)
Lemma lost_move y x fr v :
  0 <= y < h -> 0 <= x < w -> cursor_x fr = -1 -> cursor_y fr = -1 -> draws w h (fs_str fr) v0 v -> v_visible v = fs_cursor_visible fr ->
  let fr' := append_silent_move y x fr in
  draws w h (fs_str fr') v0 (vmove y x (v <| v_visible := false |>)) /\ fs_cursor_visible fr' = false /\
  current_rendition fr' = current_rendition fr /\ current_hyperlink fr' = current_hyperlink fr.
Proof.
  intros Hy Hx E1 E2 Hd Hv. unfold append_silent_move. rewrite E1, (proj2 (Z.eqb_neq (-1) x)) by lia. cbn [andb].
  set (f1 := if fs_cursor_visible fr then _ else fr).
  assert (Hf1 : draws w h (fs_str f1) v0 (v <| v_visible := false |>) /\ fs_cursor_visible f1 = false /\ cursor_x f1 = -1 /\ cursor_y f1 = -1 /\
    current_rendition f1 = current_rendition fr /\ current_hyperlink f1 = current_hyperlink fr).
  { unfold f1. destruct (fs_cursor_visible fr) eqn:E; split_and!; try done.
    - eapply draws_app; [exact Hd|]. apply (draws_visible w h false).
    - replace (v <| v_visible := false |>) with v; [done|]. rewrite <- Hv. by destruct v. }
  destruct Hf1 as (Hd1 & Hv1 & Ex & Ey & Er & El). unfold append_move. rewrite Ex, Ey. cbn [Z.eqb Pos.eqb negb andb].
  cbv zeta. rewrite (move_text w h Hw Hh) by done. split; [|done]. eapply draws_app; [exact Hd1|]. apply draws_move; lia.
Qed.

(** Line feeds at the bottom of a region that ends at row [bottom]. *)
Lemma scroll_part lines bottom O fr v :
  0 < lines <= bottom -> 0 < bottom < h -> length O = Z.to_nat h -> painted O fr v -> current_rendition fr = initial_rendition ->
  let f1 := append (snprintf 64 (27 :: str "[" ++ dec 1 ++ str ";" ++ dec (bottom + 1) ++ str "r")) fr in
  let f2 := append_silent_move bottom 0 (f1 <| cursor_x := -1 |> <| cursor_y := -1 |>) in
  drawn (vshift (Z.to_nat lines) (Z.to_nat bottom) blank_vis O)
    ((append (27 :: str "[r") (append_n lines 10 f2)) <| cursor_x := -1 |> <| cursor_y := -1 |>).
Proof.
  intros Hl Hb HO Hp Er f1 f2. pose proof Hp as []. left. set (v1 := vregion bottom v).
  assert (Hd1 : draws w h (fs_str f1) v0 v1).
  { eapply draws_app; [exact pt_draws|]. rewrite region_text by lia. replace v1 with (vregion (bottom + 1 - 1) v) by (unfold v1; f_equal; lia).
    apply draws_region; lia. }
  destruct (lost_move bottom 0 (f1 <| cursor_x := -1 |> <| cursor_y := -1 |>) v1)
    as (Hd2 & Hv2 & Er2 & El2); [lia|lia|done|done|exact Hd1|exact pt_visible|]. fold f2 in Hd2, Hv2, Er2, El2.
  set (v2 := vmove bottom 0 (v1 <| v_visible := false |>)) in *. set (v3 := vscroll w (Z.to_nat lines) v2).
  exists (vregion (h - 1) v3). split; [|done].
  split; cbn [fs_str append append_n set_field current_rendition current_hyperlink fs_cursor_visible]; try done.
  - eapply draws_app; [|apply draws_region_reset; lia]. eapply draws_app; [exact Hd2|]. apply draws_lf_scroll_n; cbn; try done; try lia.
    rewrite pt_rows. unfold lenZ. lia.
  - cbn. rewrite pt_rows. unfold vblank. cbn. by rewrite pt_rend, Er.
  - rewrite Er2. cbn. by rewrite pt_rend.
  - rewrite El2. cbn. by rewrite pt_link.
  - cbn. lia.
Qed.

Lemma scroll_frame_drawn lines sh y x O fr :
  0 < lines -> 0 < sh -> lines + sh <= h -> length O = Z.to_nat h -> drawn_at y x O fr ->
  drawn (vshift (Z.to_nat lines) (Z.to_nat (lines + sh - 1)) blank_vis O) (scroll_frame h lines sh fr).
Proof.
  intros Hl Hs Hlh HO Hd. unfold scroll_frame. cbv zeta.
  assert (Hd1 : drawn_at y x O (update_hyperlink Hyperlink_empty true (update_rendition initial_rendition true fr))).
  { apply update_hyperlink_at; [done|]. apply update_rendition_at; [|done]. apply Renditions_new_wf. by left. }
  assert (Er : current_rendition (update_hyperlink Hyperlink_empty true (update_rendition initial_rendition true fr)) = initial_rendition)
    by (by rewrite update_hyperlink_rend, update_rendition_current).
  set (f1 := update_hyperlink _ _ _) in *. pose proof Hd1 as (v & Hp & H1 & _).
  destruct ((sh + lines =? h) && (cursor_y f1 + 1 =? h)) eqn:E.
  - rewrite andb_true_iff, !Z.eqb_eq in E. replace (lines + sh - 1) with (h - 1) by lia. apply scroll_whole; [lia|done| |done].
    exists x. by replace (h - 1) with y by lia.
  - apply (scroll_part lines (lines + sh - 1) O f1 v); done || lia.
Qed.

Lemma blank_tidy g : row_tidy w (cells (Row_new w 0 g)).
Proof.
  split; [apply lenZ_replicate; lia|]. intros x c Hc. unfold Row_new, lookupZ in Hc. cbn in Hc. case_decide; [|done].
  apply lookup_replicate in Hc as [-> _]. split_and!; [|done|done]. split; [apply Renditions_new_wf; by left|]. split; [done|]. apply grapheme_space.
Qed.

Lemma frame_scroll_drawn g rs y x fr :
  frame_ok w h f -> lenZ rs = h -> Forall (fun p : row_pointer => row_tidy w (cells p.2)) rs -> drawn_at y x (old_vis rs) fr ->
  exists sy rs' fr', frame_scroll true f g rs fr = Ok (sy, rs', fr') /\ 0 <= sy <= h /\ lenZ rs' = h /\
    Forall (fun p : row_pointer => row_tidy w (cells p.2)) rs' /\ rows_at sy (old_vis rs') false fr'.
Proof.
  intros Hok Hrs Ht Hd. destruct Hf as [Hlf _]. unfold frame_scroll. cbn [negb]. rewrite Hfw, Hfh.
  assert (Hnone : rows_at 0 (old_vis rs) false fr) by (left; eapply drawn_at_drawn; exact Hd).
  destruct (find_scroll_ok (rows f) rs h (Z.to_nat h) 0) as (lines & sh & E & Hs); try lia. rewrite E. cbn [mbind result_bind].
  destruct (Z.eqb_spec sh 0); [do 3 eexists; split; [reflexivity|split_and!; done || lia]|].
  destruct (Z.eqb_spec lines 0); [lia|]. destruct (Z.ltb_spec (lines + sh - 1) h); [|lia]. cbn [negb].
  destruct (shift_rows_ok (fun p => row_tidy w (cells p.2)) lines (lines + sh - 1) (0, Row_new w 0 g) (Z.to_nat (lines + sh - 1 + 1)) 0 rs)
    as (rs' & Es & Hl' & Ht'); try lia; [done|apply blank_tidy|].
  rewrite Es. cbn [mbind result_bind]. do 3 eexists. split; [reflexivity|]. split_and!; [lia|lia|lia|done|].
  left. rewrite (rows_upto_matched sh lines (lines + sh - 1) g rs rs') by (done || lia || by apply (find_scroll_rows _ _ _ _ _ _ _ E)).
  rewrite (shift_vis lines (lines + sh - 1) g rs rs') by (done || lia).
  apply (scroll_frame_drawn lines sh y x); try lia; [|done]. unfold old_vis, lenZ in *. rewrite length_fmap. lia.
Qed.
End frame.
