(* ===== verification/FrameSpec.v ===== *)
(** * A frame that is drawn is shown

    The terminal of a client that shows a frame, and interprets what
    [Display::new_frame] wrote for the next one, shows the next one. *)
From S2P Require Export PaintFrame Mirror.

(** What a client's terminal shows when it follows a frame: its cursor never
    waits to wrap, and its scrolling region is the whole screen. *)
Definition shown (f : Framebuffer) : View :=
  (view_of f) <| v_pend := false |> <| v_top := 0 |> <| v_bot := height (ds f) - 1 |>.

Lemma append_append a b fr : append a (append b fr) = append (b ++ a) fr.
Proof. destruct fr. unfold append. cbn. unfold set_field. cbn. by rewrite app_assoc. Qed.
Lemma append_nil fr : append [] fr = fr.
Proof. unfold append. rewrite app_nil_r. by destruct fr. Qed.

Lemma append_chars_encode t : forall fr,
  Forall (fun c => is_scalar c = true) t -> append_chars t fr = Ok (append (encode t) fr).
Proof.
  induction t as [|c t IH]; intros fr Ht; cbn [append_chars].
  - unfold append, encode. cbn. rewrite app_nil_r. by destruct fr.
  - apply Forall_cons in Ht as [Hc Ht]. pose proof (Cell_append_scalar c (MkCell (fs_str fr) initial_rendition None false false false) Hc) as E.
    unfold Cell_append in E. cbn [contents] in E. destruct (append_to_str (fs_str fr) c) as [s|]; [|done].
    cbn [mbind result_bind] in E. injection E as ->. cbn [mbind result_bind]. rewrite IH by done.
    change (c :: t) with ([c] ++ t). unfold append. rewrite encode_app, app_assoc. by destruct fr.
Qed.

Section frame_spec.
Context `{HL : Libc} `{HLL : !LibcLaws} (w h : Z).
Context (Hw : 2 < w <= PARAM_MAX) (Hh : 0 < h <= PARAM_MAX).

(** The frames the theorem is about. *)
Record paintable (f : Framebuffer) : Prop := {
  pb_ok : frame_ok w h f;
  pb_rows : Forall (fun r => row_tidy w (cells r)) (rows f);
  pb_wraps : wraps_linked w (rows f);
  pb_rend : rend_wf (ds_renditions (ds f));
  pb_link : link_ok (ds_hyperlink (ds f));
  pb_cursor : 0 <= cursor_row (ds f) < h /\ 0 <= cursor_col (ds f) < w;
  pb_margin : cursor_row (ds f) < h - 1 \/ cursor_col (ds f) = 0 \/ cursor_col (ds f) + 5 <= w;
  pb_mouse : mouse_reporting_mode (ds f) ∈ MOUSE_REPORTING_NONE :: mouse_modes;
  pb_enc : mouse_encoding_mode (ds f) ∈ MOUSE_ENCODING_DEFAULT :: enc_modes;
  pb_icon : Forall osc_char (icon_name f) /\ (length (icon_name f) <= 254)%nat;
  pb_title : Forall osc_char (window_title f) /\ (length (window_title f) <= 254)%nat;
  pb_clip : Forall osc_char (clipboard f) /\ lenZ (clipboard f) <= MAXIMUM_CLIPBOARD_SIZE - 5 }.

Context (v0 : View).

(** ** Optional sequences *)

Lemma draws_opt (c : bool) s fr v v' :
  draws w h (fs_str fr) v0 v -> (c = true -> draws w h s v v') -> (c = false -> v = v') ->
  draws w h (fs_str (if c then append s fr else fr)) v0 v'.
Proof. intros Hd H1 H2. destruct c; [by eapply draws_app; [exact Hd|apply H1]|]. by rewrite <- H2. Qed.

(** ** The head *)

Lemma title_part_draws d last f fr v :
  has_title d = true -> frame_ok w h f -> Forall osc_char (icon_name f) /\ (length (icon_name f) <= 254)%nat ->
  Forall osc_char (window_title f) /\ (length (window_title f) <= 254)%nat ->
  (title_initialized f = false -> icon_name f = icon_name last /\ window_title f = window_title last) ->
  v_icon v = icon_name last -> v_title v = window_title last -> draws w h (fs_str fr) v0 v ->
  exists s, title_part d true last f fr = Ok (append s fr) /\
    draws w h (fs_str fr ++ s) v0 (v <| v_icon := icon_name f |> <| v_title := window_title f |>).
Proof.
  intros Hti Hok [Hi Hil] [Ht Htl] Hinit Ei Et Hd. unfold title_part. rewrite Hti. cbn [negb orb andb].
  pose proof (fo_icon _ _ _ Hok) as Hsi. pose proof (fo_title _ _ _ Hok) as Hst.
  destruct (title_initialized f && _) eqn:E.
  - destruct (bool_decide_reflect (icon_name f = window_title f)) as [Esame|Esame].
    + rewrite append_chars_encode by done. cbn [mbind result_bind].
      exists (27 :: 93 :: 48 :: 59 :: encode (window_title f) ++ [7]). split; [by rewrite !append_append, <- ?app_assoc|].
      eapply draws_app; [exact Hd|]. rewrite Esame. apply (draws_title_n w h 48); [lia|done|done].
    + rewrite append_chars_encode by done. cbn [mbind result_bind]. rewrite append_chars_encode by done. cbn [mbind result_bind].
      exists (((27 :: str "]1;") ++ encode (icon_name f) ++ [7]) ++ (27 :: str "]2;") ++ encode (window_title f) ++ [7]).
      split; [by rewrite !append_append, <- !app_assoc|].
      eapply draws_app; [exact Hd|].
      eapply draws_app; [exact (draws_title_n w h 49 (icon_name f) v ltac:(lia) Hi Hil)|].
      exact (draws_title_n w h 50 (window_title f) (v <| v_icon := icon_name f |> <| v_title := v_title v |>) ltac:(lia) Ht Htl).
  - exists []. rewrite app_nil_r. split; [by rewrite append_nil|].
    assert (icon_name f = icon_name last /\ window_title f = window_title last) as [-> ->].
    { destruct (title_initialized f); [|by apply Hinit]. cbn [andb] in E. apply orb_false_iff in E as [E1 E2].
      by apply negb_false_iff, bool_decide_eq_true in E1, E2. }
    rewrite <- Ei, <- Et. by destruct v.
Qed.

Lemma clipboard_part_draws last f fr v :
  frame_ok w h f -> Forall osc_char (clipboard f) /\ lenZ (clipboard f) <= MAXIMUM_CLIPBOARD_SIZE - 5 ->
  v_clip v = clipboard last -> draws w h (fs_str fr) v0 v ->
  exists s, clipboard_part last f fr = Ok (append s fr) /\ draws w h (fs_str fr ++ s) v0 (v <| v_clip := clipboard f |>).
Proof.
  intros Hok [Hc Hl] Ec Hd. unfold clipboard_part. case_bool_decide as E.
  - exists []. rewrite app_nil_r, E, <- Ec. split; [by rewrite append_nil|]. by destruct v.
  - rewrite append_chars_encode by apply (fo_clipboard _ _ _ Hok). cbn [mbind result_bind].
    exists (27 :: str "]52;c;" ++ encode (clipboard f) ++ [7]). split; [by rewrite !append_append, <- ?app_assoc|].
    eapply draws_app; [exact Hd|]. by apply draws_clip.
Qed.

Definition vhead (f : Framebuffer) (v : View) : View :=
  v <| v_icon := icon_name f |> <| v_title := window_title f |> <| v_clip := clipboard f |> <| v_reverse := reverse_video (ds f) |>.

Lemma frame_head_draws d last f :
  has_title d = true -> paintable f ->
  (title_initialized f = false -> icon_name f = icon_name last /\ window_title f = window_title last) ->
  v_pend v0 = false -> misc v0 = misc (shown last) ->
  exists s, frame_head d true last f = Ok (append s (FrameState_new last)) /\ draws w h s v0 (vhead f v0).
Proof.
  intros Hti [] Hinit Hp0 Hm0. injection Hm0 as M1 M2 M3 M4 M5 M6 M7 M8. unfold frame_head.
  set (f1 := if bell_count f =? bell_count last then _ else _).
  assert (Hf1 : exists s, f1 = append s (FrameState_new last) /\ draws w h (fs_str f1) v0 v0).
  { unfold f1. destruct (_ =? _); [exists []|exists [7]].
    - rewrite append_nil. split; [done|apply draws_nil].
    - split; [done|]. replace v0 with (v0 <| v_pend := false |>) at 2 by (rewrite <- Hp0; by destruct v0). apply (draws_bell w h). }
  destruct Hf1 as (s1 & E1 & Hd1).
  destruct (title_part_draws d last f f1 v0) as (s2 & -> & Hd2); [done..|]. cbn [mbind result_bind].
  destruct (clipboard_part_draws last f (append s2 f1) (v0 <| v_icon := icon_name f |> <| v_title := window_title f |>) pb_ok0 pb_clip0)
    as (s3 & -> & Hd3); [done|exact Hd2|]. cbn [mbind result_bind].
  change (fs_str (append s2 f1) ++ s3) with (fs_str (append s3 (append s2 f1))) in Hd3. cbn [negb orb].
  set (c := negb (Bool.eqb _ _)). set (s4 := 27 :: str "[?5" ++ _). exists (s1 ++ s2 ++ s3 ++ if c then s4 else []). split.
  - rewrite E1, !append_append. destruct c; by rewrite <- ?app_assoc, ?app_nil_r.
  - set (X := append s3 (append s2 f1)) in *.
    replace (s1 ++ s2 ++ s3 ++ if c then s4 else []) with (fs_str (if c then append s4 X else X));
      [|unfold X; rewrite E1; destruct c; cbn; by rewrite <- ?app_assoc, ?app_nil_r].
    apply (draws_opt c s4 X _ _ Hd3).
    + intros _. apply (draws_reverse w h).
    + intros Ec. unfold c in Ec. apply negb_false_iff, eqb_prop in Ec. unfold vhead. rewrite Ec, <- M1. done.
Qed.

(** ** The tail *)

Lemma mode_text m (b : bool) : 0 <= m <= PARAM_MAX ->
  snprintf 64 (27 :: str "[?" ++ dec m ++ str (if b then "h" else "l")) = 27 :: str "[?" ++ dec m ++ str (if b then "h" else "l").
Proof.
  intros Hm. unfold PARAM_MAX in Hm. pose proof (dec_length m 5 ltac:(cbn; lia) ltac:(lia)). unfold snprintf. apply take_ge.
  cbn -[dec]. rewrite !length_app. destruct b; cbn; lia.
Qed.

Lemma mouse_mode_ok m : m ∈ mouse_modes -> 0 <= m <= PARAM_MAX.
Proof. unfold mouse_modes, PARAM_MAX. rewrite !elem_of_cons, elem_of_nil. lia. Qed.
Lemma enc_mode_ok m : m ∈ enc_modes -> 0 <= m <= PARAM_MAX.
Proof. unfold enc_modes, PARAM_MAX. rewrite !elem_of_cons, elem_of_nil. lia. Qed.

(** A mode out of a set, by its getter, the effect of [h] and [l], and the
    sequence that turns all of them off. *)
Lemma mode_part_draws (i : bool) (modes : list Z) none now last off fr v (get : View -> Z) (set : Z -> View -> View) :
  (forall m, m ∈ modes -> 0 <= m <= PARAM_MAX) -> (forall v, set (get v) v = v) -> (forall a b v, set a (set b v) = set a v) ->
  (forall m (b : bool) v, m ∈ modes -> draws w h (27 :: str "[?" ++ dec m ++ str (if b then "h" else "l")) v (set (if b then m else none) v)) ->
  (forall v, draws w h off v (set none v)) ->
  now ∈ none :: modes -> last ∈ none :: modes -> get v = last -> draws w h (fs_str fr) v0 v ->
  draws w h (fs_str (mode_part i none now last off fr)) v0 (set now v).
Proof.
  intros Hok Hid Hset Hseq Hoff Hnow Hlast Hget Hd. unfold mode_part.
  destruct (i && (now =? last)) eqn:E; [apply andb_true_iff in E as [_ ->%Z.eqb_eq]; by rewrite <- Hget, Hid|].
  destruct (Z.eqb_spec now none) as [->|Hnn]; [eapply draws_app; [exact Hd|apply Hoff]|].
  apply elem_of_cons in Hnow as [?|Hnow]; [done|].
  assert (H1 : forall v1 fr1, draws w h (fs_str fr1) v0 v1 -> draws w h (fs_str (append (snprintf 64 (27 :: str "[?" ++ dec now ++ str "h")) fr1)) v0 (set now v1)).
  { intros v1 fr1 Hd1. eapply draws_app; [exact Hd1|]. rewrite (mode_text now true) by auto. by apply (Hseq now true). }
  destruct (Z.eqb_spec last none) as [->|Hln]; [by apply H1|].
  apply elem_of_cons in Hlast as [?|Hlast]; [done|]. rewrite <- (Hset now none v). apply H1.
  eapply draws_app; [exact Hd|]. rewrite (mode_text last false) by auto. by apply (Hseq last false).
Qed.

(** Turning all the modes of a set off. *)
Ltac in_modes := unfold mouse_modes, enc_modes; rewrite !elem_of_cons; lia.

Lemma draws_mouse_off v :
  draws w h (27 :: str "[?1003l" ++ 27 :: str "[?1002l" ++ 27 :: str "[?1001l" ++ 27 :: str "[?1000l") v (v <| v_mouse := MOUSE_REPORTING_NONE |>).
Proof.
  assert (H : forall k v, k ∈ mouse_modes -> draws w h (27 :: str "[?" ++ dec k ++ str "l") v (v <| v_mouse := MOUSE_REPORTING_NONE |>))
    by (intros k v' Hk; exact (draws_mouse w h k false v' Hk)).
  refine (draws_app w h (27 :: str "[?1003l") _ _ _ _ (H 1003 v _) _); [in_modes|].
  refine (draws_app w h (27 :: str "[?1002l") _ _ _ _ (H 1002 _ _) _); [in_modes|].
  refine (draws_app w h (27 :: str "[?1001l") _ _ _ _ (H 1001 _ _) _); [in_modes|].
  refine (H 1000 _ _). in_modes.
Qed.

Lemma draws_enc_off v :
  draws w h (27 :: str "[?1015l" ++ 27 :: str "[?1006l" ++ 27 :: str "[?1005l") v (v <| v_enc := MOUSE_ENCODING_DEFAULT |>).
Proof.
  assert (H : forall k v, k ∈ enc_modes -> draws w h (27 :: str "[?" ++ dec k ++ str "l") v (v <| v_enc := MOUSE_ENCODING_DEFAULT |>))
    by (intros k v' Hk; exact (draws_enc w h k false v' Hk)).
  refine (draws_app w h (27 :: str "[?1015l") _ _ _ _ (H 1015 v _) _); [in_modes|].
  refine (draws_app w h (27 :: str "[?1006l") _ _ _ _ (H 1006 _ _) _); [in_modes|].
  refine (H 1005 _ _). in_modes.
Qed.

Definition head_misc (last f : Framebuffer) := misc (vhead f (shown last)).

(** The cursor is put in its place. *)
Lemma tail_cursor (i : bool) m f fr :
  paintable f -> rows_at w h v0 m f h [] false fr ->
  drawn_at w h v0 m (cursor_row (ds f)) (cursor_col (ds f)) (vis_rows (rows f))
    (if negb i || negb (cursor_row (ds f) =? cursor_y fr) || negb (cursor_col (ds f) =? cursor_x fr)
     then append_move (cursor_row (ds f)) (cursor_col (ds f)) fr else fr).
Proof.
  intros [] Hat. destruct (fo_rows _ _ _ pb_ok0) as [Hl _].
  assert (HT : rows_upto f (Z.to_nat h) [] = vis_rows (rows f)).
  { unfold rows_upto. rewrite drop_nil, app_nil_r, take_ge; [done|]. unfold vis_rows, lenZ in *. rewrite length_fmap. lia. }
  unfold rows_at in Hat. rewrite HT in Hat. destruct pb_cursor0 as [Hr Hc].
  destruct (_ || _) eqn:E.
  - destruct Hat as [Hd|[_ Hd]]; [by apply append_move_at|]. apply (append_move_past w h Hw Hh v0 m (h - 1)); try done. lia.
  - apply orb_false_iff in E as [E1 E2]. apply orb_false_iff in E1 as [_ E1]. apply negb_false_iff, Z.eqb_eq in E1, E2.
    destruct Hat as [[(v & _ & ? & _)|(y & x & Hd)]|[_ (v & _ & _ & ? & _)]]; [lia| |lia].
    pose proof Hd as (v & _ & <- & <- & _). by rewrite E1, E2.
Qed.

Lemma draws_rendition r (b : bool) fr v :
  rend_wf r -> v_rend v = current_rendition fr -> draws w h (fs_str fr) v0 v ->
  draws w h (fs_str (update_rendition r b fr)) v0 (v <| v_rend := r |>).
Proof.
  intros Hr Er Hd. unfold update_rendition. destruct (b || _) eqn:E; cycle 1.
  - apply orb_false_iff in E as [_ E%negb_false_iff%bool_decide_eq_true]. replace (v <| v_rend := r |>) with v; [done|]. rewrite <- E, <- Er. by destruct v.
  - eapply draws_app; [exact Hd|]. by apply draws_sgr.
Qed.

Lemma draws_hyperlink l (b : bool) fr v :
  link_ok l -> v_link v = current_hyperlink fr -> v_pend v = false -> draws w h (fs_str fr) v0 v ->
  draws w h (fs_str (update_hyperlink l b fr)) v0 (v <| v_link := l |>).
Proof.
  intros Hr El Hp Hd. unfold update_hyperlink, Hyperlink_eqb. destruct (b || _) eqn:E; cycle 1.
  - apply orb_false_iff in E as [_ E%negb_false_iff%bool_decide_eq_true]. replace (v <| v_link := l |>) with v; [done|]. rewrite <- E, <- El. by destruct v.
  - eapply draws_app; [exact Hd|]. replace (v <| v_link := l |>) with (v <| v_link := l |> <| v_pend := false |>) by (rewrite <- Hp; by destruct v).
    by apply draws_link.
Qed.

Lemma frame_tail_draws (i : bool) last f fr :
  mouse_reporting_mode (ds last) ∈ MOUSE_REPORTING_NONE :: mouse_modes ->
  mouse_encoding_mode (ds last) ∈ MOUSE_ENCODING_DEFAULT :: enc_modes -> paintable f -> rows_at w h v0 (head_misc last f) f h [] false fr ->
  draws w h (fs_str (frame_tail i last f fr)) v0 (shown f).
Proof.
  intros Hmouse Henc Hf Hat. pose proof (tail_cursor i _ f fr Hf Hat) as Hd. unfold frame_tail. cbv zeta.
  set (f1 := if negb i || negb (cursor_row (ds f) =? cursor_y fr) || _ then _ else fr) in *.
  destruct Hd as (v & Hp & Ey & Ex & Hvr & Hvc & Hvp). destruct Hp as [Hd Hrows Hrend Hlink Hvis [Htop Hbot] _ Hmisc]. destruct Hf.
  unfold head_misc, misc in Hmisc. injection Hmisc as M1 M2 M3 M4 M5 M6 M7 M8. cbn in M1, M2, M3, M4, M5, M6, M7, M8.
  set (f2 := if negb i || negb (Bool.eqb (cursor_visible (ds f)) (fs_cursor_visible f1)) then _ else f1).
  assert (H2 : draws w h (fs_str f2) v0 (v <| v_visible := cursor_visible (ds f) |>) /\ current_rendition f2 = current_rendition f1 /\
    current_hyperlink f2 = current_hyperlink f1).
  { split; [|unfold f2; by destruct (negb i || negb (Bool.eqb (cursor_visible (ds f)) _))]. apply (draws_opt _ _ _ v); [exact Hd|intros _; apply (draws_visible w h (cursor_visible (ds f)))|].
    intros [_ E%negb_false_iff%eqb_prop]%orb_false_iff. rewrite E, <- Hvis. by destruct v. }
  destruct H2 as (H2 & Er2 & El2). set (v2 := v <| v_visible := cursor_visible (ds f) |>) in *.
  pose proof (draws_rendition (ds_renditions (ds f)) (negb i) f2 v2 pb_rend0 ltac:(by rewrite Er2) H2) as H3.
  set (v3 := v2 <| v_rend := ds_renditions (ds f) |>) in *. set (f3 := update_rendition _ _ f2) in *.
  assert (El3 : current_hyperlink f3 = current_hyperlink f1) by (unfold f3; rewrite update_rendition_link; done).
  pose proof (draws_hyperlink (ds_hyperlink (ds f)) (negb i) f3 v3 pb_link0 ltac:(by rewrite El3) ltac:(exact Hvp) H3) as H4.
  set (v4 := v3 <| v_link := ds_hyperlink (ds f) |>) in *. set (f4 := update_hyperlink _ _ f3) in *.
  set (v5 := v4 <| v_paste := bracketed_paste (ds f) |>).
  set (f5 := if negb i || negb (Bool.eqb (bracketed_paste (ds f)) (bracketed_paste (ds last))) then _ else f4).
  assert (H5 : draws w h (fs_str f5) v0 v5).
  { apply (draws_opt _ _ _ v4); [exact H4|intros _; apply draws_paste|]. intros [_ E%negb_false_iff%eqb_prop]%orb_false_iff.
    unfold v5. rewrite E, <- M2. done. }
  pose proof (mode_part_draws i mouse_modes MOUSE_REPORTING_NONE (mouse_reporting_mode (ds f)) (mouse_reporting_mode (ds last))
    (27 :: str "[?1003l" ++ 27 :: str "[?1002l" ++ 27 :: str "[?1001l" ++ 27 :: str "[?1000l") f5 v5 v_mouse (fun m v => v <| v_mouse := m |>)
    mouse_mode_ok ltac:(by intros []) ltac:(done) (draws_mouse w h) draws_mouse_off pb_mouse0 Hmouse M3 H5) as H6.
  set (f6 := mode_part _ _ _ _ _ f5) in *. set (v6 := v5 <| v_mouse := mouse_reporting_mode (ds f) |>) in *. cbv beta in H6. fold v6 in H6.
  set (v7 := v6 <| v_focus := mouse_focus_event (ds f) |>).
  set (f7 := if negb i || negb (Bool.eqb (mouse_focus_event (ds f)) (mouse_focus_event (ds last))) then _ else f6).
  assert (H7 : draws w h (fs_str f7) v0 v7).
  { apply (draws_opt _ _ _ v6); [exact H6|intros _; apply draws_focus|]. intros [_ E%negb_false_iff%eqb_prop]%orb_false_iff.
    unfold v7. rewrite E, <- M4. done. }
  pose proof (mode_part_draws i enc_modes MOUSE_ENCODING_DEFAULT (mouse_encoding_mode (ds f)) (mouse_encoding_mode (ds last))
    (27 :: str "[?1015l" ++ 27 :: str "[?1006l" ++ 27 :: str "[?1005l") f7 v7 v_enc (fun m v => v <| v_enc := m |>)
    enc_mode_ok ltac:(by intros []) ltac:(done) (draws_enc w h) draws_enc_off pb_enc0 Henc M5 H7) as H8.
  cbv beta in H8. replace (shown f) with (v7 <| v_enc := mouse_encoding_mode (ds f) |>); [exact H8|].
  unfold shown. rewrite (fo_height _ _ _ pb_ok0).
  unfold v7, v6, v5, v4, v3, v2. destruct v; cbn in *. subst. done.
Qed.
End frame_spec.

(** ** The frame *)

Section frame_shown.
Context `{HL : Libc} `{HLL : !LibcLaws} (w h : Z).
Context (Hw : 2 < w <= PARAM_MAX) (Hh : 0 < h <= PARAM_MAX).

Lemma old_vis_pointers addrs f : old_vis (row_pointers addrs f) = vis_rows (rows f).
Proof.
  unfold old_vis, vis_rows. rewrite <- (row_pointers_vals addrs f), <- list_fmap_compose. done.
Qed.

Lemma pointers_tidy f : paintable w h f -> Forall (fun p : row_pointer => row_tidy w (cells p.2)) (row_pointers [] f).
Proof. intros [_ Hr _ _ _ _ _ _ _ _ _ _]. by apply (row_pointers_Forall [] f (fun r => row_tidy w (cells r))). Qed.

(** The frame after the head: the display starts where the last frame ended. *)
Lemma start_drawn last f s :
  paintable w h last -> draws w h s (shown last) (vhead f (shown last)) ->
  drawn_at w h (shown last) (head_misc last f) (cursor_row (ds last)) (cursor_col (ds last)) (vis_rows (rows last))
    ((append s (FrameState_new last)) <| cursor_x := cursor_col (ds last) |> <| cursor_y := cursor_row (ds last) |>
       <| current_rendition := ds_renditions (ds last) |> <| current_hyperlink := ds_hyperlink (ds last) |>).
Proof.
  intros [] Hd. exists (vhead f (shown last)). split; [|done]. split; try done. split; [done|]. cbn. by rewrite (fo_height _ _ _ pb_ok0).
Qed.

Lemma new_frame_draws d last f g :
  has_title d = true -> paintable w h last -> paintable w h f ->
  (title_initialized f = false -> icon_name f = icon_name last /\ window_title f = window_title last) ->
  exists s, new_frame d true last f [] [] g = Ok s /\ draws w h s (shown last) (shown f).
Proof.
  intros Hti Hl Hf Hinit. pose proof (pb_ok _ _ _ Hl) as Hlok. pose proof (pb_ok _ _ _ Hf) as Hfok. unfold new_frame.
  destruct (frame_head_draws w h (shown last) d last f Hti Hf Hinit eq_refl eq_refl) as (s0 & -> & Hd0). cbn [mbind result_bind].
  unfold frame_size. rewrite (fo_width _ _ _ Hlok), (fo_width _ _ _ Hfok), (fo_height _ _ _ Hlok), (fo_height _ _ _ Hfok), !Z.eqb_refl. cbn [negb orb].
  pose proof (start_drawn last f s0 Hl Hd0) as Hst. rewrite <- (old_vis_pointers [] last) in Hst.
  destruct (fo_rows _ _ _ Hlok) as [Hlr _]. destruct (fo_rows _ _ _ Hfok) as [Hfr _].
  rewrite extend_rows_id; [|by rewrite (fo_width _ _ _ Hlok), (fo_width _ _ _ Hfok)|by rewrite lenZ_row_pointers, (fo_height _ _ _ Hfok)].
  assert (Hrt : rows_tidy w h (rows f)) by (split; [done|apply Hf]).
  destruct (frame_scroll_drawn w h Hw Hh (shown last) (head_misc last f) f (fo_width _ _ _ Hfok) (fo_height _ _ _ Hfok) Hrt g (row_pointers [] last) _ _ _ Hfok
    ltac:(by rewrite lenZ_row_pointers) (pointers_tidy last Hl) Hst) as (sy & rs & fr & -> & Hsy & Hrs & Ht & Hat). cbn [mbind result_bind].
  assert (HO : length (old_vis rs) = Z.to_nat h) by (unfold old_vis, lenZ in *; rewrite length_fmap; lia).
  destruct (put_rows_drawn w h Hw Hh (shown last) (head_misc last f) d f (fo_width _ _ _ Hfok) (fo_height _ _ _ Hfok) Hrt (pb_wraps _ _ _ Hf)
    true (old_vis rs) rs (Z.to_nat (h - sy)) sy false fr) as (fr' & -> & Hat'); try done; try lia.
  { unfold old_vis. apply Forall_fmap. eapply Forall_impl; [exact Ht|]. intros p [Hlen _]. cbn. unfold lenZ in Hlen. rewrite length_fmap. lia. }
  cbn [mbind result_bind]. eexists. split; [reflexivity|]. apply frame_tail_draws; try done; [by apply pb_mouse in Hl|by apply pb_enc in Hl|].
  unfold rows_at, rows_upto in *. rewrite (drop_ge (old_vis rs)) in Hat' by lia. by rewrite drop_nil.
Qed.

(** A client that shows a frame. *)
Definition shows (k : Complete) (f : Framebuffer) : Prop := client w h k /\ view_of (get_fb k) = shown f.

Lemma draws_act s v v' k :
  draws w h s v v' -> client w h k -> view_of (get_fb k) = v ->
  exists k', act s k = Ok ([], k') /\ client w h k' /\ view_of (get_fb k') = v' /\
    echo_ack k' = echo_ack k /\ input_history k' = input_history k.
Proof.
  intros Hd Hk Hv. destruct (Hd k Hk Hv) as (k' & E & Hk' & Hv' & He & Hi). exists k'. split; [|done].
  unfold act. rewrite (M_bind_Ok _ _ _ tt k' E). destruct Hk' as [_ _ Hh' _].
  unfold read_octets_to_host, on_terminal, on_ctx, on_dispatch, zoom, mbind, M_bind, gets, modify, mret, M_ret.
  rewrite Hh'. destruct k' as [? [[? []] ?]]. cbn in Hh'. by subst.
Qed.
End frame_shown.
