(* ===== verification/Paintable.v ===== *)
(** * Deciding which frames can be painted

    [paintable] as a function, so that it can be evaluated on the frames of a
    run. *)
From S2P Require Export FrameSpec.

#[export] Instance rend_wf_dec r : Decision (rend_wf r).
Proof. unfold rend_wf, color_ok. apply _. Defined.
#[export] Instance link_ok_dec l : Decision (link_ok l).
Proof. destruct l as [[p u]|]; unfold link_ok; apply _. Defined.
#[export] Instance text_char_dec c : Decision (text_char c).
Proof. unfold text_char. apply _. Defined.
#[export] Instance osc_char_dec c : Decision (osc_char c).
Proof. unfold osc_char. apply _. Defined.
#[export] Instance plain_dec c : Decision (plain c).
Proof. unfold plain. destruct (Cell_empty c); [|by left]. destruct (decide (cell_renditions c =
    Renditions_new (background_color (cell_renditions c)) /\ cell_hyperlink c = None /\ wide c = false)); [left|right]; tauto. Defined.

Section decide_paintable.
Context `{HL : Libc}.

(** The characters of a text. *)
Fixpoint decode_text (fuel : nat) (s : bytes) : option (list Z) :=
  match s, fuel with
  | [], _ => Some []
  | _, O => None
  | _, S fuel' =>
      match mbrtowc s with
      | MbChar n c => cons c <$> decode_text fuel' (drop n s)
      | _ => None
      end
  end.

Definition graphemeb (s : bytes) (wd : bool) : bool :=
  match decode_text (length s) s with
  | Some (c :: cs) =>
      bool_decide (s = encode (c :: cs) /\ Forall text_char (c :: cs) /\ char_width c = (if wd then 2 else 1) /\
        Forall (fun c => char_width c = 0) cs /\ lenZ (encode (c :: removelast cs)) < 32)
  | _ => false
  end.

(** A cell and the one behind it. *)
Definition tidy_cellb (c : Cell) (next : option Cell) : bool :=
  bool_decide (rend_wf (cell_renditions c)) && bool_decide (link_ok (cell_hyperlink c)) && graphemeb (print_grapheme c []) (wide c)
  && bool_decide (plain c)
  && implb (wide c) (match next with
                     | Some c' => bool_decide (vis c' = vis (Cell_new (background_color (cell_renditions c))))
                     | None => false
                     end).

Fixpoint tidy_cellsb (cs : list Cell) : bool :=
  match cs with [] => true | c :: cs' => tidy_cellb c (head cs') && tidy_cellsb cs' end.

Definition row_tidyb (w : Z) (cs : list Cell) : bool := (lenZ cs =? w) && tidy_cellsb cs.

Fixpoint wraps_linkedb (w : Z) (rs : list Row) : bool :=
  match rs with
  | r :: ((r' :: _) as rs') =>
      implb (match Row_get_wrap r with Ok b => b | Err _ => false end)
        (match lookupZ (cells r') 0 with
         | Some c => bool_decide (cell_hyperlink c = end_link w (cells r))
         | None => false
         end) && wraps_linkedb w rs'
  | _ => true
  end.

Definition paintableb (w h : Z) (f : Framebuffer) : bool :=
  let d := ds f in
  (width d =? w) && (height d =? h) && (0 <? w) && (0 <? h) && (lenZ (rows f) =? h)
  && forallb (fun r => row_tidyb w (cells r)) (rows f) && wraps_linkedb w (rows f)
  && bool_decide (rend_wf (ds_renditions d)) && bool_decide (link_ok (ds_hyperlink d))
  && (0 <=? cursor_row d) && (cursor_row d <? h) && (0 <=? cursor_col d) && (cursor_col d <? w)
  && ((cursor_row d <? h - 1) || (cursor_col d =? 0) || (cursor_col d + 5 <=? w))
  && bool_decide (mouse_reporting_mode d ∈ MOUSE_REPORTING_NONE :: mouse_modes)
  && bool_decide (mouse_encoding_mode d ∈ MOUSE_ENCODING_DEFAULT :: enc_modes)
  && bool_decide (Forall osc_char (icon_name f)) && (length (icon_name f) <=? 254)%nat
  && bool_decide (Forall osc_char (window_title f)) && (length (window_title f) <=? 254)%nat
  && bool_decide (Forall osc_char (clipboard f)) && (lenZ (clipboard f) <=? MAXIMUM_CLIPBOARD_SIZE - 5).

Lemma graphemeb_ok s wd : graphemeb s wd = true -> grapheme s wd.
Proof.
  unfold graphemeb. destruct (decode_text _ _) as [[|c cs]|]; [done| |done]. intros H%bool_decide_eq_true. by exists c, cs.
Qed.

Lemma tidy_cellsb_lookup cs i c : tidy_cellsb cs = true -> cs !! i = Some c -> tidy_cellb c (cs !! S i) = true.
Proof.
  revert i. induction cs as [|c0 cs IH]; intros i; [done|]. cbn [tidy_cellsb]. intros [H0 H]%andb_true_iff Hi.
  destruct i as [|i]; [injection Hi as <-; by destruct cs|]. by apply IH.
Qed.

Lemma row_tidyb_ok w cs : row_tidyb w cs = true -> row_tidy w cs.
Proof.
  intros [Hl H]%andb_true_iff. apply Z.eqb_eq in Hl. split; [done|]. intros x c Hx. unfold lookupZ in Hx. case_decide; [|done].
  pose proof (tidy_cellsb_lookup cs _ c H Hx) as Hc. unfold tidy_cellb in Hc. rewrite !andb_true_iff, !bool_decide_eq_true in Hc.
  destruct Hc as [[[[Hr Hlk] Hg] Hp] Hw]. split_and!; [split_and!; [done|done|by apply graphemeb_ok]|done|]. intros Ew. rewrite Ew in Hw. cbn [implb] in Hw.
  destruct (cs !! S (Z.to_nat x)) as [c'|] eqn:E; [|done]. exists c'. split; [|by apply bool_decide_eq_true in Hw].
  unfold lookupZ. rewrite decide_True by lia. by replace (Z.to_nat (x + 1)) with (S (Z.to_nat x)) by lia.
Qed.

Lemma wraps_linkedb_ok w rs : wraps_linkedb w rs = true -> wraps_linked w rs.
Proof.
  induction rs as [|r rs IH]; [by intros _ i ? ? ?|]. destruct rs as [|r' rs]; [by intros _ i ? ? ? ?|]. intros [H0 H]%andb_true_iff i r1 r2.
  destruct i as [|i]; [|apply (IH H i)]. cbn. intros [= <-] [= <-] Hw. rewrite Hw in H0. cbn [implb] in H0.
  destruct (lookupZ (cells r') 0) as [c|]; [|done]. exists c. split; [done|]. by apply bool_decide_eq_true in H0.
Qed.

Lemma osc_scalar t : Forall osc_char t -> Forall (fun c => is_scalar c = true) t.
Proof. intros H. eapply Forall_impl; [exact H|]. by intros c []. Qed.

Lemma paintableb_ok w h f : paintableb w h f = true -> paintable w h f.
Proof.
  unfold paintableb. cbv zeta. rewrite !andb_true_iff, !orb_true_iff, !Z.eqb_eq, !Z.ltb_lt, !Z.leb_le, !bool_decide_eq_true, !Nat.leb_le.
  intros H. repeat match goal with H : _ /\ _ |- _ => destruct H end.
  assert (Ht : Forall (fun r => row_tidy w (cells r)) (rows f)).
  { apply Forall_forall. intros r Hr. apply row_tidyb_ok. rewrite forallb_forall in *. 
    match goal with H : forall x, _ -> row_tidyb _ _ = true |- _ => apply H end. by apply list_elem_of_In. }
  split; try done; try tauto; [|by apply wraps_linkedb_ok]. split; try done; [|by apply osc_scalar..].
  split; [done|]. eapply Forall_impl; [exact Ht|]. by intros r [].
Qed.
End decide_paintable.
