(* ===== verification/MirrorSpec.v ===== *)
(** * Following a terminal

    A client that shows what the host showed, and applies the difference to a
    later screen of the host, shows that screen: the composition of
    [Complete::diff_from], [Display::new_frame], [Complete::apply_string] and
    the whole of the emulator. *)
From S2P Require Export Paintable.

Section mirror_spec.
Context `{HL : Libc} `{HLL : !LibcLaws} (w h : Z).
Context (Hw : 2 < w <= PARAM_MAX) (Hh : 0 < h <= PARAM_MAX).

(** C30. A frame that is drawn is shown.  A client's terminal that shows a
    frame and interprets the octets [Display::new_frame] writes for the next
    frame of the same size shows that frame: every cell with its grapheme,
    renditions and hyperlink, the cursor, titles, clipboard and modes, whatever
    rows the frames share and whether or not the display erases, scrolls, wraps
    or moves by line feeds and backspaces.  The frames are [paintable]: wide
    cells are followed by blanks, a wrapped row goes on with the hyperlink it
    ended with, titles have at most 254 characters, and the cursor is not
    within four columns of the end of the last row, unless in column 0; the runs at the end of Mirror.v are of frames that are not. *)
Theorem new_frame_shown d last f addr_last addr_f g k :
  has_title d = true -> paintable w h last -> paintable w h f -> sharing_sound last f addr_last addr_f ->
  (title_initialized f = false -> icon_name f = icon_name last /\ window_title f = window_title last) ->
  shows w h k last ->
  exists s k', new_frame d true last f addr_last addr_f g = Ok s /\ act s k = Ok ([], k') /\ shows w h k' f.
Proof.
  intros Hti Hl Hf Hsh Hinit [Hk Hv]. destruct (new_frame_draws w h Hw Hh d last f g Hti Hl Hf Hinit) as (s & E & Hd).
  destruct (draws_act w h s _ _ k Hd Hk Hv) as (k' & Ea & Hk' & Hv' & _). exists s, k'.
  rewrite (new_frame_shared d true w h w h) by (done || by apply pb_ok). done.
Qed.

(** ** Messages *)

Lemma apply_instructions_app m m' k k1 :
  apply_instructions m k = Ok (tt, k1) -> apply_instructions (m ++ m') k = apply_instructions m' k1.
Proof.
  revert k. induction m as [|i m IH]; intros k; [by intros [= <-]|]. cbn [apply_instructions app]. unfold mbind, M_bind.
  destruct (apply_instruction i k) as [[[] k2]|]; [|done]. apply IH.
Qed.

(** Titles that a difference tells the client of. *)
Definition titles_sent (last f : Framebuffer) : Prop :=
  (title_initialized f = false -> icon_name f = icon_name last /\ window_title f = window_title last) /\
  (window_title last = window_title f -> icon_name last = icon_name f).

Lemma screen_message_shows last f k :
  paintable w h last -> paintable w h f -> titles_sent last f -> shows w h k last ->
  exists m k', screen_message [] [] last f = Ok m /\ Forall host_instruction_wf m /\
    apply_instructions m k = Ok (tt, k') /\ shows w h k' f /\
    echo_ack k' = echo_ack k /\ input_history k' = input_history k.
Proof.
  intros Hl Hf [Hinit _] [Hk Hv]. unfold screen_message.
  pose proof (pb_ok _ _ _ Hl) as Hlok. pose proof (pb_ok _ _ _ Hf) as Hfok.
  rewrite (Framebuffer_eqb_unshared w h) by done.
  rewrite (fo_width _ _ _ Hlok), (fo_width _ _ _ Hfok), (fo_height _ _ _ Hlok), (fo_height _ _ _ Hfok), !Z.eqb_refl.
  destruct (new_frame_draws w h Hw Hh Display_default last f 0 eq_refl Hl Hf Hinit) as (s & -> & Hd). cbn [mbind result_bind negb orb app].
  destruct (draws_act w h s _ _ k Hd Hk Hv) as (k' & Ea & Hk' & Hv' & He & Hi).
  case_bool_decide as Es.
  - exists [], k. split_and!; try done. subst s.
    destruct (Hd k Hk Hv) as (k2 & E & _ & Hv2 & _). cbn in E. injection E as <-. by split.
  - exists [MkHostInstruction (Some s) None None], k'. split_and!; try done; [by apply Forall_singleton|].
    cbn [apply_instructions apply_instruction hostbytes]. unfold mbind, M_bind. by rewrite Ea.
Qed.

(** ** A difference and its application *)

(** The client shows the host's screen and knows its acknowledgement. *)
Definition in_step (k s : Complete) : Prop := shows w h k (get_fb s) /\ echo_ack k = echo_ack s.

Lemma echo_message_applied s s' k :
  in_step k s -> echo_ack s <= echo_ack s' -> is_u64 (echo_ack s') ->
  exists m, echo_message s s' = Ok m /\ Forall host_instruction_wf m /\
    apply_instructions m k = Ok (tt, k <| echo_ack := echo_ack s' |>).
Proof.
  intros [_ Hk] Hle Hu. unfold echo_message. destruct (Z.eqb_spec (echo_ack s) (echo_ack s')) as [E|E].
  - exists []. split_and!; try done. cbn. rewrite <- E, <- Hk. by destruct k.
  - rewrite (proj2 (Z.leb_le _ _) Hle). exists [MkHostInstruction None None (Some (echo_ack s'))].
    split_and!; [done|by apply Forall_singleton|]. cbn. unfold mbind, M_bind, assert_, get. cbn. by rewrite Hk, (proj2 (Z.leb_le _ _) Hle).
Qed.

(** Applying a difference reaches its target.  For a screen of the host
    that the client follows and a later one, [diff_from] returns a message and
    [apply_string] accepts it: no assertion of either fails, and the client
    shows the later screen and has its echo acknowledgement.  What the two
    screens share, and which screens came in between, does not matter. *)
Theorem diff_applied `{HCL : HostCodecLaws} s s' k addr_s addr_s' :
  paintable w h (get_fb s) -> paintable w h (get_fb s') -> titles_sent (get_fb s) (get_fb s') ->
  sharing_sound (get_fb s) (get_fb s') addr_s addr_s' ->
  echo_ack s <= echo_ack s' -> is_u64 (echo_ack s') -> in_step k s ->
  exists diff k', complete_diff_from addr_s' addr_s s' s = Ok diff /\
    complete_apply_string diff k = Ok (tt, k') /\ in_step k' s'.
Proof.
  intros Hs Hs' Ht Hsh Hle Hu Hk. destruct (echo_message_applied s s' k Hk Hle Hu) as (m1 & E1 & W1 & A1).
  destruct Hk as [[Hc Hv] He].
  destruct (screen_message_shows (get_fb s) (get_fb s') (k <| echo_ack := echo_ack s' |>) Hs Hs' Ht) as (m2 & k' & E2 & W2 & A2 & Hk' & He' & _).
  { split; [|by destruct k]. by destruct k, Hc. }
  unfold complete_diff_from. rewrite E1, (screen_message_shared w h w h), E2 by (done || by apply pb_ok || apply Ht).
  cbn [mbind result_bind]. eexists _, k'. split; [done|]. unfold complete_apply_string.
  rewrite host_parse_serialize by by apply Forall_app. split; [|done]. by rewrite (apply_instructions_app m1 m2 k _ A1).
Qed.

(** ** Runs *)

Definition titles_sentb (last f : Framebuffer) : bool :=
  (title_initialized f || bool_decide (icon_name f = icon_name last /\ window_title f = window_title last))
  && bool_decide (window_title last = window_title f -> icon_name last = icon_name f).

Lemma titles_sentb_ok last f : titles_sentb last f = true -> titles_sent last f.
Proof.
  unfold titles_sentb. rewrite andb_true_iff, orb_true_iff, !bool_decide_eq_true. intros [[E|E] H]; split; try done. by rewrite E.
Qed.

(** The screens of a host that is written to, and not resized. *)
Fixpoint stays_paintable (evs : list host_event) (s : Complete) : bool :=
  paintableb w h (get_fb s) &&
  match evs with
  | [] => true
  | ResizeTo _ _ :: _ => false
  | Output o :: evs' =>
      match host_step (Output o) s with
      | Ok s' => titles_sentb (get_fb s) (get_fb s') && stays_paintable evs' s'
      | Err _ => false
      end
  end.

Lemma stays_paintable_head evs s : stays_paintable evs s = true -> paintable w h (get_fb s).
Proof. destruct evs; cbn [stays_paintable]; intros [H _]%andb_true_iff; by apply paintableb_ok. Qed.

(** C32. A client follows a host.  The host's terminal interprets any number of
    pieces of output, and after each of them the client applies the
    difference; when the host's screens are [paintable] the run returns, and
    the client shows what the host shows. *)
Theorem mirror_in_step evs : forall s k,
  stays_paintable evs s = true -> shows w h k (get_fb s) ->
  exists s' k', mirror_run evs s k = Ok (s', k') /\ shows w h k' (get_fb s').
Proof.
  induction evs as [|ev evs IH]; intros s k Hp Hk; [by exists s, k|].
  pose proof (stays_paintable_head _ _ Hp) as Hs. cbn [stays_paintable] in Hp. apply andb_true_iff in Hp as [_ Hp].
  destruct ev as [o|]; [|done]. destruct (host_step (Output o) s) as [s1|] eqn:E; [|done]. apply andb_true_iff in Hp as [Ht Hp].
  destruct (screen_message_shows (get_fb s) (get_fb s1) k Hs (stays_paintable_head _ _ Hp) (titles_sentb_ok _ _ Ht) Hk)
    as (m & k1 & Em & _ & Ea & Hk1 & _).
  cbn [mirror_run]. unfold mirror_step. rewrite E. cbn [mbind result_bind]. rewrite Em. cbn [mbind result_bind]. rewrite Ea. by apply IH.
Qed.
End mirror_spec.

(** ** A session

    Text that wraps, renditions, a wide and a combining character, a title, a
    hyperlink, line feeds that scroll, and mouse modes. *)
Definition sample_session : list host_event :=
  [Output (str "hello, world" ++ 27 :: str "[1;31m" ++ [0xE4; 0xB8; 0x80; 0x65; 0xCC; 0x81] ++ 27 :: str "[0m");
   Output (27 :: str "]0;title" ++ 7 :: 13 :: 10 :: 27 :: str "]8;;http://x" ++ 7 :: str "link" ++ 27 :: str "]8;;" ++ [7]);
   Output (13 :: 10 :: 10 :: str "x" ++ 27 :: str "[?1000h" ++ 27 :: str "[?25l");
   Output (27 :: str "[H" ++ 27 :: str "[2K" ++ 27 :: str "[44m ")].

Definition host_after (n : nat) : result fault Complete :=
  c ← Complete_new 10 4 0; '(s, _) ← mirror_run (take n sample_session) c c; Ok s.

Lemma new_client `{Libc} w h c : Complete_new w h 0 = Ok c -> shows w h c (get_fb c).
Proof.
  intros E. pose proof (Complete_new_inv w h 0 c E) as Hi. unfold Complete_new, Emulator_new, Framebuffer_new in E.
  destruct UTF8Parser_new as [p|] eqn:Ep; [|done]. cbn [mbind result_bind] in E.
  destruct ((0 <? h) && (0 <? w)); [|done]. cbn in E. injection E as <-. unfold UTF8Parser_new in Ep.
  case_bool_decide; [|done]. injection Ep as <-. split; [by split|done].
Qed.

Lemma no_sharing last f : sharing_sound last f [] [].
Proof.
  intros p q _ Hq. rewrite (row_pointers_unshared []) in Hq. apply list_elem_of_fmap in Hq as (q' & -> & _). by rewrite same_object_unshared.
Qed.

Lemma new_frame_shown_witness :
  exists k s, Complete_new 10 4 0 = Ok k /\ host_after 4 = Ok s /\
  exists u k', new_frame Display_default true (get_fb k) (get_fb s) [] [] 0 = Ok u /\ act u k = Ok ([], k') /\ shows 10 4 k' (get_fb s).
Proof.
  do 2 eexists. split; [vm_compute; reflexivity|]. split; [vm_compute; reflexivity|].
  apply new_frame_shown; [by unfold PARAM_MAX|by unfold PARAM_MAX|done|apply paintableb_ok; by vm_compute..| |done|by apply new_client].
  apply no_sharing.
Defined.

Lemma diff_applied_witness :
  exists s s0 k, Complete_new 10 4 0 = Ok s /\ host_after 3 = Ok s0 /\ Complete_new 10 4 0 = Ok k /\
  exists diff k', complete_diff_from [] [] (s0 <| echo_ack := 7 |>) s = Ok diff /\
    complete_apply_string diff k = Ok (tt, k') /\ in_step 10 4 k' (s0 <| echo_ack := 7 |>).
Proof.
  do 3 eexists. split; [vm_compute; reflexivity|]. split; [vm_compute; reflexivity|]. split; [vm_compute; reflexivity|].
  apply diff_applied; [by unfold PARAM_MAX|by unfold PARAM_MAX|apply _|apply paintableb_ok; by vm_compute..|by apply titles_sentb_ok|apply no_sharing|done|done|].
  split; [by apply new_client|done].
Defined.

Lemma mirror_in_step_witness :
  exists s, Complete_new 10 4 0 = Ok s /\
  exists s' k', mirror_run sample_session s s = Ok (s', k') /\ shows 10 4 k' (get_fb s').
Proof.
  eexists. split; [vm_compute; reflexivity|].
  apply mirror_in_step; [by unfold PARAM_MAX|by unfold PARAM_MAX|by vm_compute|by apply new_client].
Defined.
