(* ===== verification/CompleteLaws.v ===== *)
(** * The terminal keeps its promises to the transport

    [Terminal::Complete] as the object a host sends: its meaning is the list of
    the terminals it has been, a receiver shows the last of them, and the
    differences that [Complete::diff_from] takes between any two of them bring
    a client from one to the other.  The terminals are [paintable] and of one
    size, and their titles tell their icon names apart. *)
From stdpp Require Import sorting.
From S2P Require Export MirrorSpec.

(** ** What a difference depends on *)

(** A frame with what [new_frame] and [operator==] do not look at left out. *)
Definition compared_ds (d : DrawState) : DrawState :=
  MkDrawState (width d) (height d) (cursor_col d) (cursor_row d) 0 0 true [] 0 0 (ds_renditions d) (ds_hyperlink d) SavedCursor_new
    false false true false (cursor_visible d) (reverse_video d) (bracketed_paste d) (mouse_reporting_mode d) (mouse_focus_event d)
    (mouse_alternate_scroll d) (mouse_encoding_mode d) false.
Definition compared (f : Framebuffer) : Framebuffer := f <| ds := compared_ds (ds f) |>.

Lemma DrawState_eqb_compared x y : DrawState_eqb x y = true -> compared_ds x = compared_ds y.
Proof.
  unfold DrawState_eqb, Hyperlink_eqb. rewrite !andb_true_iff, !Z.eqb_eq, !eqb_true_iff, !bool_decide_eq_true.
  intros [[[[[[[[[[[[E1 E2] E3] E4] E5] E6] E7] E8] E9] E10] E11] E12] E13]. unfold compared_ds.
  by rewrite E1, E2, E3, E4, E5, E6, E7, E8, E9, E10, E11, E12, E13.
Qed.

Lemma put_rows_compared d i f frows n : forall rs y wrap fr,
  put_rows_from n d i (compared f) frows rs y wrap fr = put_rows_from n d i f frows rs y wrap fr.
Proof.
  induction n as [|n IH]; intros rs y wrap fr; cbn [put_rows_from]; [done|].
  destruct (at_ rs y); [|done]. destruct (at_ frows y); [|done]. cbn [mbind result_bind].
  change (put_row d i (compared f)) with (put_row d i f). destruct (put_row _ _ _ _ _ _ _ _) as [[w' fr']|]; [apply IH|done].
Qed.

Lemma new_frame_compared d last f g : new_frame d true last (compared f) [] [] g = new_frame d true last f [] [] g.
Proof.
  unfold new_frame. change (frame_head d true last (compared f)) with (frame_head d true last f).
  destruct (frame_head d true last f) as [fr|]; [|done]. cbn [mbind result_bind].
  change (frame_size true last (compared f) fr) with (frame_size true last f fr).
  destruct (frame_size true last f fr) as [i fr1].
  change (extend_rows last (compared f) g (row_pointers [] last)) with (extend_rows last f g (row_pointers [] last)).
  change (frame_scroll i (compared f) g) with (frame_scroll i f g).
  destruct (frame_scroll _ _ _ _ _) as [[[y rs] fr2]|]; [|done]. cbn [mbind result_bind].
  change (height (ds (compared f))) with (height (ds f)). change (row_pointers [] (compared f)) with (row_pointers [] f).
  rewrite put_rows_compared. by destruct (put_rows_from _ _ _ _ _ _ _ _ _).
Qed.

Lemma shown_compared f : shown (compared f) = shown f.
Proof. by destruct f as [? ? ? ? ? ? []]. Qed.

(** ** The meaning of a host's terminal *)

(** What the client must be told, and is. *)
Definition tells (s s' : Complete) : Prop :=
  titles_sent (get_fb s) (get_fb s') /\
  (window_title (get_fb s) = window_title (get_fb s') -> title_initialized (get_fb s) = title_initialized (get_fb s')) /\
  echo_ack s <= echo_ack s'.

Section trace.
Context `{HL : Libc}.

Definition screen_ok (w h : Z) (s : Complete) : Prop := paintable w h (get_fb s) /\ is_u64 (echo_ack s).

(** The terminals a host's terminal has been, one after the other. *)
Definition trace_ok (w h : Z) (l : list Complete) : Prop := Forall (screen_ok w h) l /\ StronglySorted tells l.

(** What the difference and a client tell of the last one. *)
Definition visible (l : list Complete) : option (Framebuffer * Z) := (fun s => (compared (get_fb s), echo_ack s)) <$> last l.

Lemma tells_refl s : tells s s.
Proof. repeat split; auto; lia. Qed.

Lemma trace_prefix w h l k : trace_ok w h (l ++ k) -> trace_ok w h l.
Proof. intros [[H1 _]%Forall_app (_ & H2 & _)%StronglySorted_app]. by split. Qed.

Lemma trace_tells w h l0 l s0 s :
  trace_ok w h l -> l0 `prefix_of` l -> last l0 = Some s0 -> last l = Some s -> tells s0 s.
Proof.
  intros [_ Hs] [k ->] [l' ->]%last_Some Hl. destruct k as [|x k] using rev_ind.
  - rewrite app_nil_r, last_snoc in Hl. injection Hl as <-. apply tells_refl.
  - rewrite app_assoc, last_snoc in Hl. injection Hl as <-. rewrite app_assoc in Hs.
    apply StronglySorted_app in Hs as (Hs & _). apply Hs; [|apply list_elem_of_here].
    apply elem_of_app. left. apply elem_of_app. right. apply list_elem_of_here.
Qed.

Lemma trace_last w h l s : trace_ok w h l -> last l = Some s -> screen_ok w h s.
Proof. intros [H _] [l' ->]%last_Some. by apply Forall_app in H as [_ [? _]%Forall_cons]. Qed.
End trace.

(** ** The laws *)

Section laws.
Context `{HL : Libc} `{HLL : !LibcLaws} `{HC : HostCodec} `{HCL : !HostCodecLaws} (w h : Z) (addr : Complete -> list Z).
Context (Hw : 2 < w <= PARAM_MAX) (Hh : 0 < h <= PARAM_MAX).
Context (Haddr : forall x y, sharing_sound (get_fb x) (get_fb y) (addr x) (addr y)).
#[local] Instance host_sync : SyncState Complete := CompleteSync addr.

Lemma screen_message_eq s0 s :
  screen_ok w h s0 -> screen_ok w h s -> tells s0 s ->
  screen_message (addr s0) (addr s) (get_fb s0) (get_fb s) =
    (update ← new_frame Display_default true (get_fb s0) (compared (get_fb s)) [] [] 0;
     Ok (if bool_decide (update = []) then [] else [MkHostInstruction (Some update) None None])).
Proof.
  intros [H0 _] [H1 _] (Ht & _ & _). pose proof (pb_ok _ _ _ H0) as Hf0. pose proof (pb_ok _ _ _ H1) as Hf1.
  rewrite (screen_message_shared w h w h) by (done || apply Haddr || apply Ht). unfold screen_message.
  rewrite (Framebuffer_eqb_unshared w h) by done.
  rewrite (fo_width _ _ _ Hf0), (fo_width _ _ _ Hf1), (fo_height _ _ _ Hf0), (fo_height _ _ _ Hf1), !Z.eqb_refl.
  by rewrite new_frame_compared.
Qed.

Lemma diff_exists s0 s :
  screen_ok w h s0 -> screen_ok w h s -> tells s0 s -> exists d, complete_diff_from (addr s) (addr s0) s s0 = Ok d.
Proof.
  intros H0 H1 Ht. unfold complete_diff_from. rewrite screen_message_eq, new_frame_compared by done.
  destruct H0 as [H0 _], H1 as [H1 _], Ht as ([Hi _] & _ & Hle).
  destruct (new_frame_draws w h Hw Hh Display_default _ _ 0 eq_refl H0 H1 Hi) as (u & -> & _).
  unfold echo_message. destruct (Z.eqb_spec (echo_ack s0) (echo_ack s)); [by eexists|].
  rewrite (proj2 (Z.leb_le _ _) Hle). by eexists.
Qed.

Lemma empty_diff k : complete_apply_string [] k = Ok (tt, k).
Proof.
  unfold complete_apply_string. rewrite <- host_serialize_empty, host_parse_serialize by constructor. done.
Qed.

Lemma in_step_visible k s s' :
  compared (get_fb s) = compared (get_fb s') -> echo_ack s = echo_ack s' -> in_step w h k s -> in_step w h k s'.
Proof.
  intros Ef Ee [[Hc Hv] He]. split; [|by rewrite <- Ee]. split; [done|]. by rewrite <- shown_compared, <- Ef, shown_compared.
Qed.

(** [operator==] on two terminals of a trace. *)
Lemma complete_eqb_visible s0 s :
  tells s0 s -> Complete_eqb (addr s) (addr s0) s s0 = true ->
  compared (get_fb s0) = compared (get_fb s) /\ echo_ack s0 = echo_ack s.
Proof.
  intros ((_ & Hicon) & Hinit & _). unfold Complete_eqb, Framebuffer_eqb. rewrite !andb_true_iff, !bool_decide_eq_true, !Z.eqb_eq.
  intros [[[[[Er Et] Ec] Eb] Ed] Ee]. symmetry in Et. specialize (Hicon Et). specialize (Hinit Et).
  apply (rows_eqb_rows _ _ _ _ (Haddr _ _)) in Er. apply DrawState_eqb_compared in Ed. split; [|done].
  unfold compared. destruct (get_fb s0), (get_fb s). cbn in *. subst. by rewrite Ed.
Qed.

(** The terminals are those of one trace. *)
Context (full : list Complete) (Hfull : trace_ok w h full).

Lemma part_ok l : l `prefix_of` full -> trace_ok w h l.
Proof. intros [k Hk]. rewrite Hk in Hfull. by apply trace_prefix in Hfull. Qed.

#[local] Program Instance host_laws : SyncLaws Complete := {
  meaning := list Complete;
  prec := prefix;
  same f g := visible f = visible g;
  repr _ s f := last f = Some s /\ f `prefix_of` full;
  held _ r f := exists s, last f = Some s /\ in_step w h r s;
}.
Next Obligation. split; [by intros f|by intros f g|intros f g k E1 E2; by rewrite E1]. Qed.
Next Obligation. intros b s f s0 f0 H _ _. by exists s. Qed.
Next Obligation. done. Qed.
Next Obligation.
  intros b s f s0 f0 [Hs Hf%part_ok] [Hs0 _] Hp Heq. unfold visible. rewrite Hs, Hs0. cbn.
  by destruct (complete_eqb_visible s0 s (trace_tells _ _ _ _ _ _ Hf Hp Hs0 Hs) Heq) as [-> ->].
Qed.
Next Obligation.
  intros b s f s0 f0 [Hs Hf%part_ok] [Hs0 Hf0%part_ok] Hp.
  pose proof (trace_last _ _ _ _ Hf Hs) as Hok. pose proof (trace_last _ _ _ _ Hf0 Hs0) as Hok0.
  pose proof (trace_tells _ _ _ _ _ _ Hf Hp Hs0 Hs) as Ht. destruct (diff_exists s0 s Hok0 Hok Ht) as (d & Ed).
  exists d. split; [exact Ed|]. intros _ r (s0' & Hs0' & Hr). rewrite Hs0 in Hs0'. injection Hs0' as <-.
  destruct Ht as (Ht & _ & Hle).
  destruct (diff_applied w h Hw Hh s0 s r (addr s0) (addr s) (proj1 Hok0) (proj1 Hok) Ht (Haddr _ _) Hle (proj2 Hok) Hr)
    as (d' & k' & Ed' & Ea & Hk'). rewrite Ed in Ed'. injection Ed' as <-. exists k'. split; [|by exists s].
  case_decide as Hd; [|by cbn; rewrite Ea]. subst d. rewrite empty_diff in Ea. by injection Ea as ->.
Qed.
Next Obligation.
  intros b r f g Hfg (s & Hs & Hr). unfold visible in Hfg. rewrite Hs in Hfg. destruct (last g) as [s'|]; [|done].
  apply (inj Some), pair_equal_spec in Hfg as [E1 E2]. exists s'. split; [done|]. by apply (in_step_visible r s).
Qed.

#[local] Instance host_determined : DiffDetermined Complete.
Proof.
  split.
  - intros b s f s0 f0 b' s' f' s0' [Hs Hf%part_ok] [Hs0 Hf0%part_ok] [Hs' Hf'%part_ok] [Hs0' _] Hsame Hp Hp'.
    rewrite Hs0 in Hs0'. injection Hs0' as <-. unfold same, host_laws, visible in Hsame. rewrite Hs, Hs' in Hsame.
    apply (inj Some), pair_equal_spec in Hsame as [Ef Ee]. pose proof (trace_last _ _ _ _ Hf0 Hs0) as Hok0.
    cbn [diff_from host_sync CompleteSync]. unfold complete_diff_from, echo_message.
    rewrite (screen_message_eq s0 s), (screen_message_eq s0 s');
      [by rewrite Ef, Ee|done|by apply (trace_last w h f')|by apply (trace_tells w h f0 f')|done
      |by apply (trace_last w h f)|by apply (trace_tells w h f0 f)].
  - intros b s f s0 [Hs Hf%part_ok] [Hs0 _]. rewrite Hs in Hs0. injection Hs0 as <-. pose proof (trace_last _ _ _ _ Hf Hs) as Hok.
    cbn [diff_from host_sync CompleteSync]. unfold complete_diff_from, echo_message. rewrite Z.eqb_refl.
    rewrite screen_message_eq, new_frame_compared by (done || apply tells_refl).
    rewrite (new_frame_same _ w h); [|apply (pb_ok w h), Hok|done..|].
    2:{ unfold DrawState_eqb, Hyperlink_eqb. by rewrite !Z.eqb_refl, !eqb_reflx, !bool_decide_true by done. }
    cbn. by rewrite host_serialize_empty.
Qed.
End laws.
