(* ===== verification/SspSpec.v ===== *)
(** * A session over an unreliable network

    The configuration of the program: a client sends the stream of what its
    user types, a host the terminals it shows, each end with the transport of
    Ssp.v; the network loses, delays, duplicates and reorders what it likes. *)
From S2P Require Export CompleteLaws Ssp.

(** ** What happens in a session *)

(** The user types (or resizes the window), the terminal of the host has a new
    screen, the two senders are driven (ticks, waits, acknowledgements, a
    shutdown, port hops: anything but edits), an instruction that the other end
    once sent arrives, and the host takes the new events to its terminal. *)
Inductive session_op : Type :=
| Types (e : UserEvent)
| Draws (s : Complete)
| ClientDoes (op : sender_op (S := UserStream))
| HostDoes (op : sender_op (S := Complete))
| ClientGets (now : Z) (k : nat)
| HostGets (now : Z) (k : nat)
| HostReads.

(** The host hands a terminal over as [set_current_state] does. *)
Definition session_step (op : session_op) : sys_op UserStream Complete :=
  match op with
  | Types e => AtClient (SenderOp (EditState (push_back e)))
  | Draws s => AtHost (SenderOp (EditState (fun _ => complete_reset_input s)))
  | ClientDoes op => AtClient (SenderOp op)
  | HostDoes op => AtHost (SenderOp op)
  | ClientGets now k => AtClient (Deliver now k)
  | HostGets now k => AtHost (Deliver now k)
  | HostReads => AtHost Query
  end.

(** What the user typed, and what the host showed. *)
Definition typed (ops : list session_op) : UserStream :=
  omap (fun op => match op with Types e => Some e | _ => None end) ops.
Definition drawn (ops : list session_op) : list Complete :=
  omap (fun op => match op with Draws s => Some (complete_reset_input s) | _ => None end) ops.

Definition is_edit {A} (op : sender_op (S := A)) : bool := match op with EditState _ => true | _ => false end.
Definition edits_nothing (op : session_op) : bool :=
  match op with ClientDoes op => negb (is_edit op) | HostDoes op => negb (is_edit op) | _ => true end.

Notation client_sender ops := (sender_ops (client_ops (session_step <$> ops))).
Notation host_sender ops := (sender_ops (host_ops (session_step <$> ops))).

(** The clocks do not go back, window sizes are sizes, nothing is typed or
    drawn after the shutdown of the end that sends it, and there are fewer
    operations than state numbers. *)
Record session_ok (now : Z) (ops : list session_op) : Prop := {
  so_edits : forallb edits_nothing ops = true;
  so_events : Forall event_wf (typed ops);
  so_client : clock_ok now false (client_sender ops);
  so_host : clock_ok now false (host_sender ops);
  so_count : Z.of_nat (length ops) < UINT64_MAX }.

(** ** Each end keeps the rules of its object *)

Section edits.
Context `{HUC : UserCodec} `{HUCL : !UserCodecLaws}.

Lemma client_edits ops : forall f : UserStream,
  forallb edits_nothing ops = true -> Forall event_wf (typed ops) ->
  edits_ok (S := UserStream) f (client_sender ops) /\ edits (client_sender ops) f = f ++ typed ops.
Proof.
  induction ops as [|op ops IH]; intros f He Hwf; [by rewrite app_nil_r|].
  cbn [forallb] in He. apply andb_true_iff in He as [Hop He]. destruct op as [e|s|op|op| | |]; cbn in Hwf |- *; try by apply IH.
  - apply Forall_cons in Hwf as [Hev Hwf]. destruct (IH (push_back e f) He Hwf) as [H1 H2]. split.
    + exists (push_back e f). split; [by apply extends_push|exact H1].
    + etransitivity; [exact H2|]. unfold push_back. by rewrite <- app_assoc.
  - destruct op; try done; by apply IH.
Qed.
End edits.

Section session.
Context `{HL : Libc} `{HLL : !LibcLaws} `{HC : HostCodec} `{HCL : !HostCodecLaws} (w h : Z) (addr : Complete -> list Z).
Context (Hw : 2 < w <= PARAM_MAX) (Hh : 0 < h <= PARAM_MAX).
Context (Haddr : forall x y, sharing_sound (get_fb x) (get_fb y) (addr x) (addr y)).
#[local] Instance screens_sync : SyncState Complete := CompleteSync addr.

Section host_edits.
Context (full : list Complete) (Hfull : trace_ok w h full).
#[local] Instance screens_laws : SyncLaws Complete := host_laws w h addr Hw Hh Haddr full Hfull.
#[local] Instance screens_determined : DiffDetermined Complete := host_determined w h addr Hw Hh Haddr full Hfull.

Lemma extends_draw f s : f ++ [s] `prefix_of` full -> extends (S := Complete) (fun _ => s) f (f ++ [s]).
Proof. intros Hf b s0 _. split; [by exists [s]|]. split; [apply last_snoc|done]. Qed.

Lemma host_edits ops : forall f s,
  forallb edits_nothing ops = true -> f ++ drawn ops = full -> last f = Some s ->
  edits_ok (S := Complete) f (host_sender ops) /\ last full = Some (edits (host_sender ops) s).
Proof.
  induction ops as [|op ops IH]; intros f s He Hf Hs; [rewrite <- Hf; cbn; by rewrite app_nil_r|].
  cbn [forallb] in He. apply andb_true_iff in He as [Hop He]. destruct op as [e|x|op|op| | |]; cbn in Hf |- *; try by apply IH.
  - rewrite cons_middle, app_assoc in Hf.
    destruct (IH (f ++ [complete_reset_input x]) (complete_reset_input x) He Hf ltac:(apply last_snoc)) as [H1 H2].
    split; [|exact H2]. eexists. split; [apply extends_draw; by eexists|exact H1].
  - destruct op; try done; by apply IH.
Qed.
End host_edits.

(** ** A whole session *)

Context `{HUC : UserCodec} `{HUCL : !UserCodecLaws} `{HAE : AE} `{HTC : TransportCodec} `{HTCL : !TransportCodecLaws}.
(** What a host has taken of its client's events. *)
Lemma half_taken K (x : Side UserStream Complete) (y : Side Complete UserStream) evs :
  half (A := UserStream) (HLA := UserStream_laws) [] [] [] K x y -> doc x = evs -> copy y `prefix_of` evs.
Proof.
  intros Hxy <-. destruct (half_copy (HLA := UserStream_laws) _ _ _ _ _ Hxy) as (f & g & [Hf _] & [Hg _] & Hp).
  cbn in Hf, Hg. by rewrite <- Hf, <- Hg.
Qed.

Notation Session := (System UserStream Complete).

Definition session_start (now : Z) (c1 c2 : Connection) (y : Complete) : Session := system_new now c1 c2 [] y.
Definition run_session (ops : list session_op) (s : Session) : result fault Session := run_system (session_step <$> ops) s.

Lemma session_queries `{HLB : !SyncLaws Complete} ops : queries_ok (session_step <$> ops).
Proof. apply Forall_fmap, Forall_true. intros []; cbn; done || (intros _; apply _). Qed.

(** The client that has not heard of its host shows the first terminal. *)
Lemma start_in_step y : Complete_new w h 0 = Ok y -> in_step w h y y.
Proof. intros Hy. split; [by apply new_client|done]. Qed.

Lemma session_inv now c1 c2 y ops :
  Complete_new w h 0 = Ok y -> forall Hfull : trace_ok w h (y :: drawn ops), session_ok now ops ->
  conn_ok c1 -> conn_ok c2 -> 0 <= now ->
  exists s K, run_session ops (session_start now c1 c2 y) = Ok s /\
    sys_inv (HLA := UserStream_laws) (HLB := screens_laws _ Hfull) [] [] [] K s /\
    doc (client s) = typed ops /\ last (y :: drawn ops) = Some (doc (host s)).
Proof.
  intros Hy Hfull [He Hev Hc Hh' Hn] Hc1 Hc2 Hnow.
  destruct (client_edits ops [] He Hev) as [He1 Hd1]. destruct (host_edits _ Hfull ops [y] y He eq_refl eq_refl) as [He2 Hd2].
  destruct (system_inv (HLA := UserStream_laws) (HLB := screens_laws _ Hfull) (HDB := screens_determined _ Hfull) [] [] now c1 c2 ([] : UserStream) y [] [y]
    (session_step <$> ops)) as (s & K & E & Hi & D1 & D2); try done.
  - split; [done|]. by exists (drawn ops).
  - exists y. split; [done|]. by apply start_in_step.
  - apply session_queries.
  - by rewrite length_fmap.
  - exists s, K. split_and!; [done|exact Hi|by rewrite D1, Hd1|by rewrite D2].
Qed.

(** C23. Two ends that start together with the same blank terminal run without
    a fault whatever the network loses, delays, repeats or reorders, and show
    each other nothing else than what was sent: the host has taken a prefix of
    what the user typed, and the client's latest terminal shows one of the
    terminals of the host (cells, cursor, modes, titles, echo acknowledgement).
    The terminals of the host are of one size, paintable, tell their icon names
    apart by their titles, share only equal rows ([addr]), and their echo
    acknowledgements do not go back. *)
Theorem ssp_sync now c1 c2 y ops :
  Complete_new w h 0 = Ok y -> trace_ok w h (y :: drawn ops) -> session_ok now ops ->
  conn_ok c1 -> conn_ok c2 -> 0 <= now ->
  exists s, run_session ops (session_start now c1 c2 y) = Ok s /\
    doc (client s) = typed ops /\ last (y :: drawn ops) = Some (doc (host s)) /\
    copy (host s) `prefix_of` typed ops /\
    exists r shown, get_latest_remote_state (transport (client s)) = Ok r /\
      shown ∈ y :: drawn ops /\ in_step w h (r_state r) shown.
Proof.
  intros Hy Hfull Hok Hc1 Hc2 Hnow.
  destruct (session_inv now c1 c2 y ops Hy Hfull Hok Hc1 Hc2 Hnow) as (s & K & E & [H1 H2] & Hd1 & Hd2).
  exists s. split_and!; [done..|exact (half_taken _ _ _ _ H1 Hd1)|].
  destruct (half_latest (HLA := screens_laws _ Hfull) _ _ _ _ _ H2) as (r & b' & f & g & El & (x & Hx & Hr) & (_ & Hg) & Hp).
  exists r, x. split_and!; [done| |done]. destruct Hp as [k ->], Hg as [k' ->], (proj1 (last_Some _ _) Hx) as [f' ->].
  apply elem_of_app. left. apply elem_of_app. left. apply elem_of_app. right. apply list_elem_of_here.
Qed.

(** C24. In such a session, once the host's sender has nothing left to send and
    its last state has arrived, the client's latest terminal shows the last
    terminal of the host. *)
Theorem ssp_converges now c1 c2 y ops s :
  Complete_new w h 0 = Ok y -> trace_ok w h (y :: drawn ops) -> session_ok now ops ->
  conn_ok c1 -> conn_ok c2 -> 0 <= now ->
  run_session ops (session_start now c1 c2 y) = Ok s -> caught_up (host s) (client s) = true ->
  exists r x, get_latest_remote_state (transport (client s)) = Ok r /\
    last (y :: drawn ops) = Some x /\ in_step w h (r_state r) x.
Proof.
  intros Hy Hfull Hok Hc1 Hc2 Hnow Hrun Hcu.
  destruct (session_inv now c1 c2 y ops Hy Hfull Hok Hc1 Hc2 Hnow) as (s' & K & E & [_ H2] & _ & Hd).
  rewrite Hrun in E. injection E as <-.
  destruct (latest_caught_up (HLA := screens_laws _ Hfull) _ _ _ _ _ H2 Hcu) as (r & b' & f & El & (x & Hx & Hr) & (Hl & _)).
  exists r, x. split_and!; [done| |done]. by rewrite Hd, <- Hx, Hl.
Qed.

(** C25. The host takes what the user typed in order, each event once: what it
    has taken is a prefix, and the whole of it after its next read once the
    client's sender has nothing left to send and its last state has arrived. *)
Theorem keystrokes_in_order now c1 c2 y ops s :
  Complete_new w h 0 = Ok y -> trace_ok w h (y :: drawn ops) -> session_ok now ops ->
  conn_ok c1 -> conn_ok c2 -> 0 <= now ->
  run_session ops (session_start now c1 c2 y) = Ok s ->
  copy (host s) `prefix_of` typed ops /\
  (caught_up (client s) (host s) = true ->
   exists s', run_session [HostReads] s = Ok s' /\ copy (host s') = typed ops).
Proof.
  intros Hy Hfull Hok Hc1 Hc2 Hnow Hrun.
  destruct (session_inv now c1 c2 y ops Hy Hfull Hok Hc1 Hc2 Hnow) as (s1 & K & E & [H1 _] & Hd & _).
  rewrite Hrun in E. injection E as <-. split; [exact (half_taken _ _ _ _ H1 Hd)|]. intros Hcu.
  destruct (query_caught_up (HLA := UserStream_laws) _ _ _ _ _ (sent (client s)) H1 Hcu) as (y' & E & f & [Hc _] & [Hx _]).
  exists (MkSystem (client s) y'). unfold run_session. cbn -[side_step]. rewrite E. split; [done|]. cbn. cbn in Hc, Hx.
  by rewrite <- Hc, Hx, Hd.
Qed.
End session.

(** ** Runs *)

Definition tellsb (s s' : Complete) : bool :=
  titles_sentb (get_fb s) (get_fb s') &&
  (negb (bool_decide (window_title (get_fb s) = window_title (get_fb s'))) ||
   eqb (title_initialized (get_fb s)) (title_initialized (get_fb s'))) &&
  (echo_ack s <=? echo_ack s').

Fixpoint trace_okb `{Libc} (w h : Z) (l : list Complete) : bool :=
  match l with
  | [] => true
  | s :: l' => paintableb w h (get_fb s) && (0 <=? echo_ack s) && (echo_ack s <? 2 ^ 64) && forallb (tellsb s) l' && trace_okb w h l'
  end.

Lemma trace_okb_ok `{Libc} w h l : trace_okb w h l = true -> trace_ok w h l.
Proof.
  induction l as [|s l IH]; cbn [trace_okb]; [by repeat constructor|].
  rewrite !andb_true_iff, Z.leb_le, Z.ltb_lt, forallb_forall. intros [[[[Hp H0] H1] Ht] [Hl Hs]%IH]. split.
  - constructor; [|done]. split; [by apply paintableb_ok|done].
  - constructor; [done|]. apply Forall_forall. intros s' Hs'%list_elem_of_In. specialize (Ht s' Hs'). unfold tellsb in Ht.
    rewrite !andb_true_iff, orb_true_iff, negb_true_iff, bool_decide_eq_false, eqb_true_iff, Z.leb_le in Ht.
    destruct Ht as [[Ht%titles_sentb_ok Hi] He]. split_and!; [done| |done]. intros E. by destruct Hi.
Qed.

(** A user types two characters and the host draws two screens; the first
    difference each end sends is lost or late. *)
Definition screen_after (n : nat) : list Complete :=
  match host_after n with Ok s => [s <| echo_ack := Z.of_nat n |>] | Err _ => [] end.

Definition remote_session : list session_op :=
  [Types (UserByteEvent 65); ClientDoes (Tick 1010 sample_env); ClientDoes (Tick 1020 sample_env)]
  ++ (Draws <$> screen_after 1) ++ [HostDoes (Tick 1030 sample_env); HostDoes (Tick 1050 sample_env)]
  ++ [Types (UserByteEvent 66); ClientDoes (Tick 1300 sample_env); ClientDoes (Tick 1310 sample_env); HostGets 1320 1; HostReads]
  ++ (Draws <$> screen_after 3) ++ [HostDoes (Tick 1400 sample_env); HostDoes (Tick 1500 sample_env);
    HostGets 1510 0; HostGets 1520 0; HostReads; ClientGets 1600 1; ClientGets 1610 0].

(** Rows that are kept are shared: one address for each row of a table. *)
Definition row_addr (table : list Row) (r : Row) : Z :=
  match list_find (r =.) table with Some (i, _) => Z.of_nat i + 1 | None => 0 end.
Definition addr_in (table : list Row) (s : Complete) : list Z := row_addr table <$> rows (get_fb s).

Lemma row_addr_inj table r r' : row_addr table r = row_addr table r' -> row_addr table r <> 0 -> r = r'.
Proof.
  unfold row_addr. destruct (list_find (r =.) table) as [[i x]|] eqn:E; [|done].
  destruct (list_find (r' =.) table) as [[j x']|] eqn:E'; [|lia]. apply list_find_Some in E as (E & -> & _), E' as (E' & -> & _).
  intros Hij _. replace j with i in E' by lia. congruence.
Qed.

Lemma row_pointers_in table s p :
  p ∈ row_pointers (addr_in table s) (get_fb s) -> p.1 = row_addr table p.2.
Proof.
  unfold row_pointers, addr_in. rewrite elem_of_lookup_imap. intros (i & r & -> & Hr). cbn.
  by rewrite list_lookup_fmap, Hr.
Qed.

Lemma addr_in_sound table x y : sharing_sound (get_fb x) (get_fb y) (addr_in table x) (addr_in table y).
Proof.
  intros p q Hp%row_pointers_in Hq%row_pointers_in Hs. unfold same_object in Hs. rewrite andb_true_iff, Z.eqb_eq, negb_true_iff, Z.eqb_neq in Hs.
  destruct Hs as [Hs H0]. rewrite Hp, Hq in Hs. rewrite Hq in H0. by apply (row_addr_inj table).
Qed.

Definition session_rows : list Row := drawn remote_session ≫= fun s => rows (get_fb s).

Notation remote_addr_in := (addr_in session_rows).
Notation remote_run y := (run_session remote_addr_in remote_session (session_start 1000 sample_conn sample_conn y)).
Notation remote_host_caught_up := (caught_up (HA := screens_sync remote_addr_in)).

Example remote_session_run :
  match Complete_new 10 4 0 with
  | Ok y =>
      match remote_run y with
      | Ok s =>
          (trace_okb 10 4 (y :: drawn remote_session), copy (host s), caught_up (client s) (host s),
           remote_host_caught_up (host s) (client s),
           (fun i => (old_num i, new_num i, ack_num i)) <$> sent (client s),
           (fun i => (old_num i, new_num i, ack_num i)) <$> sent (host s),
           match get_latest_remote_state (transport (client s)) with Ok r => echo_ack (r_state r) | Err _ => 0 end)
      | Err _ => (false, [], false, false, [], [], 0)
      end
  | Err _ => (false, [], false, false, [], [], 0)
  end = (true, [UserByteEvent 65; UserByteEvent 66], true, true, [(0, 1, 0); (0, 2, 0)], [(0, 1, 0); (0, 2, 2)], 3).
Proof. vm_compute. reflexivity. Qed.

Lemma sample_conn_ok : conn_ok sample_conn.
Proof. split; [done|]. split; [done|]. cbn. unfold DEFAULT_SEND_MTU. lia. Qed.

Lemma remote_session_ok : session_ok 1000 remote_session.
Proof.
  split; [by vm_compute| | | |by vm_compute].
  - change (typed remote_session) with [UserByteEvent 65; UserByteEvent 66]. by repeat constructor.
  - vm_compute. split_and!; done.
  - vm_compute. split_and!; done.
Qed.

Lemma remote_trace_ok y : Complete_new 10 4 0 = Ok y -> trace_ok 10 4 (y :: drawn remote_session).
Proof.
  intros Ey. apply trace_okb_ok.
  assert (H : match Complete_new 10 4 0 with Ok y => trace_okb 10 4 (y :: drawn remote_session) | Err _ => false end = true)
    by (vm_compute; reflexivity).
  by rewrite Ey in H.
Qed.

Lemma remote_caught_up y :
  Complete_new 10 4 0 = Ok y -> exists s, remote_run y = Ok s /\ remote_host_caught_up (host s) (client s) = true.
Proof.
  intros Ey.
  assert (H : match Complete_new 10 4 0 with
              | Ok y => match remote_run y with Ok s => remote_host_caught_up (host s) (client s) | Err _ => false end
              | Err _ => false end = true) by (vm_compute; reflexivity).
  rewrite Ey in H. destruct (remote_run y) as [s|]; [|discriminate H]. by exists s.
Qed.

Lemma first_screen : exists y, Complete_new 10 4 0 = Ok y.
Proof. eexists. vm_compute. reflexivity. Qed.

Lemma sample_size : (2 < 10 <= PARAM_MAX) /\ (0 < 4 <= PARAM_MAX) /\ 0 <= 1000.
Proof. unfold PARAM_MAX. lia. Qed.

Lemma ssp_sync_witness :
  exists y, Complete_new 10 4 0 = Ok y /\ exists s, remote_run y = Ok s /\
    doc (client s) = typed remote_session /\ last (y :: drawn remote_session) = Some (doc (host s)) /\
    copy (host s) `prefix_of` typed remote_session /\
    exists r shown, get_latest_remote_state (transport (client s)) = Ok r /\
      shown ∈ y :: drawn remote_session /\ in_step 10 4 (r_state r) shown.
Proof.
  destruct sample_size as (Hw & Hh & Hnow), first_screen as [y Ey]. exists y. split; [exact Ey|].
  exact (ssp_sync 10 4 remote_addr_in Hw Hh (addr_in_sound session_rows) 1000 sample_conn sample_conn y remote_session
    Ey (remote_trace_ok y Ey) remote_session_ok sample_conn_ok sample_conn_ok Hnow).
Defined.

Lemma ssp_converges_witness :
  exists y s, Complete_new 10 4 0 = Ok y /\ remote_run y = Ok s /\
    exists r x, get_latest_remote_state (transport (client s)) = Ok r /\
      last (y :: drawn remote_session) = Some x /\ in_step 10 4 (r_state r) x.
Proof.
  destruct sample_size as (Hw & Hh & Hnow), first_screen as [y Ey]. destruct (remote_caught_up y Ey) as (s & Es & Hc). exists y, s. split; [exact Ey|]. split; [exact Es|].
  exact (ssp_converges 10 4 remote_addr_in Hw Hh (addr_in_sound session_rows) 1000 sample_conn sample_conn y remote_session s
    Ey (remote_trace_ok y Ey) remote_session_ok sample_conn_ok sample_conn_ok Hnow Es Hc).
Defined.

Lemma keystrokes_in_order_witness :
  exists y s, Complete_new 10 4 0 = Ok y /\ remote_run y = Ok s /\
    copy (host s) `prefix_of` typed remote_session /\
    (caught_up (client s) (host s) = true ->
     exists s', run_session remote_addr_in [HostReads] s = Ok s' /\ copy (host s') = typed remote_session).
Proof.
  destruct sample_size as (Hw & Hh & Hnow), first_screen as [y Ey]. destruct (remote_caught_up y Ey) as (s & Es & _). exists y, s. split; [exact Ey|]. split; [exact Es|].
  exact (keystrokes_in_order 10 4 remote_addr_in Hw Hh (addr_in_sound session_rows) 1000 sample_conn sample_conn y remote_session s
    Ey (remote_trace_ok y Ey) remote_session_ok sample_conn_ok sample_conn_ok Hnow Es).
Defined.

(** ** A title that cannot be retransmitted *)

(** [operator==] of two terminals does not look at icon names.  A terminal
    whose icon name alone has changed since it was sent is therefore sent again
    under the number it has, with another difference: the assertion of
    [Fragmenter::make_fragments] stops the server.  This is what [tells]
    excludes. *)
Definition icon_host (n : nat) : list Complete :=
  match (c ← Complete_new 10 4 0;
         '(s, _) ← mirror_run (take n [Output (str "x" ++ 27 :: str "]0;title" ++ [7]); Output (27 :: str "]1;icon" ++ [7])]) c c; Ok s) with
  | Ok s => [s] | Err _ => [] end.

Definition icon_session (n : nat) : list session_op :=
  (Draws <$> icon_host 1) ++ [HostDoes (Tick 1030 sample_env); HostDoes (Tick 1050 sample_env)]
  ++ (Draws <$> icon_host n) ++ [HostDoes (Tick 2500 sample_env); HostDoes (Tick 2600 sample_env); HostDoes (Tick 3900 sample_env)].

Example icon_name_aborts :
  (fun n => match Complete_new 10 4 0 with
            | Ok y =>
                match run_session (addr_in (icon_host 1 ≫= fun s => rows (get_fb s))) (icon_session n) (session_start 1000 sample_conn sample_conn y) with
                | Ok s => Ok ((fun i => (old_num i, new_num i)) <$> sent (host s))
                | Err e => Err e
                end
            | Err e => Err e
            end) <$> [1; 2]%nat = [Ok [(0, 1); (0, 1); (0, 1)]; Err AssertFail].
Proof. vm_compute. reflexivity. Qed.
