(* ===== verification/Overlay.v ===== *)
(** * Prediction of the echo (frontend/terminaloverlay.cc, terminaloverlay.h)

    The client guesses what the host will echo: conditional changes of cells
    and of the cursor, grouped in epochs, shown when their epoch is confirmed
    and dropped when the host's screen settles them.  [timestamp()] is the
    argument [now]; the screen the engine reads or draws on is an argument or
    the state of the method. *)
From S2P Require Export Emulator.

(** ** Predictions *)

Inductive Validity : Type := Pending | Correct | CorrectNoCredit | IncorrectOrExpired | Inactive.

#[export] Instance Validity_eq_dec : EqDecision Validity.
Proof. solve_decision. Defined.

Record ConditionalOverlay : Type := MkConditionalOverlay {
  expiration_frame : Z; o_col : Z; o_active : bool; tentative_until_epoch : Z; prediction_time : Z }.
#[export] Instance eta_ConditionalOverlay : Eta ConditionalOverlay :=
  fun o => MkConditionalOverlay (expiration_frame o) (o_col o) (o_active o) (tentative_until_epoch o) (prediction_time o).

Definition ConditionalOverlay_new (s_exp s_col s_tentative : Z) : ConditionalOverlay :=
  MkConditionalOverlay s_exp s_col false s_tentative UINT64_MAX.

Definition tentative (confirmed_epoch : Z) (o : ConditionalOverlay) : bool := confirmed_epoch <? tentative_until_epoch o.
Definition overlay_reset (o : ConditionalOverlay) : ConditionalOverlay :=
  o <| expiration_frame := UINT64_MAX |> <| tentative_until_epoch := UINT64_MAX |> <| o_active := false |>.
Definition expire (s_exp now : Z) (o : ConditionalOverlay) : ConditionalOverlay :=
  o <| expiration_frame := s_exp |> <| prediction_time := now |>.

Record ConditionalCursorMove : Type := MkCursorMove { cm_overlay : ConditionalOverlay; cm_row : Z }.
#[export] Instance eta_ConditionalCursorMove : Eta ConditionalCursorMove := fun c => MkCursorMove (cm_overlay c) (cm_row c).

Definition ConditionalCursorMove_new (s_exp s_row s_col s_tentative : Z) : ConditionalCursorMove :=
  MkCursorMove (ConditionalOverlay_new s_exp s_col s_tentative) s_row.
Definition cm_col (c : ConditionalCursorMove) : Z := o_col (cm_overlay c).
Definition on_move (f : ConditionalOverlay -> ConditionalOverlay) (c : ConditionalCursorMove) : ConditionalCursorMove :=
  c <| cm_overlay := f (cm_overlay c) |>.

Record ConditionalOverlayCell : Type := MkOverlayCell {
  oc_overlay : ConditionalOverlay; replacement : Cell; unknown : bool; original_contents : list Cell }.
#[export] Instance eta_ConditionalOverlayCell : Eta ConditionalOverlayCell :=
  fun c => MkOverlayCell (oc_overlay c) (replacement c) (unknown c) (original_contents c).

Definition ConditionalOverlayCell_new (s_exp s_col s_tentative : Z) : ConditionalOverlayCell :=
  MkOverlayCell (ConditionalOverlay_new s_exp s_col s_tentative) (Cell_new 0) false [].
Definition oc_active (c : ConditionalOverlayCell) : bool := o_active (oc_overlay c).
Definition oc_col (c : ConditionalOverlayCell) : Z := o_col (oc_overlay c).
Definition on_overlay (f : ConditionalOverlay -> ConditionalOverlay) (c : ConditionalOverlayCell) : ConditionalOverlayCell :=
  c <| oc_overlay := f (oc_overlay c) |>.

Definition cell_prediction_reset (c : ConditionalOverlayCell) : ConditionalOverlayCell :=
  on_overlay overlay_reset (c <| unknown := false |> <| original_contents := [] |>).
Definition reset_with_orig (c : ConditionalOverlayCell) : ConditionalOverlayCell :=
  if negb (oc_active c) || unknown c then cell_prediction_reset c
  else on_overlay overlay_reset (c <| original_contents := original_contents c ++ [replacement c] |>).

Record ConditionalOverlayRow : Type := MkOverlayRow { row_num : Z; overlay_cells : list ConditionalOverlayCell }.
#[export] Instance eta_ConditionalOverlayRow : Eta ConditionalOverlayRow := fun r => MkOverlayRow (row_num r) (overlay_cells r).

(** ** A prediction against a screen *)

(** [fb.get_cell( row, col )] of a [const Framebuffer &]. *)
Definition cell_of (f : Framebuffer) (row col : Z) : result fault Cell :=
  '(c, _) ← get_cell row col (MkScreen 0 f); Ok c.

Definition Cell_eqb (x y : Cell) : bool :=
  bool_decide (contents x = contents y) && Bool.eqb (fallback x) (fallback y) && Bool.eqb (wide x) (wide y)
  && bool_decide (cell_renditions x = cell_renditions y) && Hyperlink_eqb (cell_hyperlink x) (cell_hyperlink y)
  && Bool.eqb (wrap x) (wrap y).

Definition underline (c : Cell) : Cell := c <| cell_renditions := set_attribute underlined true (cell_renditions c) |>.

Definition outside (f : Framebuffer) (row col : Z) : bool := (height (ds f) <=? row) || (width (ds f) <=? col).

(** [ConditionalOverlayCell::apply]. *)
Definition apply_cell (confirmed_epoch row : Z) (flag : bool) (c : ConditionalOverlayCell) : M Screen unit :=
  f ← gets fb;
  let col := oc_col c in
  if negb (oc_active c) || outside f row col then mret tt else
  if tentative confirmed_epoch (oc_overlay c) then mret tt else
  blank ← (if is_blank (replacement c) then x ← get_cell row col; mret (is_blank x) else mret false);
  let flag := if (blank : bool) then false else flag in
  if unknown c then
    when_ (flag && negb (col =? width (ds f) - 1)) (with_cell row col (fun x => Ok (underline x)))
  else
    current ← get_cell row col;
    when_ (negb (Cell_eqb current (replacement c)))
      (with_cell row col (fun _ => Ok (replacement c)) ;;
       when_ flag (with_cell row col (fun x => Ok (underline x)))).

(** [ConditionalOverlayCell::get_validity]; [early_ack] is not used. *)
Definition cell_validity (f : Framebuffer) (row late_ack : Z) (c : ConditionalOverlayCell) : result fault Validity :=
  if negb (oc_active c) then Ok Inactive else
  if outside f row (oc_col c) then Ok IncorrectOrExpired else
  current ← cell_of f row (oc_col c);
  Ok (if late_ack <? expiration_frame (oc_overlay c) then Pending
      else if unknown c then CorrectNoCredit
      else if is_blank (replacement c) then CorrectNoCredit
      else if contents_match current (replacement c) then
        if existsb (fun it => contents_match it (replacement c)) (original_contents c) then CorrectNoCredit else Correct
      else IncorrectOrExpired).

(** [ConditionalCursorMove::get_validity] and [apply]. *)
Definition move_validity (f : Framebuffer) (late_ack : Z) (c : ConditionalCursorMove) : Validity :=
  if negb (o_active (cm_overlay c)) then Inactive else
  if outside f (cm_row c) (cm_col c) then IncorrectOrExpired else
  if expiration_frame (cm_overlay c) <=? late_ack then
    if (cursor_col (ds f) =? cm_col c) && (cursor_row (ds f) =? cm_row c) then Correct else IncorrectOrExpired
  else Pending.

Definition apply_move (confirmed_epoch : Z) (c : ConditionalCursorMove) : M Screen unit :=
  if negb (o_active (cm_overlay c)) then mret tt else
  if tentative confirmed_epoch (cm_overlay c) then mret tt else
  d ← gets scr_ds;
  assert_ (cm_row c <? height d) ;;
  assert_ (cm_col c <? width d) ;;
  assert_ (negb (origin_mode d)) ;;
  on_ds (move_row (cm_row c) false) ;;
  on_ds (move_col (cm_col c) false false).

(** A [for] loop over a container whose body does not change the container. *)
Fixpoint for_each {S A} (l : list A) (body : A -> M S unit) : M S unit :=
  match l with [] => mret tt | x :: l' => body x ;; for_each l' body end.

Definition apply_row (confirmed_epoch : Z) (flag : bool) (r : ConditionalOverlayRow) : M Screen unit :=
  for_each (overlay_cells r) (apply_cell confirmed_epoch (row_num r) flag).

(** ** The prediction engine *)

Inductive DisplayPreference : Type := Always | Never | Adaptive | Experimental.
#[export] Instance DisplayPreference_eq_dec : EqDecision DisplayPreference.
Proof. solve_decision. Defined.

Definition SRTT_TRIGGER_LOW : Z := 20.
Definition SRTT_TRIGGER_HIGH : Z := 30.
Definition FLAG_TRIGGER_LOW : Z := 50.
Definition FLAG_TRIGGER_HIGH : Z := 80.
Definition GLITCH_THRESHOLD : Z := 250.
Definition GLITCH_REPAIR_COUNT : Z := 10.
Definition GLITCH_REPAIR_MININTERVAL : Z := 150.
Definition GLITCH_FLAG_THRESHOLD : Z := 5000.

Record PredictionEngine : Type := MkPredictionEngine {
  last_byte : Z; pe_parser : UTF8Parser; overlays : list ConditionalOverlayRow; cursors : list ConditionalCursorMove;
  local_frame_sent : Z; local_frame_acked : Z; local_frame_late_acked : Z;
  prediction_epoch : Z; confirmed_epoch : Z; flagging : bool; srtt_trigger : bool; glitch_trigger : Z;
  last_quick_confirmation : Z; pe_send_interval : Z; last_height : Z; last_width : Z;
  display_preference : DisplayPreference; predict_overwrite : bool }.
#[export] Instance eta_PredictionEngine : Eta PredictionEngine :=
  fun p => MkPredictionEngine (last_byte p) (pe_parser p) (overlays p) (cursors p)
    (local_frame_sent p) (local_frame_acked p) (local_frame_late_acked p)
    (prediction_epoch p) (confirmed_epoch p) (flagging p) (srtt_trigger p) (glitch_trigger p)
    (last_quick_confirmation p) (pe_send_interval p) (last_height p) (last_width p)
    (display_preference p) (predict_overwrite p).

Definition prefers (x : DisplayPreference) (p : PredictionEngine) : bool := bool_decide (display_preference p = x).

(** [PredictionEngine::active] and [timing_tests_necessary]. *)
Definition pe_active (p : PredictionEngine) : bool :=
  match cursors p with
  | _ :: _ => true
  | [] => existsb (fun i => existsb oc_active (overlay_cells i)) (overlays p)
  end.
Definition timing_tests_necessary (p : PredictionEngine) : bool := negb (negb (glitch_trigger p =? 0) && flagging p).
Definition pe_wait_time (p : PredictionEngine) : Z := if timing_tests_necessary p && pe_active p then 50 else INT_MAX.

Definition pe_apply (p : PredictionEngine) : M Screen unit :=
  if prefers Never p
     || negb (srtt_trigger p || negb (glitch_trigger p =? 0) || prefers Always p || prefers Experimental p)
  then mret tt else
  for_each (cursors p) (apply_move (confirmed_epoch p)) ;;
  for_each (overlays p) (apply_row (confirmed_epoch p) (flagging p)).

Definition become_tentative (p : PredictionEngine) : PredictionEngine :=
  if prefers Experimental p then p else p <| prediction_epoch := u64 (prediction_epoch p + 1) |>.

Definition pe_reset (p : PredictionEngine) : PredictionEngine :=
  become_tentative (p <| cursors := [] |> <| overlays := [] |>).

(** [cursor()] and a write through it. *)
Definition cursor_ : M PredictionEngine ConditionalCursorMove :=
  cs ← gets cursors;
  match last cs with Some c => mret c | None => fail AssertFail end.
Definition with_cursor (f : ConditionalCursorMove -> ConditionalCursorMove) : M PredictionEngine unit :=
  c ← cursor_;
  modify (fun p => p <| cursors := removelast (cursors p) ++ [f c] |>).

Definition push_cursor (row col : Z) : M PredictionEngine unit :=
  modify (fun p => p <| cursors := cursors p ++
    [ConditionalCursorMove_new (u64 (local_frame_sent p + 1)) row col (prediction_epoch p)] |>) ;;
  with_cursor (on_move (fun o => o <| o_active := true |>)).

Definition kill_epoch (epoch : Z) (f : Framebuffer) : M PredictionEngine unit :=
  let killed := tentative (u64 (epoch - 1)) in
  modify (fun p => p <| cursors := filter (fun c => killed (cm_overlay c) = false) (cursors p) |>) ;;
  push_cursor (cursor_row (ds f)) (cursor_col (ds f)) ;;
  modify (fun p => p <| overlays := (fun i => i <| overlay_cells :=
    (fun j => if killed (oc_overlay j) then cell_prediction_reset j else j) <$> overlay_cells i |>) <$> overlays p |>) ;;
  modify become_tentative.

Definition init_cursor (f : Framebuffer) : M PredictionEngine unit :=
  p ← get;
  if bool_decide (cursors p = []) then push_cursor (cursor_row (ds f)) (cursor_col (ds f)) else
  c ← cursor_;
  if negb (tentative_until_epoch (cm_overlay c) =? prediction_epoch p) then push_cursor (cm_row c) (cm_col c) else mret tt.

(** ** Checking predictions against the host's screen *)

(** The cell [overlays[ri].overlay_cells[j]], and a write to it. *)
Definition row_at (ri : nat) : M PredictionEngine ConditionalOverlayRow :=
  rs ← gets overlays; lift (index_ rs (Z.of_nat ri)).
Definition ocell (ri : nat) (j : Z) : M PredictionEngine ConditionalOverlayCell :=
  r ← row_at ri; lift (index_ (overlay_cells r) j).
Definition with_ocell (ri : nat) (j : Z) (f : ConditionalOverlayCell -> result fault ConditionalOverlayCell)
  : M PredictionEngine unit :=
  c ← ocell ri j;
  c' ← lift (f c);
  modify (fun p => p <| overlays := alter (fun r => r <| overlay_cells := updateZ (overlay_cells r) j c' |>) ri (overlays p) |>).

(** The triggers, before any prediction is looked at. *)
Definition update_triggers (p : PredictionEngine) : PredictionEngine :=
  let p := if SRTT_TRIGGER_HIGH <? pe_send_interval p then p <| srtt_trigger := true |>
           else if srtt_trigger p && (pe_send_interval p <=? SRTT_TRIGGER_LOW) && negb (pe_active p)
           then p <| srtt_trigger := false |> else p in
  let p := if FLAG_TRIGGER_HIGH <? pe_send_interval p then p <| flagging := true |>
           else if pe_send_interval p <=? FLAG_TRIGGER_LOW then p <| flagging := false |> else p in
  if GLITCH_REPAIR_COUNT <? glitch_trigger p then p <| flagging := true |> else p.

(** The case [Correct]: confirm the epoch, repair the glitch trigger, and match
    the rest of the row to the renditions of the host. *)
Definition confirm (j : ConditionalOverlayCell) (p : PredictionEngine) : PredictionEngine :=
  if confirmed_epoch p <? tentative_until_epoch (oc_overlay j)
  then p <| confirmed_epoch := tentative_until_epoch (oc_overlay j) |> else p.
Definition repair_glitch (now : Z) (j : ConditionalOverlayCell) (p : PredictionEngine) : PredictionEngine :=
  if (u64 (now - prediction_time (oc_overlay j)) <? GLITCH_THRESHOLD)
     && ((0 <? glitch_trigger p) && (last_quick_confirmation p <=? u64 (now - GLITCH_REPAIR_MININTERVAL)))
  then p <| glitch_trigger := glitch_trigger p - 1 |> <| last_quick_confirmation := now |> else p.
Definition set_replacement_renditions (r : Renditions) (c : ConditionalOverlayCell) : ConditionalOverlayCell :=
  c <| replacement := (replacement c) <| cell_renditions := r |> |>.
Definition match_renditions (f : Framebuffer) (ri : nat) (j : Z) : M PredictionEngine unit :=
  i ← row_at ri;
  c ← ocell ri j;
  actual ← lift (cell_of f (row_num i) (oc_col c));
  for_range j (lenZ (overlay_cells i))
    (fun k => with_ocell ri k (fun c => Ok (set_replacement_renditions (cell_renditions actual) c))).

(** The case [Pending]. *)
Definition raise_glitch (now : Z) (j : ConditionalOverlayCell) (p : PredictionEngine) : PredictionEngine :=
  let pending := u64 (now - prediction_time (oc_overlay j)) in
  if GLITCH_FLAG_THRESHOLD <=? pending then p <| glitch_trigger := GLITCH_REPAIR_COUNT * 2 |>
  else if (GLITCH_THRESHOLD <=? pending) && (glitch_trigger p <? GLITCH_REPAIR_COUNT)
  then p <| glitch_trigger := GLITCH_REPAIR_COUNT |> else p.

Definition reset_ocell (ri : nat) (j : Z) : M PredictionEngine unit :=
  with_ocell ri j (fun c => Ok (cell_prediction_reset c)).

(** One cell; [true] when [cull] returns. *)
Definition cull_cell (now : Z) (f : Framebuffer) (ri : nat) (j : Z) : M PredictionEngine bool :=
  i ← row_at ri;
  c ← ocell ri j;
  p ← get;
  v ← lift (cell_validity f (row_num i) (local_frame_late_acked p) c);
  match v with
  | IncorrectOrExpired =>
      if tentative (confirmed_epoch p) (oc_overlay c) then
        (if prefers Experimental p then reset_ocell ri j
         else kill_epoch (tentative_until_epoch (oc_overlay c)) f) ;;
        mret false
      else if prefers Experimental p then reset_ocell ri j ;; mret false
      else modify pe_reset ;; mret true
  | Correct =>
      modify (confirm c) ;;
      modify (repair_glitch now c) ;;
      match_renditions f ri j ;;
      reset_ocell ri j ;;
      mret false
  | CorrectNoCredit => reset_ocell ri j ;; mret false
  | Pending => modify (raise_glitch now c) ;; mret false
  | Inactive => mret false
  end.

Fixpoint cull_cells (n : nat) (now : Z) (f : Framebuffer) (ri : nat) (j : Z) : M PredictionEngine bool :=
  match n with
  | O => mret false
  | S n' =>
      stop ← cull_cell now f ri j;
      if (stop : bool) then mret true else cull_cells n' now f ri (j + 1)
  end.

(** The rows that are left are the last [n]; a row outside the screen is
    erased. *)
Fixpoint cull_rows (n : nat) (now : Z) (f : Framebuffer) (ri : nat) : M PredictionEngine bool :=
  match n with
  | O => mret false
  | S n' =>
      i ← row_at ri;
      if (row_num i <? 0) || (height (ds f) <=? row_num i) then
        modify (fun p => p <| overlays := delete ri (overlays p) |>) ;; cull_rows n' now f ri
      else
        stop ← cull_cells (length (overlay_cells i)) now f ri 0;
        if (stop : bool) then mret true else cull_rows n' now f (S ri)
  end.

Definition cull_cursors (f : Framebuffer) : M PredictionEngine unit :=
  p ← get;
  let late := local_frame_late_acked p in
  let bad := match last (cursors p) with
             | Some c => bool_decide (move_validity f late c = IncorrectOrExpired)
             | None => false
             end in
  if bad && negb (prefers Experimental p) then modify pe_reset else
  when_ bad (modify (fun p => p <| cursors := [] |>)) ;;
  modify (fun p => p <| cursors := filter (fun c => move_validity f late c = Pending) (cursors p) |>).

Definition cull (now : Z) (f : Framebuffer) : M PredictionEngine unit :=
  p ← get;
  if prefers Never p then mret tt else
  when_ (negb (last_height p =? height (ds f)) || negb (last_width p =? width (ds f)))
    (modify (fun p => pe_reset (p <| last_height := height (ds f) |> <| last_width := width (ds f) |>))) ;;
  modify update_triggers ;;
  n ← gets (fun p => length (overlays p));
  stop ← cull_rows n now f 0;
  if (stop : bool) then mret tt else cull_cursors f.

(** ** Predicting the echo of a key *)

Fixpoint find_row (row : Z) (rs : list ConditionalOverlayRow) : option nat :=
  match rs with
  | [] => None
  | r :: rs' => if row_num r =? row then Some O else S <$> find_row row rs'
  end.

Definition new_row (row num_cols epoch : Z) : ConditionalOverlayRow :=
  MkOverlayRow row ((fun i => ConditionalOverlayCell_new 0 i epoch) <$> seqZ 0 num_cols).

(** The index of the row, which is appended when there is none. *)
Definition get_or_make_row (row num_cols : Z) : M PredictionEngine nat :=
  p ← get;
  match find_row row (overlays p) with
  | Some ri => mret ri
  | None =>
      modify (fun p => p <| overlays := overlays p ++ [new_row row num_cols (prediction_epoch p)] |>) ;;
      mret (length (overlays p))
  end.

(** The statements that begin a prediction. *)
Definition predict_in (epoch exp now : Z) (c : ConditionalOverlayCell) : ConditionalOverlayCell :=
  on_overlay (fun o => expire exp now (o <| o_active := true |> <| tentative_until_epoch := epoch |>)) (reset_with_orig c).
Definition push_original (x : Cell) (c : ConditionalOverlayCell) : ConditionalOverlayCell :=
  c <| original_contents := original_contents c ++ [x] |>.

(** The contents of a neighbour: its prediction, or what the screen has. *)
Definition take_from (n : ConditionalOverlayCell) (actual : Cell) (c : ConditionalOverlayCell) : ConditionalOverlayCell :=
  if oc_active n then
    if unknown n then c <| unknown := true |> else c <| unknown := false |> <| replacement := replacement n |>
  else c <| unknown := false |> <| replacement := actual |>.

Definition predict_cell (now : Z) (ri : nat) (i : Z) (k : ConditionalOverlayCell -> result fault ConditionalOverlayCell)
  : M PredictionEngine unit :=
  p ← get;
  with_ocell ri i (fun c => k (predict_in (prediction_epoch p) (u64 (local_frame_sent p + 1)) now c)).

Section predict.
Context `{Libc} (now : Z) (f : Framebuffer).

Definition expire_cursor : M PredictionEngine unit :=
  p ← get; with_cursor (on_move (expire (u64 (local_frame_sent p + 1)) now)).
Definition move_cursor (n : Z) : M PredictionEngine unit :=
  with_cursor (on_move (fun o => o <| o_col := o_col o + n |>)) ;; expire_cursor.

Definition newline_carriage_return : M PredictionEngine unit :=
  init_cursor f ;;
  with_cursor (on_move (fun o => o <| o_col := 0 |>)) ;;
  c ← cursor_;
  if cm_row c =? height (ds f) - 1 then
    ri ← get_or_make_row (cm_row c) (width (ds f));
    modify (fun p => p <| overlays := alter (fun r => r <| overlay_cells :=
      (fun j => on_overlay (fun o => expire (u64 (local_frame_sent p + 1)) now
                  (o <| o_active := true |> <| tentative_until_epoch := prediction_epoch p |>))
                (j <| replacement := (replacement j) <| contents := [] |> |>)) <$> overlay_cells r |>) ri (overlays p) |>)
  else with_cursor (fun c => c <| cm_row := cm_row c + 1 |>).

(** Backspace, with and without [predict_overwrite]. *)
Definition backspace_overwrite (ri : nat) (col : Z) : M PredictionEngine unit :=
  orig_cell ← lift (cell_of f (-1) (-1));
  predict_cell now ri col (fun c =>
    r ← Cell_append 32 (orig_cell <| contents := [] |>);
    Ok ((push_original orig_cell c) <| replacement := r |>)).
Definition backspace_cell (ri : nat) (row i : Z) : M PredictionEngine unit :=
  actual ← lift (cell_of f row i);
  predict_cell now ri i (fun c => Ok (push_original actual c)) ;;
  if i + 2 <? width (ds f) then
    next ← ocell ri (i + 1);
    next_actual ← lift (cell_of f row (i + 1));
    with_ocell ri i (fun c => Ok (take_from next next_actual c))
  else with_ocell ri i (fun c => Ok (c <| unknown := true |>)).
Definition predict_backspace : M PredictionEngine unit :=
  c ← cursor_;
  ri ← get_or_make_row (cm_row c) (width (ds f));
  if 0 <? cm_col c then
    move_cursor (-1) ;;
    p ← get;
    if predict_overwrite p then backspace_overwrite ri (cm_col c - 1)
    else for_range (cm_col c - 1) (width (ds f)) (backspace_cell ri (cm_row c))
  else mret tt.

(** A printed character: the cells to its right move by one. *)
Definition insert_cell_at (ri : nat) (row i : Z) : M PredictionEngine unit :=
  actual ← lift (cell_of f row i);
  predict_cell now ri i (fun c => Ok (push_original actual c)) ;;
  prev ← ocell ri (i - 1);
  prev_actual ← lift (cell_of f row (i - 1));
  if i =? width (ds f) - 1 then with_ocell ri i (fun c => Ok (c <| unknown := true |>))
  else with_ocell ri i (fun c => Ok (take_from prev prev_actual c)).

(** The renditions of the character to the left, or of the screen. *)
Definition guess_renditions (ri : nat) (row col : Z) : M PredictionEngine Renditions :=
  if 0 <? col then
    prev ← ocell ri (col - 1);
    prev_actual ← lift (cell_of f row (col - 1));
    mret (cell_renditions (if oc_active prev && negb (unknown prev) then replacement prev else prev_actual))
  else mret (ds_renditions (ds f)).

Definition predict_char (c : Z) : M PredictionEngine unit :=
  cur ← cursor_;
  let row := cm_row cur in
  let col := cm_col cur in
  assert_ (0 <=? row) ;; assert_ (0 <=? col) ;;
  assert_ (row <? height (ds f)) ;; assert_ (col <? width (ds f)) ;;
  ri ← get_or_make_row row (width (ds f));
  when_ (width (ds f) <=? col + 1) (modify become_tentative) ;;
  p ← get;
  let rightmost_column := if predict_overwrite p then col else width (ds f) - 1 in
  for_n (Z.to_nat (rightmost_column - col)) 0 (fun k => insert_cell_at ri row (rightmost_column - k)) ;;
  predict_cell now ri col Ok ;;
  r ← guess_renditions ri row col;
  actual ← lift (cell_of f row col);
  with_ocell ri col (fun x =>
    x' ← Cell_append c ((replacement x) <| cell_renditions := r |> <| contents := [] |>);
    Ok (push_original actual (x <| replacement := x' |>))) ;;
  expire_cursor ;;
  if col <? width (ds f) - 1 then with_cursor (on_move (fun o => o <| o_col := o_col o + 1 |>))
  else modify become_tentative ;; newline_carriage_return.

Definition predict_print (act : Action) : M PredictionEngine unit :=
  init_cursor f ;;
  assert_ (char_present act) ;;
  if ch act =? 0x7f then predict_backspace
  else if (ch act <? 0x20) || negb (wcwidth (ch act) =? 1) then modify become_tentative
  else predict_char (ch act).

Definition predict_csi (act : Action) : M PredictionEngine unit :=
  if char_present act && (ch act =? chr "C") then
    init_cursor f ;;
    c ← cursor_;
    when_ (cm_col c <? width (ds f) - 1) (move_cursor 1)
  else if char_present act && (ch act =? chr "D") then
    init_cursor f ;;
    c ← cursor_;
    when_ (0 <? cm_col c) (move_cursor (-1))
  else modify become_tentative.

Definition predict_action (act : Action) : M PredictionEngine unit :=
  match typ act with
  | Print => predict_print act
  | Execute =>
      modify become_tentative ;;
      when_ (char_present act && (ch act =? 0x0d)) newline_carriage_return
  | Esc_Dispatch => modify become_tentative
  | CSI_Dispatch => predict_csi act
  | _ => mret tt
  end.

Definition new_user_byte (the_byte : Z) : M PredictionEngine unit :=
  p ← get;
  if prefers Never p then mret tt else
  when_ (prefers Experimental p) (modify (fun p => p <| prediction_epoch := confirmed_epoch p |>)) ;;
  cull now f ;;
  p ← get;
  let the_byte := if (last_byte p =? 0x1b) && (the_byte =? chr "O") then chr "[" else the_byte in
  modify (fun p => p <| last_byte := the_byte |>) ;;
  actions ← zoom pe_parser (fun u p => p <| pe_parser := u |>) (utf8_input the_byte []);
  for_each actions predict_action.
End predict.

Definition PredictionEngine_new `{Libc} : result fault PredictionEngine :=
  u ← UTF8Parser_new;
  Ok (MkPredictionEngine 0 u [] [] 0 0 0 1 0 false false 0 0 250 0 0 Adaptive false).

(** [set_local_frame_sent] and the other setters. *)
Definition set_local_frame_sent (x : Z) (p : PredictionEngine) : PredictionEngine := p <| local_frame_sent := x |>.
Definition set_local_frame_acked (x : Z) (p : PredictionEngine) : PredictionEngine := p <| local_frame_acked := x |>.
Definition set_local_frame_late_acked (x : Z) (p : PredictionEngine) : PredictionEngine := p <| local_frame_late_acked := x |>.
Definition set_send_interval (x : Z) (p : PredictionEngine) : PredictionEngine := p <| pe_send_interval := x |>.
Definition set_display_preference (x : DisplayPreference) (p : PredictionEngine) : PredictionEngine := p <| display_preference := x |>.
Definition set_predict_overwrite (x : bool) (p : PredictionEngine) : PredictionEngine := p <| predict_overwrite := x |>.
