(* ===== verification/OverlaySpec.v ===== *)
(** * The prediction engine is safe and honest

    The invariant of the engine and the triples of its operations; what a
    settled prediction leaves behind; what is drawn on the screen. *)
From S2P Require Export Overlay DisplaySpec.

Lemma fmap_alter_same {A B} (k : A -> B) (g : A -> A) (i : nat) (l : list A) : (forall x, k (g x) = k x) -> k <$> alter g i l = k <$> l.
Proof. intros Hk. revert i. induction l as [|x l IH]; intros [|i]; cbn; [done|done|by rewrite Hk|f_equal; apply IH]. Qed.

Lemma Forall_filter_keep {A} (P Q : A -> Prop) `{!forall x, Decision (Q x)} l : Forall P l -> Forall P (filter Q l).
Proof. rewrite !Forall_forall. intros HP x [_ Hx]%list_elem_of_filter. auto. Qed.

Lemma triple_bind_get {S A} (P : S -> Prop) (k : S -> M S A) Q :
  (forall s, P s -> triple P (k s) Q) -> triple P (get ≫= k) Q.
Proof. intros Hk s Hs. by apply Hk. Qed.

(** ** The invariant *)

(** A screen with its cursor in it. *)
Record screen_ok (w h : Z) (f : Framebuffer) : Prop := {
  so_frame : frame_ok w h f;
  so_row : 0 <= cursor_row (ds f) < h;
  so_col : 0 <= cursor_col (ds f) < w }.

(** One prediction per column, in order, each with an epoch. *)
Definition oc_epoch (c : ConditionalOverlayCell) : Z := tentative_until_epoch (oc_overlay c).
Definition ocell_ok (j : Z) (c : ConditionalOverlayCell) : Prop := oc_col c = j /\ is_u64 (oc_epoch c).
Definition orow_ok (w h : Z) (r : ConditionalOverlayRow) : Prop :=
  0 <= row_num r < h /\ oc_col <$> overlay_cells r = seqZ 0 w /\ Forall (fun c => is_u64 (oc_epoch c)) (overlay_cells r).

Definition move_ok (w h : Z) (c : ConditionalCursorMove) : Prop :=
  0 <= cm_row c < h /\ 0 <= cm_col c < w /\ o_active (cm_overlay c) = true.

Record pe_inv `{Libc} (w h : Z) (p : PredictionEngine) : Prop := {
  pi_rows : Forall (orow_ok w h) (overlays p);
  pi_nodup : NoDup (row_num <$> overlays p);
  pi_cursors : Forall (move_ok w h) (cursors p);
  pi_parser : utf8_wf (pe_parser p);
  pi_epochs : is_u64 (prediction_epoch p) /\ is_u64 (confirmed_epoch p);
  pi_width : last_width p = w;
  pi_height : last_height p = h }.

(** ... with at least [n] rows, and [b] true of the cursors. *)
Definition pe_st `{Libc} (w h : Z) (n : nat) (b : list ConditionalCursorMove -> Prop) (p : PredictionEngine) : Prop :=
  pe_inv w h p /\ (n <= length (overlays p))%nat /\ b (cursors p).

Definition any_cursor (cs : list ConditionalCursorMove) : Prop := True.
Definition some_cursor (cs : list ConditionalCursorMove) : Prop := cs <> [].
Definition cursor_at (row col : Z) (cs : list ConditionalCursorMove) : Prop :=
  exists c, last cs = Some c /\ cm_row c = row /\ cm_col c = col.

Lemma cell_of_ok w h f row col : screen_ok w h f -> 0 <= row < h -> 0 <= col < w -> exists c, cell_of f row col = Ok c.
Proof.
  intros [Hf _ _] Hr Hc. destruct (fo_rows _ _ _ Hf) as [Hl Hrs].
  destruct (at_ok (rows f) row) as (r & E & Er); [lia|]. pose proof (lookupZ_Forall _ _ _ _ Hrs Er) as Hrl. unfold row_len in Hrl.
  destruct (at_ok (cells r) col) as (c & Ec & _); [lia|]. exists c.
  unfold cell_of, get_cell, get_row, mbind, M_bind, gets, lift, resolve_row, resolve_col. cbn [fb scr_ds].
  rewrite (proj2 (Z.eqb_neq row (-1))), (proj2 (Z.eqb_neq col (-1))), E by lia. cbn. by rewrite Ec.
Qed.

Lemma cell_of_cursor w h f : screen_ok w h f -> exists c, cell_of f (-1) (-1) = Ok c.
Proof.
  intros Hf. pose proof Hf as [_ Hr Hc]. destruct (cell_of_ok w h f (cursor_row (ds f)) (cursor_col (ds f))) as (c & E); [done..|].
  exists c. rewrite <- E. unfold cell_of, get_cell, get_row, mbind, M_bind, gets, lift, resolve_row, resolve_col, scr_ds. cbn [fb].
  rewrite (proj2 (Z.eqb_neq (cursor_row (ds f)) (-1))) by lia. destruct (at_ (rows f) _); [|done]. cbn.
  by rewrite (proj2 (Z.eqb_neq (cursor_col (ds f)) (-1))) by lia.
Qed.

Section safety.
Context `{HL : Libc} `{HLL : !LibcLaws} (w h now : Z) (f : Framebuffer) (Hf : screen_ok w h f).

Let Hwh : 0 < w /\ 0 < h := fo_size _ _ _ (so_frame _ _ _ Hf).
Let Hwidth : width (ds f) = w := fo_width _ _ _ (so_frame _ _ _ Hf).
Let Hheight : height (ds f) = h := fo_height _ _ _ (so_frame _ _ _ Hf).

Lemma pe_st_mono n (b : list ConditionalCursorMove -> Prop) n' (b' : list ConditionalCursorMove -> Prop) p :
  (n' <= n)%nat -> (forall cs, b cs -> b' cs) -> pe_st w h n b p -> pe_st w h n' b' p.
Proof. intros Hn Hb (Hi & Hl & Hc). split_and!; [done|lia|auto]. Qed.

Lemma orow_length r : orow_ok w h r -> lenZ (overlay_cells r) = w.
Proof. intros (_ & E & _). unfold lenZ. rewrite <- (length_fmap oc_col), E, length_seqZ. lia. Qed.

Lemma orow_col r j c : orow_ok w h r -> lookupZ (overlay_cells r) j = Some c -> ocell_ok j c.
Proof.
  intros Hr Hj. pose proof (orow_length r Hr). destruct (lookupZ_Some_lt _ _ _ Hj). unfold lookupZ in Hj. rewrite decide_True in Hj by lia.
  destruct Hr as (_ & E & He). assert (seqZ 0 w !! Z.to_nat j = Some (oc_col c)) as Es by (by rewrite <- E, list_lookup_fmap, Hj).
  apply lookup_seqZ in Es. split; [lia|]. by apply (Forall_lookup_1 _ _ _ _ He Hj).
Qed.

Lemma orow_update r j c : orow_ok w h r -> ocell_ok j c -> orow_ok w h (r <| overlay_cells := updateZ (overlay_cells r) j c |>).
Proof.
  intros (Hn & E & He) [Hc Hce]. split; [done|]. cbn. split; [|by apply Forall_updateZ]. unfold updateZ. case_decide; [|done]. rewrite list_fmap_insert, E.
  apply list_eq. intros i. destruct (decide (i = Z.to_nat j)) as [->|Hne]; [|by rewrite list_lookup_insert_ne].
  destruct (decide (Z.to_nat j < length (seqZ 0 w))%nat) as [Hlt|Hge].
  - rewrite list_lookup_insert_eq by done. symmetry. apply lookup_seqZ. rewrite length_seqZ in Hlt. lia.
  - by rewrite list_insert_ge by lia.
Qed.

Lemma bind_cell {A} P row col (k : Cell -> M PredictionEngine A) Q :
  0 <= row < h -> 0 <= col < w -> (forall x, triple P (k x) Q) -> triple P (lift (cell_of f row col) ≫= k) Q.
Proof.
  intros Hr Hc Hk. apply (triple_bind_lift _ _ _ _ (fun _ => True)); [|auto]. destruct (cell_of_ok w h f row col Hf Hr Hc) as (c & ->). eauto.
Qed.

(** ** Predictions of one cell *)

Lemma row_at_safe n b ri : (ri < n)%nat ->
  triple (pe_st w h n b) (row_at ri) (fun r p => pe_st w h n b p /\ overlays p !! ri = Some r /\ orow_ok w h r).
Proof.
  intros Hri p Hp. pose proof Hp as ([Hr _ _ _ _ _ _] & Hl & _).
  destruct (lookup_lt_is_Some_2 (overlays p) ri ltac:(lia)) as [r E]. exists r, p.
  unfold row_at, mbind, M_bind, gets, lift, index_, lookupZ. rewrite decide_True by lia. rewrite Nat2Z.id, E. cbn.
  split_and!; [done..|]. by apply (Forall_lookup_1 _ _ _ _ Hr E).
Qed.

Lemma ocell_safe n b ri j : (ri < n)%nat -> 0 <= j < w ->
  triple (pe_st w h n b) (ocell ri j) (fun c p => pe_st w h n b p /\ ocell_ok j c).
Proof.
  intros Hri Hj. apply (triple_bind _ _ _ _ _ (row_at_safe n b ri Hri)). intros r p (Hp & _ & Hr).
  destruct (lookupZ_lt (overlay_cells r) j) as [c E]; [by rewrite orow_length|]. exists c, p.
  unfold lift, index_. rewrite E. split_and!; [done..|]. by apply (orow_col r).
Qed.

Lemma with_ocell_safe n b ri j k : (ri < n)%nat -> 0 <= j < w ->
  (forall c, ocell_ok j c -> exists c', k c = Ok c' /\ ocell_ok j c') ->
  preserves (pe_st w h n b) (with_ocell ri j k).
Proof.
  intros Hri Hj Hk. apply (triple_bind _ _ _ _ _ (ocell_safe n b ri j Hri Hj)). intros c. apply triple_pure. intros Hc.
  apply (triple_bind_lift _ _ _ _ (ocell_ok j)); [auto|]. intros c' Hc'. apply triple_modify.
  intros p ([Hr Hn Hcu Hu He Hw_ Hh_] & Hl & Hb). split_and!; [split; try done|by cbn; rewrite length_alter|done]; cbn.
  - apply Forall_alter; [done|]. intros r _ Hok. by apply orow_update.
  - by rewrite fmap_alter_same.
Qed.

(** ** The cursor *)

Lemma last_move_ok p c : pe_inv w h p -> last (cursors p) = Some c -> move_ok w h c.
Proof.
  intros Hi [l E]%last_Some. pose proof (pi_cursors _ _ _ Hi) as Hm. rewrite E in Hm. by apply Forall_app in Hm as [_ [? _]%Forall_cons].
Qed.

Lemma cursor_safe n :
  triple (pe_st w h n some_cursor) cursor_ (fun c p => pe_st w h n (cursor_at (cm_row c) (cm_col c)) p /\ move_ok w h c).
Proof.
  intros p (Hi & Hl & Hc). unfold cursor_, mbind, M_bind, gets.
  destruct (last (cursors p)) as [c|] eqn:E; [|by apply last_None in E]. exists c, p. split_and!; try done; [|by apply (last_move_ok p)..].
  split_and!; [done..|]. by exists c.
Qed.

Lemma with_cursor_at n row col k row' col' :
  (forall c, move_ok w h c -> cm_row c = row -> cm_col c = col -> move_ok w h (k c) /\ cm_row (k c) = row' /\ cm_col (k c) = col') ->
  triple (pe_st w h n (cursor_at row col)) (with_cursor k) (fun _ => pe_st w h n (cursor_at row' col')).
Proof.
  intros Hk p (Hi & Hl & c & E & Hr & Hc). pose proof (last_move_ok p c Hi E) as Hm. destruct (Hk c Hm Hr Hc) as (Hm' & Hr' & Hc').
  unfold with_cursor, cursor_, mbind, M_bind, gets, modify. rewrite E. cbn. do 2 eexists. split; [done|].
  destruct Hi as [Hro Hn Hcu Hu He Hw_ Hh_]. apply last_Some in E as [l E]. rewrite E in *. rewrite removelast_last.
  split_and!; [split; try done|done|]; cbn; [apply Forall_app in Hcu as [? _]; apply Forall_app; split; [done|by apply Forall_singleton]|].
  exists (k c). by rewrite last_snoc.
Qed.

Lemma push_cursor_safe n b row col : 0 <= row < h -> 0 <= col < w ->
  triple (pe_st w h n b) (push_cursor row col) (fun _ => pe_st w h n (cursor_at row col)).
Proof.
  intros Hr Hc p ([Hro Hn Hcu Hu He Hw_ Hh_] & Hl & _). unfold push_cursor, with_cursor, cursor_, mbind, M_bind, modify, gets. cbn.
  rewrite last_snoc. do 2 eexists. split; [done|]. cbn. rewrite removelast_last.
  split_and!; [split; try done|done|eexists; cbn; by rewrite last_snoc]. cbn. apply Forall_app. split; [done|]. by apply Forall_singleton.
Qed.

Lemma cursor_at_some n row col p : pe_st w h n (cursor_at row col) p -> pe_st w h n some_cursor p.
Proof. apply pe_st_mono; [done|]. by intros cs (c & E & _) ->. Qed.

Lemma tentative_safe n b : preserves (pe_st w h n b) (modify become_tentative).
Proof.
  apply triple_modify. intros p (Hi & Hl & Hb). unfold become_tentative. destruct (prefers _ _); [done|]. split_and!; [|done..].
  destruct Hi as [? ? ? ? [? ?] ? ?]. split; try done. split; [apply u64_range|done].
Qed.

Lemma pe_reset_ok p : utf8_wf (pe_parser p) -> is_u64 (prediction_epoch p) /\ is_u64 (confirmed_epoch p) ->
  last_width p = w -> last_height p = h -> pe_st w h 0 any_cursor (pe_reset p).
Proof.
  intros Hu [? ?] Hw_ Hh_. unfold pe_reset, become_tentative.
  destruct (prefers _ _); (split_and!; [split; try done|cbn; lia|done]); cbn; try apply NoDup_nil_2. split; [apply u64_range|done].
Qed.

Lemma reset_engine_safe n b : triple (pe_st w h n b) (modify pe_reset) (fun _ => pe_st w h 0 any_cursor).
Proof. apply triple_modify. intros p ([] & _). by apply pe_reset_ok. Qed.

Lemma init_cursor_safe n b : triple (pe_st w h n b) (init_cursor f) (fun _ => pe_st w h n some_cursor).
Proof.
  intros p Hp. unfold init_cursor, get, mbind at 1, M_bind at 1. case_bool_decide as E.
  - revert p Hp E. intros p Hp _. revert p Hp. eapply triple_conseq; [apply (push_cursor_safe n b); apply Hf|done|]. intros ? q. apply cursor_at_some.
  - destruct (cursor_safe n p) as (c & p' & Ec & Hp' & Hc); [destruct Hp as (? & ? & ?); by split_and!|].
    unfold mbind, M_bind. rewrite Ec. destruct (negb _); [|exists tt, p'; split; [done|by apply cursor_at_some in Hp']].
    destruct (push_cursor_safe n _ (cm_row c) (cm_col c) ltac:(apply Hc) ltac:(apply Hc) p' Hp') as (u & q & Eq & Hq).
    exists u, q. split; [done|by apply cursor_at_some in Hq].
Qed.

Lemma fmap_rows_ok k rs : (forall r, row_num (k r) = row_num r) -> (forall r, orow_ok w h r -> orow_ok w h (k r)) ->
  Forall (orow_ok w h) rs -> NoDup (row_num <$> rs) -> Forall (orow_ok w h) (k <$> rs) /\ NoDup (row_num <$> (k <$> rs)).
Proof.
  intros Hk Hok Hr Hn. split; [apply Forall_fmap; by eapply Forall_impl|]. rewrite <- list_fmap_compose.
  by rewrite (list_fmap_ext _ row_num) by (intros; apply Hk).
Qed.

Lemma kill_epoch_safe n b epoch : triple (pe_st w h n b) (kill_epoch epoch f) (fun _ => pe_st w h n (cursor_at (cursor_row (ds f)) (cursor_col (ds f)))).
Proof.
  apply (triple_bind _ _ _ (fun _ => pe_st w h n any_cursor)).
  { apply triple_modify. intros p ([Hr Hn Hcu Hu He Hw_ Hh_] & Hl & _). split_and!; [split; try done|done|done]. cbn. by apply Forall_filter_keep. }
  intros _. apply (triple_bind _ _ _ _ _ (push_cursor_safe n any_cursor _ _ (so_row _ _ _ Hf) (so_col _ _ _ Hf))).
  intros _. apply triple_seq; [|intros _; apply tentative_safe].
  apply triple_modify. intros p ([Hr Hn Hcu Hu He Hw_ Hh_] & Hl & Hb). split_and!; [|by cbn; rewrite length_fmap|done].
  destruct (fmap_rows_ok (fun i => i <| overlay_cells :=
    (fun j => if tentative (u64 (epoch - 1)) (oc_overlay j) then cell_prediction_reset j else j) <$> overlay_cells i |>) (overlays p));
    [done| |done..|by split].
  intros r (Hrn & E & Hec). split; [done|]. cbn. split.
  - rewrite <- list_fmap_compose, <- E. apply list_fmap_ext. intros _ c _. cbn. by destruct (tentative _ _).
  - apply Forall_fmap. eapply Forall_impl; [exact Hec|]. intros c Hc. cbn. by destruct (tentative _ _).
Qed.

(** ** Culling *)

Lemma reset_ocell_safe n b ri j : (ri < n)%nat -> 0 <= j < w -> preserves (pe_st w h n b) (reset_ocell ri j).
Proof. intros. apply with_ocell_safe; [done..|]. intros c [Hc _]. by eexists. Qed.

Lemma cell_validity_ok row late c : 0 <= row -> 0 <= oc_col c -> exists v, cell_validity f row late c = Ok v.
Proof.
  intros Hr Hc. unfold cell_validity, outside. destruct (negb (oc_active c)); [eauto|].
  destruct (Z.leb_spec (height (ds f)) row); [eauto|]. destruct (Z.leb_spec (width (ds f)) (oc_col c)); [eauto|]. cbn [orb].
  destruct (cell_of_ok w h f row (oc_col c) Hf) as (x & ->); [lia..|]. cbn. eauto.
Qed.

Lemma match_renditions_safe n b ri j : (ri < n)%nat -> 0 <= j < w -> preserves (pe_st w h n b) (match_renditions f ri j).
Proof.
  intros Hri Hj. apply (triple_bind _ _ _ _ _ (row_at_safe n b ri Hri)). intros r p (Hp & _ & Hr). revert p Hp.
  apply (triple_bind _ _ _ _ _ (ocell_safe n b ri j Hri Hj)). intros c. apply triple_pure. intros [Hc Hce].
  apply bind_cell; [apply Hr|lia|]. intros x. apply triple_for_range. intros k Hk. rewrite (orow_length r) in Hk by done. apply with_ocell_safe; [done|lia|]. intros c' Hc'. by eexists.
Qed.

Lemma engine_field_safe n b k :
  (forall p, overlays (k p) = overlays p /\ cursors (k p) = cursors p /\ pe_parser (k p) = pe_parser p /\
     last_width (k p) = last_width p /\ last_height (k p) = last_height p) ->
  (forall p, is_u64 (prediction_epoch p) -> is_u64 (confirmed_epoch p) -> is_u64 (prediction_epoch (k p)) /\ is_u64 (confirmed_epoch (k p))) ->
  preserves (pe_st w h n b) (modify k).
Proof.
  intros Hk Hke. apply triple_modify. intros p ([Hr Hn Hcu Hu He Hw_ Hh_] & Hl & Hb). destruct (Hk p) as (E1 & E2 & E3 & E4 & E5).
  split_and!; [split|by rewrite E1|by rewrite E2]; try by rewrite ?E1, ?E2, ?E3, ?E4, ?E5. apply Hke; apply He.
Qed.

Lemma cull_cell_safe n ri j : (ri < n)%nat -> 0 <= j < w ->
  triple (pe_st w h n any_cursor) (cull_cell now f ri j) (fun stop => pe_st w h (if stop : bool then 0 else n) any_cursor).
Proof.
  intros Hri Hj. apply (triple_bind _ _ _ _ _ (row_at_safe n any_cursor ri Hri)). intros r p (Hp & _ & Hr). revert p Hp.
  apply (triple_bind _ _ _ _ _ (ocell_safe n any_cursor ri j Hri Hj)). intros c. apply triple_pure. intros [Hc Hce].
  apply triple_bind_get. intros p _. apply (triple_bind_lift _ _ _ _ (fun _ => True)).
  { destruct (cell_validity_ok (row_num r) (local_frame_late_acked p) c) as (v & E); [apply Hr|lia|by eauto]. }
  assert (Hret : triple (pe_st w h n any_cursor) (mret false) (fun stop => pe_st w h (if stop : bool then 0 else n) any_cursor)) by by apply triple_ret.
  intros v _. destruct v; try exact Hret.
  - apply triple_seq; [|by intros _]. apply engine_field_safe; intros q; unfold raise_glitch; by repeat case_match.
  - apply triple_seq; [apply engine_field_safe; intros q; unfold confirm; case_match; done|]. intros _.
    apply triple_seq; [apply engine_field_safe; intros q; unfold repair_glitch; by case_match|]. intros _.
    apply triple_seq; [by apply match_renditions_safe|]. intros _. apply triple_seq; [by apply reset_ocell_safe|by intros _].
  - apply triple_seq; [by apply reset_ocell_safe|by intros _].
  - destruct (tentative _ _); [|destruct (prefers Experimental p)].
    + apply (triple_bind _ _ _ (fun _ => pe_st w h n any_cursor)); [|by intros _]. destruct (prefers Experimental p); [by apply reset_ocell_safe|].
      eapply triple_conseq; [apply (kill_epoch_safe n any_cursor)|done|]. intros ? q. by apply pe_st_mono.
    + apply triple_seq; [by apply reset_ocell_safe|by intros _].
    + apply (triple_bind _ _ _ _ _ (reset_engine_safe n any_cursor)). intros _. by apply triple_ret.
Qed.

Lemma cull_cells_safe n ri m : forall j, (ri < n)%nat -> 0 <= j -> j + Z.of_nat m <= w ->
  triple (pe_st w h n any_cursor) (cull_cells m now f ri j) (fun stop => pe_st w h (if stop : bool then 0 else n) any_cursor).
Proof.
  induction m as [|m IH]; intros j Hri Hj Hm; cbn [cull_cells]; [by apply triple_ret|].
  apply (triple_bind _ _ _ _ _ (cull_cell_safe n ri j Hri ltac:(lia))). intros [|]; [by apply triple_ret|]. apply IH; lia.
Qed.

Lemma cull_rows_safe m : forall ri,
  triple (pe_st w h (ri + m) any_cursor) (cull_rows m now f ri) (fun _ => pe_st w h 0 any_cursor).
Proof.
  induction m as [|m IH]; intros ri; cbn [cull_rows]; [apply triple_ret; intros p; apply (pe_st_mono (ri + 0) any_cursor); [lia|done]|].
  apply (triple_bind _ _ _ _ _ (row_at_safe (ri + S m) any_cursor ri ltac:(lia))). intros r p (Hp & _ & Hr). revert p Hp.
  rewrite (proj2 (Z.ltb_ge _ _)) by apply Hr. rewrite (proj2 (Z.leb_gt _ _)) by (rewrite Hheight; apply Hr). cbn [orb].
  pose proof (orow_length r Hr) as Hlen. unfold lenZ in Hlen.
  apply (triple_bind _ _ _ _ _ (cull_cells_safe (ri + S m) ri (length (overlay_cells r)) 0 ltac:(lia) ltac:(lia) ltac:(lia))).
  intros [|]; [by apply triple_ret|]. rewrite Nat.add_succ_r. apply (IH (S ri)).
Qed.

Lemma cull_cursors_safe : preserves (pe_st w h 0 any_cursor) (cull_cursors f).
Proof.
  apply triple_bind_get. intros p _. cbv zeta. match goal with |- triple _ (if ?x && _ then _ else _) _ => generalize x end. intros bad.
  destruct (bad && _); [apply reset_engine_safe|]. apply triple_seq.
  { apply triple_when. intros _. apply triple_modify. intros q ([] & _). split_and!; [by split|cbn; lia|done]. }
  intros _. apply triple_modify. intros q ([] & _). split_and!; [|cbn; lia|done]. split; try done. cbn. by apply Forall_filter_keep.
Qed.

(** ** Keys *)

Lemma predict_cell_safe n b ri i k : (ri < n)%nat -> 0 <= i < w ->
  (forall c, ocell_ok i c -> exists c', k c = Ok c' /\ ocell_ok i c') -> preserves (pe_st w h n b) (predict_cell now ri i k).
Proof.
  intros Hri Hi Hk. apply triple_bind_get. intros p (Hp & _). apply with_ocell_safe; [done..|]. intros c [Hc _]. apply Hk.
  split; [unfold predict_in, reset_with_orig; by destruct (_ || _)|]. apply (pi_epochs _ _ _ Hp).
Qed.

Lemma get_or_make_row_safe n b row : 0 <= row < h ->
  triple (pe_st w h n b) (get_or_make_row row w) (fun ri p => pe_st w h (S ri) b p).
Proof.
  intros Hrow p Hp. pose proof Hp as ([Hr Hn Hcu Hu He Hw_ Hh_] & Hl & Hb). unfold get_or_make_row, get, mbind, M_bind.
  assert (Hfind : forall rs, match find_row row rs with
    | Some ri => (ri < length rs)%nat | None => row ∉ row_num <$> rs end).
  { induction rs as [|r rs IH]; cbn; [by apply not_elem_of_nil|]. destruct (Z.eqb_spec (row_num r) row); [lia|].
    destruct (find_row row rs); cbn; [lia|]. apply not_elem_of_cons. split; [congruence|done]. }
  specialize (Hfind (overlays p)). destruct (find_row row (overlays p)) as [ri|].
  - exists ri, p. split; [done|]. split_and!; [done|lia|done].
  - do 2 eexists. split; [done|]. split_and!; [|cbn; rewrite length_app; cbn; lia|done]. split; try done; cbn.
    + apply Forall_app. split; [done|]. apply Forall_singleton. split; [done|]. cbn. split; [rewrite <- list_fmap_compose; apply list_fmap_id|].
      apply Forall_fmap, Forall_forall. intros x _. apply He.
    + rewrite fmap_app. apply NoDup_app. split_and!; [done| |apply NoDup_singleton]. intros x Hx ->%list_elem_of_singleton. done.
Qed.

Lemma with_cursor_some n k : (forall c, move_ok w h c -> move_ok w h (k c)) -> preserves (pe_st w h n some_cursor) (with_cursor k).
Proof.
  intros Hk p Hp. pose proof Hp as (Hi & Hl & Hs). destruct (last (cursors p)) as [c|] eqn:E; [|by apply last_None in E].
  destruct (with_cursor_at n (cm_row c) (cm_col c) (fun _ => k c) (cm_row (k c)) (cm_col (k c))) with (s := p) as (u & q & Eq & Hq).
  - intros _ _ _ _. split; [|done]. by apply Hk, (last_move_ok p).
  - split_and!; [done..|]. by exists c.
  - exists u, q. split; [|by apply cursor_at_some in Hq]. revert Eq. unfold with_cursor, cursor_, mbind, M_bind, gets. by rewrite E.
Qed.

Lemma expire_cursor_safe n row col : preserves (pe_st w h n (cursor_at row col)) (expire_cursor now).
Proof. apply triple_bind_get. intros p _. by apply with_cursor_at. Qed.

Lemma move_cursor_safe n row col k : 0 <= col + k < w ->
  triple (pe_st w h n (cursor_at row col)) (move_cursor now k) (fun _ => pe_st w h n (cursor_at row (col + k))).
Proof.
  intros Hk. apply (triple_bind _ _ _ (fun _ => pe_st w h n (cursor_at row (col + k)))); [|intros _; apply expire_cursor_safe].
  apply with_cursor_at. intros c (? & ? & ?) <- <-. by split_and!.
Qed.

Lemma newline_safe n b : triple (pe_st w h n b) (newline_carriage_return now f) (fun _ => pe_st w h 0 some_cursor).
Proof.
  apply (triple_bind _ _ _ _ _ (init_cursor_safe n b)). intros _.
  apply triple_seq; [apply with_cursor_some; intros c (? & ? & ?); split_and!; try done; cbn; lia|]. intros _.
  apply (triple_bind _ _ _ _ _ (cursor_safe n)). intros c. apply triple_pure. intros Hc. rewrite Hheight.
  destruct (Z.eqb_spec (cm_row c) (h - 1)) as [E|E].
  - rewrite Hwidth. apply (triple_bind _ _ _ _ _ (get_or_make_row_safe n _ (cm_row c) ltac:(apply Hc))). intros ri.
    apply triple_modify. intros q Hq. apply cursor_at_some in Hq as ([Hr Hn Hcu Hu He Hw_ Hh_] & Hl & Hs).
    split_and!; [split; try done|cbn; lia|done]; cbn.
    + apply Forall_alter; [done|]. intros r _ (Hrn & Hcs & _). split; [done|]. cbn. split; [by rewrite <- list_fmap_compose, <- Hcs|].
      apply Forall_fmap, Forall_forall. intros x _. apply He.
    + by rewrite fmap_alter_same.
  - eapply triple_conseq; [eapply (with_cursor_at n (cm_row c) (cm_col c) _ (cm_row c + 1) (cm_col c))|intros p Hp; exact Hp|].
    + intros c' (? & ? & ?) ? ?. destruct Hc as (? & ? & ?). unfold move_ok, cm_col in *. cbn in *. split_and!; try done; lia.
    + intros ? q Hq%cursor_at_some. revert Hq. apply pe_st_mono; [lia|done].
Qed.

Lemma take_from_ok j n x c : ocell_ok j c -> ocell_ok j (take_from n x c).
Proof. unfold take_from. by repeat case_match. Qed.

Lemma backspace_cell_safe n b ri row i : (ri < n)%nat -> 0 <= row < h -> 0 <= i < w ->
  preserves (pe_st w h n b) (backspace_cell now f ri row i).
Proof.
  intros Hri Hrow Hi. unfold backspace_cell. rewrite Hwidth.
  apply bind_cell; [done|lia|]. intros x.
  apply triple_seq; [apply predict_cell_safe; [done..|]; intros c Hc; by eexists|]. intros _.
  destruct (Z.ltb_spec (i + 2) w); [|apply with_ocell_safe; [done..|]; intros c Hc; by eexists].
  apply (triple_bind _ _ _ _ _ (ocell_safe n b ri (i + 1) Hri ltac:(lia))). intros c. apply triple_pure. intros _.
  apply bind_cell; [done|lia|]. intros y.
  apply with_ocell_safe; [done..|]. intros c' Hc'. eexists. split; [done|]. by apply take_from_ok.
Qed.

Lemma predict_backspace_safe n : triple (pe_st w h n some_cursor) (predict_backspace now f) (fun _ => pe_st w h 0 some_cursor).
Proof.
  apply (triple_bind _ _ _ _ _ (cursor_safe n)). intros c. apply triple_pure. intros (Hrow & Hcol & _). rewrite Hwidth.
  apply (triple_bind _ _ _ _ _ (get_or_make_row_safe n _ (cm_row c) Hrow)). intros ri.
  assert (Hend : forall q m col, pe_st w h m (cursor_at (cm_row c) col) q -> pe_st w h 0 some_cursor q).
  { intros q m col Hq%cursor_at_some. revert Hq. apply pe_st_mono; [lia|done]. }
  destruct (Z.ltb_spec 0 (cm_col c)); [|apply triple_ret; intros q; apply Hend].
  apply (triple_bind _ _ _ _ _ (move_cursor_safe (S ri) (cm_row c) (cm_col c) (-1) ltac:(lia))). intros _. apply triple_bind_get. intros p _.
  eapply (triple_conseq _ _ _ _ (fun _ => pe_st w h (S ri) (cursor_at (cm_row c) (cm_col c + -1)))); [|intros q Hq; exact Hq|intros ? q; apply Hend].
  destruct (predict_overwrite p).
  - apply (triple_bind_lift _ _ _ _ (fun _ => True)); [destruct (cell_of_cursor w h f Hf); eauto|]. intros x _.
    apply predict_cell_safe; [lia..|]. intros c' Hc'. by eexists.
  - apply triple_for_range. intros i Hi. apply backspace_cell_safe; [lia|done|lia].
Qed.

Lemma insert_cell_at_safe n b ri row i : (ri < n)%nat -> 0 <= row < h -> 0 < i < w ->
  preserves (pe_st w h n b) (insert_cell_at now f ri row i).
Proof.
  intros Hri Hrow Hi. unfold insert_cell_at. rewrite Hwidth.
  apply bind_cell; [done|lia|]. intros x.
  apply triple_seq; [apply predict_cell_safe; [done|lia|]; intros c Hc; by eexists|]. intros _.
  apply (triple_bind _ _ _ _ _ (ocell_safe n b ri (i - 1) Hri ltac:(lia))). intros c. apply triple_pure. intros _.
  apply bind_cell; [done|lia|]. intros y.
  destruct (i =? w - 1); (apply with_ocell_safe; [done|lia|]; intros c' Hc'; eexists; split; [done|]); [done|by apply take_from_ok].
Qed.

Lemma guess_renditions_safe n b ri row col : (ri < n)%nat -> 0 <= row < h -> 0 <= col < w ->
  preserves (pe_st w h n b) (guess_renditions f ri row col).
Proof.
  intros Hri Hrow Hcol. unfold guess_renditions. destruct (Z.ltb_spec 0 col); [|by apply triple_ret].
  apply (triple_bind _ _ _ _ _ (ocell_safe n b ri (col - 1) Hri ltac:(lia))). intros c. apply triple_pure. intros _.
  apply bind_cell; [done|lia|]. intros y.
  by apply triple_ret.
Qed.

Lemma predict_char_safe n c : is_scalar c = true ->
  triple (pe_st w h n some_cursor) (predict_char now f c) (fun _ => pe_st w h 0 some_cursor).
Proof.
  intros Hs. apply (triple_bind _ _ _ _ _ (cursor_safe n)). intros cur. apply triple_pure. intros (Hrow & Hcol & _). cbv zeta. rewrite Hwidth, Hheight.
  do 4 (apply triple_seq; [apply triple_assert; intros; split; [lia|done]|intros _]).
  apply (triple_bind _ _ _ _ _ (get_or_make_row_safe n _ (cm_row cur) Hrow)). intros ri.
  apply triple_seq; [apply triple_when; intros _; apply tentative_safe|]. intros _. apply triple_bind_get. intros p _.
  apply triple_seq.
  { apply triple_for_n. intros k Hk. apply insert_cell_at_safe; [lia|done|]. destruct (predict_overwrite p); lia. }
  intros _. apply triple_seq; [apply predict_cell_safe; [lia|done|]; intros x Hx; by eexists|]. intros _.
  apply triple_seq; [apply guess_renditions_safe; lia|]. intros r. apply bind_cell; [done..|]. intros x.
  apply triple_seq.
  { apply with_ocell_safe; [lia|done|]. intros y Hy.
    match goal with |- context [Cell_append c ?z] => destruct (Cell_append_ok c z Hs) as (z' & -> & _) end. by eexists. }
  intros _. apply triple_seq; [apply expire_cursor_safe|]. intros _.
  destruct (Z.ltb_spec (cm_col cur) (w - 1)).
  - eapply triple_conseq; [eapply (with_cursor_at (S ri) (cm_row cur) (cm_col cur) _ (cm_row cur) (cm_col cur + 1))|intros q Hq; exact Hq|].
    + intros c' (? & ? & ?) ? ?. unfold move_ok, on_move, cm_col in *. cbn in *. split_and!; try done; lia.
    + intros ? q Hq%cursor_at_some. revert Hq. apply pe_st_mono; [lia|done].
  - apply triple_seq; [apply tentative_safe|]. intros _. apply newline_safe.
Qed.

Lemma predict_action_safe a : action_wf a -> preserves (pe_st w h 0 any_cursor) (predict_action now f a).
Proof.
  intros Ha. assert (Hany : forall q, pe_st w h 0 some_cursor q -> pe_st w h 0 any_cursor q) by (intros q; by apply pe_st_mono).
  unfold predict_action, action_wf in *. destruct (typ a); try by apply triple_ret.
  - apply (triple_bind _ _ _ _ _ (init_cursor_safe 0 any_cursor)). intros _. destruct Ha as (Hp & Hs & _).
    apply triple_seq; [by apply triple_assert|]. intros _. destruct (_ =? _); [|destruct (_ || _)].
    + eapply triple_conseq; [apply predict_backspace_safe|done|auto].
    + eapply triple_conseq; [apply tentative_safe|intros q Hq; exact Hq|auto].
    + eapply triple_conseq; [by apply predict_char_safe|done|auto].
  - apply triple_seq; [apply tentative_safe|]. intros _. destruct (_ && _); [|by apply triple_ret].
    eapply triple_conseq; [apply (newline_safe 0 any_cursor)|done|auto].
  - apply tentative_safe.
  - assert (Hmove : forall g k, (forall c, move_ok w h c -> g c = true -> 0 <= cm_col c + k < w) ->
      triple (pe_st w h 0 any_cursor) (init_cursor f ;; c ← cursor_; when_ (g c) (move_cursor now k)) (fun _ => pe_st w h 0 any_cursor)).
    { intros g k Hk. apply (triple_bind _ _ _ _ _ (init_cursor_safe 0 any_cursor)). intros _.
      apply (triple_bind _ _ _ _ _ (cursor_safe 0)). intros c. apply triple_pure. intros Hc. unfold when_. destruct (g c) eqn:E.
      - eapply triple_conseq; [apply (move_cursor_safe 0 (cm_row c) (cm_col c) k); auto|done|]. intros ? q Hq%cursor_at_some. auto.
      - apply triple_ret. intros q Hq%cursor_at_some. auto. }
    unfold predict_csi. rewrite Hwidth. destruct (_ && _); [apply Hmove|destruct (_ && _); [apply Hmove|apply tentative_safe]];
      intros c (_ & ? & _); [rewrite Z.ltb_lt|rewrite Z.ltb_lt]; lia.
Qed.

(** ** Whole operations, from an engine that was used with any screen *)

Lemma resize_safe w0 h0 : triple (pe_inv w0 h0)
  (p ← get; when_ (negb (last_height p =? height (ds f)) || negb (last_width p =? width (ds f)))
    (modify (fun p => pe_reset (p <| last_height := height (ds f) |> <| last_width := width (ds f) |>))))
  (fun _ => pe_st w h 0 any_cursor).
Proof.
  intros p Hi. unfold get, mbind, M_bind, when_. pose proof Hi as [Hr Hn Hcu Hu He Hw_ Hh_]. rewrite Hwidth, Hheight, Hw_, Hh_.
  destruct (Z.eqb_spec h0 h) as [->|]; [destruct (Z.eqb_spec w0 w) as [->|]|]; cbn [negb orb]; [exists tt, p; split; [done|split_and!; [done|cbn; lia|done]]|..];
    (do 2 eexists; split; [done|]); by apply pe_reset_ok.
Qed.

Lemma triggers_fields p : let q := update_triggers p in
  overlays q = overlays p /\ cursors q = cursors p /\ pe_parser q = pe_parser p /\ last_width q = last_width p /\ last_height q = last_height p.
Proof. unfold update_triggers. cbv zeta. by repeat case_match. Qed.

Lemma cull_safe w0 h0 p : pe_inv w0 h0 p -> exists p', cull now f p = Ok (tt, p') /\ (if prefers Never p then p' = p else pe_inv w h p').
Proof.
  intros Hi. unfold cull, mbind at 1, M_bind at 1, get. destruct (prefers Never p); [by exists p|].
  destruct (resize_safe w0 h0 p Hi) as ([] & p1 & E1 & H1).
  assert (triple (pe_st w h 0 any_cursor) (modify update_triggers ;; n ← gets (fun p => length (overlays p)); stop ← cull_rows n now f 0;
    if (stop : bool) then mret tt else cull_cursors f) (fun _ => pe_st w h 0 any_cursor)) as Ht.
  { apply triple_seq; [apply engine_field_safe; [apply triggers_fields|intros q ? ?; unfold update_triggers; by repeat case_match]|]. intros _ q Hq. unfold gets, mbind at 1, M_bind at 1.
    destruct (cull_rows_safe (length (overlays q)) 0 q) as (stop & q' & E & Hq'); [destruct Hq as (? & ? & ?); by split_and!|].
    unfold mbind, M_bind. rewrite E. destruct stop; [by exists tt, q'|]. by apply cull_cursors_safe. }
  destruct (Ht p1 H1) as ([] & p2 & E2 & (H2 & _)). exists p2. split; [|done].
  unfold mbind at 1, M_bind at 1. revert E1. unfold mbind at 1, M_bind at 1, get. intros ->. exact E2.
Qed.

Lemma parser_safe c : is_u8 c ->
  triple (pe_st w h 0 any_cursor) (zoom pe_parser (fun u p => p <| pe_parser := u |>) (utf8_input c []))
    (fun acts p => pe_st w h 0 any_cursor p /\ Forall action_wf acts).
Proof.
  intros [Hc _] p ([Hr Hn Hcu Hu He Hw_ Hh_] & _). destruct (utf8_input_run c [] (pe_parser p) Hu Hc) as (cs & u & E & Hcs & _ & Hw').
  unfold zoom. rewrite E. do 2 eexists. split; [done|]. split; [split_and!; [by split|cbn; lia|done]|]. by apply parse_run_wf, octet_codes_scalar.
Qed.

Lemma new_user_byte_safe w0 h0 p c : pe_inv w0 h0 p -> is_u8 c ->
  exists p', new_user_byte now f c p = Ok (tt, p') /\ (if prefers Never p then p' = p else pe_inv w h p').
Proof.
  intros Hi Hc. unfold new_user_byte, mbind at 1, M_bind at 1, get. destruct (prefers Never p) eqn:En; [by exists p|].
  set (p0 := if prefers Experimental p then p <| prediction_epoch := confirmed_epoch p |> else p).
  assert (H0 : pe_inv w0 h0 p0 /\ prefers Never p0 = false) by (subst p0; destruct (prefers Experimental p); [|done]; destruct Hi as [? ? ? ? [? ?] ? ?]; split; [by split|done]).
  destruct (cull_safe w0 h0 p0 (proj1 H0)) as (p1 & E1 & H1). rewrite (proj2 H0) in H1.
  assert (Ea : (when_ (prefers Experimental p) (modify (fun p => p <| prediction_epoch := confirmed_epoch p |>)) : M _ _) p = Ok (tt, p0))
    by (subst p0; by destruct (prefers Experimental p)).
  unfold mbind at 1, M_bind at 1. rewrite Ea. unfold mbind at 1, M_bind at 1. rewrite E1.
  match goal with |- exists p', ?m p1 = _ /\ _ => assert (Ht : triple (pe_st w h 0 any_cursor) m (fun _ => pe_st w h 0 any_cursor)) end.
  { apply (triple_bind_get _ (fun q => _)). intros q _. cbv zeta. apply triple_seq; [by apply engine_field_safe|]. intros _.
    eapply triple_bind; [apply parser_safe; by destruct (_ && _)|]. intros acts. apply triple_pure. induction 1 as [|a acts Ha _ IH]; cbn [for_each]; [by apply triple_ret|].
    apply triple_seq; [by apply predict_action_safe|by intros _]. }
  destruct (Ht p1) as ([] & p2 & E2 & (H2 & _)); [split_and!; [done|cbn; lia|done]|]. exists p2. by split.
Qed.
End safety.
