(* ===== verification/OverlayDraw.v ===== *)
(** * What the prediction engine draws

    Every cell and the cursor of the screen after [PredictionEngine::apply],
    and what is left of the predictions once the host has settled them. *)
From S2P Require Export OverlaySpec.

(** ** Cells of a screen *)

Definition frame_cell (f : Framebuffer) (row col : Z) : option Cell := lookupZ (rows f) row ≫= (fun r => lookupZ (cells r) col).

Definition on_cell (row col : Z) (g : Cell -> Cell) (rs : list Row) : list Row :=
  alter (fun r => r <| cells := alter g (Z.to_nat col) (cells r) |>) (Z.to_nat row) rs.

Lemma lookupZ_alter {A} (g : A -> A) (l : list A) i j : 0 <= i -> 0 <= j ->
  lookupZ (alter g (Z.to_nat i) l) j = (if i =? j then g <$> lookupZ l j else lookupZ l j).
Proof.
  intros Hi Hj. unfold lookupZ. rewrite !decide_True by lia. destruct (Z.eqb_spec i j) as [<-|Hne]; [by rewrite list_lookup_alter_eq|].
  rewrite list_lookup_alter_ne by lia. done.
Qed.

Lemma alter_alter {A} (g k : A -> A) (i : nat) (l : list A) : alter g i (alter k i l) = alter (fun x => g (k x)) i l.
Proof. revert i. induction l as [|x l IH]; intros [|i]; cbn; [done..|]. f_equal. apply IH. Qed.

Lemma cell_at_neg f row col : row < 0 \/ col < 0 -> frame_cell f row col = None.
Proof.
  unfold frame_cell, lookupZ. intros H. destruct (decide (0 <= row)); [|done]. destruct (rows f !! Z.to_nat row) as [r|]; [|done]. cbn.
  by rewrite decide_False by lia.
Qed.

Lemma cell_at_on_cell s row col g r c : 0 <= row -> 0 <= col ->
  frame_cell (fb (put_rows (on_cell row col g (rows (fb s))) s)) r c =
  (if (row =? r) && (col =? c) then g <$> frame_cell (fb s) r c else frame_cell (fb s) r c).
Proof.
  intros Hr Hc. destruct (decide (r < 0 \/ c < 0)) as [Hn|Hn]; [rewrite !cell_at_neg by done; by destruct (_ && _)|].
  unfold frame_cell, on_cell. cbn. rewrite lookupZ_alter by lia. destruct (Z.eqb_spec row r) as [<-|]; cbn [andb]; [|done].
  destruct (lookupZ (rows (fb s)) row) as [x|]; cbn; [|by destruct (_ =? _)]. by rewrite lookupZ_alter by lia.
Qed.

Lemma cell_at_Some w h f row col : screen_ok w h f -> 0 <= row < h -> 0 <= col < w -> exists x, frame_cell f row col = Some x.
Proof.
  intros [Hf _ _] Hr Hc. destruct (fo_rows _ _ _ Hf) as [Hl Hrs]. unfold frame_cell.
  destruct (lookupZ_lt (rows f) row) as [r E]; [lia|]. rewrite E. cbn. pose proof (lookupZ_Forall _ _ _ _ Hrs E) as Hrl. unfold row_len in Hrl.
  apply lookupZ_lt. lia.
Qed.

Lemma get_cell_frame s row col x : frame_cell (fb s) row col = Some x -> get_cell row col s = Ok (x, s).
Proof.
  intros E. destruct (decide (row < 0 \/ col < 0)) as [Hn|Hn]; [by rewrite cell_at_neg in E|]. unfold frame_cell in E.
  unfold get_cell, get_row, mbind, M_bind, gets, lift, resolve_row, resolve_col, at_.
  rewrite (proj2 (Z.eqb_neq row (-1))) by lia. destruct (lookupZ (rows (fb s)) row) as [r|]; [|done]. cbn in E |- *.
  rewrite (proj2 (Z.eqb_neq col (-1))) by lia. by rewrite E.
Qed.

Lemma with_cell_at s row col k x x' : frame_cell (fb s) row col = Some x -> k x = Ok x' ->
  with_cell row col k s = Ok (tt, put_rows (on_cell row col (fun _ => x') (rows (fb s))) s).
Proof.
  intros E Ek. destruct (decide (row < 0 \/ col < 0)) as [Hn|Hn]; [by rewrite cell_at_neg in E|]. unfold frame_cell in E.
  unfold with_cell, with_row, get_row, mbind, M_bind, gets, lift, modify, resolve_row, resolve_col, at_.
  rewrite (proj2 (Z.eqb_neq row (-1))), (proj2 (Z.eqb_neq col (-1))) by lia.
  destruct (lookupZ (rows (fb s)) row) as [r|] eqn:Er; [|done]. cbn in E |- *. rewrite E. cbn. rewrite Ek. cbn. do 2 f_equal.
  unfold put_rows, on_cell, updateZ. rewrite !decide_True by lia. f_equal. f_equal. unfold lookupZ in Er. rewrite decide_True in Er by lia.
  rewrite !list_insert_alter. apply list_alter_ext; [|done]. intros r' Hr'. rewrite Er in Hr'. by injection Hr' as <-.
Qed.

(** ** One prediction *)

(** A cell of the screen under a prediction. *)
Definition pred_cell (w confirmed : Z) (flag : bool) (c : ConditionalOverlayCell) (x : Cell) : Cell :=
  if negb (oc_active c) || tentative confirmed (oc_overlay c) then x else
  let flag := if is_blank (replacement c) && is_blank x then false else flag in
  if unknown c then if flag && negb (oc_col c =? w - 1) then underline x else x
  else if Cell_eqb x (replacement c) then x
  else if flag then underline (replacement c) else replacement c.

(** The screen the predictions are drawn on. *)
Definition canvas (w h : Z) (s : Screen) : Prop := screen_ok w h (fb s) /\ origin_mode (scr_ds s) = false.

Section draw.
Context (w h : Z).

Lemma drawable_on_cell row col g s : canvas w h s -> canvas w h (put_rows (on_cell row col g (rows (fb s))) s).
Proof.
  intros [[Hf Hr Hc] Ho]. split; [|done]. split; try done. destruct Hf as [? ? ? [Hl Hrs] ? ? ?]. split; try done. cbn. split.
  - unfold lenZ, on_cell in *. by rewrite length_alter.
  - apply Forall_alter; [done|]. intros r _ Hrl. unfold row_len, lenZ in *. cbn. by rewrite length_alter.
Qed.

(** The screen [s'] is [s] with the cell under the prediction changed. *)
Definition draws_cell (confirmed row : Z) (flag : bool) (c : ConditionalOverlayCell) (s s' : Screen) : Prop :=
  canvas w h s' /\ scr_ds s' = scr_ds s /\
  forall r col, frame_cell (fb s') r col =
    (if (row =? r) && (oc_col c =? col) then pred_cell w confirmed flag c <$> frame_cell (fb s) r col else frame_cell (fb s) r col).

Lemma draws_cell_same confirmed row flag c s x :
  canvas w h s -> frame_cell (fb s) row (oc_col c) = Some x -> pred_cell w confirmed flag c x = x -> draws_cell confirmed row flag c s s.
Proof.
  intros Hs Ex Hp. split_and!; [done..|]. intros r col. destruct (Z.eqb_spec row r) as [<-|]; cbn [andb]; [|done].
  destruct (Z.eqb_spec (oc_col c) col) as [<-|]; [|done]. rewrite Ex. cbn. by rewrite Hp.
Qed.

Lemma draws_cell_set confirmed row flag c s x y :
  canvas w h s -> 0 <= row -> 0 <= oc_col c -> frame_cell (fb s) row (oc_col c) = Some x -> pred_cell w confirmed flag c x = y ->
  draws_cell confirmed row flag c s (put_rows (on_cell row (oc_col c) (fun _ => y) (rows (fb s))) s).
Proof.
  intros Hs Hr Hc Ex <-. split_and!; [by apply drawable_on_cell|done|]. intros r col. rewrite cell_at_on_cell by lia.
  destruct (Z.eqb_spec row r) as [<-|]; cbn [andb]; [|done]. destruct (Z.eqb_spec (oc_col c) col) as [<-|]; [|done]. by rewrite Ex.
Qed.

Lemma on_cell_twice row col x y s :
  let s1 := put_rows (on_cell row col (fun _ => x) (rows (fb s))) s in
  put_rows (on_cell row col (fun _ => y) (rows (fb s1))) s1 = put_rows (on_cell row col (fun _ => y) (rows (fb s))) s.
Proof.
  destruct s as [g []]. unfold put_rows, on_cell, set_field. cbn. do 2 f_equal. rewrite alter_alter. apply list_alter_ext; [|done].
  intros r _. cbn. by rewrite alter_alter.
Qed.

Lemma apply_cell_draws confirmed row flag c s : canvas w h s -> 0 <= row < h -> 0 <= oc_col c < w ->
  exists s', apply_cell confirmed row flag c s = Ok (tt, s') /\ draws_cell confirmed row flag c s s'.
Proof.
  intros Hs Hrow Hcol. destruct (cell_at_Some w h (fb s) row (oc_col c) (proj1 Hs) Hrow Hcol) as [x Ex].
  pose proof (so_frame _ _ _ (proj1 Hs)) as Hok. pose proof (fo_width _ _ _ Hok) as Hw. pose proof (fo_height _ _ _ Hok) as Hh.
  pose proof (draws_cell_same confirmed row flag c s x Hs Ex) as Hkeep.
  pose proof (fun y => draws_cell_set confirmed row flag c s x y Hs (proj1 Hrow) (proj1 Hcol) Ex) as Hset.
  unfold apply_cell, gets, mbind at 1, M_bind at 1, outside. rewrite Hw, Hh, (proj2 (Z.leb_gt h row)), (proj2 (Z.leb_gt w (oc_col c))) by lia.
  cbn [orb]. rewrite orb_false_r. unfold pred_cell in Hkeep, Hset.
  destruct (negb (oc_active c)); [exists s; auto|]. cbn [orb] in *. destruct (tentative confirmed (oc_overlay c)); [exists s; auto|].
  assert (Eb : (if is_blank (replacement c) then x ← get_cell row (oc_col c); mret (is_blank x) else mret false : M Screen bool) s =
    Ok (is_blank (replacement c) && is_blank x, s)).
  { destruct (is_blank (replacement c)); [|done]. unfold mbind, M_bind. by rewrite (get_cell_frame _ _ _ _ Ex). }
  unfold mbind at 1, M_bind at 1. rewrite Eb. clear Eb. set (fl := if is_blank _ && _ then false else flag) in *.
  destruct (unknown c).
  - unfold when_. destruct (fl && _); [|exists s; auto]. rewrite (with_cell_at _ _ _ (fun x => Ok (underline x)) _ _ Ex eq_refl). eauto.
  - unfold mbind at 1, M_bind at 1. rewrite (get_cell_frame _ _ _ _ Ex). unfold when_ at 1.
    destruct (Cell_eqb x (replacement c)); cbn [negb]; [exists s; auto|]. unfold mbind, M_bind.
    rewrite (with_cell_at _ _ _ (fun _ => Ok (replacement c)) _ _ Ex eq_refl).
    unfold when_. destruct fl; [|eauto].
    set (s1 := put_rows _ s). assert (E1 : frame_cell (fb s1) row (oc_col c) = Some (replacement c)).
    { subst s1. rewrite cell_at_on_cell, !Z.eqb_refl by lia. cbn [andb]. by rewrite Ex. }
    rewrite (with_cell_at _ _ _ (fun x => Ok (underline x)) _ _ E1 eq_refl). subst s1. rewrite on_cell_twice. eauto.
Qed.

(** ** All of them *)

Lemma apply_row_draws confirmed row flag cs : forall i s, canvas w h s -> 0 <= row < h -> 0 <= i -> oc_col <$> cs = seqZ i (w - i) ->
  exists s', for_each cs (apply_cell confirmed row flag) s = Ok (tt, s') /\ canvas w h s' /\ scr_ds s' = scr_ds s /\
    forall r col, frame_cell (fb s') r col =
      (if row =? r then match lookupZ cs (col - i) with Some c => pred_cell w confirmed flag c <$> frame_cell (fb s) r col | None => frame_cell (fb s) r col end
       else frame_cell (fb s) r col).
Proof.
  induction cs as [|c cs IH]; intros i s Hs Hrow Hi Hcs.
  - exists s. split_and!; try done. intros r col. destruct (_ =? _); [|done]. unfold lookupZ. case_decide; [|done]. by rewrite lookup_nil.
  - cbn in Hcs. destruct (decide (w - i <= 0)) as [Hle|Hgt]; [by rewrite seqZ_nil in Hcs by lia|]. rewrite seqZ_cons in Hcs by lia. injection Hcs as Hc Hcs.
    destruct (apply_cell_draws confirmed row flag c s Hs Hrow ltac:(lia)) as (s1 & E1 & Hs1 & Hd1 & H1).
    destruct (IH (i + 1) s1) as (s' & E & Hs' & Hd' & H'); [done|done|lia|rewrite Hcs; f_equal; lia|].
    exists s'. split_and!; [|done|by rewrite Hd'|].
    + cbn [for_each]. unfold mbind, M_bind. by rewrite E1.
    + intros r col. rewrite H', H1. destruct (Z.eqb_spec row r) as [<-|]; cbn [andb]; [|done].
      destruct (Z.eqb_spec (oc_col c) col) as [<-|Hne].
      * rewrite Hc, Z.sub_diag. unfold lookupZ. rewrite decide_False by lia. done.
      * unfold lookupZ. destruct (decide (0 <= col - i)); [|by rewrite decide_False by lia]. rewrite decide_True by lia.
        by replace (Z.to_nat (col - i)) with (S (Z.to_nat (col - (i + 1)))) by lia.
Qed.

(** The prediction for a cell. *)
Fixpoint predicted_in (rs : list ConditionalOverlayRow) (row col : Z) : option ConditionalOverlayCell :=
  match rs with
  | [] => None
  | r :: rs' => if row_num r =? row then lookupZ (overlay_cells r) col else predicted_in rs' row col
  end.

(** A cell with what is predicted for it, if anything. *)
Definition under (confirmed : Z) (flag : bool) (c : option ConditionalOverlayCell) (x : Cell) : Cell :=
  match c with Some c => pred_cell w confirmed flag c x | None => x end.

Lemma predicted_in_absent rs row col : row ∉ row_num <$> rs -> predicted_in rs row col = None.
Proof.
  induction rs as [|r rs IH]; cbn; [done|]. intros [Hne Hr]%not_elem_of_cons. rewrite (proj2 (Z.eqb_neq _ _)) by congruence. auto.
Qed.

Lemma apply_rows_draws confirmed flag rs : forall s, canvas w h s -> Forall (orow_ok w h) rs -> NoDup (row_num <$> rs) ->
  exists s', for_each rs (apply_row confirmed flag) s = Ok (tt, s') /\ canvas w h s' /\ scr_ds s' = scr_ds s /\
    forall r col, frame_cell (fb s') r col = under confirmed flag (predicted_in rs r col) <$> frame_cell (fb s) r col.
Proof.
  induction rs as [|r0 rs IH]; intros s Hs Hok Hnd.
  - exists s. split_and!; try done. intros r col. cbn. by destruct (frame_cell _ _ _).
  - apply Forall_cons in Hok as [(Hn & Hcs & _) Hok]. cbn in Hnd. apply NoDup_cons in Hnd as [Hnot Hnd].
    destruct (apply_row_draws confirmed (row_num r0) flag (overlay_cells r0) 0 s) as (s1 & E1 & Hs1 & Hd1 & H1); [done|done|lia|by rewrite Z.sub_0_r|].
    destruct (IH s1 Hs1 Hok Hnd) as (s' & E & Hs' & Hd' & H'). exists s'. split_and!; [|done|by rewrite Hd'|].
    + cbn [for_each]. unfold mbind, M_bind, apply_row at 1. by rewrite E1.
    + intros r col. rewrite H', H1. cbn [predicted_in]. destruct (Z.eqb_spec (row_num r0) r) as [<-|]; [|done].
      rewrite predicted_in_absent by done. rewrite Z.sub_0_r. destruct (lookupZ (overlay_cells r0) col), (frame_cell _ _ _); done.
Qed.

(** ** The cursor *)

(** A cursor prediction that is shown. *)
Definition displayed (confirmed : Z) (c : ConditionalCursorMove) : bool := o_active (cm_overlay c) && negb (tentative confirmed (cm_overlay c)).

Lemma move_to row col d : 0 <= row < height d -> 0 <= col < width d -> 0 <= cursor_col d < width d -> origin_mode d = false ->
  let d' := move_col col false false (move_row row false d) in
  cursor_row d' = row /\ cursor_col d' = col /\ width d' = width d /\ height d' = height d /\ origin_mode d' = false.
Proof.
  intros Hr Hc Hc0 Ho. assert (E : forall d1, origin_mode d1 = false -> 0 <= cursor_row d1 < height d1 -> 0 <= cursor_col d1 < width d1 -> snap_cursor_to_border d1 = d1).
  { intros d1 E1 E2 E3. unfold snap_cursor_to_border, limit_top, limit_bottom. rewrite E1, (proj2 (Z.ltb_ge (cursor_row d1) 0)) by lia. cbv zeta.
    rewrite E1, (proj2 (Z.ltb_ge (height d1 - 1) (cursor_row d1))), (proj2 (Z.ltb_ge (cursor_col d1) 0)), (proj2 (Z.leb_gt (width d1) (cursor_col d1))) by lia. done. }
  unfold move_col, move_row. cbv zeta. unfold limit_top. rewrite Ho.
  rewrite (E (d <| cursor_row := row + 0 |>)) by (done || cbn; lia). rewrite E by (done || cbn; lia). cbn. by rewrite Z.add_0_r.
Qed.

Lemma apply_moves_draws confirmed cs : forall s, canvas w h s -> Forall (move_ok w h) cs ->
  exists s', for_each cs (apply_move confirmed) s = Ok (tt, s') /\ canvas w h s' /\ rows (fb s') = rows (fb s) /\
    (cursor_row (scr_ds s'), cursor_col (scr_ds s')) =
      match last (filter (fun c => displayed confirmed c = true) cs) with
      | Some c => (cm_row c, cm_col c)
      | None => (cursor_row (scr_ds s), cursor_col (scr_ds s))
      end.
Proof.
  induction cs as [|c cs IH]; intros s Hs Hok; [by exists s|]. apply Forall_cons in Hok as [(Hr & Hc & Ha) Hok]. cbn [for_each].
  assert (Hd : displayed confirmed c = negb (tentative confirmed (cm_overlay c))) by (unfold displayed; by rewrite Ha).
  unfold mbind at 1, M_bind at 1, apply_move at 1. rewrite Ha. cbn [negb].
  destruct (tentative confirmed (cm_overlay c)); [rewrite filter_cons_False by (by rewrite Hd); by apply IH|]. rewrite filter_cons_True by done.
  pose proof Hs as [[Hf Hcr Hcc] Ho]. pose proof (fo_width _ _ _ Hf) as Hw. pose proof (fo_height _ _ _ Hf) as Hh.
  destruct (move_to (cm_row c) (cm_col c) (ds (fb s))) as (E1 & E2 & E3 & E4 & E5); [lia..|done|].
  set (d' := move_col _ _ _ _) in *. set (s1 := put_ds d' s).
  assert (Em : (gets scr_ds ≫= fun d => assert_ (cm_row c <? height d) ;; assert_ (cm_col c <? width d) ;; assert_ (negb (origin_mode d)) ;;
    on_ds (move_row (cm_row c) false) ;; on_ds (move_col (cm_col c) false false) : M Screen unit) s = Ok (tt, s1)).
  { unfold gets, mbind, M_bind, scr_ds in *. rewrite Hw, Hh, (proj2 (Z.ltb_lt _ _)), (proj2 (Z.ltb_lt _ _)), Ho by lia. by destruct s. }
  clearbody d'.
  assert (Hs1 : canvas w h s1).
  { subst s1. split; [|done]. split; cbn; [|by rewrite E1|by rewrite E2]. destruct Hf. split; try done; cbn; congruence. }
  rewrite Em. destruct (IH s1 Hs1 Hok) as (s' & E & Hs' & Hrs & Hcur). exists s'. split_and!; [done|done|by rewrite Hrs|].
  rewrite Hcur, last_cons. destruct (last _); [done|]. subst s1. cbn. by rewrite E1, E2.
Qed.

(** ** The engine *)

(** Whether predictions are shown at all. *)
Definition displays (p : PredictionEngine) : bool :=
  negb (prefers Never p) && (srtt_trigger p || negb (glitch_trigger p =? 0) || prefers Always p || prefers Experimental p).

Definition shown_cell (p : PredictionEngine) (row col : Z) (x : Cell) : Cell :=
  if displays p then under (confirmed_epoch p) (flagging p) (predicted_in (overlays p) row col) x else x.
Definition shown_cursor (p : PredictionEngine) (cur : Z * Z) : Z * Z :=
  if displays p then
    match last (filter (fun c => displayed (confirmed_epoch p) c = true) (cursors p)) with
    | Some c => (cm_row c, cm_col c)
    | None => cur
    end
  else cur.

Lemma pe_apply_draws `{Libc} p s : pe_inv w h p -> canvas w h s ->
  exists s', pe_apply p s = Ok (tt, s') /\ canvas w h s' /\
    (forall row col, frame_cell (fb s') row col = shown_cell p row col <$> frame_cell (fb s) row col) /\
    (cursor_row (scr_ds s'), cursor_col (scr_ds s')) = shown_cursor p (cursor_row (scr_ds s), cursor_col (scr_ds s)).
Proof.
  intros Hp Hs. unfold pe_apply, shown_cell, shown_cursor. assert (Hd : displays p = negb (prefers Never p ||
    negb (srtt_trigger p || negb (glitch_trigger p =? 0) || prefers Always p || prefers Experimental p))).
  { unfold displays. by rewrite negb_orb, negb_involutive. }
  rewrite Hd. destruct (prefers Never p || _); cbn [negb].
  - exists s. split_and!; try done. intros row col. by destruct (frame_cell _ _ _).
  - destruct (apply_moves_draws (confirmed_epoch p) (cursors p) s Hs (pi_cursors _ _ _ Hp)) as (s1 & E1 & Hs1 & Hr1 & Hc1).
    destruct (apply_rows_draws (confirmed_epoch p) (flagging p) (overlays p) s1 Hs1 (pi_rows _ _ _ Hp) (pi_nodup _ _ _ Hp)) as (s2 & E2 & Hs2 & Hd2 & H2).
    exists s2. unfold mbind, M_bind. rewrite E1. split_and!; [done|done| |by rewrite Hd2].
    intros row col. rewrite H2. unfold frame_cell. by rewrite Hr1.
Qed.
End draw.

(** ** Runs of the engine *)

Inductive pe_op : Type :=
| Key (now : Z) (f : Framebuffer) (c : Z)
| Draw (now : Z) (f : Framebuffer)
| Sent (x : Z) | Acked (x : Z) | LateAcked (x : Z) | Interval (x : Z)
| Prefer (x : DisplayPreference) | Overwrite (x : bool) | ResetPredictions.

(** What the client does with each; [Draw] draws on a copy of the screen. *)
Definition pe_step `{Libc} (op : pe_op) : M PredictionEngine unit :=
  match op with
  | Key now f c => new_user_byte now f c
  | Draw now f => cull now f ;; p ← get; lift ('(_, s) ← pe_apply p (MkScreen 0 f); Ok tt)
  | Sent x => modify (set_local_frame_sent x)
  | Acked x => modify (set_local_frame_acked x)
  | LateAcked x => modify (set_local_frame_late_acked x)
  | Interval x => modify (set_send_interval x)
  | Prefer x => modify (set_display_preference x)
  | Overwrite x => modify (set_predict_overwrite x)
  | ResetPredictions => modify pe_reset
  end.

Definition pe_run `{Libc} (ops : list pe_op) : M PredictionEngine unit := for_each ops pe_step.

(** Octets, and screens of any size with the cursor in them; the terminal of a
    client is never in origin mode. *)
Definition pe_op_ok (op : pe_op) : Prop :=
  match op with
  | Key _ f c => is_u8 c /\ exists w h, screen_ok w h f
  | Draw _ f => exists w h, canvas w h (MkScreen 0 f)
  | _ => True
  end.

Section runs.
Context `{HL : Libc} `{HLL : !LibcLaws}.

Lemma pe_new_ok : (MB_CUR_MAX <= BUF_SIZE)%nat -> exists p, PredictionEngine_new = Ok p /\ pe_inv 0 0 p.
Proof.
  intros Hm. unfold PredictionEngine_new, UTF8Parser_new. rewrite bool_decide_true by done. cbn. eexists. split; [done|].
  split; try done; [apply NoDup_nil_2|by apply utf8_wf_empty].
Qed.

Lemma pe_step_ok op p w h : pe_inv w h p -> pe_op_ok op -> exists p' w' h', pe_step op p = Ok (tt, p') /\ pe_inv w' h' p'.
Proof.
  intros Hp Hop. destruct op as [now f c|now f| | | | | | |]; cbn [pe_step pe_op_ok] in *;
    try (do 3 eexists; split; [done|]; destruct Hp; split; done).
  - destruct Hop as (Hc & w' & h' & Hf). destruct (new_user_byte_safe w' h' now f Hf w h p c Hp Hc) as (p' & E & Hp').
    exists p'. destruct (prefers Never p); [subst; by exists w, h|by exists w', h'].
  - destruct Hop as (w' & h' & Hf). destruct (cull_safe w' h' now f (proj1 Hf) w h p Hp) as (p' & E & Hp').
    unfold mbind, M_bind, get. rewrite E. destruct (prefers Never p) eqn:En.
    + subst p'. exists p, w, h. split; [|done]. unfold pe_apply. by rewrite En.
    + destruct (pe_apply_draws w' h' p' _ Hp' Hf) as (s' & Es & _). exists p', w', h'. split; [|done]. by rewrite Es.
  - exists (pe_reset p). destruct Hp. do 2 eexists. split; [done|]. by apply pe_reset_ok.
Qed.

(** C33. Predicting never stops the client.  However keys, screens of the host
    of any size, acknowledgements, preferences and resets follow each other,
    [new_user_byte], [cull] and [apply] return: no assertion on the predicted
    cursor fails and no prediction is read outside its row; each row of
    predictions still has one prediction per column, and the predicted
    cursors are on the screen. *)
Theorem prediction_safe ops : (MB_CUR_MAX <= BUF_SIZE)%nat -> Forall pe_op_ok ops ->
  exists p p' w h, PredictionEngine_new = Ok p /\ pe_run ops p = Ok (tt, p') /\ pe_inv w h p'.
Proof.
  intros Hm Hops. destruct (pe_new_ok Hm) as (p & E & Hp). exists p.
  assert (Hrun : forall p w h, pe_inv w h p -> exists p' w h, pe_run ops p = Ok (tt, p') /\ pe_inv w h p').
  { clear E Hp p. induction Hops as [|op ops Hop _ IH]; intros p w h Hp; [by exists p, w, h|].
    destruct (pe_step_ok op p w h Hp Hop) as (p1 & w1 & h1 & E1 & H1). destruct (IH p1 w1 h1 H1) as (p' & w' & h' & E & H').
    exists p', w', h'. split; [|done]. cbn. unfold mbind, M_bind. by rewrite E1. }
  destruct (Hrun p 0 0 Hp) as (p' & w & h & E' & H'). by exists p', w, h.
Qed.

(** What the predictions draw.  After [PredictionEngine::apply] every cell
    of the screen is the host's cell under its prediction, and only active
    predictions of a confirmed epoch are drawn: a known one replaces the cell,
    underlined when the engine flags, an unknown one only underlines it, and
    nothing changes where host and prediction agree.  The cursor is at the
    last predicted position that is shown.  When the preferences or triggers
    hide predictions the screen is the host's. *)
Theorem predictions_drawn w h p s : pe_inv w h p -> canvas w h s ->
  exists s', pe_apply p s = Ok (tt, s') /\
    (forall row col, frame_cell (fb s') row col = shown_cell w p row col <$> frame_cell (fb s) row col) /\
    (cursor_row (scr_ds s'), cursor_col (scr_ds s')) = shown_cursor p (cursor_row (scr_ds s), cursor_col (scr_ds s)).
Proof. intros Hp Hs. destruct (pe_apply_draws w h p s Hp Hs) as (s' & ? & _ & ? & ?). by exists s'. Qed.
End runs.

(** ** A prompt *)

Definition sample_cell (c : Z) : Cell := (Cell_new 0) <| contents := [c] |>.
(** Six columns and two rows, with the cursor behind a prompt. *)
Definition prompt_screen : Framebuffer :=
  MkFramebuffer [MkRow (sample_cell 36 :: sample_cell 32 :: replicate 4 (Cell_new 0)) 1; Row_new 6 0 2]
    [] [] [] 0 false ((DrawState_new 6 2) <| cursor_col := 2 |>).
Definition sample_engine : PredictionEngine :=
  MkPredictionEngine 0 (MkUTF8Parser Ground []) [] [] 3 0 0 1 1 false false 0 0 250 2 6 Always false.

Lemma prompt_ok : screen_ok 6 2 prompt_screen.
Proof. split; [|cbn; lia|cbn; lia]. split; try done. split; [done|]. by repeat constructor. Qed.

Lemma sample_engine_ok : pe_inv 6 2 sample_engine.
Proof. split; try done; [apply NoDup_nil_2|]. split; [cbn; unfold BUF_SIZE; lia|by left]. Qed.

Lemma prediction_safe_witness :
  exists p p' w h, PredictionEngine_new = Ok p /\
    pe_run [Prefer Always; Draw 0 prompt_screen; Key 1 prompt_screen 97; Key 1 prompt_screen 127; Key 2 prompt_screen 13;
            Key 2 prompt_screen 0x1b; Key 2 prompt_screen 79; Key 2 prompt_screen 68; Draw 3 prompt_screen; LateAcked 1;
            Draw 300 prompt_screen; Draw 301 sample_last; ResetPredictions] p = Ok (tt, p') /\ pe_inv w h p'.
Proof.
  assert (canvas 6 2 (MkScreen 0 prompt_screen)) by (split; [apply prompt_ok|done]).
  assert (canvas 4 2 (MkScreen 0 sample_last)) by (split; [split; [apply sample_last_ok|cbn; lia..]|done]).
  apply prediction_safe; [cbn; unfold BUF_SIZE; lia|]. repeat (apply Forall_cons; split); cbn [pe_op_ok]; try done;
    try (split; [by split|]); try (exists 6, 2; done || apply prompt_ok); by exists 4, 2.
Defined.

Lemma predictions_drawn_witness :
  exists p, new_user_byte 5 prompt_screen 97 sample_engine = Ok (tt, p) /\
  exists s', pe_apply p (MkScreen 0 prompt_screen) = Ok (tt, s') /\
    (forall row col, frame_cell (fb s') row col = shown_cell 6 p row col <$> frame_cell prompt_screen row col) /\
    (cursor_row (scr_ds s'), cursor_col (scr_ds s')) = shown_cursor p (0, 2).
Proof.
  destruct (new_user_byte_safe 6 2 5 prompt_screen prompt_ok 6 2 sample_engine 97 sample_engine_ok) as (p & E & Hp); [by split|].
  exists p. split; [done|]. apply (predictions_drawn 6 2 p (MkScreen 0 prompt_screen) Hp). split; [apply prompt_ok|done].
Defined.
