(* ===== verification/OverlaySettle.v ===== *)
(** * Predictions that are settled

    Once the host has seen the keys that were predicted, checking the
    predictions against its screen leaves none that changes the screen. *)
From S2P Require Export OverlayDraw.

(** ** What is still outstanding *)

(** Active predictions of cells are due by frame [late], and are not among the
    cells before [(i, j)]. *)
Definition cells_quiet (late : Z) (i : nat) (j : Z) (rs : list ConditionalOverlayRow) : Prop :=
  forall r k row c, rs !! r = Some row -> lookupZ (overlay_cells row) k = Some c -> oc_active c = true ->
    expiration_frame (oc_overlay c) <= late /\ ((i < r)%nat \/ r = i /\ j <= k).

(** Cursor predictions are due, or predict the cursor the screen has. *)
Definition cursors_quiet (late : Z) (f : Framebuffer) (cs : list ConditionalCursorMove) : Prop :=
  Forall (fun c => expiration_frame (cm_overlay c) <= late \/ (cm_row c = cursor_row (ds f) /\ cm_col c = cursor_col (ds f))) cs.

(** ... in at most [n] rows. *)
Definition quiet_at (n : nat) (late : Z) (f : Framebuffer) (i : nat) (j : Z) (p : PredictionEngine) : Prop :=
  (local_frame_late_acked p = late /\ (length (overlays p) <= n)%nat) /\ cells_quiet late i j (overlays p) /\ cursors_quiet late f (cursors p).

(** A change that activates nothing. *)
Definition calms (c c' : ConditionalOverlayCell) : Prop :=
  oc_active c' = true -> oc_active c = true /\ expiration_frame (oc_overlay c') = expiration_frame (oc_overlay c).

(** [m] leads from [P] to [Q] when it returns. *)
Definition leads {S A} (P : S -> Prop) (m : M S A) (Q : A -> S -> Prop) : Prop :=
  forall s a s', P s -> m s = Ok (a, s') -> Q a s'.

Lemma leads_bind {S A B} (P : S -> Prop) (m : M S A) (k : A -> M S B) R Q :
  leads P m R -> (forall a, leads (R a) (k a) Q) -> leads P (m ≫= k) Q.
Proof.
  intros Hm Hk s b s' Hs. unfold mbind, M_bind. destruct (m s) as [[a s1]|] eqn:E; [|done]. intros E'. by apply (Hk a s1), E'; apply (Hm s).
Qed.
Lemma leads_ret {S A} (P : S -> Prop) (a : A) (Q : A -> S -> Prop) : (forall s, P s -> Q a s) -> leads P (mret a) Q.
Proof. intros H s b s' Hs [= <- <-]. auto. Qed.
Lemma leads_modify {S} (P : S -> Prop) k (Q : S -> Prop) : (forall s, P s -> Q (k s)) -> leads P (modify k) (fun _ => Q).
Proof. intros H s b s' Hs [= <- <-]. auto. Qed.
Lemma leads_lift {S A} (P : S -> Prop) (r : result fault A) : leads P (lift r) (fun a s => P s /\ r = Ok a).
Proof. intros s a s' Hs. unfold lift. destruct r; [|done]. by intros [= <- <-]. Qed.
Lemma leads_get {S} (P : S -> Prop) : leads P get (fun a s => P s /\ a = s).
Proof. by intros s a s' Hs [= <- <-]. Qed.
Lemma leads_gets {S A} (P : S -> Prop) (k : S -> A) : leads P (gets k) (fun a s => P s /\ a = k s).
Proof. by intros s a s' Hs [= <- <-]. Qed.
Lemma leads_for_n {S} (P : S -> Prop) n from body : (forall i, leads P (body i) (fun _ => P)) -> leads P (for_n n from body) (fun _ => P).
Proof.
  intros H. revert from. induction n as [|n IH]; intros from; cbn [for_n]; [by apply leads_ret|].
  apply (leads_bind _ _ _ (fun _ => P)); [apply H|]. intros _. apply IH.
Qed.

Lemma leads_eq {S A} (m : M S A) s Q : leads (eq s) m Q -> forall a s', m s = Ok (a, s') -> Q a s'.
Proof. intros H a s'. by apply H. Qed.

Lemma lookupZ_updateZ {A} (l : list A) j x k y : lookupZ (updateZ l j x) k = Some y -> (k = j /\ y = x) \/ (k <> j /\ lookupZ l k = Some y).
Proof.
  unfold lookupZ, updateZ. destruct (decide (0 <= k)) as [Hk|]; [|done]. destruct (decide (0 <= j)) as [Hj|]; [|intros; right; split; [lia|done]].
  intros Hy. destruct (decide (k = j)) as [->|Hne]; [left|right].
  - apply list_lookup_insert_Some in Hy as [(_ & <- & _)|[? _]]; done.
  - split; [done|]. by rewrite list_lookup_insert_ne in Hy by lia.
Qed.

Section settle.
Context `{HL : Libc} (n : nat) (late now : Z) (f : Framebuffer).

(** ** Changes of one cell *)

Lemma with_ocell_leads ri j k i0 j0 : (forall c c', k c = Ok c' -> calms c c') ->
  leads (quiet_at n late f i0 j0) (with_ocell ri j k) (fun _ => quiet_at n late f i0 j0).
Proof.
  intros Hk p [] p' (Hl & Hc & Hm). unfold with_ocell, ocell, row_at, mbind, M_bind, gets, lift, index_, modify.
  destruct (lookupZ (overlays p) (Z.of_nat ri)) as [row0|] eqn:Er; [|done]. unfold lookupZ in Er. rewrite decide_True, Nat2Z.id in Er by lia.
  destruct (lookupZ (overlay_cells row0) j) as [c0|] eqn:Ec; [|done]. destruct (k c0) as [c1|] eqn:Ek; [|done]. intros [= <-].
  split; [cbn; by rewrite length_alter|]. split; [|done]. cbn. intros r kk row c Hr Hc' Ha. destruct (decide (r = ri)) as [->|Hne].
  - rewrite list_lookup_alter_eq, Er in Hr. cbn in Hr. injection Hr as <-. cbn in Hc'. apply lookupZ_updateZ in Hc' as [[-> ->]|[_ Hc']].
    + destruct (Hk _ _ Ek Ha) as [Ha0 ->]. by apply (Hc _ _ _ _ Er Ec).
    + by apply (Hc _ _ _ _ Er Hc').
  - rewrite list_lookup_alter_ne in Hr by done. by apply (Hc _ _ _ _ Hr Hc').
Qed.

Lemma reset_ocell_leads ri j : leads (quiet_at n late f ri j) (reset_ocell ri j) (fun _ => quiet_at n late f ri (j + 1)).
Proof.
  intros p [] p' Hq E. destruct (with_ocell_leads ri j (fun c => Ok (cell_prediction_reset c)) ri j) with (s := p) (a := tt) (s' := p') as (Hl & Hc & Hm);
    [by intros c c' [= <-]|done|done|].
  split; [done|]. split; [|done]. intros r k row c Hr Hk Ha. destruct (Hc r k row c Hr Hk Ha) as [He Hpos]. split; [done|].
  destruct Hpos as [Hgt|[-> Hge]]; [by left|]. right. split; [done|]. assert (k <> j); [|lia]. intros ->.
  revert E. unfold reset_ocell, with_ocell, ocell, row_at, mbind, M_bind, gets, lift, index_, modify.
  destruct (lookupZ (overlays p) (Z.of_nat ri)) as [row0|] eqn:Er; [|done]. unfold lookupZ in Er. rewrite decide_True, Nat2Z.id in Er by lia.
  destruct (lookupZ (overlay_cells row0) j) as [c0|] eqn:Ec; [|done]. intros [= <-]. cbn in Hr.
  rewrite list_lookup_alter_eq, Er in Hr. injection Hr as <-. cbn in Hk. by apply lookupZ_updateZ in Hk as [[_ ->]|[? _]].
Qed.

Lemma row_at_leads P ri : leads P (row_at ri) (fun r p => P p /\ overlays p !! ri = Some r).
Proof.
  intros p r p' Hp. unfold row_at, mbind, M_bind, gets, lift, index_, lookupZ. rewrite decide_True, Nat2Z.id by lia.
  destruct (overlays p !! ri) eqn:E; [|done]. by intros [= <- <-].
Qed.

Lemma ocell_leads P ri j :
  leads P (ocell ri j) (fun c p => P p /\ exists r, overlays p !! ri = Some r /\ lookupZ (overlay_cells r) j = Some c).
Proof.
  apply (leads_bind _ _ _ _ _ (row_at_leads P ri)). intros r p c p' [Hp Hr]. unfold lift, index_.
  destruct (lookupZ (overlay_cells r) j) eqn:E; [|done]. intros [= <- <-]. split; [done|]. by exists r.
Qed.

Lemma match_renditions_leads ri j i0 j0 : leads (quiet_at n late f i0 j0) (match_renditions f ri j) (fun _ => quiet_at n late f i0 j0).
Proof.
  apply (leads_bind _ _ _ _ _ (row_at_leads _ ri)). intros r. apply (leads_bind _ _ _ _ _ (ocell_leads _ ri j)). intros c.
  apply (leads_bind _ _ _ _ _ (leads_lift _ _)). intros x p u p' [[[Hq _] _] _]. revert p u p' Hq.
  apply leads_for_n. intros k. apply with_ocell_leads. by intros c1 c2 [= <-].
Qed.

Lemma engine_field_leads k i0 j0 :
  (forall p, overlays (k p) = overlays p /\ cursors (k p) = cursors p /\ local_frame_late_acked (k p) = local_frame_late_acked p) ->
  leads (quiet_at n late f i0 j0) (modify k) (fun _ => quiet_at n late f i0 j0).
Proof. intros Hk. apply leads_modify. intros p (Hl & Hc & Hm). destruct (Hk p) as (E1 & E2 & E3). unfold quiet_at. by rewrite E1, E2, E3. Qed.

Lemma pe_reset_empty p : overlays (pe_reset p) = [] /\ cursors (pe_reset p) = [].
Proof. unfold pe_reset, become_tentative. by destruct (prefers _ _). Qed.

(** ** Killing an epoch *)

Lemma kill_epoch_leads ri j e : 1 <= e < 2 ^ 64 ->
  leads (fun p => quiet_at n late f ri j p /\ exists r c, overlays p !! ri = Some r /\ lookupZ (overlay_cells r) j = Some c /\ oc_epoch c = e)
    (kill_epoch e f) (fun _ => quiet_at n late f ri (j + 1)).
Proof.
  intros He p [] p' [(Hl & Hc & Hm) (r0 & c0 & Hr0 & Hc0 & Hee)].
  unfold kill_epoch, push_cursor, with_cursor, cursor_, mbind, M_bind, modify, gets. cbn. rewrite last_snoc. cbn. rewrite removelast_last.
  intros [= <-]. assert (Hu : u64 (e - 1) = e - 1) by (apply u64_id; unfold is_u64; lia).
  assert (Hcells : cells_quiet late ri (j + 1) ((fun i => i <| overlay_cells :=
    (fun j => if tentative (u64 (e - 1)) (oc_overlay j) then cell_prediction_reset j else j) <$> overlay_cells i |>) <$> overlays p)).
  { intros r k row c Hr Hk Ha. rewrite list_lookup_fmap in Hr. destruct (overlays p !! r) as [row1|] eqn:Er; [|done]. injection Hr as <-.
    unfold lookupZ in Hk. destruct (decide (0 <= k)) as [Hk0|]; [|done]. cbn in Hk. rewrite list_lookup_fmap in Hk.
    destruct (overlay_cells row1 !! Z.to_nat k) as [c1|] eqn:Ec; [|done]. injection Hk as <-.
    assert (Hk1 : lookupZ (overlay_cells row1) k = Some c1) by (unfold lookupZ; by rewrite decide_True).
    destruct (tentative (u64 (e - 1)) (oc_overlay c1)) eqn:Et; [done|]. destruct (Hc _ _ _ _ Er Hk1 Ha) as [Hx Hpos]. split; [done|].
    destruct Hpos as [?|[-> Hge]]; [by left|]. right. split; [done|]. assert (k <> j); [|lia]. intros ->.
    rewrite Hr0 in Er. injection Er as <-. rewrite Hc0 in Hk1. injection Hk1 as <-. unfold tentative, oc_epoch in *. rewrite Hu in Et. lia. }
  assert (Hcur : cursors_quiet late f (filter (fun c => tentative (u64 (e - 1)) (cm_overlay c) = false) (cursors p) ++
    [on_move (fun o => o <| o_active := true |>) (ConditionalCursorMove_new (u64 (local_frame_sent p + 1)) (cursor_row (ds f)) (cursor_col (ds f)) (prediction_epoch p))])).
  { apply Forall_app. split; [by apply Forall_filter_keep|]. apply Forall_singleton. by right. }
  unfold become_tentative. destruct (prefers _ _); (split; [cbn; by rewrite length_fmap|by split]).
Qed.

(** ** Culling *)

Lemma cell_validity_pending row c : cell_validity f row late c = Ok Pending -> oc_active c = true /\ late < expiration_frame (oc_overlay c).
Proof.
  unfold cell_validity. destruct (oc_active c); [|done]. cbn [negb]. destruct (outside _ _ _); [done|]. destruct (cell_of _ _ _); [|done]. cbn.
  destruct (Z.ltb_spec late (expiration_frame (oc_overlay c))); [done|]. by repeat case_match.
Qed.
Lemma cell_validity_inactive row c : cell_validity f row late c = Ok Inactive -> oc_active c = false.
Proof.
  unfold cell_validity. destruct (oc_active c); [|done]. cbn [negb]. destruct (outside _ _ _); [done|]. destruct (cell_of _ _ _); [|done]. cbn.
  by repeat case_match.
Qed.

Lemma quiet_next ri j p r c : quiet_at n late f ri j p -> overlays p !! ri = Some r -> lookupZ (overlay_cells r) j = Some c -> oc_active c = false ->
  quiet_at n late f ri (j + 1) p.
Proof.
  intros (Hl & Hc & Hm) Hr Hj Ha. split; [done|]. split; [|done]. intros r' k row c' Hr' Hk Ha'. destruct (Hc _ _ _ _ Hr' Hk Ha') as [He Hpos].
  split; [done|]. destruct Hpos as [?|[-> Hge]]; [by left|]. right. split; [done|]. assert (k <> j); [|lia]. intros ->.
  rewrite Hr in Hr'. injection Hr' as <-. rewrite Hj in Hk. injection Hk as <-. congruence.
Qed.

(** After [cull] returned early nothing is left. *)
Definition culled (i : nat) (j : Z) (stop : bool) (p : PredictionEngine) : Prop :=
  if stop then overlays p = [] /\ cursors p = [] else quiet_at n late f i j p.

Lemma reset_then_leads ri j (P : PredictionEngine -> Prop) : (forall p, P p -> quiet_at n late f ri j p) ->
  leads P (reset_ocell ri j ;; mret false) (culled ri (j + 1)).
Proof.
  intros HP. apply (leads_bind _ _ _ (fun _ => quiet_at n late f ri (j + 1))); [|intros _; by apply leads_ret].
  intros p u p' Hp. apply reset_ocell_leads. auto.
Qed.

Lemma cull_cell_leads w h m ri j : screen_ok w h f ->
  leads (fun p => pe_st w h m any_cursor p /\ quiet_at n late f ri j p) (cull_cell now f ri j) (culled ri (j + 1)).
Proof.
  intros Hf. apply (leads_bind _ _ _ _ _ (row_at_leads _ ri)). intros r. apply (leads_bind _ _ _ _ _ (ocell_leads _ ri j)). intros c.
  apply (leads_bind _ _ _ _ _ (leads_get _)). intros q. apply (leads_bind _ _ _ _ _ (leads_lift _ _)). intros v p u p' [[[[[Hi Hq] _] (r' & Hr & Hc)] ->] Hv].
  pose proof (proj1 (proj1 Hq)) as Hlate. rewrite Hlate in Hv. revert u p'. apply leads_eq.
  assert (Hreset : leads (eq p) (reset_ocell ri j ;; mret false) (culled ri (j + 1))) by (apply reset_then_leads; by intros ? <-).
  destruct v; [| |done| |].
  - apply cell_validity_pending in Hv as [Ha Hlt]. destruct (proj1 (proj2 Hq) _ _ _ _ Hr Hc Ha). lia.
  - apply (leads_bind _ _ _ (fun _ => quiet_at n late f ri j)).
    { intros s a s' <-. apply engine_field_leads; [intros p0; unfold confirm; by case_match|done]. }
    intros _. apply (leads_bind _ _ _ (fun _ => quiet_at n late f ri j)); [apply engine_field_leads; intros p0; unfold repair_glitch; by case_match|].
    intros _. apply (leads_bind _ _ _ _ _ (match_renditions_leads ri j ri j)). intros _. by apply reset_then_leads.
  - destruct (tentative (confirmed_epoch p) (oc_overlay c)) eqn:Et; [|destruct (prefers Experimental p); [done|]].
    + destruct (prefers Experimental p); [done|]. apply (leads_bind _ _ _ (fun _ => quiet_at n late f ri (j + 1))); [|intros _; by apply leads_ret]. intros s a s' <-.
      destruct Hi as (Hinv & _). pose proof (pi_epochs _ _ _ Hinv) as [_ Hce].
      assert (Hoc : ocell_ok j c) by (apply (orow_col w h f Hf r'); [by apply (Forall_lookup_1 _ _ _ _ (pi_rows _ _ _ Hinv) Hr)|done]).
      destruct Hoc as [_ Hoe]. unfold tentative, is_u64, oc_epoch in *. apply kill_epoch_leads; [lia|]. split; [done|]. by exists r', c.
    + apply (leads_bind _ _ _ (fun _ p' => overlays p' = [] /\ cursors p' = [])); [|intros _; by apply leads_ret].
      intros s a s' <- [= <- <-]. apply pe_reset_empty.
  - apply cell_validity_inactive in Hv. apply leads_ret. intros ? <-. by apply (quiet_next ri j p r' c).
Qed.

Lemma cull_cells_quiet w h ri m : screen_ok w h f -> (ri < n)%nat -> forall j p, pe_st w h n any_cursor p -> quiet_at n late f ri j p ->
  0 <= j -> j + Z.of_nat m <= w ->
  exists stop p', cull_cells m now f ri j p = Ok (stop, p') /\ pe_st w h (if stop : bool then 0 else n) any_cursor p' /\
    culled ri (j + Z.of_nat m) stop p'.
Proof.
  intros Hf Hri. induction m as [|m IH]; intros j p Hp Hq Hj Hm; cbn [cull_cells].
  - exists false, p. cbn. by rewrite Z.add_0_r.
  - destruct (cull_cell_safe w h now f Hf n ri j Hri ltac:(lia) p Hp) as (stop & p1 & E & Hp1).
    pose proof (cull_cell_leads w h n ri j Hf p stop p1 (conj Hp Hq) E) as Hc1. unfold mbind, M_bind. rewrite E. destruct stop.
    + exists true, p1. done.
    + destruct (IH (j + 1) p1 Hp1 Hc1) as (stop & p' & E' & Hp' & Hc'); [lia..|]. exists stop, p'. split_and!; [done..|].
      by replace (j + Z.of_nat (S m)) with (j + 1 + Z.of_nat m) by lia.
Qed.

Lemma cull_rows_quiet w h m : screen_ok w h f -> forall ri p, (ri + m = n)%nat -> pe_st w h n any_cursor p -> quiet_at n late f ri 0 p ->
  exists stop p', cull_rows m now f ri p = Ok (stop, p') /\ pe_st w h 0 any_cursor p' /\ culled n 0 stop p'.
Proof.
  intros Hf. induction m as [|m IH]; intros ri p Hn Hp Hq; cbn [cull_rows].
  - exists false, p. split_and!; [done|by apply (pe_st_mono w h n any_cursor); [lia|..]|]. by replace n with ri by lia.
  - destruct (row_at_safe w h n any_cursor ri ltac:(lia) p Hp) as (r & p0 & Er & _ & Hr & Hrok).
    destruct (row_at_leads (eq p) ri p r p0 eq_refl Er) as [<- Hr0]. unfold mbind at 1, M_bind at 1. rewrite Er.
    rewrite (proj2 (Z.ltb_ge _ _)) by apply Hrok. rewrite (proj2 (Z.leb_gt _ _)) by (rewrite (fo_height _ _ _ (so_frame _ _ _ Hf)); apply Hrok). cbn [orb].
    pose proof (orow_length w h f Hf r Hrok) as Hlen. unfold lenZ in Hlen.
    destruct (cull_cells_quiet w h ri (length (overlay_cells r)) Hf ltac:(lia) 0 p Hp Hq ltac:(lia) ltac:(lia)) as (stop & p1 & E & Hp1 & Hc1).
    unfold mbind, M_bind. rewrite E. destruct stop.
    + exists true, p1. split_and!; [done|done|]. exact Hc1.
    + apply IH; [lia|done|]. cbn in Hc1. destruct Hc1 as (Hl1 & Hcells & Hcur). split_and!; [apply Hl1|apply Hl1| |done].
      intros r' k row c Hr' Hk Ha. destruct (Hcells r' k row c Hr' Hk Ha) as [He Hpos]. split; [done|].
      destruct Hpos as [?|[-> Hge]]; [destruct (decide (r' = S ri)) as [->|]; [right|left; lia]|].
      * split; [done|]. by apply lookupZ_Some_lt in Hk as [? _].
      * exfalso. apply lookupZ_Some_lt in Hk as [_ Hk]. pose proof (orow_length w h f Hf row
          (Forall_lookup_1 _ _ _ _ (pi_rows _ _ _ (proj1 Hp1)) Hr')). lia.
Qed.
End settle.

(** ** Once everything is due *)

(** Every prediction is due: the host has seen the keys it is for. *)
Definition all_due (p : PredictionEngine) : Prop :=
  Forall (fun r => Forall (fun c => oc_active c = true -> expiration_frame (oc_overlay c) <= local_frame_late_acked p) (overlay_cells r)) (overlays p) /\
  Forall (fun c => expiration_frame (cm_overlay c) <= local_frame_late_acked p) (cursors p).

(** Nothing is predicted but the cursor where it is. *)
Definition nothing_predicted (f : Framebuffer) (p : PredictionEngine) : Prop :=
  Forall (fun r => Forall (fun c => oc_active c = false) (overlay_cells r)) (overlays p) /\
  Forall (fun c => cm_row c = cursor_row (ds f) /\ cm_col c = cursor_col (ds f)) (cursors p).

Section settled.
Context `{HL : Libc} `{HLL : !LibcLaws} (w h now : Z) (f : Framebuffer) (Hf : screen_ok w h f).

Lemma triggers_more p : let q := update_triggers p in
  local_frame_late_acked q = local_frame_late_acked p /\ prediction_epoch q = prediction_epoch p /\ confirmed_epoch q = confirmed_epoch p.
Proof. unfold update_triggers. cbv zeta. by repeat case_match. Qed.

Lemma quiet_nothing n late p :
  quiet_at n late f n 0 p -> Forall (fun r => Forall (fun c => oc_active c = false) (overlay_cells r)) (overlays p).
Proof.
  intros ((_ & Hlen) & Hc & _). apply Forall_lookup. intros r row Hr. apply Forall_lookup. intros k c Hk. destruct (oc_active c) eqn:Ha; [|done].
  assert (Hk' : lookupZ (overlay_cells row) (Z.of_nat k) = Some c) by (unfold lookupZ; by rewrite decide_True, Nat2Z.id by lia).
  destruct (Hc r (Z.of_nat k) row c Hr Hk' Ha) as [_ Hpos]. apply lookup_lt_Some in Hr. lia.
Qed.

Lemma all_due_quiet p : all_due p -> quiet_at (length (overlays p)) (local_frame_late_acked p) f 0 0 p.
Proof.
  intros [Hc Hm]. split; [by split|]. split; [|eapply Forall_impl; [exact Hm|]; by left].
  intros r k row c Hr Hk Ha. pose proof (Forall_lookup_1 _ _ _ _ Hc Hr) as Hrow. split; [by apply (lookupZ_Forall _ _ _ _ Hrow Hk)|].
  apply lookupZ_Some_lt in Hk. destruct r; [right|left]; lia.
Qed.

Lemma pending_moves late cs : cursors_quiet late f cs ->
  Forall (fun c => cm_row c = cursor_row (ds f) /\ cm_col c = cursor_col (ds f)) (filter (fun c => move_validity f late c = Pending) cs).
Proof.
  unfold cursors_quiet. rewrite !Forall_forall. intros Hq c [Hp Hc]%list_elem_of_filter. destruct (Hq c Hc) as [Hle|]; [|done]. exfalso. revert Hp.
  unfold move_validity. rewrite (proj2 (Z.leb_le _ _) Hle). by repeat case_match.
Qed.

Lemma cull_cursors_nothing p late : pe_st w h 0 any_cursor p -> local_frame_late_acked p = late -> cursors_quiet late f (cursors p) ->
  Forall (fun r => Forall (fun c => oc_active c = false) (overlay_cells r)) (overlays p) ->
  exists p', cull_cursors f p = Ok (tt, p') /\ pe_inv w h p' /\ nothing_predicted f p'.
Proof.
  intros Hp Hl Hcur Hcells. destruct (cull_cursors_safe w h f p Hp) as ([] & p' & E & (Hp' & _)). exists p'. split_and!; [done..|].
  revert E. unfold cull_cursors, mbind at 1, M_bind at 1, get. cbv zeta. rewrite Hl.
  match goal with |- (if ?x && _ then _ else _) _ = _ -> _ => generalize x end. intros bad. destruct (bad && _) eqn:Eb.
  - intros [= <-]. unfold pe_reset, become_tentative. by destruct (prefers _ _).
  - unfold when_. destruct bad; intros [= <-]; (split; [done|]); cbn; [by constructor|by apply pending_moves].
Qed.

Lemma cull_nothing w0 h0 p : pe_inv w0 h0 p -> all_due p -> prefers Never p = false ->
  exists p', cull now f p = Ok (tt, p') /\ pe_inv w h p' /\ nothing_predicted f p'.
Proof.
  intros Hi Hdue Hn. unfold cull, mbind at 1, M_bind at 1, get. rewrite Hn.
  destruct (resize_safe w h f Hf w0 h0 p Hi) as ([] & p1 & E1 & Hp1). revert E1. unfold mbind at 1, M_bind at 1, get. intros E1.
  unfold mbind at 1, M_bind at 1. rewrite E1.
  assert (Hd1 : all_due p1).
  { revert E1. unfold when_. destruct (_ || _); intros [= <-]; [|done]. unfold all_due. match goal with |- context [pe_reset ?q] => destruct (pe_reset_empty q) as [-> ->] end. by split. }
  unfold mbind at 1, M_bind at 1, modify. destruct (triggers_fields p1) as (Eo & Ec & Eu & Ew & Eh). pose proof (triggers_more p1) as (El & Ee1 & Ee2). set (p2 := update_triggers p1) in *.
  assert (Hp2 : pe_st w h (length (overlays p2)) any_cursor p2).
  { destruct Hp1 as ([? ? ? ? He ? ?] & _). split_and!; [|done|done]. split; try (by rewrite ?Eo, ?Ec, ?Eu, ?Ew, ?Eh). by rewrite Ee1, Ee2. }
  assert (Hq2 : quiet_at (length (overlays p2)) (local_frame_late_acked p2) f 0 0 p2).
  { apply all_due_quiet. unfold all_due. by rewrite Eo, Ec, El. }
  unfold mbind at 1, M_bind at 1, gets.
  destruct (cull_rows_quiet (length (overlays p2)) (local_frame_late_acked p2) now f w h (length (overlays p2)) Hf 0 p2 eq_refl Hp2 Hq2) as (stop & p3 & E3 & Hp3 & Hc3).
  unfold mbind at 1, M_bind at 1. rewrite E3. destruct stop; cbn [culled] in Hc3.
  - exists p3. destruct Hc3 as [Eo3 Ec3]. split_and!; [done|apply Hp3|]. unfold nothing_predicted. by rewrite Eo3, Ec3.
  - apply (cull_cursors_nothing p3 (local_frame_late_acked p2)); [done|apply Hc3|apply Hc3|by apply (quiet_nothing (length (overlays p2)) (local_frame_late_acked p2))].
Qed.

Lemma nothing_shown p s : pe_inv w h p -> nothing_predicted (fb s) p -> canvas w h s ->
  exists s', pe_apply p s = Ok (tt, s') /\ (forall row col, frame_cell (fb s') row col = frame_cell (fb s) row col) /\
    cursor_row (scr_ds s') = cursor_row (scr_ds s) /\ cursor_col (scr_ds s') = cursor_col (scr_ds s).
Proof.
  intros Hp [Hcells Hcur] Hs. destruct (pe_apply_draws w h p s Hp Hs) as (s' & E & _ & Hc & Hm). exists s'. split; [done|]. split.
  - intros row col. rewrite Hc. destruct (frame_cell (fb s) row col) as [x|]; [|done]. cbn. f_equal. unfold shown_cell. destruct (displays p); [|done].
    assert (Hin : forall c, predicted_in (overlays p) row col = Some c -> oc_active c = false).
    { revert Hcells. clear. induction (overlays p) as [|r rs IH]; [done|]. intros [Hr Hrs]%Forall_cons c. cbn. destruct (_ =? _); [|by apply IH].
      intros Hc. by apply (lookupZ_Forall _ _ _ _ Hr Hc). }
    destruct (predicted_in _ _ _) as [c|]; [|done]. cbn. unfold pred_cell. by rewrite (Hin c).
  - assert (shown_cursor p (cursor_row (scr_ds s), cursor_col (scr_ds s)) = (cursor_row (scr_ds s), cursor_col (scr_ds s))) as E'; [|rewrite E' in Hm; by injection Hm].
    unfold shown_cursor. destruct (displays p); [|done]. destruct (last _) as [c|] eqn:El; [|done].
    apply last_Some in El as [l El]. assert (Hc' : c ∈ filter (fun c => displayed (confirmed_epoch p) c = true) (cursors p)) by (rewrite El; set_solver).
    apply list_elem_of_filter in Hc' as [_ Hc']. rewrite Forall_forall in Hcur. destruct (Hcur c Hc') as [-> ->]. done.
Qed.

(** C35. Predictions never outlive their answer.  When the host has
    acknowledged every key a prediction was made for, checking the
    predictions against its screen and drawing those that are left gives the
    host's screen: every cell and the cursor are the host's, whatever was
    predicted, right or wrong, and whatever the screen's size was before. *)
Theorem predictions_settle w0 h0 p g :
  pe_inv w0 h0 p -> all_due p -> origin_mode (ds f) = false ->
  exists p' s', cull now f p = Ok (tt, p') /\ pe_apply p' (MkScreen g f) = Ok (tt, s') /\
    (forall row col, frame_cell (fb s') row col = frame_cell f row col) /\
    cursor_row (scr_ds s') = cursor_row (ds f) /\ cursor_col (scr_ds s') = cursor_col (ds f).
Proof.
  intros Hi Hdue Ho. destruct (prefers Never p) eqn:En.
  - exists p, (MkScreen g f). unfold cull, pe_apply, mbind, M_bind, get. by rewrite En.
  - destruct (cull_nothing w0 h0 p Hi Hdue En) as (p' & E & Hp' & Hno). destruct (nothing_shown p' (MkScreen g f) Hp' Hno) as (s' & Es & ? & ? & ?); [by split|].
    by exists p', s'.
Qed.
End settled.

(** A wrong guess: the host has answered and did not echo the key. *)
Lemma predictions_settle_witness :
  exists p, new_user_byte 5 prompt_screen 97 sample_engine = Ok (tt, p) /\
  exists p' s', cull 9 prompt_screen (set_local_frame_late_acked 4 p) = Ok (tt, p') /\ pe_apply p' (MkScreen 0 prompt_screen) = Ok (tt, s') /\
    (forall row col, frame_cell (fb s') row col = frame_cell prompt_screen row col) /\
    cursor_row (scr_ds s') = cursor_row (ds prompt_screen) /\ cursor_col (scr_ds s') = cursor_col (ds prompt_screen).
Proof.
  destruct (new_user_byte_safe 6 2 5 prompt_screen prompt_ok 6 2 sample_engine 97 sample_engine_ok) as (p & E & Hp); [by split|].
  exists p. split; [done|]. apply (predictions_settle 6 2 9 prompt_screen prompt_ok 6 2); [by destruct Hp| |done].
  vm_compute in E. injection E as <-. split; repeat (apply Forall_cons; split); cbn; try done; repeat (apply Forall_cons; split); done.
Defined.
