(* ===== verification/OverlayEdit.v ===== *)
(** * Predictions as a line editor

    While the host has not answered, typing at the prediction engine edits the
    cursor's row the way a line editor does: characters are inserted or
    overwrite, backspace deletes, and what is pushed over the margin is not
    known. *)
From S2P Require Export OverlaySettle.

(** ** Predictions that are not due *)

(** No answer can have come yet. *)
Definition all_pending (p : PredictionEngine) : Prop :=
  Forall (fun r => Forall (fun c => oc_active c = true -> local_frame_late_acked p < expiration_frame (oc_overlay c)) (overlay_cells r)) (overlays p) /\
  Forall (fun c => local_frame_late_acked p < expiration_frame (cm_overlay c)) (cursors p).

(** The fields that predicting depends on. *)
Definition same_predictions (p q : PredictionEngine) : Prop :=
  overlays q = overlays p /\ cursors q = cursors p /\ pe_parser q = pe_parser p /\ last_byte q = last_byte p /\
  local_frame_sent q = local_frame_sent p /\ local_frame_late_acked q = local_frame_late_acked p /\
  prediction_epoch q = prediction_epoch p /\ confirmed_epoch q = confirmed_epoch p /\
  last_width q = last_width p /\ last_height q = last_height p /\
  display_preference q = display_preference p /\ predict_overwrite q = predict_overwrite p.

Lemma same_trans p q r : same_predictions p q -> same_predictions q r -> same_predictions p r.
Proof. unfold same_predictions. intuition congruence. Qed.

Section pending.
Context `{HL : Libc} (w h now : Z) (f : Framebuffer) (Hf : screen_ok w h f).

Lemma cull_cell_pending ri j r c p : all_pending p -> overlays p !! ri = Some r -> lookupZ (overlay_cells r) j = Some c ->
  orow_ok w h r -> exists p', cull_cell now f ri j p = Ok (false, p') /\ same_predictions p p'.
Proof.
  intros [Hp _] Hr Hc Hok. pose proof (lookupZ_Forall _ _ _ _ (Forall_lookup_1 _ _ _ _ Hp Hr) Hc) as Hlt. cbn in Hlt.
  pose proof (proj1 (orow_col w h f Hf r j c Hok Hc)) as Hj. pose proof (lookupZ_Some_lt _ _ _ Hc) as Hjw. rewrite (orow_length w h f Hf r Hok) in Hjw.
  assert (Hl : lookupZ (overlays p) (Z.of_nat ri) = Some r) by (unfold lookupZ; by rewrite decide_True, Nat2Z.id by lia).
  unfold cull_cell, ocell, row_at, mbind, M_bind, gets, get, lift, index_. rewrite Hl, Hl, Hc.
  unfold cell_validity. destruct (oc_active c) eqn:Ha; cbn [negb]; [|by exists p].
  unfold outside. rewrite (fo_height _ _ _ (so_frame _ _ _ Hf)), (fo_width _ _ _ (so_frame _ _ _ Hf)), (proj2 (Z.leb_gt h (row_num r))), (proj2 (Z.leb_gt w (oc_col c)))
    by (destruct Hok; lia). cbn [orb].
  destruct (cell_of_ok w h f (row_num r) (oc_col c) Hf) as (x & ->); [apply Hok|lia|]. cbn [mbind result_bind].
  rewrite (proj2 (Z.ltb_lt _ _) (Hlt eq_refl)). eexists. split; [done|]. unfold raise_glitch. by repeat case_match.
Qed.

Lemma all_pending_same p q : same_predictions p q -> all_pending p -> all_pending q.
Proof. unfold all_pending. by intros (-> & -> & _ & _ & _ & -> & _). Qed.

Lemma cull_cells_pending ri r m : orow_ok w h r -> forall j p, all_pending p -> overlays p !! ri = Some r -> 0 <= j -> j + Z.of_nat m <= w ->
  exists p', cull_cells m now f ri j p = Ok (false, p') /\ same_predictions p p'.
Proof.
  intros Hok. induction m as [|m IH]; intros j p Hp Hr Hj Hm; cbn [cull_cells]; [by exists p|].
  destruct (lookupZ_lt (overlay_cells r) j) as [c Hc]; [rewrite (orow_length w h f Hf r Hok); lia|].
  destruct (cull_cell_pending ri j r c p Hp Hr Hc Hok) as (p1 & E1 & Hs1). unfold mbind, M_bind. rewrite E1.
  destruct (IH (j + 1) p1) as (p2 & E2 & Hs2); [by apply (all_pending_same p)|by destruct Hs1 as (-> & _)|lia..|].
  exists p2. split; [done|]. by apply (same_trans p p1).
Qed.

Lemma cull_rows_pending m : forall ri p, all_pending p -> Forall (orow_ok w h) (overlays p) -> (ri + m = length (overlays p))%nat ->
  exists p', cull_rows m now f ri p = Ok (false, p') /\ same_predictions p p'.
Proof.
  induction m as [|m IH]; intros ri p Hp Hok Hn; cbn [cull_rows]; [by exists p|].
  destruct (lookup_lt_is_Some_2 (overlays p) ri ltac:(lia)) as [r Hr]. pose proof (Forall_lookup_1 _ _ _ _ Hok Hr) as Hrok.
  assert (Hl : lookupZ (overlays p) (Z.of_nat ri) = Some r) by (unfold lookupZ; by rewrite decide_True, Nat2Z.id by lia).
  unfold mbind at 1, M_bind at 1, row_at, gets, mbind at 1, M_bind at 1, lift, index_. rewrite Hl.
  rewrite (proj2 (Z.ltb_ge _ _)) by apply Hrok. rewrite (proj2 (Z.leb_gt _ _)) by (rewrite (fo_height _ _ _ (so_frame _ _ _ Hf)); apply Hrok). cbn [orb].
  pose proof (orow_length w h f Hf r Hrok) as Hlen. unfold lenZ in Hlen.
  destruct (cull_cells_pending ri r (length (overlay_cells r)) Hrok 0 p Hp Hr ltac:(lia) ltac:(lia)) as (p1 & E1 & Hs1). unfold mbind, M_bind. rewrite E1.
  destruct (IH (S ri) p1) as (p2 & E2 & Hs2); [by apply (all_pending_same p)|destruct Hs1 as (-> & _); done|destruct Hs1 as (-> & _); lia|].
  exists p2. split; [done|]. by apply (same_trans p p1).
Qed.

Lemma move_pending late c : move_ok w h c -> late < expiration_frame (cm_overlay c) -> move_validity f late c = Pending.
Proof.
  intros (Hr & Hc & Ha) Hlt. unfold move_validity, outside. rewrite Ha, (fo_height _ _ _ (so_frame _ _ _ Hf)), (fo_width _ _ _ (so_frame _ _ _ Hf)).
  by rewrite (proj2 (Z.leb_gt h _)), (proj2 (Z.leb_gt w _)), (proj2 (Z.leb_gt _ late)) by lia.
Qed.

Lemma cull_cursors_pending p : all_pending p -> Forall (move_ok w h) (cursors p) ->
  exists p', cull_cursors f p = Ok (tt, p') /\ same_predictions p p'.
Proof.
  intros [_ Hp] Hm. unfold cull_cursors, mbind, M_bind, get. cbv zeta.
  assert (Hall : Forall (fun c => move_validity f (local_frame_late_acked p) c = Pending) (cursors p)).
  { apply Forall_forall. intros c Hc. rewrite Forall_forall in Hp, Hm. apply move_pending; auto. }
  assert (match last (cursors p) with Some c => bool_decide (move_validity f (local_frame_late_acked p) c = IncorrectOrExpired) | None => false end = false) as ->.
  { destruct (last (cursors p)) as [c|] eqn:E; [|done]. apply last_Some in E as [l E]. rewrite E in Hall. apply Forall_app in Hall as [_ [-> _]%Forall_cons]. done. }
  cbn [andb when_]. unfold mret, M_ret, modify. eexists. split; [done|]. rewrite filter_all by done. by destruct p.
Qed.

Lemma cull_pending p : pe_inv w h p -> all_pending p -> exists p', cull now f p = Ok (tt, p') /\ same_predictions p p'.
Proof.
  intros Hi Hp. unfold cull, mbind at 1, M_bind at 1, get. destruct (prefers Never p); [by exists p|].
  rewrite (pi_width _ _ _ Hi), (pi_height _ _ _ Hi), (fo_height _ _ _ (so_frame _ _ _ Hf)), (fo_width _ _ _ (so_frame _ _ _ Hf)), !Z.eqb_refl. cbn [negb orb when_].
  unfold mbind at 1, M_bind at 1, mret at 1, M_ret at 1. unfold mbind at 1, M_bind at 1, modify.
  assert (Hs1 : same_predictions p (update_triggers p)) by (unfold update_triggers; by repeat case_match).
  set (p1 := update_triggers p) in *. unfold mbind at 1, M_bind at 1, gets.
  destruct (cull_rows_pending (length (overlays p1)) 0 p1) as (p2 & E2 & Hs2); [by apply (all_pending_same p)|destruct Hs1 as (-> & _); apply Hi|done|].
  unfold mbind, M_bind. rewrite E2. pose proof (same_trans _ _ _ Hs1 Hs2) as Hs.
  destruct (cull_cursors_pending p2) as (p3 & E3 & Hs3); [by apply (all_pending_same p)|destruct Hs as (_ & -> & _); apply Hi|].
  exists p3. split; [done|]. by apply (same_trans p p2).
Qed.
End pending.

(** ** The editor *)

(** What is believed to be in a column. *)
Inductive guess : Type := Known (s : bytes) | Unknown.

Definition guess1 (c : ConditionalOverlayCell) (x : Cell) : guess :=
  if oc_active c then if unknown c then Unknown else Known (contents (replacement c)) else Known (contents x).

Definition guess_at (p : PredictionEngine) (f : Framebuffer) (row col : Z) : option guess :=
  x ← frame_cell f row col;
  Some (match predicted_in (overlays p) row col with Some c => guess1 c x | None => Known (contents x) end).

(** The row [ed_row] of a line editor, column by column, and its cursor. *)
Record editor : Type := MkEditor { ed_line : Z -> guess; ed_col : Z }.

Definition ed_insert (overwrite : bool) (w : Z) (s : bytes) (e : editor) : editor :=
  MkEditor (fun j => if j =? ed_col e then Known s
                     else if overwrite || (j <? ed_col e) then ed_line e j
                     else if j =? w - 1 then Unknown else ed_line e (j - 1))
           (ed_col e + 1).
Definition ed_backspace (overwrite : bool) (w : Z) (e : editor) : editor :=
  if 0 <? ed_col e then
    MkEditor (fun j => if overwrite then if j =? ed_col e - 1 then Known [32] else ed_line e j
                       else if j <? ed_col e - 1 then ed_line e j
                       else if j + 2 <? w then ed_line e (j + 1) else Unknown)
             (ed_col e - 1)
  else e.

(** A printable character or backspace. *)
Definition ed_key (overwrite : bool) (w c : Z) (e : editor) : editor :=
  if c =? 0x7f then ed_backspace overwrite w e else ed_insert overwrite w [c] e.
Definition ed_key_ok (w c : Z) (e : editor) : Prop := 0x20 <= c <= 0x7f /\ (c = 0x7f \/ ed_col e < w - 1).

(** ** Writing a row of predictions *)

Definition put_cells (ri : nat) (cs : list ConditionalOverlayCell) (p : PredictionEngine) : PredictionEngine :=
  p <| overlays := alter (fun r => r <| overlay_cells := cs |>) ri (overlays p) |>.

Lemma put_cells_id ri r p : overlays p !! ri = Some r -> put_cells ri (overlay_cells r) p = p.
Proof.
  intros Hr. unfold put_cells. assert (alter (fun r0 => r0 <| overlay_cells := overlay_cells r |>) ri (overlays p) = overlays p) as ->; [|by destruct p].
  apply list_eq. intros i. destruct (decide (ri = i)) as [<-|Hne]; [|by rewrite list_lookup_alter_ne]. rewrite list_lookup_alter_eq, Hr. by destruct r.
Qed.

Lemma put_cells_put ri cs cs' p : put_cells ri cs' (put_cells ri cs p) = put_cells ri cs' p.
Proof. unfold put_cells, set_field. cbn. by rewrite alter_alter. Qed.

Lemma put_cells_row ri cs r p : overlays p !! ri = Some r -> lookupZ (overlays (put_cells ri cs p)) (Z.of_nat ri) = Some (r <| overlay_cells := cs |>).
Proof. intros Hr. unfold lookupZ, put_cells. cbn. by rewrite decide_True, Nat2Z.id, list_lookup_alter_eq, Hr by lia. Qed.

Section rows.
Context `{HL : Libc} (w h now : Z) (f : Framebuffer) (ri : nat) (r : ConditionalOverlayRow) (p : PredictionEngine).
Context (Hr : overlays p !! ri = Some r).

Lemma ocell_put cs i c : lookupZ cs i = Some c -> ocell ri i (put_cells ri cs p) = Ok (c, put_cells ri cs p).
Proof. intros Hc. unfold ocell, row_at, mbind, M_bind, gets, lift, index_. rewrite (put_cells_row ri cs r p Hr). cbn. by rewrite Hc. Qed.

Lemma with_ocell_put cs i k c c' : lookupZ cs i = Some c -> k c = Ok c' ->
  with_ocell ri i k (put_cells ri cs p) = Ok (tt, put_cells ri (updateZ cs i c') p).
Proof.
  intros Hc Hk. unfold with_ocell, mbind, M_bind. rewrite (ocell_put cs i c Hc). unfold lift, modify. rewrite Hk. do 2 f_equal.
  unfold put_cells, set_field. cbn. by rewrite alter_alter.
Qed.

Lemma predict_cell_put cs i k c c' : lookupZ cs i = Some c ->
  k (predict_in (prediction_epoch p) (u64 (local_frame_sent p + 1)) now c) = Ok c' ->
  predict_cell now ri i k (put_cells ri cs p) = Ok (tt, put_cells ri (updateZ cs i c') p).
Proof. intros Hc Hk. unfold predict_cell, get, mbind, M_bind. by apply (with_ocell_put cs i _ c c'). Qed.

(** ** Shifting a row *)

Context (Hf : screen_ok w h f) (row : Z) (Hrow : 0 <= row < h).

(** What a row of predictions makes of the screen's row. *)
Definition row_guess (cs : list ConditionalOverlayCell) (j : Z) : option guess :=
  c ← lookupZ cs j; x ← frame_cell f row j; Some (guess1 c x).

(** The predictions of this row are not due. *)
Definition fresh (cs : list ConditionalOverlayCell) : Prop :=
  lenZ cs = w /\ Forall (fun c => oc_active c = true -> local_frame_late_acked p < expiration_frame (oc_overlay c)) cs.
Context (Hlate : local_frame_late_acked p < u64 (local_frame_sent p + 1)).

Lemma cell_of_at j x : frame_cell f row j = Some x -> cell_of f row j = Ok x.
Proof. intros E. unfold cell_of. by rewrite (get_cell_frame (MkScreen 0 f) row j x E). Qed.

Lemma lookup_cells cs j : fresh cs -> 0 <= j < w ->
  exists c x, lookupZ cs j = Some c /\ frame_cell f row j = Some x /\ cell_of f row j = Ok x.
Proof.
  intros [Hl _] Hj. destruct (lookupZ_lt cs j ltac:(lia)) as [c Hc]. destruct (cell_at_Some w h f row j Hf Hrow Hj) as [x Hx].
  exists c, x. split_and!; [done..|by apply cell_of_at].
Qed.

Lemma lookupZ_updateZ_if {A} (l : list A) i x j : 0 <= i < lenZ l -> lookupZ (updateZ l i x) j = (if j =? i then Some x else lookupZ l j).
Proof. intros Hi. destruct (Z.eqb_spec j i) as [->|Hne]; [by apply lookupZ_updateZ_eq|by apply lookupZ_updateZ_ne]. Qed.

Lemma updateZ_twice {A} (l : list A) i x y : updateZ (updateZ l i x) i y = updateZ l i y.
Proof. unfold updateZ. case_decide; [|done]. apply list_insert_insert_eq. Qed.

(** A new prediction for column [i] that says [g]. *)
Lemma update_fresh cs i c x g : fresh cs -> 0 <= i < w -> frame_cell f row i = Some x ->
  local_frame_late_acked p < expiration_frame (oc_overlay c) -> guess1 c x = g ->
  fresh (updateZ cs i c) /\ forall j, row_guess (updateZ cs i c) j = if j =? i then Some g else row_guess cs j.
Proof.
  intros [Hl Hfr] Hi Hx He <-. split; [split; [by rewrite lenZ_updateZ|by apply Forall_updateZ]|].
  intros j. unfold row_guess. rewrite lookupZ_updateZ_if by lia. destruct (Z.eqb_spec j i) as [->|]; [|done]. cbn. by rewrite Hx.
Qed.

Lemma predict_in_exp e x c : expiration_frame (oc_overlay (predict_in e x now c)) = x /\ oc_active (predict_in e x now c) = true.
Proof. done. Qed.

Lemma guess1_take_from n y c x : oc_active c = true -> guess1 (take_from n y c) x = guess1 n y.
Proof. intros Ha. unfold guess1, take_from. destruct (oc_active n), (unknown n); unfold oc_active in *; cbn; by rewrite Ha. Qed.
Lemma take_from_exp n y c : expiration_frame (oc_overlay (take_from n y c)) = expiration_frame (oc_overlay c).
Proof. unfold take_from. by repeat case_match. Qed.

Lemma insert_cell_at_spec cs i : fresh cs -> 0 < i < w ->
  exists cs', insert_cell_at now f ri row i (put_cells ri cs p) = Ok (tt, put_cells ri cs' p) /\ fresh cs' /\
    forall j, row_guess cs' j = if j =? i then (if i =? w - 1 then Some Unknown else row_guess cs (i - 1)) else row_guess cs j.
Proof.
  intros Hcs Hi. destruct (lookup_cells cs i Hcs ltac:(lia)) as (c & x & Hc & Hx & Ex). destruct (lookup_cells cs (i - 1) Hcs ltac:(lia)) as (c0 & x0 & Hc0 & Hx0 & Ex0).
  unfold insert_cell_at, mbind, M_bind, lift at 1. rewrite Ex.
  set (c1 := push_original x (predict_in (prediction_epoch p) (u64 (local_frame_sent p + 1)) now c)).
  rewrite (predict_cell_put cs i _ c c1 Hc eq_refl).
  assert (Hl : 0 <= i < lenZ cs) by (destruct Hcs; lia).
  rewrite (ocell_put (updateZ cs i c1) (i - 1) c0) by (rewrite lookupZ_updateZ_if, (proj2 (Z.eqb_neq (i - 1) i)) by lia; done).
  unfold lift. rewrite Ex0, (fo_width _ _ _ (so_frame _ _ _ Hf)).
  assert (Hi1 : lookupZ (updateZ cs i c1) i = Some c1) by (by rewrite lookupZ_updateZ_if, Z.eqb_refl by lia).
  destruct (Z.eqb_spec i (w - 1)) as [Ei|Ei].
  - rewrite (with_ocell_put _ _ (fun c => Ok (c <| unknown := true |>)) c1 _ Hi1 eq_refl). rewrite updateZ_twice. eexists. split; [done|].
    apply (update_fresh cs i _ x Unknown); try done; lia.
  - rewrite (with_ocell_put _ _ (fun c => Ok (take_from c0 x0 c)) c1 _ Hi1 eq_refl). rewrite updateZ_twice. eexists. split; [done|].
    destruct (update_fresh cs i (take_from c0 x0 c1) x (guess1 c0 x0)) as [Hfr Hg]; [done|lia|done|by rewrite take_from_exp|by apply guess1_take_from|].
    split; [done|]. intros j. rewrite Hg. destruct (j =? i); [|done]. unfold row_guess. by rewrite Hc0, Hx0.
Qed.

Lemma insert_loop n : forall from cs rm, fresh cs -> 0 <= rm - from - Z.of_nat n -> rm - from < w ->
  exists cs', for_n n from (fun k => insert_cell_at now f ri row (rm - k)) (put_cells ri cs p) = Ok (tt, put_cells ri cs' p) /\ fresh cs' /\
    forall j, row_guess cs' j = if (rm - from - Z.of_nat n <? j) && (j <=? rm - from)
      then (if j =? w - 1 then Some Unknown else row_guess cs (j - 1)) else row_guess cs j.
Proof.
  induction n as [|n IH]; intros from cs rm Hcs H1 H2; cbn [for_n].
  - exists cs. split_and!; [done..|]. intros j. destruct (Z.ltb_spec (rm - from - Z.of_nat 0) j), (Z.leb_spec j (rm - from)); cbn [andb]; try done; lia.
  - destruct (insert_cell_at_spec cs (rm - from) Hcs ltac:(lia)) as (cs1 & E1 & Hcs1 & Hg1). unfold mbind, M_bind. rewrite E1.
    destruct (IH (from + 1) cs1 rm Hcs1 ltac:(lia) ltac:(lia)) as (cs2 & E2 & Hcs2 & Hg2). exists cs2. split_and!; [done..|].
    intros j. rewrite Hg2, !Hg1. destruct (Z.eqb_spec (j - 1) (rm - from)), (Z.eqb_spec j (rm - from)) as [Ej|Ej];
      destruct (Z.ltb_spec (rm - (from + 1) - Z.of_nat n) j), (Z.leb_spec j (rm - (from + 1))),
        (Z.ltb_spec (rm - from - Z.of_nat (S n)) j), (Z.leb_spec j (rm - from)); cbn [andb]; try lia; try done; by rewrite Ej.
Qed.

Lemma backspace_cell_spec cs i : fresh cs -> 0 <= i < w ->
  exists cs', backspace_cell now f ri row i (put_cells ri cs p) = Ok (tt, put_cells ri cs' p) /\ fresh cs' /\
    forall j, row_guess cs' j = if j =? i then (if i + 2 <? w then row_guess cs (i + 1) else Some Unknown) else row_guess cs j.
Proof.
  intros Hcs Hi. destruct (lookup_cells cs i Hcs ltac:(lia)) as (c & x & Hc & Hx & Ex).
  unfold backspace_cell, mbind, M_bind, lift at 1. rewrite Ex.
  set (c1 := push_original x (predict_in (prediction_epoch p) (u64 (local_frame_sent p + 1)) now c)).
  rewrite (predict_cell_put cs i _ c c1 Hc eq_refl), (fo_width _ _ _ (so_frame _ _ _ Hf)).
  assert (Hl : 0 <= i < lenZ cs) by (destruct Hcs; lia).
  assert (Hi1 : lookupZ (updateZ cs i c1) i = Some c1) by (by rewrite lookupZ_updateZ_if, Z.eqb_refl by lia).
  destruct (Z.ltb_spec (i + 2) w) as [Ei|Ei].
  - destruct (lookup_cells cs (i + 1) Hcs ltac:(lia)) as (c0 & x0 & Hc0 & Hx0 & Ex0).
    rewrite (ocell_put (updateZ cs i c1) (i + 1) c0) by (rewrite lookupZ_updateZ_if, (proj2 (Z.eqb_neq (i + 1) i)) by lia; done).
    unfold lift. rewrite Ex0. rewrite (with_ocell_put _ _ (fun c => Ok (take_from c0 x0 c)) c1 _ Hi1 eq_refl), updateZ_twice. eexists. split; [done|].
    destruct (update_fresh cs i (take_from c0 x0 c1) x (guess1 c0 x0)) as [Hfr Hg]; [done|lia|done|by rewrite take_from_exp|by apply guess1_take_from|].
    split; [done|]. intros j. rewrite Hg. destruct (j =? i); [|done]. unfold row_guess. by rewrite Hc0, Hx0.
  - rewrite (with_ocell_put _ _ (fun c => Ok (c <| unknown := true |>)) c1 _ Hi1 eq_refl), updateZ_twice. eexists. split; [done|].
    apply (update_fresh cs i _ x Unknown); try done; lia.
Qed.

Lemma backspace_loop n : forall i cs, fresh cs -> 0 <= i -> i + Z.of_nat n = w ->
  exists cs', for_n n i (backspace_cell now f ri row) (put_cells ri cs p) = Ok (tt, put_cells ri cs' p) /\ fresh cs' /\
    forall j, j < w -> row_guess cs' j = if i <=? j then (if j + 2 <? w then row_guess cs (j + 1) else Some Unknown) else row_guess cs j.
Proof.
  induction n as [|n IH]; intros i cs Hcs H1 H2; cbn [for_n].
  - exists cs. split_and!; [done..|]. intros j Hj. destruct (Z.leb_spec i j); [lia|done].
  - destruct (backspace_cell_spec cs i Hcs ltac:(lia)) as (cs1 & E1 & Hcs1 & Hg1). unfold mbind, M_bind. rewrite E1.
    destruct (IH (i + 1) cs1 Hcs1 ltac:(lia) ltac:(lia)) as (cs2 & E2 & Hcs2 & Hg2). exists cs2. split_and!; [done..|].
    intros j Hj. rewrite Hg2, !Hg1 by done. destruct (Z.leb_spec (i + 1) j), (Z.leb_spec i j), (Z.eqb_spec j i) as [Ej|Ej], (Z.eqb_spec (j + 1) i); try lia; try done; by rewrite Ej.
Qed.
End rows.

(** ** Whole keys *)

Lemma predicted_in_row rs ri r j : NoDup (row_num <$> rs) -> rs !! ri = Some r -> predicted_in rs (row_num r) j = lookupZ (overlay_cells r) j.
Proof.
  revert ri. induction rs as [|r0 rs IH]; intros ri Hnd Hr; [by rewrite lookup_nil in Hr|]. cbn in Hnd |- *. apply NoDup_cons in Hnd as [Hn Hnd].
  destruct ri as [|ri]; [injection Hr as ->; by rewrite Z.eqb_refl|]. destruct (Z.eqb_spec (row_num r0) (row_num r)) as [E|_]; [|by apply (IH ri)].
  exfalso. apply Hn. rewrite E. apply list_elem_of_fmap. exists r. split; [done|]. by apply list_elem_of_lookup_2 with ri.
Qed.

(** The fields no key changes. *)
Definition kept (p q : PredictionEngine) : Prop :=
  local_frame_sent q = local_frame_sent p /\ local_frame_late_acked q = local_frame_late_acked p /\ pe_parser q = pe_parser p /\
  last_byte q = last_byte p /\ display_preference q = display_preference p /\ predict_overwrite q = predict_overwrite p.

Section keys.
Context `{HL : Libc} `{HLL : !LibcLaws} (w h now : Z) (f : Framebuffer) (Hf : screen_ok w h f) (row : Z) (Hrow : 0 <= row < h).

(** The row reads [g], the cursor is in column [col], and nothing is due. *)
Record row_is (g : Z -> guess) (col : Z) (p : PredictionEngine) : Prop := {
  ri_pending : all_pending p;
  ri_guess : forall j, 0 <= j < w -> guess_at p f row j = Some (g j);
  ri_late : local_frame_late_acked p < u64 (local_frame_sent p + 1);
  ri_nodup : NoDup (row_num <$> overlays p);
  ri_cursor : cursor_at row col (cursors p) }.

Lemma guess_row p ri r j : NoDup (row_num <$> overlays p) -> overlays p !! ri = Some r -> row_num r = row -> lenZ (overlay_cells r) = w -> 0 <= j < w ->
  guess_at p f row j = row_guess f row (overlay_cells r) j.
Proof.
  intros Hnd Hr <- Hl Hj. unfold guess_at, row_guess. rewrite (predicted_in_row _ ri) by done.
  destruct (lookupZ_lt (overlay_cells r) j ltac:(lia)) as [c ->]. done.
Qed.

(** A state whose row was rewritten. *)
Lemma row_is_put g col p ri r cs g' : row_is g col p -> overlays p !! ri = Some r -> row_num r = row -> fresh w p cs ->
  (forall j, 0 <= j < w -> row_guess f row cs j = Some (g' j)) -> row_is g' col (put_cells ri cs p).
Proof.
  intros [[Hpr Hpc] Hg Hl Hnd Hc] Hr Hn [Hlen Hfr] Hg'.
  assert (Hnd' : NoDup (row_num <$> overlays (put_cells ri cs p))) by (unfold put_cells; cbn; by rewrite fmap_alter_same).
  split; try done.
  - split; [|done]. cbn. by apply Forall_alter.
  - intros j Hj. rewrite <- Hg' by done. rewrite (guess_row (put_cells ri cs p) ri (r <| overlay_cells := cs |>)); try done. cbn. by rewrite list_lookup_alter_eq, Hr.
Qed.

Lemma get_or_make_row_is g col p : row_is g col p -> Forall (orow_ok w h) (overlays p) ->
  exists ri r rs, get_or_make_row row w p = Ok (ri, p <| overlays := rs |>) /\ rs !! ri = Some r /\ row_num r = row /\
    row_is g col (p <| overlays := rs |>) /\ fresh w p (overlay_cells r) /\
    forall j, 0 <= j < w -> row_guess f row (overlay_cells r) j = Some (g j).
Proof.
  intros Hp Hok. unfold get_or_make_row, get, mbind, M_bind.
  assert (Hfind : forall rs, match find_row row rs with
    | Some ri => exists r, rs !! ri = Some r /\ row_num r = row | None => row ∉ row_num <$> rs end).
  { induction rs as [|r rs IH]; cbn; [by apply not_elem_of_nil|]. destruct (Z.eqb_spec (row_num r) row); [by exists r|].
    destruct (find_row row rs); cbn; [done|]. apply not_elem_of_cons. split; [congruence|done]. }
  specialize (Hfind (overlays p)). destruct (find_row row (overlays p)) as [ri|].
  - destruct Hfind as (r & Hr & Hn). exists ri, r, (overlays p). assert (p <| overlays := overlays p |> = p) as -> by by destruct p.
    pose proof (orow_length w h f Hf r (Forall_lookup_1 _ _ _ _ Hok Hr)) as Hlen.
    split_and!; try done; [by split; [|apply (Forall_lookup_1 _ _ _ _ (proj1 (ri_pending _ _ _ Hp)) Hr)]|].
    intros j Hj. rewrite <- (guess_row p ri r) by (done || apply (ri_nodup _ _ _ Hp)). by apply (ri_guess _ _ _ Hp).
  - set (r := new_row row w (prediction_epoch p)). exists (length (overlays p)), r, (overlays p ++ [r]).
    pose proof (fo_size _ _ _ (so_frame _ _ _ Hf)).
    assert (Hlen : lenZ (overlay_cells r) = w) by (unfold lenZ, r; cbn; rewrite length_fmap, length_seqZ; lia).
    assert (Hin : Forall (fun c => oc_active c = false) (overlay_cells r)) by (subst r; apply Forall_fmap, Forall_forall; by intros).
    assert (Hg : forall j, 0 <= j < w -> row_guess f row (overlay_cells r) j = Some (g j)).
    { intros j Hj. rewrite <- (ri_guess _ _ _ Hp j Hj). unfold row_guess, guess_at. rewrite predicted_in_absent by done.
      destruct (lookupZ_lt (overlay_cells r) j ltac:(lia)) as [c Hc]. rewrite Hc. destruct (frame_cell f row j) as [x|]; [|done]. cbn.
      unfold guess1. pose proof (lookupZ_Forall _ _ _ _ Hin Hc) as Hic. cbn in Hic. by rewrite Hic. }
    destruct Hp as [[Hpr Hpc] Hgu Hl Hnd Hc].
    assert (Hnd' : NoDup (row_num <$> (overlays p ++ [r]))).
    { rewrite fmap_app. apply NoDup_app. split_and!; [done| |apply NoDup_singleton]. by intros x Hx ->%list_elem_of_singleton. }
    assert (Hget : (overlays p ++ [r]) !! length (overlays p) = Some r) by by rewrite lookup_app_r, Nat.sub_diag by lia.
    assert (Hpend : Forall (fun c => oc_active c = true -> local_frame_late_acked p < expiration_frame (oc_overlay c)) (overlay_cells r)).
    { eapply Forall_impl; [exact Hin|]. cbn. congruence. }
    split_and!; try done. split; try done.
    + split; [|done]. cbn. apply Forall_app. split; [done|]. by apply Forall_singleton.
    + intros j Hj. rewrite <- Hg by done. by apply (guess_row _ (length (overlays p))).
Qed.

(** The cursor is moved. *)
Lemma with_cursor_is g col p k col' : row_is g col p ->
  (forall c, cm_row c = row -> cm_col c = col -> local_frame_late_acked p < expiration_frame (cm_overlay c) ->
     cm_row (k c) = row /\ cm_col (k c) = col' /\ local_frame_late_acked p < expiration_frame (cm_overlay (k c))) ->
  exists p', with_cursor k p = Ok (tt, p') /\ row_is g col' p' /\ kept p p'.
Proof.
  intros [[Hpr Hpc] Hg Hl Hnd (c & Hc & Hr & Hcol)] Hk. pose proof Hc as [l El]%last_Some.
  assert (Hpc' : Forall (fun c => local_frame_late_acked p < expiration_frame (cm_overlay c)) (l ++ [c])) by by rewrite <- El.
  apply Forall_app in Hpc' as [Hpl [Hpx _]%Forall_cons]. destruct (Hk c Hr Hcol Hpx) as (Hr' & Hc' & Hp').
  unfold with_cursor, cursor_, mbind, M_bind, gets, modify. rewrite Hc. cbn. eexists. split; [done|]. split; [|done].
  split; try done; cbn; rewrite El, removelast_last; [|exists (k c); by rewrite last_snoc].
  split; [done|]. cbn. apply Forall_app. split; [done|by apply Forall_singleton].
Qed.

Lemma expire_cursor_is g col p : row_is g col p -> exists p', expire_cursor now p = Ok (tt, p') /\ row_is g col p' /\ kept p p'.
Proof.
  intros Hp. unfold expire_cursor, get, mbind, M_bind. apply (with_cursor_is g col p _ col Hp). intros c Hr Hc _. split_and!; [done..|]. apply Hp.
Qed.

Lemma move_cursor_is g col p n : row_is g col p -> exists p', move_cursor now n p = Ok (tt, p') /\ row_is g (col + n) p' /\ kept p p'.
Proof.
  intros Hp. destruct (with_cursor_is g col p (on_move (fun o => o <| o_col := o_col o + n |>)) (col + n) Hp) as (p1 & E1 & Hp1 & K1).
  { intros c Hr <- He. done. }
  destruct (expire_cursor_is g (col + n) p1 Hp1) as (p2 & E2 & Hp2 & K2). exists p2. unfold move_cursor, mbind, M_bind. rewrite E1.
  split_and!; [done|done|]. unfold kept in *. intuition congruence.
Qed.

Lemma init_cursor_is g col p :
  (match last (cursors p) with Some c => cm_row c = row /\ cm_col c = col | None => cursor_row (ds f) = row /\ cursor_col (ds f) = col end) ->
  all_pending p -> (forall j, 0 <= j < w -> guess_at p f row j = Some (g j)) -> local_frame_late_acked p < u64 (local_frame_sent p + 1) ->
  NoDup (row_num <$> overlays p) ->
  exists p', init_cursor f p = Ok (tt, p') /\ row_is g col p' /\ kept p p' /\ overlays p' = overlays p.
Proof.
  intros Hpos [Hpr Hpc] Hg Hl Hnd.
  assert (Hpush : forall r c, r = row -> c = col -> exists p', push_cursor r c p = Ok (tt, p') /\ row_is g col p' /\ kept p p' /\ overlays p' = overlays p).
  { intros r c -> ->. unfold push_cursor, with_cursor, cursor_, mbind, M_bind, modify, gets. cbn. rewrite last_snoc. eexists. split; [done|]. split; [|done].
    split; try done; cbn; rewrite removelast_last; [|eexists; by rewrite last_snoc]. split; [done|]. cbn. apply Forall_app. split; [done|by apply Forall_singleton]. }
  unfold init_cursor, get, mbind at 1, M_bind at 1. case_bool_decide as E.
  - rewrite E in Hpos. destruct Hpos. by apply Hpush.
  - unfold cursor_, mbind, M_bind, gets. destruct (last (cursors p)) as [c|] eqn:El; [|by apply last_None in El]. cbn.
    destruct Hpos. destruct (negb _); [by apply Hpush|]. exists p. split_and!; try done. split; try done. by exists c.
Qed.

Lemma cursor_is g col p : row_is g col p -> exists c, cursor_ p = Ok (c, p) /\ cm_row c = row /\ cm_col c = col.
Proof. intros [_ _ _ _ (c & Hc & Hr & Hcol)]. exists c. unfold cursor_, mbind, M_bind, gets. by rewrite Hc. Qed.

Lemma predict_in_known e x c : unknown (predict_in e x now c) = false.
Proof. unfold predict_in, reset_with_orig. destruct (oc_active c), (unknown c) eqn:E; done. Qed.

Lemma guess_renditions_put p ri r cs col : overlays p !! ri = Some r -> lenZ cs = w -> 0 <= col < w ->
  exists x, guess_renditions f ri row col (put_cells ri cs p) = Ok (x, put_cells ri cs p).
Proof.
  intros Hr Hl Hcol. unfold guess_renditions. destruct (Z.ltb_spec 0 col); [|by eexists].
  destruct (lookupZ_lt cs (col - 1) ltac:(lia)) as [c Hc]. unfold mbind, M_bind. rewrite (ocell_put ri r p Hr cs (col - 1) c Hc).
  destruct (cell_of_ok w h f row (col - 1) Hf Hrow ltac:(lia)) as (x & Ex). unfold lift. rewrite Ex. by eexists.
Qed.

(** The shift of the cells to the right of the cursor. *)
Lemma predict_shift p ri r cs col : overlays p !! ri = Some r -> fresh w p cs -> 0 <= col < w - 1 ->
  local_frame_late_acked p < u64 (local_frame_sent p + 1) ->
  exists cs', let rm := if predict_overwrite p then col else w - 1 in
    for_n (Z.to_nat (rm - col)) 0 (fun k => insert_cell_at now f ri row (rm - k)) (put_cells ri cs p) = Ok (tt, put_cells ri cs' p) /\ fresh w p cs' /\
    forall j, 0 <= j < w -> j <> col -> row_guess f row cs' j =
      if predict_overwrite p || (j <? col) then row_guess f row cs j else if j =? w - 1 then Some Unknown else row_guess f row cs (j - 1).
Proof.
  intros Hr Hcs Hcol Hl. destruct (predict_overwrite p).
  - exists cs. cbv zeta. by rewrite Z.sub_diag.
  - destruct (insert_loop w h now f ri r p Hr Hf row Hrow Hl (Z.to_nat (w - 1 - col)) 0 cs (w - 1) Hcs ltac:(lia) ltac:(lia)) as (cs' & E & Hcs' & Hg).
    exists cs'. split_and!; [done..|]. intros j Hj Hne. rewrite Hg. cbn [orb].
    destruct (Z.ltb_spec (w - 1 - 0 - Z.of_nat (Z.to_nat (w - 1 - col))) j), (Z.leb_spec j (w - 1 - 0)), (Z.ltb_spec j col); cbn [andb]; try lia; done.
Qed.

Lemma predict_char_is e p c : row_is (ed_line e) (ed_col e) p -> Forall (orow_ok w h) (overlays p) -> 0x20 <= c < 0x7f -> 0 <= ed_col e < w - 1 ->
  exists p', predict_char now f c p = Ok (tt, p') /\
    row_is (ed_line (ed_insert (predict_overwrite p) w [c] e)) (ed_col e + 1) p' /\ kept p p'.
Proof.
  intros Hp Hok Hc Hcol. destruct (cursor_is _ _ _ Hp) as (cur & Ecur & Er & Ec). unfold predict_char. rewrite (M_bind_Ok _ _ _ _ _ Ecur), Er, Ec.
  rewrite (fo_width _ _ _ (so_frame _ _ _ Hf)), (fo_height _ _ _ (so_frame _ _ _ Hf)).
  rewrite (proj2 (Z.leb_le 0 row)), (proj2 (Z.leb_le 0 (ed_col e))), (proj2 (Z.ltb_lt row h)), (proj2 (Z.ltb_lt (ed_col e) w)) by lia. cbn [assert_].
  destruct (get_or_make_row_is _ _ p Hp Hok) as (ri & r & rs & Erow & Hr & Hn & Hp1 & Hcs & Hg). set (p1 := p <| overlays := rs |>) in *.
  do 4 rewrite (M_bind_Ok _ _ p tt p eq_refl). rewrite (M_bind_Ok _ _ _ _ _ Erow). rewrite (proj2 (Z.leb_gt w (ed_col e + 1))) by lia.
  rewrite (M_bind_Ok _ _ p1 tt p1 eq_refl), (M_bind_Ok _ _ p1 p1 p1 eq_refl). change (overlays p1 !! ri = Some r) in Hr.
  destruct (predict_shift p1 ri r (overlay_cells r) (ed_col e) Hr Hcs Hcol (ri_late _ _ _ Hp1)) as (cs & Eloop & Hcs1 & Hg1). cbv zeta in Eloop.
  rewrite (put_cells_id ri r p1 Hr) in Eloop. rewrite (M_bind_Ok _ _ _ _ _ Eloop).
  destruct (lookup_cells w h f p1 Hf row Hrow cs (ed_col e) Hcs1 ltac:(lia)) as (c0 & x & Hc0 & Hx & Ex).
  set (c1 := predict_in (prediction_epoch p1) (u64 (local_frame_sent p1 + 1)) now c0).
  rewrite (M_bind_Ok _ _ _ _ _ (predict_cell_put now ri r p1 Hr cs (ed_col e) Ok c0 c1 Hc0 eq_refl)).
  destruct (guess_renditions_put p1 ri r (updateZ cs (ed_col e) c1) (ed_col e) Hr) as (rend & Erend); [rewrite lenZ_updateZ; apply Hcs1|lia|].
  rewrite (M_bind_Ok _ _ _ _ _ Erend), (M_bind_Ok _ _ _ x (put_cells ri (updateZ cs (ed_col e) c1) p1)) by (unfold lift; by rewrite Ex).
  set (c2 := push_original x (c1 <| replacement := (replacement c1) <| cell_renditions := rend |> <| contents := [c] |> |>)).
  assert (Hl : 0 <= ed_col e < lenZ cs) by (destruct Hcs1; lia).
  rewrite (M_bind_Ok _ _ _ tt (put_cells ri (updateZ cs (ed_col e) c2) p1)).
  2:{ rewrite <- (updateZ_twice cs (ed_col e) c1 c2). apply (with_ocell_put ri r p1 Hr _ _ _ c1); [by rewrite lookupZ_updateZ_if, Z.eqb_refl by lia|].
      unfold Cell_append, append_to_str. unfold u32. rewrite Z.mod_small, (proj2 (Z.leb_le c 0x7f)) by lia. done. }
  destruct (update_fresh w f p1 row cs (ed_col e) c2 x (Known [c]) Hcs1 ltac:(lia) Hx (ri_late _ _ _ Hp1)) as [Hcs2 Hg2].
  { unfold guess1. change (oc_active c2) with true. change (unknown c2) with (unknown c1). by rewrite (predict_in_known _ _ c0 : unknown c1 = false). }
  assert (Hp2 : row_is (ed_line (ed_insert (predict_overwrite p) w [c] e)) (ed_col e) (put_cells ri (updateZ cs (ed_col e) c2) p1)).
  { apply (row_is_put (ed_line e) (ed_col e) p1 ri r); [done..|]. intros j Hj. rewrite Hg2. cbn. destruct (Z.eqb_spec j (ed_col e)) as [|Hne]; [done|].
    rewrite Hg1 by lia. change (predict_overwrite p1) with (predict_overwrite p).
    destruct (Z.ltb_spec j (ed_col e)), (predict_overwrite p); cbn [orb]; rewrite ?Hg by lia; try done. by destruct (_ =? _). }
  destruct (expire_cursor_is _ _ _ Hp2) as (p3 & E3 & Hp3 & K3). rewrite (M_bind_Ok _ _ _ _ _ E3), (proj2 (Z.ltb_lt (ed_col e) (w - 1))) by lia.
  destruct (with_cursor_is _ _ p3 (on_move (fun o => o <| o_col := o_col o + 1 |>)) (ed_col e + 1) Hp3) as (p4 & E4 & Hp4 & K4); [by intros m Hm1 <- Hm3|].
  exists p4. split_and!; [done..|]. unfold kept in *. cbn in K3. intuition congruence.
Qed.

Lemma predict_backspace_is e p : row_is (ed_line e) (ed_col e) p -> Forall (orow_ok w h) (overlays p) -> 0 <= ed_col e < w ->
  exists p', predict_backspace now f p = Ok (tt, p') /\
    row_is (ed_line (ed_backspace (predict_overwrite p) w e)) (ed_col (ed_backspace (predict_overwrite p) w e)) p' /\ kept p p'.
Proof.
  intros Hp Hok Hcol. destruct (cursor_is _ _ _ Hp) as (cur & Ecur & Er & Ec). unfold predict_backspace. rewrite (M_bind_Ok _ _ _ _ _ Ecur), Er, Ec.
  rewrite (fo_width _ _ _ (so_frame _ _ _ Hf)).
  destruct (get_or_make_row_is _ _ p Hp Hok) as (ri & r & rs & Erow & Hr & Hn & Hp1 & Hcs & Hg). set (p1 := p <| overlays := rs |>) in *.
  rewrite (M_bind_Ok _ _ _ _ _ Erow). unfold ed_backspace. destruct (Z.ltb_spec 0 (ed_col e)) as [Hpos|Hpos]; [|by exists p1].
  destruct (move_cursor_is _ _ p1 (-1) Hp1) as (p2 & E2 & Hp2 & K2). rewrite (M_bind_Ok _ _ _ _ _ E2), (M_bind_Ok _ _ p2 p2 p2 eq_refl).
  assert (Ho2 : overlays p2 = overlays p1).
  { revert E2. unfold move_cursor, expire_cursor, with_cursor, cursor_, mbind, M_bind, get, gets, modify. destruct (last (cursors p1)); [|done]. cbn.
    rewrite last_snoc. cbn. by intros [= <-]. }
  assert (Hr2 : overlays p2 !! ri = Some r) by by rewrite Ho2.
  assert (Hcs2 : fresh w p2 (overlay_cells r)) by (destruct K2 as (_ & El & _); unfold fresh; by rewrite El).
  assert (Hk : kept p p2) by (unfold kept in *; cbn in K2; intuition congruence). replace (predict_overwrite p2) with (predict_overwrite p) by (symmetry; apply Hk).
  destruct (predict_overwrite p).
  - destruct (cell_of_cursor w h f Hf) as (x & Ex). unfold backspace_overwrite. rewrite (M_bind_Ok _ _ p2 x p2) by (unfold lift; by rewrite Ex).
    destruct (lookup_cells w h f p2 Hf row Hrow (overlay_cells r) (ed_col e - 1) Hcs2 ltac:(lia)) as (c0 & y & Hc0 & Hy & Ey).
    set (c1 := (push_original x (predict_in (prediction_epoch p2) (u64 (local_frame_sent p2 + 1)) now c0)) <| replacement := x <| contents := [32] |> |>).
    match goal with |- context [predict_cell _ _ _ ?k p2] => pose proof (predict_cell_put now ri r p2 Hr2 (overlay_cells r) (ed_col e - 1) k c0 c1 Hc0 eq_refl) as Ep end.
    rewrite (put_cells_id ri r p2 Hr2) in Ep. rewrite Ep.
    destruct (update_fresh w f p2 row (overlay_cells r) (ed_col e - 1) c1 y (Known [32]) Hcs2 ltac:(lia) Hy (ri_late _ _ _ Hp2)) as [Hfr Hg2].
    { unfold guess1. change (oc_active c1) with true. change (unknown c1) with (unknown (predict_in (prediction_epoch p2) (u64 (local_frame_sent p2 + 1)) now c0)).
      by rewrite predict_in_known. }
    eexists. split; [done|]. split; [|done]. apply (row_is_put (ed_line e) (ed_col e + -1) p2 ri r); [done..|].
    intros j Hj. rewrite Hg2. cbn. destruct (j =? ed_col e - 1); [done|]. by apply Hg.
  - unfold for_range. destruct (backspace_loop w h now f ri r p2 Hr2 Hf row Hrow (ri_late _ _ _ Hp2) (Z.to_nat (w - (ed_col e - 1))) (ed_col e - 1) (overlay_cells r)
      Hcs2 ltac:(lia) ltac:(lia)) as (cs & El & Hfr & Hg2).
    rewrite (put_cells_id ri r p2 Hr2) in El. rewrite El. eexists. split; [done|]. split; [|done]. apply (row_is_put (ed_line e) (ed_col e + -1) p2 ri r); [done..|].
    intros j Hj. rewrite Hg2 by lia. cbn.
    destruct (Z.leb_spec (ed_col e - 1) j), (Z.ltb_spec j (ed_col e - 1)); try lia; [|by apply Hg].
    destruct (Z.ltb_spec (j + 2) w); [|done]. apply Hg. lia.
Qed.

(** ** Typing *)

Lemma printed_key c : 0x20 <= c <= 0x7f -> utf8_input c [] (MkUTF8Parser Ground []) = Ok ([MkAction Print c true], MkUTF8Parser Ground []).
Proof.
  intros Hc. assert (Hall : forallb (fun c => (c <? 0x20) || bool_decide (parser_input Ground c [] = (Ground, [MkAction Print c true]))) (seqZ 0 128) = true)
    by (vm_compute; reflexivity).
  pose proof (forall_range _ _ Hall c ltac:(lia)) as Hb. cbv beta in Hb. rewrite (proj2 (Z.ltb_ge c 0x20)) in Hb by lia. cbn [orb] in Hb.
  apply bool_decide_eq_true_1 in Hb. unfold utf8_input, mbind, M_bind, gets, assert_, buf_len. cbn -[Z.leb parser_input].
  rewrite (proj2 (Z.leb_le c 127)) by lia. unfold feed. change (bool_decide (0 < BUF_SIZE)%nat) with true.
  change (bool_decide (0%nat = 0%nat)) with true. cbn -[parser_input]. by rewrite Hb.
Qed.

(** The engine believes in the editor [e]: its guesses for the row and its
    cursor are the editor's, and no answer to them is due. *)
Record typing (e : editor) (p : PredictionEngine) : Prop := {
  ty_inv : pe_inv w h p;
  ty_pending : all_pending p;
  ty_guess : forall j, 0 <= j < w -> guess_at p f row j = Some (ed_line e j);
  ty_late : local_frame_late_acked p < u64 (local_frame_sent p + 1);
  ty_pos : match last (cursors p) with
           | Some c => cm_row c = row /\ cm_col c = ed_col e
           | None => cursor_row (ds f) = row /\ cursor_col (ds f) = ed_col e
           end;
  ty_parser : pe_parser p = MkUTF8Parser Ground [];
  ty_byte : last_byte p <> 0x1b;
  ty_shown : prefers Never p = false }.

Lemma typing_col e p : typing e p -> 0 <= ed_col e < w.
Proof.
  intros [Hi _ _ _ Hpos _ _ _]. destruct (last (cursors p)) as [c|] eqn:E.
  - destruct Hpos as [_ <-]. by apply (last_move_ok w h p c Hi E).
  - destruct Hpos as [_ <-]. apply Hf.
Qed.

Context (Hwidth : forall c, 0x20 <= c < 0x7f -> wcwidth c = 1).

(** The prediction for a key, after the screen was looked at. *)
Lemma predict_key e p c : pe_inv w h p -> all_pending p -> (forall j, 0 <= j < w -> guess_at p f row j = Some (ed_line e j)) ->
  local_frame_late_acked p < u64 (local_frame_sent p + 1) ->
  (match last (cursors p) with Some m => cm_row m = row /\ cm_col m = ed_col e | None => cursor_row (ds f) = row /\ cursor_col (ds f) = ed_col e end) ->
  0 <= ed_col e < w -> ed_key_ok w c e ->
  exists p', predict_action now f (MkAction Print c true) p = Ok (tt, p') /\ kept p p' /\
    row_is (ed_line (ed_key (predict_overwrite p) w c e)) (ed_col (ed_key (predict_overwrite p) w c e)) p'.
Proof.
  intros Hi Hpend Hg Hl Hpos Hcol [Hc Hlast]. destruct (init_cursor_is (ed_line e) (ed_col e) p Hpos Hpend Hg Hl (pi_nodup _ _ _ Hi)) as (p1 & E1 & Hp1 & K1 & Ho).
  assert (Hok : Forall (orow_ok w h) (overlays p1)) by (rewrite Ho; apply Hi).
  unfold predict_action, predict_print. cbn [typ ch char_present]. rewrite (M_bind_Ok _ _ _ _ _ E1), (M_bind_Ok _ _ p1 tt p1 eq_refl).
  replace (predict_overwrite p) with (predict_overwrite p1) by apply K1. unfold ed_key. destruct (Z.eqb_spec c 0x7f) as [->|Hne].
  - destruct (predict_backspace_is e p1 Hp1 Hok Hcol) as (p2 & E2 & Hp2 & K2). exists p2. split_and!; [done| |done]. unfold kept in *. intuition congruence.
  - rewrite (proj2 (Z.ltb_ge c 0x20)), (Hwidth c) by lia. cbn [orb negb Z.eqb Pos.eqb].
    destruct (predict_char_is e p1 c Hp1 Hok ltac:(lia) ltac:(lia)) as (p2 & E2 & Hp2 & K2). exists p2. split_and!; [done| |done]. unfold kept in *. intuition congruence.
Qed.

Lemma key_step e p c : typing e p -> ed_key_ok w c e ->
  exists p', new_user_byte now f c p = Ok (tt, p') /\ typing (ed_key (predict_overwrite p) w c e) p' /\ predict_overwrite p' = predict_overwrite p.
Proof.
  intros Hty Hkey. pose proof Hty as [Hi Hpend Hg Hl Hpos Hpa Hby Hsh].
  destruct (new_user_byte_safe w h now f Hf w h p c Hi) as (q & Eq & Hq); [destruct Hkey; unfold is_u8; lia|]. rewrite Hsh in Hq.
  set (p0 := if prefers Experimental p then p <| prediction_epoch := confirmed_epoch p |> else p).
  assert (Hi0 : pe_inv w h p0) by (subst p0; destruct (prefers Experimental p); [|done]; destruct Hi as [? ? ? ? [? ?] ? ?]; by split).
  assert (H0 : overlays p0 = overlays p /\ cursors p0 = cursors p /\ kept p p0) by (subst p0; by destruct (prefers Experimental p)).
  destruct H0 as (Ho0 & Hc0 & K0).
  destruct (cull_pending w h now f Hf p0 Hi0) as (p1 & E1 & (Ho1 & Hc1 & Hpa1 & Hby1 & Hse1 & Hla1 & He1 & Hce1 & Hlw1 & Hlh1 & Hpr1 & Hov1)).
  { unfold all_pending. destruct K0 as (_ & -> & _). by rewrite Ho0, Hc0. }
  set (p2 := p1 <| last_byte := c |>).
  assert (K2 : overlays p2 = overlays p /\ cursors p2 = cursors p /\ local_frame_sent p2 = local_frame_sent p /\
    local_frame_late_acked p2 = local_frame_late_acked p /\ pe_parser p2 = pe_parser p /\ display_preference p2 = display_preference p /\ predict_overwrite p2 = predict_overwrite p)
    by (unfold kept in K0; subst p2; cbn; intuition congruence).
  destruct K2 as (Ho2 & Hc2 & Hse2 & Hla2 & Hpa2 & Hpr2 & Hov2).
  assert (Hi2 : pe_inv w h p2).
  { subst p2. destruct Hi0 as [? ? ? ? ? ? ?]. split; cbn; rewrite ?Ho1, ?Hc1, ?Hpa1, ?He1, ?Hce1, ?Hlw1, ?Hlh1; done. }
  destruct (predict_key e p2 c Hi2) as (p3 & E3 & K3 & Hp3); [unfold all_pending; by rewrite Ho2, Hc2, Hla2|unfold guess_at; by rewrite Ho2|by rewrite Hla2, Hse2|
    by rewrite Hc2|by apply (typing_col e p)|done|].
  assert (En : new_user_byte now f c p = Ok (tt, p3)).
  { unfold new_user_byte, get. rewrite (M_bind_Ok _ _ p p p eq_refl), Hsh. rewrite (M_bind_Ok _ _ p tt p0) by (subst p0; by destruct (prefers Experimental p)).
    rewrite (M_bind_Ok _ _ _ _ _ E1), (M_bind_Ok _ _ p1 p1 p1 eq_refl).
    assert ((last_byte p1 =? 27) = false) as -> by (apply Z.eqb_neq; destruct K0 as (_ & _ & _ & K0 & _); congruence). cbn [andb].
    rewrite (M_bind_Ok (modify (fun p => p <| last_byte := c |>)) _ p1 tt p2 eq_refl). rewrite (M_bind_Ok _ _ p2 [MkAction Print c true] p2).
    - cbn [for_each]. by rewrite (M_bind_Ok _ _ _ _ _ E3).
    - unfold zoom. rewrite Hpa2, Hpa, printed_key by apply Hkey. rewrite <- Hpa, <- Hpa2. by destruct p2. }
  exists p3. rewrite Hov2 in Hp3. destruct K3 as (K31 & K32 & K33 & K34 & K35 & K36). split_and!; [done| |congruence].
  rewrite En in Eq. injection Eq as <-. destruct Hp3 as [Hp3 Hg3 Hl3 _ (m & Hm1 & Hm2 & Hm3)]. split; try done.
  - by rewrite Hm1.
  - congruence.
  - rewrite K34. change (last_byte p2) with c. destruct Hkey. lia.
  - unfold prefers in *. by rewrite K35, Hpr2.
Qed.

(** All keys stay off the last column. *)
Fixpoint ed_run (overwrite : bool) (keys : list Z) (e : editor) : editor :=
  match keys with [] => e | c :: keys' => ed_run overwrite keys' (ed_key overwrite w c e) end.
Fixpoint ed_run_ok (overwrite : bool) (keys : list Z) (e : editor) : Prop :=
  match keys with [] => True | c :: keys' => ed_key_ok w c e /\ ed_run_ok overwrite keys' (ed_key overwrite w c e) end.

Lemma typing_run keys : forall e p, typing e p -> ed_run_ok (predict_overwrite p) keys e ->
  exists p', for_each keys (new_user_byte now f) p = Ok (tt, p') /\ typing (ed_run (predict_overwrite p) keys e) p' /\ predict_overwrite p' = predict_overwrite p.
Proof.
  induction keys as [|c keys IH]; intros e p Hp Hok; [by exists p|]. destruct Hok as [Hk Hok].
  destruct (key_step e p c Hp Hk) as (p1 & E1 & Hp1 & Ho1). cbn [for_each ed_run]. rewrite (M_bind_Ok _ _ _ _ _ E1), <- Ho1. apply IH; by rewrite ?Ho1.
Qed.
End keys.

(** ** From the screen to the editor and back *)

(** The editor that starts with the row the cursor is in. *)
Definition ed_start (f : Framebuffer) : editor :=
  MkEditor (fun j => Known (match frame_cell f (cursor_row (ds f)) j with Some x => contents x | None => [] end)) (cursor_col (ds f)).

(** The epochs of all predictions are confirmed. *)
Definition all_confirmed (p : PredictionEngine) : Prop :=
  Forall (fun r => Forall (fun c => tentative (confirmed_epoch p) (oc_overlay c) = false) (overlay_cells r)) (overlays p) /\
  Forall (fun c => displayed (confirmed_epoch p) c = true) (cursors p).

Lemma pred_cell_contents w confirmed flag c x s :
  tentative confirmed (oc_overlay c) = false -> guess1 c x = Known s -> contents (pred_cell w confirmed flag c x) = s.
Proof.
  intros Ht. unfold guess1, pred_cell. rewrite Ht. destruct (oc_active c); cbn [negb orb]; [|by intros [= <-]].
  destruct (unknown c); [done|]. intros [= <-]. destruct (Cell_eqb x (replacement c)) eqn:E; [|by destruct (if _ && _ then _ else _)].
  unfold Cell_eqb in E. rewrite !andb_true_iff, bool_decide_eq_true in E. apply E.
Qed.

Section typing_claims.
Context `{HL : Libc} `{HLL : !LibcLaws} (w h now : Z) (f : Framebuffer).

Lemma typing_shown row e p g : screen_ok w h f -> origin_mode (ds f) = false -> typing w h f row e p -> displays p = true -> all_confirmed p ->
  exists s', pe_apply p (MkScreen g f) = Ok (tt, s') /\
    (forall j s, 0 <= j < w -> ed_line e j = Known s -> contents <$> frame_cell (fb s') row j = Some s) /\
    cursor_row (scr_ds s') = row /\ cursor_col (scr_ds s') = ed_col e.
Proof.
  intros Hf Ho [Hi _ Hg _ Hpos _ _ _] Hd [Hcc Hmc]. destruct (pe_apply_draws w h p (MkScreen g f) Hi) as (s' & E & _ & Hcell & Hcur); [by split|].
  exists s'. split; [done|]. split.
  - intros j s Hj Hs. rewrite Hcell. specialize (Hg j Hj). rewrite Hs in Hg. unfold guess_at in Hg. cbn [fb]. destruct (frame_cell f row j) as [x|]; [|done]. cbn in Hg |- *.
    f_equal. unfold shown_cell, under. rewrite Hd. injection Hg as Hg.
    assert (Hin : forall c, predicted_in (overlays p) row j = Some c -> tentative (confirmed_epoch p) (oc_overlay c) = false).
    { revert Hcc. generalize (overlays p). clear. induction l as [|r rs IH]; [done|]. intros [Hr Hrs]%Forall_cons c. cbn. destruct (_ =? _); [|by apply IH].
      intros Hc. by apply (lookupZ_Forall _ _ _ _ Hr Hc). }
    destruct (predicted_in _ _ _) as [c|]; [|by injection Hg as <-]. apply pred_cell_contents; auto.
  - unfold shown_cursor in Hcur. rewrite Hd, filter_all in Hcur by done. destruct (last (cursors p)) as [c|]; injection Hcur as -> ->; apply Hpos.
Qed.

(** C36. The predictions are a line editor.  The user types printable
    characters and backspaces while nothing is outstanding and no answer comes:
    the engine's guesses for the cursor's row are those of an editor that
    starts with the row of the screen, inserts (or overwrites) at its cursor
    and deletes on backspace, where the columns next to the right margin
    become unknown; and the predicted cursor is the editor's.  If predictions
    are displayed and their epochs confirmed, drawing them shows the
    contents the editor knows and its cursor. *)
Theorem typing_edits keys p g :
  (forall c, 0x20 <= c < 0x7f -> wcwidth c = 1) ->
  screen_ok w h f -> origin_mode (ds f) = false -> pe_inv w h p -> overlays p = [] -> cursors p = [] ->
  pe_parser p = MkUTF8Parser Ground [] -> last_byte p <> 0x1b -> prefers Never p = false ->
  local_frame_late_acked p < u64 (local_frame_sent p + 1) ->
  ed_run_ok w (predict_overwrite p) keys (ed_start f) ->
  let e := ed_run w (predict_overwrite p) keys (ed_start f) in
  let row := cursor_row (ds f) in
  exists p', for_each keys (new_user_byte now f) p = Ok (tt, p') /\
    (forall j, 0 <= j < w -> guess_at p' f row j = Some (ed_line e j)) /\
    (displays p' = true -> all_confirmed p' ->
     exists s', pe_apply p' (MkScreen g f) = Ok (tt, s') /\
       (forall j s, 0 <= j < w -> ed_line e j = Known s -> contents <$> frame_cell (fb s') row j = Some s) /\
       cursor_row (scr_ds s') = row /\ cursor_col (scr_ds s') = ed_col e).
Proof.
  intros Hwc Hf Ho Hi Hov Hcu Hpa Hby Hsh Hl Hok e row.
  assert (Hty : typing w h f row (ed_start f) p).
  { split; try done; [by split; rewrite ?Hov, ?Hcu| |by rewrite Hcu]. intros j Hj. unfold guess_at. rewrite Hov. cbn.
    destruct (cell_at_Some w h f row j Hf (so_row _ _ _ Hf) Hj) as [x Hx]. subst row. by rewrite Hx. }
  destruct (typing_run w h now f Hf row (so_row _ _ _ Hf) Hwc keys (ed_start f) p Hty Hok) as (p' & E & Hp' & _). exists p'. split; [done|].
  split; [apply (ty_guess _ _ _ _ _ _ Hp')|]. by apply (typing_shown row e).
Qed.
End typing_claims.

Lemma typing_edits_witness :
  exists p', for_each [97; 98; 127] (new_user_byte 5 prompt_screen) sample_engine = Ok (tt, p') /\
    (forall j, 0 <= j < 6 -> guess_at p' prompt_screen 0 j = Some (ed_line (ed_run 6 false [97; 98; 127] (ed_start prompt_screen)) j)) /\
    (displays p' = true -> all_confirmed p' ->
     exists s', pe_apply p' (MkScreen 0 prompt_screen) = Ok (tt, s') /\
       (forall j s, 0 <= j < 6 -> ed_line (ed_run 6 false [97; 98; 127] (ed_start prompt_screen)) j = Known s ->
          contents <$> frame_cell (fb s') 0 j = Some s) /\
       cursor_row (scr_ds s') = 0 /\ cursor_col (scr_ds s') = 3).
Proof.
  apply (typing_edits 6 2 5 prompt_screen [97; 98; 127] sample_engine 0); try done; [|apply prompt_ok|apply sample_engine_ok|].
  - intros c Hc. cbn. unfold simple_wcwidth. repeat case_match; lia.
  - repeat split; cbn; lia.
Defined.

(** The engine of the witness does show its predictions. *)
Example typing_shows :
  match for_each [97; 98; 127] (new_user_byte 5 prompt_screen) sample_engine with
  | Ok (_, p) => displays p && forallb (fun r => forallb (fun c => negb (tentative (confirmed_epoch p) (oc_overlay c))) (overlay_cells r)) (overlays p)
                 && forallb (displayed (confirmed_epoch p)) (cursors p)
  | Err _ => false
  end = true.
Proof. by vm_compute. Qed.
