(* ===== verification/Notification.v ===== *)
(** * Notifications and the overlay manager (frontend/terminaloverlay.cc, terminaloverlay.h)

    The bar across the top of the screen, the title prefix, and the order in
    which the overlays are drawn.  [timestamp()] is the argument [now]. *)
From Stdlib Require Import SpecFloat.
From S2P Require Export Overlay Sender.

(** ** Messages *)

Record NotificationEngine : Type := MkNotificationEngine {
  last_word_from_server : Z; last_acked_state : Z; escape_key_string : bytes; message : list Z;
  message_is_network_error : bool; message_expiration : Z; show_quit_keystroke : bool }.
#[export] Instance eta_NotificationEngine : Eta NotificationEngine :=
  fun n => MkNotificationEngine (last_word_from_server n) (last_acked_state n) (escape_key_string n) (message n)
    (message_is_network_error n) (message_expiration n) (show_quit_keystroke n).

Definition NotificationEngine_new (now : Z) : NotificationEngine :=
  MkNotificationEngine now now [] [] false UINT64_MAX true.

Definition server_late (ts : Z) (n : NotificationEngine) : bool := 6500 <? u64 (ts - last_word_from_server n).
Definition reply_late (ts : Z) (n : NotificationEngine) : bool := 10000 <? u64 (ts - last_acked_state n).
Definition need_countup (ts : Z) (n : NotificationEngine) : bool := server_late ts n || reply_late ts n.

Definition server_heard (s_last_word : Z) (n : NotificationEngine) : NotificationEngine := n <| last_word_from_server := s_last_word |>.
Definition server_acked (s_last_acked : Z) (n : NotificationEngine) : NotificationEngine := n <| last_acked_state := s_last_acked |>.

Definition set_notification_string (now : Z) (s_message : list Z) (permanent s_show_quit_keystroke : bool) (n : NotificationEngine)
  : NotificationEngine :=
  n <| message := s_message |> <| message_expiration := if permanent then UINT64_MAX else u64 (now + 1000) |>
    <| message_is_network_error := false |> <| show_quit_keystroke := s_show_quit_keystroke |>.

(** A C string ends at its first NUL. *)
Fixpoint c_str (s : list Z) : list Z :=
  match s with [] => [] | c :: s' => if c =? 0 then [] else c :: c_str s' end.

Definition set_escape_key_string (s_name : bytes) (n : NotificationEngine) : NotificationEngine :=
  n <| escape_key_string := snprintf 128 (str " [To quit: " ++ c_str s_name ++ str " .]") |>.

Section notifications.
Context `{Libc}.

(** [%s] in a wide format converts multibyte characters; the contents of the
    buffer after a character that is not valid are not specified. *)
Fixpoint mbs (fuel : nat) (s : bytes) : result fault (list Z) :=
  match s, fuel with
  | [], _ => Ok []
  | _, O => Err Undefined
  | _, S fuel' =>
      match mbrtowc s with
      | MbChar n c => t ← mbs fuel' (drop n s); Ok (c :: t)
      | MbNul => Ok []
      | _ => Err Undefined
      end
  end.
Definition wide_string (s : bytes) : result fault (list Z) := mbs (length s) s.

(** [swprintf( tmp, 128, ... )] keeps 127 characters.  ISO C promises only a
    negative result for a text that does not fit; glibc and bionic keep what
    fits. *)
Definition swprintf (s : list Z) : list Z := take 127 s.

Definition set_network_error (now : Z) (s : bytes) (n : NotificationEngine) : result fault NotificationEngine :=
  t ← wide_string s;
  Ok (n <| message := swprintf t |> <| message_is_network_error := true |>
        <| message_expiration := u64 (u64 (now + ACK_INTERVAL) + 100) |>).

Definition clear_network_error (now : Z) (n : NotificationEngine) : NotificationEngine :=
  if message_is_network_error n then n <| message_expiration := Z.min (message_expiration n) (u64 (now + 1000)) |> else n.

Definition adjust_message (now : Z) (n : NotificationEngine) : NotificationEngine :=
  if message_expiration n <=? now then n <| message := [] |> else n.

Definition notification_wait_time (now : Z) (n : NotificationEngine) : Z :=
  let next_expiry := Z.min INT_MAX (u64 (message_expiration n - now)) in
  i32 (if need_countup now n then
         Z.min next_expiry (if 60000 <? u64 (now - last_word_from_server n) then ACK_INTERVAL else 1000)
       else next_expiry).

(** ** Durations *)

(** [%02d] of a number below 100. *)
Definition dec2 (z : Z) : bytes := if z <? 10 then 48 :: dec z else dec z.

Definition human_readable_duration (num_seconds : Z) (seconds_abbr : bytes) : bytes :=
  snprintf 128
    (if num_seconds <? 60 then dec num_seconds ++ 32 :: seconds_abbr
     else if num_seconds <? 3600 then dec (Z.quot num_seconds 60) ++ 58 :: dec2 (Z.rem num_seconds 60)
     else dec (Z.quot num_seconds 3600) ++ 58 :: dec2 (Z.rem (Z.quot num_seconds 60) 60) ++ 58 :: dec2 (Z.rem num_seconds 60)).

(** [static_cast<int>( x )] for a [double] is undefined out of range. *)
Definition int_of_double (x : double) : result fault Z :=
  match x with
  | S754_zero _ => Ok 0
  | S754_finite s m e =>
      let z := if 0 <=? e then Z.pos m * 2 ^ e else Z.pos m / 2 ^ (- e) in
      let z := if (s : bool) then - z else z in
      if (- 2 ^ 31 <=? z) && (z <=? INT_MAX) then Ok z else Err Undefined
  | _ => Err Undefined
  end.
Definition elapsed (now since : Z) : double := ddiv (dbl (u64 (now - since))) (dbl 1000).

(** The line that is drawn. *)
Definition notification_text (now : Z) (n : NotificationEngine) : result fault (list Z) :=
  let time_expired := need_countup now n in
  let uplink := reply_late now n && negb (server_late now n) in
  let time_elapsed := elapsed now (if uplink then last_acked_state n else last_word_from_server n) in
  let explanation := if uplink then str "reply" else str "contact" in
  keystroke_str ← wide_string (if show_quit_keystroke n then c_str (escape_key_string n) else []);
  if bool_decide (message n = []) then
    t ← int_of_double time_elapsed;
    Ok (swprintf (str "mosh: Last " ++ explanation ++ 32 :: human_readable_duration t (str "seconds") ++ str " ago." ++ keystroke_str))
  else if negb time_expired then Ok (swprintf (str "mosh: " ++ c_str (message n) ++ keystroke_str))
  else
    t ← int_of_double time_elapsed;
    Ok (swprintf (str "mosh: " ++ c_str (message n) ++ str " (" ++ human_readable_duration t (str "s") ++ str " without " ++
                  explanation ++ str ".)" ++ keystroke_str)).

(** ** Drawing *)

Definition bar_renditions (r : Renditions) : Renditions := set_background_color 4 (set_foreground_color 7 r).

Definition notification_bar : result fault Cell :=
  Cell_append 0x20 ((Cell_new 0) <| cell_renditions := bar_renditions (cell_renditions (Cell_new 0)) |>).

(** The writes through [this_cell]. *)
Definition bar_cell (bg c chwidth : Z) (x : Cell) : result fault Cell :=
  let x := Cell_reset bg x in
  let x := x <| cell_renditions := bar_renditions (set_attribute bold true (cell_renditions x)) |> in
  x ← Cell_append c x;
  Ok (x <| wide := chwidth =? 2 |>).

(** The loop over the characters; [combining] is the column of
    [combining_cell], which is never null. *)
Fixpoint draw_message (s : list Z) (overlay_col combining : Z) : M Screen unit :=
  match s with
  | [] => mret tt
  | c :: s' =>
      d ← gets scr_ds;
      if width d <=? overlay_col then mret tt else
      let chwidth := if c =? 0 then -1 else wcwidth c in
      if (chwidth =? 1) || (chwidth =? 2) then
        with_cell 0 overlay_col (bar_cell (get_background_rendition d) c chwidth) ;;
        draw_message s' (overlay_col + chwidth) overlay_col
      else if chwidth =? 0 then
        x ← get_cell 0 combining;
        when_ (Cell_empty x) (assert_ (negb (wide x)) ;; with_cell 0 combining (fun x => Ok (x <| fallback := true |>))) ;;
        when_ (negb (Cell_full x)) (with_cell 0 combining (Cell_append c)) ;;
        draw_message s' (if Cell_empty x then overlay_col + 1 else overlay_col) combining
      else if chwidth =? -1 then draw_message s' overlay_col combining
      else fail AssertFail
  end.

Definition notification_apply (now : Z) (n : NotificationEngine) : M Screen unit :=
  if bool_decide (message n = []) && negb (need_countup now n) then mret tt else
  d ← gets scr_ds;
  assert_ (0 <? width d) ;;
  assert_ (0 <? height d) ;;
  when_ (cursor_row d =? 0) (on_ds (fun d => d <| cursor_visible := false |>)) ;;
  bar ← lift notification_bar;
  for_range 0 (width d) (fun i => with_cell 0 i (fun _ => Ok bar)) ;;
  string_to_draw ← lift (notification_text now n);
  draw_message string_to_draw 0 0.

(** ** The manager *)

Record OverlayManager : Type := MkOverlayManager {
  notifications : NotificationEngine; predictions : PredictionEngine; title_prefix : list Z }.
#[export] Instance eta_OverlayManager : Eta OverlayManager :=
  fun o => MkOverlayManager (notifications o) (predictions o) (title_prefix o).

Definition OverlayManager_new (now : Z) : result fault OverlayManager :=
  p ← PredictionEngine_new; Ok (MkOverlayManager (NotificationEngine_new now) p []).

Definition set_title_prefix (s : list Z) (o : OverlayManager) : OverlayManager := o <| title_prefix := s |>.

(** [TitleEngine::apply]. *)
Definition title_apply (prefix : list Z) : M Screen unit := on_fb (prefix_window_title prefix).

(** A method that draws on the screen [s]. *)
Definition draw_on (m : M Screen unit) (s : Screen) : M OverlayManager Screen := lift ('(_, s') ← m s; Ok s').

Definition overlay_apply (now : Z) (s : Screen) : M OverlayManager Screen :=
  zoom predictions (fun p o => o <| predictions := p |>) (cull now (fb s)) ;;
  p ← gets predictions;
  s ← draw_on (pe_apply p) s;
  modify (fun o => o <| notifications := adjust_message now (notifications o) |>) ;;
  n ← gets notifications;
  s ← draw_on (notification_apply now n) s;
  t ← gets title_prefix;
  draw_on (title_apply t) s.

Definition overlay_wait_time (now : Z) (o : OverlayManager) : Z :=
  Z.min (notification_wait_time now (notifications o)) (pe_wait_time (predictions o)).
End notifications.
