(* ===== verification/NotificationSpec.v ===== *)
(** * The overlays can always be drawn

    The notification bar only changes the top row and hides a cursor in it;
    the overlay manager gives a frame that the display can draw. *)
From S2P Require Export OverlayDraw Notification.

(** The characters of a text. *)
Abbreviation unicode := (Forall (fun c => is_scalar c = true)).

(** ** The top row *)

Section bar.
Context `{HL : Libc} `{HLL : !LibcLaws} (w h : Z).

(** [s] is [s0] but for the top row, whose first [i] cells are not empty. *)
Definition barred (s0 : Screen) (i : Z) (s : Screen) : Prop :=
  canvas w h s /\ scr_ds s = scr_ds s0 /\ (forall r c, r <> 0 -> frame_cell (fb s) r c = frame_cell (fb s0) r c) /\
  (forall c x, c < i -> frame_cell (fb s) 0 c = Some x -> contents x <> []).

Lemma with_cell_barred s0 i i' col k s : barred s0 i s -> 0 <= col < w -> i' = i \/ (i = col /\ i' = col + 1) ->
  (forall x, exists x', k x = Ok x' /\ contents x' <> []) ->
  exists s', with_cell 0 col k s = Ok (tt, s') /\ barred s0 i' s'.
Proof.
  intros (Hs & Hd & Ho & Hf) Hc Hi Hk. pose proof (fo_size _ _ _ (so_frame _ _ _ (proj1 Hs))) as [_ Hh].
  destruct (cell_at_Some w h (fb s) 0 col (proj1 Hs) ltac:(lia) Hc) as [x Hx]. destruct (Hk x) as (x' & Ek & Hx').
  rewrite (with_cell_at s 0 col k x x' Hx Ek). eexists. split; [done|]. split_and!; [by apply drawable_on_cell|done| |].
  - intros r c Hr. rewrite cell_at_on_cell by lia. rewrite (proj2 (Z.eqb_neq 0 r)) by done. cbn [andb]. by apply Ho.
  - intros c y Hlt. rewrite cell_at_on_cell, Z.eqb_refl by lia. cbn [andb]. destruct (Z.eqb_spec col c) as [<-|Hne].
    + rewrite Hx. by intros [= <-].
    + apply Hf. lia.
Qed.

Lemma bar_loop s0 bar n : contents bar <> [] -> forall i s, barred s0 i s -> 0 <= i -> i + Z.of_nat n = w ->
  exists s', for_n n i (fun i => with_cell 0 i (fun _ => Ok bar)) s = Ok (tt, s') /\ barred s0 w s'.
Proof.
  intros Hbar. induction n as [|n IH]; intros i s Hs Hi Hn; cbn [for_n]; [exists s; by replace w with i by lia|].
  destruct (with_cell_barred s0 i (i + 1) i (fun _ => Ok bar) s Hs ltac:(lia) ltac:(by right)) as (s1 & E1 & Hs1); [intros x; by exists bar|].
  rewrite (M_bind_Ok _ _ _ _ _ E1). apply IH; [done|lia..].
Qed.

Lemma bar_cell_ok bg c n x : is_scalar c = true -> exists x', bar_cell bg c n x = Ok x' /\ contents x' <> [].
Proof.
  intros Hc. unfold bar_cell. match goal with |- context [Cell_append c ?y] => destruct (Cell_append_ok c y Hc) as (z & -> & Hz & _) end.
  cbn. by eexists.
Qed.

Lemma draw_message_barred s0 t : Forall (fun c => is_scalar c = true) t -> forall s col comb, barred s0 w s -> 0 <= col -> 0 <= comb < w ->
  exists s', draw_message t col comb s = Ok (tt, s') /\ barred s0 w s'.
Proof.
  induction 1 as [|c t Hc _ IH]; intros s col comb Hs Hcol Hcomb; cbn [draw_message]; [by exists s|].
  pose proof (fo_width _ _ _ (so_frame _ _ _ (proj1 (proj1 Hs)))) as Hw.
  rewrite (M_bind_Ok (gets scr_ds) _ s (scr_ds s) s eq_refl). unfold scr_ds at 1. rewrite Hw. destruct (Z.leb_spec w col); [by exists s|]. cbv zeta.
  set (n := if c =? 0 then -1 else wcwidth c). assert (Hn : -1 <= n <= 2) by (subst n; destruct (c =? 0); [lia|apply wcwidth_range]).
  destruct (Z.eqb_spec n 1) as [E1|E1]; [|destruct (Z.eqb_spec n 2) as [E2|E2]]; cbn [orb].
  1,2: destruct (with_cell_barred s0 w w col (bar_cell (get_background_rendition (scr_ds s)) c n) s Hs ltac:(lia) ltac:(by left)) as (s1 & Es & Hs1);
    [intros x; by apply bar_cell_ok|]; rewrite (M_bind_Ok _ _ _ _ _ Es); apply IH; [done|lia..].
  destruct (Z.eqb_spec n 0) as [E0|E0]; [|destruct (Z.eqb_spec n (-1)); [by apply IH|lia]].
  pose proof (fo_size _ _ _ (so_frame _ _ _ (proj1 (proj1 Hs)))) as [_ Hh].
  destruct (cell_at_Some w h (fb s) 0 comb (proj1 (proj1 Hs)) ltac:(lia) Hcomb) as [x Hx]. rewrite (M_bind_Ok _ _ _ _ _ (get_cell_frame s 0 comb x Hx)).
  assert (Hne : Cell_empty x = false).
  { pose proof (proj2 (proj2 (proj2 Hs)) comb x ltac:(lia) Hx). unfold Cell_empty. by destruct (contents x). }
  rewrite Hne. rewrite (M_bind_Ok _ _ s tt s eq_refl). unfold when_. destruct (Cell_full x); cbn [negb].
  - rewrite (M_bind_Ok _ _ s tt s eq_refl). by apply IH.
  - destruct (with_cell_barred s0 w w comb (Cell_append c) s Hs Hcomb ltac:(by left)) as (s1 & Es & Hs1).
    + intros y. destruct (Cell_append_ok c y Hc) as (z & Ez & Hz & _). by exists z.
    + rewrite (M_bind_Ok _ _ _ _ _ Es). by apply IH.
Qed.

(** ** The notification *)

(** Texts are Unicode, and the times since the last word and the last
    acknowledgement are numbers of seconds that fit in an [int]. *)
Record notification_ok (now : Z) (n : NotificationEngine) : Prop := {
  no_message : Forall (fun c => is_scalar c = true) (message n);
  no_keystroke : exists t, wide_string (c_str (escape_key_string n)) = Ok t /\ Forall (fun c => is_scalar c = true) t;
  no_heard : exists t, 0 <= t /\ int_of_double (elapsed now (last_word_from_server n)) = Ok t;
  no_acked : exists t, 0 <= t /\ int_of_double (elapsed now (last_acked_state n)) = Ok t }.

Lemma unicode_octets t : Forall (fun c => 0 <= c < 256) t -> unicode t.
Proof. intros H. eapply Forall_impl; [exact H|]. intros c Hc. cbn in Hc. unfold is_scalar, is_surrogate. lia. Qed.

Lemma unicode_str s : unicode (str s).
Proof.
  apply unicode_octets. induction s as [|a s IH]; cbn; [done|]. apply Forall_cons. split; [|done]. pose proof (Ascii.N_ascii_bounded a). lia.
Qed.

Lemma unicode_dec z : 0 <= z -> unicode (dec z).
Proof.
  intros Hz. unfold dec. rewrite (proj2 (Z.ltb_ge z 0)) by lia. apply unicode_octets. destruct (dec_nonneg_spec z Hz) as (_ & Hd & _).
  eapply Forall_impl; [exact Hd|]. unfold is_digit. intros c Hc. cbn in Hc. lia.
Qed.

Lemma unicode_take n t : unicode t -> unicode (take n t).
Proof. apply Forall_take. Qed.

Lemma unicode_c_str t : unicode t -> unicode (c_str t).
Proof. induction 1 as [|c t Hc _ IH]; cbn; [done|]. destruct (c =? 0); [done|]. by apply Forall_cons. Qed.

Lemma unicode_duration t s : 0 <= t -> unicode s -> unicode (human_readable_duration t s).
Proof.
  intros Ht Hs. apply unicode_take. assert (Hq : forall d, 0 < d -> 0 <= Z.quot t d) by (intros d Hd; apply Z.quot_pos; lia).
  assert (Hr : forall x d, 0 <= x -> 0 < d -> unicode (dec2 (Z.rem x d))).
  { intros x d Hx Hd. pose proof (Z.rem_bound_pos x d Hx Hd). unfold dec2. destruct (_ <? _); [apply Forall_cons; split; [done|]|]; apply unicode_dec; lia. }
  destruct (t <? 60); [|destruct (t <? 3600)]; repeat ((apply Forall_app; split) || (apply Forall_cons; split; [done|])); try done;
    (apply unicode_dec || apply Hr); auto with lia.
Qed.

Lemma notification_text_ok now n : notification_ok now n -> exists t, notification_text now n = Ok t /\ unicode t.
Proof.
  intros [Hm (k & Ek & Hk) (t1 & Ht1 & E1) (t2 & Ht2 & E2)]. unfold notification_text. cbv zeta.
  set (ks := wide_string _). assert (exists k', ks = Ok k' /\ unicode k') as (k' & -> & Hk').
  { subst ks. destruct (show_quit_keystroke n); [by exists k|by exists []]. }
  cbn [mbind result_bind]. assert (exists t, 0 <= t /\ int_of_double (elapsed now (if reply_late now n && negb (server_late now n)
    then last_acked_state n else last_word_from_server n)) = Ok t) as (t & Ht & ->) by (destruct (_ && _); [by exists t2|by exists t1]).
  cbn [mbind result_bind]. assert (Hx : unicode (if reply_late now n && negb (server_late now n) then str "reply" else str "contact")) by (destruct (_ && _); apply unicode_str).
  case_bool_decide; [|destruct (need_countup now n); cbn [negb]]; (eexists; split; [done|]; apply unicode_take);
    repeat ((apply Forall_app; split) || (apply Forall_cons; split; [done|])); auto using unicode_str, unicode_c_str, unicode_duration.
Qed.

Lemma notification_drawn now n s : notification_ok now n -> canvas w h s ->
  exists s', notification_apply now n s = Ok (tt, s') /\ canvas w h s' /\
    (forall r c, r <> 0 -> frame_cell (fb s') r c = frame_cell (fb s) r c) /\
    cursor_row (scr_ds s') = cursor_row (scr_ds s) /\ cursor_col (scr_ds s') = cursor_col (scr_ds s).
Proof.
  intros Hn Hs. unfold notification_apply. destruct (_ && _); [by exists s|].
  pose proof (so_frame _ _ _ (proj1 Hs)) as Hok. pose proof (fo_size _ _ _ Hok) as [Hw0 Hh0].
  rewrite (M_bind_Ok (gets scr_ds) _ s (scr_ds s) s eq_refl). change (scr_ds s) with (ds (fb s)). rewrite (fo_width _ _ _ Hok), (fo_height _ _ _ Hok).
  rewrite (proj2 (Z.ltb_lt 0 w)), (proj2 (Z.ltb_lt 0 h)) by done. cbn [assert_]. do 2 rewrite (M_bind_Ok _ _ s tt s eq_refl).
  set (hide := when_ _ _). assert (exists s1, hide s = Ok (tt, s1) /\ barred s1 0 s1 /\ (forall r c, frame_cell (fb s1) r c = frame_cell (fb s) r c) /\
    cursor_row (scr_ds s1) = cursor_row (scr_ds s) /\ cursor_col (scr_ds s1) = cursor_col (scr_ds s)) as (s1 & E1 & Hs1 & Hc1 & Hr1 & Hcc1).
  { assert (Hb : forall s1, canvas w h s1 -> barred s1 0 s1).
    { intros s1 H1. split_and!; try done. intros c x Hc. by rewrite cell_at_neg by by right. }
    subst hide. unfold when_. destruct (_ =? _); [|exists s; by auto]. eexists. split; [done|]. split_and!; [|done..].
    apply Hb. destruct Hs as [[Hf0 Hr Hc] Ho]. split; [|done]. split; try done. by destruct Hf0. }
  rewrite (M_bind_Ok _ _ _ _ _ E1). destruct (Cell_append_ok 0x20 ((Cell_new 0) <| cell_renditions := bar_renditions (cell_renditions (Cell_new 0)) |>) eq_refl)
    as (bar & Ebar & Hbar & _).
  rewrite (M_bind_Ok (lift notification_bar) _ s1 bar s1) by (unfold lift, notification_bar; by rewrite Ebar).
  destruct (bar_loop s1 bar (Z.to_nat (w - 0)) Hbar 0 s1 Hs1 ltac:(lia) ltac:(lia)) as (s2 & E2 & Hs2). unfold for_range. rewrite (M_bind_Ok _ _ _ _ _ E2).
  destruct (notification_text_ok now n Hn) as (t & Et & Ht). rewrite (M_bind_Ok (lift (notification_text now n)) _ s2 t s2) by (unfold lift; by rewrite Et).
  destruct (draw_message_barred s1 t Ht s2 0 0 Hs2 ltac:(lia) ltac:(lia)) as (s3 & E3 & (Hd3 & Hds3 & Hc3 & _)).
  exists s3. rewrite Hds3. split_and!; [done..| |done|done]. intros r c Hr. by rewrite Hc3, Hc1.
Qed.

(** ** The manager *)

Record manager_ok (now : Z) (o : OverlayManager) : Prop := {
  mo_notification : notification_ok now (notifications o);
  mo_predictions : exists w0 h0, pe_inv w0 h0 (predictions o);
  mo_title : unicode (title_prefix o) }.

Lemma title_drawn t s : unicode t -> canvas w h s ->
  exists s', title_apply t s = Ok (tt, s') /\ canvas w h s' /\ rows (fb s') = rows (fb s) /\ scr_ds s' = scr_ds s.
Proof.
  intros Ht [[Hf Hr Hc] Ho]. unfold title_apply, on_fb, modify, prefix_window_title. cbv zeta. destruct (bool_decide _);
    (eexists; split; [done|]; split; [|done]; split; [|done]; split; [|done..]; destruct Hf; split; try done; cbn; by apply Forall_app).
Qed.

(** The manager draws all overlays, and the result is a screen again. *)
Lemma overlay_apply_ok now o s : manager_ok now o -> canvas w h s ->
  exists s' o', overlay_apply now s o = Ok (s', o') /\ manager_ok now o' /\ canvas w h s' /\
    (forall row col, row <> 0 \/ (message (notifications o') = [] /\ need_countup now (notifications o') = false) ->
       frame_cell (fb s') row col = shown_cell w (predictions o') row col <$> frame_cell (fb s) row col) /\
    (cursor_row (scr_ds s'), cursor_col (scr_ds s')) = shown_cursor (predictions o') (cursor_row (scr_ds s), cursor_col (scr_ds s)).
Proof.
  intros [Hn (w0 & h0 & Hp) Ht] Hs. destruct (cull_safe w h now (fb s) (proj1 Hs) w0 h0 _ Hp) as (p1 & E1 & Hp1).
  assert (Hdraw : exists s1, pe_apply p1 s = Ok (tt, s1) /\ canvas w h s1 /\
    (forall row col, frame_cell (fb s1) row col = shown_cell w p1 row col <$> frame_cell (fb s) row col) /\
    (cursor_row (scr_ds s1), cursor_col (scr_ds s1)) = shown_cursor p1 (cursor_row (scr_ds s), cursor_col (scr_ds s))).
  { destruct (prefers Never (predictions o)) eqn:En; [|exact (pe_apply_draws w h p1 s Hp1 Hs)]. subst p1. exists s. unfold pe_apply, shown_cell, shown_cursor, displays. rewrite En.
    split_and!; try done. intros row col. by destruct (frame_cell _ _ _). }
  destruct Hdraw as (s1 & Es1 & Hs1 & Hc1 & Hcur1). set (n1 := adjust_message now (notifications o)).
  assert (Hn1 : notification_ok now n1) by (subst n1; unfold adjust_message; destruct (_ <=? _); [|done]; destruct Hn; by split).
  destruct (notification_drawn now n1 s1 Hn1 Hs1) as (s2 & Es2 & Hs2 & Hc2 & Hr2 & Hcc2).
  destruct (title_drawn (title_prefix o) s2 Ht Hs2) as (s3 & Es3 & Hs3 & Hrows3 & Hds3).
  exists s3, (MkOverlayManager n1 p1 (title_prefix o)). split_and!.
  - set (o1 := o <| predictions := p1 |>). set (o2 := MkOverlayManager n1 p1 (title_prefix o)). unfold overlay_apply, draw_on.
    rewrite (M_bind_Ok _ _ o tt o1) by (unfold zoom; by rewrite E1). rewrite (M_bind_Ok (gets predictions) _ o1 p1 o1 eq_refl).
    rewrite (M_bind_Ok _ _ o1 s1 o1) by (unfold lift; by rewrite Es1).
    rewrite (M_bind_Ok (modify (fun o => o <| notifications := adjust_message now (notifications o) |>)) _ o1 tt o2 eq_refl).
    rewrite (M_bind_Ok (gets notifications) _ o2 n1 o2 eq_refl), (M_bind_Ok _ _ o2 s2 o2) by (unfold lift; by rewrite Es2).
    rewrite (M_bind_Ok (gets title_prefix) _ o2 (title_prefix o) o2 eq_refl). unfold lift. by rewrite Es3.
  - split; [done| |done]. destruct (prefers Never (predictions o)); [subst; by exists w0, h0|by exists w, h].
  - done.
  - cbn. intros row col Hrow. assert (Hc : frame_cell (fb s2) row col = frame_cell (fb s1) row col).
    { destruct (decide (row = 0)) as [->|Hne]; [|by apply Hc2]. destruct Hrow as [?|[Hm Hc]]; [done|].
      unfold notification_apply in Es2. rewrite Hc, Hm, bool_decide_true in Es2 by done. by injection Es2 as <-. }
    rewrite <- Hc1, <- Hc. unfold frame_cell. by rewrite Hrows3.
  - cbn. by rewrite Hds3, Hr2, Hcc2.
Qed.
(** The overlays can always be drawn.  Whatever the predictions and the
    notifications, [OverlayManager::apply] returns on every screen of the
    client's terminal, and the result is a frame [Display::new_frame] can
    draw; below the top row every cell is the host's under its prediction, and
    so are all cells when there is nothing to notify, and the cursor is the
    predicted one. *)
Theorem overlays_drawn now o s : manager_ok now o -> canvas w h s ->
  exists s' o', overlay_apply now s o = Ok (s', o') /\ manager_ok now o' /\ frame_ok w h (fb s') /\
    (forall row col, row <> 0 \/ (message (notifications o') = [] /\ need_countup now (notifications o') = false) ->
       frame_cell (fb s') row col = shown_cell w (predictions o') row col <$> frame_cell (fb s) row col) /\
    (cursor_row (scr_ds s'), cursor_col (scr_ds s')) = shown_cursor (predictions o') (cursor_row (scr_ds s), cursor_col (scr_ds s)).
Proof.
  intros Ho Hs. destruct (overlay_apply_ok now o s Ho Hs) as (s' & o' & E & Ho' & Hs' & Hc & Hcur).
  exists s', o'. split_and!; try done. apply Hs'.
Qed.
End bar.

(** ** A sample *)

Definition sample_notifications : NotificationEngine :=
  MkNotificationEngine 1000 1000 (str "Ctrl-^") (str "hi") false UINT64_MAX true.
Definition sample_manager : OverlayManager := MkOverlayManager sample_notifications sample_engine (str "[mosh] ").

Lemma sample_manager_ok : manager_ok 20000 sample_manager.
Proof.
  split; [|exists 6, 2; apply sample_engine_ok|apply unicode_str].
  split; [apply unicode_str|exists (str "Ctrl-^"); split; [done|apply unicode_str]|exists 19; by vm_compute..].
Qed.

Lemma overlays_drawn_witness :
  manager_ok 20000 sample_manager /\
  exists s' o', overlay_apply 20000 (MkScreen 0 prompt_screen) sample_manager = Ok (s', o') /\ manager_ok 20000 o' /\ frame_ok 6 2 (fb s') /\
    (forall row col, row <> 0 \/ (message (notifications o') = [] /\ need_countup 20000 (notifications o') = false) ->
       frame_cell (fb s') row col = shown_cell 6 (predictions o') row col <$> frame_cell prompt_screen row col) /\
    (cursor_row (scr_ds s'), cursor_col (scr_ds s')) =
      shown_cursor (predictions o') (cursor_row (ds prompt_screen), cursor_col (ds prompt_screen)).
Proof.
  split; [apply sample_manager_ok|]. apply (overlays_drawn 6 2 20000 sample_manager (MkScreen 0 prompt_screen) sample_manager_ok).
  split; [apply prompt_ok|done].
Defined.
