(* ===== verification/Client.v ===== *)
(** * The client program (frontend/stmclient.cc, stmclient.h)

    The state of [STMClient] once its network is open, and the handlers of its
    loop.  What the system calls return is an argument: the octets read from
    the terminal, the environment, the window's size; what is written to the
    terminal is collected in [written]. *)
From S2P Require Export Notification Complete Transport.

(** ** The escape key *)

Record EscapeKey : Type := MkEscapeKey {
  escape_key : Z; escape_pass_key : Z; escape_pass_key2 : Z; escape_requires_lf : bool; escape_key_help : list Z }.
#[export] Instance eta_EscapeKey : Eta EscapeKey :=
  fun e => MkEscapeKey (escape_key e) (escape_pass_key e) (escape_pass_key2 e) (escape_requires_lf e) (escape_key_help e).

Definition default_keys (e : EscapeKey) : EscapeKey :=
  e <| escape_key := 0x1E |> <| escape_pass_key := chr "^" |> <| escape_pass_key2 := chr "^" |>.

(** The members before [init]. *)
Definition EscapeKey_new : EscapeKey := MkEscapeKey 0x1E (chr "^") (chr "^") false (str "?").

(** A [char] is signed. *)
Definition schar (c : Z) : Z := if c <? 128 then c else c - 256.

(** [MOSH_ESCAPE_KEY]. *)
Definition parse_escape_key (env : option bytes) (e : EscapeKey) : EscapeKey :=
  match env with
  | Some [c] =>
      let k := schar c in
      if (0 <? k) && (k <? 128) then
        let pass := if k <? 32 then k + chr "@" else k in
        e <| escape_key := k |> <| escape_pass_key := pass |>
          <| escape_pass_key2 := if (chr "A" <=? pass) && (pass <=? chr "Z") then pass + chr "a" - chr "A" else pass |>
      else default_keys e
  | Some [] => e <| escape_key := -1 |>
  | _ => default_keys e
  end.

Definition forbidden_escape (k : Z) : bool := (k =? 0x03) || (k =? 0x04) || (k =? 0x0A) || (k =? 0x0C) || (k =? 0x0D).

(** A quoted character. *)
Definition quoted (c : Z) : bytes := snprintf 16 [34; c; 34].

(** [STMClient::init] up to the help text, and the name for the notification. *)
Definition init_escape_key (env : option bytes) (e : EscapeKey) : EscapeKey * option bytes :=
  let e := parse_escape_key env e in
  let e := if forbidden_escape (escape_key e) then default_keys e else e in
  if 0 <? escape_key e then
    let ctrl := escape_key e <? 32 in
    let pass_name := quoted (escape_pass_key e) in
    let key_name := if ctrl then snprintf 16 (str "Ctrl-" ++ [escape_pass_key e]) else quoted (escape_key e) in
    (e <| escape_requires_lf := negb ctrl |>
       <| escape_key_help := str "Commands: Ctrl-Z suspends, " ++ [34; 46; 34] ++ str " quits, " ++ pass_name ++ str " gives literal " ++ key_name |>,
     Some key_name)
  else (e, None).

(** ** The client *)

Record STMClient : Type := MkSTMClient {
  escape : EscapeKey; local_framebuffer : Framebuffer; c_overlays : OverlayManager;
  network : Transport UserStream Complete; c_display : Display; connecting_notification : list Z;
  repaint_requested : bool; lf_entered : bool; quit_sequence_started : bool; clean_shutdown : bool; written : bytes }.
#[export] Instance eta_STMClient : Eta STMClient :=
  fun c => MkSTMClient (escape c) (local_framebuffer c) (c_overlays c) (network c) (c_display c) (connecting_notification c)
    (repaint_requested c) (lf_entered c) (quit_sequence_started c) (clean_shutdown c) (written c).

Definition net_sender (c : STMClient) : TransportSender UserStream := sender (endpoint (network c)).

Definition on_overlays {A} (m : M OverlayManager A) : M STMClient A := zoom c_overlays (fun o c => c <| c_overlays := o |>) m.
Definition on_predictions {A} (m : M PredictionEngine A) : M STMClient A :=
  on_overlays (zoom predictions (fun p o => o <| predictions := p |>) m).
Definition on_notifications (k : NotificationEngine -> NotificationEngine) : M STMClient unit :=
  on_overlays (modify (fun o => o <| notifications := k (notifications o) |>)).
Definition on_net_sender (k : TransportSender UserStream -> TransportSender UserStream) : M STMClient unit :=
  modify (fun c => c <| network := (network c) <| endpoint := (endpoint (network c)) <| sender := k (net_sender c) |> |> |>).

(** [net.get_current_state().push_back( e )]. *)
Definition push_event (e : UserEvent) : M STMClient unit :=
  s ← gets net_sender;
  x ← lift (get_current_state s);
  on_net_sender (fun s => s <| current_state := push_back e x |>).

Definition swrite (s : bytes) : M STMClient unit := modify (fun c => c <| written := written c ++ s |>).

(** [STMClient::resume]. *)
Definition resume : M STMClient unit :=
  d ← gets c_display;
  swrite (display_open d) ;;
  modify (fun c => c <| repaint_requested := true |>).

(** Suspending: the terminal is restored, the process stops and resumes. *)
Definition suspend : M STMClient unit :=
  d ← gets c_display;
  swrite (display_close d) ;;
  swrite (10 :: 27 :: str "[37;44m[mosh is suspended.]" ++ 27 :: str "[m" ++ [10]) ;;
  resume.

Section client.
Context `{Libc}.

Definition notify (now : Z) (s : list Z) (permanent show_quit : bool) : M STMClient unit :=
  on_notifications (set_notification_string now s permanent show_quit).

(** The octet after the escape key; [Some r] when [process_user_input]
    returns [r]. *)
Definition escaped_byte (now the_byte : Z) : M STMClient (option bool) :=
  e ← gets escape;
  if the_byte =? chr "." then
    c ← get;
    if has_remote_addr (conn (endpoint (network c))) && negb (shutdown_in_progress (net_sender c)) then
      notify now (str "Exiting on user request...") true true ;;
      on_net_sender (start_shutdown now) ;;
      mret (Some true)
    else mret (Some false)
  else
    (if the_byte =? 0x1a then suspend
     else if (schar the_byte =? escape_pass_key e) || (schar the_byte =? escape_pass_key2 e) then push_event (UserByteEvent (u8 (escape_key e)))
     else push_event (UserByteEvent (u8 (escape_key e))) ;; push_event (UserByteEvent the_byte)) ;;
    modify (fun c => c <| quit_sequence_started := false |>) ;;
    o ← gets c_overlays;
    when_ (bool_decide (message (notifications o) = escape_key_help e)) (notify now [] false true) ;;
    mret None.

Definition user_byte (now : Z) (paste : bool) (the_byte : Z) : M STMClient (option bool) :=
  f ← gets local_framebuffer;
  when_ (negb paste) (on_predictions (new_user_byte now f the_byte)) ;;
  c ← get;
  if quit_sequence_started c then escaped_byte now the_byte else
  let e := escape c in
  let started := (0 <? escape_key e) && (schar the_byte =? escape_key e) && (lf_entered c || negb (escape_requires_lf e)) in
  modify (fun c => c <| quit_sequence_started := started |>) ;;
  if started then
    modify (fun c => c <| lf_entered := false |>) ;;
    notify now (escape_key_help e) true false ;;
    mret None
  else
    modify (fun c => c <| lf_entered := (the_byte =? 0x0A) || (the_byte =? 0x0D) |>) ;;
    when_ (the_byte =? 0x0C) (modify (fun c => c <| repaint_requested := true |>)) ;;
    push_event (UserByteEvent the_byte) ;;
    mret None.

Fixpoint user_bytes (now : Z) (paste : bool) (buf : bytes) : M STMClient bool :=
  match buf with
  | [] => mret true
  | the_byte :: buf' =>
      r ← user_byte now paste the_byte;
      match r with Some b => mret b | None => user_bytes now paste buf' end
  end.

(** [process_user_input], when [read] returned the octets [buf]: none at the end
    of the file, and when it failed. *)
Definition process_user_input (now : Z) (buf : bytes) : M STMClient bool :=
  if bool_decide (buf = []) then mret false else
  s ← gets net_sender;
  if shutdown_in_progress s then mret true else
  last_sent ← lift (get_sent_state_last s);
  on_predictions (modify (set_local_frame_sent last_sent)) ;;
  let paste := 100 <? lenZ buf in
  when_ paste (on_predictions (modify pe_reset)) ;;
  user_bytes now paste buf.

(** The window's size, unless [ioctl] failed. *)
Definition process_resize (window_size : option (Z * Z)) : M STMClient bool :=
  match window_size with
  | None => mret false
  | Some (ws_col, ws_row) =>
      s ← gets net_sender;
      when_ (negb (shutdown_in_progress s)) (push_event (ResizeEvent ws_col ws_row)) ;;
      on_predictions (modify pe_reset) ;;
      mret true
  end.

(** [addr_local] and [addr_new] are the addresses of the rows. *)
Definition output_new_frame (now : Z) (addr_local addr_new : list Z) : M STMClient unit :=
  c ← get;
  r ← lift (get_latest_remote_state (network c));
  s ← on_overlays (overlay_apply now (MkScreen 0 (get_fb (r_state r))));
  diff ← lift (new_frame (c_display c) (negb (repaint_requested c)) (local_framebuffer c) (fb s) addr_local addr_new 0);
  swrite diff ;;
  modify (fun c => c <| repaint_requested := false |> <| local_framebuffer := fb s |>).

(** The hints for the overlays once [network->recv()] has returned. *)
Definition network_hints : M STMClient unit :=
  c ← get;
  r ← lift (get_latest_remote_state (network c));
  acked_at ← lift (get_sent_state_acked_timestamp (net_sender c));
  acked ← lift (get_sent_state_acked (net_sender c));
  on_notifications (server_heard (r_timestamp r)) ;;
  on_notifications (server_acked acked_at) ;;
  on_predictions (modify (set_local_frame_acked acked)) ;;
  on_predictions (modify (set_send_interval (send_interval (conn (endpoint (network c)))))) ;;
  on_predictions (modify (set_local_frame_late_acked (echo_ack (r_state r)))).

Definition process_network_input `{SyncState Complete} `{AE} `{TransportCodec} (now : Z) (recvmsg : Z -> recvmsg_result) : X STMClient unit :=
  zoom network (fun t c => c <| network := t |>) (transport_recv now recvmsg) ;;
  noexn network_hints.

Definition still_connecting (c : STMClient) : result fault bool :=
  n ← get_remote_state_num (network c); Ok (n =? 0).
End client.
