(* ===== verification/ClientSpec.v ===== *)
(** * The client passes on what is typed, and draws what it gets

    The escape key of the client: which ones there are, and how every octet can
    still be sent; and the frames the client writes to the terminal. *)
From S2P Require Export SenderSpec NotificationSpec MirrorSpec Client.

(** ** Typing through the escape key *)

(** Keys that send the octets [s]: the escape key is followed by the key that
    passes it on, where it would start a command. *)
Fixpoint escape_keys (e : EscapeKey) (lf : bool) (s : bytes) : bytes :=
  match s with
  | [] => []
  | c :: s' =>
      if (c =? escape_key e) && (lf || negb (escape_requires_lf e)) then c :: escape_pass_key e :: escape_keys e false s'
      else c :: escape_keys e ((c =? 0x0A) || (c =? 0x0D)) s'
  end.

Lemma escape_keys_nonempty e lf s : s <> [] -> escape_keys e lf s <> [].
Proof. destruct s; cbn; [done|]. by destruct (_ && _). Qed.

(** No escape key, or one that can be typed and that its pass key does not quit
    or suspend. *)
Definition passes_key (e : EscapeKey) : Prop :=
  0 < escape_key e < 128 /\ 0 < escape_pass_key e < 128 /\ escape_pass_key e <> chr "." /\ escape_pass_key e <> 0x1a.
Definition escape_ok (e : EscapeKey) : Prop := escape_key e = -1 \/ passes_key e.

Section typing.
Context `{HL : Libc} `{HLL : !LibcLaws} (now w h : Z) (f : Framebuffer) (Hf : screen_ok w h f) (e : EscapeKey).

(** A client with the events [st] to send. *)
Record typed (st : UserStream) (lf quit : bool) (c : STMClient) : Prop := {
  td_escape : escape c = e;
  td_screen : local_framebuffer c = f;
  td_running : shutdown_in_progress (net_sender c) = false;
  td_events : current_state (net_sender c) = st;
  td_lf : lf_entered c = lf;
  td_quit : quit_sequence_started c = quit;
  td_predictions : exists w0 h0, pe_inv w0 h0 (predictions (c_overlays c)) }.

Lemma push_event_typed st lf quit ev : triple (typed st lf quit) (push_event ev) (fun _ => typed (st ++ [ev]) lf quit).
Proof.
  intros c [He Hs Hr Hst Hlf Hq Hp]. unfold push_event, gets, mbind, M_bind, lift, get_current_state. rewrite Hr. do 2 eexists. split; [done|].
  split; try done. cbn. by rewrite Hst.
Qed.

Lemma predict_typed st lf quit (paste : bool) b : is_u8 b ->
  preserves (typed st lf quit) (when_ (negb paste) (on_predictions (new_user_byte now f b))).
Proof.
  intros Hb. apply triple_when. intros _ c [He Hs Hr Hst Hlf Hq (w0 & h0 & Hp)].
  destruct (new_user_byte_safe w h now f Hf w0 h0 _ b Hp Hb) as (p' & E & Hp'). unfold on_predictions, on_overlays, zoom. rewrite E.
  do 2 eexists. split; [done|]. split; try done. cbn. destruct (prefers Never _); [subst p'; by exists w0, h0|by exists w, h].
Qed.

Lemma notify_typed st lf quit s permanent show : preserves (typed st lf quit) (notify now s permanent show).
Proof. intros c [He Hs Hr Hst Hlf Hq Hp]. do 2 eexists. split; [done|]. by split. Qed.

(** An octet that is sent as it is. *)
Lemma plain_byte_typed st lf (paste : bool) b : is_u8 b -> (b =? escape_key e) && (lf || negb (escape_requires_lf e)) = false -> escape_key e < 128 ->
  triple (typed st lf false) (user_byte now paste b)
    (fun r c => r = None /\ typed (st ++ [UserByteEvent b]) ((b =? 0x0A) || (b =? 0x0D)) false c).
Proof.
  intros Hb Hne He. eapply (triple_bind_gets _ _ _ _ (fun x => x = f)); [by intros c []|]. intros ? ->.
  apply triple_seq; [by apply predict_typed|]. intros _. apply triple_bind_get. intros c [Hesc _ _ _ Hlf Hq _]. cbv zeta. rewrite Hq, Hesc, Hlf.
  assert ((0 <? escape_key e) && (schar b =? escape_key e) && (lf || negb (escape_requires_lf e)) = false) as ->.
  { destruct (lf || negb (escape_requires_lf e)); [|by rewrite andb_false_r]. rewrite andb_true_r in *. unfold schar, is_u8 in *.
    destruct (Z.ltb_spec 0 (escape_key e)); [|done]. cbn [andb]. destruct (b <? 128); [done|]. apply Z.eqb_neq. lia. }
  apply (triple_bind _ _ _ (fun _ => typed st lf false)); [apply triple_modify; intros q []; by split|]. intros _.
  apply (triple_bind _ _ _ (fun _ => typed st ((b =? 0x0A) || (b =? 0x0D)) false)); [apply triple_modify; intros q []; by split|]. intros _.
  apply triple_seq; [apply triple_when; intros _; apply triple_modify; intros q []; by split|]. intros _.
  apply (triple_bind _ _ _ _ _ (push_event_typed _ _ _ _)). intros _. by apply triple_ret.
Qed.

Lemma escape_byte_typed st lf (paste : bool) : 0 < escape_key e < 128 -> lf || negb (escape_requires_lf e) = true ->
  triple (typed st lf false) (user_byte now paste (escape_key e)) (fun r c => r = None /\ typed st false true c).
Proof.
  intros He Hlf. eapply (triple_bind_gets _ _ _ _ (fun x => x = f)); [by intros c []|]. intros ? ->.
  apply triple_seq; [apply predict_typed; unfold is_u8; lia|]. intros _. apply triple_bind_get. intros c [Hesc _ _ _ Hl Hq _]. cbv zeta. rewrite Hq, Hesc, Hl, Hlf.
  assert (schar (escape_key e) = escape_key e) as -> by (unfold schar; rewrite (proj2 (Z.ltb_lt _ _)); lia). rewrite (proj2 (Z.ltb_lt 0 _)), Z.eqb_refl by lia. cbn [andb].
  apply (triple_bind _ _ _ (fun _ => typed st lf true)); [apply triple_modify; intros q []; by split|]. intros _.
  apply (triple_bind _ _ _ (fun _ => typed st false true)); [apply triple_modify; intros q []; by split|]. intros _.
  apply triple_seq; [apply notify_typed|]. intros _. by apply triple_ret.
Qed.

Lemma pass_byte_typed st (paste : bool) : passes_key e ->
  triple (typed st false true) (user_byte now paste (escape_pass_key e)) (fun r c => r = None /\ typed (st ++ [UserByteEvent (escape_key e)]) false false c).
Proof.
  intros (He & Hp & Hdot & Hsub). eapply (triple_bind_gets _ _ _ _ (fun x => x = f)); [by intros c []|]. intros ? ->.
  apply triple_seq; [apply predict_typed; unfold is_u8; lia|]. intros _. apply triple_bind_get. intros c [Hesc _ _ _ Hl Hq _]. rewrite Hq.
  unfold escaped_byte. eapply (triple_bind_gets _ _ _ _ (fun x => x = e)); [by intros q []|]. intros ? ->.
  rewrite (proj2 (Z.eqb_neq _ _) Hdot), (proj2 (Z.eqb_neq _ _) Hsub).
  assert (schar (escape_pass_key e) = escape_pass_key e) as -> by (unfold schar; rewrite (proj2 (Z.ltb_lt _ _)); lia). rewrite Z.eqb_refl. cbn [orb].
  apply (triple_bind _ _ _ _ _ (push_event_typed _ _ _ _)). intros _.
  assert (u8 (escape_key e) = escape_key e) as -> by (apply Z.mod_small; lia).
  apply (triple_bind _ _ _ (fun _ => typed (st ++ [UserByteEvent (escape_key e)]) false false)); [apply triple_modify; intros q []; by split|]. intros _.
  apply (triple_bind_gets _ _ _ _ (fun _ => True)); [done|]. intros o _. apply triple_seq; [apply triple_when; intros _; apply notify_typed|]. intros _. by apply triple_ret.
Qed.

Lemma one_more (st : UserStream) ev evs : st ++ ev :: evs = (st ++ [ev]) ++ evs.
Proof. by rewrite <- app_assoc. Qed.

Lemma user_bytes_typed (paste : bool) s : escape_ok e -> Forall is_u8 s -> forall st lf,
  triple (typed st lf false) (user_bytes now paste (escape_keys e lf s))
    (fun r c => r = true /\ exists lf', typed (st ++ (UserByteEvent <$> s)) lf' false c).
Proof.
  intros Hok Hs. assert (He : escape_key e < 128) by (destruct Hok as [->|[]]; lia). induction Hs as [|b s Hb _ IH]; intros st lf; cbn [escape_keys user_bytes fmap list_fmap].
  - apply triple_ret. intros c Hc. split; [done|]. exists lf. by rewrite app_nil_r.
  - destruct ((b =? escape_key e) && _) eqn:E; cbn [user_bytes].
    + apply andb_true_iff in E as [->%Z.eqb_eq Hlf]. destruct Hok as [E|Hok]; [unfold is_u8 in Hb; lia|].
      apply (triple_bind _ _ _ _ _ (escape_byte_typed st lf paste (proj1 Hok) Hlf)). intros r q [-> Hq]. revert q Hq.
      apply (triple_bind _ _ _ _ _ (pass_byte_typed st paste Hok)). intros r q [-> Hq]. revert q Hq. cbn.
      rewrite (one_more st _ (UserByteEvent <$> s)). apply IH.
    + apply (triple_bind _ _ _ _ _ (plain_byte_typed st lf paste b Hb E He)). intros r q [-> Hq]. revert q Hq.
      rewrite (one_more st _ (UserByteEvent <$> s)). apply IH.
Qed.
End typing.

Section keys.
Context `{HL : Libc} `{HLL : !LibcLaws}.

Lemma reset_predictions p : (exists w0 h0, pe_inv w0 h0 p) -> exists w0 h0, pe_inv w0 h0 (pe_reset p).
Proof. intros (w0 & h0 & []). exists w0, h0. by apply pe_reset_ok. Qed.

(** C38. Every octet can be typed.  Whatever octets a user means to send, they
    arrive as events of the stream, in order and none added, when the escape
    key, where it would start a command, is followed by the key that passes it
    on: the client neither quits nor suspends, whatever it shows and predicts,
    and however many octets one read returned. *)
Theorem keys_sent now w h s c :
  screen_ok w h (local_framebuffer c) -> (exists w0 h0, pe_inv w0 h0 (predictions (c_overlays c))) -> escape_ok (escape c) -> Forall is_u8 s -> s <> [] ->
  shutdown_in_progress (net_sender c) = false -> sent_states (net_sender c) <> [] -> quit_sequence_started c = false ->
  exists c', process_user_input now (escape_keys (escape c) (lf_entered c) s) c = Ok (true, c') /\
    current_state (net_sender c') = current_state (net_sender c) ++ (UserByteEvent <$> s) /\
    quit_sequence_started c' = false /\ shutdown_in_progress (net_sender c') = false.
Proof.
  intros Hf Hp He Hs Hne Hrun Hsent Hq. set (e := escape c) in *. set (f := local_framebuffer c) in *. set (buf := escape_keys _ _ _).
  assert (H : triple (typed f e (current_state (net_sender c)) (lf_entered c) false)
    (last_sent ← lift (get_sent_state_last (net_sender c));
     on_predictions (modify (set_local_frame_sent last_sent)) ;;
     when_ (100 <? lenZ buf) (on_predictions (modify pe_reset)) ;; user_bytes now (100 <? lenZ buf) buf)
    (fun r c' => r = true /\ exists lf', typed f e (current_state (net_sender c) ++ (UserByteEvent <$> s)) lf' false c')).
  { unfold get_sent_state_last, back. destruct (last (sent_states (net_sender c))) as [x|] eqn:El; [|by apply last_None in El].
    apply (triple_bind_lift _ _ _ _ (fun _ => True)); [by eexists|]. intros n _.
    apply triple_seq; [|intros _; apply triple_seq; [apply triple_when; intros _|intros _; exact (user_bytes_typed now w h f Hf e _ s He Hs _ _)]].
    - intros q [? ? ? ? ? ? (w0 & h0 & [])]. do 2 eexists. split; [done|]. split; try done. by exists w0, h0.
    - intros q []. do 2 eexists. split; [done|]. split; try done. by apply reset_predictions. }
  destruct (H c) as (r & c' & E & -> & lf' & []); [by split|]. exists c'. split_and!; try done.
  unfold process_user_input. rewrite bool_decide_false by (by apply escape_keys_nonempty). rewrite (M_bind_Ok (gets net_sender) _ c (net_sender c) c eq_refl), Hrun. exact E.
Qed.

Lemma chosen_key env e : (forall t, env = Some t -> Forall is_u8 t) ->
  let e1 := parse_escape_key env e in
  let e2 := if forbidden_escape (escape_key e1) then default_keys e1 else e1 in
  (escape_key e2 = -1 /\ env = Some []) \/
  (0 < escape_key e2 < 128 /\ forbidden_escape (escape_key e2) = false /\ env <> Some [] /\
    escape_pass_key e2 = (if escape_key e2 <? 32 then escape_key e2 + 64 else escape_key e2) /\
    (escape_key e2 = 46 <-> env = Some [46])).
Proof.
  intros Henv. cbv zeta. unfold parse_escape_key. destruct env as [[|b [|b' t]]|]; [by left| |by right|by right].
  pose proof (Forall_inv (Henv _ eq_refl)) as Hb. unfold is_u8 in Hb. right.
  destruct ((0 <? schar b) && (schar b <? 128)) eqn:Er; [|split_and!; try done; split; [done|]; intros [= ->]; done].
  apply andb_true_iff in Er as [?%Z.ltb_lt ?%Z.ltb_lt]. destruct (forbidden_escape _) eqn:Ef; cbn [escape_key escape_pass_key set_field] in *.
  - split_and!; try done. split; [done|]. intros [= ->]. done.
  - split_and!; try done. unfold schar. split; [|by intros [= ->]]. destruct (Z.ltb_spec b 128); [by intros ->|lia].
Qed.

(** Which escape keys there are.  Whatever [MOSH_ESCAPE_KEY] holds, the key
    is never one of those the client refuses; it is off for the empty string
    alone; a printable key starts a command at the start of a line only; and
    the key can be passed on, except when it is the period. *)
Theorem escape_key_configured env e : (forall t, env = Some t -> Forall is_u8 t) ->
  let e' := (init_escape_key env e).1 in
  forbidden_escape (escape_key e') = false /\ (escape_key e' = -1 <-> env = Some []) /\
  (0 < escape_key e' -> escape_requires_lf e' = (32 <=? escape_key e')) /\
  (escape_ok e' <-> env <> Some (str ".")).
Proof.
  intros Henv. cbv zeta. unfold init_escape_key. pose proof (chosen_key env e Henv) as H. cbv zeta in H |- *.
  set (e2 := if forbidden_escape _ then _ else _) in *. destruct H as [[Hk Henv']|(Hk & Hf & Hne & Hpass & Hdot)].
  - rewrite Hk. cbn. rewrite Hk. subst env. split_and!; [done|done|lia|]. split; [done|]. by left.
  - rewrite (proj2 (Z.ltb_lt 0 _)) by lia. cbn [fst escape_key escape_requires_lf escape_pass_key set_field].
    split_and!; [done|split; [lia|done]|by rewrite Z.leb_antisym|]. unfold escape_ok, passes_key. cbn.
    rewrite <- Hdot, Hpass. destruct (Z.ltb_spec (escape_key e2) 32); lia.
Qed.
End keys.

(** ** Frames *)

Section frames.
Context `{HL : Libc} `{HLL : !LibcLaws} (w h : Z).
Context (Hw : 2 < w <= PARAM_MAX) (Hh : 0 < h <= PARAM_MAX).

(** C40. What the user sees.  With any overlays, [output_new_frame] returns, for
    every screen that came from the host and whatever was on the terminal
    before; the new local frame is the host's screen under the predictions (its
    top row too, when there is nothing to notify) and its cursor the predicted
    one.  When no repaint was asked for, the terminal has titles, and the old
    and the new local frame are of one size, [paintable] and tell their icon
    names by their titles, the octets written make a terminal that showed the
    old frame show the new one. *)
Theorem user_sees now c w0 h0 r addr_local addr_new :
  manager_ok now (c_overlays c) -> last (received_states (network c)) = Some r -> canvas w h (MkScreen 0 (get_fb (r_state r))) ->
  frame_ok w0 h0 (local_framebuffer c) ->
  exists c' diff, output_new_frame now addr_local addr_new c = Ok (tt, c') /\ written c' = written c ++ diff /\
    frame_ok w h (local_framebuffer c') /\ manager_ok now (c_overlays c') /\
    (forall row col, row <> 0 \/ (message (notifications (c_overlays c')) = [] /\ need_countup now (notifications (c_overlays c')) = false) ->
       frame_cell (local_framebuffer c') row col =
         shown_cell w (predictions (c_overlays c')) row col <$> frame_cell (get_fb (r_state r)) row col) /\
    (let d := ds (get_fb (r_state r)) in let d' := ds (local_framebuffer c') in
     (cursor_row d', cursor_col d') = shown_cursor (predictions (c_overlays c')) (cursor_row d, cursor_col d)) /\
    (forall k, has_title (c_display c) = true -> repaint_requested c = false ->
       paintable w h (local_framebuffer c) -> paintable w h (local_framebuffer c') -> titles_sent (local_framebuffer c) (local_framebuffer c') ->
       sharing_sound (local_framebuffer c) (local_framebuffer c') addr_local addr_new -> shows w h k (local_framebuffer c) ->
       exists k', act diff k = Ok ([], k') /\ shows w h k' (local_framebuffer c')).
Proof.
  intros Ho Hr Hs Hl. destruct (overlay_apply_ok w h now (c_overlays c) _ Ho Hs) as (s' & o' & Eo & Ho' & Hs' & Hcells & Hcur).
  pose proof (so_frame _ _ _ (proj1 Hs')) as Hf.
  destruct (new_frame_ok (c_display c) (negb (repaint_requested c)) w0 h0 w h (local_framebuffer c) (fb s') addr_local addr_new 0 Hl Hf) as (diff & Ed).
  exists (c <| c_overlays := o' |> <| written := written c ++ diff |> <| repaint_requested := false |> <| local_framebuffer := fb s' |>), diff.
  split; [|split; [done|split; [done|split; [done|split; [exact Hcells|split; [exact Hcur|]]]]]].
  - unfold output_new_frame. rewrite (M_bind_Ok get _ c c c eq_refl). unfold get_latest_remote_state. rewrite Hr.
    rewrite (M_bind_Ok (lift (Ok r)) _ c r c eq_refl), (M_bind_Ok _ _ c s' (c <| c_overlays := o' |>)) by (unfold on_overlays, zoom; by rewrite Eo).
    rewrite Ed. done.
  - intros k Ht Hrep Hpl Hpf [Hinit _] Hsh [Hk Hv]. rewrite Hrep in Ed. cbn [negb] in Ed.
    rewrite (new_frame_shared _ _ w h w h) in Ed by (done || by apply pb_ok).
    destruct (new_frame_draws w h Hw Hh (c_display c) (local_framebuffer c) (fb s') 0 Ht Hpl Hpf Hinit) as (u & E & Hd).
    rewrite E in Ed. injection Ed as ->. destruct (draws_act w h diff _ _ k Hd Hk Hv) as (k' & Ea & Hk' & Hv' & _). exists k'. by split.
Qed.
End frames.

(** ** Samples *)

(** A client that has just connected, with no overlays. *)
Definition sample_client (e : EscapeKey) (f : Framebuffer) (p : PredictionEngine) (k : Complete) : STMClient :=
  MkSTMClient e f (MkOverlayManager (NotificationEngine_new 1000) p []) (Transport_new 1000 sample_conn [] k)
    Display_default [] false false false false [].

(** A period typed at the start of a line, with ~ as the escape key. *)
Definition tilde : EscapeKey := (init_escape_key (Some (str "~")) EscapeKey_new).1.

Lemma keys_sent_witness :
  exists k, Complete_new 6 2 0 = Ok k /\
  exists c', process_user_input 5 (escape_keys tilde false (str "a" ++ 13 :: str "~.")) (sample_client tilde prompt_screen sample_engine k) = Ok (true, c') /\
    current_state (net_sender c') = UserByteEvent <$> str "a" ++ 13 :: str "~." /\
    quit_sequence_started c' = false /\ shutdown_in_progress (net_sender c') = false.
Proof.
  eexists. split; [vm_compute; reflexivity|].
  apply (keys_sent 5 6 2 (str "a" ++ 13 :: str "~.") (sample_client tilde prompt_screen sample_engine _)); try done.
  - apply prompt_ok.
  - exists 6, 2. apply sample_engine_ok.
  - right. by repeat split.
  - repeat (apply Forall_cons; split; [done|]). apply Forall_nil_2.
Defined.

Lemma escape_key_configured_witness :
  let e := (init_escape_key (Some [7]) EscapeKey_new).1 in
  forbidden_escape (escape_key e) = false /\ (escape_key e = -1 <-> Some [7] = Some []) /\
  (0 < escape_key e -> escape_requires_lf e = (32 <=? escape_key e)) /\ (escape_ok e <-> Some [7] <> Some (str ".")).
Proof. apply (escape_key_configured (Some [7]) EscapeKey_new). intros t [= <-]. by apply Forall_singleton. Defined.

Lemma sample_client_overlays e f k p w h : pe_inv w h p -> manager_ok 1000 (c_overlays (sample_client e f p k)).
Proof.
  intros Hp. split; [|by exists w, h|apply Forall_nil_2]. split; [apply Forall_nil_2|by exists []|exists 0; by vm_compute..].
Qed.

(** The first screen of a host is drawn over the blank one. *)
Lemma user_sees_witness :
  exists k r, Complete_new 10 4 0 = Ok k /\ host_after 3 = Ok r /\
  let c := sample_client EscapeKey_new (get_fb k) sample_engine r in
  exists c' diff, output_new_frame 1000 [] [] c = Ok (tt, c') /\ written c' = diff /\
    exists k', act diff k = Ok ([], k') /\ shows 10 4 k' (local_framebuffer c').
Proof.
  do 2 eexists. split; [vm_compute; reflexivity|]. split; [vm_compute; reflexivity|]. intros c.
  destruct (user_sees 10 4 ltac:(by unfold PARAM_MAX) ltac:(by unfold PARAM_MAX) 1000 c 10 4 (MkReceived 1000 0 (last_receiver_state (network c))) [] [])
    as (c' & diff & E & Hw & _ & _ & _ & _ & Hsee).
  - apply (sample_client_overlays _ _ _ _ 6 2), sample_engine_ok.
  - done.
  - split; [|done]. split; [|done..]. apply pb_ok, paintableb_ok. by vm_compute.
  - apply pb_ok, paintableb_ok. by vm_compute.
  - exists c', diff. split_and!; [done|done|].
    assert (Hc : paintableb 10 4 (local_framebuffer c') && titles_sentb (local_framebuffer c) (local_framebuffer c') = true).
    { vm_compute in E. injection E as <-. by vm_compute. }
    apply andb_true_iff in Hc as [Hp Ht]. apply Hsee; [done|done|apply paintableb_ok; by vm_compute|by apply paintableb_ok|by apply titles_sentb_ok|apply no_sharing|].
    by apply new_client.
Defined.
