(* ===== verification/ClientLoop.v ===== *)
(** * The loop of the client program (frontend/stmclient.cc, stmclient.h)

    How a client is set up, its loop and its end, as functions of what the
    system calls return. *)
From S2P Require Export Client.

(** ** Setting up *)

Definition predict_mode_of (s : bytes) : option DisplayPreference :=
  if bool_decide (s = str "always") then Some Always
  else if bool_decide (s = str "never") then Some Never
  else if bool_decide (s = str "adaptive") then Some Adaptive
  else if bool_decide (s = str "experimental") then Some Experimental
  else None.

(** The preferences of the constructor; [None] for an unknown mode, which exits. *)
Definition set_preferences (predict_mode predict_overwrite : option bytes) (p : PredictionEngine) : option PredictionEngine :=
  p ← (match predict_mode with Some m => x ← predict_mode_of m; Some (set_display_preference x p) | None => Some p end);
  Some (if bool_decide (predict_overwrite = Some (str "yes")) then set_predict_overwrite true p else p).

Record ClientSetup : Type := MkClientSetup {
  cs_port : bytes; cs_predict_mode : option bytes; cs_predict_overwrite : option bytes; cs_title_noprefix : bool; cs_escape_key : option bytes;
  cs_display : Display; cs_addr : list Z }.

Section setup.
Context `{Libc}.

(** [init]: the title prefix and the escape key. *)
Definition init_overlays (cs : ClientSetup) (key_name : option bytes) (o : OverlayManager) : OverlayManager :=
  let o := if cs_title_noprefix cs then o else set_title_prefix (str "[mosh] ") o in
  match key_name with
  | Some name => o <| notifications := set_escape_key_string name (notifications o) |>
  | None => o
  end.

(** The constructor, [init] and [main_init], with a connection that has been
    set up; [None] when the process exits.  Without a size of the window the
    network is not opened, and the loop follows a null pointer. *)
Definition STMClient_start (now : Z) (c : Connection) (cs : ClientSetup) (window_size : option (Z * Z)) : result fault (option STMClient) :=
  o ← OverlayManager_new now;
  match set_preferences (cs_predict_mode cs) (cs_predict_overwrite cs) (predictions o) with
  | None => Ok None
  | Some p =>
      let '(e, key_name) := init_escape_key (cs_escape_key cs) EscapeKey_new in
      let o := init_overlays cs key_name (o <| predictions := p |>) in
      port ← wide_string (cs_port cs);
      match window_size with
      | None => Err Undefined
      | Some (ws_col, ws_row) =>
          f ← Framebuffer_new ws_col ws_row 0;
          init ← new_frame (cs_display cs) false f f (cs_addr cs) (cs_addr cs) 0;
          k ← Complete_new ws_col ws_row 0;
          let t := Transport_new now c [] k in
          let s := set_send_delay 1 (sender (endpoint t)) in
          let s := s <| current_state := push_back (ResizeEvent ws_col ws_row) (current_state s) |> in
          Ok (Some (MkSTMClient e f o (t <| endpoint := (endpoint t) <| sender := s |> |>) (cs_display cs)
                (swprintf (str "Nothing received from server on UDP port " ++ port ++ str ".")) false false false false
                (display_open (cs_display cs) ++ init)))
      end
  end.
End setup.

(** ** The loop *)

(** What the system does during an iteration: the times before and after
    [select], what is readable, the signals, and the addresses of the rows of
    the frames. *)
Record ClientEnv : Type := MkClientEnv {
  ce_before : Z; ce_after : Z; ce_select_ok : bool;
  ce_network : bool; ce_recvmsg : Z -> recvmsg_result; ce_stdin : option bytes;
  ce_winch : bool; ce_window : option (Z * Z); ce_cont : bool; ce_term : bool;
  ce_tick : TickEnv; ce_addr_local : list Z; ce_addr_new : list Z }.

(** The texts of errors: [e.what()], and what [send] says of an [errno]. *)
Class Messages := { what : exn -> bytes; sendto_text : Z -> bytes }.

Definition on_c_endpoint {A} (m : M (Endpoint UserStream) A) : M STMClient A :=
  zoom (fun c => endpoint (network c)) (fun e c => c <| network := (network c) <| endpoint := e |> |>) m.
Definition client_conn (c : STMClient) : Connection := conn (endpoint (network c)).

Section loop.
Context `{Libc} `{Messages} `{SyncState UserStream} `{SyncState Complete} `{AE} `{TransportCodec}.

(** The time that [select] may take. *)
Definition client_wait_time (now : Z) : M STMClient Z :=
  w ← on_c_endpoint (wait_time now);
  c ← get;
  s ← lift (still_connecting c);
  let t := Z.min w (overlay_wait_time now (c_overlays c)) in
  mret (if (s : bool) then Z.min 250 t else t).

(** The end of the input or a signal: [true] when the loop is left at once. *)
Definition ask_shutdown (now : Z) (text : list Z) : M STMClient bool :=
  c ← get;
  if negb (has_remote_addr (client_conn c)) then mret true else
  when_ (negb (shutdown_in_progress (net_sender c))) (notify now text true true ;; on_net_sender (start_shutdown now)) ;;
  mret false.

Definition user_turn (env : ClientEnv) : M STMClient bool :=
  match ce_stdin env with
  | None => mret false
  | Some buf =>
      ok ← process_user_input (ce_after env) buf;
      if (ok : bool) then mret false else ask_shutdown (ce_after env) (str "Exiting...")
  end.

Definition signal_turn (env : ClientEnv) : M STMClient bool :=
  when_ (ce_cont env) resume ;;
  if ce_term env then ask_shutdown (ce_after env) (str "Signal received, shutting down...") else mret false.

(** The message while there is no connection. *)
Definition connecting_message (now : Z) : M STMClient unit :=
  c ← get;
  connecting ← lift (still_connecting c);
  r ← lift (get_latest_remote_state (network c));
  let late := u64 (now - r_timestamp r) in
  if (connecting : bool) && negb (shutdown_in_progress (net_sender c)) && (250 <? late) then
    if 15000 <? late then
      notify now (str "Timed out waiting for server...") true true ;;
      on_net_sender (start_shutdown now)
    else notify now (connecting_notification c) false true
  else when_ (negb connecting && bool_decide (message (notifications (c_overlays c)) = connecting_notification c)) (notify now [] false true).

Definition show_network_error (now : Z) (text : bytes) : M STMClient unit :=
  c ← get;
  n ← lift (set_network_error now text (notifications (c_overlays c)));
  on_notifications (fun _ => n).

(** A failed [sendto]. *)
Definition report_send_error (now : Z) : M STMClient unit :=
  c ← get;
  match send_error (client_conn c) with
  | Some e =>
      show_network_error now (sendto_text e) ;;
      on_c_endpoint (modify (fun e => e <| conn := (conn e) <| send_error := None |> |>))
  | None => on_notifications (clear_network_error now)
  end.

Definition client_tick (env : ClientEnv) : X STMClient unit :=
  zoom (fun c => endpoint (network c)) (fun e c => c <| network := (network c) <| endpoint := e |> |>) (tick (ce_after env) (ce_tick env)).

(** [break]: the loop returns [clean_shutdown]. *)
Definition leave : X STMClient (option bool) := c ← noexn get; mret (Some (clean_shutdown c)).
Definition leave_cleanly : X STMClient (option bool) := noexn (modify (fun c => c <| clean_shutdown := true |>)) ;; leave.

(** The end of an iteration. *)
Definition client_end (env : ClientEnv) : X STMClient (option bool) :=
  let now := ce_after env in
  c ← noexn get;
  let in_progress := shutdown_in_progress (net_sender c) in
  acked ← noexn (if in_progress then lift (get_shutdown_acknowledged (net_sender c)) else mret false);
  if (acked : bool) then leave_cleanly else
  if in_progress && shutdown_ack_timed_out now (net_sender c) then leave else
  if last_ack_sent (fragmenter (net_sender c)) =? UINT64_MAX then leave_cleanly else
  noexn (connecting_message now) ;;
  client_tick env ;;
  noexn (report_send_error now) ;;
  mret None.

(** An iteration inside its [try]; [Some r] when [main] returns [r]. *)
Definition client_try (env : ClientEnv) : X STMClient (option bool) :=
  noexn (output_new_frame (ce_before env) (ce_addr_local env) (ce_addr_new env)) ;;
  noexn (client_wait_time (ce_before env)) ;;
  if negb (ce_select_ok env) then leave else
  (if ce_network env then process_network_input (ce_after env) (ce_recvmsg env) else mret tt) ;;
  quit ← noexn (user_turn env);
  if (quit : bool) then leave else
  resized ← noexn (if ce_winch env then process_resize (ce_window env) else mret true);
  if negb resized then mret (Some false) else
  quit ← noexn (signal_turn env);
  if (quit : bool) then leave else
  client_end env.

(** Exceptions: a fatal one leaves [main]. *)
Definition client_step (env : ClientEnv) : X STMClient (option bool) := fun c =>
  match client_try env c with
  | Ok (Err (NetworkException e), c') =>
      noexn (when_ (negb (shutdown_in_progress (net_sender c'))) (show_network_error (ce_after env) (what (NetworkException e))) ;; mret None) c'
  | Ok (Err (CryptoException false), c') =>
      noexn (t ← lift (wide_string (what (CryptoException false)));
             notify (ce_after env) (swprintf (str "Crypto exception: " ++ t)) false true ;; mret None) c'
  | r => r
  end.

(** [main] for the iterations the environment allows: [None] while it runs. *)
Fixpoint client_loop (envs : list ClientEnv) : X STMClient (option bool) :=
  match envs with
  | [] => mret None
  | env :: envs' =>
      r ← client_step env;
      match r with Some b => mret (Some b) | None => client_loop envs' end
  end.

(** [shutdown]: the screen without overlays, and the terminal restored. *)
Definition client_shutdown (now : Z) (addr_local addr_new : list Z) : M STMClient unit :=
  notify now [] false true ;;
  on_notifications (server_heard now) ;;
  on_overlays (modify (set_title_prefix [])) ;;
  output_new_frame now addr_local addr_new ;;
  d ← gets c_display;
  swrite (display_close d).
End loop.
