(* ===== verification/ClientAlone.v ===== *)
(** * A client whose server does not answer

    While nothing authentic arrives the client runs without a fault, whatever
    is typed and whatever the terminal does, and gives up in time. *)
From S2P Require Export ClientSpec ClientLoop Receive.

(** ** What sending leaves alone *)

Section sending.
Context `{HAE : AE}.

Abbreviation conn_secret := (fun c => key (session c)).
Lemma secret_session {A} (m : X Session A) : keeps key m -> keeps conn_secret (on_session m).
Proof. by apply follows_zoom_in. Qed.
Lemma secret_new_packet now s : keeps conn_secret (new_packet now s).
Proof. unfold new_packet, on_counter. follows_by (by apply follows_zoom). Qed.
Lemma secret_hop now sock : keeps conn_secret (hop_port now sock).
Proof.
  unfold hop_port, assert_. follows_by fail. destruct sock; [|apply follows_throw, _]. apply follows_noexn, follows_modify.
  intros c. unfold prune_sockets. by repeat case_match.
Qed.
Lemma secret_send now env s : keeps conn_secret (send now env s).
Proof.
  unfold send, assert_.
  follows_by (first [apply secret_new_packet|apply secret_session, key_encrypt|apply secret_hop|apply follows_modify; intros c; unfold note_sendto; by repeat case_match]).
Qed.
End sending.

(** ** A sender that hears no acknowledgement *)

Section sender.
Context {S : Type} `{HSync : SyncState S} `{HAE : AE} `{HCodec : TransportCodec}.

(** The oldest state is the first one, and it acknowledges the first one. *)
Definition unacked (s : TransportSender S) : Prop :=
  num <$> head (sent_states s) = Some 0 /\ sender_ack_num s = 0 /\ last_ack_sent (fragmenter s) = 0.

(** When the shutdown started, if it did. *)
Definition shut (s : TransportSender S) : option Z := if shutdown_in_progress s then Some (shutdown_start s) else None.

(** Sending then keeps the key, the time of the shutdown, and that nothing is
    acknowledged. *)
Definition calm_sender (s s' : TransportSender S) : Prop := unacked s -> shut s' = shut s /\ unacked s'.
Definition calm (e e' : Endpoint S) : Prop :=
  unacked (sender e) -> key (session (conn e')) = key (session (conn e)) /\ shut (sender e') = shut (sender e) /\ unacked (sender e').
#[export] Instance calm_sender_preorder : PreOrder calm_sender.
Proof. split; [done|]. intros s s1 s2 A B H. destruct (A H) as [A1 A2], (B A2) as [B1 B2]. split; [congruence|done]. Qed.
#[export] Instance calm_preorder : PreOrder calm.
Proof. split; [done|]. intros e e1 e2 A B H. destruct (A H) as (A1 & A2 & A3), (B A3) as (B1 & B2 & B3). split_and!; [congruence..|done]. Qed.

Lemma calm_on_sender {A} (m : M (TransportSender S) A) : follows calm_sender m -> follows calm (on_sender m).
Proof. apply follows_zoom_in. intros e s Hs He. by destruct (Hs He). Qed.
Lemma calm_conn {A} (m : X Connection A) : keeps (fun c => key (session c)) m -> follows calm (on_conn m).
Proof. intros Hm. by eapply follows_zoom_in; [|exact Hm]. Qed.
Lemma calm_fragmenter {A} (m : X Fragmenter A) : stable (fun f => last_ack_sent f = 0) m -> follows calm (on_fragmenter m).
Proof. intros Hm. eapply follows_zoom_in; [|exact Hm]. intros e f Hf (H1 & H2 & H3). split_and!; auto. by split_and!; auto. Qed.

Lemma head_num_rationalize l l' : rationalize_list (S := S) l = Ok l' -> num <$> head l' = num <$> head l.
Proof. destruct l as [|n l]; [done|]. cbn. destruct (subtract_all _ _); [|done]. by intros [= <-]. Qed.

Lemma calm_rationalize : follows calm_sender rationalize_states.
Proof.
  intros s x s' (? & ? & [= <- <-] & E)%bind_inv. apply bind_inv in E as (? & ? & [_ ->]%lift_inv & E). apply bind_inv in E as (? & ? & [_ ->]%lift_inv & E).
  apply bind_inv in E as (l & ? & [El ->]%lift_inv & [= _ <-]). unfold calm_sender, unacked. cbn. by rewrite (head_num_rationalize _ _ El).
Qed.
Lemma head_trim (l : list (TimestampedState S)) : (32 < length l)%nat -> head (delete (length l - 16)%nat l) = head l.
Proof. destruct l as [|n l]; [done|]. intros Hl. cbn [length] in *. by replace (Datatypes.S (length l) - 16)%nat with (Datatypes.S (length l - 16)) by lia. Qed.
Lemma calm_add_state now n st : follows calm_sender (add_sent_state now n st).
Proof.
  unfold add_sent_state. apply follows_bind; [apply _| |intros _]; apply follows_modify; intros s (H1 & H2 & H3); (split; [|split_and!]); try done.
  - cbn. by destruct (sent_states s).
  - cbv zeta. by case_match.
  - cbv zeta. case_match eqn:E; [|done]. apply Nat.ltb_lt in E. cbn [sent_states set_field]. by rewrite head_trim.
  - cbv zeta. by case_match.
  - cbv zeta. by case_match.
Qed.
Lemma calm_back now : follows calm_sender (modify (fun s => s <| sent_states := set_back_timestamp now (sent_states s) |>)).
Proof.
  apply follows_modify. intros s (H1 & H2 & H3). split; [done|]. split_and!; [|done..]. cbn [sent_states set_field]. unfold set_back_timestamp.
  destruct (last (sent_states s)) as [n|] eqn:E; [|done]. destruct (sent_states s) as [|m [|m' l]]; [done| |done]. injection E as <-. done.
Qed.
Lemma calm_attempt d : follows calm_sender (attempt_prospective_resend_optimization d).
Proof. unfold attempt_prospective_resend_optimization. follows_by fail. Qed.

(** Closes the steps that only set timers. *)
Ltac calm_set := apply calm_on_sender; first [apply calm_rationalize|apply calm_add_state|apply calm_attempt|apply calm_back|apply follows_modify; intros ?; by repeat case_match].

Lemma calm_timers now : follows calm (calculate_timers now).
Proof.
  unfold calculate_timers, update_assumed_receiver_state, set_timers. follows_by (calm_set).
  case_match; follows_by (calm_set).
Qed.
Lemma calm_wait now : follows calm (wait_time now).
Proof. unfold wait_time. follows_by (apply calm_timers). Qed.

Lemma calm_send_each now env l : forall k, follows calm (send_each now env k l).
Proof. induction l as [|f l IH]; intros k; cbn [send_each]; follows_by (first [apply IH|apply calm_conn, secret_send]). Qed.
Lemma ack_make_fragments inst mtu : ack_num inst = 0 -> stable (fun f => last_ack_sent f = 0) (make_fragments inst mtu).
Proof.
  intros Hi. unfold make_fragments, assert_. follows_by fail. repeat case_match; follows_by fail.
Qed.
Lemma calm_send_in_fragments now env d n : follows calm (send_in_fragments now env d n).
Proof.
  unfold send_in_fragments. apply follows_xread. intros e x e' E Hu. refine ((_ : follows calm _) _ _ _ E Hu). destruct Hu as (_ & Ha & _).
  follows_by (first [calm_set|apply calm_send_each|by apply calm_fragmenter, ack_make_fragments]).
Qed.
Lemma calm_tick now env : follows calm (tick now env).
Proof.
  unfold tick, send_empty_ack, send_to_receiver, assert_. follows_by (first [calm_set|apply calm_timers|apply calm_send_in_fragments]).
Qed.
End sender.

(** ** The client *)

Section shown.
Context `{HL : Libc}.

(** Octets that are text for the terminal. *)
Definition shown (s : bytes) : Prop := exists t, wide_string s = Ok t /\ unicode t.

Class MessagesLaws `{Messages} : Prop := { shown_what e : shown (what e); shown_sendto e : shown (sendto_text e) }.
End shown.

(** Once a shutdown has started its time stays. *)
Definition later (sh sh' : option Z) : Prop := sh = None \/ sh' = sh.

Section alone.
Context `{HL : Libc} `{HLL : !LibcLaws} `{HM : Messages} `{HML : !MessagesLaws} `{HUC : UserCodec} `{HUL : !UserCodecLaws}.
Context `{HSC : SyncState Complete} `{HAE : AE} `{HAL : !AELaws} `{HTC : TransportCodec} `{HTL : !TransportCodecLaws}.

(** The start: its time, the key, and the blank screen. *)
Context (t0 w h : Z) (k0 : Complete) (s0 : Session).
Hypothesis Hk0 : canvas w h (MkScreen 0 (get_fb k0)).

Record overlays_ok (o : OverlayManager) : Prop := {
  oo_message : unicode (message (notifications o));
  oo_keystroke : shown (c_str (escape_key_string (notifications o)));
  oo_word : last_word_from_server (notifications o) = t0;
  oo_acked : last_acked_state (notifications o) = t0;
  oo_predictions : exists w0 h0, pe_inv w0 h0 (predictions o);
  oo_title : unicode (title_prefix o) }.

(** At time [T], after at most [K] instructions: nothing was acknowledged and
    nothing received. *)
Record alone (T : Z) (K : nat) (sh : option Z) (c : STMClient) : Prop := {
  al_sender : exists cur L, sinv cur L T (endpoint (network c));
  al_count : (length (instructions (net_sender c)) <= K)%nat;
  al_unacked : unacked (net_sender c);
  al_key : key (session (client_conn c)) = key s0;
  al_received : received_states (network c) = [MkReceived t0 0 k0];
  al_shut : shut (net_sender c) = sh;
  al_since : forall ts, sh = Some ts -> 0 <= ts <= T;
  al_screen : screen_ok w h (local_framebuffer c);
  al_overlays : overlays_ok (c_overlays c);
  al_help : unicode (escape_key_help (escape c));
  al_connecting : unicode (connecting_notification c);
  al_unclean : clean_shutdown c = false }.

Implicit Types (T : Z) (K : nat) (sh : option Z) (c : STMClient).

Lemma shut_false T K sh c : alone T K sh c -> shutdown_in_progress (net_sender c) = bool_decide (sh <> None).
Proof. intros H. rewrite <- (al_shut _ _ _ _ H). unfold shut. by destruct (shutdown_in_progress _). Qed.

Lemma alone_later T T' K K' sh c : T <= T' -> (K <= K')%nat -> alone T K sh c -> alone T' K' sh c.
Proof.
  intros HT HK [(cur & L & b & a & Hi & Ha) ? ? ? ? ? Hs ? ? ? ? ?]. split; try done; [|lia|].
  - exists cur, L, b, a. split; [|done]. by eapply inv_later.
  - intros ts E. specialize (Hs ts E). lia.
Qed.

Lemma alone_overlays T K sh c o : overlays_ok o -> alone T K sh c -> alone T K sh (c <| c_overlays := o |>).
Proof. intros Ho []. by split. Qed.

Lemma overlays_alone {A} T K sh (m : M OverlayManager A) : preserves overlays_ok m -> preserves (alone T K sh) (on_overlays m).
Proof. intros Hm. eapply triple_zoom; [exact Hm|by intros c []|]. intros a o c Hc Ho. by apply alone_overlays. Qed.

Lemma notifications_alone T K sh k :
  (forall n, unicode (message n) -> unicode (message (k n)) /\ escape_key_string (k n) = escape_key_string n /\
    last_word_from_server (k n) = last_word_from_server n /\ last_acked_state (k n) = last_acked_state n) ->
  preserves (alone T K sh) (on_notifications k).
Proof.
  intros Hk. apply overlays_alone, triple_modify. intros o [H1 H2 H3 H4 H5 H6]. destruct (Hk _ H1) as (F1 & F2 & F3 & F4).
  split; cbn; rewrite ?F2, ?F3, ?F4; done.
Qed.

Lemma notify_alone T K sh now s permanent show : unicode s -> preserves (alone T K sh) (notify now s permanent show).
Proof. intros Hs. by apply notifications_alone. Qed.

Lemma predictions_alone {A} T K sh (m : M PredictionEngine A) : preserves (fun p => exists w0 h0, pe_inv w0 h0 p) m -> preserves (alone T K sh) (on_predictions m).
Proof.
  intros Hm. apply overlays_alone. eapply triple_zoom; [exact Hm|by intros o []|]. intros a p o [H1 H2 H3 H4 H5 H6] Hp. by split.
Qed.

(** ** The sender *)

Lemma endpoint_alone c (e : Endpoint UserStream) T K sh T' K' cur L : alone T K sh c -> T <= T' ->
  sinv cur L T' e -> (length (instructions (sender e)) <= K')%nat -> calm (endpoint (network c)) e ->
  alone T' K' sh (c <| network := (network c) <| endpoint := e |> |>).
Proof.
  intros [A1 A2 A3 A4 A5 A6 A7 A8 A9 A10 A11 A12] HT Hs Hl Hc. destruct (Hc A3) as (C1 & C2 & C3). split; try done; cbn.
  - by exists cur, L.
  - unfold client_conn in *. cbn. by rewrite C1.
  - unfold net_sender in *. cbn. by rewrite C2.
  - intros ts E. specialize (A7 ts E). lia.
Qed.

Lemma wait_alone T K sh now : T <= now -> 0 <= now < 2 ^ 64 -> triple (alone T K sh) (on_c_endpoint (wait_time now)) (fun _ => alone now K sh).
Proof.
  intros HT Hn c Hc. destruct (al_sender _ _ _ _ Hc) as (cur & L & Hs). destruct (wait_time_inv cur L T now _ Hs HT Hn) as (r & e & E & Hs' & Hi).
  exists r, (c <| network := (network c) <| endpoint := e |> |>). split; [unfold on_c_endpoint, zoom; by rewrite E|].
  eapply endpoint_alone; [exact Hc|done|exact Hs'| |exact (calm_wait _ _ _ _ E)]. rewrite Hi. apply Hc.
Qed.

Lemma tick_alone T K sh env c : alone T K sh c -> T <= ce_after env -> 0 <= ce_after env < 2 ^ 64 -> Z.of_nat K < UINT64_MAX - 1 ->
  exists r c', client_tick env c = Ok (r, c') /\ alone (ce_after env) (S K) sh c'.
Proof.
  intros Hc HT Hn HK. destruct (al_sender _ _ _ _ Hc) as (cur & L & Hs). pose proof (al_count _ _ _ _ Hc) as Hl. unfold net_sender in Hl.
  destruct (tick_inv cur L T (ce_after env) (ce_tick env) _ Hs HT Hn ltac:(lia)) as (r & e & E & L' & _ & Hs' & Hi).
  exists r, (c <| network := (network c) <| endpoint := e |> |>). split; [unfold client_tick, zoom; by rewrite E|].
  eapply endpoint_alone; [exact Hc|done|exact Hs'|lia|exact (calm_tick _ _ _ _ _ E)].
Qed.

Lemma shutdown_alone K now : 0 <= now -> triple (alone now K None) (on_net_sender (start_shutdown now)) (fun _ => alone now K (Some now)).
Proof.
  intros Hn c Hc. pose proof (shut_false _ _ _ _ Hc) as Hsh. destruct Hc as [(cur & L & Hs) A2 A3 A4 A5 A6 A7 A8 A9 A10 A11 A12]. eexists _, _. split; [done|].
  unfold net_sender, start_shutdown in *. cbn in Hsh. rewrite Hsh. split; try done.
  - exists cur, L. pose proof (shutdown_inv cur L now now _ Hs) as H. unfold start_shutdown in H. by rewrite Hsh in H.
  - intros ts [= <-]. lia.
Qed.

Lemma push_alone T K ev : event_wf ev -> preserves (alone T K None) (push_event ev).
Proof.
  intros Hev c Hc. pose proof (shut_false _ _ _ _ Hc) as Hsh. destruct Hc as [(cur & L & Hs) A2 A3 A4 A5 A6 A7 A8 A9 A10 A11 A12].
  unfold push_event. rewrite (M_bind_Ok (gets net_sender) _ c (net_sender c) c) by done. unfold get_current_state. cbn in Hsh. rewrite Hsh.
  eexists _, _. split; [done|]. split; try done. exists (push_back ev cur), L. exact (edit_inv cur _ L T _ _ Hs (extends_push ev cur Hev) Hsh).
Qed.

(** ** Typing *)

Ltac flags := apply triple_modify; intros ? []; by split.

Lemma swrite_alone T K sh s : preserves (alone T K sh) (swrite s).
Proof. flags. Qed.
Lemma resume_alone T K sh : preserves (alone T K sh) resume.
Proof.
  apply (triple_bind_gets _ _ _ _ (fun _ => True)); [done|]. intros d _. apply triple_seq; [apply swrite_alone|intros _; flags].
Qed.
Lemma suspend_alone T K sh : preserves (alone T K sh) suspend.
Proof.
  apply (triple_bind_gets _ _ _ _ (fun _ => True)); [done|]. intros d _.
  apply triple_seq; [apply swrite_alone|intros _]. apply triple_seq; [apply swrite_alone|intros _]. apply resume_alone.
Qed.

Lemma predict_alone T K sh now f (paste : bool) b : screen_ok w h f -> is_u8 b ->
  preserves (alone T K sh) (when_ (negb paste) (on_predictions (new_user_byte now f b))).
Proof.
  intros Hf Hb. apply triple_when. intros _. apply predictions_alone. intros p (w0 & h0 & Hp).
  destruct (new_user_byte_safe w h now f Hf w0 h0 _ b Hp Hb) as (p' & E & Hp'). exists tt, p'. split; [done|].
  destruct (prefers Never p); [subst p'; by exists w0, h0|by exists w, h].
Qed.

(** What a handler may leave: the shutdown started only when it ends the input. *)
Definition typed_on T K (r : option bool) c : Prop := exists sh, alone T K sh c /\ (r = None -> sh = None).
Lemma typed_on_none T K c : alone T K None c -> typed_on T K None c.
Proof. by exists None. Qed.

Lemma escaped_alone K now b : 0 <= now -> triple (alone now K None) (escaped_byte now b) (typed_on now K).
Proof.
  intros Hn. apply (triple_bind_gets _ _ _ _ (fun _ => True)); [done|]. intros e _. destruct (_ =? chr ".").
  - apply triple_bind_get. intros c _. destruct (_ && _); [|by apply triple_ret; exists None].
    apply triple_seq; [apply notify_alone, unicode_str|intros _]. apply (triple_bind _ _ _ _ _ (shutdown_alone K now Hn)). intros _. apply triple_ret. by exists (Some now).
  - apply triple_seq; [|intros _].
    { destruct (_ =? 0x1a); [apply suspend_alone|]. destruct (_ || _); [by apply push_alone|]. apply triple_seq; [by apply push_alone|intros _; by apply push_alone]. }
    apply triple_seq; [flags|intros _]. apply (triple_bind_gets _ _ _ _ (fun _ => True)); [done|]. intros o _.
    apply triple_seq; [apply triple_when; intros _; by apply notify_alone|intros _]. apply triple_ret. apply typed_on_none.
Qed.

Lemma user_byte_alone K now (paste : bool) b : 0 <= now -> is_u8 b -> triple (alone now K None) (user_byte now paste b) (typed_on now K).
Proof.
  intros Hn Hb. apply (triple_bind_gets _ _ _ _ (fun f => screen_ok w h f)); [by intros c []|]. intros f Hf.
  apply triple_seq; [by apply predict_alone|intros _]. apply triple_bind_get. intros c Hc. destruct (quit_sequence_started c); [by apply escaped_alone|]. cbv zeta.
  apply triple_seq; [flags|intros _]. destruct (_ && _).
  - apply triple_seq; [flags|intros _]. apply triple_seq; [apply notify_alone, Hc|intros _]. apply triple_ret. apply typed_on_none.
  - apply triple_seq; [flags|intros _]. apply triple_seq; [apply triple_when; intros _; flags|intros _]. apply triple_seq; [by apply push_alone|intros _]. apply triple_ret. apply typed_on_none.
Qed.

Lemma user_bytes_alone K now (paste : bool) buf : 0 <= now -> Forall is_u8 buf ->
  triple (alone now K None) (user_bytes now paste buf) (fun _ c => exists sh, alone now K sh c).
Proof.
  intros Hn. induction 1 as [|b buf Hb _ IH]; cbn [user_bytes]; [by apply triple_ret; exists None|].
  apply (triple_bind _ _ _ _ _ (user_byte_alone K now paste b Hn Hb)). intros [r|] c (sh & Hc & Hsh); [by exists r, c; split; [|exists sh]|]. rewrite (Hsh eq_refl) in Hc. by apply IH.
Qed.

Lemma input_alone K sh now buf : 0 <= now -> Forall is_u8 buf ->
  triple (alone now K sh) (process_user_input now buf) (fun _ c => exists sh', alone now K sh' c /\ later sh sh').
Proof.
  intros Hn Hb c Hc. unfold process_user_input. case_bool_decide; [by exists false, c; split; [|exists sh; split; [|right]]|].
  rewrite (M_bind_Ok (gets net_sender) _ c (net_sender c) c) by done. rewrite (shut_false _ _ _ _ Hc). case_bool_decide as Hs; [by exists true, c; split; [|exists sh; split; [|right]]|].
  destruct sh; [done|]. revert c Hc. intros c0 Hc0. pose proof (proj1 (al_unacked _ _ _ _ Hc0)) as Hh. unfold get_sent_state_last, back.
  destruct (last (sent_states (net_sender c0))) as [x|] eqn:El; [|apply last_None in El; by rewrite El in Hh]. revert c0 Hc0 Hh El. intros c0 Hc0 _ _.
  eapply (triple_bind_lift (alone now K None) (Ok (num x)) _ _ (fun _ => True)); [by eexists| |exact Hc0]. intros n _.
  apply triple_seq; [|intros _; apply triple_seq; [apply triple_when; intros _|intros _]].
  - apply predictions_alone, triple_modify. intros p (w0 & h0 & []). by exists w0, h0.
  - apply predictions_alone, triple_modify. intros p. apply reset_predictions.
  - intros c Hc. destruct (user_bytes_alone K now (100 <? lenZ buf) buf Hn Hb c Hc) as (r & c' & E & sh & Hc'). exists r, c'. split; [done|]. exists sh. split; [done|by left].
Qed.

(** ** Drawing *)

(** The time since the start is a number of seconds that fits in an [int]. *)
Definition countable (now : Z) : Prop := exists t, 0 <= t /\ int_of_double (elapsed now t0) = Ok t.

Abbreviation heard := (fun o : OverlayManager => (last_word_from_server (notifications o), last_acked_state (notifications o))).
Lemma heard_apply now s : keeps heard (overlay_apply now s).
Proof.
  unfold overlay_apply, draw_on. follows_by (first [by apply follows_zoom|apply follows_modify; intros o; unfold adjust_message; by case_match]).
Qed.

Lemma overlays_managed now o : countable now -> overlays_ok o -> manager_ok now o.
Proof. intros Hn [H1 H2 H3 H4 H5 H6]. split; [|done|done]. split; [done|done|by rewrite H3|by rewrite H4]. Qed.
Lemma managed_overlays now o : manager_ok now o -> heard o = (t0, t0) -> overlays_ok o.
Proof. intros [[] ? ?] [= ? ?]. by split. Qed.

Lemma output_alone T K sh now al an : countable now -> preserves (alone T K sh) (output_new_frame now al an).
Proof.
  intros Hn c Hc. destruct Hc as [A1 A2 A3 A4 A5 A6 A7 A8 A9 A10 A11 A12].
  destruct (overlay_apply_ok w h now (c_overlays c) _ (overlays_managed now _ Hn A9) Hk0) as (s' & o' & Eo & Ho' & Hs' & _).
  destruct (new_frame_ok (c_display c) (negb (repaint_requested c)) w h w h (local_framebuffer c) (fb s') al an 0 (so_frame _ _ _ A8) (so_frame _ _ _ (proj1 Hs'))) as (d & Ed).
  exists tt, (c <| c_overlays := o' |> <| written := written c ++ d |> <| repaint_requested := false |> <| local_framebuffer := fb s' |>). split.
  - unfold output_new_frame. rewrite (M_bind_Ok get _ c c c) by done. unfold get_latest_remote_state. rewrite A5. cbn [last].
    rewrite (M_bind_Ok (lift _) _ c (MkReceived t0 0 k0) c) by done. cbn [r_state]. rewrite (M_bind_Ok _ _ c s' (c <| c_overlays := o' |>)) by (unfold on_overlays, zoom; by rewrite Eo).
    by rewrite Ed.
  - split; try done; [apply Hs'|]. apply (managed_overlays now); [done|]. pose proof (heard_apply _ _ _ _ _ Eo) as E. cbn [c_overlays set_field]. rewrite E. by rewrite (oo_word _ A9), (oo_acked _ A9).
Qed.

Lemma connecting_alone T K sh c : alone T K sh c -> still_connecting c = Ok true.
Proof. intros Hc. unfold still_connecting, get_remote_state_num. by rewrite (al_received _ _ _ _ Hc). Qed.

Lemma client_wait_alone T K sh now : T <= now -> 0 <= now < 2 ^ 64 -> triple (alone T K sh) (client_wait_time now) (fun _ => alone now K sh).
Proof.
  intros HT Hn. apply (triple_bind _ _ _ _ _ (wait_alone T K sh now HT Hn)). intros wt c Hc. rewrite (M_bind_Ok get _ c c c) by done.
  rewrite (connecting_alone _ _ _ _ Hc). rewrite (M_bind_Ok (lift (Ok true)) _ c true c) by done. cbv zeta iota. eexists _, c. by split.
Qed.

(** ** The turns of an iteration *)

Lemma ask_alone K sh now text : 0 <= now -> unicode text ->
  triple (alone now K sh) (ask_shutdown now text) (fun _ c => exists sh', alone now K sh' c /\ later sh sh').
Proof.
  intros Hn Ht c Hc. unfold ask_shutdown. rewrite (M_bind_Ok get _ c c c) by done. destruct (negb _); [by exists true, c; split; [|exists sh; split; [|right]]|].
  rewrite (shut_false _ _ _ _ Hc). destruct sh as [ts|].
  - rewrite bool_decide_true by done. rewrite (M_bind_Ok (when_ _ _) _ c tt c) by done. exists false, c. split; [done|]. exists (Some ts). split; [done|by right].
  - rewrite bool_decide_false by (by intros []). cbn [negb when_].
    destruct (notify_alone now K None now text true true Ht c Hc) as ([] & c1 & E1 & Hc1). destruct (shutdown_alone K now Hn c1 Hc1) as ([] & c2 & E2 & Hc2).
    exists false, c2. split; [|exists (Some now); split; [done|by left]]. rewrite (M_bind_Ok _ _ c tt c2); [done|]. by rewrite (M_bind_Ok _ _ _ _ _ E1).
Qed.

Definition turned now K sh c : Prop := exists sh', alone now K sh' c /\ later sh sh'.
Lemma later_trans sh sh1 sh2 : later sh sh1 -> later sh1 sh2 -> later sh sh2.
Proof. unfold later. intros [->| ->]; [by left|]. intros [->| ->]; [by left|by right]. Qed.
Lemma turned_refl now K sh c : alone now K sh c -> turned now K sh c.
Proof. intros Hc. exists sh. split; [done|by right]. Qed.
Lemma turned_bind {A B} now K sh (m : M STMClient A) (k : A -> M STMClient B) :
  triple (alone now K sh) m (fun _ => turned now K sh) -> (forall a sh', triple (alone now K sh') (k a) (fun _ => turned now K sh')) ->
  triple (alone now K sh) (m ≫= k) (fun _ => turned now K sh).
Proof.
  intros Hm Hk. apply (triple_bind _ _ _ _ _ Hm). intros a c (sh' & Hc & Hl). destruct (Hk a sh' c Hc) as (b & c' & E & sh2 & Hc' & Hl'). exists b, c'. split; [done|].
  exists sh2. split; [done|by eapply later_trans].
Qed.
Lemma turned_ret {A} now K sh (a : A) : triple (alone now K sh) (mret a) (fun _ => turned now K sh).
Proof. apply triple_ret. intros c. apply turned_refl. Qed.
Lemma turned_keeps {A} now K sh (m : M STMClient A) : preserves (alone now K sh) m -> triple (alone now K sh) m (fun _ => turned now K sh).
Proof. intros Hm c Hc. destruct (Hm c Hc) as (a & c' & E & Hc'). exists a, c'. split; [done|by apply turned_refl]. Qed.

(** What the system may do during an iteration that starts at [T]. *)
Record client_env_ok T (env : ClientEnv) : Prop := {
  ev_before : T <= ce_before env <= ce_after env;
  ev_after : ce_after env < 2 ^ 64;
  ev_seconds : countable (ce_before env);
  ev_forged : forall fd, forged s0 (ce_recvmsg env fd);
  ev_stdin : match ce_stdin env with Some buf => Forall is_u8 buf | None => True end;
  ev_window : match ce_window env with Some (x, y) => 0 <= x < 2 ^ 16 /\ 0 <= y < 2 ^ 16 | None => True end }.

Lemma user_turn_alone T K sh env : 0 <= T -> client_env_ok T env -> triple (alone (ce_after env) K sh) (user_turn env) (fun _ => turned (ce_after env) K sh).
Proof.
  intros HT [Hb Ha _ _ Hs _]. unfold user_turn. destruct (ce_stdin env) as [buf|]; [|apply turned_ret].
  apply turned_bind; [apply input_alone; [lia|done]|]. intros [] sh'; [apply turned_ret|]. apply ask_alone; [lia|apply unicode_str].
Qed.
Lemma signal_turn_alone T K sh env : 0 <= T -> client_env_ok T env -> triple (alone (ce_after env) K sh) (signal_turn env) (fun _ => turned (ce_after env) K sh).
Proof.
  intros HT [Hb Ha _ _ _ _]. unfold signal_turn. apply turned_bind; [apply turned_keeps, triple_when; intros _; apply resume_alone|]. intros _ sh'.
  destruct (ce_term env); [apply ask_alone; [lia|apply unicode_str]|apply turned_ret].
Qed.
Lemma resize_alone T K sh window : match window with Some (x, y) => 0 <= x < 2 ^ 16 /\ 0 <= y < 2 ^ 16 | None => True end -> preserves (alone T K sh) (process_resize window).
Proof.
  intros Hw. unfold process_resize. destruct window as [[x y]|]; [|by apply triple_ret]. intros c Hc. rewrite (M_bind_Ok (gets net_sender) _ c (net_sender c) c) by done.
  rewrite (shut_false _ _ _ _ Hc). revert c Hc. apply triple_seq; [|intros _; apply triple_seq; [|intros _; by apply triple_ret]].
  - destruct sh; [by apply triple_ret|]. apply push_alone. unfold event_wf. lia.
  - apply predictions_alone, triple_modify. intros p. apply reset_predictions.
Qed.

Lemma connecting_message_alone K sh now : 0 <= now ->
  triple (alone now K sh) (connecting_message now) (fun _ c => exists sh', alone now K sh' c /\ later sh sh' /\ (15000 < u64 (now - t0) -> sh' <> None)).
Proof.
  intros Hn c Hc. unfold connecting_message. rewrite (M_bind_Ok get _ c c c), (connecting_alone _ _ _ _ Hc) by done. rewrite (M_bind_Ok (lift (Ok true)) _ c true c) by done.
  unfold get_latest_remote_state. rewrite (al_received _ _ _ _ Hc). cbn [last]. rewrite (M_bind_Ok (lift _) _ c (MkReceived t0 0 k0) c) by done. cbn [r_timestamp negb andb]. cbv zeta.
  rewrite (shut_false _ _ _ _ Hc). destruct sh as [ts|]; [rewrite bool_decide_true by done|rewrite bool_decide_false by (by intros [])]; cbn [negb andb].
  - exists tt, c. split; [done|]. exists (Some ts). split_and!; [done|by right|done].
  - destruct (Z.ltb_spec 250 (u64 (now - t0))); [destruct (Z.ltb_spec 15000 (u64 (now - t0)))|].
    + destruct (notify_alone now K None now (str "Timed out waiting for server...") true true (unicode_str _) c Hc) as ([] & c1 & E1 & Hc1).
      destruct (shutdown_alone K now Hn c1 Hc1) as ([] & c2 & E2 & Hc2). exists tt, c2. split; [by rewrite (M_bind_Ok _ _ _ _ _ E1)|]. exists (Some now). split_and!; [done|by left|done].
    + destruct (notify_alone now K None now _ false true (al_connecting _ _ _ _ Hc) c Hc) as ([] & c1 & E1 & Hc1). exists tt, c1. split; [done|]. exists None. split_and!; [done|by left|lia].
    + exists tt, c. split; [done|]. exists None. split_and!; [done|by left|lia].
Qed.

Lemma show_error_alone T K sh now text : shown text -> preserves (alone T K sh) (show_network_error now text).
Proof.
  intros (t & Et & Ht) c Hc. unfold show_network_error, set_network_error. rewrite (M_bind_Ok get _ c c c) by done. rewrite Et. cbn [mbind result_bind].
  set (n := set_field _ _ _). exists tt, (c <| c_overlays := (c_overlays c) <| notifications := n |> |>). split; [done|]. apply alone_overlays; [|done]. destruct (al_overlays _ _ _ _ Hc). split; try done. by apply unicode_take.
Qed.

Lemma report_alone T K sh now : preserves (alone T K sh) (report_send_error now).
Proof.
  unfold report_send_error. apply triple_bind_get. intros c0 _. destruct (send_error (client_conn c0)) as [e|].
  - apply triple_seq; [apply show_error_alone, shown_sendto|]. intros _ c Hc. destruct (al_sender _ _ _ _ Hc) as (cur & L & Hs).
    eexists _, (c <| network := (network c) <| endpoint := (endpoint (network c)) <| conn := (client_conn c) <| send_error := None |> |> |> |>). split; [done|].
    eapply endpoint_alone; [exact Hc|lia| |apply Hc|by intros ?].
    apply conn_inv; [exact Hs|]. destruct Hs as (b & a & _ & _ & Hok). by apply (conn_ok_key (client_conn c)).
  - apply notifications_alone. intros n Hm. unfold clear_network_error. by destruct (message_is_network_error n).
Qed.

(** How an iteration at time [now] ends: the last one, or it may go on, but not
    long after the shutdown, and only with one long after the start. *)
Definition goes_on (quiet : Prop) (now : Z) sh sh' (r : result exn (option bool)) : Prop :=
  r = Ok (Some false) \/
  ((r = Ok None \/ exists e, r = Err e) /\
   (quiet -> (15000 < u64 (now - t0) -> sh' <> None) /\ forall ts, sh = Some ts -> now - ts < ACTIVE_RETRY_TIMEOUT)).

Definition iteration (quiet : Prop) T K sh (m : X STMClient (option bool)) c : Prop :=
  exists r c' sh', m c = Ok (r, c') /\ alone T (S K) sh' c' /\ later sh sh' /\ goes_on quiet T sh sh' r.

Lemma leave_alone T T' K sh quiet c : alone T K sh c -> T <= T' -> iteration quiet T' K sh leave c.
Proof.
  intros Hc HT. exists (Ok (Some (clean_shutdown c))), c, sh. split_and!; [done|by apply (alone_later T T' K (S K)); [|lia|]|by right|left]. by rewrite (al_unclean _ _ _ _ Hc).
Qed.

Lemma end_alone K sh env c : alone (ce_after env) K sh c -> 0 <= ce_after env < 2 ^ 64 -> Z.of_nat K < UINT64_MAX - 1 -> iteration True (ce_after env) K sh (client_end env) c.
Proof.
  intros Hc Hn HK. set (now := ce_after env) in *. unfold client_end. fold now. cbv zeta. unfold iteration. rewrite (X_bind_Ok (noexn get) _ c c c) by done. pose proof (al_unacked _ _ _ _ Hc) as (Hh & _ & Hl).
  assert (Ha : (if shutdown_in_progress (net_sender c) then lift (get_shutdown_acknowledged (net_sender c)) else mret false) c = Ok (false, c)).
  { destruct (shutdown_in_progress _); [|done]. unfold get_shutdown_acknowledged. destruct (sent_states (net_sender c)) as [|n l]; [done|]. injection Hh as Hh. cbn. by rewrite Hh. }
  rewrite (X_bind_Ok _ _ c false c) by (unfold noexn; by rewrite Ha).
  destruct (shutdown_in_progress (net_sender c) && shutdown_ack_timed_out now (net_sender c)) eqn:Eto; [by apply (leave_alone now)|].
  rewrite Hl. change (0 =? UINT64_MAX) with false. cbv iota.
  assert (Hts : forall ts, sh = Some ts -> now - ts < ACTIVE_RETRY_TIMEOUT).
  { intros ts ->. pose proof (al_since _ _ _ _ Hc ts eq_refl) as Hr. pose proof (al_shut _ _ _ _ Hc) as Hsh. unfold shut, shutdown_ack_timed_out in *.
    destruct (shutdown_in_progress (net_sender c)); [|done]. injection Hsh as Hsh. rewrite Hsh in Eto. cbn [andb] in Eto. apply orb_false_iff in Eto as [_ E%Z.leb_gt]. rewrite u64_id in E; [done|]. unfold is_u64. lia. }
  destruct (connecting_message_alone K sh now ltac:(lia) c Hc) as ([] & c1 & E1 & sh1 & Hc1 & Hl1 & Hd1). rewrite (X_bind_Ok _ _ c tt c1) by (unfold noexn; by rewrite E1).
  destruct (tick_alone now K sh1 env c1 Hc1 ltac:(done) Hn HK) as ([[]|e] & c2 & E2 & Hc2).
  - rewrite (X_bind_Ok _ _ _ _ _ E2). destruct (report_alone now (S K) sh1 now c2 Hc2) as ([] & c3 & E3 & Hc3). rewrite (X_bind_Ok _ _ c2 tt c3) by (unfold noexn; by rewrite E3).
    exists (Ok None), c3, sh1. split_and!; [done..|]. right. split; [by left|done].
  - rewrite (X_bind_Err _ _ _ _ _ E2). exists (Err e), c2, sh1. split_and!; [done..|]. right. split; [right; by exists e|done].
Qed.

Lemma network_alone T K sh env c : alone T K sh c -> (forall fd, forged s0 (ce_recvmsg env fd)) ->
  exists e, process_network_input (ce_after env) (ce_recvmsg env) c = Ok (Err e, c) /\ e <> CryptoException true.
Proof.
  intros Hc Hf. destruct (al_sender _ _ _ _ Hc) as (cur & L & b & a & _ & _ & Hok & _).
  destruct (recv_forged (ce_after env) (ce_recvmsg env) (client_conn c) Hok) as (e & E & He).
  { intros fd. apply (forged_key s0); [by rewrite (al_key _ _ _ _ Hc)|apply Hf]. }
  exists e. split; [|done]. unfold process_network_input. apply X_bind_Err.
  assert (Et : transport_recv (ce_after env) (ce_recvmsg env) (network c) = Ok (Err e, network c)).
  { unfold transport_recv. apply X_bind_Err. unfold on_connection, on_conn, zoom. unfold client_conn in E. rewrite E. destruct (network c) as [[]]. done. }
  unfold zoom. rewrite Et. by destruct c.
Qed.

Lemma turn_iteration {A} now K sh (quiet : Prop) (m : M STMClient A) (k : A -> X STMClient (option bool)) c :
  triple (alone now K sh) m (fun _ => turned now K sh) -> alone now K sh c ->
  (forall a sh' c', alone now K sh' c' -> iteration quiet now K sh' (k a) c') -> iteration quiet now K sh (noexn m ≫= k) c.
Proof.
  intros Hm Hc Hk. destruct (Hm c Hc) as (a & c1 & E & sh1 & Hc1 & Hl1). unfold iteration. rewrite (X_bind_Ok _ _ c a c1) by (unfold noexn; by rewrite E).
  destruct (Hk a sh1 c1 Hc1) as (r & c' & sh' & Er & Hc' & Hl' & Hr). exists r, c', sh'. split_and!; [done..|by eapply later_trans|].
  destruct Hr as [->|(Hr & Hq)]; [by left|right]. split; [done|]. intros Hq0. destruct (Hq Hq0) as [H1 H2]. split; [done|]. intros ts ->. apply H2. by destruct Hl1 as [|Hl1].
Qed.

Lemma iteration_quiet (quiet quiet' : Prop) T K sh m c : (quiet -> quiet') -> iteration quiet' T K sh m c -> iteration quiet T K sh m c.
Proof.
  intros Hq (r & c' & sh' & Er & Hc' & Hl' & Hr). exists r, c', sh'. split_and!; [done..|]. destruct Hr as [->|(Hr & H)]; [by left|right]. auto.
Qed.

Lemma try_alone T K sh env c : alone T K sh c -> client_env_ok T env -> 0 <= T -> Z.of_nat K < UINT64_MAX - 1 ->
  iteration (ce_network env = false) (ce_after env) K sh (client_try env) c.
Proof.
  intros Hc Hev HT HK. pose proof Hev as [Hb Ha Hsec Hf _ Hw]. unfold client_try, iteration.
  destruct (output_alone T K sh (ce_before env) (ce_addr_local env) (ce_addr_new env) Hsec c Hc) as ([] & c1 & E1 & Hc1). rewrite (X_bind_Ok _ _ c tt c1) by (unfold noexn; by rewrite E1).
  destruct (client_wait_alone T K sh (ce_before env) ltac:(lia) ltac:(lia) c1 Hc1) as (wt & c2 & E2 & Hc2). rewrite (X_bind_Ok _ _ c1 wt c2) by (unfold noexn; by rewrite E2).
  apply (alone_later (ce_before env) (ce_after env) K K sh c2 ltac:(lia) ltac:(lia)) in Hc2.
  destruct (ce_select_ok env); cbn [negb]; [|by apply (leave_alone (ce_after env))].
  destruct (ce_network env).
  { destruct (network_alone _ _ _ env c2 Hc2 Hf) as (e & E & _). rewrite (X_bind_Err _ _ _ _ _ E). exists (Err e), c2, sh.
    split_and!; [done|by apply (alone_later (ce_after env) _ K); [|lia|]|by right|]. right. split; [right; by exists e|done]. }
  rewrite (X_bind_Ok (mret tt) _ c2 tt c2) by done. apply (iteration_quiet _ True); [done|]. apply turn_iteration; [by apply (user_turn_alone T)|done|]. intros quit sh3 c3 Hc3.
  destruct quit; [by apply (leave_alone (ce_after env))|].
  apply turn_iteration; [apply turned_keeps; destruct (ce_winch env); [by apply resize_alone|by apply triple_ret]|done|]. intros resized sh4 c4 Hc4.
  destruct resized; cbn [negb].
  2:{ exists (Ok (Some false)), c4, sh4. split_and!; [done|by apply (alone_later (ce_after env) _ K); [|lia|]|by right|by left]. }
  apply turn_iteration; [by apply (signal_turn_alone T)|done|]. intros quit sh5 c5 Hc5. destruct quit; [by apply (leave_alone (ce_after env))|]. apply end_alone; [done|lia|done].
Qed.

(** ** Iterations *)

(** The loop ends, or goes on; it never says that it ended cleanly. *)
Definition step_result (quiet : Prop) (now : Z) sh sh' (r : result exn (option bool)) : Prop :=
  r = Ok (Some false) \/ r = Err (CryptoException true) \/
  (r = Ok None /\ (quiet -> (15000 < u64 (now - t0) -> sh' <> None) /\ forall ts, sh = Some ts -> now - ts < ACTIVE_RETRY_TIMEOUT)).

Lemma step_alone T K sh env c : alone T K sh c -> client_env_ok T env -> 0 <= T -> Z.of_nat K < UINT64_MAX - 1 ->
  exists r c' sh', client_step env c = Ok (r, c') /\ alone (ce_after env) (S K) sh' c' /\ later sh sh' /\ step_result (ce_network env = false) (ce_after env) sh sh' r.
Proof.
  intros Hc Hev HT HK. destruct (try_alone T K sh env c Hc Hev HT HK) as (r & c1 & sh1 & E & Hc1 & Hl & Hr). unfold client_step. rewrite E.
  destruct Hr as [->|([->|[e ->]] & Hq)]; [exists (Ok (Some false)), c1, sh1; split_and!; [done..|by left]|exists (Ok None), c1, sh1; split_and!; [done..|by right; right]|].
  destruct e as [[]|e].
  - exists (Err (CryptoException true)), c1, sh1. split_and!; [done..|by right; left].
  - destruct (shown_what (CryptoException false)) as (t & Et & Ht). rewrite Et.
    assert (Hu : unicode (swprintf (str "Crypto exception: " ++ t))) by (apply unicode_take, Forall_app; split; [apply unicode_str|done]).
    destruct (notify_alone _ _ _ (ce_after env) _ false true Hu c1 Hc1) as ([] & c2 & E2 & Hc2). exists (Ok None), c2, sh1. split_and!; [|done..|by right; right].
    unfold noexn. rewrite (M_bind_Ok (lift (Ok t)) _ c1 t c1) by done. by rewrite (M_bind_Ok _ _ _ _ _ E2).
  - destruct (triple_when _ (negb (shutdown_in_progress (net_sender c1))) _ (fun _ => show_error_alone _ (S K) sh1 (ce_after env) _ (shown_what (NetworkException e))) c1 Hc1) as ([] & c2 & E2 & Hc2).
    exists (Ok None), c2, sh1. split_and!; [|done..|by right; right]. unfold noexn. by rewrite (M_bind_Ok _ _ _ _ _ E2).
Qed.

(** The clock does not go back. *)
Fixpoint client_envs_ok T (envs : list ClientEnv) : Prop :=
  match envs with [] => True | env :: envs' => client_env_ok T env /\ client_envs_ok (ce_after env) envs' end.
Fixpoint last_time T (envs : list ClientEnv) : Z := match envs with [] => T | env :: envs' => last_time (ce_after env) envs' end.

Definition loop_end (r : result exn (option bool)) : Prop := r = Ok (Some false) \/ r = Err (CryptoException true).

Lemma client_envs_app T l1 l2 : client_envs_ok T (l1 ++ l2) <-> client_envs_ok T l1 /\ client_envs_ok (last_time T l1) l2.
Proof. revert T. induction l1 as [|env l1 IH]; intros T; cbn; [tauto|]. rewrite IH. tauto. Qed.
Lemma last_time_later T envs : client_envs_ok T envs -> T <= last_time T envs.
Proof. revert T. induction envs as [|env envs IH]; intros T; cbn; [lia|]. intros [[Hb _ _ _ _ _] H]. specialize (IH _ H). lia. Qed.

Lemma loop_alone envs : forall T K sh c, alone T K sh c -> client_envs_ok T envs -> 0 <= T -> Z.of_nat (K + length envs) < UINT64_MAX ->
  exists r c' sh' T', client_loop envs c = Ok (r, c') /\ alone T' (K + length envs) sh' c' /\ (loop_end r \/ (r = Ok None /\ T' = last_time T envs /\ later sh sh')).
Proof.
  induction envs as [|env envs IH]; intros T K sh c Hc Hevs HT HK; cbn [client_loop length] in *.
  { exists (Ok None), c, sh, T. rewrite Nat.add_0_r. split_and!; [done..|]. right. split_and!; [done..|by right]. }
  destruct Hevs as [Hev Hevs]. destruct (step_alone T K sh env c Hc Hev HT ltac:(lia)) as (r & c1 & sh1 & E & Hc1 & Hl1 & Hr). pose proof (ev_before _ _ Hev) as Hb.
  assert (Hend : loop_end r -> exists r' c' sh' T', (r ← client_step env; match r with Some b => mret (Some b) | None => client_loop envs end : X _ _) c = Ok (r', c') /\
    alone T' (K + S (length envs)) sh' c' /\ (loop_end r' \/ (r' = Ok None /\ T' = last_time T (env :: envs) /\ later sh sh'))).
  { intros Hd. exists r, c1, sh1, (ce_after env). split_and!; [|by apply (alone_later (ce_after env) _ (S K)); [|lia|]|by left].
    destruct Hd as [->| ->]; [by rewrite (X_bind_Ok _ _ _ _ _ E)|by rewrite (X_bind_Err _ _ _ _ _ E)]. }
  destruct Hr as [->|[->|[-> _]]]; [apply Hend; by left|apply Hend; by right|]. rewrite (X_bind_Ok _ _ _ _ _ E).
  destruct (IH (ce_after env) (S K) sh1 c1 Hc1 Hevs ltac:(lia) ltac:(lia)) as (r & c' & sh' & T' & E' & Hc' & Hr). exists r, c', sh', T'. split; [done|]. split; [by rewrite Nat.add_succ_r|].
  destruct Hr as [Hr|(-> & -> & Hl')]; [by left|right]. split_and!; [done..|by eapply later_trans].
Qed.

Lemma client_loop_app l1 l2 c r c' : client_loop l1 c = Ok (r, c') ->
  client_loop (l1 ++ l2) c = match r with Ok None => client_loop l2 c' | _ => Ok (r, c') end.
Proof.
  revert c. induction l1 as [|env l1 IH]; intros c; cbn [client_loop app]; [by intros [= <- <-]|].
  intros [(e & E & ->)|(x & c1 & E1 & E2)]%xbind_inv; [by rewrite (X_bind_Err _ _ _ _ _ E)|]. rewrite (X_bind_Ok _ _ _ _ _ E1). destruct x; [by apply xret_inv in E2 as [-> ->]|by apply IH].
Qed.

(** A quiet iteration late after the start, and one long after it. *)
Lemma loop_gives_up l1 e1 l2 e2 T c : alone T 0 None c -> client_envs_ok T (l1 ++ e1 :: l2 ++ [e2]) -> 0 <= T -> Z.of_nat (length (l1 ++ e1 :: l2 ++ [e2])) < UINT64_MAX ->
  ce_network e1 = false -> ce_network e2 = false -> 15000 < u64 (ce_after e1 - t0) -> ACTIVE_RETRY_TIMEOUT <= ce_after e2 - ce_after e1 ->
  exists r c', client_loop (l1 ++ e1 :: l2 ++ [e2]) c = Ok (r, c') /\ loop_end r.
Proof.
  intros Hc Hevs HT HK N1 N2 H1 H2. rewrite length_app in HK. cbn [length] in HK. rewrite length_app in HK. cbn [length] in HK.
  apply client_envs_app in Hevs as [Hv1 [Hv2 [Hv3 [Hv4 _]]%client_envs_app]]. pose proof (last_time_later _ _ Hv1) as L1. pose proof (last_time_later _ _ Hv3) as L3. pose proof (ev_before _ _ Hv2) as B2.
  destruct (loop_alone l1 T 0 None c Hc Hv1 HT ltac:(lia)) as (r & c1 & sh1 & T1 & E1 & Hc1 & Hr1). rewrite (client_loop_app _ _ _ _ _ E1).
  destruct Hr1 as [[->| ->]|(-> & -> & _)]; [eexists _, _; split; [done|by left]|eexists _, _; split; [done|by right]|]. cbn [client_loop].
  destruct (step_alone _ _ sh1 e1 c1 Hc1 Hv2 ltac:(lia) ltac:(lia)) as (r & c2 & sh2 & E2 & Hc2 & _ & Hr2).
  destruct Hr2 as [->|[->|[-> Hq]]]; [rewrite (X_bind_Ok _ _ _ _ _ E2); eexists _, _; split; [done|by left]|rewrite (X_bind_Err _ _ _ _ _ E2); eexists _, _; split; [done|by right]|].
  rewrite (X_bind_Ok _ _ _ _ _ E2). destruct (Hq N1) as [Hs _]. destruct sh2 as [ts|]; [|by destruct (Hs H1)]. pose proof (al_since _ _ _ _ Hc2 ts eq_refl) as Hts.
  destruct (loop_alone l2 (ce_after e1) _ _ c2 Hc2 Hv3 ltac:(lia) ltac:(lia)) as (r & c3 & sh3 & T3 & E3 & Hc3 & Hr3). rewrite (client_loop_app _ _ _ _ _ E3).
  destruct Hr3 as [[->| ->]|(-> & -> & [?|Hl])]; [eexists _, _; split; [done|by left]|eexists _, _; split; [done|by right]|done|]. cbn [client_loop].
  destruct (step_alone _ _ sh3 e2 c3 Hc3 Hv4 ltac:(lia) ltac:(lia)) as (r & c4 & sh4 & E4 & Hc4 & _ & Hr4).
  destruct Hr4 as [->|[->|[-> Hq4]]]; [rewrite (X_bind_Ok _ _ _ _ _ E4); eexists _, _; split; [done|by left]|rewrite (X_bind_Err _ _ _ _ _ E4); eexists _, _; split; [done|by right]|].
  destruct (Hq4 N2) as [_ Hend]. specialize (Hend ts Hl). lia.
Qed.
End alone.

(** ** From the start of the program *)

Definition quit_text (cs : ClientSetup) : bytes :=
  match (init_escape_key (cs_escape_key cs) EscapeKey_new).2 with
  | Some name => snprintf 128 (str " [To quit: " ++ c_str name ++ str " .]")
  | None => []
  end.

(** A known mode of prediction, and texts the locale can show. *)
Record setup_ok `{Libc} (cs : ClientSetup) : Prop := {
  se_mode : forall m, cs_predict_mode cs = Some m -> predict_mode_of m <> None;
  se_port : shown (cs_port cs);
  se_key : forall t, cs_escape_key cs = Some t -> Forall is_u8 t;
  se_quit : shown (c_str (quit_text cs)) }.

Section start.
Context `{HL : Libc} `{HLL : !LibcLaws} `{HM : Messages} `{HML : !MessagesLaws} `{HUC : UserCodec} `{HUL : !UserCodecLaws}.
Context `{HSC : SyncState Complete} `{HAE : AE} `{HAL : !AELaws} `{HTC : TransportCodec} `{HTL : !TransportCodecLaws}.

Lemma preferences_ok cs p : setup_ok cs -> (exists w0 h0, pe_inv w0 h0 p) ->
  exists p', set_preferences (cs_predict_mode cs) (cs_predict_overwrite cs) p = Some p' /\ exists w0 h0, pe_inv w0 h0 p'.
Proof.
  intros Hs (w0 & h0 & Hp). unfold set_preferences.
  assert (H1 : exists p1, match cs_predict_mode cs with Some m => x ← predict_mode_of m; Some (set_display_preference x p) | None => Some p end = Some p1 /\ pe_inv w0 h0 p1).
  { pose proof (se_mode _ Hs) as Hm. destruct (cs_predict_mode cs) as [m|]; [|by exists p]. specialize (Hm m eq_refl). destruct (predict_mode_of m) as [x|]; [|done].
    eexists. split; [done|]. by destruct Hp. }
  destruct H1 as (p1 & -> & Hp1). eexists. split; [done|]. exists w0, h0. case_bool_decide; [|done]. by destruct Hp1.
Qed.

Lemma help_unicode cs : setup_ok cs -> unicode (escape_key_help (init_escape_key (cs_escape_key cs) EscapeKey_new).1).
Proof.
  intros Hs. pose proof (chosen_key _ EscapeKey_new (se_key _ Hs)) as H. cbv zeta in H. unfold init_escape_key. cbv zeta.
  set (e2 := if forbidden_escape _ then _ else _) in *.
  assert (Eh : escape_key_help e2 = str "?").
  { subst e2. unfold parse_escape_key. by repeat case_match. }
  destruct (0 <? escape_key e2) eqn:E0; [|cbn [fst]; rewrite Eh; apply unicode_str]. apply Z.ltb_lt in E0.
  destruct H as [[H _]|(Hk & _ & _ & Hp & _)]; [lia|]. assert (Hsc : forall z, 0 <= z < 256 -> is_scalar z = true) by (intros z Hz; unfold is_scalar, is_surrogate; lia).
  assert (Hpass : is_scalar (escape_pass_key e2) = true) by (apply Hsc; destruct (Z.ltb_spec (escape_key e2) 32); lia). assert (Hkey : is_scalar (escape_key e2) = true) by (apply Hsc; lia).
  assert (Hq : forall z, is_scalar z = true -> unicode (quoted z)) by (intros z Hz; apply unicode_take; by repeat constructor).
  cbn [fst escape_key_help set_field]. repeat (apply Forall_app; split); try apply unicode_str; [by repeat constructor|by apply Hq|]. destruct (_ <? 32); [|by apply Hq].
  apply unicode_take, Forall_app. split; [apply unicode_str|by apply Forall_singleton].
Qed.

Lemma blank_screen w h : (MB_CUR_MAX <= BUF_SIZE)%nat -> 0 < w -> 0 < h ->
  exists k, Complete_new w h 0 = Ok k /\ Framebuffer_new w h 0 = Ok (get_fb k) /\ canvas w h (MkScreen 0 (get_fb k)).
Proof.
  intros Hmb Hw Hh. unfold Complete_new, Emulator_new, Framebuffer_new, UTF8Parser_new. rewrite bool_decide_true by done. cbn [mbind result_bind].
  rewrite (proj2 (Z.ltb_lt 0 h)), (proj2 (Z.ltb_lt 0 w)) by done. cbn [andb]. eexists. split; [done|]. split; [done|]. split; [|done]. split; [|done..].
  split; try done. cbn. split; [by apply lenZ_replicate; lia|]. apply Forall_replicate. unfold row_len. cbn. apply lenZ_replicate. lia.
Qed.

Lemma start_alone now c cs w h : (MB_CUR_MAX <= BUF_SIZE)%nat -> conn_ok c -> setup_ok cs -> 0 <= now -> 0 < w < 2 ^ 16 -> 0 < h < 2 ^ 16 ->
  exists cl k, STMClient_start now c cs (Some (w, h)) = Ok (Some cl) /\ canvas w h (MkScreen 0 (get_fb k)) /\ alone now w h k (session c) now 0 None cl.
Proof.
  intros Hmb Hc Hs Hn Hw Hh. destruct (blank_screen w h Hmb ltac:(lia) ltac:(lia)) as (k & Ek & Ef & Hk). destruct (pe_new_ok Hmb) as (p & Ep & Hp).
  unfold STMClient_start, OverlayManager_new. rewrite Ep. cbn [mbind result_bind predictions].
  destruct (preferences_ok cs p Hs ltac:(by exists 0, 0)) as (p' & Ep' & Hp'). rewrite Ep'. pose proof (help_unicode cs Hs) as Hhelp. pose proof (se_quit _ Hs) as Hq. unfold quit_text in Hq.
  destruct (init_escape_key (cs_escape_key cs) EscapeKey_new) as [e key_name]. cbn [fst snd] in Hhelp, Hq. destruct (se_port _ Hs) as (t & Et & Ht). rewrite Et, Ef. cbn [mbind result_bind].
  destruct (new_frame_ok (cs_display cs) false w h w h (get_fb k) (get_fb k) (cs_addr cs) (cs_addr cs) 0) as (i & Ei); [apply Hk|apply Hk|]. rewrite Ei, Ek. cbn [mbind result_bind].
  eexists _, k. split; [done|]. split; [done|]. split; try done.
  - assert (Hev : event_wf (ResizeEvent w h)) by (cbn; lia).
    pose proof (sinv_new (S := UserStream) (HLaws := UserStream_laws) now c ([] : UserStream) [] ([] : UserStream) Hn ltac:(by split) Hc) as Hnew.
    apply (sinv_kernel _ _ _ _ (MkEndpoint (set_send_delay 1 (TransportSender_new now ([] : UserStream))) c)) in Hnew; [|done..].
    eexists _, _. exact (edit_inv _ _ _ _ _ _ Hnew (extends_push (ResizeEvent w h) _ Hev) eq_refl).
  - apply Hk.
  - split; cbn; unfold init_overlays; destruct key_name, (cs_title_noprefix cs); try done; apply unicode_str.
  - cbn [connecting_notification]. apply unicode_take, Forall_app. split; [apply unicode_str|]. apply Forall_app. split; [done|apply unicode_str].
Qed.

(** C34. A client whose server never answers.  From the start of the program,
    whatever is typed and pasted, however the window changes, whatever signals
    come and whatever datagrams arrive that are not made with its key, every
    iteration of the loop returns: no assertion fails, no exception is left
    uncaught but that of a cipher that has reached its limit of blocks, frames
    of the size of the window are drawn, and the sender never faults.  Nothing
    is taken for a state of the server, and the client never says that the
    session ended cleanly. *)
Theorem client_alone now c cs w h envs :
  (MB_CUR_MAX <= BUF_SIZE)%nat -> conn_ok c -> setup_ok cs -> 0 <= now -> 0 < w < 2 ^ 16 -> 0 < h < 2 ^ 16 ->
  client_envs_ok now (session c) now envs -> Z.of_nat (length envs) < UINT64_MAX ->
  exists cl r cl', STMClient_start now c cs (Some (w, h)) = Ok (Some cl) /\ client_loop envs cl = Ok (r, cl') /\
    (r = Ok None \/ r = Ok (Some false) \/ r = Err (CryptoException true)) /\
    received_states (network cl') = received_states (network cl) /\ clean_shutdown cl' = false /\ screen_ok w h (local_framebuffer cl').
Proof.
  intros Hmb Hc Hs Hn Hw Hh Hevs HK. destruct (start_alone now c cs w h Hmb Hc Hs Hn Hw Hh) as (cl & k & E & Hk & Hcl).
  destruct (loop_alone now w h k (session c) Hk envs now 0 None cl Hcl Hevs Hn HK) as (r & cl' & sh & T & El & Hcl' & Hr). exists cl, r, cl'.
  split_and!; [done|done| |by rewrite (al_received _ _ _ _ _ _ _ _ _ Hcl'), (al_received _ _ _ _ _ _ _ _ _ Hcl)|apply Hcl'|apply Hcl'].
  destruct Hr as [[->| ->]|[-> _]]; auto.
Qed.

(** C37. It gives up.  Whatever happened before and between, an iteration
    without a datagram more than 15 seconds after the start, and another ten
    seconds after it, end the loop. *)
Theorem client_gives_up now c cs w h l1 e1 l2 e2 :
  (MB_CUR_MAX <= BUF_SIZE)%nat -> conn_ok c -> setup_ok cs -> 0 <= now -> 0 < w < 2 ^ 16 -> 0 < h < 2 ^ 16 ->
  client_envs_ok now (session c) now (l1 ++ e1 :: l2 ++ [e2]) -> Z.of_nat (length (l1 ++ e1 :: l2 ++ [e2])) < UINT64_MAX ->
  ce_network e1 = false -> ce_network e2 = false -> 15000 < ce_after e1 - now -> ACTIVE_RETRY_TIMEOUT <= ce_after e2 - ce_after e1 ->
  exists cl r cl', STMClient_start now c cs (Some (w, h)) = Ok (Some cl) /\ client_loop (l1 ++ e1 :: l2 ++ [e2]) cl = Ok (r, cl') /\
    (r = Ok (Some false) \/ r = Err (CryptoException true)).
Proof.
  intros Hmb Hc Hs Hn Hw Hh Hevs HK N1 N2 H1 H2. destruct (start_alone now c cs w h Hmb Hc Hs Hn Hw Hh) as (cl & k & E & Hk & Hcl).
  assert (Hu : 15000 < u64 (ce_after e1 - now)).
  { pose proof Hevs as [_ [Hv _]]%client_envs_app. pose proof (ev_after _ _ _ _ Hv). rewrite u64_id; [done|]. unfold is_u64. lia. }
  destruct (loop_gives_up now w h k (session c) Hk l1 e1 l2 e2 now cl Hcl Hevs Hn HK N1 N2 Hu H2) as (r & cl' & El & Hr). by exists cl, r, cl'.
Qed.
End start.

(** ** A client nobody answers *)

#[export] Instance sample_messages : Messages := {| what _ := str "error"; sendto_text _ := str "sendto" |}.
#[export] Instance sample_messages_ok : MessagesLaws.
Proof. split; intros e; (eexists; split; [vm_compute; reflexivity|apply unicode_octets; repeat first [apply Forall_nil_2|apply Forall_cons_2; [lia|]]]). Qed.

Definition sample_setup : ClientSetup := MkClientSetup (str "60001") None None false None Display_default [].
(** A key is typed and the window changes; a datagram, if there is one, has no
    packet in it. *)
Definition sample_turn (now : Z) (readable : bool) : ClientEnv :=
  MkClientEnv now now true readable (fun _ => RecvDatagram (seqZ 0 30) [1; 2] false true) (Some [97]) true (Some (7, 3)) false false SenderSpec.sample_env [] [].
#[local] Instance sample_remote : SyncState Complete := CompleteSync (fun _ => seqZ 0 24).

Lemma sample_setup_ok : setup_ok sample_setup.
Proof. split; [done| |done|]; (eexists; split; [vm_compute; reflexivity|apply unicode_octets; repeat first [apply Forall_nil_2|apply Forall_cons_2; [lia|]]]). Qed.

Lemma sample_turn_ok T now readable t : T <= now < 2 ^ 64 -> int_of_double (elapsed now 1000) = Ok t -> 0 <= t ->
  client_env_ok 1000 (session sample_conn) T (sample_turn now readable).
Proof.
  intros Hn Ht H0. split; cbn; [lia|lia|by exists t| |by apply Forall_singleton|lia]. intros fd. split; [done|]. exists (CryptoException false). vm_compute. reflexivity.
Qed.

Lemma quiet_conn_ok : conn_ok sample_conn.
Proof. split; [done|]. split; [done|]. cbn. unfold DEFAULT_SEND_MTU. lia. Qed.

(** Noise, a key, and then nothing for 16 and 26 seconds. *)
Definition sample_quiet : list ClientEnv := [sample_turn 1010 true; sample_turn 1300 false] ++ sample_turn 17000 false :: [sample_turn 18000 false] ++ [sample_turn 27000 false].
Lemma sample_quiet_ok : client_envs_ok 1000 (session sample_conn) 1000 sample_quiet.
Proof. cbn [client_envs_ok sample_quiet app]. split_and!; [eapply sample_turn_ok; [done|vm_compute; reflexivity|done]..|done]. Qed.

Lemma client_alone_witness :
  exists cl r cl', STMClient_start 1000 sample_conn sample_setup (Some (6, 2)) = Ok (Some cl) /\ client_loop sample_quiet cl = Ok (r, cl') /\
    (r = Ok None \/ r = Ok (Some false) \/ r = Err (CryptoException true)) /\
    received_states (network cl') = received_states (network cl) /\ clean_shutdown cl' = false /\ screen_ok 6 2 (local_framebuffer cl').
Proof.
  apply (client_alone 1000 sample_conn sample_setup 6 2 sample_quiet); [vm_compute; lia|apply quiet_conn_ok|apply sample_setup_ok|lia|lia|lia|apply sample_quiet_ok|by vm_compute].
Defined.

Lemma client_gives_up_witness :
  exists cl r cl', STMClient_start 1000 sample_conn sample_setup (Some (6, 2)) = Ok (Some cl) /\ client_loop sample_quiet cl = Ok (r, cl') /\
    (r = Ok (Some false) \/ r = Err (CryptoException true)).
Proof.
  apply (client_gives_up 1000 sample_conn sample_setup 6 2 [sample_turn 1010 true; sample_turn 1300 false] (sample_turn 17000 false) [sample_turn 18000 false] (sample_turn 27000 false));
    [vm_compute; lia|apply quiet_conn_ok|apply sample_setup_ok|lia|lia|lia|apply sample_quiet_ok|by vm_compute|done|done|by vm_compute|by vm_compute].
Defined.

(** The run: the keys and then the shutdown are sent, the user is told, and the
    last iteration ends the loop. *)
Example sample_client_run :
  match STMClient_start 1000 sample_conn sample_setup (Some (6, 2)) with
  | Ok (Some cl) =>
      match client_loop sample_quiet cl with
      | Ok (Ok r, cl') => (r, message (notifications (c_overlays cl')), (fun i => (old_num i, new_num i)) <$> instructions (net_sender cl'))
      | _ => (None, [], [])
      end
  | _ => (None, [], [])
  end = (Some false, str "Timed out waiting for server...", [(0, 1); (0, UINT64_MAX); (0, UINT64_MAX)]).
Proof. vm_compute. reflexivity. Qed.

(** Datagrams that do not decrypt take whole iterations: the keys are not read,
    nothing is sent, and the time to give up passes unnoticed. *)
Example noise_takes_iterations :
  match STMClient_start 1000 sample_conn sample_setup (Some (6, 2)) with
  | Ok (Some cl) =>
      match client_loop ((fun t => sample_turn t true) <$> [1010; 1300; 17000; 18000; 27000; 60000]) cl with
      | Ok (Ok r, cl') => (r, current_state (net_sender cl'), instructions (net_sender cl'))
      | _ => (Some true, [], [])
      end
  | _ => (Some true, [], [])
  end = (None, [ResizeEvent 6 2], []).
Proof. vm_compute. reflexivity. Qed.

(** Without the size of the window the network is missing, and an empty window
    fails an assertion. *)
Example no_window : STMClient_start 1000 sample_conn sample_setup None = Err Undefined.
Proof. vm_compute. reflexivity. Qed.
Example empty_window : STMClient_start 1000 sample_conn sample_setup (Some (0, 0)) = Err AssertFail.
Proof. vm_compute. reflexivity. Qed.
