(* ===== verification/Server.v ===== *)
(** * The server program (frontend/mosh-server.cc)

    The loop [serve] of mosh-server: one iteration as a function of what the
    system calls of the iteration return.  The records for syslog and utmp and
    the diagnostics on the standard error are left out. *)
From S2P Require Export Complete Transport.

(** ** [swrite] (util/swrite.cc) *)

(** [writes] are the values [write] returns, one that is not there is the
    number of octets asked for; the octets written and the result. *)
Fixpoint swrite_loop (writes : list Z) (s : bytes) : bytes * Z :=
  if bool_decide (s = []) then ([], 0) else
  match writes with
  | [] => (s, 0)
  | n :: writes' =>
      if n <=? 0 then ([], -1) else
      let '(out, r) := swrite_loop writes' (drop (Z.to_nat n) s) in
      (take (Z.to_nat n) s ++ out, r)
  end.

(** ** The state of the loop *)

(** [to_pty] is what was written to the host, [window_sizes] the sizes set on
    its terminal. *)
Record Server : Type := MkServer {
  s_terminal : Complete; s_network : Transport Complete UserStream; last_remote_num : Z; child_released : bool;
  to_pty : bytes; window_sizes : list (Z * Z) }.
#[export] Instance eta_Server : Eta Server :=
  fun s => MkServer (s_terminal s) (s_network s) (last_remote_num s) (child_released s) (to_pty s) (window_sizes s).

(** What the system does during an iteration: the times before and after
    [select], the descriptors that are readable, the signals, and what the
    calls return. *)
Record ServeEnv : Type := MkServeEnv {
  time_before : Z; time_after : Z; select_ok : bool;
  network_readable : bool; recvmsg_env : Z -> recvmsg_result;
  host_readable : bool; host_read : option bytes;
  get_window_ok : nat -> bool; set_window_ok : nat -> bool; host_writes : list Z;
  signal_USR1 : bool; any_signal : bool; tick_env : TickEnv }.

Definition server_sender (s : Server) : TransportSender Complete := sender (endpoint (s_network s)).

Definition on_s_terminal {A} (m : M Complete A) : M Server A := zoom s_terminal (fun t s => s <| s_terminal := t |>) m.
Definition on_s_network {A} (m : M (Transport Complete UserStream) A) : M Server A := zoom s_network (fun t s => s <| s_network := t |>) m.
Definition on_s_endpoint {A} (m : M (Endpoint Complete) A) : M Server A := on_s_network (on_endpoint m).
Definition s_start_shutdown (now : Z) : M Server unit := on_s_endpoint (on_sender (modify (start_shutdown now))).

Section serve.
Context `{Libc} `{SyncState Complete} `{UserCodec} `{AE} `{TransportCodec}.

(** [network.set_current_state( terminal )]. *)
Definition publish : M Server unit :=
  t ← gets s_terminal;
  on_s_endpoint (on_sender (set_current_state t)).
Definition publish_unless_shutdown : M Server unit :=
  s ← get;
  if shutdown_in_progress (server_sender s) then mret tt else publish.

(** The time that [select] may take. *)
Definition idle_since (now : Z) (s : Server) : result fault Z :=
  r ← get_latest_remote_state (s_network s); Ok (u64 (now - r_timestamp r)).
Definition i64 (z : Z) : Z := (z + 2 ^ 63) mod 2 ^ 64 - 2 ^ 63.
Definition network_sleep (network_timeout_ms idle : Z) : Z :=
  let s := i64 (u64 (network_timeout_ms - idle)) in
  if s <? 0 then 0 else if INT_MAX <? s then INT_MAX else s.
Definition select_timeout (network_timeout_ms now : Z) : M Server Z :=
  w ← on_s_endpoint (wait_time now);
  s ← get;
  let t := Z.min (Z.min INT_MAX w) (complete_wait_time now (s_terminal s)) in
  n ← lift (get_remote_state_num (s_network s));
  let t := if (n =? 0) || shutdown_in_progress (server_sender s) then Z.min t 5000 else t in
  idle ← lift (idle_since now s);
  mret (if network_timeout_ms =? 0 then t else Z.min t (network_sleep network_timeout_ms idle)).

(** The events of a difference, the [i]-th of them first: a resize that another
    one follows is passed over. *)
Definition tell_size (env : ServeEnv) (i : nat) (w h : Z) : M Server unit :=
  when_ (negb (get_window_ok env i)) (s_start_shutdown (time_after env)) ;;
  if set_window_ok env i then modify (fun s => s <| window_sizes := window_sizes s ++ [(u16 w, u16 h)] |>)
  else s_start_shutdown (time_after env).
Fixpoint apply_events (env : ServeEnv) (i : nat) (us : UserStream) : M Server bytes :=
  match us with
  | [] => mret []
  | ResizeEvent _ _ :: ((ResizeEvent _ _ :: _) as us') => apply_events env (S i) us'
  | ResizeEvent w h :: us' =>
      tell_size env i w h ;;
      out ← on_s_terminal (act_one (MkAction (Resize w h) 0 false));
      out' ← apply_events env (S i) us';
      mret (out ++ out')
  | UserByteEvent c :: us' =>
      out ← on_s_terminal (act_one (MkAction (UserByte c) 0 false));
      out' ← apply_events env (S i) us';
      mret (out ++ out')
  end.

Definition network_recv (env : ServeEnv) : X Server unit :=
  zoom s_network (fun t s => s <| s_network := t |>) (transport_recv (time_after env) (recvmsg_env env)).
Definition network_tick (env : ServeEnv) : X Server unit :=
  zoom s_network (fun t s => s <| s_network := t |>) (zoom endpoint (fun e t => t <| endpoint := e |>) (tick (time_after env) (tick_env env))).

(** A datagram: what the terminal has for the host when there is a new state. *)
Definition serve_network (env : ServeEnv) : X Server bytes :=
  network_recv env ;;
  s ← noexn get;
  n ← noexn (lift (get_remote_state_num (s_network s)));
  if n =? last_remote_num s then mret [] else
  noexn (modify (fun s => s <| last_remote_num := n |>)) ;;
  d ← noexn (on_s_network get_remote_diff);
  us ← noexn (lift (stream_apply_string d []));
  out ← noexn (apply_events env 0 us);
  noexn (when_ (negb (bool_decide (us = []))) (modify (fun s => s <| s_terminal := register_input_frame n (time_after env) (s_terminal s) |>))) ;;
  noexn publish_unless_shutdown ;;
  noexn (modify (fun s => s <| child_released := true |>)) ;;
  mret out.

(** Output of the host: an error is taken as the end of the file. *)
Definition serve_host (env : ServeEnv) : M Server bytes :=
  s ← get;
  if negb (shutdown_in_progress (server_sender s)) && host_readable env then
    match host_read env with
    | None | Some [] => s_start_shutdown (time_after env) ;; mret []
    | Some buf =>
        out ← on_s_terminal (act buf);
        publish ;;
        mret out
    end
  else mret [].

Definition serve_write (env : ServeEnv) (terminal_to_host : bytes) : M Server unit :=
  let '(out, r) := swrite_loop (host_writes env) terminal_to_host in
  modify (fun s => s <| to_pty := to_pty s ++ out |>) ;;
  when_ (r <? 0) (s_start_shutdown (time_after env)).

Definition idle_shutdown (timeout_ms signaled_ms idle : Z) (env : ServeEnv) : bool :=
  (negb (timeout_ms =? 0) && (timeout_ms <=? idle))
  || (signal_USR1 env && ((signaled_ms =? 0) || (signaled_ms <=? idle))).

Definition timeout_if_no_client : Z := 60000.

(** The end of an iteration: whether the loop goes on. *)
Definition serve_end (timeout_ms signaled_ms idle : Z) (env : ServeEnv) : X Server bool :=
  s ← noexn get;
  let stop := any_signal env || idle_shutdown timeout_ms signaled_ms idle env in
  let alive := has_remote_addr (conn (endpoint (s_network s))) && negb (shutdown_in_progress (server_sender s)) in
  if stop && negb alive then mret false else
  noexn (when_ stop (s_start_shutdown (time_after env))) ;;
  s ← noexn get;
  let in_progress := shutdown_in_progress (server_sender s) in
  acked ← noexn (if in_progress then lift (get_shutdown_acknowledged (server_sender s)) else mret false);
  if (acked : bool) then mret false else
  if in_progress && shutdown_ack_timed_out (time_after env) (server_sender s) then mret false else
  if last_ack_sent (fragmenter (server_sender s)) =? UINT64_MAX then mret false else
  let '(changed, t) := set_echo_ack (time_after env) (s_terminal s) in
  noexn (modify (fun s => s <| s_terminal := t |>)) ;;
  noexn (when_ changed publish_unless_shutdown) ;;
  n ← noexn (lift (get_remote_state_num (s_network s)));
  if (n =? 0) && (timeout_if_no_client <=? idle) then mret false else
  network_tick env ;;
  mret true.

(** [assert( fd_list.size() == 1 )]. *)
Definition assert_one_fd : M Server unit :=
  s ← get;
  assert_ (bool_decide (length (socks (conn (endpoint (s_network s)))) = 1%nat)).

(** An iteration inside its [try]. *)
Definition serve_try (timeout_ms signaled_ms : Z) (env : ServeEnv) : X Server bool :=
  noexn (select_timeout timeout_ms (time_before env)) ;;
  noexn assert_one_fd ;;
  if negb (select_ok env) then mret false else
  s ← noexn get;
  idle ← noexn (lift (idle_since (time_after env) s));
  out ← (if network_readable env then serve_network env else mret []);
  out' ← noexn (serve_host env);
  noexn (serve_write env (out ++ out')) ;;
  serve_end timeout_ms signaled_ms idle env.

(** Exceptions: a fatal one leaves the loop. *)
Definition serve_step (timeout_ms signaled_ms : Z) (env : ServeEnv) : X Server bool := fun s =>
  match serve_try timeout_ms signaled_ms env s with
  | Ok (Err (NetworkException _), s') | Ok (Err (CryptoException false), s') => Ok (Ok true, s')
  | r => r
  end.

(** [serve]: the iterations the environment allows. *)
Fixpoint serve_loop (timeout_ms signaled_ms : Z) (envs : list ServeEnv) : X Server bool :=
  match envs with
  | [] => mret true
  | env :: envs' =>
      go ← serve_step timeout_ms signaled_ms env;
      if (go : bool) then serve_loop timeout_ms signaled_ms envs' else mret false
  end.
Definition serve (network_timeout network_signaled_timeout : Z) (envs : list ServeEnv) : X Server bool :=
  serve_loop (u64 (u64 network_timeout * 1000)) (u64 (u64 network_signaled_timeout * 1000)) envs.
End serve.

(** ** Before the loop *)

(** The values of [MOSH_SERVER_NETWORK_TMOUT] and [MOSH_SERVER_SIGNAL_TMOUT]. *)
Definition timeout_envar (env : option bytes) : Z :=
  match env with
  | None | Some [] => 0
  | Some v =>
      let r := strtol v in
      if negb (bool_decide (st_end r = [])) then st_val r
      else if st_val r <? 0 then 0 else st_val r
  end.

(** The size of the terminal: the window's or 80 by 24. *)
Definition initial_window (window_size : option (Z * Z)) : Z * Z :=
  match window_size with
  | Some (c, r) => if (c =? 0) || (r =? 0) then (80, 24) else (c, r)
  | None => (80, 24)
  end.

(** [run_server] up to the fork: the loop starts from here. *)
Definition Server_new `{Libc} (now : Z) (c : Connection) (window_size : option (Z * Z)) : result fault Server :=
  let '(w, h) := initial_window window_size in
  t ← Complete_new w h 0;
  Ok (MkServer t (Transport_new now c t []) 0 false [] []).
