(* ===== verification/ServerSpec.v ===== *)
(** * What the server does with input and output

    An iteration feeds the terminal the new input of the user and the output of
    the host, and writes what the terminal answers; nothing else reaches them. *)
From S2P Require Export Server.

(** ** The terminal of the server *)

(** A resize that another one follows is left out. *)
Fixpoint collapse (us : UserStream) : UserStream :=
  match us with
  | ResizeEvent _ _ :: ((ResizeEvent _ _ :: _) as us') => collapse us'
  | u :: us' => u :: collapse us'
  | [] => []
  end.

Definition sizes (us : UserStream) : list (Z * Z) :=
  us ≫= (fun u => match u with ResizeEvent w h => [(u16 w, u16 h)] | UserByteEvent _ => [] end).

(** What is fed: an event of the user or octets of the host. *)
Inductive feeding : Type := FromUser (u : UserEvent) | FromHost (buf : bytes).

Definition user_action (u : UserEvent) : Action :=
  match u with
  | UserByteEvent c => MkAction (UserByte c) 0 false
  | ResizeEvent w h => MkAction (Resize w h) 0 false
  end.

Section feed.
Context `{Libc}.

Definition feed_one (x : feeding) : M Complete bytes :=
  match x with FromUser u => act_one (user_action u) | FromHost buf => act buf end.
Fixpoint feed (l : list feeding) : M Complete bytes :=
  match l with
  | [] => mret []
  | x :: l' => out ← feed_one x; out' ← feed l'; mret (out ++ out')
  end.

Lemma feed_app l1 l2 t out1 t1 out2 t2 : feed l1 t = Ok (out1, t1) -> feed l2 t1 = Ok (out2, t2) -> feed (l1 ++ l2) t = Ok (out1 ++ out2, t2).
Proof.
  revert t out1. induction l1 as [|x l1 IH]; intros t out1; cbn [feed app]; [by intros [= <- ->]|]. unfold mbind, M_bind.
  destruct (feed_one x t) as [[o t']|]; [|done]. destruct (feed l1 t') as [[o' t'']|] eqn:E; [|done]. intros [= <- ->] E2. rewrite (IH _ _ E E2). unfold mret, M_ret. by rewrite app_assoc.
Qed.

(** The echo bookkeeping is beside the screen. *)
Definition with_echo (h : list (Z * Z)) (a : Z) (t : Complete) : Complete := MkComplete (c_parser t) (terminal t) h a.
Definition screen_only {A} (m : M Complete A) : Prop :=
  forall t h a, m (with_echo h a t) = match m t with Ok (x, t') => Ok (x, with_echo h a t') | Err f => Err f end /\
    (forall x t', m t = Ok (x, t') -> input_history t' = input_history t /\ echo_ack t' = echo_ack t).

Lemma screen_only_ret {A} (x : A) : screen_only (mret x).
Proof. intros t h a. split; [done|]. by intros ? ? [= <- <-]. Qed.
Lemma screen_only_bind {A B} (m : M Complete A) (k : A -> M Complete B) : screen_only m -> (forall x, screen_only (k x)) -> screen_only (m ≫= k).
Proof.
  intros Hm Hk t h a. destruct (Hm t h a) as [Em Fm]. unfold mbind, M_bind. rewrite Em. destruct (m t) as [[x t1]|]; [|done]. destruct (Fm x t1 eq_refl) as [F1 F2].
  destruct (Hk x t1 h a) as [Ek Fk]. rewrite Ek. split; [done|]. intros y t2 E. destruct (Fk y t2 E). by rewrite <- F1, <- F2.
Qed.
Lemma screen_only_parser {A} (m : M UTF8Parser A) : screen_only (on_parser m).
Proof. intros [p e h0 a0] h a. unfold on_parser, zoom, with_echo. cbn. destruct (m p) as [[x p']|]; (split; [done|]); by intros ? ? [= <- <-]. Qed.
Lemma screen_only_terminal {A} (m : M Emulator A) : screen_only (on_terminal m).
Proof. intros [p e h0 a0] h a. unfold on_terminal, zoom, with_echo. cbn. destruct (m e) as [[x p']|]; (split; [done|]); by intros ? ? [= <- <-]. Qed.
Lemma screen_only_act s : screen_only (act s).
Proof.
  apply screen_only_bind; [|intros _; apply screen_only_terminal]. induction s as [|c s IH]; [apply screen_only_ret|]. cbn [act_octets].
  apply screen_only_bind; [apply screen_only_parser|]. intros acts. apply screen_only_bind; [apply screen_only_terminal|]. done.
Qed.
Lemma screen_only_act_one x : screen_only (act_one x).
Proof. apply screen_only_bind; [apply screen_only_terminal|]. intros _. apply screen_only_terminal. Qed.
Lemma screen_only_feed l : screen_only (feed l).
Proof.
  induction l as [|x l IH]; [apply screen_only_ret|]. cbn [feed]. apply screen_only_bind; [destruct x; [apply screen_only_act_one|apply screen_only_act]|]. intros out.
  apply screen_only_bind; [done|]. intros out'. apply screen_only_ret.
Qed.

(** [fed l t out t']: the screen of [t] becomes that of [t'], answering [out]. *)
Definition fed (l : list feeding) (t : Complete) (out : bytes) (t' : Complete) : Prop :=
  feed l (with_echo [] 0 t) = Ok (out, with_echo [] 0 t').

Lemma feed_fed l t out t' : feed l t = Ok (out, t') -> fed l t out t'.
Proof. intros E. unfold fed. destruct (screen_only_feed l t [] 0) as [-> _]. by rewrite E. Qed.
Lemma fed_nil t : fed [] t [] t.
Proof. done. Qed.
Lemma fed_echo l t out t' h a h' a' : fed l t out t' -> fed l (with_echo h a t) out (with_echo h' a' t').
Proof. done. Qed.
Lemma fed_app l1 l2 t out1 t1 out2 t2 : fed l1 t out1 t1 -> fed l2 t1 out2 t2 -> fed (l1 ++ l2) t (out1 ++ out2) t2.
Proof. apply feed_app. Qed.
Lemma fed_register l t out t' n now : fed l t out t' -> fed l t out (register_input_frame n now t').
Proof. done. Qed.
Lemma fed_set_echo l t out t' now : fed l t out t' -> fed l t out (set_echo_ack now t').2.
Proof. done. Qed.
End feed.

(** ** Calls that only change the network *)

Abbreviation net_change := (fun s s' : Server => s' = s <| s_network := s_network s' |>).
#[export] Instance net_change_preorder : PreOrder net_change.
Proof. split; [by intros []|]. intros s s1 s2 -> ->. done. Qed.
Abbreviation net_only := (follows net_change).

Lemma net_only_network {A} (m : M (Transport Complete UserStream) A) : net_only (on_s_network m).
Proof. by apply follows_zoom. Qed.

Section spec.
Context `{HLibc : Libc} `{HSync : SyncState Complete} `{HUC : UserCodec} `{HAE : AE} `{HAL : !AELaws} `{HTC : TransportCodec}.

Lemma net_only_shutdown now : net_only (s_start_shutdown now).
Proof. apply net_only_network. Qed.
Lemma net_only_publish : net_only publish.
Proof. unfold publish. follows_by (apply net_only_network). Qed.
Lemma net_only_publish_unless : net_only publish_unless_shutdown.
Proof. unfold publish_unless_shutdown. follows_by (apply net_only_publish). Qed.
Lemma net_only_select tm now : net_only (select_timeout tm now).
Proof. unfold select_timeout, on_s_endpoint. follows_by (apply net_only_network). Qed.

Lemma on_s_terminal_inv {A} (m : M Complete A) s x s' : on_s_terminal m s = Ok (x, s') -> exists t, m (s_terminal s) = Ok (x, t) /\ s' = s <| s_terminal := t |>.
Proof. unfold on_s_terminal, zoom. destruct (m (s_terminal s)) as [[a t]|]; [|done]. intros [= <- <-]. eauto. Qed.

(** Whether the server shuts down. *)

Definition closing (s : Server) : bool := shutdown_in_progress (server_sender s).

Lemma closing_modify {S} (g : TransportSender S -> TransportSender S) :
  (forall s, shutdown_in_progress (g s) = shutdown_in_progress s) -> keeps (fun e => shutdown_in_progress (sender e)) (on_sender (modify g)).
Proof. intros Hg s x s' [= _ <-]. apply Hg. Qed.
Lemma closing_endpoint {S R A} (m : M (Endpoint S) A) : keeps (fun e => shutdown_in_progress (sender e)) m ->
  keeps (fun t : Transport S R => shutdown_in_progress (sender (endpoint t))) (on_endpoint m).
Proof. intros Hm. by eapply (keeps_zoom_in _ (fun e => shutdown_in_progress (sender e))). Qed.
Lemma closing_ack {S} n : keeps (fun e : Endpoint S => shutdown_in_progress (sender e)) (on_sender (process_acknowledgment_through n)).
Proof.
  eapply (keeps_zoom_in _ shutdown_in_progress); [done|done|]. unfold process_acknowledgment_through, assert_. follows_by fail. apply follows_modify. intros s. by destruct (existsb _ _).
Qed.
Lemma closing_recv now recvmsg : keeps (fun t : Transport Complete UserStream => shutdown_in_progress (sender (endpoint t))) (transport_recv now recvmsg).
Proof.
  unfold transport_recv. apply follows_xbind; [apply _|by apply closing_endpoint, follows_zoom|intros d]. apply follows_xbind; [apply _|by apply follows_zoom|intros [inst|]; [|follows_by fail]].
  unfold recv_instruction, process_throwaway_until, accept_state, assert_.
  repeat first [progress follows_by (apply closing_endpoint; first [apply closing_ack|by apply follows_modify|apply closing_modify; intros ?; by case_bool_decide])|case_match].
Qed.
Lemma closing_diff : keeps (fun t : Transport Complete UserStream => shutdown_in_progress (sender (endpoint t))) get_remote_diff.
Proof. unfold get_remote_diff. follows_by fail. repeat case_match; follows_by fail. Qed.
Lemma closing_net {A} (m : M (Transport Complete UserStream) A) : keeps (fun t => shutdown_in_progress (sender (endpoint t))) m -> keeps closing (on_s_network m).
Proof. intros Hm. by eapply (keeps_zoom_in _ (fun t : Transport Complete UserStream => shutdown_in_progress (sender (endpoint t)))). Qed.
Lemma closing_publish : keeps closing publish.
Proof.
  unfold publish. apply follows_bind; [apply _|follows_by fail|]. intros t. apply closing_net, closing_endpoint. eapply (keeps_zoom_in _ shutdown_in_progress); [done|done|]. unfold set_current_state, assert_. follows_by fail.
Qed.
Lemma closing_publish_unless : keeps closing publish_unless_shutdown.
Proof. unfold publish_unless_shutdown. follows_by (apply closing_publish). Qed.

(** The calls that read and set the size of the window succeed. *)
Definition window_calls_ok (env : ServeEnv) : Prop := forall j, get_window_ok env j = true /\ set_window_ok env j = true.

(** The parts of the state that input and output do not touch. *)
Definition kept (s : Server) : Z * bool * bytes := (last_remote_num s, child_released s, to_pty s).

Lemma tell_size_inv env i w h s u s1 : tell_size env i w h s = Ok (u, s1) ->
  s_terminal s1 = s_terminal s /\ kept s1 = kept s /\ (set_window_ok env i = true -> window_sizes s1 = window_sizes s ++ [(u16 w, u16 h)]) /\
  (window_calls_ok env -> closing s1 = closing s).
Proof.
  unfold tell_size. intros (v & s2 & E1 & E2)%bind_inv. pose proof (follows_when net_change (negb (get_window_ok env i)) _ (net_only_shutdown (time_after env)) _ _ _ E1) as Hn.
  assert (Hok : window_calls_ok env -> closing s1 = closing s).
  { intros Hok. destruct (Hok i) as [H1 H2]. rewrite H1 in E1. rewrite H2 in E2. injection E1 as _ <-. by injection E2 as _ <-. }
  destruct (set_window_ok env i); [|apply net_only_shutdown in E2; rewrite E2, Hn in *; done]. split_and!; [..|done]; injection E2 as _ <-; rewrite Hn; done.
Qed.

Lemma apply_events_inv env us : forall i s out s', apply_events env i us s = Ok (out, s') ->
  feed (FromUser <$> collapse us) (s_terminal s) = Ok (out, s_terminal s') /\ kept s' = kept s /\
  ((forall j, set_window_ok env j = true) -> window_sizes s' = window_sizes s ++ sizes (collapse us)) /\
  (window_calls_ok env -> closing s' = closing s).
Proof.
  induction us as [|u us IH]; intros i s out s' E; [apply ret_inv in E as [-> ->]; by rewrite app_nil_r|].
  destruct u as [c|w h].
  - cbn [apply_events] in E. apply bind_inv in E as (o & s1 & (t & Ea & ->)%on_s_terminal_inv & E). apply bind_inv in E as (o' & s2 & E2 & [-> ->]%ret_inv).
    destruct (IH _ _ _ _ E2) as (Ef & Hk & Hw & Hc). cbn [collapse fmap list_fmap feed feed_one user_action]. split_and!; [|done|done|done]. rewrite (M_bind_Ok _ _ _ _ _ Ea), (M_bind_Ok _ _ _ _ _ Ef). done.
  - assert (E' : (exists w' h' us', us = ResizeEvent w' h' :: us' /\ apply_events env (S i) us s = Ok (out, s')) \/
      (collapse (ResizeEvent w h :: us) = ResizeEvent w h :: collapse us /\ exists u s1 o t o', tell_size env i w h s = Ok (u, s1) /\
        act_one (MkAction (Resize w h) 0 false) (s_terminal s1) = Ok (o, t) /\ apply_events env (S i) us (s1 <| s_terminal := t |>) = Ok (o', s') /\ out = o ++ o')).
    { destruct us as [|[c'|w' h'] us]; [right|right|left; by eauto]; (split; [done|]); cbn [apply_events] in E; apply bind_inv in E as (u & s1 & E1 & E);
        apply bind_inv in E as (o & s2 & (t & Ea & ->)%on_s_terminal_inv & E); apply bind_inv in E as (o' & s3 & E2 & [-> ->]%ret_inv); exists u, s1, o, t, o'; done. }
    destruct E' as [(w' & h' & us' & -> & E')|(Ec & u & s1 & o & t & o' & E1 & Ea & E2 & ->)]; [exact (IH _ _ _ _ E')|].
    destruct (tell_size_inv _ _ _ _ _ _ _ E1) as (Et & Hk & Hw & Hc). destruct (IH _ _ _ _ E2) as (Ef & Hk2 & Hw2 & Hc2). rewrite Ec. cbn [fmap list_fmap feed feed_one user_action]. rewrite Et in Ea.
    split_and!; [rewrite (M_bind_Ok _ _ _ _ _ Ea), (M_bind_Ok _ _ _ _ _ Ef); done|by rewrite Hk2| |intros Hok; by rewrite Hc2, <- Hc]. intros Hok. rewrite Hw2 by done. cbn [window_sizes set_field]. rewrite (Hw (Hok i)), <- app_assoc. done.
Qed.

(** What the host said, if it was asked and said something. *)
Definition host_bufs (env : ServeEnv) : list feeding :=
  if host_readable env then match host_read env with Some (c :: buf) => [FromHost (c :: buf)] | _ => [] end else [].

Lemma serve_host_inv env s out s' : serve_host env s = Ok (out, s') ->
  feed (if closing s then [] else host_bufs env) (s_terminal s) = Ok (out, s_terminal s') /\ kept s' = kept s /\ window_sizes s' = window_sizes s.
Proof.
  unfold serve_host, host_bufs, closing. rewrite (M_bind_Ok get _ s s s) by done. destruct (shutdown_in_progress (server_sender s)); cbn [negb andb]; [by intros [-> ->]%ret_inv|].
  destruct (host_readable env); [|by intros [-> ->]%ret_inv]. destruct (host_read env) as [[|c buf]|] eqn:Eb.
  - intros (u & s1 & Hn%net_only_shutdown & [-> ->]%ret_inv)%bind_inv. by rewrite Hn.
  - intros (o & s1 & (t & Ea & ->)%on_s_terminal_inv & E)%bind_inv. apply bind_inv in E as (u & s2 & Hn%net_only_publish & [-> ->]%ret_inv).
    rewrite Hn. split_and!; [|done|done]. cbn [feed feed_one]. rewrite (M_bind_Ok _ _ _ _ _ Ea). unfold mbind, M_bind, mret, M_ret. by rewrite app_nil_r.
  - intros (u & s1 & Hn%net_only_shutdown & [-> ->]%ret_inv)%bind_inv. by rewrite Hn.
Qed.

Lemma swrite_all writes s : Forall (fun n => 0 < n) writes -> swrite_loop writes s = (s, 0).
Proof.
  intros Hw. revert s. induction Hw as [|n writes Hn _ IH]; intros s; cbn [swrite_loop]; case_bool_decide as E; [by rewrite E|done|by rewrite E|].
  destruct (Z.leb_spec n 0); [lia|]. rewrite IH, take_drop. done.
Qed.

Lemma serve_write_inv env o s u s' : Forall (fun n => 0 < n) (host_writes env) -> serve_write env o s = Ok (u, s') -> s' = s <| to_pty := to_pty s ++ o |>.
Proof. intros Hw. unfold serve_write. rewrite swrite_all by done. by intros [= _ <-]. Qed.

(** ** One iteration *)


Lemma net_only_recv env : net_only (network_recv env).
Proof. intros s x s'. unfold network_recv, zoom. destruct (transport_recv _ _ _) as [[a t]|]; [|done]. by intros [= _ <-]. Qed.
Lemma net_only_tick env : net_only (network_tick env).
Proof. intros s x s'. unfold network_tick, zoom at 1. destruct (zoom _ _ _ _) as [[a t]|]; [|done]. by intros [= _ <-]. Qed.

(** Whether a datagram of this iteration brought a new state, and the user's
    input that is new in it. *)
Definition received (env : ServeEnv) (s : Server) : result fault (result exn unit * Transport Complete UserStream) :=
  transport_recv (time_after env) (recvmsg_env env) (s_network s).
Definition fresh (env : ServeEnv) (s : Server) : bool :=
  match received env s with
  | Ok (Ok _, t) => match get_remote_state_num t with Ok n => negb (n =? last_remote_num s) | Err _ => false end
  | _ => false
  end.
Definition user_input (env : ServeEnv) (s : Server) (us : UserStream) : Prop :=
  if fresh env s then exists t1 d t2, received env s = Ok (Ok tt, t1) /\ get_remote_diff t1 = Ok (d, t2) /\ stream_apply_string d [] = Ok us else us = [].

Lemma serve_network_inv env s r s' : serve_network env s = Ok (r, s') ->
  match r with
  | Err e => s' = s <| s_network := s_network s' |> /\ received env s = Ok (Err e, s_network s')
  | Ok out => (exists t1, received env s = Ok (Ok tt, t1)) /\
      exists us, user_input env s us /\ fed (FromUser <$> collapse us) (s_terminal s) out (s_terminal s') /\ to_pty s' = to_pty s /\
      child_released s' = child_released s || fresh env s /\
      ((forall j, set_window_ok env j = true) -> window_sizes s' = window_sizes s ++ sizes (collapse us)) /\
      (window_calls_ok env -> closing s' = closing s)
  end.
Proof.
  unfold serve_network. intros [(e & E & ->)|(u & s1 & E1 & E)]%xbind_inv.
  { split; [exact (net_only_recv _ _ _ _ E)|]. revert E. unfold network_recv, zoom, received. destruct (transport_recv _ _ _) as [[x t]|]; [|done]. by intros [= -> <-]. }
  pose proof (net_only_recv _ _ _ _ E1) as Hn1. assert (Er : received env s = Ok (Ok tt, s_network s1)).
  { revert E1. unfold network_recv, zoom, received. destruct (transport_recv _ _ _) as [[[[]|] t]|]; [|done|done]. by intros [= <- <-]. }
  assert (Er' : exists t1, received env s = Ok (Ok tt, t1)) by (by eexists). assert (C1 : closing s1 = closing s) by exact (closing_recv _ _ _ _ _ Er).
  apply noexn_bind_inv in E as (? & ? & [= <- <-] & E). apply noexn_bind_inv in E as (n & s2 & [En ->]%lift_inv & E).
  assert (Hl : last_remote_num s1 = last_remote_num s) by (by rewrite Hn1).
  assert (Hfr : fresh env s = negb (n =? last_remote_num s1)) by (unfold fresh; by rewrite Er, En, Hl). unfold user_input. rewrite Hfr. destruct (n =? last_remote_num s1); cbn [negb].
  { apply xret_inv in E as [-> ->]. split; [done|]. exists []. rewrite app_nil_r, orb_false_r, C1, Hn1. done. }
  apply noexn_bind_inv in E as (? & ? & [= <- <-] & E). apply noexn_bind_inv in E as (d & s3 & E3 & E).
  apply noexn_bind_inv in E as (us & s4 & [Eu ->]%lift_inv & E). apply noexn_bind_inv in E as (out & s5 & E5 & E). apply noexn_bind_inv in E as (? & s6 & E6 & E).
  apply noexn_bind_inv in E as (? & s7 & E7 & E). pose proof (net_only_publish_unless _ _ _ E7) as Hn7. apply closing_publish_unless in E7. apply noexn_bind_inv in E as (? & s8 & [= _ <-] & [-> ->]%xret_inv). split; [done|].
  assert (Ed : exists t2, get_remote_diff (s_network s1) = Ok (d, t2)) by (revert E3; unfold on_s_network, zoom; cbn; destruct (get_remote_diff _) as [[]|]; [intros [= <- _]; eauto|done]). destruct Ed as [t2 Ed].
  pose proof (closing_net _ closing_diff _ _ _ E3 : closing s3 = closing s1) as C3. apply net_only_network in E3. destruct (apply_events_inv _ _ _ _ _ _ E5) as (Ef & [= K1 K2 K3] & Hw & C5). exists us. split; [by exists (s_network s1), d, t2|].
  assert (H6 : s_terminal s6 = (if bool_decide (us = []) then s_terminal s5 else register_input_frame n (time_after env) (s_terminal s5)) /\ to_pty s6 = to_pty s5 /\ window_sizes s6 = window_sizes s5 /\ closing s6 = closing s5).
  { revert E6. unfold when_. case_bool_decide; cbn [negb]; by intros [= _ <-]. } destruct H6 as (Ht & Hp & Hws & Hc). cbn [s_terminal to_pty child_released window_sizes last_remote_num set_field].
  assert (Hc' : window_calls_ok env -> closing s7 = closing s) by (intros Hok; rewrite E7, Hc, C5 by done; by rewrite C3).
  rewrite E3, Hn1 in Ef, K1, K2, K3, Hw. cbn in Ef, K1, K2, K3, Hw. split_and!.
  - rewrite Hn7. cbn. rewrite Ht. destruct (bool_decide _); [|apply fed_register]; by apply feed_fed.
  - rewrite Hn7. cbn. by rewrite Hp, K3.
  - by rewrite orb_true_r.
  - intros Hok. rewrite Hn7. cbn. rewrite Hws. by apply Hw.
  - exact Hc'.
Qed.

(** What an iteration leaves to the network and the echo bookkeeping. *)
Definition settled (s s' : Server) : Prop :=
  c_parser (s_terminal s') = c_parser (s_terminal s) /\ terminal (s_terminal s') = terminal (s_terminal s) /\
  kept s' = kept s /\ window_sizes s' = window_sizes s.

Lemma settled_net s s' : s' = s <| s_network := s_network s' |> -> settled s s'.
Proof. by intros ->. Qed.
Lemma settled_trans s s1 s2 : settled s s1 -> settled s1 s2 -> settled s s2.
Proof. intros (A1 & A2 & A3 & A4) (B1 & B2 & B3 & B4). split_and!; congruence. Qed.
Lemma settled_fed l t out s s' : settled s s' -> fed l t out (s_terminal s) -> fed l t out (s_terminal s').
Proof. intros (E1 & E2 & _). unfold fed, with_echo. by rewrite E1, E2. Qed.

Lemma serve_end_inv tm sg idle env s r s' : serve_end tm sg idle env s = Ok (r, s') -> settled s s'.
Proof.
  unfold serve_end. intros (? & ? & [= <- <-] & E)%noexn_bind_inv. cbv zeta in E. destruct (_ && negb _); [by apply xret_inv in E as [-> ->]|].
  apply noexn_bind_inv in E as (? & s1 & Hn1%(follows_when net_change _ _ (net_only_shutdown _))%settled_net & E). apply noexn_bind_inv in E as (? & ? & [= <- <-] & E).
  apply noexn_bind_inv in E as (acked & s2 & E2 & E). assert (s2 = s1) as ->.
  { revert E2. destruct (shutdown_in_progress _); [unfold lift; destruct (get_shutdown_acknowledged _); [|done]|]; by intros [= _ ->]. }
  apply (settled_trans _ _ _ Hn1). destruct acked; [by apply xret_inv in E as [-> ->]|].
  destruct (_ && _) in E; [by apply xret_inv in E as [-> ->]|]. destruct (_ =? UINT64_MAX) in E; [by apply xret_inv in E as [-> ->]|].
  destruct (set_echo_ack _ _) as [changed t] eqn:Et. apply noexn_bind_inv in E as (? & s3 & [= _ <-] & E).
  assert (H3 : settled s1 (s1 <| s_terminal := t |>)) by (by injection Et as _ <-).
  apply (settled_trans _ _ _ H3). apply noexn_bind_inv in E as (? & s4 & Hn4%(follows_when net_change _ _ net_only_publish_unless)%settled_net & E).
  apply noexn_bind_inv in E as (n & s5 & Hn5%(follows_lift net_change)%settled_net & E). apply (settled_trans _ _ _ Hn4), (settled_trans _ _ _ Hn5).
  destruct (_ && _) in E; [by apply xret_inv in E as [-> ->]|]. apply xbind_inv in E as [(e & E & ->)|(? & s6 & E & [-> ->]%xret_inv)]; by apply settled_net; exact (net_only_tick _ _ _ _ E).
Qed.

(** [select] succeeded and no exception came from what was received. *)
Definition undisturbed (env : ServeEnv) (s : Server) : bool :=
  select_ok env && (negb (network_readable env) || match received env s with Ok (Ok _, _) => true | _ => false end).
Definition listens (env : ServeEnv) : bool := select_ok env && network_readable env.

(** An iteration from [s] to [s'] that has [s1] when [select] returns: the input
    of the user and the output of the host that go to the terminal, and what it
    answers. *)
Record iteration (env : ServeEnv) (s s1 s' : Server) (us : UserStream) (bufs : list feeding) (out : bytes) : Prop := {
  it_user : if listens env then user_input env s1 us else us = [];
  it_host : bufs = [] \/ undisturbed env s1 = true /\ bufs = host_bufs env;
  it_host_all : undisturbed env s1 = true -> closing s1 = false -> window_calls_ok env -> bufs = host_bufs env;
  it_fed : fed ((FromUser <$> collapse us) ++ bufs) (s_terminal s) out (s_terminal s');
  it_pty : to_pty s' = to_pty s ++ out;
  it_child : child_released s' = child_released s || (listens env && fresh env s1);
  it_window : (forall j, set_window_ok env j = true) -> window_sizes s' = window_sizes s ++ sizes (collapse us) }.

Lemma iteration_idle env s s1 s' : settled s s' -> undisturbed env s1 = false -> (listens env = true -> fresh env s1 = false) -> iteration env s s1 s' [] [] [].
Proof.
  intros Hs Hu Hl. pose proof (settled_fed _ _ _ _ _ Hs (fed_nil _)) as Hf. destruct Hs as (_ & _ & [= _ K2 K3] & Hws).
  split; [|by left|by rewrite Hu|exact Hf|by rewrite app_nil_r| |intros _; by rewrite Hws, app_nil_r].
  - unfold user_input. destruct (listens env); [|done]. by rewrite Hl.
  - rewrite K2. destruct (listens env); [rewrite Hl by done|]; by rewrite orb_false_r.
Qed.

(** What an iteration takes from the network. *)
Lemma hear_inv env s out s' : select_ok env = true -> (if network_readable env then serve_network env else mret []) s = Ok (Ok out, s') ->
  undisturbed env s = true /\ exists us, (if listens env then user_input env s us else us = []) /\ fed (FromUser <$> collapse us) (s_terminal s) out (s_terminal s') /\ to_pty s' = to_pty s /\
    child_released s' = child_released s || (listens env && fresh env s) /\
    ((forall j, set_window_ok env j = true) -> window_sizes s' = window_sizes s ++ sizes (collapse us)) /\ (window_calls_ok env -> closing s' = closing s).
Proof.
  unfold undisturbed, listens. intros -> E. cbn [andb]. destruct (network_readable env); cbn [negb orb andb].
  - destruct (serve_network_inv _ _ _ _ E) as ((t1 & Et) & us & H). rewrite Et. split; [done|]. by exists us.
  - apply xret_inv in E as [[= ->] ->]. split; [done|]. exists []. split_and!; try done; [by rewrite orb_false_r|]. intros _. by rewrite app_nil_r.
Qed.

Lemma one_fd_inv s u s' : assert_one_fd s = Ok (u, s') -> s' = s.
Proof. unfold assert_one_fd, mbind, M_bind, get, assert_. case_bool_decide; [|done]. by intros [= _ <-]. Qed.
Lemma one_fd_ok s : length (socks (conn (endpoint (s_network s)))) = 1%nat -> assert_one_fd s = Ok (tt, s).
Proof. intros Hl. unfold assert_one_fd, mbind, M_bind, get, assert_. by rewrite bool_decide_true. Qed.

Lemma serve_try_inv tm sg env s r s' : Forall (fun n => 0 < n) (host_writes env) -> serve_try tm sg env s = Ok (r, s') ->
  exists w s1 us bufs out, select_timeout tm (time_before env) s = Ok (w, s1) /\ iteration env s s1 s' us bufs out.
Proof.
  intros Hw. unfold serve_try. intros (w & s1 & Es & E)%noexn_bind_inv. pose proof (net_only_select _ _ _ _ _ Es) as Hn1. pose proof (settled_net _ _ Hn1) as Hs1. exists w, s1. apply noexn_bind_inv in E as (? & ? & ->%one_fd_inv & E).
  destruct (select_ok env) eqn:Eok; cbn [negb] in E; [|apply xret_inv in E as [-> ->]; exists [], [], []; split; [done|]; apply iteration_idle; unfold undisturbed, listens; by rewrite ?Eok].
  apply noexn_bind_inv in E as (? & ? & [= <- <-] & E). apply noexn_bind_inv in E as (idle & s2 & [_ ->]%lift_inv & E).
  apply xbind_inv in E as [(e & E & ->)|(out & s3 & E3 & E)].
  { exists [], [], []. split; [done|]. destruct (network_readable env) eqn:En; [|done]. destruct (serve_network_inv env s1 (Err e) s' E) as [Hn Hr].
    apply iteration_idle; [by apply (settled_trans _ _ _ Hs1), settled_net| |]; unfold undisturbed, fresh; rewrite ?Eok, ?En, Hr; done. }
  destruct (hear_inv _ _ _ _ Eok E3) as (Hund & us & Hu & Hf & Hp & Hc & Hws & Hcl). apply noexn_bind_inv in E as (out' & s4 & E4 & E). destruct (serve_host_inv _ _ _ _ E4) as (Hf2 & [= _ K2 K3] & Hws2).
  apply noexn_bind_inv in E as (? & s5 & ->%serve_write_inv & E%serve_end_inv); [|done]. apply feed_fed in Hf2. pose proof (fed_app _ _ _ _ _ _ _ Hf Hf2) as Hfed.
  pose proof (settled_fed _ _ _ _ _ E Hfed) as Hfed'. destruct E as (_ & _ & [= _ L2 L3] & Hws3). cbn in L2, L3, Hws3. exists us, (if closing s3 then [] else host_bufs env), (out ++ out'). split; [done|].
  assert (Ht : s_terminal s1 = s_terminal s /\ child_released s1 = child_released s /\ to_pty s1 = to_pty s /\ window_sizes s1 = window_sizes s) by (by rewrite Hn1). destruct Ht as (T1 & T2 & T3 & T4).
  rewrite T1 in Hfed'. split; [done|destruct (closing s3); [by left|by right]| |done|by rewrite L3, K3, Hp, T3|by rewrite L2, K2, Hc, T2|].
  - intros _ Hc1 Hok. by rewrite Hcl, Hc1.
  - intros Hok. rewrite Hws3, Hws2, Hws by done. by rewrite T4.
Qed.

(** ** Without the key *)

Definition server_conn (s : Server) : Connection := conn (endpoint (s_network s)).
(** The connection and what was received are those of [s]. *)
Definition unheard (s s' : Server) : Prop := server_conn s' = server_conn s /\ received_states (s_network s') = received_states (s_network s).

#[export] Instance unheard_preorder : PreOrder unheard.
Proof. split; [done|]. intros s s1 s2 [] []. split; congruence. Qed.
Abbreviation quiet := (follows unheard).

Lemma conn_same_sender {S A} (m : M (TransportSender S) A) : keeps conn (on_sender m).
Proof. intros e x e'. unfold on_sender, zoom. destruct (m (sender e)) as [[]|]; [|done]. by intros [= _ <-]. Qed.


Lemma conn_same_timers now : keeps (@conn Complete) (calculate_timers now).
Proof. unfold calculate_timers, update_assumed_receiver_state, set_timers. follows_by (apply conn_same_sender). case_match; follows_by (apply conn_same_sender). Qed.
Lemma conn_same_wait now : keeps (@conn Complete) (wait_time now).
Proof. unfold wait_time. apply follows_bind; [apply _|apply conn_same_timers|intros ?]. follows_by (apply conn_same_sender). Qed.

Lemma quiet_endpoint {A} (m : M (Endpoint Complete) A) : keeps conn m -> quiet (on_s_endpoint m).
Proof.
  intros Hm. apply (follows_zoom_in _ (fun t t' => conn (endpoint t') = conn (endpoint t) /\ received_states t' = received_states t)); [done|].
  by apply (follows_zoom_in _ (fun e e' => conn e' = conn e)).
Qed.
Lemma quiet_terminal {A} (m : M Complete A) : quiet (on_s_terminal m).
Proof. by apply follows_zoom. Qed.
Lemma quiet_shutdown now : quiet (s_start_shutdown now).
Proof. apply quiet_endpoint, conn_same_sender. Qed.
Lemma quiet_publish : quiet publish.
Proof. unfold publish. follows_by (apply quiet_endpoint, conn_same_sender). Qed.
Lemma quiet_select tm now : quiet (select_timeout tm now).
Proof. unfold select_timeout. follows_by (apply quiet_endpoint, conn_same_wait). Qed.
Lemma quiet_host env : quiet (serve_host env).
Proof. unfold serve_host. repeat first [progress follows_by (first [apply quiet_shutdown|apply quiet_terminal|apply quiet_publish])|case_match]. Qed.
Lemma quiet_write env o : quiet (serve_write env o).
Proof. unfold serve_write, when_. destruct (swrite_loop _ _). follows_by (apply quiet_shutdown). Qed.
Lemma quiet_publish_unless : quiet publish_unless_shutdown.
Proof. unfold publish_unless_shutdown. follows_by (apply quiet_publish). Qed.

(** Without an address there is nobody to send to. *)
Lemma tick_unheard env s r s' : has_remote_addr (server_conn s) = false -> network_tick env s = Ok (r, s') -> r = Ok tt /\ unheard s s'.
Proof.
  intros Ha. unfold network_tick, zoom. destruct (tick _ _ _) as [[x e]|] eqn:E; [|done]. intros [= -> <-]. unfold tick in E.
  apply noexn_bind_inv in E as (? & e1 & Hc%conn_same_timers & E). apply noexn_bind_inv in E as (? & ? & [= <- <-] & E).
  unfold server_conn in *. rewrite Hc, Ha in E. cbn [negb] in E. apply xret_inv in E as [-> ->]. split; [done|]. split; [exact Hc|done].
Qed.

Lemma unheard_trans s s1 s2 : unheard s s1 -> unheard s1 s2 -> unheard s s2.
Proof. apply transitivity. Qed.

Lemma serve_end_unheard tm sg idle env s r s' : has_remote_addr (server_conn s) = false -> serve_end tm sg idle env s = Ok (r, s') -> (exists go, r = Ok go) /\ unheard s s'.
Proof.
  intros Ha. unfold serve_end. intros (? & ? & [= <- <-] & E)%noexn_bind_inv. cbv zeta in E. destruct (_ && negb _); [apply xret_inv in E as [-> ->]; split; [by eexists|done]|].
  apply noexn_bind_inv in E as (? & s1 & E1 & E). assert (U1 : unheard s s1) by (refine (follows_if unheard _ _ _ _ _ _ _ _ E1); [apply quiet_shutdown|apply follows_ret, _]).
  assert (Hret : forall (b : bool) s2, unheard s s2 -> (mret b : X Server bool) s2 = Ok (r, s') -> (exists go, r = Ok go) /\ unheard s s') by (intros b s2 U [-> ->]%xret_inv; split; [by eexists|done]).
  apply noexn_bind_inv in E as (? & ? & [= <- <-] & E). apply noexn_bind_inv in E as (acked & s2 & E2 & E).
  assert (U2 : unheard s s2) by (apply (unheard_trans _ _ _ U1); refine (follows_if unheard _ _ _ _ _ _ _ _ E2); [apply follows_lift, _|apply follows_ret, _]).
  destruct acked; [by apply (Hret false s2)|]. destruct (_ && _) in E; [by apply (Hret false s2)|]. destruct (_ =? UINT64_MAX) in E; [by apply (Hret false s2)|].
  destruct (set_echo_ack _ _) as [changed t]. apply noexn_bind_inv in E as (? & s3 & [= _ <-] & E).
  apply noexn_bind_inv in E as (? & s4 & E4 & E). assert (U4 : unheard s s4) by (apply (unheard_trans _ _ _ U2); refine (follows_if unheard _ _ _ _ _ (s2 <| s_terminal := t |>) _ _ E4); [apply quiet_publish_unless|apply follows_ret, _]).
  apply noexn_bind_inv in E as (n & s5 & [_ ->]%lift_inv & E). destruct (_ && _) in E; [by apply (Hret false s4)|].
  assert (Ha4 : has_remote_addr (server_conn s4) = false) by (by rewrite (proj1 U4)).
  apply xbind_inv in E as [(e & E & ->)|(? & s6 & E & E')]; destruct (tick_unheard _ _ _ _ Ha4 E) as [Er U6]; [done|].
  apply (Hret true s6); [by apply (unheard_trans _ _ _ U4)|done].
Qed.

Lemma network_forged env s : socks (server_conn s) <> [] -> (forall fd, forged (session (server_conn s)) (recvmsg_env env fd)) ->
  exists e, serve_network env s = Ok (Err e, s) /\ e <> CryptoException true.
Proof.
  intros Hs Hf. destruct (recv_forged (time_after env) (recvmsg_env env) _ Hs Hf) as (e & E & He). exists e. split; [|done]. apply X_bind_Err. unfold network_recv, zoom, transport_recv.
  rewrite (X_bind_Err _ _ _ e (s_network s)); [by destruct s|]. unfold on_connection, on_conn, zoom. rewrite (E : recv _ _ (conn (endpoint (s_network s))) = _). by destruct s as [? [[] ? ? ? ?]].
Qed.

(** What an iteration may do when nothing authentic arrives. *)
Record host_iteration (env : ServeEnv) (s s' : Server) (bufs : list feeding) (out : bytes) : Prop := {
  hi_unheard : unheard s s';
  hi_child : child_released s' = child_released s;
  hi_window : window_sizes s' = window_sizes s;
  hi_host : bufs = [] \/ bufs = host_bufs env;
  hi_fed : fed bufs (s_terminal s) out (s_terminal s');
  hi_pty : to_pty s' = to_pty s ++ out }.

Definition deaf (env : ServeEnv) (s : Server) : Prop :=
  has_remote_addr (server_conn s) = false /\ socks (server_conn s) <> [] /\
  (forall fd, forged (session (server_conn s)) (recvmsg_env env fd)) /\ Forall (fun n => 0 < n) (host_writes env).

Lemma host_iteration_idle env s s' : settled s s' -> unheard s s' -> host_iteration env s s' [] [].
Proof.
  intros Hs U. pose proof (settled_fed _ _ _ _ _ Hs (fed_nil _)) as Hf. destruct Hs as (_ & _ & [= _ K2 K3] & Hws). split; [done|done|done|by left|done|by rewrite app_nil_r].
Qed.

Lemma serve_try_forged tm sg env s r s' : deaf env s -> serve_try tm sg env s = Ok (r, s') ->
  r <> Err (CryptoException true) /\ exists bufs out, host_iteration env s s' bufs out.
Proof.
  intros (Ha & Hs & Hf & Hw). unfold serve_try. intros (w & s1 & Es & E)%noexn_bind_inv. pose proof (settled_net _ _ (net_only_select _ _ _ _ _ Es)) as S1. pose proof (quiet_select _ _ _ _ _ Es : unheard s s1) as U1. apply noexn_bind_inv in E as (? & ? & ->%one_fd_inv & E).
  destruct (select_ok env); cbn [negb] in E; [|apply xret_inv in E as [-> ->]; split; [done|]; exists [], []; by apply host_iteration_idle].
  apply noexn_bind_inv in E as (? & ? & [= <- <-] & E). apply noexn_bind_inv in E as (idle & s2 & [_ ->]%lift_inv & E).
  apply xbind_inv in E as [(e & E & ->)|(out & s3 & E3 & E)].
  { destruct (network_readable env); [|done]. destruct (network_forged env s1) as (e' & E' & He'); [by rewrite (proj1 U1)|by rewrite (proj1 U1)|]. rewrite E' in E. injection E as -> ->.
    split; [congruence|]. exists [], []. by apply host_iteration_idle. }
  assert (out = [] /\ s3 = s1) as [-> ->].
  { destruct (network_readable env); [|by apply xret_inv in E3 as [[= ->] ->]]. destruct (network_forged env s1) as (e' & E' & _); [by rewrite (proj1 U1)|by rewrite (proj1 U1)|]. by rewrite E' in E3. }
  apply noexn_bind_inv in E as (out & s4 & E4 & E). destruct (serve_host_inv _ _ _ _ E4) as (Hfd & [= _ K2 K3] & Hws2). set (bufs := if closing s1 then [] else host_bufs env) in *. pose proof (quiet_host _ _ _ _ E4 : unheard s1 s4) as U4.
  apply noexn_bind_inv in E as (? & s5 & E5 & E). pose proof (quiet_write _ _ _ _ _ E5 : unheard s4 s5) as U5. apply serve_write_inv in E5 as ->; [|done].
  assert (U : unheard s (s4 <| to_pty := to_pty s4 ++ [] ++ out |>)) by (eapply unheard_trans; [exact U1|]; by eapply unheard_trans).
  destruct (serve_end_unheard _ _ _ _ _ _ _ (eq_trans (f_equal has_remote_addr (proj1 U)) Ha) E) as ((go & ->) & U6). apply serve_end_inv in E. split; [done|]. exists bufs, out.
  destruct S1 as (T1 & T2 & [= _ T4 T5] & T6). apply feed_fed in Hfd. assert (Hfd' : fed bufs (s_terminal s) out (s_terminal s4)) by (revert Hfd; unfold fed, with_echo; by rewrite T1, T2).
  pose proof (settled_fed _ _ _ _ _ E Hfd') as Hfd2. destruct E as (_ & _ & [= _ L2 L3] & Hws3). cbn in L2, L3, Hws3.
  split; [by eapply unheard_trans|by rewrite L2, K2, T4|by rewrite Hws3, Hws2, T6|unfold bufs; destruct (closing s1); [by left|by right]|done|by rewrite L3, K3, T5].
Qed.

Lemma serve_step_forged tm sg env s r s' : deaf env s -> serve_step tm sg env s = Ok (r, s') -> (exists go, r = Ok go) /\ exists bufs out, host_iteration env s s' bufs out.
Proof.
  intros Hd. unfold serve_step. destruct (serve_try tm sg env s) as [[r1 s1]|] eqn:E; [|done]. destruct (serve_try_forged _ _ _ _ _ _ Hd E) as [Hr Hit].
  destruct r1 as [go|[[]|e]]; [|done|..]; intros [= <- <-]; (split; [by eexists|done]).
Qed.

Lemma serve_step_inv tm sg env s r s' : serve_step tm sg env s = Ok (r, s') -> exists r', serve_try tm sg env s = Ok (r', s').
Proof. unfold serve_step. destruct (serve_try tm sg env s) as [[r1 s1]|]; [|done]. destruct r1 as [|[[]|]]; intros [= _ <-]; by eexists. Qed.

(** C39. What an iteration does with input and output, however it ends: the
    terminal gets the user's events that are new in the state a datagram brought,
    as the transport hands them over, a resize that another one follows left out,
    and then what was read from the host (all of it, unless an exception was
    thrown, the server shuts down, or a call on the window failed); all its
    answers, in this order, are written to the host, whose window takes each size
    the terminal took.  The child is released exactly when a new state arrived. *)
Theorem serve_iteration tm sg env s r s' : Forall (fun n => 0 < n) (host_writes env) -> serve_step tm sg env s = Ok (r, s') ->
  exists w s1 us bufs out, select_timeout tm (time_before env) s = Ok (w, s1) /\ iteration env s s1 s' us bufs out.
Proof. intros Hw [r' E]%serve_step_inv. by apply (serve_try_inv tm sg env s r' s'). Qed.

(** ** Where the loop falls short *)

(** A forged datagram takes the whole iteration: the host is not read and
    nothing is sent. *)
Lemma forged_takes_iteration tm sg env s w s1 r : select_ok env = true -> network_readable env = true ->
  length (socks (server_conn s)) = 1%nat -> (forall fd, forged (session (server_conn s)) (recvmsg_env env fd)) ->
  select_timeout tm (time_before env) s = Ok (w, s1) -> get_latest_remote_state (s_network s1) = Ok r ->
  serve_step tm sg env s = Ok (Ok true, s1).
Proof.
  intros Hok Hr Hs Hf E1 El. pose proof (quiet_select _ _ _ _ _ E1 : unheard s s1) as [Uc _]. unfold serve_step, serve_try. rewrite (X_bind_Ok _ _ s w s1) by (unfold noexn; by rewrite E1). rewrite (X_bind_Ok _ _ s1 tt s1) by (unfold noexn; rewrite one_fd_ok; [done|]; unfold server_conn in Uc; by rewrite Uc). rewrite Hok. cbn [negb].
  rewrite (X_bind_Ok (noexn get) _ s1 s1 s1) by done. unfold idle_since. rewrite El. rewrite (X_bind_Ok _ _ s1 (u64 (time_after env - r_timestamp r)) s1) by done. rewrite Hr.
  destruct (network_forged env s1) as (e & E & He); [rewrite Uc; by destruct (socks _)|by rewrite Uc|]. rewrite (X_bind_Err _ _ _ _ _ E). by destruct e as [[]|].
Qed.
(** A window without columns stops the process. *)
Lemma empty_window_asserts env s h : get_window_ok env 0 = true -> set_window_ok env 0 = true -> apply_events env 0 [ResizeEvent 0 h] s = Err AssertFail.
Proof. intros H1 H2. cbn [apply_events]. unfold tell_size. rewrite H1, H2. reflexivity. Qed.
End spec.

(** A value that is said to be ignored is used. *)
Lemma ignored_timeout : timeout_envar (Some (str "60s")) = 60.
Proof. reflexivity. Qed.
Lemma ignored_timeout_spins idle : 0 <= idle < 2 ^ 62 -> network_sleep (u64 (u64 (timeout_envar (Some (str "-5x"))) * 1000)) idle = 0.
Proof.
  intros Hi. change (u64 (u64 (timeout_envar (Some (str "-5x"))) * 1000)) with (2 ^ 64 - 5000). unfold network_sleep, i64.
  assert (E : (u64 (2 ^ 64 - 5000 - idle) + 2 ^ 63) mod 2 ^ 64 - 2 ^ 63 = - 5000 - idle) by (unfold u64; Z.to_euclidean_division_equations; lia). rewrite E. by rewrite (proj2 (Z.ltb_lt _ 0)) by lia.
Qed.

(** ** An iteration with the key *)

(** The key [a] of the user, in one datagram. *)
Definition sample_keystroke : bytes :=
  let inst := MkInstruction MOSH_PROTOCOL_VERSION 0 1 0 0 (SerializeUserMessage [MkUserInstruction (Some [97]) None]) [] in
  match make_fragments inst 1000 Fragmenter_new with
  | Ok (Ok [f], _) =>
      match tostring f with
      | Ok p => match encrypt (toMessage (MkPacket 0 TO_SERVER 1000 65535 p)) (Session_new sample_key) with Ok (Ok d, _) => d | _ => [] end
      | Err _ => []
      end
  | _ => []
  end.
Definition sample_send : TickEnv := MkTickEnv (fun _ => MkSendEnv None (Ok 4)) 3 [1; 2; 3; 4].
(** The host prints [hi] after that. *)
Definition sample_serve : ServeEnv :=
  MkServeEnv 5000 5020 true true (fun _ => RecvDatagram sample_keystroke [1; 2] false true) true (Some [104; 105]) (fun _ => true) (fun _ => true) [] false false sample_send.
#[local] Instance sample_sync : SyncState Complete := CompleteSync (fun _ => seqZ 0 24).
Definition sample_start : result fault Server := Server_new 5000 sample_server None.

Lemma serve_iteration_witness : exists s s', sample_start = Ok s /\ serve_step 0 0 sample_serve s = Ok (Ok true, s') /\ to_pty s' = [97] /\ child_released s' = true /\
  exists w s1 us bufs out, select_timeout 0 (time_before sample_serve) s = Ok (w, s1) /\ iteration sample_serve s s1 s' us bufs out.
Proof.
  destruct sample_start as [s|] eqn:E; [|by vm_compute in E]. assert (H : match serve_step 0 0 sample_serve s with Ok (Ok true, s') => to_pty s' = [97] /\ child_released s' = true | _ => False end).
  { assert (Hs : match sample_start with Ok s => match serve_step 0 0 sample_serve s with Ok (Ok true, s') => to_pty s' = [97] /\ child_released s' = true | _ => False end | Err _ => False end) by (vm_compute; split; reflexivity). by rewrite E in Hs. }
  destruct (serve_step 0 0 sample_serve s) as [[[[]|] s']|] eqn:Es; try done. destruct H. exists s, s'. split_and!; [done..|].
  apply (serve_iteration 0 0 sample_serve s (Ok true) s'); [constructor|exact Es].
Defined.
