(* ===== verification/ServerWait.v ===== *)
(** * A server that waits for its client

    Before an authentic datagram arrives the server runs without a fault, sends
    nothing, starts no login session and gives up in time. *)
From S2P Require Export ServerSpec.

Section waiting.
Context `{HLibc : Libc} `{HLL : !LibcLaws} `{HHC : HostCodec} `{HUC : UserCodec} `{HAE : AE} `{HAL : !AELaws} `{HTC : TransportCodec} (addr : Complete -> list Z).
#[local] Instance Hsync : SyncState Complete := CompleteSync addr.

(** ** The sender has nothing but its first state *)

Definition lone (e : Endpoint Complete) : Prop :=
  exists n, sent_states (sender e) = [n] /\ assumed_receiver_state (sender e) = node_id n.

Lemma deref_lone (n : TimestampedState Complete) : deref (node_id n) [n] = Ok n.
Proof. unfold deref. cbn. by rewrite decide_True. Qed.

Lemma lone_sender (f : TransportSender Complete -> TransportSender Complete) e :
  lone e -> (forall s, sent_states (f s) = sent_states s /\ assumed_receiver_state (f s) = assumed_receiver_state s) -> lone (e <| sender := f (sender e) |>).
Proof. intros (n & E1 & E2) Hf. destruct (Hf (sender e)) as [F1 F2]. exists n. cbn. by rewrite F1, F2. Qed.

Lemma on_sender_modify (f : TransportSender Complete -> TransportSender Complete) e : on_sender (modify f) e = Ok (tt, e <| sender := f (sender e) |>).
Proof. done. Qed.

Lemma triple_sender_modify f : (forall s : TransportSender Complete, sent_states (f s) = sent_states s /\ assumed_receiver_state (f s) = assumed_receiver_state s) ->
  preserves lone (on_sender (modify f)).
Proof. intros Hf e He. exists tt, (e <| sender := f (sender e) |>). split; [done|]. by apply lone_sender. Qed.

Lemma timers_lone now : preserves lone (calculate_timers now).
Proof.
  unfold calculate_timers. apply (triple_bind _ _ _ (fun _ => lone)).
  { intros e (n & E1 & E2). unfold update_assumed_receiver_state. rewrite (M_bind_Ok get _ e e e) by done. rewrite E1. cbn [assume_loop].
    eexists tt, _. split; [done|]. by exists n. }
  intros _. apply (triple_bind _ _ _ (fun _ => lone)).
  { intros e (n & E1 & E2). unfold rationalize_states, on_sender, zoom. rewrite (M_bind_Ok get _ _ _ _) by done. rewrite E1. eexists tt, _. split; [done|]. eexists. split; [done|]. done. }
  intros _. unfold set_timers. apply (triple_bind _ _ _ (fun _ => lone)); [intros e He; by exists (conn e), e|intros c].
  apply (triple_bind _ _ _ (fun _ => lone)); [apply triple_sender_modify; intros s; by destruct (_ && _)|intros _].
  intros e (n & E1 & E2). rewrite (M_bind_Ok (gets sender) _ e (sender e) e) by done. rewrite E1. rewrite (M_bind_Ok (lift _) _ e n e) by done. rewrite (M_bind_Ok (lift _) _ e n e) by done.
  assert (He : lone e) by (by exists n). revert e E1 E2 He. intros e E1 E2. rewrite E2, deref_lone. intros He. generalize (sender e). intros s. clear E1 E2. revert e He.
  apply (triple_bind _ _ _ (fun _ => lone)); [|intros _; apply triple_sender_modify; intros s'; by destruct (_ || _)].
  apply triple_if; intros _.
  - apply (triple_bind _ _ _ (fun _ => lone)); [apply triple_sender_modify; intros s'; by destruct (_ =? _)|intros _]. by apply triple_sender_modify.
  - apply (triple_bind _ _ _ (fun a e => lone e)); [intros e He; by exists n, e|intros m]. apply triple_if; intros _.
    + apply (triple_bind _ _ _ (fun _ => lone)); [by apply triple_sender_modify|intros _]. apply triple_sender_modify. intros s'. by destruct (_ =? _).
    + apply triple_if; intros _; by apply triple_sender_modify.
Qed.

Lemma wait_lone now : preserves lone (wait_time now).
Proof.
  unfold wait_time. apply (triple_bind _ _ _ (fun _ => lone)); [apply timers_lone|intros _]. intros e He. rewrite (M_bind_Ok get _ e e e) by done. cbv zeta. destruct (negb _); by eexists _, e.
Qed.
Lemma tick_lone now env e : lone e -> has_remote_addr (conn e) = false -> exists e', tick now env e = Ok (Ok tt, e') /\ lone e'.
Proof.
  intros He Ha. destruct (timers_lone now e He) as ([] & e' & E & He'). exists e'. split; [|done]. unfold tick.
  rewrite (X_bind_Ok _ _ e tt e') by (unfold noexn; by rewrite E). rewrite (X_bind_Ok _ _ e' e' e') by done. by rewrite (conn_same_timers _ _ _ _ E), Ha.
Qed.

(** ** The server *)

Record waiting (s : Server) : Prop := {
  wa_sender : lone (endpoint (s_network s));
  wa_received : received_states (s_network s) <> [];
  wa_addr : has_remote_addr (server_conn s) = false;
  wa_socks : length (socks (server_conn s)) = 1%nat;
  wa_terminal : exists w h, complete_inv w h (s_terminal s) }.

(** What the system may do: the octets are octets, the datagrams are forged. *)
Definition env_ok (s : Session) (env : ServeEnv) : Prop :=
  (forall fd, forged s (recvmsg_env env fd)) /\ Forall (fun n => 0 < n) (host_writes env) /\
  match host_read env with Some buf => Forall is_u8 buf | None => True end.

Lemma waiting_endpoint s e : waiting s -> lone e -> conn e = server_conn s -> waiting (s <| s_network := (s_network s) <| endpoint := e |> |>).
Proof. intros [H1 H2 H3 H4 H5] He Hc. split; cbn; try done; unfold server_conn in *; cbn; by rewrite Hc. Qed.
Lemma waiting_terminal s t w h : waiting s -> complete_inv w h t -> waiting (s <| s_terminal := t |>).
Proof. intros [H1 H2 H3 H4 H5] Ht. split; try done. by exists w, h. Qed.

Lemma endpoint_waiting {A} (m : M (Endpoint Complete) A) : preserves lone m -> keeps conn m -> preserves waiting (on_s_endpoint m).
Proof.
  intros Hm Hc s Hs. destruct (Hm _ (wa_sender _ Hs)) as (a & e & E & He). exists a, (s <| s_network := (s_network s) <| endpoint := e |> |>). split; [|by apply waiting_endpoint; [..|apply (Hc _ _ _ E)]].
  unfold on_s_endpoint, on_s_network, on_endpoint, zoom. by rewrite E.
Qed.

Lemma waiting_socks s : waiting s -> socks (server_conn s) <> [].
Proof. intros Hs E. pose proof (wa_socks _ Hs) as Hl. by rewrite E in Hl. Qed.

Lemma latest_waiting s : waiting s -> exists r, get_latest_remote_state (s_network s) = Ok r /\ get_remote_state_num (s_network s) = Ok (r_num r).
Proof.
  intros Hs. pose proof (wa_received _ Hs) as Hr. unfold get_latest_remote_state, get_remote_state_num. destruct (last (received_states (s_network s))) as [r|] eqn:E; [by exists r|]. by apply last_None in E.
Qed.

Lemma latest_num {A B} (t : Transport A B) r : get_latest_remote_state t = Ok r -> get_remote_state_num t = Ok (r_num r).
Proof. unfold get_latest_remote_state, get_remote_state_num. destruct (last _); [|done]. by intros [= ->]. Qed.

Lemma select_waiting tm now : preserves waiting (select_timeout tm now).
Proof.
  unfold select_timeout. apply (triple_bind _ _ _ (fun _ => waiting)); [apply endpoint_waiting; [apply wait_lone|apply conn_same_wait]|intros w].
  intros s Hs. rewrite (M_bind_Ok get _ s s s) by done. cbv zeta. destruct (latest_waiting s Hs) as (r & E1 & E2). rewrite E2, (M_bind_Ok (lift _) _ s (r_num r) s) by done.
  unfold idle_since. rewrite E1. eexists _, s. by split.
Qed.

Lemma shutdown_waiting now : preserves waiting (s_start_shutdown now).
Proof. apply endpoint_waiting; [|apply conn_same_sender]. apply triple_sender_modify. intros s. unfold start_shutdown. by destruct (shutdown_in_progress s). Qed.

Lemma publish_waiting s : waiting s -> shutdown_in_progress (server_sender s) = false -> exists s', publish s = Ok (tt, s') /\ waiting s'.
Proof.
  intros Hs Hd. unfold publish. rewrite (M_bind_Ok (gets s_terminal) _ s (s_terminal s) s) by done.
  eexists. unfold on_s_endpoint, on_s_network, on_endpoint, on_sender, zoom, set_current_state. unfold server_sender in Hd. cbn. unfold mbind, M_bind, get, assert_. rewrite Hd. cbn. split; [done|].
  apply (waiting_endpoint s ((endpoint (s_network s)) <| sender := (sender (endpoint (s_network s))) <| current_state := complete_reset_input (s_terminal s) |> |>)); [done| |done].
  apply (lone_sender (fun x => x <| current_state := complete_reset_input (s_terminal s) |>)); [apply Hs|done].
Qed.
Lemma publish_unless_waiting : preserves waiting publish_unless_shutdown.
Proof.
  intros s Hs. unfold publish_unless_shutdown. rewrite (M_bind_Ok get _ s s s) by done. destruct (shutdown_in_progress (server_sender s)) eqn:E; [by exists tt, s|].
  destruct (publish_waiting s Hs E) as (s' & E' & Hs'). by exists tt, s'.
Qed.

Lemma when_waiting b m : preserves waiting m -> preserves waiting (when_ b m).
Proof. intros Hm. by apply triple_when. Qed.

Lemma host_waiting k env : env_ok k env -> preserves waiting (serve_host env).
Proof.
  intros (_ & _ & Hb) s Hs. unfold serve_host. rewrite (M_bind_Ok get _ s s s) by done. destruct (shutdown_in_progress (server_sender s)) eqn:Hd; cbn [negb andb]; [by exists [], s|].
  destruct (host_readable env); [|by exists [], s]. destruct (host_read env) as [[|c buf]|].
  - destruct (shutdown_waiting (time_after env) s Hs) as ([] & s' & E & Hs'). exists [], s'. by rewrite (M_bind_Ok _ _ _ _ _ E).
  - destruct (wa_terminal _ Hs) as (w & h & Hi). destruct (act_triple w h (c :: buf) Hb _ Hi) as (out & t & E & Ht & _).
    rewrite (M_bind_Ok (on_s_terminal _) _ s out (s <| s_terminal := t |>)) by (unfold on_s_terminal, zoom; by rewrite E).
    destruct (publish_waiting (s <| s_terminal := t |>) (waiting_terminal _ _ _ _ Hs Ht) Hd) as (s' & E' & Hs'). rewrite (M_bind_Ok _ _ _ _ _ E'). by exists out, s'.
  - destruct (shutdown_waiting (time_after env) s Hs) as ([] & s' & E & Hs'). exists [], s'. by rewrite (M_bind_Ok _ _ _ _ _ E).
Qed.

Lemma write_waiting env o : preserves waiting (serve_write env o).
Proof.
  unfold serve_write. destruct (swrite_loop _ _) as [out r]. apply (triple_bind _ _ _ (fun _ => waiting)); [|intros _; apply when_waiting, shutdown_waiting].
  intros s []. eexists _, _. split; [done|]. by split.
Qed.

Lemma echo_waiting now s : waiting s -> waiting (s <| s_terminal := (set_echo_ack now (s_terminal s)).2 |>).
Proof. intros Hs. destruct (wa_terminal _ Hs) as (w & h & Hi). by apply (waiting_terminal s _ w h). Qed.

Lemma tick_waiting env s : waiting s -> exists s', network_tick env s = Ok (Ok tt, s') /\ waiting s'.
Proof.
  intros Hs. destruct (tick_lone (time_after env) (tick_env env) _ (wa_sender _ Hs) (wa_addr _ Hs)) as (e & E & He). exists (s <| s_network := (s_network s) <| endpoint := e |> |>).
  assert (En : network_tick env s = Ok (Ok tt, s <| s_network := (s_network s) <| endpoint := e |> |>)) by (unfold network_tick, zoom; by rewrite E). split; [done|].
  destruct (tick_unheard _ _ _ _ (wa_addr _ Hs) En) as [_ [Hc _]]. by apply waiting_endpoint.
Qed.

Lemma end_waiting tm sg idle env s : waiting s -> exists go s', serve_end tm sg idle env s = Ok (Ok go, s') /\ waiting s'.
Proof.
  intros Hs. unfold serve_end. rewrite (X_bind_Ok (noexn get) _ s s s) by done. cbv zeta. destruct (_ && negb _); [by exists false, s|].
  assert (Hx : forall {A} (m : M Server A) (k : A -> X Server bool) s, preserves waiting m -> waiting s ->
    (forall a s1, m s = Ok (a, s1) -> waiting s1 -> exists go s', k a s1 = Ok (Ok go, s') /\ waiting s') -> exists go s', (noexn m ≫= k) s = Ok (Ok go, s') /\ waiting s').
  { intros A m k s0 Hm H0 Hk. destruct (Hm s0 H0) as (a & s1 & E & H1). rewrite (X_bind_Ok _ _ s0 a s1) by (unfold noexn; by rewrite E). by apply Hk. }
  apply Hx; [apply when_waiting, shutdown_waiting|done|]. intros _ s1 _ Hs1. rewrite (X_bind_Ok (noexn get) _ s1 s1 s1) by done.
  assert (Hack : exists b, (if shutdown_in_progress (server_sender s1) then lift (get_shutdown_acknowledged (server_sender s1)) else mret false) s1 = Ok (b, s1)).
  { destruct (shutdown_in_progress _); [|by eexists]. destruct (wa_sender _ Hs1) as (n & E & _). unfold get_shutdown_acknowledged, server_sender. rewrite E. by eexists. }
  destruct Hack as [b Eb]. rewrite (X_bind_Ok _ _ s1 b s1) by (unfold noexn; by rewrite Eb). destruct b; [by exists false, s1|].
  destruct (_ && _); [by exists false, s1|]. destruct (_ =? UINT64_MAX); [by exists false, s1|].
  pose proof (echo_waiting (time_after env) s1 Hs1) as Hs2. destruct (set_echo_ack (time_after env) (s_terminal s1)) as [changed t]. cbn [snd] in Hs2.
  rewrite (X_bind_Ok _ _ s1 tt (s1 <| s_terminal := t |>)) by done. apply Hx; [apply when_waiting, publish_unless_waiting|done|]. intros _ s3 _ Hs3.
  destruct (latest_waiting s1 Hs1) as (r & _ & En). rewrite En. rewrite (X_bind_Ok _ _ s3 (r_num r) s3) by done. destruct (_ && _); [by exists false, s3|].
  destruct (tick_waiting env s3 Hs3) as (s4 & E4 & Hs4). rewrite (X_bind_Ok _ _ s3 tt s4) by done. by exists true, s4.
Qed.

Lemma try_waiting tm sg env s : waiting s -> env_ok (session (server_conn s)) env -> exists r s', serve_try tm sg env s = Ok (r, s') /\ waiting s'.
Proof.
  intros Hs Henv. pose proof Henv as (Hf & _). unfold serve_try. destruct (select_waiting tm (time_before env) s Hs) as (w & s1 & E1 & Hs1). pose proof (quiet_select _ _ _ _ _ E1 : unheard s s1) as [Uc _].
  rewrite (X_bind_Ok _ _ s w s1) by (unfold noexn; by rewrite E1). rewrite (X_bind_Ok _ _ s1 tt s1) by (unfold noexn; by rewrite (one_fd_ok s1 (wa_socks _ Hs1))). destruct (select_ok env); cbn [negb]; [|by exists (Ok false), s1].
  rewrite (X_bind_Ok (noexn get) _ s1 s1 s1) by done. destruct (latest_waiting s1 Hs1) as (r & El & _). unfold idle_since. rewrite El. rewrite (X_bind_Ok _ _ s1 (u64 (time_after env - r_timestamp r)) s1) by done.
  assert (Hin : (exists e, (if network_readable env then serve_network env else mret []) s1 = Ok (Err e, s1)) \/ (if network_readable env then serve_network env else mret []) s1 = Ok (Ok [], s1)).
  { destruct (network_readable env); [left|by right]. destruct (network_forged env s1) as (e & E & _); [by apply waiting_socks|by rewrite Uc|]. by exists e. }
  destruct Hin as [(e & E)|E]; [rewrite (X_bind_Err _ _ _ _ _ E); by exists (Err e), s1|]. rewrite (X_bind_Ok _ _ _ _ _ E).
  destruct (host_waiting _ env Henv s1 Hs1) as (out & s2 & E2 & Hs2). rewrite (X_bind_Ok _ _ s1 out s2) by (unfold noexn; by rewrite E2).
  destruct (write_waiting env ([] ++ out) s2 Hs2) as ([] & s3 & E3 & Hs3). rewrite (X_bind_Ok _ _ s2 tt s3) by (unfold noexn; by rewrite E3).
  destruct (end_waiting tm sg (u64 (time_after env - r_timestamp r)) env s3 Hs3) as (go & s4 & E4 & Hs4). rewrite E4. by exists (Ok go), s4.
Qed.

Lemma waiting_deaf env s : waiting s -> env_ok (session (server_conn s)) env -> deaf env s.
Proof. intros Hs (H1 & H2 & _). split_and!; [apply Hs|by apply waiting_socks|done|done]. Qed.

Lemma step_waiting tm sg env s : waiting s -> env_ok (session (server_conn s)) env ->
  exists go s' bufs out, serve_step tm sg env s = Ok (Ok go, s') /\ waiting s' /\ host_iteration env s s' bufs out.
Proof.
  intros Hs Henv. destruct (try_waiting tm sg env s Hs Henv) as (r & s' & E & Hs'). pose proof (waiting_deaf _ _ Hs Henv) as Hd.
  assert (E' : exists r', serve_step tm sg env s = Ok (r', s')) by (unfold serve_step; rewrite E; destruct r as [|[[]|]]; by eexists). destruct E' as [r' E'].
  destruct (serve_step_forged _ _ _ _ _ _ Hd E') as [[go ->] (bufs & out & Hit)]. by exists go, s', bufs, out.
Qed.

(** Nobody came: the iteration is the last. *)
Lemma end_no_client tm sg idle env s go s' : serve_end tm sg idle env s = Ok (Ok go, s') -> get_remote_state_num (s_network s) = Ok 0 -> timeout_if_no_client <= idle -> go = false.
Proof.
  intros E Hn Hi. unfold serve_end in E. apply noexn_bind_inv in E as (? & ? & [= <- <-] & E). cbv zeta in E. destruct (_ && negb _); [by apply xret_inv in E as [[= ->] _]|].
  apply noexn_bind_inv in E as (? & s1 & E1 & E). assert (U1 : unheard s s1) by (refine (follows_if unheard _ _ _ _ _ _ _ _ E1); [apply quiet_shutdown|apply follows_ret, _]).
  assert (Hn1 : get_remote_state_num (s_network s1) = Ok 0) by (unfold get_remote_state_num in *; by rewrite (proj2 U1)).
  apply noexn_bind_inv in E as (? & ? & [= <- <-] & E). apply noexn_bind_inv in E as (acked & s2 & _ & E).
  destruct acked; [by apply xret_inv in E as [[= ->] _]|]. destruct (_ && _) in E; [by apply xret_inv in E as [[= ->] _]|]. destruct (_ =? UINT64_MAX) in E; [by apply xret_inv in E as [[= ->] _]|].
  destruct (set_echo_ack _ _) as [changed t]. apply noexn_bind_inv in E as (? & s3 & _ & E). apply noexn_bind_inv in E as (? & s4 & _ & E).
  rewrite Hn1 in E. apply noexn_bind_inv in E as (n & s5 & [[= <-] ->]%lift_inv & E). rewrite (proj2 (Z.leb_le timeout_if_no_client idle)) in E by done. by apply xret_inv in E as [[= ->] _].
Qed.

Lemma step_gives_up tm sg env s r : waiting s -> env_ok (session (server_conn s)) env -> network_readable env = false ->
  get_latest_remote_state (s_network s) = Ok r -> r_num r = 0 -> timeout_if_no_client <= u64 (time_after env - r_timestamp r) ->
  exists s', serve_step tm sg env s = Ok (Ok false, s').
Proof.
  intros Hs Henv Hnr Hr Hn Hi. destruct (step_waiting tm sg env s Hs Henv) as (go & s' & bufs & out & E & _ & _). exists s'. rewrite E. do 3 f_equal.
  unfold serve_step in E. destruct (serve_try tm sg env s) as [[x s1]|] eqn:Et; [|done]. unfold serve_try in Et. apply noexn_bind_inv in Et as (w & s2 & E2 & Et). pose proof (quiet_select _ _ _ _ _ E2 : unheard s s2) as U2. apply noexn_bind_inv in Et as (? & ? & ->%one_fd_inv & Et).
  destruct (select_ok env); cbn [negb] in Et; [|apply xret_inv in Et as [-> ->]; by injection E]. apply noexn_bind_inv in Et as (? & ? & [= <- <-] & Et).
  assert (Hr2 : get_latest_remote_state (s_network s2) = Ok r) by (unfold get_latest_remote_state in *; by rewrite (proj2 U2)). unfold idle_since in Et. rewrite Hr2 in Et. apply noexn_bind_inv in Et as (idle & ? & [[= <-] ->]%lift_inv & Et).
  rewrite Hnr in Et. apply xbind_inv in Et as [(? & Ec & _)|(? & ? & [[= ->] ->]%xret_inv & Et)]; [done|]. apply noexn_bind_inv in Et as (? & s4 & U4%quiet_host & Et). apply noexn_bind_inv in Et as (? & s5 & U5%quiet_write & Et).
  assert (Hn5 : get_remote_state_num (s_network s5) = Ok 0).
  { rewrite <- Hn, <- (latest_num _ _ Hr2). unfold get_remote_state_num. by rewrite (proj2 U5), (proj2 U4). }
  destruct x as [go'|e].
  - injection E as <- _. exact (end_no_client _ _ _ _ _ _ _ Et Hn5 Hi).
  - assert (Ha5 : has_remote_addr (server_conn s5) = false) by (rewrite (proj1 U5), (proj1 U4), (proj1 U2); apply Hs).
    by destruct (serve_end_unheard _ _ _ _ _ _ _ Ha5 Et) as [[] _].
Qed.

(** ** From the start of the program *)

Definition window_ok (window_size : option (Z * Z)) : Prop := match window_size with Some (w, h) => 0 <= w /\ 0 <= h | None => True end.

Lemma Complete_new_ok w h g : (MB_CUR_MAX <= BUF_SIZE)%nat -> 0 < w -> 0 < h -> exists t, Complete_new w h g = Ok t.
Proof.
  intros Hmb Hw Hh. unfold Complete_new, Emulator_new, Framebuffer_new, UTF8Parser_new. rewrite bool_decide_true by done. cbn [mbind result_bind].
  rewrite (proj2 (Z.ltb_lt 0 h)), (proj2 (Z.ltb_lt 0 w)) by done. by eexists.
Qed.

Lemma Server_new_waiting now c window_size : (MB_CUR_MAX <= BUF_SIZE)%nat -> has_remote_addr c = false -> length (socks c) = 1%nat -> window_ok window_size ->
  exists s, Server_new now c window_size = Ok s /\ waiting s /\ server_conn s = c /\ received_states (s_network s) = [MkReceived now 0 []] /\
    child_released s = false /\ window_sizes s = [] /\ to_pty s = [].
Proof.
  intros Hmb Ha Hs Hw. unfold Server_new. assert (Hi : 0 < (initial_window window_size).1 /\ 0 < (initial_window window_size).2).
  { unfold initial_window. destruct window_size as [[w h]|]; [|done]. destruct Hw. destruct (Z.eqb_spec w 0), (Z.eqb_spec h 0); cbn; lia. }
  destruct (initial_window window_size) as [w h]. cbn [fst snd] in Hi.
  destruct (Complete_new_ok w h 0 Hmb (proj1 Hi) (proj2 Hi)) as [t Et]. rewrite Et.
  eexists. split; [done|]. split; [|done]. split; [by eexists|done|done|done|]. exists w, h. by apply Complete_new_inv in Et.
Qed.

Lemma host_bufs_sublist env bs : bs = [] \/ bs = host_bufs env -> exists l, bs = FromHost <$> l /\ sublist l (option_list (host_read env)).
Proof.
  intros [->| ->]; [by exists []; split; [|apply sublist_nil_l]|]. unfold host_bufs. destruct (host_readable env), (host_read env) as [[|c b]|]; try (exists []; split; [done|apply sublist_nil_l]).
  by exists [c :: b].
Qed.

Lemma loop_waiting tm sg envs : forall s, waiting s -> Forall (env_ok (session (server_conn s))) envs ->
  exists go s' bufs out, serve_loop tm sg envs s = Ok (Ok go, s') /\ waiting s' /\
    child_released s' = child_released s /\ window_sizes s' = window_sizes s /\
    server_conn s' = server_conn s /\ received_states (s_network s') = received_states (s_network s) /\
    sublist bufs (omap host_read envs) /\ fed (FromHost <$> bufs) (s_terminal s) out (s_terminal s') /\ to_pty s' = to_pty s ++ out.
Proof.
  induction envs as [|env envs IH]; intros s Hs Henvs.
  { exists true, s, [], []. split; [done|]. rewrite app_nil_r. done. }
  inversion_clear Henvs as [|? ? He Hes]. destruct (step_waiting tm sg env s Hs He) as (go & s1 & bs & o & E & Hs1 & [[U1 U2] C W H F P]).
  assert (Hb : exists l, bs = FromHost <$> l /\ sublist l (option_list (host_read env))) by (apply host_bufs_sublist, H).
  destruct Hb as (l & -> & Hl). assert (Eomap : omap host_read (env :: envs) = option_list (host_read env) ++ omap host_read envs) by (cbn; by destruct (host_read env)). rewrite Eomap.
  cbn [serve_loop]. rewrite (X_bind_Ok _ _ _ _ _ E). destruct go.
  - rewrite <- U1 in Hes. destruct (IH s1 Hs1 Hes) as (go & s' & bufs & out & E' & Hs' & C' & W' & U1' & U2' & Hsub & F' & P').
    exists go, s', (l ++ bufs), (o ++ out). split; [done|]. rewrite C', W', U1', U2', P', P, app_assoc, fmap_app. split_and!; try done; [by apply sublist_app|by eapply fed_app].
  - exists false, s1, l, o. split_and!; try done. by apply sublist_inserts_r.
Qed.

Lemma loop_app tm sg envs env s go s' : serve_loop tm sg envs s = Ok (Ok go, s') ->
  serve_loop tm sg (envs ++ [env]) s = if go then (serve_step tm sg env ≫= fun go => if (go : bool) then mret true else mret false) s' else Ok (Ok false, s').
Proof.
  revert s. induction envs as [|e envs IH]; intros s; cbn [serve_loop app]; [by intros [= <- <-]|].
  intros [(x & _ & Ex)|(g & s1 & E1 & E2)]%xbind_inv; [done|]. rewrite (X_bind_Ok _ _ _ _ _ E1). destruct g; [by apply IH|]. by apply xret_inv in E2 as [[= ->] ->].
Qed.

(** C13. No key, no session: a server that has just started runs through any
    iterations in which every datagram fails to decrypt or to parse under its
    key, whatever the host prints and whatever signals come, without a fault or
    an uncaught exception.  It sends nothing and learns no address (its
    connection stays as it was), does not release the child that waits to start
    the login session, and sets no window size; the terminal sees the output of
    the host alone, in order, and the host gets the terminal's answers to it
    and nothing more. *)
Theorem server_waits now c window_size network_timeout signaled_timeout envs :
  (MB_CUR_MAX <= BUF_SIZE)%nat -> has_remote_addr c = false -> length (socks c) = 1%nat -> window_ok window_size -> Forall (env_ok (session c)) envs ->
  exists s go s' bufs out, Server_new now c window_size = Ok s /\ serve network_timeout signaled_timeout envs s = Ok (Ok go, s') /\
    child_released s' = false /\ window_sizes s' = [] /\ server_conn s' = c /\
    sublist bufs (omap host_read envs) /\ fed (FromHost <$> bufs) (s_terminal s) out (s_terminal s') /\ to_pty s' = out.
Proof.
  intros Hmb Ha Hs Hw Henvs. destruct (Server_new_waiting now c window_size Hmb Ha Hs Hw) as (s & E & Hwait & Hc & _ & H1 & H2 & H3). rewrite <- Hc in Henvs.
  destruct (loop_waiting (u64 (u64 network_timeout * 1000)) (u64 (u64 signaled_timeout * 1000)) envs s Hwait Henvs) as (go & s' & bufs & out & E' & _ & C & W & U & _ & Hsub & F & P).
  exists s, go, s', bufs, out. split_and!; [done|done|by rewrite C|by rewrite W|by rewrite U|done|done|by rewrite P, H3].
Qed.

(** C29. It gives up: whatever happened before, the first iteration without a
    datagram that comes a minute or more after the start ends the loop. *)
Theorem server_gives_up now c window_size network_timeout signaled_timeout envs env :
  (MB_CUR_MAX <= BUF_SIZE)%nat -> has_remote_addr c = false -> length (socks c) = 1%nat -> window_ok window_size -> Forall (env_ok (session c)) (envs ++ [env]) ->
  network_readable env = false -> timeout_if_no_client <= u64 (time_after env - now) ->
  exists s s', Server_new now c window_size = Ok s /\ serve network_timeout signaled_timeout (envs ++ [env]) s = Ok (Ok false, s').
Proof.
  intros Hmb Ha Hs Hw Hall Hr Ht. apply Forall_app in Hall as [Henvs Henv]. rewrite Forall_singleton in Henv. destruct (Server_new_waiting now c window_size Hmb Ha Hs Hw) as (s & E & Hwait & Hc & Hrec & _). rewrite <- Hc in Henvs, Henv.
  exists s. unfold serve. destruct (loop_waiting (u64 (u64 network_timeout * 1000)) (u64 (u64 signaled_timeout * 1000)) envs s Hwait Henvs) as (go & s' & bufs & out & E' & Hs' & _ & _ & U & Urec & _).
  rewrite (loop_app _ _ _ _ _ _ _ E'). destruct go; [|by exists s']. rewrite <- U in Henv.
  assert (Hl : get_latest_remote_state (s_network s') = Ok (MkReceived now 0 [])) by (unfold get_latest_remote_state; by rewrite Urec, Hrec).
  destruct (step_gives_up (u64 (u64 network_timeout * 1000)) (u64 (u64 signaled_timeout * 1000)) env s' _ Hs' Henv Hr Hl eq_refl Ht) as (s2 & E2). exists s2. split; [done|]. by rewrite (X_bind_Ok _ _ _ _ _ E2).
Qed.
End waiting.

(** ** A server nobody reaches *)

(** The host prints [hi]; a datagram, if there is one, has no packet in it. *)
Definition sample_idle (now : Z) (readable : bool) : ServeEnv :=
  MkServeEnv now now true readable (fun _ => RecvDatagram (seqZ 0 30) [1; 2] false true) true (Some [104; 105]) (fun _ => true) (fun _ => true) [] false false sample_send.
Definition sample_noise : ServeEnv := sample_idle 5020 true.
Definition sample_host : ServeEnv := sample_idle 5040 false.
(** A minute after the start. *)
Definition sample_late : ServeEnv := sample_idle 65000 false.

#[local] Existing Instance sample_sync.

Lemma sample_env_ok now readable : env_ok (session sample_server) (sample_idle now readable).
Proof.
  split_and!; [|constructor|repeat constructor; done].
  intros fd. split; [done|]. exists (CryptoException false). vm_compute. reflexivity.
Qed.

Lemma server_waits_witness : exists s go s' bufs out, Server_new 5000 sample_server None = Ok s /\ serve 0 0 [sample_noise; sample_host] s = Ok (Ok go, s') /\
  child_released s' = false /\ window_sizes s' = [] /\ server_conn s' = sample_server /\
  sublist bufs (omap host_read [sample_noise; sample_host]) /\ fed (FromHost <$> bufs) (s_terminal s) out (s_terminal s') /\ to_pty s' = out.
Proof. apply (server_waits (fun _ => seqZ 0 24)); [vm_compute; lia|done|done|done|repeat apply Forall_cons_2; first [apply sample_env_ok|constructor]]. Defined.

Lemma server_gives_up_witness : exists s s', Server_new 5000 sample_server None = Ok s /\ serve 0 0 ([sample_noise; sample_host] ++ [sample_late]) s = Ok (Ok false, s').
Proof. apply (server_gives_up (fun _ => seqZ 0 24)); [vm_compute; lia|done|done|done|repeat apply Forall_cons_2; first [apply sample_env_ok|constructor]|done|vm_compute; congruence]. Defined.
