(* ===== verification/Start.v ===== *)
(** * How the programs start

    The arguments and the environment of mosh-client and mosh-server
    (frontend/mosh-client.cc, frontend/mosh-server.cc up to [run_server]), the
    locale helpers (util/locale_utils.cc) and what they use of the C library. *)
From stdpp Require Import gmap.
From S2P Require Export Crypto Connection.

(** ** The C library *)

(** Environments. *)
Abbreviation Environ := (gmap (list Z) bytes).
Definition getenv (name : string) (e : Environ) : option bytes := e !! str name.
Definition setenv (name : string) (v : bytes) (e : Environ) : Environ := <[str name := v]> e.
Definition unsetenv (name : string) (e : Environ) : Environ := delete (str name) e.

(** The octets before the first [c], and those after it. *)
Fixpoint split_at (c : Z) (s : bytes) : option (bytes * bytes) :=
  match s with
  | [] => None
  | x :: s' => if x =? c then Some ([], s') else '(a, b) ← split_at c s'; Some (x :: a, b)
  end.
Definition putenv (s : bytes) (e : Environ) : Environ :=
  match split_at 61 s with Some (name, v) => <[name := v]> e | None => delete s e end.

(** A string up to its first NUL. *)
Definition cstring (s : bytes) : bytes := match split_at 0 s with Some (a, _) => a | None => s end.
Definition atoi (s : bytes) : Z := i32 (st_val (strtol s)).

Definition starts_with (p s : bytes) : bool := bool_decide (take (length p) s = p).

(** Words between separators. *)
Fixpoint words_of (sep : Z -> bool) (cur : bytes) (s : bytes) : list bytes :=
  let flush := if bool_decide (cur = []) then [] else [cur] in
  match s with
  | [] => flush
  | c :: s' => if sep c then flush ++ words_of sep [] s' else words_of sep (cur ++ [c]) s'
  end.

(** What follows the last [c]. *)
Definition after_last (c : Z) (s : bytes) : bytes := foldl (fun acc x => if x =? c then [] else acc ++ [x]) [] s.

Definition to_lower (c : Z) : Z := if (65 <=? c) && (c <=? 90) then c + 32 else c.

(** [getopt]: an option with its argument, or [None] for an unknown option or a
    missing argument.  [next] is the argument after this one; the boolean says
    that it was taken. *)
Definition Opt : Type := option (Z * bytes).
Fixpoint getopt_cluster (optstring : list (Z * bool)) (next : option bytes) (s : bytes) : list Opt * bool :=
  match s with
  | [] => ([], false)
  | c :: s' =>
      match list_find (fun o => o.1 = c) optstring with
      | None => let '(l, b) := getopt_cluster optstring next s' in (None :: l, b)
      | Some (_, (_, false)) => let '(l, b) := getopt_cluster optstring next s' in (Some (c, []) :: l, b)
      | Some (_, (_, true)) =>
          if negb (bool_decide (s' = [])) then ([Some (c, s')], false)
          else match next with Some a => ([Some (c, a)], true) | None => ([None], false) end
      end
  end.
(** The options and the other arguments; [posix] libraries stop at the first
    argument that is no option, others go on. *)
Definition is_option (a : bytes) : bool := starts_with (str "-") a && (1 <? lenZ a).
Fixpoint getopt (posix : bool) (optstring : list (Z * bool)) (args : list bytes) : list Opt * list bytes :=
  match args with
  | [] => ([], [])
  | a :: rest =>
      if bool_decide (a = str "--") then ([], rest) else
      if is_option a then
        let '(l, took) := getopt_cluster optstring (head rest) (tail a) in
        let '(l', others) :=
          match rest with
          | _ :: rest' => if took then getopt posix optstring rest' else getopt posix optstring rest
          | [] => ([], [])
          end in
        (l ++ l', others)
      else if posix then ([], a :: rest)
      else let '(l, others) := getopt posix optstring rest in (l, a :: others)
  end.

(** ** mosh-client *)

Inductive ClientStart : Type :=
| ClientExit (status : Z)
| ClientRun (ip port key : bytes) (predict_mode predict_overwrite : option bytes) (verbose : Z).

Definition client_optstring : list (Z * bool) := [(chr "#", true); (chr "c", false); (chr "v", false)].

(** The [switch] over the options: the exit status or [verbose]. *)
Fixpoint client_options (verbose : Z) (opts : list Opt) : Z + Z :=
  match opts with
  | [] => inr verbose
  | Some (c, _) :: opts' =>
      if c =? chr "#" then client_options verbose opts'
      else if c =? chr "c" then inl 0
      else if c =? chr "v" then client_options (u32 (verbose + 1)) opts'
      else inl 1
  | None :: _ => inl 1
  end.

Definition client_main (posix : bool) (argv : list bytes) (env : Environ) : result fault ClientStart :=
  match argv with
  | [] => Err AssertFail
  | _ :: args =>
      if existsb (fun a => bool_decide (a = str "--help") || bool_decide (a = str "--version")) args then Ok (ClientExit 0) else
      let '(opts, others) := getopt posix client_optstring args in
      match client_options 0 opts with
      | inl status => Ok (ClientExit status)
      | inr verbose =>
          match others with
          | [ip; desired_port] =>
              if negb (forallb is_digit desired_port) then Ok (ClientExit 1) else
              match getenv "MOSH_KEY" env with
              | None => Ok (ClientExit 1)
              | Some key => Ok (ClientRun ip desired_port key (getenv "MOSH_PREDICTION_DISPLAY" env) (getenv "MOSH_PREDICTION_OVERWRITE" env) verbose)
              end
          | _ => Ok (ClientExit 1)
          end
      end
  end.

(** ** Locales (util/locale_utils.cc) *)

(** The character set of the locale that [setlocale( LC_ALL, "" )] installs,
    [None] when it fails. *)
Class Locales := setlocale : Environ -> option bytes.

Definition locale_charset (codeset : bytes) : bytes := if bool_decide (codeset = str "ANSI_X3.4-1968") then str "US-ASCII" else codeset.
Definition is_utf8_locale (codeset : bytes) : bool :=
  bool_decide (locale_charset codeset = str "UTF-8") || bool_decide (locale_charset codeset = str "utf-8").
Definition set_native_locale `{Locales} (env : Environ) (codeset : bytes) : bytes :=
  match setlocale env with Some c => c | None => codeset end.
Definition locale_variables : list string :=
  ["LANG"; "LANGUAGE"; "LC_CTYPE"; "LC_NUMERIC"; "LC_TIME"; "LC_COLLATE"; "LC_MONETARY"; "LC_MESSAGES"; "LC_PAPER"; "LC_NAME"; "LC_ADDRESS";
   "LC_TELEPHONE"; "LC_MEASUREMENT"; "LC_IDENTIFICATION"; "LC_ALL"]%string.
Definition clear_locale_variables (env : Environ) : Environ := foldl (fun e name => unsetenv name e) env locale_variables.

(** ** mosh-server *)

(** [myatoi] (crypto/crypto.cc). *)
Definition myatoi (s : bytes) : result exn Z :=
  let r := strtol s in
  if st_erange r || negb (bool_decide (st_end r = [])) then Err (CryptoException false) else Ok (st_val r).

Definition IPv6_prefix : bytes := str "::ffff:".
Definition get_SSH_IP (env : Environ) : bytes :=
  match getenv "SSH_CONNECTION" env with
  | None => []
  | Some s =>
      match words_of is_space [] s with
      | _ :: _ :: ip :: _ =>
          if (lenZ IPv6_prefix <? lenZ ip) && bool_decide (to_lower <$> take (length IPv6_prefix) ip = to_lower <$> IPv6_prefix)
          then drop (length IPv6_prefix) ip else ip
      | _ => []
      end
  end.

Record ServerArgs : Type := MkServerArgs {
  desired_ip : option bytes; desired_port : option bytes; colors : Z; s_verbose : Z; locale_vars : list bytes }.
#[export] Instance eta_ServerArgs : Eta ServerArgs :=
  fun a => MkServerArgs (desired_ip a) (desired_port a) (colors a) (s_verbose a) (locale_vars a).
Definition no_args : ServerArgs := MkServerArgs None None 0 0 [].

Inductive ServerStart : Type :=
| ServerExit (status : Z)
| ServerRun (args : ServerArgs) (command_path : bytes) (command_argv : list bytes) (with_motd : bool) (env : Environ).

(** The arguments before [--] and the command after it; [None] when the program
    only prints something. *)
Fixpoint strip_command (args : list bytes) : option (list bytes * option (list bytes)) :=
  match args with
  | [] => Some ([], None)
  | a :: rest =>
      if bool_decide (a = str "--help") || bool_decide (a = str "-h") || bool_decide (a = str "--version") then None
      else if bool_decide (a = str "--") then Some ([], if bool_decide (rest = []) then None else Some rest)
      else '(l, c) ← strip_command rest; Some (a :: l, c)
  end.

Definition server_optstring : list (Z * bool) :=
  [(chr "@", true); (chr "i", true); (chr "p", true); (chr "c", true); (chr "s", false); (chr "v", false); (chr "l", true)].

(** The [switch] over the options; [None] exits. *)
Fixpoint server_options (env : Environ) (a : ServerArgs) (opts : list Opt) : option ServerArgs :=
  match opts with
  | [] => Some a
  | None :: opts' => server_options env a opts'
  | Some (c, optarg) :: opts' =>
      if c =? chr "@" then server_options env a opts'
      else if c =? chr "i" then server_options env (a <| desired_ip := Some optarg |>) opts'
      else if c =? chr "p" then server_options env (a <| desired_port := Some optarg |>) opts'
      else if c =? chr "s" then
        let ip := get_SSH_IP env in server_options env (a <| desired_ip := if bool_decide (ip = []) then None else Some ip |>) opts'
      else if c =? chr "c" then
        match myatoi optarg with Ok n => server_options env (a <| colors := i32 n |>) opts' | Err _ => None end
      else if c =? chr "v" then server_options env (a <| s_verbose := u32 (s_verbose a + 1) |>) opts'
      else if c =? chr "l" then server_options env (a <| locale_vars := locale_vars a ++ [optarg] |>) opts'
      else server_options env a opts'
  end.

Definition server_args (posix : bool) (env : Environ) (args : list bytes) : option ServerArgs :=
  match args with
  | a :: rest =>
      if bool_decide (a = str "new") then server_options env no_args (getopt posix server_optstring rest).1
      else match rest with
           | [] => Some (no_args <| desired_ip := Some a |>)
           | [port] => Some (no_args <| desired_ip := Some a |> <| desired_port := Some port |>)
           | _ => None
           end
  | [] => Some no_args
  end.

(** The command: the one given, or a login shell. *)
Definition BSHELL : bytes := str "/bin/sh".
Definition shell_command (env : Environ) (pw_shell : option bytes) (command : option (list bytes)) : option (bytes * list bytes * bool) :=
  match command with
  | Some argv => Some (hd [] argv, argv, false)
  | None =>
      shell ← (match getenv "SHELL" env with Some s => Some s | None => pw_shell end);
      let shell_path := if bool_decide (shell = []) then BSHELL else shell in
      Some (shell_path, [45 :: after_last 47 shell_path], true)
  end.

(** The environment once there is a UTF-8 locale, [None] when there is none. *)
Definition server_locale `{Locales} (env : Environ) (vars : list bytes) : option Environ :=
  let native := set_native_locale env (str "ANSI_X3.4-1968") in
  if is_utf8_locale native then Some env else
  let env' := foldl (fun e s => putenv s e) (clear_locale_variables env) vars in
  if is_utf8_locale (set_native_locale env' native) then Some env' else None.

Definition server_main `{Locales} (posix : bool) (argv : list bytes) (env : Environ) (pw_shell : option bytes) : result fault ServerStart :=
  match argv with
  | [] => Err AssertFail
  | _ :: args =>
      match strip_command args with
      | None => Ok (ServerExit 0)
      | Some (args, command) =>
          match server_args posix env args with
          | None => Ok (ServerExit 1)
          | Some a =>
              if match desired_port a with Some p => negb (bool_decide (is_Some (parse_portrange p))) | None => false end then Ok (ServerExit 1) else
              match shell_command env pw_shell command with
              | None => Ok (ServerExit 1)
              | Some (path, cmd, motd) =>
                  match server_locale env (locale_vars a) with
                  | None => Ok (ServerExit 1)
                  | Some env' => Ok (ServerRun a path cmd motd env')
                  end
              end
          end
      end
  end.

(** What [run_server] prints for the launcher: [puts] ends its line. *)
Definition announcement (stdin_tty : bool) (port key : bytes) : bytes :=
  (if stdin_tty then [13; 10; 10] else []) ++ str "MOSH CONNECT " ++ port ++ [32] ++ key ++ [10].
