(* ===== verification/Launcher.v ===== *)
(** * The launcher of the Android application (scripts/mosh-launcher.cc)

    [main] as a function of its arguments, its environment and what the
    programs it runs print and return. *)
From stdpp Require Import gmap.
From S2P Require Export Start.

(** ** Arguments *)

Record Options : Type := MkOptions {
  userhost : bytes; udpPorts : bytes; sshPort : bytes; sshCommand : bytes; serverCommand : bytes; predict : bytes; noInit : bool }.
#[export] Instance eta_Options : Eta Options :=
  fun o => MkOptions (userhost o) (udpPorts o) (sshPort o) (sshCommand o) (serverCommand o) (predict o) (noInit o).
Definition default_options : Options := MkOptions [] [] [] (str "ssh") (str "mosh-server") [] false.

(** The status of an early exit, or the options. *)
Fixpoint parse_args (o : Options) (args : list bytes) : Z + Options :=
  match args with
  | [] => inr o
  | arg :: rest =>
      if bool_decide (arg = str "--") then
        match rest with
        | h :: rest' => if bool_decide (userhost o = []) then parse_args (o <| userhost := h |>) rest' else parse_args o rest
        | [] => inr o
        end
      else if bool_decide (arg = str "--version") then inl 0
      else if bool_decide (arg = str "--help") || bool_decide (arg = str "-h") then inl 0
      else if starts_with (str "--port=") arg then parse_args (o <| udpPorts := drop 7 arg |>) rest
      else if starts_with (str "--ssh-port=") arg then parse_args (o <| sshPort := drop 11 arg |>) rest
      else if starts_with (str "--ssh=") arg then parse_args (o <| sshCommand := drop 6 arg |>) rest
      else if starts_with (str "--server=") arg then parse_args (o <| serverCommand := drop 9 arg |>) rest
      else if starts_with (str "--predict=") arg then parse_args (o <| predict := drop 10 arg |>) rest
      else if bool_decide (arg = str "--no-init") then parse_args (o <| noInit := true |>) rest
      else if starts_with (str "-") arg && negb (bool_decide (arg = str "-")) then inl 1
      else if negb (bool_decide (userhost o = [])) then inl 1
      else parse_args (o <| userhost := arg |>) rest
  end.

(** ** The command for ssh *)

Definition splitSpaces (s : bytes) : list bytes := words_of (Z.eqb 32) [] s.

(** Whether [p] occurs in [s]. *)
Fixpoint contains (p s : bytes) : bool :=
  starts_with p s || match s with [] => false | _ :: s' => contains p s' end.

Definition utf8_name (v : bytes) : bool :=
  let s := to_lower <$> v in contains (str "utf-8") s || contains (str "utf8") s.
Fixpoint find_locale (env : Environ) (candidates : list string) : option bytes :=
  match candidates with
  | [] => None
  | name :: rest =>
      match getenv name env with
      | Some v => if negb (bool_decide (v = [])) && utf8_name v then Some v else find_locale env rest
      | None => find_locale env rest
      end
  end.
Definition defaultLocale (env : Environ) : bytes :=
  match find_locale env ["LC_ALL"; "LC_CTYPE"; "LANG"]%string with Some v => v | None => str "en_US.UTF-8" end.

Definition locale_var (env : Environ) (name : string) : list bytes :=
  match getenv name env with
  | Some v => if bool_decide (v = []) then [] else [str name ++ str "=" ++ v]
  | None => []
  end.
Definition localeVars (env : Environ) : list bytes :=
  let out := ["LANG"; "LANGUAGE"; "LC_CTYPE"; "LC_ALL"]%string ≫= locale_var env in
  if bool_decide (out = []) then [str "LANG=" ++ defaultLocale env] else out.

(** What [mosh-client -c] printed, [None] when nothing could be read. *)
Definition queryColors (output : option bytes) : Z :=
  match output with
  | None | Some [] => 256
  | Some s => let colors := atoi (cstring (take 31 s)) in if 0 <? colors then colors else 256
  end.

Definition agentHold (env : Environ) : bool := bool_decide (is_Some (getenv "SSH_AUTH_SOCK" env)).

(** The options for ssh, and the words of the remote command. *)
Definition ssh_options (o : Options) (hold : bool) : list bytes :=
  let ssh := splitSpaces (sshCommand o) in
  (if bool_decide (ssh = []) then [str "ssh"] else ssh) ++ [str "-n"] ++
  (if bool_decide (sshPort o = []) then [] else [str "-p"; sshPort o]) ++
  (if hold then [str "-tt"; str "-o"; str "ServerAliveInterval=30"; str "-o"; str "ServerAliveCountMax=8"] else []).
Definition remote_words (o : Options) (colors : Z) (vars : list bytes) (hold : bool) : list bytes :=
  [serverCommand o; str "new"; str "-c"; dec colors] ++
  (if bool_decide (udpPorts o = []) then [] else [str "-p"; udpPorts o]) ++
  (vars ≫= fun lv => [str "-l"; lv]) ++
  (if hold then [str "&&"; str "sleep"; str "86400"] else []).
Definition sshArgv (o : Options) (colors : Z) (env : Environ) : list bytes :=
  ssh_options o (agentHold env) ++ [userhost o; str "--"] ++ remote_words o colors (localeVars env) (agentHold env).

(** ** The answer of the server *)

(** The lines that [getline] returns. *)
Fixpoint getlines (cur : bytes) (s : bytes) : list bytes :=
  match s with
  | [] => if bool_decide (cur = []) then [] else [cur]
  | c :: s' => if c =? 10 then (cur ++ [c]) :: getlines [] s' else getlines (cur ++ [c]) s'
  end.
(** [while ( P( s.back() ) ) s.pop_back()]. *)
Fixpoint pop_while (P : Z -> bool) (s : bytes) : bytes :=
  match s with
  | [] => []
  | c :: s' => let r := pop_while P s' in if bool_decide (r = []) && P c then [] else c :: r
  end.
Definition chomp (line : bytes) : bytes := pop_while (fun c => (c =? 10) || (c =? 13)) line.

(** [Connected]: [port] and [key]; the lines shown to the user are kept. *)
Inductive Answer : Type :=
| Connected (ip port key : bytes) (shown : list bytes)
| BadConnect (shown : list bytes)
| NoConnect (ip : bytes) (shown : list bytes).

Fixpoint read_answer (ip : bytes) (shown : list bytes) (lines : list bytes) : Answer :=
  match lines with
  | [] => NoConnect ip shown
  | line :: lines' =>
      let s := chomp line in
      if starts_with (str "MOSH CONNECT ") s then
        match split_at 32 (drop 13 s) with
        | None => BadConnect shown
        | Some (port, rest) =>
            let key := pop_while (Z.eqb 32) rest in
            if bool_decide (port = []) || bool_decide (key = []) then BadConnect shown else Connected ip port key shown
        end
      else if starts_with (str "MOSH IP ") s then read_answer (drop 8 s) shown lines'
      else if starts_with (str "MOSH SSH_CONNECTION ") s then
        match splitSpaces s with
        | [_; _; _; _; dstip; _] => read_answer dstip shown lines'
        | _ => read_answer ip shown lines'
        end
      else read_answer ip (shown ++ [s]) lines'
  end.

(** ** The client *)

Definition host_part (userhost : bytes) : bytes := match split_at 64 userhost with Some (_, h) => h | None => userhost end.

Definition clientArgv (o : Options) (ip port : bytes) : list bytes :=
  [str "mosh-client"; str "-#"; cstring (userhost o ++ str " | "); cstring ip; cstring port].
Definition client_env (o : Options) (key : bytes) (env : Environ) : Environ :=
  let env := setenv "MOSH_KEY" (cstring key) env in
  let env := if bool_decide (predict o = []) then env else setenv "MOSH_PREDICTION_DISPLAY" (cstring (predict o)) env in
  if noInit o then setenv "MOSH_NO_TERM_INIT" (str "1") env else env.

(** Macros of [sys/wait.h]. *)
Definition WTERMSIG (status : Z) : Z := Z.land status 127.
Definition WIFEXITED (status : Z) : bool := WTERMSIG status =? 0.
Definition WEXITSTATUS (status : Z) : Z := Z.land (Z.shiftr status 8) 255.
Definition WIFSIGNALED (status : Z) : bool := negb (WTERMSIG status =? 0) && negb (WTERMSIG status =? 127).

(** What the system answers: whether the client is next to the launcher, what
    [mosh-client -c] and ssh print, the numeric address of a host, and the
    status of the client. *)
Record LauncherEnv : Type := MkLauncherEnv {
  self_dir : bytes; sibling_client : bool; colors_output : option bytes; pipe_fork_ok : bool; ssh_output : list bytes -> bytes;
  resolve : bytes -> option bytes; client_fork_ok : bool; client_status : Z }.

(** The command for ssh, the client that was run with its program, arguments
    and environment, whether ssh was stopped, and the exit status. *)
Record Launch : Type := MkLaunch {
  l_ssh : option (list bytes); l_client : option (bytes * list bytes * Environ); l_shown : list bytes; l_ssh_stopped : bool; l_status : Z }.

Definition client_program (le : LauncherEnv) : bytes :=
  if sibling_client le then self_dir le ++ str "/libmosh-client.so" else str "mosh-client".

Definition run_client (le : LauncherEnv) (env : Environ) (o : Options) (ssh : list bytes) (ip port key : bytes) (shown : list bytes) : Launch :=
  match resolve le (cstring (if bool_decide (ip = []) then host_part (userhost o) else ip)) with
  | None => MkLaunch (Some ssh) None shown true 1
  | Some ip =>
      if negb (client_fork_ok le) then MkLaunch (Some ssh) None shown true 1 else
      let st := client_status le in
      MkLaunch (Some ssh) (Some (client_program le, clientArgv o ip port, client_env o key env)) shown true
        (if WIFEXITED st then WEXITSTATUS st else if WIFSIGNALED st then 128 + WTERMSIG st else 1)
  end.

Definition launcher_main (le : LauncherEnv) (env : Environ) (argv : list bytes) : Launch :=
  match parse_args default_options (tail argv) with
  | inl status => MkLaunch None None [] false status
  | inr o =>
      if bool_decide (userhost o = []) then MkLaunch None None [] false 1 else
      if negb (pipe_fork_ok le) then MkLaunch None None [] false 1 else
      let ssh := sshArgv o (queryColors (colors_output le)) env in
      match read_answer [] [] (getlines [] (ssh_output le ssh)) with
      | BadConnect shown => MkLaunch (Some ssh) None shown true 1
      | NoConnect _ shown => MkLaunch (Some ssh) None shown false 1
      | Connected ip port key shown => run_client le env o ssh ip port key shown
      end
  end.
