(* ===== verification/Bootstrap.v ===== *)
(** * From the launcher to a session

    The launcher starts a server through ssh, reads what it announces and starts
    a client: the options reach the server and the client gets its key. *)
From stdpp Require Import gmap.
From S2P Require Export Launcher.

(** ** The remote shell *)

Definition plain_char (c : Z) : bool :=
  is_digit c || ((65 <=? c) && (c <=? 90)) || ((97 <=? c) && (c <=? 122)) || bool_decide (c ∈ str "%+,-./:=@_").
Definition plain (w : bytes) : bool := negb (bool_decide (w = [])) && forallb plain_char w.
(** Words that a shell does not take as a command. *)
Definition reserved : list bytes :=
  str <$> ["if"; "then"; "else"; "elif"; "fi"; "do"; "done"; "case"; "esac"; "while"; "until"; "for"; "in"; "function"; "select"; "time"; "coproc"]%string.
Definition command_word (w : bytes) : bool := plain w && negb (bool_decide (chr "=" ∈ w)) && negb (bool_decide (w ∈ reserved)).
Definition command (ws : list bytes) : bool := match ws with w :: ws' => command_word w && forallb plain ws' | [] => false end.

(** The words of a command line, joined by blanks as ssh sends them. *)
Fixpoint join (ws : list bytes) : bytes :=
  match ws with [] => [] | [w] => w | w :: ws' => w ++ 32 :: join ws' end.

(** The commands that a command line runs, each when the one before succeeds. *)
Class RemoteShell := shell : bytes -> list (list bytes).
Class RemoteShellLaws `{RemoteShell} : Prop := {
  shell_command_line ws : command ws = true -> shell (join ws) = [ws];
  shell_and ws ws' : command ws = true -> command ws' = true -> shell (join (ws ++ [str "&&"] ++ ws')) = [ws; ws'] }.

(** Blanks and [&&] alone. *)
Fixpoint split_and (cur : list bytes) (ws : list bytes) : list (list bytes) :=
  match ws with
  | [] => [cur]
  | w :: ws' => if bool_decide (w = str "&&") then cur :: split_and [] ws' else split_and (cur ++ [w]) ws'
  end.
#[export] Instance SpaceShell : RemoteShell := fun s => split_and [] (splitSpaces s).

Definition no_space (w : bytes) : Prop := Forall (fun c => (32 =? c) = false) w.

Lemma words_of_run cur w rest : no_space w -> words_of (Z.eqb 32) cur (w ++ rest) = words_of (Z.eqb 32) (cur ++ w) rest.
Proof.
  intros Hw. revert cur. induction Hw as [|c w Hc _ IH]; intros cur; cbn [app words_of]; [by rewrite app_nil_r|]. by rewrite Hc, IH, <- app_assoc.
Qed.
Lemma splitSpaces_join ws : Forall (fun w => w <> [] /\ no_space w) ws -> splitSpaces (join ws) = ws.
Proof.
  unfold splitSpaces. induction 1 as [|w ws [Hn Hw] _ IH]; [done|]. destruct ws as [|w' ws].
  - cbn [join]. rewrite <- (app_nil_r w) at 1. rewrite words_of_run by done. cbn. by rewrite bool_decide_false.
  - change (join (w :: w' :: ws)) with (w ++ 32 :: join (w' :: ws)). rewrite words_of_run by done. cbn [words_of app Z.eqb Pos.eqb]. rewrite IH, bool_decide_false by done. done.
Qed.

Lemma forallb_Forall_true {A} (f : A -> bool) l : forallb f l = true -> Forall (fun x => f x = true) l.
Proof. intros H. apply Forall_forall. intros x Hx. rewrite forallb_forall in H. by apply H, list_elem_of_In. Qed.

Lemma plain_inv w : plain w = true -> w <> [] /\ Forall (fun c => plain_char c = true) w.
Proof. unfold plain. intros [H1 H2]%andb_prop. apply forallb_Forall_true in H2. by case_bool_decide. Qed.
Lemma plain_char_range c : plain_char c = true -> 37 <= c <= 122 /\ c <> 38.
Proof.
  unfold plain_char, is_digit. rewrite !orb_true_iff, !andb_true_iff, !Z.leb_le, bool_decide_eq_true. intros [[[?|?]|?]|H]; [lia..|].
  assert (Hall : Forall (fun c => 37 <= c <= 122 /\ c <> 38) (str "%+,-./:=@_")) by (apply Forall_forall; intros x Hx; cbn in Hx; repeat (apply elem_of_cons in Hx as [->|Hx]; [lia|]); by apply elem_of_nil in Hx). rewrite Forall_forall in Hall. by apply Hall.
Qed.
Lemma plain_no_space w : plain w = true -> w <> [] /\ no_space w.
Proof. intros [Hn Hw]%plain_inv. split; [done|]. apply (Forall_impl _ _ _ Hw). intros c [? ?]%plain_char_range. apply Z.eqb_neq. lia. Qed.
Lemma plain_not_and w : plain w = true -> w <> str "&&".
Proof. intros [_ Hw]%plain_inv ->. by inversion Hw. Qed.
Lemma command_plain ws : command ws = true -> Forall (fun w => plain w = true) ws.
Proof. destruct ws as [|w ws]; [done|]. unfold command, command_word. rewrite !andb_true_iff. intros [[[? _] _] ?]. constructor; [done|]. by apply forallb_Forall_true. Qed.

Lemma split_and_run cur ws rest : Forall (fun w => plain w = true) ws -> split_and cur (ws ++ rest) = split_and (cur ++ ws) rest.
Proof.
  intros H. revert cur. induction H as [|w ws Hw _ IH]; intros cur; cbn [app split_and]; [by rewrite app_nil_r|]. rewrite bool_decide_false by (by apply plain_not_and). by rewrite IH, <- app_assoc.
Qed.

#[export] Instance SpaceShellLaws : RemoteShellLaws.
Proof.
  split.
  - intros ws Hw%command_plain. unfold shell, SpaceShell. rewrite splitSpaces_join by (apply (Forall_impl _ _ _ Hw); intros w; apply plain_no_space).
    rewrite <- (app_nil_r ws) at 1. by rewrite split_and_run.
  - intros ws ws' Hw%command_plain Hw'%command_plain. unfold shell, SpaceShell. rewrite splitSpaces_join.
    + rewrite split_and_run by done. cbn [app split_and]. rewrite bool_decide_true by done. rewrite <- (app_nil_r ws') at 1. by rewrite split_and_run.
    + rewrite !Forall_app, Forall_singleton. split_and!; [apply (Forall_impl _ _ _ Hw); intros w; apply plain_no_space|done|repeat constructor|apply (Forall_impl _ _ _ Hw'); intros w; apply plain_no_space].
Qed.

(** ** The server gets the options *)

Lemma getopt_arg posix opts x a rest i o : x <> 45 -> list_find (fun o => o.1 = x) opts = Some (i, (o, true)) ->
  getopt posix opts ([45; x] :: a :: rest) = let '(l, others) := getopt posix opts rest in (Some (x, a) :: l, others).
Proof.
  intros Hx Hf. cbn [getopt]. rewrite bool_decide_false by (intros [= E]; done). change (is_option [45; x]) with true. cbn [tail head hd_error getopt_cluster]. rewrite Hf. cbn [negb].
  rewrite bool_decide_true by done. cbn [negb]. done.
Qed.

Definition words_l (vars : list bytes) : list bytes := vars ≫= fun lv => [str "-l"; lv].

Lemma getopt_vars posix vars : getopt posix server_optstring (words_l vars) = ((fun v => Some (chr "l", v)) <$> vars, []).
Proof. induction vars as [|v vars IH]; [done|]. change (words_l (v :: vars)) with ([45; chr "l"] :: v :: words_l vars). rewrite (getopt_arg _ _ _ _ _ 6%nat (chr "l")) by done. by rewrite IH. Qed.

Lemma myatoi_dec z : 0 <= z <= LONG_MAX -> myatoi (dec z) = Ok z.
Proof. intros Hz. unfold myatoi. rewrite <- (app_nil_r (dec z)), strtol_dec by done. done. Qed.

(** A number of colours is a positive [int]. *)
Definition is_colors (n : Z) : Prop := 0 < n < 2 ^ 31.

Lemma options_l env a v opts : server_options env a (Some (chr "l", v) :: opts) = server_options env (a <| locale_vars := locale_vars a ++ [v] |>) opts.
Proof. reflexivity. Qed.
Lemma options_p env a v opts : server_options env a (Some (chr "p", v) :: opts) = server_options env (a <| desired_port := Some v |>) opts.
Proof. reflexivity. Qed.
Lemma options_c env a n opts : is_colors n -> server_options env a (Some (chr "c", dec n) :: opts) = server_options env (a <| colors := n |>) opts.
Proof.
  intros [Hn Hn']. transitivity (match myatoi (dec n) with Ok n => server_options env (a <| colors := i32 n |>) opts | Err _ => None end); [reflexivity|].
  rewrite myatoi_dec by (unfold LONG_MAX; lia). unfold i32. by rewrite Z.mod_small, Z.add_simpl_r by lia.
Qed.

Lemma options_vars env a vars : server_options env a ((fun v => Some (chr "l", v)) <$> vars) = Some (a <| locale_vars := locale_vars a ++ vars |>).
Proof.
  revert a. induction vars as [|v vars IH]; intros a; [destruct a; cbn; by rewrite app_nil_r|]. rewrite fmap_cons, options_l, IH. destruct a. cbn. by rewrite <- app_assoc.
Qed.

Definition asks_nothing (w : bytes) : Prop := w <> str "--help" /\ w <> str "-h" /\ w <> str "--version" /\ w <> str "--".

Lemma strip_command_none args : Forall asks_nothing args -> strip_command args = Some (args, None).
Proof. induction 1 as [|w args (H1 & H2 & H3 & H4) _ IH]; [done|]. cbn [strip_command]. rewrite !bool_decide_false by done. cbn [orb]. by rewrite IH. Qed.

Lemma dec_asks_nothing z : 0 <= z -> asks_nothing (dec z).
Proof.
  intros Hz. destruct (dec_nonneg_spec z Hz) as (_ & Hf & Hne). unfold dec. rewrite (proj2 (Z.ltb_ge z 0)) by lia. destruct (dec_nonneg z) as [|c s]; [done|].
  apply Forall_cons in Hf as [Hc _]. split_and!; intros [= -> _]; done.
Qed.
Lemma portrange_asks_nothing w : is_Some (parse_portrange w) -> asks_nothing w.
Proof. intros [r Hr]. split_and!; intros ->; by vm_compute in Hr. Qed.

Definition port_words (ports : bytes) : list bytes := if bool_decide (ports = []) then [] else [str "-p"; ports].
Definition port_option (ports : bytes) : option bytes := if bool_decide (ports = []) then None else Some ports.
Lemma server_args_words posix env n ports vars : is_colors n ->
  server_args posix env (str "new" :: str "-c" :: dec n :: port_words ports ++ words_l vars) = Some (MkServerArgs None (port_option ports) n 0 vars).
Proof.
  intros Hn. cbn [server_args]. rewrite bool_decide_true by done. change (str "-c") with [45; chr "c"]. rewrite (getopt_arg _ _ _ _ _ 3%nat (chr "c")) by done.
  unfold port_words, port_option. case_bool_decide; cbn [app].
  - rewrite getopt_vars. cbn [fst]. by rewrite options_c, options_vars.
  - change (str "-p") with [45; chr "p"]. rewrite (getopt_arg _ _ _ _ _ 2%nat (chr "p")) by done. rewrite getopt_vars. cbn [fst]. by rewrite options_c, options_p, options_vars.
Qed.

Lemma localeVars_names env : Forall (fun v => head v = Some (chr "L")) (localeVars env).
Proof.
  unfold localeVars. case_bool_decide; [by repeat constructor|]. apply Forall_forall. intros v (name & Hv & Hn)%list_elem_of_bind.
  assert (Hl : Forall (fun n => head (str n) = Some (chr "L")) ["LANG"; "LANGUAGE"; "LC_CTYPE"; "LC_ALL"]%string) by (repeat constructor).
  rewrite Forall_forall in Hl. specialize (Hl _ Hn). revert Hv. unfold locale_var. destruct (getenv name env); [|by intros ?%elem_of_nil]. case_bool_decide; [by intros ?%elem_of_nil|].
  intros ->%list_elem_of_singleton. by destruct (str name).
Qed.
Lemma words_l_ask_nothing vars : Forall (fun v => head v = Some (chr "L")) vars -> Forall asks_nothing (words_l vars).
Proof.
  induction 1 as [|v vars Hv _ IH]; [constructor|]. change (words_l (v :: vars)) with (str "-l" :: v :: words_l vars). repeat constructor; try done; try (intros ->; done).
Qed.
Lemma words_l_plain vars : forallb plain vars = true -> forallb plain (words_l vars) = true.
Proof. induction vars as [|v vars IH]; [done|]. cbn [forallb]. intros [Hv Hs]%andb_prop. change (words_l (v :: vars)) with (str "-l" :: v :: words_l vars). cbn [forallb]. by rewrite Hv, IH. Qed.

Lemma dec_plain z : 0 <= z -> plain (dec z) = true.
Proof.
  intros Hz. destruct (dec_nonneg_spec z Hz) as (_ & Hf & Hne). unfold dec, plain. rewrite (proj2 (Z.ltb_ge z 0)), bool_decide_false by done || lia. cbn [negb andb].
  apply forallb_forall. intros c Hc%list_elem_of_In. rewrite Forall_forall in Hf. unfold plain_char. by rewrite (Hf c).
Qed.

(** Arguments that need no quoting. *)
Record clean (o : Options) (vars : list bytes) : Prop := {
  cl_server : command_word (serverCommand o) = true;
  cl_ports : udpPorts o = [] \/ plain (udpPorts o) = true /\ is_Some (parse_portrange (udpPorts o));
  cl_vars : forallb plain vars = true }.

Definition server_words (o : Options) (n : Z) (vars : list bytes) : list bytes :=
  serverCommand o :: str "new" :: str "-c" :: dec n :: port_words (udpPorts o) ++ words_l vars.

Lemma server_words_command o n vars : clean o vars -> is_colors n -> command (server_words o n vars) = true.
Proof.
  intros [H1 H2 H3] [Hn _]. unfold server_words. cbn [command forallb]. rewrite H1, dec_plain by lia. cbn [andb]. change (plain (str "new")) with true. change (plain (str "-c")) with true. cbn [andb].
  rewrite forallb_app, words_l_plain by done. unfold port_words. case_bool_decide; [done|]. destruct H2 as [|[H2 _]]; [done|]. cbn [forallb]. by rewrite H2.
Qed.

Lemma server_words_ask_nothing o n env : clean o (localeVars env) -> is_colors n ->
  Forall asks_nothing (str "new" :: str "-c" :: dec n :: port_words (udpPorts o) ++ words_l (localeVars env)).
Proof.
  intros [_ H2 _] [Hn _]. constructor; [done|]. constructor; [done|]. constructor; [apply dec_asks_nothing; lia|]. apply Forall_app. split; [|apply words_l_ask_nothing, localeVars_names].
  unfold port_words. case_bool_decide; [done|]. destruct H2 as [|[_ H2]]; [done|]. constructor; [done|]. by apply Forall_singleton, portrange_asks_nothing.
Qed.

Lemma remote_words_eq o n vars hold : remote_words o n vars hold = server_words o n vars ++ if hold then [str "&&"; str "sleep"; str "86400"] else [].
Proof. unfold remote_words, server_words, port_words, words_l. cbn [app]. by rewrite <- app_assoc. Qed.

(** *** What the server is to do with it *)

(** A variable that a word [name=value] sets. *)
Definition assignment (name s : bytes) : option bytes :=
  if bool_decide (chr "=" ∉ name /\ take (S (length name)) s = name ++ [chr "="]) then Some (drop (S (length name)) s) else None.

(** The host's environment with all its locale variables replaced by the
    user's; of two words for one variable the last one counts. *)
Definition user_environ (renv : Environ) (vars : list bytes) (e : Environ) : Prop :=
  forall name : bytes, e !! name =
    match last (omap (assignment name) vars) with
    | Some v => Some v
    | None => if bool_decide (name ∈ str <$> locale_variables) then None else renv !! name
    end.

Definition utf8_charset (c : option bytes) : Prop := c = Some (str "UTF-8") \/ c = Some (str "utf-8").

(** The environment of a session: the host's if its locale is a UTF-8 one,
    otherwise the one with the user's locale if that is. *)
Definition session_environ `{Locales} (renv : Environ) (vars : list bytes) (e : Environ) : Prop :=
  (utf8_charset (setlocale renv) /\ e = renv) \/
  (~ utf8_charset (setlocale renv) /\ user_environ renv vars e /\ utf8_charset (setlocale e)).

(** The shell of the user: [SHELL], else the one of the password database. *)
Definition user_shell (renv : Environ) (pw_shell : option bytes) : option bytes :=
  match getenv "SHELL" renv with Some s => Some s | None => pw_shell end.

(** A login shell is told so by a dash before the last part of its path. *)
Definition login_name (path name : bytes) : Prop :=
  exists dir base, path = dir ++ base /\ chr "/" ∉ base /\ (dir = [] \/ last dir = Some (chr "/")) /\ name = chr "-" :: base.

Lemma after_last_spec c s : exists dir, s = dir ++ after_last c s /\ c ∉ after_last c s /\ (dir = [] \/ last dir = Some c).
Proof.
  induction s as [|x s IH] using rev_ind.
  { exists []. split_and!; [done|apply not_elem_of_nil|by left]. }
  unfold after_last in *. rewrite foldl_app. cbn [foldl]. destruct IH as (dir & E & Hc & Hd).
  destruct (Z.eqb_spec x c) as [->|Hx].
  - exists (s ++ [c]). rewrite app_nil_r. split_and!; [done|apply not_elem_of_nil|right; apply last_snoc].
  - exists dir. split_and!; [by rewrite app_assoc, <- E|set_solver|done].
Qed.

Lemma split_at_inv c s a b : split_at c s = Some (a, b) -> s = a ++ c :: b /\ c ∉ a.
Proof.
  revert a. induction s as [|x s IH]; intros a; cbn [split_at]; [done|]. destruct (Z.eqb_spec x c) as [->|Hx].
  - intros [= <- <-]. split; [done|apply not_elem_of_nil].
  - destruct (split_at c s) as [[a' b']|]; [|done]. cbn. intros [= <- <-]. destruct (IH a' eq_refl) as [-> ?]. split; [done|set_solver].
Qed.
Lemma split_at_first c a b : c ∉ a -> split_at c (a ++ c :: b) = Some (a, b).
Proof.
  induction a as [|x a IH]; intros Ha; cbn [app split_at]; [by rewrite Z.eqb_refl|].
  rewrite (proj2 (Z.eqb_neq x c)) by set_solver. by rewrite IH by set_solver.
Qed.

Lemma assignment_word name a v :
  chr "=" ∉ a -> assignment name (a ++ chr "=" :: v) = if decide (a = name) then Some v else None.
Proof.
  intros Ha. unfold assignment. case_decide as Hn.
  - subst name. assert (Hl : length (a ++ [chr "="]) = S (length a)) by (rewrite length_app; cbn; lia).
    rewrite cons_middle, app_assoc. rewrite bool_decide_true by (split; [done|by apply take_app_length']).
    f_equal. by apply drop_app_length'.
  - rewrite bool_decide_false; [done|]. intros [Hname Ht].
    pose proof (take_drop (S (length name)) (a ++ chr "=" :: v)) as E. rewrite Ht, <- app_assoc in E. cbn [app] in E.
    pose proof (split_at_first _ _ v Ha) as E1. rewrite <- E, split_at_first in E1 by done. by injection E1 as ->.
Qed.

(** A word that sets a variable. *)
Definition sets (s : bytes) : Prop := exists name v, s = name ++ chr "=" :: v /\ chr "=" ∉ name.
Lemma localeVars_sets env : Forall sets (localeVars env).
Proof.
  assert (Hl : Forall (fun n => bool_decide (chr "=" ∈ str n) = false) ["LANG"; "LANGUAGE"; "LC_CTYPE"; "LC_ALL"]%string) by (repeat constructor).
  unfold localeVars. case_bool_decide.
  { apply Forall_singleton. exists (str "LANG"), (defaultLocale env). split; [done|]. rewrite <- (bool_decide_eq_false (chr "=" ∈ str "LANG")). done. }
  apply Forall_forall. intros s (name & Hs & Hn)%list_elem_of_bind. rewrite Forall_forall in Hl. specialize (Hl _ Hn).
  apply bool_decide_eq_false in Hl. revert Hs. unfold locale_var.
  destruct (getenv name env) as [v|]; [|by intros ?%elem_of_nil]. case_bool_decide; [by intros ?%elem_of_nil|].
  intros ->%list_elem_of_singleton. by exists (str name), v.
Qed.

Lemma putenv_words (vars : list bytes) (e : Environ) (name : bytes) : Forall sets vars ->
  foldl (fun e s => putenv s e) e vars !! name = match last (omap (assignment name) vars) with Some v => Some v | None => e !! name end.
Proof.
  induction vars as [|s vars IH] using rev_ind; intros Hs; [done|]. apply Forall_app in Hs as [Hs (n & v & -> & Hn)%Forall_singleton].
  rewrite foldl_app, omap_app. cbn [foldl omap list_omap]. rewrite assignment_word by done. unfold putenv at 1.
  change 61 with (chr "="). rewrite split_at_first by done. case_decide as E.
  - subst n. by rewrite last_snoc, lookup_insert_eq.
  - rewrite app_nil_r, lookup_insert_ne by done. by apply IH.
Qed.

Lemma cleared_variables (e : Environ) (name : bytes) :
  clear_locale_variables e !! name = if bool_decide (name ∈ str <$> locale_variables) then None else e !! name.
Proof.
  unfold clear_locale_variables. generalize locale_variables. intros names. revert e.
  induction names as [|n names IH]; intros e; cbn [foldl]; [by rewrite bool_decide_false by apply not_elem_of_nil|].
  rewrite IH. unfold unsetenv. rewrite fmap_cons. destruct (decide (name = str n)) as [->|Hne].
  - rewrite lookup_delete_eq, (bool_decide_true (str n ∈ str n :: _)) by (apply list_elem_of_here). by case_bool_decide.
  - rewrite lookup_delete_ne by done. by rewrite (bool_decide_ext (name ∈ str n :: (str <$> names)) (name ∈ str <$> names)) by (rewrite elem_of_cons; tauto).
Qed.

Lemma user_environ_eq renv vars : Forall sets vars ->
  user_environ renv vars (foldl (fun e s => putenv s e) (clear_locale_variables renv) vars).
Proof. intros Hs name. by rewrite putenv_words, cleared_variables. Qed.
Lemma user_environ_unique renv vars e e' : user_environ renv vars e -> user_environ renv vars e' -> e = e'.
Proof. intros H1 H2. apply map_eq. intros name. by rewrite H1, H2. Qed.

Lemma is_utf8_charset `{Locales} env codeset :
  is_utf8_locale codeset = false ->
  (is_utf8_locale (set_native_locale env codeset) = true <-> utf8_charset (setlocale env)).
Proof.
  intros Hc. unfold set_native_locale, utf8_charset. destruct (setlocale env) as [c|].
  - unfold is_utf8_locale, locale_charset. rewrite orb_true_iff, !bool_decide_eq_true. case_bool_decide; [|naive_solver].
    subst. split; [by intros [|]|]. by intros [|].
  - rewrite Hc. split; [done|]. by intros [|].
Qed.

Lemma server_locale_spec `{Locales} renv vars : Forall sets vars ->
  match server_locale renv vars with
  | Some e => session_environ renv vars e
  | None => forall e, ~ session_environ renv vars e
  end.
Proof.
  intros Hs. pose proof (user_environ_eq renv vars Hs) as Hu. unfold server_locale, session_environ. cbv zeta.
  pose proof (is_utf8_charset renv (str "ANSI_X3.4-1968") eq_refl) as H1.
  destruct (is_utf8_locale (set_native_locale renv _)) eqn:E1; [left; split; [by apply H1|done]|].
  assert (Hn : ~ utf8_charset (setlocale renv)) by (by intros ?%H1).
  set (env' := foldl _ _ _) in *. pose proof (is_utf8_charset env' _ E1) as H2.
  destruct (is_utf8_locale (set_native_locale env' _)); [right; split_and!; [done|done|by apply H2]|].
  intros e [[? _]|(_ & He & Hutf)]; [done|]. rewrite (user_environ_unique _ _ _ _ He Hu) in Hutf. by apply H2 in Hutf.
Qed.

Section server_side.
Context `{HS : RemoteShellLaws} `{HL : Locales} (posix : bool).

(** C19. What the user asked of the launcher reaches the server, when the
    server's command and the values of the locale variables are words that a
    shell leaves alone and the ports, if given, are a range.  The arguments for
    ssh end in the host, [--] and a command line; a shell that gets it, joined
    by blanks, runs mosh-server first (and then, when an agent is to be kept,
    [sleep]).  The server's [main] takes exactly the ports, the number of
    colours and the locale variables of the launcher from it and runs the
    user's shell (/bin/sh if its name is empty) as a login shell, with the
    message of the day, in the host's environment if its locale is a UTF-8
    one, else in the host's environment with the user's locale variables in
    place of its own if that locale is; it exits with status 1 exactly when
    there is no shell or neither locale is a UTF-8 one. *)
Theorem server_started o n env renv pw_shell : clean o (localeVars env) -> is_colors n ->
  exists line argv start, sshArgv o n env = ssh_options o (agentHold env) ++ [userhost o; str "--"] ++ line /\
    shell (join line) = argv :: (if agentHold env then [[str "sleep"; str "86400"]] else []) /\
    server_main posix argv renv pw_shell = Ok start /\
    match start with
    | ServerRun args path cmd motd renv' =>
        args = MkServerArgs None (if bool_decide (udpPorts o = []) then None else Some (udpPorts o)) n 0 (localeVars env) /\
        (exists sh, user_shell renv pw_shell = Some sh /\ path = if bool_decide (sh = []) then str "/bin/sh" else sh) /\
        (exists name, cmd = [name] /\ login_name path name) /\ motd = true /\
        session_environ renv (localeVars env) renv'
    | ServerExit status =>
        status = 1 /\ (user_shell renv pw_shell = None \/ forall e, ~ session_environ renv (localeVars env) e)
    end.
Proof.
  intros Hc Hn. exists (remote_words o n (localeVars env) (agentHold env)), (server_words o n (localeVars env)).
  pose proof (server_words_command _ _ _ Hc Hn) as Hw. pose proof (server_locale_spec renv _ (localeVars_sets env)) as Hl.
  assert (Hstart : server_main posix (server_words o n (localeVars env)) renv pw_shell = Ok
    match shell_command renv pw_shell None, server_locale renv (localeVars env) with
    | Some (path, cmd, motd), Some renv' => ServerRun (MkServerArgs None (port_option (udpPorts o)) n 0 (localeVars env)) path cmd motd renv'
    | _, _ => ServerExit 1
    end).
  { unfold server_main, server_words. rewrite (strip_command_none _ (server_words_ask_nothing _ _ _ Hc Hn)), server_args_words by done. cbn [desired_port locale_vars].
    assert (Hp : match port_option (udpPorts o) with Some p => negb (bool_decide (is_Some (parse_portrange p))) | None => false end = false).
    { unfold port_option. case_bool_decide; [done|]. destruct (cl_ports _ _ Hc) as [|[_ ?]]; [done|]. by rewrite bool_decide_true. }
    rewrite Hp. destruct (shell_command renv pw_shell None) as [[[path cmd] motd]|]; [|done]. by destruct (server_locale renv (localeVars env)). }
  eexists. split; [done|]. split; [|split; [exact Hstart|]].
  { rewrite remote_words_eq. destruct (agentHold env); [|by rewrite app_nil_r, shell_command_line]. by rewrite (shell_and (server_words o n (localeVars env)) [str "sleep"; str "86400"]). }
  unfold shell_command. fold (user_shell renv pw_shell). destruct (user_shell renv pw_shell) as [sh|]; cbn [mbind option_bind]; [|auto].
  destruct (server_locale renv (localeVars env)) as [renv'|]; [|auto]. split_and!; [done|by exists sh| |done|done].
  eexists. split; [done|]. destruct (after_last_spec 47 (if bool_decide (sh = []) then BSHELL else sh)) as (dir & E & Hb & Hd).
  by eexists dir, _.
Qed.
End server_side.

(** ** The client gets the key *)

Lemma split_at_app c a b : Forall (fun x => x <> c) a -> split_at c (a ++ c :: b) = Some (a, b).
Proof. induction 1 as [|x a Hx _ IH]; cbn [app split_at]; [by rewrite Z.eqb_refl|]. rewrite (proj2 (Z.eqb_neq x c)) by done. by rewrite IH. Qed.
Lemma split_at_none c a : Forall (fun x => x <> c) a -> split_at c a = None.
Proof. induction 1 as [|x a Hx _ IH]; cbn [split_at]; [done|]. rewrite (proj2 (Z.eqb_neq x c)) by done. by rewrite IH. Qed.
Lemma cstring_id s : Forall (fun x => x <> 0) s -> cstring s = s.
Proof. intros Hs. unfold cstring. by rewrite split_at_none. Qed.
Lemma starts_with_app p s : starts_with p (p ++ s) = true.
Proof. unfold starts_with. by rewrite take_app_length, bool_decide_true. Qed.

Lemma pop_while_keep P s c : P c = false -> pop_while P (s ++ [c]) = s ++ [c].
Proof.
  intros Hc. induction s as [|x s IH]; cbn [app pop_while]; [by rewrite Hc|]. rewrite IH. rewrite bool_decide_false by (intros [_ ?]%app_eq_nil; done). done.
Qed.
Lemma pop_while_all P t : Forall (fun c => P c = true) t -> pop_while P t = [].
Proof. induction 1 as [|c t Hc _ IH]; [done|]. cbn [pop_while]. by rewrite IH, Hc. Qed.
Lemma pop_while_app P s t : Forall (fun c => P c = true) t -> pop_while P (s ++ t) = pop_while P s.
Proof. intros Ht. induction s as [|x s IH]; cbn [app pop_while]; [by apply pop_while_all|]. by rewrite IH. Qed.

Lemma getlines_nl cur a b : getlines cur (a ++ 10 :: b) = getlines cur (a ++ [10]) ++ getlines [] b.
Proof. revert cur. induction a as [|c a IH]; intros cur; cbn [app getlines]; [done|]. destruct (c =? 10); [|apply IH]. cbn [app]. by rewrite IH. Qed.

(** Whole lines. *)
Definition lines_only (s : bytes) : Prop := s = [] \/ exists s', s = s' ++ [10].
Lemma getlines_app a b : lines_only a -> getlines [] (a ++ b) = getlines [] a ++ getlines [] b.
Proof. intros [->|(a' & ->)]; [done|]. rewrite <- app_assoc. apply getlines_nl. Qed.

Lemma read_answer_app l1 l2 : forall ip shown,
  read_answer ip shown (l1 ++ l2) = match read_answer ip shown l1 with NoConnect ip' shown' => read_answer ip' shown' l2 | r => r end.
Proof.
  induction l1 as [|l l1 IH]; intros ip shown; cbn [app read_answer]; [done|]. destruct (starts_with (str "MOSH CONNECT ") _).
  { destruct (split_at _ _) as [[port rest]|]; [|done]. by destruct (_ || _). }
  destruct (starts_with (str "MOSH IP ") _); [apply IH|]. destruct (starts_with _ _); [|apply IH]. repeat (case_match; try apply IH).
Qed.
Lemma read_answer_chomp l1 : forall l2 ip shown, chomp <$> l1 = chomp <$> l2 -> read_answer ip shown l1 = read_answer ip shown l2.
Proof.
  induction l1 as [|x l1 IH]; intros [|y l2] ip shown E; try done. injection E as Ex E. cbn [read_answer]. rewrite Ex. repeat (case_match; try done; try by apply IH).
Qed.

(** Output through a terminal. *)
Definition crlf (s : bytes) : bytes := s ≫= fun c => if c =? 10 then [13; 10] else [c].
Lemma crlf_lines s cur : chomp <$> getlines cur (crlf s) = chomp <$> getlines cur s.
Proof.
  revert cur. induction s as [|c s IH]; intros cur; [done|]. change (crlf (c :: s)) with ((if c =? 10 then [13; 10] else [c]) ++ crlf s). cbn [getlines]. destruct (Z.eqb_spec c 10) as [->|Hc]; cbn [app getlines].
  - change (13 =? 10) with false. change (10 =? 10) with true. cbn [fmap list_fmap]. rewrite IH. f_equal. unfold chomp. rewrite !pop_while_app by (by repeat constructor). done.
  - rewrite (proj2 (Z.eqb_neq c 10)) by done. apply IH.
Qed.
Lemma crlf_app a b : crlf (a ++ b) = crlf a ++ crlf b.
Proof. apply bind_app. Qed.
Lemma crlf_lines_only s : lines_only s -> lines_only (crlf s).
Proof. intros [->|(s' & ->)]; [by left|]. right. exists (crlf s' ++ [13]). by rewrite crlf_app, <- app_assoc. Qed.

(** Letters of base64. *)
Definition graphic (c : Z) : Prop := 33 <= c <= 126.
Lemma sixbit_graphic v : graphic (sixbit_char v).
Proof.
  unfold sixbit_char. assert (Hv : 0 <= Z.land v 0x3f < 64) by (change 0x3f with (Z.ones 6); rewrite Z.land_ones by lia; apply Z.mod_pos_bound; lia).
  generalize dependent (Z.land v 0x3f). intros z Hz. pose proof (forall_range (fun z => (33 <=? nth (Z.to_nat z) table 0) && (nth (Z.to_nat z) table 0 <=? 126)) 64 ltac:(vm_compute; reflexivity) z Hz) as H.
  unfold graphic. cbv beta in H. lia.
Qed.
Lemma encode_graphic n : forall raw, Forall graphic (encode_loop n raw).
Proof.
  assert (Hl : forall c, Forall graphic [sixbit_char (Z.shiftr c 2); sixbit_char (Z.shiftl c 4); chr "="; chr "="]) by (intros c; repeat constructor; try apply sixbit_graphic; unfold graphic; cbn; lia).
  induction n as [|n IH]; intros [|a raw]; cbn [encode_loop]; [constructor|apply Hl|constructor|]. destruct raw as [|b [|c raw]]; [apply Hl..|]. apply Forall_app. split; [|apply IH].
  repeat constructor; apply sixbit_graphic.
Qed.
Lemma printable_graphic k key : printable_key k = Ok (Ok key) -> Forall graphic key.
Proof.
  unfold printable_key, base64_encode. destruct (negb (24 =? 24)); [done|]. destruct (negb _); [done|]. cbn [mbind result_bind]. case_bool_decide; [|done]. intros E. apply (f_equal (fun r => match r with Ok (Ok x) => x | _ => [] end)) in E. rewrite <- E. apply Forall_take, encode_graphic.
Qed.

(** The line that announces the server. *)
Lemma connect_line ip shown port key nl lines : port <> [] -> forallb is_digit port = true -> key <> [] -> Forall graphic key -> Forall (fun c => (c =? 10) || (c =? 13) = true) nl ->
  read_answer ip shown ((str "MOSH CONNECT " ++ port ++ [32] ++ key ++ nl) :: lines) = Connected ip port key shown.
Proof.
  intros Hp Hd Hk Hg Hnl. destruct (exists_last Hk) as (key' & c & ->). assert (Hc : graphic c) by (apply Forall_app in Hg as [_ Hg]; by rewrite Forall_singleton in Hg). unfold graphic in Hc.
  assert (Hch : chomp (str "MOSH CONNECT " ++ port ++ [32] ++ (key' ++ [c]) ++ nl) = str "MOSH CONNECT " ++ port ++ 32 :: key' ++ [c]).
  { unfold chomp. rewrite !app_assoc. rewrite pop_while_app by done. rewrite <- !app_assoc. change ([32] ++ key' ++ [c]) with (32 :: key' ++ [c]).
    replace (str "MOSH CONNECT " ++ port ++ 32 :: key' ++ [c]) with ((str "MOSH CONNECT " ++ port ++ 32 :: key') ++ [c]) by (by rewrite <- !app_assoc). apply pop_while_keep. lia. }
  cbn [read_answer]. rewrite Hch, starts_with_app. rewrite (drop_app_length (str "MOSH CONNECT ") _ : drop 13 _ = _). apply forallb_Forall_true in Hd.
  rewrite split_at_app by (apply (Forall_impl _ _ _ Hd); unfold is_digit; lia). rewrite pop_while_keep by (apply Z.eqb_neq; lia).
  rewrite !bool_decide_false by (done || intros [_ ?]%app_eq_nil; done). done.
Qed.

(** Texts of numeric addresses. *)
Definition address_char (c : Z) : bool := is_digit c || ((97 <=? c) && (c <=? 102)) || ((65 <=? c) && (c <=? 70)) || (c =? chr ".") || (c =? chr ":").
Definition address (a : bytes) : bool := negb (bool_decide (a = [])) && forallb address_char a.

Lemma address_not_option a : address a = true -> is_option a = false /\ asks_nothing a /\ Forall (fun c => c <> 0) a.
Proof.
  unfold address. intros [Hn Ha]%andb_prop. apply forallb_Forall_true in Ha. assert (Hc : Forall (fun c => c <> 45 /\ c <> 0) a) by (apply (Forall_impl _ _ _ Ha); intros c; unfold address_char, is_digit; change (chr ".") with 46; change (chr ":") with 58; lia).
  unfold asks_nothing. split_and!; try (intros ->; by inversion Hc as [|? ? []]); [|apply (Forall_impl _ _ _ Hc); tauto]. destruct a as [|c a]; [done|]. unfold is_option, starts_with. cbn [length str take]. rewrite bool_decide_false; [done|]. intros [= ->]. by inversion Hc as [|? ? []].
Qed.
Lemma digits_not_option p : p <> [] -> forallb is_digit p = true -> is_option p = false /\ asks_nothing p /\ Forall (fun c => c <> 0) p.
Proof.
  intros Hp Hd. apply address_not_option. unfold address. rewrite bool_decide_false by done. cbn [negb andb]. apply forallb_forall. rewrite forallb_forall in Hd. intros c Hc. unfold address_char. by rewrite (Hd c Hc).
Qed.

Lemma title_asks_nothing u : asks_nothing (u ++ str " | ").
Proof. split_and!; intros E; apply (f_equal last) in E; by rewrite last_app in E. Qed.

(** [client_main] on the launcher's arguments. *)
Lemma client_main_run posix o a port key env : address a = true -> port <> [] -> forallb is_digit port = true -> Forall (fun c => c <> 0) (userhost o) ->
  getenv "MOSH_KEY" env = Some key ->
  client_main posix (clientArgv o a port) env = Ok (ClientRun a port key (getenv "MOSH_PREDICTION_DISPLAY" env) (getenv "MOSH_PREDICTION_OVERWRITE" env) 0).
Proof.
  intros Ha Hp Hd Hu Hk. destruct (address_not_option a Ha) as (Oa & (A1 & _ & A3 & A4) & Za), (digits_not_option port Hp Hd) as (Op & (P1 & _ & P3 & P4) & Zp). pose proof (title_asks_nothing (userhost o)) as (T1 & _ & T3 & T4).
  unfold client_main, clientArgv. rewrite (cstring_id (userhost o ++ str " | ")) by (apply Forall_app; split; [done|by repeat constructor]). rewrite !cstring_id by done.
  cbn [existsb]. rewrite !(bool_decide_false (_ ++ _ = _)), !(bool_decide_false (a = _)), !(bool_decide_false (port = _)) by done.
  change (bool_decide (str "-#" = str "--help") || bool_decide (str "-#" = str "--version")) with false. cbn [orb].
  change (str "-#") with [45; chr "#"]. rewrite (getopt_arg _ _ _ _ _ 0%nat (chr "#")) by done.
  assert (Hg : getopt posix client_optstring [a; port] = ([], [a; port])).
  { cbn [getopt]. rewrite !bool_decide_false by done. rewrite Oa, Op. by destruct posix. }
  rewrite Hg. change (client_options 0 [Some (chr "#", userhost o ++ str " | ")]) with (@inr Z Z 0). cbn iota. rewrite Hd. cbn [negb]. by rewrite Hk.
Qed.

Definition predict_setting (o : Options) (env : Environ) : option bytes :=
  if bool_decide (predict o = []) then getenv "MOSH_PREDICTION_DISPLAY" env else Some (cstring (predict o)).
Lemma client_env_key o key env : getenv "MOSH_KEY" (client_env o key env) = Some (cstring key) /\
  getenv "MOSH_PREDICTION_DISPLAY" (client_env o key env) = predict_setting o env /\ getenv "MOSH_PREDICTION_OVERWRITE" (client_env o key env) = getenv "MOSH_PREDICTION_OVERWRITE" env.
Proof.
  unfold client_env, predict_setting, getenv, setenv. destruct (noInit o); case_bool_decide; split_and!; repeat first [rewrite lookup_insert_eq; done|rewrite lookup_insert_ne by done]; done.
Qed.

(** What ssh prints: some lines without a [MOSH CONNECT] line, which may tell an
    address, then the announcement of the server, perhaps through a terminal,
    and anything after it. *)
Definition server_says (out ip port key : bytes) : Prop :=
  exists preamble shown (tty onlcr : bool) rest, lines_only preamble /\ read_answer [] [] (getlines [] preamble) = NoConnect ip shown /\
    out = (if onlcr then crlf else id) (preamble ++ announcement tty port key) ++ rest.

Lemma announcement_lines tty port key : lines_only (announcement tty port key).
Proof. right. unfold announcement. destruct tty; eexists; rewrite !app_assoc; done. Qed.

Lemma read_announcement (tty : bool) port key ip shown : port <> [] -> forallb is_digit port = true -> key <> [] -> Forall graphic key ->
  exists shown', read_answer ip shown (getlines [] (announcement tty port key)) = Connected ip port key shown'.
Proof.
  intros Hp Hd Hk Hg. assert (Hl : forall cur s, Forall (fun c => c <> 10) s -> getlines cur (s ++ [10]) = [cur ++ s ++ [10]]).
  { intros cur s Hs. revert cur. induction Hs as [|c s Hc _ IH]; intros cur; cbn [app getlines]; [done|]. rewrite (proj2 (Z.eqb_neq c 10)), IH by done. by rewrite <- app_assoc. }
  set (s := str "MOSH CONNECT " ++ port ++ [32] ++ key).
  assert (Hs : Forall (fun c => c <> 10) s).
  { unfold s. rewrite !Forall_app. split_and!; [by repeat constructor|apply forallb_Forall_true in Hd; apply (Forall_impl _ _ _ Hd); unfold is_digit; lia|by repeat constructor|apply (Forall_impl _ _ _ Hg); unfold graphic; lia]. }
  assert (E : announcement tty port key = (if tty then [13; 10; 10] else []) ++ s ++ [10]) by (unfold announcement, s; by rewrite <- !app_assoc). rewrite E.
  assert (El : getlines [] ((if tty then [13; 10; 10] else []) ++ s ++ [10]) = (if tty then [[13; 10]; [10]] else []) ++ [s ++ [10]]) by (destruct tty; cbn -[s]; by rewrite Hl). rewrite El.
  assert (Es : s ++ [10] = str "MOSH CONNECT " ++ port ++ [32] ++ key ++ [10]) by (unfold s; by rewrite <- !app_assoc). rewrite Es.
  exists (if tty then (shown ++ [[]]) ++ [[]] else shown). rewrite read_answer_app.
  destruct tty; (etransitivity; [|by apply (connect_line ip _ port key [10] []); [..|by repeat constructor]]); done.
Qed.

Lemma read_output out ip port key : server_says out ip port key -> port <> [] -> forallb is_digit port = true -> key <> [] -> Forall graphic key ->
  exists shown, read_answer [] [] (getlines [] out) = Connected ip port key shown.
Proof.
  intros (preamble & shown & tty & onlcr & rest & Hl & Hr & ->) Hp Hd Hk Hg. destruct (read_announcement tty port key ip shown Hp Hd Hk Hg) as (shown' & E). exists shown'.
  assert (Ha : lines_only (preamble ++ announcement tty port key)) by (destruct (announcement_lines tty port key) as [->|(s & ->)]; [by rewrite app_nil_r|right; exists (preamble ++ s); by rewrite app_assoc]).
  rewrite getlines_app by (destruct onlcr; [by apply crlf_lines_only|done]). rewrite read_answer_app.
  assert (Ec : read_answer [] [] (getlines [] ((if onlcr then crlf else id) (preamble ++ announcement tty port key))) = Connected ip port key shown').
  { rewrite (read_answer_chomp _ (getlines [] (preamble ++ announcement tty port key))) by (destruct onlcr; [apply crlf_lines|done]). by rewrite getlines_app, read_answer_app, Hr by done. }
  by rewrite Ec.
Qed.

(** C10. The client gets the server's key.  Whenever a server with the key [k]
    announces itself as [run_server] does, after any lines of a login and
    through a terminal or not, the launcher runs the client, whose [main] takes
    from its arguments and environment the numeric address of the host (or of
    the address told), the port and a key that it reads as [k]; the launcher
    then stops ssh and exits with the status of the client. *)
Theorem client_started posix le env argv o k key port ip a :
  parse_args default_options (tail argv) = inr o -> userhost o <> [] -> Forall (fun c => c <> 0) (userhost o) ->
  pipe_fork_ok le = true -> client_fork_ok le = true ->
  key_wf k -> printable_key k = Ok (Ok key) -> port <> [] -> forallb is_digit port = true ->
  let ssh := sshArgv o (queryColors (colors_output le)) env in
  server_says (ssh_output le ssh) ip port key ->
  resolve le (cstring (if bool_decide (ip = []) then host_part (userhost o) else ip)) = Some a -> address a = true ->
  exists cargv cenv shown,
    launcher_main le env argv = MkLaunch (Some ssh) (Some (client_program le, cargv, cenv)) shown true
      (if WIFEXITED (client_status le) then WEXITSTATUS (client_status le) else if WIFSIGNALED (client_status le) then 128 + WTERMSIG (client_status le) else 1) /\
    client_main posix cargv cenv = Ok (ClientRun a port key (predict_setting o env) (getenv "MOSH_PREDICTION_OVERWRITE" env) 0) /\
    Base64Key_new key = Ok (Ok k).
Proof.
  intros Ho Hu Hz Hpf Hcf Hk Hkey Hp Hd ssh Hs Hres Ha. pose proof (printable_graphic _ _ Hkey) as Hg.
  assert (Hne : key <> []) by (destruct (printable_key_ok k Hk) as (p & Ep & Hl & _); intros ->; rewrite Ep in Hkey; by injection Hkey as ->).
  destruct (read_output _ _ _ _ Hs Hp Hd Hne Hg) as (shown & E). exists (clientArgv o a port), (client_env o key env), shown. split_and!.
  - unfold launcher_main. rewrite Ho, bool_decide_false, Hpf by done. cbn [negb]. fold ssh. rewrite E. unfold run_client. by rewrite Hres, Hcf.
  - destruct (client_env_key o key env) as (K1 & K2 & K3). rewrite (cstring_id key) in K1 by (apply (Forall_impl _ _ _ Hg); unfold graphic; lia).
    rewrite (client_main_run posix o a port key) by done. by rewrite K2, K3.
  - by apply base64key_roundtrip.
Qed.

(** ** Where the launcher falls short *)

(** The search for a UTF-8 locale is in vain: it only runs when none of the
    variables it looks at is set. *)
Lemma locale_search_in_vain env : (["LANG"; "LANGUAGE"; "LC_CTYPE"; "LC_ALL"]%string ≫= locale_var env) = [] -> localeVars env = [str "LANG=en_US.UTF-8"].
Proof.
  intros E. unfold localeVars. rewrite E, bool_decide_true by done. unfold defaultLocale.
  assert (Hf : forall names : list string, (names ≫= locale_var env) = [] -> find_locale env names = None).
  { induction names as [|n names IH]; [done|]. rewrite bind_cons. intros [E1 E2]%app_eq_nil. cbn [find_locale]. rewrite (IH E2). unfold locale_var in E1. destruct (getenv n env); [|done]. by case_bool_decide. }
  rewrite !bind_cons in E. apply app_eq_nil in E as [E1 [_ [E3 [E4 _]%app_eq_nil]%app_eq_nil]%app_eq_nil]. rewrite (Hf ["LC_ALL"; "LC_CTYPE"; "LANG"]%string); [done|]. rewrite !bind_cons, E1, E3, E4. done.
Qed.
Lemma other_locale_exported : localeVars {[str "LANG" := str "C"]} = [str "LANG=C"].
Proof. vm_compute. reflexivity. Qed.
(** ssh takes the host from the last [@], the launcher from the first. *)
Lemma first_at : host_part (str "me@corp.example@gate.example") = str "corp.example@gate.example".
Proof. reflexivity. Qed.
(** The words of the command line are not quoted. *)
Lemma unquoted_locale :
  (ws ← head (shell (join (remote_words default_options 256 [str "LANGUAGE=en_US de"] false))); server_args true ∅ (tail ws)) = Some (MkServerArgs None None 256 0 [str "LANGUAGE=en_US"]).
Proof. vm_compute. reflexivity. Qed.

(** ** A session is set up *)

#[local] Instance sample_locales : Locales := fun env =>
  Some (if bool_decide (getenv "LANG" env = Some (str "en_US.UTF-8")) then str "UTF-8" else str "ANSI_X3.4-1968").
Definition sample_args : list bytes := str <$> ["mosh"; "--port=60001:60010"; "--predict=always"; "me@example.org"]%string.
Definition sample_options : Options := MkOptions (str "me@example.org") (str "60001:60010") [] (str "ssh") (str "mosh-server") (str "always") false.
Definition sample_environ : Environ := <[str "LANG" := str "en_US.UTF-8"]> {[str "SSH_AUTH_SOCK" := str "/tmp/agent"]}.
Definition sample_key_text : bytes := str "AQIDBAUGBwgJCgsMDQ4P/w".

Lemma server_started_witness :
  exists line argv start, sshArgv sample_options 256 sample_environ = ssh_options sample_options true ++ [str "me@example.org"; str "--"] ++ line /\
    shell (join line) = [argv; [str "sleep"; str "86400"]] /\
    server_main true argv ∅ (Some (str "/bin/bash")) = Ok start /\
    match start with
    | ServerRun args path cmd motd renv' =>
        args = MkServerArgs None (Some (str "60001:60010")) 256 0 [str "LANG=en_US.UTF-8"] /\
        (exists sh, user_shell ∅ (Some (str "/bin/bash")) = Some sh /\ path = if bool_decide (sh = []) then str "/bin/sh" else sh) /\
        (exists name, cmd = [name] /\ login_name path name) /\ motd = true /\
        session_environ ∅ [str "LANG=en_US.UTF-8"] renv'
    | ServerExit status =>
        status = 1 /\ (user_shell ∅ (Some (str "/bin/bash")) = None \/ forall e, ~ session_environ ∅ [str "LANG=en_US.UTF-8"] e)
    end.
Proof.
  assert (Hh : agentHold sample_environ = true) by (vm_compute; reflexivity).
  assert (Hv : localeVars sample_environ = [str "LANG=en_US.UTF-8"]) by (vm_compute; reflexivity).
  assert (Hc : clean sample_options (localeVars sample_environ)).
  { split; [vm_compute; reflexivity|right; split; [vm_compute; reflexivity|vm_compute; by eexists]|vm_compute; reflexivity]. }
  pose proof (server_started true sample_options 256 sample_environ ∅ (Some (str "/bin/bash")) Hc ltac:(done)) as H.
  rewrite Hh, Hv in H. exact H.
Defined.

(** The run: the host has no locale, so the session gets the user's. *)
Example server_started_run :
  (argv ← head (shell (join (remote_words sample_options 256 (localeVars sample_environ) true)));
   match server_main true argv ∅ (Some (str "/bin/bash")) with
   | Ok (ServerRun args path cmd motd renv') => Some (desired_port args, colors args, path, cmd, getenv "LANG" renv')
   | _ => None
   end) = Some (Some (str "60001:60010"), 256, str "/bin/bash", [str "-bash"], Some (str "en_US.UTF-8")).
Proof. vm_compute. reflexivity. Qed.

Definition sample_launcher : LauncherEnv :=
  MkLauncherEnv (str "/data/app/lib") true (Some (str "256")) true
    (fun _ => crlf (str "Welcome" ++ [10] ++ announcement true (str "60001") sample_key_text) ++ str "bye")
    (fun h => if bool_decide (h = str "example.org") then Some (str "192.0.2.7") else None) true 0.

Lemma client_started_witness :
  exists cargv cenv shown,
    launcher_main sample_launcher sample_environ sample_args =
      MkLaunch (Some (sshArgv sample_options 256 sample_environ)) (Some (str "/data/app/lib/libmosh-client.so", cargv, cenv)) shown true 0 /\
    client_main true cargv cenv = Ok (ClientRun (str "192.0.2.7") (str "60001") sample_key_text (Some (str "always")) None 0) /\
    Base64Key_new sample_key_text = Ok (Ok (seqZ 1 15 ++ [255])).
Proof.
  apply (client_started true sample_launcher sample_environ sample_args sample_options (seqZ 1 15 ++ [255]) sample_key_text (str "60001") [] (str "192.0.2.7"));
    [vm_compute; reflexivity|done|by repeat constructor|done|done| |vm_compute; reflexivity|done|done| |vm_compute; reflexivity|vm_compute; reflexivity].
  - split; [done|]. repeat constructor; done.
  - exists (str "Welcome" ++ [10]), [str "Welcome"], true, true, (str "bye"). split; [right; by exists (str "Welcome")|]. split; [vm_compute; reflexivity|by rewrite <- app_assoc].
Defined.
