(* ===== verification/Kitty.v ===== *)
(** * Images of the terminal (app/src/main/cpp/ghostty_jni.cpp)

    The pixels of Kitty graphics go from the terminal library to bitmaps of the
    Java side: their conversion, the cache of bitmaps, and the placements of a
    frame.  What the library returns is an argument; a reference that was
    deleted must not be used again. *)
From stdpp Require Import gmap.
From S2P Require Export Prelude.

(** ** Pixels *)

Inductive KittyFormat : Type := RGB | RGBA | PNG | GRAY_ALPHA | GRAY.
#[export] Instance KittyFormat_eq_dec : EqDecision KittyFormat.
Proof. solve_decision. Defined.

(** A locked bitmap: [AndroidBitmapInfo] and the memory of its rows. *)
Record Bitmap : Type := MkBitmap { bm_width : Z; bm_height : Z; bm_stride : Z; bm_rgba_8888 : bool; bm_pixels : list Z }.
#[export] Instance eta_Bitmap : Eta Bitmap := fun b => MkBitmap (bm_width b) (bm_height b) (bm_stride b) (bm_rgba_8888 b) (bm_pixels b).

Definition source_bpp (f : KittyFormat) : option Z :=
  match f with RGBA => Some 4 | RGB => Some 3 | GRAY_ALPHA => Some 2 | GRAY => Some 1 | PNG => None end.

(** Stores through a pointer, and [memcpy]. *)
Definition poke (i v : Z) : M (list Z) unit := fun l => if decide (0 <= i < lenZ l) then Ok (tt, updateZ l i v) else Err Undefined.
Definition memcpy (dst : Z) (source : list Z) (src n : Z) : M (list Z) unit := fun l =>
  if decide (0 <= src /\ 0 <= n /\ src + n <= lenZ source /\ 0 <= dst /\ dst + n <= lenZ l)
  then Ok (tt, take (Z.to_nat dst) l ++ take (Z.to_nat n) (drop (Z.to_nat src) source) ++ drop (Z.to_nat (dst + n)) l)
  else Err Undefined.

(** One pixel of a row; the chained assignments store from right to left. *)
Definition copy_pixel (f : KittyFormat) (source : list Z) (src dst x : Z) : M (list Z) unit :=
  match f with
  | RGB =>
      r ← lift (index_ source (src + u32 (x * 3))); poke (dst + u32 (x * 4)) r ;;
      g ← lift (index_ source (src + u32 (x * 3 + 1))); poke (dst + u32 (x * 4 + 1)) g ;;
      b ← lift (index_ source (src + u32 (x * 3 + 2))); poke (dst + u32 (x * 4 + 2)) b ;;
      poke (dst + u32 (x * 4 + 3)) 0xFF
  | GRAY_ALPHA =>
      v ← lift (index_ source (src + u32 (x * 2)));
      poke (dst + u32 (x * 4 + 2)) v ;; poke (dst + u32 (x * 4 + 1)) v ;; poke (dst + u32 (x * 4)) v ;;
      a ← lift (index_ source (src + u32 (x * 2 + 1))); poke (dst + u32 (x * 4 + 3)) a
  | _ =>
      v ← lift (index_ source (src + x));
      poke (dst + u32 (x * 4 + 2)) v ;; poke (dst + u32 (x * 4 + 1)) v ;; poke (dst + u32 (x * 4)) v ;;
      poke (dst + u32 (x * 4 + 3)) 0xFF
  end.

Definition copy_row (f : KittyFormat) (source : list Z) (width src dst : Z) : M (list Z) unit :=
  if bool_decide (f = RGBA) then memcpy dst source src (width * 4)
  else for_range 0 width (copy_pixel f source src dst).

(** The pointers are not null; [lock_ok] says whether the calls that give the
    information on the bitmap and its memory succeed. *)
Definition copy_kitty_pixels_to_bitmap (lock_ok : bool) (source : list Z) (width height : Z) (f : KittyFormat) (b : Bitmap) : result fault (bool * Bitmap) :=
  if (width =? 0) || (height =? 0) then Ok (false, b) else
  match source_bpp f with
  | None => Ok (false, b)
  | Some bpp =>
      let source_stride := width * bpp in
      if lenZ source / height <? source_stride then Ok (false, b) else
      if negb lock_ok || negb (bm_rgba_8888 b) || negb (bm_width b =? width) || negb (bm_height b =? height) then Ok (false, b) else
      '(_, l) ← for_range 0 height (fun y => copy_row f source width (y * source_stride) (y * bm_stride b)) (bm_pixels b);
      Ok (true, b <| bm_pixels := l |>)
  end.

(** *** What a copy stores *)

Definition octet (l : list Z) (i : Z) : Z := default 0 (lookupZ l i).
(** Channel [k] of pixel [p] of the source as red, green, blue and alpha. *)
Definition channel (f : KittyFormat) (source : list Z) (p k : Z) : Z :=
  match f with
  | RGBA => octet source (p * 4 + k)
  | RGB => if k <? 3 then octet source (p * 3 + k) else 0xFF
  | GRAY_ALPHA => if k <? 3 then octet source (p * 2) else octet source (p * 2 + 1)
  | _ => if k <? 3 then octet source p else 0xFF
  end.

Lemma index_octet l i : 0 <= i < lenZ l -> index_ l i = Ok (octet l i).
Proof. intros H. unfold index_, octet. destruct (lookupZ_lt l i H) as [x ->]. done. Qed.

Lemma lookupZ_stored (l : list Z) i j v : 0 <= i < lenZ l -> lookupZ (updateZ l i v) j = if j =? i then Some v else lookupZ l j.
Proof. intros H. destruct (Z.eqb_spec j i) as [->|Hn]; [by apply lookupZ_updateZ_eq|]. apply lookupZ_updateZ_ne. lia. Qed.

Lemma poke_ok i v l : 0 <= i < lenZ l -> poke i v l = Ok (tt, updateZ l i v).
Proof. intros H. unfold poke. by rewrite decide_True. Qed.

Section copying.
Context (f : KittyFormat) (source : list Z) (w h bpp stride : Z) (l0 : list Z).
Hypothesis Hw : 0 < w <= 8192.
Hypothesis Hh : 0 < h.
Hypothesis Hbpp : source_bpp f = Some bpp.
Hypothesis Hsource : w * bpp * h <= lenZ source.
Hypothesis Hstride : w * 4 <= stride.
Hypothesis Hl0 : lenZ l0 = stride * h.

(** What is stored at the end. *)
Definition stored (i : Z) : option Z :=
  let y := i / stride in let j := i mod stride in
  if j <? w * 4 then Some (channel f source (y * w + j / 4) (j mod 4)) else lookupZ l0 i.

(** The octets before [n] are stored. *)
Definition upto (n : Z) (l : list Z) : Prop := lenZ l = lenZ l0 /\ forall i, 0 <= i < lenZ l0 -> lookupZ l i = if i <? n then stored i else lookupZ l0 i.

Lemma stored_pixel y x k : 0 <= y < h -> 0 <= x < w -> 0 <= k < 4 -> stored (y * stride + x * 4 + k) = Some (channel f source (y * w + x) k).
Proof.
  intros Hy Hx Hk. unfold stored. replace (y * stride + x * 4 + k) with (x * 4 + k + y * stride) by lia. rewrite Z.div_add, Z.mod_add by lia.
  rewrite (Z.div_small (x * 4 + k)), (Z.mod_small (x * 4 + k)) by lia. rewrite (proj2 (Z.ltb_lt _ _)) by lia.
  replace (x * 4 + k) with (k + x * 4) by lia. rewrite Z.div_add, Z.mod_add, Z.div_small, Z.mod_small by lia. done.
Qed.
Lemma stored_padding y j : 0 <= y < h -> w * 4 <= j < stride -> stored (y * stride + j) = lookupZ l0 (y * stride + j).
Proof.
  intros Hy Hj. unfold stored. replace (y * stride + j) with (j + y * stride) by lia. rewrite Z.mod_add, Z.mod_small by lia. by rewrite (proj2 (Z.ltb_ge _ _)) by lia.
Qed.

Lemma bpp_range : 1 <= bpp <= 4.
Proof. destruct f; cbn in Hbpp; injection Hbpp as <- || done; lia. Qed.

Lemma pixel_room y x : 0 <= y < h -> 0 <= x < w -> 0 <= y * stride + x * 4 /\ y * stride + x * 4 + 4 <= lenZ l0.
Proof. intros Hy Hx. rewrite Hl0. nia. Qed.
Lemma source_room y x k : 0 <= y < h -> 0 <= x < w -> 0 <= k < bpp -> 0 <= (y * w + x) * bpp + k < lenZ source.
Proof. intros Hy Hx Hk. assert (0 <= y * w + x /\ y * w + x + 1 <= w * h) as [H0 H1] by nia. assert ((y * w + x + 1) * bpp <= w * h * bpp) by nia. nia. Qed.

(** Four stores make a pixel. *)
Lemma upto_pixel y x l l' : 0 <= y < h -> 0 <= x < w -> upto (y * stride + x * 4) l -> lenZ l' = lenZ l ->
  (forall i, lookupZ l' i = if (y * stride + x * 4 <=? i) && (i <? y * stride + x * 4 + 4) then Some (channel f source (y * w + x) (i - (y * stride + x * 4))) else lookupZ l i) ->
  upto (y * stride + x * 4 + 4) l'.
Proof.
  intros Hy Hx [Hl Hu] Hlen H. split; [congruence|]. intros i Hi. rewrite H. destruct (Z.leb_spec (y * stride + x * 4) i); cbn [andb].
  - destruct (Z.ltb_spec i (y * stride + x * 4 + 4)).
    + rewrite <- (stored_pixel y x (i - (y * stride + x * 4))) by lia. f_equal. lia.
    + rewrite Hu by done. by rewrite (proj2 (Z.ltb_ge _ _)) by lia.
  - rewrite Hu by done. by rewrite !(proj2 (Z.ltb_lt _ _)) by lia.
Qed.

Lemma u32_id z : 0 <= z < 2 ^ 32 -> u32 z = z.
Proof. apply Z.mod_small. Qed.

Ltac poke_step := match goal with |- context [(poke ?i ?v ≫= _) ?m] => rewrite (M_bind_Ok _ _ _ _ _ (poke_ok i v m ltac:(rewrite ?lenZ_updateZ; lia))) end.
Ltac poke_last := rewrite poke_ok by (rewrite ?lenZ_updateZ; lia); eexists; split; [done|]; match goal with Hp : forall v0 v1 v2 v3 _, _ |- _ => eapply Hp end;
  [by rewrite !lenZ_updateZ
  |intros i; rewrite !lookupZ_stored by (rewrite ?lenZ_updateZ; lia); repeat case_match; lia || done
  |intros k Hk; assert (k = 0 \/ k = 1 \/ k = 2 \/ k = 3) as [->|[->|[->| ->]]] by lia; cbn; by rewrite ?Z.add_0_r].

Lemma copy_pixel_ok y x l : f <> RGBA -> 0 <= y < h -> 0 <= x < w -> upto (y * stride + x * 4) l ->
  exists l', copy_pixel f source (y * (w * bpp)) (y * stride) x l = Ok (tt, l') /\ upto (y * stride + x * 4 + 4) l'.
Proof.
  intros Hf Hy Hx Hu. pose proof (pixel_room y x Hy Hx) as Hr. pose proof (proj1 Hu) as Hl.
  assert (Hs : forall k, 0 <= k < bpp -> 0 <= y * (w * bpp) + (x * bpp + k) < lenZ source /\ octet source (y * (w * bpp) + (x * bpp + k)) = octet source ((y * w + x) * bpp + k)).
  { intros k Hk. pose proof (source_room y x k Hy Hx Hk). replace (y * (w * bpp) + (x * bpp + k)) with ((y * w + x) * bpp + k) by lia. done. }
  set (n := y * stride + x * 4) in *. unfold copy_pixel.
  assert (Hp : forall v0 v1 v2 v3 (m : list Z), lenZ m = lenZ l ->
    (forall i, lookupZ m i = if i =? n + 3 then Some v3 else if i =? n + 2 then Some v2 else if i =? n + 1 then Some v1 else if i =? n then Some v0 else lookupZ l i) ->
    (forall k, 0 <= k < 4 -> channel f source (y * w + x) k = if k =? 0 then v0 else if k =? 1 then v1 else if k =? 2 then v2 else v3) -> upto (n + 4) m).
  { intros v0 v1 v2 v3 m Hm Hi Hc. apply (upto_pixel y x l m Hy Hx Hu Hm). intros i. rewrite Hi. fold n.
    destruct (Z.leb_spec n i); cbn [andb]; [destruct (Z.ltb_spec i (n + 4))|].
    - rewrite Hc by lia. repeat case_match; f_equal; lia.
    - repeat case_match; lia || done.
    - repeat case_match; lia || done. }
  assert (Ha : forall k, 0 <= k < 4 -> y * stride + u32 (x * 4 + k) = n + k) by (intros k Hk; rewrite u32_id by lia; subst n; lia).
  pose proof (Ha 0 ltac:(lia)) as Ha0. rewrite !Z.add_0_r in Ha0.
  assert (Hget : forall k i, 0 <= k < bpp -> i = x * bpp + k -> forall m : list Z, (lift (index_ source (y * (w * bpp) + u32 i)) : M (list Z) Z) m = Ok (octet source ((y * w + x) * bpp + k), m)).
  { intros k i Hk -> m. pose proof bpp_range. rewrite u32_id by nia. destruct (Hs k Hk) as [Hr' <-]. by rewrite index_octet. }
  destruct f; try done; cbn in Hbpp; injection Hbpp as <-; cbn [channel] in Hp.
  all: rewrite ?Ha0, ?(Ha 1), ?(Ha 2), ?(Ha 3) by lia.
  - rewrite (M_bind_Ok _ _ _ _ _ (Hget 0 (x * 3) ltac:(lia) ltac:(lia) _)). poke_step.
    rewrite (M_bind_Ok _ _ _ _ _ (Hget 1 (x * 3 + 1) ltac:(lia) ltac:(lia) _)). poke_step.
    rewrite (M_bind_Ok _ _ _ _ _ (Hget 2 (x * 3 + 2) ltac:(lia) ltac:(lia) _)). poke_step. poke_last.
  - rewrite (M_bind_Ok _ _ _ _ _ (Hget 0 (x * 2) ltac:(lia) ltac:(lia) _)). do 3 poke_step.
    rewrite (M_bind_Ok _ _ _ _ _ (Hget 1 (x * 2 + 1) ltac:(lia) ltac:(lia) _)). poke_last.
  - rewrite (M_bind_Ok (lift _) _ l (octet source (y * w + x)) l).
    2:{ destruct (Hs 0 ltac:(lia)) as [Hr' E]. replace (y * (w * 1) + (x * 1 + 0)) with (y * (w * 1) + x) in * by lia. rewrite index_octet, E by done. cbn. do 3 f_equal. lia. }
    do 3 poke_step. poke_last.
Qed.

Lemma copy_row_ok y l : 0 <= y < h -> upto (y * stride) l ->
  exists l', copy_row f source w (y * (w * bpp)) (y * stride) l = Ok (tt, l') /\ upto ((y + 1) * stride) l'.
Proof.
  intros Hy Hu. unfold copy_row.
  assert (Hend : forall l', upto (y * stride + w * 4) l' -> upto ((y + 1) * stride) l').
  { intros l' [Hl H]. split; [done|]. intros i Hi. rewrite H by done. destruct (Z.ltb_spec i (y * stride + w * 4)), (Z.ltb_spec i ((y + 1) * stride)); try done; [lia|].
    replace i with (y * stride + (i - y * stride)) by lia. by rewrite stored_padding by lia. }
  case_bool_decide as Hf.
  - assert (Eb : bpp = 4) by (rewrite Hf in Hbpp; by injection Hbpp). rewrite Eb. unfold memcpy. pose proof (proj1 Hu) as Hl. assert (Hr : 0 <= y * stride /\ y * stride + w * 4 <= lenZ l) by (rewrite Hl, Hl0; nia).
    assert (Hs : 0 <= y * (w * 4) /\ y * (w * 4) + w * 4 <= lenZ source) by nia. rewrite decide_True by lia. eexists. split; [done|]. apply Hend.
    assert (Hlen : lenZ (take (Z.to_nat (w * 4)) (drop (Z.to_nat (y * (w * 4))) source)) = w * 4) by (rewrite lenZ_take; [lia|rewrite lenZ_drop; lia]).
    assert (Ht : lenZ (take (Z.to_nat (y * stride)) l) = y * stride) by (rewrite lenZ_take; lia). split.
    { rewrite !lenZ_app, Hlen, Ht, lenZ_drop by lia. lia. }
    intros i Hi. destruct (Z.ltb_spec i (y * stride)); [|destruct (Z.ltb_spec i (y * stride + w * 4))].
    + rewrite (proj2 (Z.ltb_lt i (y * stride + w * 4))) by lia. rewrite lookupZ_app_l, lookupZ_take by lia. rewrite (proj2 Hu) by done. by rewrite (proj2 (Z.ltb_lt _ _)) by lia.
    + rewrite lookupZ_app_r, Ht by lia. rewrite lookupZ_app_l, lookupZ_take, lookupZ_drop by lia.
      set (j := i - y * stride) in *. pose proof (Z.div_mod j 4 ltac:(lia)) as Hj. pose proof (Z.mod_pos_bound j 4 ltac:(lia)) as Hk.
      replace i with (y * stride + (j / 4) * 4 + j mod 4) by lia. rewrite stored_pixel by nia. rewrite Hf. cbn [channel]. unfold octet.
      replace ((y * w + j / 4) * 4 + j mod 4) with (y * (w * 4) + j) by lia. destruct (lookupZ_lt source (y * (w * 4) + j) ltac:(lia)) as [v ->]. done.
    + rewrite lookupZ_app_r, Ht by lia. rewrite lookupZ_app_r, Hlen by lia. rewrite lookupZ_drop by lia. replace (y * stride + w * 4 + (i - y * stride - w * 4)) with i by lia.
      rewrite (proj2 Hu) by done. by rewrite (proj2 (Z.ltb_ge _ _)) by lia.
  - unfold for_range. rewrite Z.sub_0_r.
    assert (Hloop : forall n x l, x + Z.of_nat n = w -> 0 <= x -> upto (y * stride + x * 4) l ->
      exists l', for_n n x (copy_pixel f source (y * (w * bpp)) (y * stride)) l = Ok (tt, l') /\ upto (y * stride + w * 4) l').
    { induction n as [|n IH]; intros x m Hx H0 Hm; cbn [for_n]; [replace x with w in Hm by lia; by exists m|].
      destruct (copy_pixel_ok y x m Hf Hy ltac:(lia) Hm) as (m1 & E & Hm1). rewrite (M_bind_Ok _ _ _ _ _ E). apply IH; [lia|lia|]. by replace (y * stride + (x + 1) * 4) with (y * stride + x * 4 + 4) by lia. }
    destruct (Hloop (Z.to_nat w) 0 l ltac:(lia) ltac:(lia)) as (l' & E & Hl'); [by rewrite Z.mul_0_l, Z.add_0_r|]. exists l'. split; [done|by apply Hend].
Qed.

Lemma copy_rows_ok : exists l, for_range 0 h (fun y => copy_row f source w (y * (w * bpp)) (y * stride)) l0 = Ok (tt, l) /\ upto (stride * h) l.
Proof.
  unfold for_range. rewrite Z.sub_0_r.
  assert (Hloop : forall n y l, y + Z.of_nat n = h -> 0 <= y -> upto (y * stride) l ->
    exists l', for_n n y (fun y => copy_row f source w (y * (w * bpp)) (y * stride)) l = Ok (tt, l') /\ upto (stride * h) l').
  { induction n as [|n IH]; intros y m Hy H0 Hm; cbn [for_n]; [replace (y * stride) with (stride * h) in Hm by nia; by exists m|].
    destruct (copy_row_ok y m ltac:(lia) Hm) as (m1 & E & Hm1). rewrite (M_bind_Ok _ _ _ _ _ E). apply IH; [lia|lia|done]. }
  apply (Hloop (Z.to_nat h) 0 l0); [lia|lia|]. split; [done|]. intros i Hi. by rewrite Z.mul_0_l, (proj2 (Z.ltb_ge _ _)) by lia.
Qed.
End copying.

(** A bitmap as Android makes it. *)
Record bitmap_ok (w h : Z) (b : Bitmap) : Prop := {
  bo_rgba : bm_rgba_8888 b = true;
  bo_width : bm_width b = w;
  bo_height : bm_height b = h;
  bo_stride : w * 4 <= bm_stride b;
  bo_pixels : lenZ (bm_pixels b) = bm_stride b * h }.

(** The bitmap shows the image. *)
Definition shows_image (f : KittyFormat) (source : list Z) (b : Bitmap) : Prop :=
  forall x y k, 0 <= x < bm_width b -> 0 <= y < bm_height b -> 0 <= k < 4 ->
    lookupZ (bm_pixels b) (y * bm_stride b + x * 4 + k) = Some (channel f source (y * bm_width b + x) k).

(** Pixels are copied.  For an image that fits a bitmap of its size, in every
    format, the copy reads no octet outside the source and stores none outside
    the bitmap; it fails without a change when the source is too short, the
    format is unknown or the bitmap cannot be locked, and otherwise the bitmap
    shows the image, and the octets between the rows are as before. *)
Theorem pixels_copied lock_ok source w h f b : bitmap_ok w h b -> 0 < w <= 8192 -> 0 < h ->
  exists ok b', copy_kitty_pixels_to_bitmap lock_ok source w h f b = Ok (ok, b') /\ bitmap_ok w h b' /\ bm_stride b' = bm_stride b /\
    (ok = true <-> lock_ok = true /\ exists bpp, source_bpp f = Some bpp /\ w * bpp <= lenZ source / h) /\
    (ok = false -> b' = b) /\ (ok = true -> shows_image f source b') /\
    (forall y j, 0 <= y < h -> w * 4 <= j < bm_stride b -> lookupZ (bm_pixels b') (y * bm_stride b + j) = lookupZ (bm_pixels b) (y * bm_stride b + j)).
Proof.
  intros Hb Hw Hh. pose proof Hb as [B1 B2 B3 B4 B5]. unfold copy_kitty_pixels_to_bitmap.
  rewrite (proj2 (Z.eqb_neq w 0)), (proj2 (Z.eqb_neq h 0)), B1, B2, B3, !Z.eqb_refl by lia. cbn [orb negb].
  assert (Hno : forall P : Prop, ~ P -> exists ok b', (Ok (false, b) : result fault (bool * Bitmap)) = Ok (ok, b') /\ bitmap_ok w h b' /\ bm_stride b' = bm_stride b /\ (ok = true <-> P) /\
    (ok = false -> b' = b) /\ (ok = true -> shows_image f source b') /\
    (forall y j, 0 <= y < h -> w * 4 <= j < bm_stride b -> lookupZ (bm_pixels b') (y * bm_stride b + j) = lookupZ (bm_pixels b) (y * bm_stride b + j))).
  { intros P HP. exists false, b. by split_and!. }
  destruct (source_bpp f) as [bpp|] eqn:Ef; [|apply Hno; by intros (_ & bpp & [=] & _)].
  destruct (Z.ltb_spec (lenZ source / h) (w * bpp)) as [Hlt|Hge]; [apply Hno; intros (_ & bpp' & [= <-] & ?); lia|].
  destruct lock_ok; cbn [orb negb]; [|apply Hno; by intros [? _]].
  assert (Hs : w * bpp * h <= lenZ source) by (pose proof (Z.mul_div_le (lenZ source) h Hh); nia).
  destruct (copy_rows_ok f source w h bpp (bm_stride b) (bm_pixels b) Hw Hh Ef Hs B4 B5) as (l & E & Hl & Hu). rewrite E. cbn [mbind result_bind].
  eexists true, _. split; [done|]. split; [by split; try done; cbn; congruence|]. split; [done|]. split; [split; [by eauto|done]|]. split; [done|]. split.
  - intros _ x y k. cbn. rewrite B2, B3. intros Hx Hy Hk. rewrite Hu by (rewrite B5; nia). rewrite (proj2 (Z.ltb_lt _ _)) by (nia). by apply (stored_pixel f source w h (bm_stride b) (bm_pixels b)).
  - intros y j Hy Hj. cbn. rewrite Hu by (rewrite B5; nia). rewrite (proj2 (Z.ltb_lt _ _)) by nia. by apply (stored_padding f source w h (bm_stride b) (bm_pixels b)).
Qed.

(** ** The cache of bitmaps *)

(** A bitmap is known by its global reference. *)
Record KittyBitmapCache : Type := MkCache { kc_image_id : Z; kc_width : Z; kc_height : Z; kc_generation : Z; kc_bitmap : option Z }.
#[export] Instance eta_KittyBitmapCache : Eta KittyBitmapCache :=
  fun e => MkCache (kc_image_id e) (kc_width e) (kc_height e) (kc_generation e) (kc_bitmap e).

(** The images of a session and the global references of the Java machine that
    were not deleted. *)
Record Kitty : Type := MkKitty { kitty_bitmap_cache : list KittyBitmapCache; global_refs : gmap Z Bitmap; next_ref : Z }.
#[export] Instance eta_Kitty : Eta Kitty := fun k => MkKitty (kitty_bitmap_cache k) (global_refs k) (next_ref k).

(** What Android does: a new bitmap, unless it or its global reference cannot be
    made; and whether a bitmap can be locked. *)
Record KittyEnv : Type := MkKittyEnv { create_argb_bitmap : Z -> Z -> option Bitmap; lock_pixels : Z -> bool }.

Definition deref_bitmap (r : Z) : M Kitty Bitmap := fun k => match global_refs k !! r with Some b => Ok (b, k) | None => Err Undefined end.
Definition DeleteGlobalRef (r : Z) : M Kitty unit := deref_bitmap r ;; modify (fun k => k <| global_refs := delete r (global_refs k) |>).
Definition NewGlobalRef (b : Bitmap) : M Kitty Z := fun k =>
  Ok (next_ref k, k <| global_refs := <[next_ref k := b]> (global_refs k) |> <| next_ref := next_ref k + 1 |>).

Definition get_entry (i : nat) : M Kitty KittyBitmapCache := fun k => match kitty_bitmap_cache k !! i with Some e => Ok (e, k) | None => Err Undefined end.
Definition set_entry (i : nat) (e : KittyBitmapCache) : M Kitty unit := modify (fun k => k <| kitty_bitmap_cache := <[i := e]> (kitty_bitmap_cache k) |>).

Definition MAX_BITMAP_BYTES : Z := 16 * 1024 * 1024.
Definition MAX_BITMAP_DIMENSION : Z := 8192.
Definition bitmap_refused (width height : Z) : bool :=
  (width =? 0) || (height =? 0) || (MAX_BITMAP_DIMENSION <? width) || (MAX_BITMAP_DIMENSION <? height) || (MAX_BITMAP_BYTES <? u64 (u64 (width * height) * 4)).

(** A new entry; the oldest one goes when there are two. *)
Definition new_entry (image_id : Z) : M Kitty nat :=
  k ← get;
  (match kitty_bitmap_cache k with
   | front :: (_ :: _) as rest =>
       (match kc_bitmap front with Some r => DeleteGlobalRef r | None => mret tt end) ;;
       modify (fun k => k <| kitty_bitmap_cache := tail (kitty_bitmap_cache k) |>)
   | _ => mret tt
   end) ;;
  modify (fun k => k <| kitty_bitmap_cache := kitty_bitmap_cache k ++ [MkCache image_id 0 0 0 None] |>) ;;
  gets (fun k => Nat.pred (length (kitty_bitmap_cache k))).

(** The index of the entry; [None] for a null pointer. *)
Definition bitmap_cache_for (env : KittyEnv) (image_id width height : Z) : M Kitty (option nat) :=
  if bitmap_refused width height then mret None else
  k ← get;
  i ← (match list_find (fun e => kc_image_id e = image_id) (kitty_bitmap_cache k) with Some (i, _) => mret i | None => new_entry image_id end);
  e ← get_entry i;
  (match kc_bitmap e with
   | Some r => when_ (negb (kc_width e =? width) || negb (kc_height e =? height)) (DeleteGlobalRef r ;; set_entry i (e <| kc_bitmap := None |> <| kc_generation := 0 |>))
   | None => mret tt
   end) ;;
  e ← get_entry i;
  match kc_bitmap e with
  | Some _ => mret (Some i)
  | None =>
      match create_argb_bitmap env width height with
      | None => mret None
      | Some b => r ← NewGlobalRef b; set_entry i (e <| kc_bitmap := Some r |> <| kc_width := width |> <| kc_height := height |>) ;; mret (Some i)
      end
  end.

(** ** The placements of a frame *)

(** [im_data] is absent while the pixels are on the way. *)
Record KittyImage : Type := MkKittyImage { im_width : Z; im_height : Z; im_format : KittyFormat; im_generation : Z; im_data : option (list Z) }.
Record RenderInfo : Type := MkRenderInfo {
  viewport_visible : bool; viewport_col : Z; viewport_row : Z; pixel_width : Z; pixel_height : Z;
  source_x : Z; source_y : Z; source_width : Z; source_height : Z }.
Record Placement : Type := MkPlacement { pl_image_id : Z; pl_x_offset : Z; pl_y_offset : Z; pl_z : Z; pl_info : option RenderInfo }.
(** What the library holds: images by number, and the placements in order. *)
Record KittyGraphics : Type := MkKittyGraphics { kg_image : Z -> option KittyImage; kg_placements : list Placement }.

(** The arrays of the frame on the Java side: bitmaps, and ten arrays of numbers. *)
Record KittyFrame : Type := MkKittyFrame { kf_count : Z; kf_bitmaps : list (option Z); kf_values : list (list Z) }.

(** Arithmetic of [int]. *)
Definition int_of (z : Z) : result fault Z := if decide (- 2 ^ 31 <= z < 2 ^ 31) then Ok z else Err Undefined.

Inductive placed : Type := Skipped | Incomplete | Shown (bitmap : Z) (values : list Z).

Definition placement_values (cell_width cell_height : Z) (p : Placement) (ri : RenderInfo) : result fault (list Z) :=
  left ← (m ← int_of (viewport_col ri * i32 cell_width); int_of (m + i32 (pl_x_offset p)));
  top ← (m ← int_of (viewport_row ri * i32 cell_height); int_of (m + i32 (pl_y_offset p)));
  Ok [i32 (pl_image_id p); left; top; i32 (pixel_width ri); i32 (pixel_height ri); i32 (source_x ri); i32 (source_y ri);
      i32 (source_width ri); i32 (source_height ri); pl_z p].

(** The pixels of the entry are brought up to date; [false] when they cannot. *)
Definition refresh_entry (env : KittyEnv) (i : nat) (im : KittyImage) (data : list Z) : M Kitty bool :=
  e ← get_entry i;
  if kc_generation e =? im_generation im then mret true else
  match kc_bitmap e with
  | None => mret false
  | Some r =>
      b ← deref_bitmap r;
      '(ok, b') ← lift (copy_kitty_pixels_to_bitmap (lock_pixels env r) data (im_width im) (im_height im) (im_format im) b);
      modify (fun k => k <| global_refs := <[r := b']> (global_refs k) |>) ;;
      if (ok : bool) then set_entry i (e <| kc_generation := im_generation im |>) ;; mret true else mret false
  end.

Definition place (env : KittyEnv) (cell_width cell_height : Z) (g : KittyGraphics) (p : Placement) : M Kitty placed :=
  match kg_image g (pl_image_id p), pl_info p with
  | Some im, Some ri =>
      if negb (viewport_visible ri) then mret Skipped else
      match im_data im with
      | None => mret Incomplete
      | Some data =>
          if (im_width im =? 0) || (im_height im =? 0) then mret Incomplete else
          c ← bitmap_cache_for env (pl_image_id p) (im_width im) (im_height im);
          match c with
          | None => mret Incomplete
          | Some i =>
              ok ← refresh_entry env i im data;
              if negb ok then mret Incomplete else
              e ← get_entry i;
              v ← lift (placement_values cell_width cell_height p ri);
              match kc_bitmap e with Some r => mret (Shown r v) | None => fail Undefined end
          end
      end
  | _, _ => mret Skipped
  end.

(** The loop over the placements; [acc] holds those shown. *)
Fixpoint place_loop (env : KittyEnv) (cell_width cell_height capacity : Z) (g : KittyGraphics) (ps : list Placement)
    (acc : list (Z * list Z)) (incomplete : bool) : M Kitty (list (Z * list Z) * bool) :=
  match ps with
  | [] => mret (acc, incomplete)
  | p :: ps' =>
      if (lenZ acc <? capacity) && (lenZ acc <? 16) then
        o ← place env cell_width cell_height g p;
        match o with
        | Skipped => place_loop env cell_width cell_height capacity g ps' acc incomplete
        | Incomplete => place_loop env cell_width cell_height capacity g ps' acc true
        | Shown r v => place_loop env cell_width cell_height capacity g ps' (acc ++ [(r, v)]) incomplete
        end
      else mret (acc, incomplete)
  end.

(** [SetObjectArrayElement] of each bitmap. *)
Fixpoint use_refs (l : list (Z * list Z)) : M Kitty unit :=
  match l with [] => mret tt | (r, _) :: l' => deref_bitmap r ;; use_refs l' end.

(** [SetIntArrayRegion] of the first elements of array [i] of the frame and of
    the arrays after it.  An array that is too short raises an exception, and
    the calls that follow are undefined. *)
Definition set_values (l : list (Z * list Z)) (i : nat) (a : list Z) : list Z :=
  ((fun x => nth i x.2 0) <$> l) ++ drop (length l) a.
Fixpoint set_arrays (l : list (Z * list Z)) (i : nat) (arrays : list (list Z)) : result fault (list (list Z)) :=
  match arrays with
  | [] => Ok []
  | a :: rest => if decide (lenZ l <= lenZ a) then rest' ← set_arrays l (S i) rest; Ok (set_values l i a :: rest') else Err Undefined
  end.

(** [graphics] is absent when the library has none or its iterator cannot be
    had; [quiet_ms] is the time since the last octets of the terminal. *)
Definition update_kitty_graphics (env : KittyEnv) (cell_width cell_height quiet_ms : Z) (graphics : option KittyGraphics) (f : KittyFrame) : M Kitty KittyFrame :=
  match graphics with
  | None => mret f
  | Some g =>
      let capacity := lenZ (kf_bitmaps f) in
      if capacity <=? 0 then mret f else
      '(l, incomplete) ← place_loop env cell_width cell_height capacity g (kg_placements g) [] false;
      if (incomplete : bool) then mret f else
      if (lenZ l =? 0) && (0 <? kf_count f) && (quiet_ms <? 1500) then mret f else
      use_refs l ;;
      values ← lift (set_arrays l 0 (kf_values f));
      mret (MkKittyFrame (lenZ l) ((Some <$> l.*1) ++ replicate (length (kf_bitmaps f) - length l) None) values)
  end.

(** The references that [nativeClose] deletes. *)
Fixpoint delete_bitmaps (cache : list KittyBitmapCache) : M Kitty unit :=
  match cache with
  | [] => mret tt
  | e :: rest => (match kc_bitmap e with Some r => DeleteGlobalRef r | None => mret tt end) ;; delete_bitmaps rest
  end.
Definition close_bitmaps : M Kitty unit := k ← get; delete_bitmaps (kitty_bitmap_cache k) ;; modify (fun k => k <| kitty_bitmap_cache := [] |>).

(** The image of a placement that is visible. *)
Definition asked_for (g : KittyGraphics) (p : Placement) : option KittyImage :=
  match kg_image g (pl_image_id p), pl_info p with
  | Some im, Some ri => if viewport_visible ri then Some im else None
  | _, _ => None
  end.

(** ** The cache is sound *)

Section cache.
(** The pixels of an image by number and generation: the library never uses a
    generation again, nor 0. *)
Context (drawn : Z -> Z -> KittyFormat * list Z).

Definition entry_ok (refs : gmap Z Bitmap) (next : Z) (e : KittyBitmapCache) : Prop :=
  match kc_bitmap e with
  | None => kc_generation e = 0
  | Some r => r < next /\ exists b, refs !! r = Some b /\ bitmap_ok (kc_width e) (kc_height e) b /\
      (kc_generation e <> 0 -> shows_image (drawn (kc_image_id e) (kc_generation e)).1 (drawn (kc_image_id e) (kc_generation e)).2 b)
  end.

(** At most two entries, for different images and with bitmaps of their own;
    the references that were not deleted are theirs. *)
Record kitty_inv (k : Kitty) : Prop := {
  ki_two : (length (kitty_bitmap_cache k) <= 2)%nat;
  ki_ids : forall i j e1 e2, kitty_bitmap_cache k !! i = Some e1 -> kitty_bitmap_cache k !! j = Some e2 -> kc_image_id e1 = kc_image_id e2 -> i = j;
  ki_own : forall i j e1 e2 r, kitty_bitmap_cache k !! i = Some e1 -> kitty_bitmap_cache k !! j = Some e2 -> kc_bitmap e1 = Some r -> kc_bitmap e2 = Some r -> i = j;
  ki_entries : forall i e, kitty_bitmap_cache k !! i = Some e -> entry_ok (global_refs k) (next_ref k) e;
  ki_refs : forall r b, global_refs k !! r = Some b -> exists i e, kitty_bitmap_cache k !! i = Some e /\ kc_bitmap e = Some r }.

Lemma refs_below k r b : kitty_inv k -> global_refs k !! r = Some b -> r < next_ref k.
Proof.
  intros Hk Hr. destruct (ki_refs _ Hk r b Hr) as (i & e & Hi & He). pose proof (ki_entries _ Hk i e Hi) as H. unfold entry_ok in H. rewrite He in H. by destruct H.
Qed.
Lemma next_fresh k : kitty_inv k -> global_refs k !! next_ref k = None.
Proof. intros Hk. destruct (global_refs k !! next_ref k) as [b|] eqn:E; [|done]. pose proof (refs_below _ _ _ Hk E). lia. Qed.

(** An entry is changed, and the references with it. *)
Lemma inv_update k i e e' refs next : kitty_inv k -> kitty_bitmap_cache k !! i = Some e -> kc_image_id e' = kc_image_id e -> next_ref k <= next ->
  entry_ok refs next e' ->
  (forall r, kc_bitmap e' = Some r -> kc_bitmap e = Some r \/ global_refs k !! r = None) ->
  (forall r, kc_bitmap e <> Some r -> kc_bitmap e' <> Some r -> refs !! r = global_refs k !! r) ->
  (forall r, kc_bitmap e = Some r -> kc_bitmap e' <> Some r -> refs !! r = None) ->
  kitty_inv (MkKitty (<[i := e']> (kitty_bitmap_cache k)) refs next).
Proof.
  intros Hk Hi Hid Hn He' Hnew Hsame Hgone. pose proof (lookup_lt_Some _ _ _ Hi) as Hlt.
  assert (Hlook : forall j x, <[i := e']> (kitty_bitmap_cache k) !! j = Some x -> (j = i /\ x = e') \/ (j <> i /\ kitty_bitmap_cache k !! j = Some x)).
  { intros j x H. destruct (decide (j = i)) as [->|Hne]; [rewrite list_lookup_insert_eq in H by done; injection H as <-; by left|]. rewrite list_lookup_insert_ne in H by done. by right. }
  assert (Hother : forall j x r, j <> i -> kitty_bitmap_cache k !! j = Some x -> kc_bitmap x = Some r -> kc_bitmap e <> Some r /\ kc_bitmap e' <> Some r).
  { intros j x r Hj Hx Hr. assert (Hne : kc_bitmap e <> Some r) by (intros E; by destruct Hj, (ki_own _ Hk j i x e r)). split; [done|]. intros E'. destruct (Hnew r E') as [?|Hnone]; [done|].
    pose proof (ki_entries _ Hk j x Hx) as H. unfold entry_ok in H. rewrite Hr in H. destruct H as (_ & b & Hb & _). congruence. }
  split; cbn [kitty_bitmap_cache global_refs next_ref].
  - rewrite length_insert. apply Hk.
  - intros j1 j2 x1 x2 [[-> ->]|[N1 H1]]%Hlook [[-> ->]|[N2 H2]]%Hlook E; [done| | |by apply (ki_ids _ Hk j1 j2 x1 x2)].
    + symmetry. apply (ki_ids _ Hk j2 i x2 e); [done|done|congruence].
    + apply (ki_ids _ Hk j1 i x1 e); [done|done|congruence].
  - intros j1 j2 x1 x2 r [[-> ->]|[N1 H1]]%Hlook [[-> ->]|[N2 H2]]%Hlook E1 E2; [done| | |by apply (ki_own _ Hk j1 j2 x1 x2 r)].
    + by destruct (Hother j2 x2 r N2 H2 E2).
    + by destruct (Hother j1 x1 r N1 H1 E1).
  - intros j x [[-> ->]|[N1 H1]]%Hlook; [done|]. pose proof (ki_entries _ Hk j x H1) as H. unfold entry_ok in *. destruct (kc_bitmap x) as [r|] eqn:Er; [|done].
    destruct (Hother j x r N1 H1 Er) as [O1 O2]. rewrite (Hsame r O1 O2). destruct H as [H ?]. split; [lia|done].
  - intros r b Hr. destruct (decide (kc_bitmap e' = Some r)) as [E'|N']; [exists i, e'; by rewrite list_lookup_insert_eq|].
    destruct (decide (kc_bitmap e = Some r)) as [E|N]; [by rewrite (Hgone r E N') in Hr|]. rewrite (Hsame r N N') in Hr. destruct (ki_refs _ Hk r b Hr) as (j & x & Hj & Hx).
    exists j, x. split; [|done]. rewrite list_lookup_insert_ne; [done|]. intros ->. congruence.
Qed.

(** The entry for an image, if there is one. *)
Lemma find_entry k id : match list_find (fun e => kc_image_id e = id) (kitty_bitmap_cache k) with
  | Some (i, e) => kitty_bitmap_cache k !! i = Some e /\ kc_image_id e = id
  | None => forall i e, kitty_bitmap_cache k !! i = Some e -> kc_image_id e <> id end.
Proof.
  destruct (list_find _ _) as [[i e]|] eqn:E.
  - apply list_find_Some in E as (H1 & H2 & _). done.
  - apply list_find_None in E. intros i e Hi. exact (proj1 (Forall_lookup _ _) E i e Hi).
Qed.

Lemma DeleteGlobalRef_ok k r b : global_refs k !! r = Some b -> DeleteGlobalRef r k = Ok (tt, k <| global_refs := delete r (global_refs k) |>).
Proof. intros H. unfold DeleteGlobalRef, deref_bitmap, mbind, M_bind. by rewrite H. Qed.

(** Entries that stay, and their bitmaps. *)
Definition stays (k k' : Kitty) (e : KittyBitmapCache) : Prop :=
  (exists j, kitty_bitmap_cache k' !! j = Some e) /\ forall r, kc_bitmap e = Some r -> global_refs k' !! r = global_refs k !! r.
Definition evicts (k : Kitty) (id : Z) : Prop :=
  length (kitty_bitmap_cache k) = 2%nat /\ forall i e, kitty_bitmap_cache k !! i = Some e -> kc_image_id e <> id.

Definition ids (k : Kitty) : list Z := kc_image_id <$> kitty_bitmap_cache k.
Lemma ids_update k i e e' refs next : kitty_bitmap_cache k !! i = Some e -> kc_image_id e' = kc_image_id e -> ids (MkKitty (<[i := e']> (kitty_bitmap_cache k)) refs next) = ids k.
Proof. intros Hi He. unfold ids. cbn. rewrite list_fmap_insert, He. apply list_insert_id. by rewrite list_lookup_fmap, Hi. Qed.

Lemma append_inv k id : kitty_inv k -> (length (kitty_bitmap_cache k) < 2)%nat -> (forall i e, kitty_bitmap_cache k !! i = Some e -> kc_image_id e <> id) ->
  kitty_inv (k <| kitty_bitmap_cache := kitty_bitmap_cache k ++ [MkCache id 0 0 0 None] |>).
Proof.
  intros Hk Hl Hid. set (e0 := MkCache id 0 0 0 None).
  assert (Hlook : forall j x, (kitty_bitmap_cache k ++ [e0]) !! j = Some x -> kitty_bitmap_cache k !! j = Some x \/ (j = length (kitty_bitmap_cache k) /\ x = e0)).
  { intros j x [H|[H1 H2]]%lookup_app_Some; [by left|]. apply list_lookup_singleton_Some in H2 as [H2 <-]. right. split; [lia|done]. }
  split; cbn [kitty_bitmap_cache global_refs next_ref set_field].
  - rewrite length_app. cbn. lia.
  - intros j1 j2 x1 x2 [H1|[-> ->]]%Hlook [H2|[-> ->]]%Hlook E; [by apply (ki_ids _ Hk j1 j2 x1 x2)| | |done].
    + by destruct (Hid j1 x1 H1).
    + by destruct (Hid j2 x2 H2).
  - intros j1 j2 x1 x2 r [H1|[-> ->]]%Hlook [H2|[-> ->]]%Hlook E1 E2; [by apply (ki_own _ Hk j1 j2 x1 x2 r)|done..].
  - intros j x [H1|[-> ->]]%Hlook; [by apply (ki_entries _ Hk j)|done].
  - intros r b Hr. destruct (ki_refs _ Hk r b Hr) as (j & x & Hj & Hx). exists j, x. split; [by apply lookup_app_l_Some|done].
Qed.

(** The oldest entry goes, and its reference. *)
Lemma evict_inv k a rest : kitty_inv k -> kitty_bitmap_cache k = a :: rest ->
  kitty_inv (MkKitty rest (match kc_bitmap a with Some r => delete r (global_refs k) | None => global_refs k end) (next_ref k)).
Proof.
  intros Hk Hc. destruct Hk as [K0 K1 K2 K3 K4]. rewrite Hc in *.
  assert (Hsame : forall j x r, rest !! j = Some x -> kc_bitmap x = Some r ->
    (match kc_bitmap a with Some r => delete r (global_refs k) | None => global_refs k end) !! r = global_refs k !! r).
  { intros j x r Hj Hx. destruct (kc_bitmap a) as [ra|] eqn:Ea; [|done]. rewrite lookup_delete_ne; [done|]. intros ->. by specialize (K2 0%nat (S j) a x r eq_refl Hj Ea Hx). }
  split; cbn [kitty_bitmap_cache global_refs next_ref].
  - cbn in K0. lia.
  - intros j1 j2 x1 x2 H1 H2 E. pose proof (K1 (S j1) (S j2) x1 x2 H1 H2 E). lia.
  - intros j1 j2 x1 x2 r H1 H2 E1 E2. pose proof (K2 (S j1) (S j2) x1 x2 r H1 H2 E1 E2). lia.
  - intros j x Hj. pose proof (K3 (S j) x Hj) as H. unfold entry_ok in *. destruct (kc_bitmap x) as [r|] eqn:Er; [|done]. by rewrite (Hsame j x r Hj Er).
  - intros r b Hr. assert (Hr0 : global_refs k !! r = Some b /\ kc_bitmap a <> Some r).
    { destruct (kc_bitmap a) as [ra|]; [|done]. apply lookup_delete_Some in Hr as [Hne Hr]. split; [done|]. by intros [= ->]. }
    destruct (K4 r b (proj1 Hr0)) as ([|j] & x & Hj & Hx); [injection Hj as ->; by destruct Hr0|]. by exists j, x.
Qed.

Lemma delete_bitmaps_ok cache l refs next : kitty_inv (MkKitty l refs next) -> delete_bitmaps l (MkKitty cache refs next) = Ok (tt, MkKitty cache ∅ next).
Proof.
  revert refs. induction l as [|a rest IH]; intros refs Hk; cbn [delete_bitmaps].
  { assert (E : refs = ∅) by (apply map_empty; intros r; destruct (refs !! r) as [b|] eqn:Eb; [|done]; destruct (ki_refs _ Hk r b Eb) as (i & e & Hi & _); done). by rewrite E. }
  pose proof (evict_inv _ a rest Hk eq_refl) as Hr. cbn in Hr. pose proof (ki_entries _ Hk 0%nat a eq_refl) as Ha. unfold entry_ok in Ha. destruct (kc_bitmap a) as [r|].
  - destruct Ha as (_ & b & Hb & _). rewrite (M_bind_Ok _ _ _ _ _ (DeleteGlobalRef_ok (MkKitty cache refs next) r b Hb)). by apply IH.
  - rewrite (M_bind_Ok (mret tt) _ _ tt (MkKitty cache refs next)) by done. by apply IH.
Qed.
Lemma close_bitmaps_ok k : kitty_inv k -> close_bitmaps k = Ok (tt, MkKitty [] ∅ (next_ref k)).
Proof.
  intros Hk. destruct k as [cache refs next]. unfold close_bitmaps. rewrite (M_bind_Ok get _ _ (MkKitty cache refs next) (MkKitty cache refs next)) by done. by rewrite (M_bind_Ok _ _ _ _ _ (delete_bitmaps_ok cache cache refs next Hk)).
Qed.

Lemma new_entry_ok k id : kitty_inv k -> (forall i e, kitty_bitmap_cache k !! i = Some e -> kc_image_id e <> id) ->
  exists i k', new_entry id k = Ok (i, k') /\ kitty_inv k' /\ kitty_bitmap_cache k' !! i = Some (MkCache id 0 0 0 None) /\
    (~ evicts k id -> forall j e, kitty_bitmap_cache k !! j = Some e -> stays k k' e) /\ (forall x, x ∈ ids k' -> x = id \/ x ∈ ids k).
Proof.
  intros Hk Hid. pose proof (ki_two _ Hk) as H2. unfold new_entry. rewrite (M_bind_Ok get _ k k k) by done.
  assert (Hend : forall k1, kitty_inv k1 -> (length (kitty_bitmap_cache k1) < 2)%nat -> (forall i e, kitty_bitmap_cache k1 !! i = Some e -> kc_image_id e <> id) ->
    exists i k', (modify (fun k => k <| kitty_bitmap_cache := kitty_bitmap_cache k ++ [MkCache id 0 0 0 None] |>) ;; gets (fun k => Nat.pred (length (kitty_bitmap_cache k)))) k1 = Ok (i, k') /\
      kitty_inv k' /\ kitty_bitmap_cache k' !! i = Some (MkCache id 0 0 0 None) /\ (forall j e, kitty_bitmap_cache k1 !! j = Some e -> stays k1 k' e) /\ ids k' = ids k1 ++ [id]).
  { intros k1 Hk1 Hl1 Hid1. eexists _, _. split; [done|]. split; [by apply append_inv|]. cbn [kitty_bitmap_cache set_field]. split_and!.
    - rewrite length_app, Nat.add_1_r. cbn. by rewrite lookup_app_r, Nat.sub_diag by lia.
    - intros j e Hj. split; [exists j; by apply lookup_app_l_Some|done].
    - unfold ids. cbn. by rewrite fmap_app. }
  destruct (kitty_bitmap_cache k) as [|a [|b rest]] eqn:Ec.
  1,2: destruct (Hend k Hk) as (i & k' & E & H); [rewrite Ec; cbn; lia|by rewrite Ec|]; exists i, k'; rewrite (M_bind_Ok (mret tt) _ k tt k) by done; rewrite E; rewrite Ec in H; split; [done|]; destruct H as (? & ? & ? & ->); split_and!; [done..|]; intros x; rewrite elem_of_app, list_elem_of_singleton; tauto.
  pose proof (evict_inv k a (b :: rest) Hk Ec) as Hk1. set (k1 := MkKitty _ _ _) in Hk1.
  assert (E1 : ((match kc_bitmap a with Some r => DeleteGlobalRef r | None => mret tt end) ;; modify (fun k => k <| kitty_bitmap_cache := tail (kitty_bitmap_cache k) |>)) k = Ok (tt, k1)).
  { pose proof (ki_entries _ Hk 0%nat a) as Ha. rewrite Ec in Ha. specialize (Ha eq_refl). unfold entry_ok in Ha. subst k1. destruct (kc_bitmap a) as [r|].
    - destruct Ha as (_ & bm & Hb & _). rewrite (M_bind_Ok _ _ _ _ _ (DeleteGlobalRef_ok k r bm Hb)). unfold modify. cbn. by rewrite Ec.
    - rewrite (M_bind_Ok (mret tt) _ k tt k) by done. unfold modify. destruct k. cbn in *. by rewrite Ec. }
  rewrite (M_bind_Ok _ _ _ _ _ E1). destruct (Hend k1 Hk1) as (i & k' & E & Hk' & Hi & _ & Hids).
  - cbn in *. lia.
  - intros j e Hj. apply (Hid (S j)). done.
  - exists i, k'. split_and!; [done..| |].
    + intros Hne. destruct Hne. split; [rewrite Ec; cbn in *; lia|by rewrite Ec].
    + intros x. rewrite Hids, elem_of_app, list_elem_of_singleton. unfold ids. rewrite Ec. subst k1. cbn. rewrite !elem_of_cons. tauto.
Qed.

Lemma stays_refl k j e : kitty_bitmap_cache k !! j = Some e -> stays k k e.
Proof. intros H. split; [by exists j|done]. Qed.
Lemma stays_trans k k1 k2 e : stays k k1 e -> stays k1 k2 e -> stays k k2 e.
Proof. intros [_ A] [B C]. split; [done|]. intros r Hr. by rewrite C, A. Qed.
(** Entries other than the one that changes. *)
Lemma stays_other k i e e' refs next j x : kitty_inv k -> kitty_bitmap_cache k !! i = Some e -> kitty_bitmap_cache k !! j = Some x -> j <> i ->
  (forall r, kc_bitmap e <> Some r -> global_refs k !! r <> None -> refs !! r = global_refs k !! r) -> stays k (MkKitty (<[i := e']> (kitty_bitmap_cache k)) refs next) x.
Proof.
  intros Hk Hi Hj Hne Hr. split; cbn [kitty_bitmap_cache global_refs]; [exists j; by rewrite list_lookup_insert_ne by done|]. intros r Hx. apply Hr.
  - intros E. by destruct Hne, (ki_own _ Hk j i x e r).
  - pose proof (ki_entries _ Hk j x Hj) as H. unfold entry_ok in H. rewrite Hx in H. destruct H as (_ & b & -> & _). done.
Qed.

(** A bitmap of another size goes. *)
Lemma drop_bitmap_ok k i e w h : kitty_inv k -> kitty_bitmap_cache k !! i = Some e ->
  exists k' e', (match kc_bitmap e with
     | Some r => when_ (negb (kc_width e =? w) || negb (kc_height e =? h)) (DeleteGlobalRef r ;; set_entry i (e <| kc_bitmap := None |> <| kc_generation := 0 |>))
     | None => mret tt end) k = Ok (tt, k') /\
    kitty_inv k' /\ kitty_bitmap_cache k' !! i = Some e' /\ kc_image_id e' = kc_image_id e /\
    (forall r, kc_bitmap e' = Some r -> e' = e /\ kc_width e = w /\ kc_height e = h) /\
    (forall j x, kitty_bitmap_cache k !! j = Some x -> j <> i \/ (kc_width e = w /\ kc_height e = h) -> stays k k' x) /\ ids k' = ids k.
Proof.
  intros Hk Hi. destruct (kc_bitmap e) as [r|] eqn:Er.
  2:{ exists k, e. split_and!; [done..|intros r; by rewrite Er| |done]. intros j x Hj _. by apply (stays_refl k j). }
  destruct (Z.eqb_spec (kc_width e) w) as [Ew|Ew], (Z.eqb_spec (kc_height e) h) as [Eh|Eh]; cbn [negb orb when_].
  1: { exists k, e. split_and!; [done..| |done]. intros j x Hj _. by apply (stays_refl k j). }
  all: pose proof (ki_entries _ Hk i e Hi) as He; unfold entry_ok in He; rewrite Er in He; destruct He as (_ & b & Hb & _);
    eexists _, (e <| kc_bitmap := None |> <| kc_generation := 0 |>); rewrite (M_bind_Ok _ _ _ _ _ (DeleteGlobalRef_ok k r b Hb)); split; [done|]; split;
    [apply (inv_update k i e _ (delete r (global_refs k)) (next_ref k) Hk Hi); try done;
      [intros r' Hr' _; apply lookup_delete_ne; congruence|intros r' [= <-]%(eq_trans (eq_sym Er)) _; apply lookup_delete_eq]
    |split; [cbn; apply list_lookup_insert_eq; by eapply lookup_lt_Some|split; [done|split; [done|split; [|by apply (ids_update k i e)]]]];
     intros j x Hj [Hne|[? ?]]; [|done]; apply (stays_other k i e _ (delete r (global_refs k)) (next_ref k) j x Hk Hi Hj Hne); intros r' Hr' _; apply lookup_delete_ne; congruence].
Qed.

(** A bitmap is made for an entry that has none. *)
Lemma create_bitmap_ok env k i e w h : kitty_inv k -> (forall w h b, create_argb_bitmap env w h = Some b -> bitmap_ok w h b) -> kitty_bitmap_cache k !! i = Some e -> kc_bitmap e = None ->
  exists c k', (match create_argb_bitmap env w h with
      | None => mret None
      | Some b => r ← NewGlobalRef b; set_entry i (e <| kc_bitmap := Some r |> <| kc_width := w |> <| kc_height := h |>) ;; mret (Some i)
      end) k = Ok (c, k') /\ kitty_inv k' /\
    (forall i', c = Some i' -> i' = i /\ exists e', kitty_bitmap_cache k' !! i = Some e' /\ kc_image_id e' = kc_image_id e /\ is_Some (kc_bitmap e') /\ kc_width e' = w /\ kc_height e' = h) /\
    (forall j x, kitty_bitmap_cache k !! j = Some x -> j <> i -> stays k k' x) /\ ids k' = ids k /\ (create_argb_bitmap env w h <> None -> c <> None).
Proof.
  intros Hk Henv Hi Hn. destruct (create_argb_bitmap env w h) as [b|] eqn:Ec.
  2:{ exists None, k. split_and!; [done..| |done|done]. intros j x Hj _. by apply (stays_refl k j). }
  pose proof (next_fresh k Hk) as Hf. pose proof (ki_entries _ Hk i e Hi) as He. unfold entry_ok in He. rewrite Hn in He.
  eexists (Some i), _. split; [done|]. split.
  - apply (inv_update k i e _ (<[next_ref k := b]> (global_refs k)) (next_ref k + 1) Hk Hi); try done; [lia| | | |].
    + unfold entry_ok. cbn. split; [lia|]. exists b. rewrite lookup_insert_eq. split; [done|]. split; [by apply Henv|]. intros Hg. by rewrite He in Hg.
    + intros r [= <-]. by right.
    + intros r _ Hr. apply lookup_insert_ne. intros E. apply Hr. cbn. by rewrite E.
    + intros r. by rewrite Hn.
  - split; [|split; [|split; [by apply (ids_update k i e)|done]]].
    + intros i' [= <-]. split; [done|]. eexists. split; [cbn; apply list_lookup_insert_eq; by eapply lookup_lt_Some|]. done.
    + intros j x Hj Hne. apply (stays_other k i e _ (<[next_ref k := b]> (global_refs k)) (next_ref k + 1) j x Hk Hi Hj Hne). intros r _ Hr. apply lookup_insert_ne. intros E. by rewrite <- E, Hf in Hr.
Qed.

(** The entry for an image of this size. *)
Definition entry_for (k : Kitty) (i : nat) (id w h : Z) : Prop :=
  exists e r, kitty_bitmap_cache k !! i = Some e /\ kc_image_id e = id /\ kc_bitmap e = Some r /\ kc_width e = w /\ kc_height e = h.

Lemma cache_for_ok env id w h k : kitty_inv k -> (forall w h b, create_argb_bitmap env w h = Some b -> bitmap_ok w h b) -> 0 <= w -> 0 <= h ->
  exists c k', bitmap_cache_for env id w h k = Ok (c, k') /\ kitty_inv k' /\
    (forall i, c = Some i -> 0 < w <= 8192 /\ 0 < h /\ entry_for k' i id w h) /\
    (~ evicts k id -> forall j e, kitty_bitmap_cache k !! j = Some e -> kc_image_id e <> id \/ (kc_width e = w /\ kc_height e = h /\ kc_bitmap e <> None) -> stays k k' e) /\
    (forall x, x ∈ ids k' -> x = id \/ x ∈ ids k) /\ (bitmap_refused w h = false -> create_argb_bitmap env w h <> None -> c <> None).
Proof.
  intros Hk Henv Hw Hh. unfold bitmap_cache_for. destruct (bitmap_refused w h) eqn:Eref.
  { exists None, k. split_and!; [done..| |by right|done]. intros _ j e Hj _. by apply (stays_refl k j). }
  assert (Hdim : 0 < w <= 8192 /\ 0 < h) by (unfold bitmap_refused, MAX_BITMAP_DIMENSION in Eref; lia).
  rewrite (M_bind_Ok get _ k k k) by done. pose proof (find_entry k id) as Hfind.
  assert (H1 : exists i k1 e1, (match list_find (fun e => kc_image_id e = id) (kitty_bitmap_cache k) with Some (i, _) => mret i | None => new_entry id end) k = Ok (i, k1) /\ kitty_inv k1 /\
    kitty_bitmap_cache k1 !! i = Some e1 /\ kc_image_id e1 = id /\ (~ evicts k id -> forall j e, kitty_bitmap_cache k !! j = Some e -> stays k k1 e) /\ (forall x, x ∈ ids k1 -> x = id \/ x ∈ ids k)).
  { destruct (list_find _ _) as [[i e]|].
    - destruct Hfind as [Hi Hid]. exists i, k, e. split_and!; [done..| |by right]. intros _ j x Hj. by apply (stays_refl k j).
    - destruct (new_entry_ok k id Hk Hfind) as (i & k1 & E & Hk1 & Hi & Hs & Hids). by exists i, k1, (MkCache id 0 0 0 None). }
  destruct H1 as (i & k1 & e1 & E1 & Hk1 & Hi1 & Hid1 & Hs1 & Hids1). rewrite (M_bind_Ok _ _ _ _ _ E1), (M_bind_Ok (get_entry i) _ k1 e1 k1) by (unfold get_entry; by rewrite Hi1).
  destruct (drop_bitmap_ok k1 i e1 w h Hk1 Hi1) as (k2 & e2 & E2 & Hk2 & Hi2 & Hid2 & Hb2 & Hs2 & Hids2). rewrite (M_bind_Ok _ _ _ _ _ E2), (M_bind_Ok (get_entry i) _ k2 e2 k2) by (unfold get_entry; by rewrite Hi2).
  assert (Hst : ~ evicts k id -> forall j e, kitty_bitmap_cache k !! j = Some e -> kc_image_id e <> id \/ (kc_width e = w /\ kc_height e = h /\ kc_bitmap e <> None) ->
    stays k k2 e /\ (kc_bitmap e2 = None -> exists j2, kitty_bitmap_cache k2 !! j2 = Some e /\ j2 <> i)).
  { intros Hne j e Hj He. pose proof (Hs1 Hne j e Hj) as Hst1. destruct Hst1 as [(j1 & Hj1) Hr1].
    assert (Hc : j1 <> i \/ (kc_width e1 = w /\ kc_height e1 = h)).
    { destruct (decide (j1 = i)) as [->|?]; [right|by left]. rewrite Hi1 in Hj1. injection Hj1 as ->. destruct He as [He|(? & ? & _)]; [by rewrite Hid1 in He|done]. }
    pose proof (Hs2 j1 e Hj1 Hc) as Hst2. split; [by eapply stays_trans; [split; [by exists j1|exact Hr1]|]|]. intros Hnone. destruct Hst2 as [(j2 & Hj2) _]. exists j2. split; [done|].
    intros ->. rewrite Hi2 in Hj2. injection Hj2 as ->. destruct He as [He|(_ & _ & He)]; [by rewrite Hid2, Hid1 in He|done]. }
  destruct (kc_bitmap e2) as [r|] eqn:Er.
  - exists (Some i), k2. split_and!; [done|done| |intros Hne j e Hj He; by apply (Hst Hne j e Hj He)|by rewrite Hids2|done]. intros i' [= <-]. split; [lia|]. split; [lia|]. destruct (Hb2 r eq_refl) as (-> & ? & ?). by exists e1, r.
  - destruct (create_bitmap_ok env k2 i e2 w h Hk2 Henv Hi2 Er) as (c & k3 & E3 & Hk3 & Hc3 & Hs3 & Hids3 & Hm3). exists c, k3. split_and!; [done|done| | |by rewrite Hids3, Hids2|by intros _].
    + intros i' Ei. destruct (Hc3 i' Ei) as (-> & e3 & Hi3 & Hid3 & [r Hr3] & ? & ?). split; [lia|]. split; [lia|]. exists e3, r. split_and!; [done|congruence|done..].
    + intros Hne j e Hj He. destruct (Hst Hne j e Hj He) as [Hst2 Hj2]. destruct (Hj2 eq_refl) as (j2 & Hj2' & Hn2). eapply stays_trans; [exact Hst2|by apply (Hs3 j2)].
Qed.

(** ** Frames *)

Section frame.
Context (env : KittyEnv) (cell_width cell_height : Z) (g : KittyGraphics).
Hypothesis Henv : forall w h b, create_argb_bitmap env w h = Some b -> bitmap_ok w h b.
Hypothesis Himage : forall id im, kg_image g id = Some im -> 0 <= im_width im /\ 0 <= im_height im /\ im_generation im <> 0 /\
  forall data, im_data im = Some data -> drawn id (im_generation im) = (im_format im, data).

(** The bitmap [r] shows image [id]. *)
Definition ready (k : Kitty) (id r : Z) : Prop :=
  exists im data j e b, kg_image g id = Some im /\ im_data im = Some data /\ kitty_bitmap_cache k !! j = Some e /\ kc_image_id e = id /\ kc_bitmap e = Some r /\
    kc_width e = im_width im /\ kc_height e = im_height im /\ kc_generation e = im_generation im /\ global_refs k !! r = Some b /\ shows_image (im_format im) data b.

Lemma ready_stays k k' id r : kitty_inv k' -> ready k id r ->
  (forall j e im, kg_image g id = Some im -> kitty_bitmap_cache k !! j = Some e -> kc_image_id e = id -> kc_width e = im_width im -> kc_height e = im_height im ->
     kc_generation e = im_generation im -> kc_bitmap e = Some r -> stays k k' e) -> ready k' id r.
Proof.
  intros Hk' (im & data & j & e & b & H1 & H2 & H3 & H4 & H5 & H6 & H7 & H8 & H9 & H10) Hs. destruct (Hs j e im H1 H3 H4 H6 H7 H8 H5) as [(j' & Hj') Hr].
  exists im, data, j', e, b. rewrite (Hr r H5). split_and!; done.
Qed.

Lemma refresh_ok k i id im data : kitty_inv k -> kg_image g id = Some im -> im_data im = Some data -> 0 < im_width im <= 8192 -> 0 < im_height im -> entry_for k i id (im_width im) (im_height im) ->
  exists ok k', refresh_entry env i im data k = Ok (ok, k') /\ kitty_inv k' /\ ids k' = ids k /\
    (ok = true -> exists e r, kitty_bitmap_cache k' !! i = Some e /\ kc_bitmap e = Some r /\ ready k' id r) /\
    (forall id' r, ready k id' r -> ready k' id' r) /\
    ((forall r, lock_pixels env r = true) -> (exists bpp, source_bpp (im_format im) = Some bpp /\ im_width im * bpp <= lenZ data / im_height im) -> ok = true).
Proof.
  intros Hk Him Hdata Hw Hh (e & r & Hi & Hid & Hr & Ew & Eh). destruct (Himage id im Him) as (_ & _ & Hg & Hdrawn). specialize (Hdrawn data Hdata).
  pose proof (ki_entries _ Hk i e Hi) as He. unfold entry_ok in He. rewrite Hr in He. destruct He as (Hrn & b & Hb & Hbok & Hsh).
  unfold refresh_entry. rewrite (M_bind_Ok (get_entry i) _ k e k) by (unfold get_entry; by rewrite Hi). destruct (Z.eqb_spec (kc_generation e) (im_generation im)) as [Eg|Ng].
  { exists true, k. split_and!; try done. intros _. exists e, r. split_and!; [done..|]. exists im, data, i, e, b. rewrite Hid, Eg, Hdrawn in Hsh. split_and!; try done. by apply Hsh. }
  rewrite Hr. rewrite (M_bind_Ok (deref_bitmap r) _ k b k) by (unfold deref_bitmap; by rewrite Hb). rewrite Ew, Eh in Hbok.
  destruct (pixels_copied (lock_pixels env r) data (im_width im) (im_height im) (im_format im) b Hbok Hw Hh) as (ok & b' & Ec & Hb' & _ & Hiff & Hsame & Hshow & _). rewrite Ec. rewrite (M_bind_Ok (lift _) _ k (ok, b') k) by done.
  (* the entry that changes is not a ready one *)
  assert (Hready : forall cache' id' r', (forall j x, kitty_bitmap_cache k !! j = Some x -> j <> i -> cache' !! j = Some x) -> ready k id' r' -> ready (MkKitty cache' (<[r := b']> (global_refs k)) (next_ref k)) id' r').
  { intros cache' id' r' Hc (im' & data' & j & e' & b0 & H1 & H2 & H3 & H4 & H5 & H6 & H7 & H8 & H9 & H10).
    assert (Hj : j <> i) by (intros ->; rewrite Hi in H3; injection H3 as <-; rewrite Hid in H4; subst id'; congruence).
    exists im', data', j, e', b0. cbn. split_and!; try done; [by apply Hc|]. rewrite lookup_insert_ne; [done|]. intros <-. by destruct Hj, (ki_own _ Hk j i e' e r). }
  destruct ok.
  - set (e' := e <| kc_generation := im_generation im |>). exists true. eexists (MkKitty (<[i := e']> (kitty_bitmap_cache k)) (<[r := b']> (global_refs k)) (next_ref k)). split; [done|].
    assert (Hlook : <[i := e']> (kitty_bitmap_cache k) !! i = Some e') by (apply list_lookup_insert_eq; by eapply lookup_lt_Some). split_and!.
    + apply (inv_update k i e e' (<[r := b']> (global_refs k)) (next_ref k) Hk Hi); try done; [|intros r' Hr'; by left|].
      * unfold entry_ok. cbn. rewrite Hr. split; [done|]. exists b'. rewrite lookup_insert_eq, Ew, Eh, Hid, Hdrawn. split_and!; [done..|]. intros _. by apply Hshow.
      * intros r' N _. apply lookup_insert_ne. congruence.
    + by apply (ids_update k i e).
    + intros _. exists e', r. split_and!; [done..|]. exists im, data, i, e', b'. cbn. rewrite lookup_insert_eq. split_and!; try done. by apply Hshow.
    + intros id' r'. apply Hready. intros j x Hj Hne. by rewrite list_lookup_insert_ne.
    + done.
  - rewrite (Hsame eq_refl) in *. exists false, k. split_and!; try done; [|intros Hlock Hb0; by apply Hiff]. unfold mbind, M_bind, modify, mret, M_ret. do 2 f_equal. destruct k. cbn in *. by rewrite insert_id.
Qed.

(** A placement that is visible and whose pixels are there. *)
Definition asks_for (p : Placement) : Prop := exists im, asked_for g p = Some im /\ im_data im <> None.

(** Pixels that can be had and put on a bitmap; and an Android that does it. *)
Definition loads (p : Placement) : Prop :=
  forall im, asked_for g p = Some im -> exists data bpp, im_data im = Some data /\ bitmap_refused (im_width im) (im_height im) = false /\
    source_bpp (im_format im) = Some bpp /\ im_width im * bpp <= lenZ data / im_height im.
Definition android_ok : Prop :=
  (forall w h, 0 <= w -> 0 <= h -> bitmap_refused w h = false -> create_argb_bitmap env w h <> None) /\ forall r, lock_pixels env r = true.

(** The bitmap and the numbers of a placement. *)
Definition shown_by (k : Kitty) (p : Placement) (x : Z * list Z) : Prop :=
  ready k (pl_image_id p) x.1 /\ exists ri, pl_info p = Some ri /\ placement_values cell_width cell_height p ri = Ok x.2.

(** One placement. *)
Record placed_ok (k : Kitty) (p : Placement) (o : placed) (k' : Kitty) : Prop := {
  po_inv : kitty_inv k';
  po_shown : forall r v, o = Shown r v -> is_Some (asked_for g p) /\ asks_for p /\ shown_by k' p (r, v);
  po_keeps : asks_for p -> ~ evicts k (pl_image_id p) -> forall id r, ready k id r -> ready k' id r;
  po_same : ~ asks_for p -> k' = k;
  po_ids : forall x, x ∈ ids k' -> (x = pl_image_id p /\ asks_for p) \/ x ∈ ids k;
  po_loads : android_ok -> loads p -> if decide (is_Some (asked_for g p)) then exists r v, o = Shown r v else o = Skipped }.

Lemma not_shown_ok k p o : kitty_inv k -> (forall r v, o <> Shown r v) -> (android_ok -> loads p -> asked_for g p = None /\ o = Skipped) -> placed_ok k p o k.
Proof.
  intros Hk Ho Hl. split; try done; [by intros r v E; destruct (Ho r v)|by right|]. intros Ha Hp. destruct (Hl Ha Hp) as [-> ->]. by rewrite decide_False by apply is_Some_None.
Qed.

Lemma place_ok k p : kitty_inv k -> (forall ri, pl_info p = Some ri -> exists v, placement_values cell_width cell_height p ri = Ok v) ->
  exists o k', place env cell_width cell_height g p k = Ok (o, k') /\ placed_ok k p o k'.
Proof.
  intros Hk Hv. unfold place.
  assert (Hno : forall o : placed, (forall r v, o <> Shown r v) -> (android_ok -> loads p -> asked_for g p = None /\ o = Skipped) -> exists o' k', (mret o : M Kitty placed) k = Ok (o', k') /\ placed_ok k p o' k').
  { intros o Ho Hl. exists o, k. split; [done|by apply not_shown_ok]. }
  unfold asked_for in Hno. destruct (kg_image g (pl_image_id p)) as [im|] eqn:Eim; [|by apply Hno]. destruct (pl_info p) as [ri|] eqn:Eri; [|by apply Hno].
  destruct (viewport_visible ri) eqn:Evis; cbn [negb]; [|by apply Hno].
  assert (Eask : asked_for g p = Some im) by (unfold asked_for; by rewrite Eim, Eri, Evis). clear Hno.
  assert (Hno : ~ (android_ok /\ loads p) -> exists o' k', (mret Incomplete : M Kitty placed) k = Ok (o', k') /\ placed_ok k p o' k').
  { intros Hn. exists Incomplete, k. split; [done|]. apply not_shown_ok; [done..|]. intros Ha Hl. by destruct Hn. }
  destruct (im_data im) as [data|] eqn:Edata; [|apply Hno; intros [_ Hl]; destruct (Hl im Eask) as (data & _ & E & _); congruence].
  destruct ((im_width im =? 0) || (im_height im =? 0)) eqn:Ezero.
  { apply Hno. intros [_ Hl]. destruct (Hl im Eask) as (_ & _ & _ & E & _). unfold bitmap_refused in E. lia. }
  destruct (Himage _ _ Eim) as (Hw & Hh & _ & _). assert (Hask : asks_for p) by (exists im; by rewrite Edata).
  destruct (cache_for_ok env (pl_image_id p) (im_width im) (im_height im) k Hk Henv Hw Hh) as (c & k1 & E1 & Hk1 & Hc1 & Hs1 & Hids1 & Hm1). rewrite (M_bind_Ok _ _ _ _ _ E1).
  assert (Hr1 : ~ evicts k (pl_image_id p) -> forall id r, ready k id r -> ready k1 id r).
  { intros Hne id r Hr. apply (ready_stays k k1 id r Hk1 Hr). intros j e im' Him' Hj Hid He1 He2 He3 Hb. apply (Hs1 Hne j e Hj). destruct (decide (id = pl_image_id p)) as [->|Hn]; [right|left; congruence].
    rewrite Eim in Him'. injection Him' as <-. by rewrite Hb. }
  destruct c as [i|].
  2:{ exists Incomplete, k1. split; [done|]. split; try done; [|intros [Ha _] Hl; by destruct (Hl im Eask) as (_ & _ & _ & Hb & _), (Hm1 Hb (Ha _ _ Hw Hh Hb))]. intros x Hx. destruct (Hids1 x Hx) as [->|?]; [by left|by right]. }
  destruct (Hc1 i eq_refl) as (Hw1 & Hh1 & He1). destruct (refresh_ok k1 i (pl_image_id p) im data Hk1 Eim Edata Hw1 Hh1 He1) as (ok & k2 & E2 & Hk2 & Hids2 & Hok2 & Hr2 & Hm2). rewrite (M_bind_Ok _ _ _ _ _ E2).
  assert (Hids : forall x, x ∈ ids k2 -> (x = pl_image_id p /\ asks_for p) \/ x ∈ ids k) by (intros x; rewrite Hids2; intros Hx; destruct (Hids1 x Hx) as [->|?]; [by left|by right]).
  assert (Hm : android_ok -> loads p -> ok = true).
  { intros [_ Ha] Hl. apply Hm2; [done|]. destruct (Hl im Eask) as (data' & bpp & Ed & _ & Eb & Hb). rewrite Edata in Ed. injection Ed as <-. by exists bpp. }
  destruct ok; cbn [negb]; [|exists Incomplete, k2; split; [done|]; split; try done; [intros _ Hne id r Hr; apply Hr2; by apply Hr1|intros Ha Hl; by specialize (Hm Ha Hl)]].
  destruct (Hok2 eq_refl) as (e & r & Hi & Hb & Hready). rewrite (M_bind_Ok (get_entry i) _ k2 e k2) by (unfold get_entry; by rewrite Hi). destruct (Hv ri eq_refl) as (v & Ev). rewrite Ev.
  rewrite (M_bind_Ok (lift (Ok v)) _ k2 v k2) by done. rewrite Hb. exists (Shown r v), k2. split; [done|]. split; try done.
  - intros r' v' [= <- <-]. rewrite Eask. split_and!; [done..|]. split; [done|by exists ri].
  - intros _ Hne id r' Hr. apply Hr2. by apply Hr1.
  - intros _ _. rewrite decide_True by by rewrite Eask. by exists r, v.
Qed.

Lemma asks_for_dec p : asks_for p \/ ~ asks_for p.
Proof.
  unfold asks_for. destruct (asked_for g p) as [im|] eqn:E; [|right; by intros (? & ? & _)]. destruct (im_data im) eqn:Ed; [left; exists im; by rewrite Ed|right]. intros (im' & [= <-] & ?). done.
Qed.

(** The placements that are visible. *)
Definition visible (ps : list Placement) : list Placement := filter (fun p => is_Some (asked_for g p)) ps.

Section loop.
(** The images asked for, and those that may be in the cache: no bitmap of a
    placement already taken is deleted for one of them. *)
Context (asked cached : Z -> Prop).
Hypothesis Hasked : forall x, asked x -> cached x.
Hypothesis Hsafe : forall k id id' r, kitty_inv k -> (forall x, x ∈ ids k -> cached x) -> asked id -> ready k id' r -> asked id' -> ~ evicts k id.

Definition taken (k : Kitty) (p : Placement) (x : Z * list Z) : Prop := asked (pl_image_id p) /\ shown_by k p x.
Lemma taken_shown k qs l : Forall2 (taken k) qs l -> Forall2 (shown_by k) qs l.
Proof. intros H. eapply Forall2_impl; [exact H|]. by intros ? ? [_ ?]. Qed.

(** The placements taken stay when one more is placed. *)
Lemma taken_stay k p o k' qs acc : kitty_inv k -> (forall x, x ∈ ids k -> cached x) -> (asks_for p -> asked (pl_image_id p)) -> placed_ok k p o k' -> Forall2 (taken k) qs acc ->
  Forall2 (taken k') qs acc /\ (forall x, x ∈ ids k' -> cached x).
Proof.
  intros Hk Hc Hp Ho Hacc. split.
  - destruct (asks_for_dec p) as [Ha|Hn]; [|by rewrite (po_same _ _ _ _ Ho Hn)]. eapply Forall2_impl; [exact Hacc|]. intros q x [Hq [Hr Hx]]. split; [done|]. split; [|done].
    apply (po_keeps _ _ _ _ Ho Ha); [|done]. apply (Hsafe k (pl_image_id p) (pl_image_id q) x.1 Hk Hc); [by apply Hp|done|done].
  - intros x Hx. destruct (po_ids _ _ _ _ Ho x Hx) as [[-> Ha]|Hx']; [|by apply Hc]. by apply Hasked, Hp.
Qed.

Lemma place_loop_ok capacity ps : (forall p, p ∈ ps -> asks_for p -> asked (pl_image_id p)) ->
  (forall p ri, p ∈ ps -> pl_info p = Some ri -> exists v, placement_values cell_width cell_height p ri = Ok v) ->
  forall qs acc incomplete k, kitty_inv k -> (forall x, x ∈ ids k -> cached x) -> Forall2 (taken k) qs acc ->
  exists qs' l incomplete' k', place_loop env cell_width cell_height capacity g ps acc incomplete k = Ok ((l, incomplete'), k') /\ kitty_inv k' /\
    sublist qs' (visible ps) /\ Forall2 (shown_by k') (qs ++ qs') l /\ (lenZ acc <= capacity -> lenZ l <= capacity) /\
    (android_ok -> Forall loads ps -> lenZ acc + lenZ (visible ps) <= Z.min capacity 16 -> qs' = visible ps /\ incomplete' = incomplete).
Proof.
  induction ps as [|p ps IH]; intros Hps Hv qs acc incomplete k Hk Hc Hacc; cbn [place_loop].
  { exists [], acc, incomplete, k. rewrite app_nil_r. split_and!; [done|done|done|by apply taken_shown|done|done]. }
  destruct ((lenZ acc <? capacity) && (lenZ acc <? 16)) eqn:Ecap.
  2:{ exists [], acc, incomplete, k. rewrite app_nil_r. split_and!; [done|done|apply sublist_nil_l|by apply taken_shown|done|].
      intros _ _ Hl. destruct (visible (p :: ps)) as [|q v]; [done|]. unfold lenZ in Hl at 2. cbn [length] in Hl. lia. }
  destruct (place_ok k p Hk) as (o & k1 & E & Ho); [intros ri; by apply Hv, list_elem_of_here|]. rewrite (M_bind_Ok _ _ _ _ _ E).
  destruct (taken_stay k p o k1 qs acc Hk Hc (Hps p (list_elem_of_here _ _)) Ho Hacc) as [Hacc1 Hc1].
  assert (Hps' : forall q, q ∈ ps -> asks_for q -> asked (pl_image_id q)) by (intros q Hq; by apply Hps, list_elem_of_further).
  assert (Hv' : forall q ri, q ∈ ps -> pl_info q = Some ri -> exists v, placement_values cell_width cell_height q ri = Ok v) by (intros q ri Hq; by apply Hv, list_elem_of_further).
  pose proof (po_inv _ _ _ _ Ho) as Hk1. pose proof (po_loads _ _ _ _ Ho) as Hl1. unfold visible. rewrite filter_cons. fold (visible ps).
  assert (Hskip : forall inc, (android_ok -> loads p -> ~ is_Some (asked_for g p) /\ inc = incomplete) ->
    exists qs' l incomplete' k', place_loop env cell_width cell_height capacity g ps acc inc k1 = Ok ((l, incomplete'), k') /\ kitty_inv k' /\
    sublist qs' (if decide (is_Some (asked_for g p)) then p :: visible ps else visible ps) /\ Forall2 (shown_by k') (qs ++ qs') l /\ (lenZ acc <= capacity -> lenZ l <= capacity) /\
    (android_ok -> Forall loads (p :: ps) -> lenZ acc + lenZ (if decide (is_Some (asked_for g p)) then p :: visible ps else visible ps) <= Z.min capacity 16 ->
      qs' = (if decide (is_Some (asked_for g p)) then p :: visible ps else visible ps) /\ incomplete' = incomplete)).
  { intros inc Hinc. destruct (IH Hps' Hv' qs acc inc k1 Hk1 Hc1 Hacc1) as (qs' & l & inc' & k' & E' & Hk' & Hsub & Hl & Hcap & Hall). exists qs', l, inc', k'. split_and!; try done.
    - case_decide; [by apply sublist_cons|done].
    - intros Ha [Hp Hall']%Forall_cons Hlen. destruct (Hinc Ha Hp) as [Hn <-]. rewrite decide_False in Hlen |- * by done. by apply Hall. }
  destruct o as [| |r v].
  - apply Hskip. intros Ha Hp. specialize (Hl1 Ha Hp). case_decide; [by destruct Hl1 as (? & ? & ?)|done].
  - apply Hskip. intros Ha Hp. specialize (Hl1 Ha Hp). case_decide; [by destruct Hl1 as (? & ? & ?)|done].
  - destruct (po_shown _ _ _ _ Ho r v eq_refl) as (Hvis & Ha & Hs). rewrite decide_True by done.
    assert (Hacc2 : Forall2 (taken k1) (qs ++ [p]) (acc ++ [(r, v)])).
    { apply Forall2_app; [done|]. apply Forall2_cons_2; [|done]. split; [|done]. apply Hps; [apply list_elem_of_here|done]. }
    destruct (IH Hps' Hv' (qs ++ [p]) (acc ++ [(r, v)]) incomplete k1 Hk1 Hc1 Hacc2) as (qs' & l & inc & k' & E' & Hk' & Hsub & Hl & Hcap & Hall). rewrite lenZ_app in Hcap, Hall. change (lenZ [(r, v)]) with 1 in *.
    exists (p :: qs'), l, inc, k'. split_and!; try done.
    + by apply sublist_skip.
    + by rewrite <- app_assoc in Hl.
    + intros _. apply Hcap. lia.
    + intros Ha' [_ Hl']%Forall_cons Hlen. change (p :: visible ps) with ([p] ++ visible ps) in Hlen. rewrite lenZ_app in Hlen. change (lenZ [p]) with 1 in Hlen. destruct (Hall Ha' Hl' ltac:(lia)) as [-> ->]. done.
Qed.
End loop.

Lemma use_refs_ok k qs l : Forall2 (shown_by k) qs l -> use_refs l k = Ok (tt, k).
Proof.
  induction 1 as [|p [r v] qs l [Hr _] _ IH]; cbn [use_refs]; [done|]. destruct Hr as (im & data & j & e & b & _ & _ & _ & _ & _ & _ & _ & _ & Hb & _). cbn [fst] in Hb.
  rewrite (M_bind_Ok (deref_bitmap r) _ k b k) by (unfold deref_bitmap; by rewrite Hb). exact IH.
Qed.

(** What the frame becomes. *)
Definition frame_of (f : KittyFrame) (l : list (Z * list Z)) : KittyFrame :=
  MkKittyFrame (lenZ l) ((Some <$> l.*1) ++ replicate (length (kf_bitmaps f) - length l) None) (imap (set_values l) (kf_values f)).

(** Images that the cache can hold together: one, or two and no other in it. *)
Definition fits_cache (k : Kitty) (ps : list Placement) : Prop :=
  (exists a, forall p, p ∈ ps -> asks_for p -> pl_image_id p = a) \/
  (exists a b, (forall x, x ∈ ids k -> x = a \/ x = b) /\ forall p, p ∈ ps -> asks_for p -> pl_image_id p = a \/ pl_image_id p = b).

Lemma ready_cached k id r : ready k id r -> ~ evicts k id.
Proof. intros (im & data & j & e & b & _ & _ & Hj & He & _) [_ Hn]. by apply (Hn j e). Qed.

Lemma two_cached k a b id : kitty_inv k -> (forall x, x ∈ ids k -> x = a \/ x = b) -> id = a \/ id = b -> ~ evicts k id.
Proof.
  intros Hk Hab Hid [H2 Hn]. destruct (kitty_bitmap_cache k) as [|e0 [|e1 [|]]] eqn:Ec; try done.
  pose proof (Hn 0%nat e0 eq_refl) as N0. pose proof (Hn 1%nat e1 eq_refl) as N1.
  assert (Hd : kc_image_id e0 <> kc_image_id e1) by (intros E; by specialize (ki_ids _ Hk 0%nat 1%nat e0 e1); rewrite Ec; intros H; specialize (H eq_refl eq_refl E)).
  assert (H0 : kc_image_id e0 ∈ ids k) by (unfold ids; rewrite Ec; apply list_elem_of_here).
  assert (H1 : kc_image_id e1 ∈ ids k) by (unfold ids; rewrite Ec; apply list_elem_of_further, list_elem_of_here).
  destruct (Hab _ H0), (Hab _ H1), Hid; congruence.
Qed.

Lemma place_all_ok capacity k : kitty_inv k -> fits_cache k (kg_placements g) -> 0 <= capacity ->
  (forall p ri, p ∈ kg_placements g -> pl_info p = Some ri -> exists v, placement_values cell_width cell_height p ri = Ok v) ->
  exists qs l incomplete k', place_loop env cell_width cell_height capacity g (kg_placements g) [] false k = Ok ((l, incomplete), k') /\ kitty_inv k' /\
    sublist qs (visible (kg_placements g)) /\ Forall2 (shown_by k') qs l /\ lenZ l <= capacity /\
    (android_ok -> Forall loads (kg_placements g) -> lenZ (visible (kg_placements g)) <= Z.min capacity 16 -> qs = visible (kg_placements g) /\ incomplete = false).
Proof.
  intros Hk Hfit Hcap Hv.
  assert (Hgo : exists asked cached : Z -> Prop, (forall x, asked x -> cached x) /\
    (forall k id id' r, kitty_inv k -> (forall x, x ∈ ids k -> cached x) -> asked id -> ready k id' r -> asked id' -> ~ evicts k id) /\
    (forall p, p ∈ kg_placements g -> asks_for p -> asked (pl_image_id p)) /\ forall x, x ∈ ids k -> cached x).
  { destruct Hfit as [[a Ha]|(a & b & Hc & Ha)].
    - exists (fun x => x = a), (fun _ => True). split_and!; try done. intros k0 id id' r _ _ -> Hr ->. by eapply ready_cached.
    - exists (fun x => x = a \/ x = b), (fun x => x = a \/ x = b). split_and!; try done. intros k0 id id' r Hk0 Hc0 Hid _ _. by apply (two_cached k0 a b). }
  destruct Hgo as (asked & cached & G1 & G2 & G3 & G4).
  destruct (place_loop_ok asked cached G1 G2 capacity (kg_placements g) G3 Hv [] [] false k Hk G4 ltac:(constructor)) as (qs & l & inc & k' & E & Hk' & Hsub & Hl & Hlen & Hall).
  exists qs, l, inc, k'. split_and!; [done..|by apply Hlen|]. intros Ha Hld Hn. by apply Hall.
Qed.

Lemma set_arrays_ok l i arrays : Forall (fun a => lenZ l <= lenZ a) arrays -> set_arrays l i arrays = Ok (imap (fun j => set_values l (i + j)) arrays).
Proof.
  revert i. induction arrays as [|a rest IH]; intros i H; cbn [set_arrays]; [done|]. apply Forall_cons in H as [Ha Hr]. rewrite decide_True, (IH (S i) Hr) by done. cbn. rewrite Nat.add_0_r. do 2 f_equal.
  apply imap_ext. intros j x _. cbn. by rewrite Nat.add_succ_r.
Qed.
End frame.
End cache.

(** What the bridge relies on.  A bitmap has the size that was asked for; an
    image's generation is not 0 and stands for its pixels ([drawn]): the library
    documents that it is never used again. *)
Definition bitmaps_as_asked (env : KittyEnv) : Prop := forall w h b, create_argb_bitmap env w h = Some b -> bitmap_ok w h b.
Definition generations_name_pixels (drawn : Z -> Z -> KittyFormat * list Z) (g : KittyGraphics) : Prop :=
  forall id im, kg_image g id = Some im -> 0 <= im_width im /\ 0 <= im_height im /\ im_generation im <> 0 /\
    forall data, im_data im = Some data -> drawn id (im_generation im) = (im_format im, data).
(** The positions of the placements are numbers of 32 bits. *)
Definition positions_fit (cell_width cell_height : Z) (g : KittyGraphics) : Prop :=
  forall p ri, p ∈ kg_placements g -> pl_info p = Some ri -> exists v, placement_values cell_width cell_height p ri = Ok v.
(** The arrays of a frame have one length. *)
Definition arrays_fit (f : KittyFrame) : Prop := Forall (fun a => lenZ a = lenZ (kf_bitmaps f)) (kf_values f).

(** C27. A frame shows its images.  While the images of a frame fit the cache of two
    bitmaps, the update ends and uses no reference that was deleted; the cache
    keeps at most two bitmaps, different images have different ones, and every
    global reference of the session is in it; the frame is as before, or shows
    placements that are visible, in their order, on bitmaps with the pixels of
    their images; and when all the pixels are there and Android makes the
    bitmaps, it shows all of the visible placements, unless there are none and
    octets came in the last 1.5 seconds.  Closing the session then leaves no
    reference behind. *)
Theorem kitty_frames drawn env cell_width cell_height quiet_ms g f k :
  kitty_inv drawn k -> bitmaps_as_asked env -> generations_name_pixels drawn g -> positions_fit cell_width cell_height g -> arrays_fit f -> fits_cache g k (kg_placements g) ->
  exists f' k', update_kitty_graphics env cell_width cell_height quiet_ms (Some g) f k = Ok (f', k') /\ kitty_inv drawn k' /\
    close_bitmaps k' = Ok (tt, MkKitty [] ∅ (next_ref k')) /\
    (f' = f \/ exists qs l, sublist qs (visible g (kg_placements g)) /\ Forall2 (shown_by cell_width cell_height g k') qs l /\ f' = frame_of f l) /\
    (android_ok env -> Forall (loads g) (kg_placements g) ->
     let qs := visible g (kg_placements g) in
     0 < lenZ (kf_bitmaps f) -> lenZ qs <= Z.min (lenZ (kf_bitmaps f)) 16 -> qs <> [] \/ kf_count f = 0 \/ 1500 <= quiet_ms ->
     exists l, Forall2 (shown_by cell_width cell_height g k') qs l /\ f' = frame_of f l).
Proof.
  intros Hk Henv Hgen Hpos Harr Hfit. unfold update_kitty_graphics.
  destruct (Z.leb_spec (lenZ (kf_bitmaps f)) 0) as [Hz|Hcap]; [exists f, k; split_and!; [done|done|by eapply close_bitmaps_ok|by left|lia]|].
  destruct (place_all_ok drawn env cell_width cell_height g Henv Hgen (lenZ (kf_bitmaps f)) k Hk Hfit ltac:(lia) Hpos) as (qs & l & inc & k' & E & Hk' & Hsub & Hl & Hlen & Hall).
  rewrite (M_bind_Ok _ _ _ _ _ E). destruct inc.
  { exists f, k'. split_and!; [done|done|by eapply close_bitmaps_ok|by left|]. intros Ha Hld _ Hn _. by destruct (Hall Ha Hld Hn). }
  destruct ((lenZ l =? 0) && (0 <? kf_count f) && (quiet_ms <? 1500)) eqn:Eq.
  { exists f, k'. split_and!; [done|done|by eapply close_bitmaps_ok|by left|]. intros Ha Hld _ Hn Hor. destruct (Hall Ha Hld Hn) as [-> _]. apply Forall2_length in Hl. unfold lenZ in Eq.
    destruct Hor as [Hne|Hor]; [|lia]. destruct (visible g (kg_placements g)); [done|]. cbn in Hl. lia. }
  rewrite (M_bind_Ok _ _ _ _ _ (use_refs_ok cell_width cell_height g k' qs l Hl)), (set_arrays_ok l 0 (kf_values f)) by (eapply Forall_impl; [exact Harr|]; by intros a ->).
  rewrite (M_bind_Ok (lift _) _ k' (imap (set_values l) (kf_values f)) k') by done.
  exists (frame_of f l), k'. split_and!; [done|done|by eapply close_bitmaps_ok|right; by exists qs, l|]. intros Ha Hld _ Hn _. destruct (Hall Ha Hld Hn) as [-> _]. by exists l.
Qed.

(** *** A session *)

Definition no_images : Kitty := MkKitty [] ∅ 1.
Definition plain_android : KittyEnv := MkKittyEnv (fun w h => if (0 <? w) && (0 <? h) then Some (MkBitmap w h (w * 4) true (replicate (Z.to_nat (w * 4 * h)) 0)) else None) (fun _ => true).
Definition dot (generation grey : Z) : KittyImage := MkKittyImage 1 1 GRAY generation (Some [grey]).
Definition at_cell (id col row : Z) : Placement := MkPlacement id 0 0 0 (Some (MkRenderInfo true col row 10 20 0 0 1 1)).
Definition dots (ids : list Z) : KittyGraphics := MkKittyGraphics (fun id => Some (dot 7 (id mod 256))) ((fun id => at_cell id id 0) <$> ids).
Definition empty_frame : KittyFrame := MkKittyFrame 0 (replicate 16 None) (replicate 10 (replicate 16 0)).

Lemma kitty_frames_witness : exists f' k', update_kitty_graphics plain_android 10 20 0 (Some (dots [3; 4; 3])) empty_frame no_images = Ok (f', k') /\
  kf_count f' = 3 /\ take 3 (kf_bitmaps f') = [Some 1; Some 2; Some 1] /\ length (kitty_bitmap_cache k') = 2%nat.
Proof.
  destruct (kitty_frames (fun id _ => (GRAY, [id mod 256])) plain_android 10 20 0 (dots [3; 4; 3]) empty_frame no_images) as (f' & k' & E & _).
  - split; cbn; try done; lia || (intros r b; by rewrite lookup_empty).
  - intros w h b. cbn. destruct (Z.ltb_spec 0 w), (Z.ltb_spec 0 h); cbn; intros [= <-]. split; cbn; try done. by rewrite lenZ_replicate by nia.
  - intros id im [= <-]. cbn. split_and!; try lia. by intros data [= <-].
  - intros p ri Hp Hri. apply list_elem_of_fmap in Hp as (id & -> & Hid). injection Hri as <-. repeat (apply elem_of_cons in Hid as [->|Hid]; [by eexists|]). by apply elem_of_nil in Hid.
  - by repeat constructor.
  - right. exists 3, 4. split; [intros x Hx; by apply elem_of_nil in Hx|]. intros p Hp _. apply list_elem_of_fmap in Hp as (id & -> & Hid). set_solver.
  - exists f', k'. split; [done|]. revert E. vm_compute. by intros [= <- <-].
Defined.

(** Two images are visible, the cache holds the first and one that is not
    visible any more: the new entry takes the place of the first, whose deleted
    reference the frame then uses. *)
Example visible_bitmap_deleted : exists f k, update_kitty_graphics plain_android 10 20 0 (Some (dots [3; 4])) empty_frame no_images = Ok (f, k) /\
  update_kitty_graphics plain_android 10 20 0 (Some (dots [3; 5])) f k = Err Undefined.
Proof. eexists _, _. split; [vm_compute; reflexivity|by vm_compute]. Qed.
(** So do three images that are visible together. *)
Example three_images : update_kitty_graphics plain_android 10 20 0 (Some (dots [3; 4; 5])) empty_frame no_images = Err Undefined.
Proof. by vm_compute. Qed.
