(* ===== verification/BridgeClose.v ===== *)
(** * Closing a session of the terminal (app/src/main/cpp/ghostty_jni.cpp)

    Two threads share a session: the one that reads the pseudo-terminal
    ([pty_read_loop]) and the one that closes the session ([nativeClose]).
    Each access to the session is a step of its own, and the steps of the
    threads interleave in any way; what the kernel and the Java machine answer
    is an argument.  A step on memory that was freed is undefined; that the
    reader reads [ptm_fd] without the lock under which the closer writes it, a
    data race in C++, is not counted as a fault here. *)
From stdpp Require Import prelude relations.
From S2P Require Export Prelude.

Inductive thread : Type := Reader | Closer.
#[export] Instance thread_eq_dec : EqDecision thread.
Proof. solve_decision. Defined.

(** A pointer to an object or a global reference; [Freed] is not null. *)
Inductive handle : Type := Null | Live | Freed.
#[export] Instance handle_eq_dec : EqDecision handle.
Proof. solve_decision. Defined.

(** What [poll] returns. *)
Inductive polled : Type := PollError (interrupted : bool) | PollTimeout | PollEvents (input hangup : bool).
(** The answers to the next step of the reader. *)
Record Answer : Type := MkAnswer { an_poll : polled; an_read : Z; an_env : bool; an_method : bool }.

(** The points of [pty_read_loop] between its accesses to the session. *)
Inductive reader_pc : Type :=
| RLoopClosed | RLoopFd | RAgainFd | RAgainClosed | RPoll | RPolling (fd : Z) | RPolledClosed (o : polled) | RPolledFd (o : polled)
| RRead | RActivity | RLock | RTerminal | RClosed | RWrite | RUnlock | REnv | RCallback | RCallbackClass | RCallbackCall | RDone.

(** The points of [nativeClose]. *)
Inductive close_pc : Type :=
| CLock | CTest | CStore | CCloseFd | CClearFd | CKill | CJoin | CFreeParts | CFreeTerminal | CFreeCallback | CClearCallback | CUnlock | CDelete | CDone | CReturn.
#[export] Instance close_pc_eq_dec : EqDecision close_pc.
Proof. solve_decision. Defined.

(** The fields of a [NativeSession] that both threads use, and where they are;
    [ss_live] says that the session itself was not deleted. *)
Record Shared : Type := MkShared {
  ss_live : bool; is_closed : bool; ptm_fd : Z; session_mutex : option thread; terminal : handle; java_callback : handle; read_pc : reader_pc; close_at : close_pc }.
#[export] Instance eta_Shared : Eta Shared :=
  fun s => MkShared (ss_live s) (is_closed s) (ptm_fd s) (session_mutex s) (terminal s) (java_callback s) (read_pc s) (close_at s).

Inductive outcome : Type := Blocked | Undefined_step | Next (s : Shared).

Definition with_session (s : Shared) (o : outcome) : outcome := if ss_live s then o else Undefined_step.
Definition rgo (pc : reader_pc) (s : Shared) : outcome := Next (s <| read_pc := pc |>).
Definition cgo (pc : close_pc) (s : Shared) : outcome := Next (s <| close_at := pc |>).
Definition lock (t : thread) (s : Shared) (o : Shared -> outcome) : outcome :=
  match session_mutex s with None => o (s <| session_mutex := Some t |>) | Some _ => Blocked end.
(** A use of an object. *)
Definition on_handle (h : handle) (o : outcome) : outcome := match h with Live => o | _ => Undefined_step end.

(** One step of [pty_read_loop].  [read] on a number below 0 fails; the terminal
    calls the callbacks of the session while it takes octets. *)
Definition pty_read_step (a : Answer) (s : Shared) : outcome :=
  match read_pc s with
  | RLoopClosed => with_session s (rgo (if is_closed s then RDone else RLoopFd) s)
  | RLoopFd => with_session s (rgo (if ptm_fd s <? 0 then RDone else RAgainFd) s)
  | RAgainFd => with_session s (rgo (if ptm_fd s <? 0 then RDone else RAgainClosed) s)
  | RAgainClosed => with_session s (rgo (if is_closed s then RDone else RPoll) s)
  | RPoll => with_session s (rgo (RPolling (ptm_fd s)) s)
  | RPolling fd => rgo (RPolledClosed (an_poll a)) s
  | RPolledClosed o => with_session s (rgo (if is_closed s then RDone else RPolledFd o) s)
  | RPolledFd o => with_session s (if ptm_fd s <? 0 then rgo RDone s else
      match o with
      | PollError interrupted => rgo (if interrupted then RLoopClosed else RDone) s
      | PollTimeout => rgo RLoopClosed s
      | PollEvents input hangup => rgo (if input then RRead else if hangup then RDone else RLoopClosed) s
      end)
  | RRead => with_session s (rgo (if (ptm_fd s <? 0) || (an_read a <=? 0) then RDone else RActivity) s)
  | RActivity => with_session s (rgo RLock s)
  | RLock => with_session s (lock Reader s (rgo RTerminal))
  | RTerminal => with_session s (rgo (if bool_decide (terminal s = Null) then RUnlock else RClosed) s)
  | RClosed => with_session s (rgo (if is_closed s then RUnlock else RWrite) s)
  | RWrite => with_session s (on_handle (terminal s) (match java_callback s with Freed => Undefined_step | _ => rgo RUnlock s end))
  | RUnlock => with_session s (rgo REnv (s <| session_mutex := None |>))
  | REnv => rgo (if an_env a then RCallback else RLoopClosed) s
  | RCallback => with_session s (rgo (if bool_decide (java_callback s = Null) then RLoopClosed else RCallbackClass) s)
  | RCallbackClass => with_session s (on_handle (java_callback s) (rgo (if an_method a then RCallbackCall else RLoopClosed) s))
  | RCallbackCall => with_session s (on_handle (java_callback s) (rgo RLoopClosed s))
  | RDone => Blocked
  end.

(** One step of [nativeClose].  The encoders, iterators and bitmaps, which only
    the Java side uses, are freed in one step. *)
Definition close_step (s : Shared) : outcome :=
  match close_at s with
  | CLock => with_session s (lock Closer s (cgo CTest))
  | CTest => with_session s (cgo (if is_closed s then CReturn else CStore) s)
  | CStore => with_session s (cgo CCloseFd (s <| is_closed := true |>))
  | CCloseFd => with_session s (cgo (if ptm_fd s <? 0 then CKill else CClearFd) s)
  | CClearFd => with_session s (cgo CKill (s <| ptm_fd := -1 |>))
  | CKill => with_session s (cgo CJoin s)
  | CJoin => with_session s (match read_pc s with RDone => cgo CFreeParts s | _ => Blocked end)
  | CFreeParts => with_session s (cgo CFreeTerminal s)
  | CFreeTerminal => with_session s (match terminal s with Null => cgo CFreeCallback s | h => on_handle h (cgo CFreeCallback (s <| terminal := Freed |>)) end)
  | CFreeCallback => with_session s (match java_callback s with Null => cgo CUnlock s | h => on_handle h (cgo CClearCallback (s <| java_callback := Freed |>)) end)
  | CClearCallback => with_session s (cgo CUnlock (s <| java_callback := Null |>))
  | CUnlock => with_session s (cgo CDelete (s <| session_mutex := None |>))
  | CDelete => with_session s (cgo CDone (s <| ss_live := false |>))
  | CReturn => with_session s (cgo CDone (s <| session_mutex := None |>))
  | CDone => Blocked
  end.

Inductive step : Shared -> Shared -> Prop :=
| step_reader a s s' : pty_read_step a s = Next s' -> step s s'
| step_close s s' : close_step s = Next s' -> step s s'.

(** The session when the reader starts; there may be no callback. *)
Definition opened (fd : Z) (callback : bool) : Shared := MkShared true false fd None Live (if callback then Live else Null) RLoopClosed CLock.

(** ** Where the threads can be *)

(** The place of a point in [nativeClose]. *)
Definition close_rank (c : close_pc) : Z :=
  match c with
  | CLock => 0 | CTest => 1 | CStore => 2 | CCloseFd => 3 | CClearFd => 4 | CKill => 5 | CJoin => 6 | CFreeParts => 7 | CFreeTerminal => 8 | CFreeCallback => 9
  | CClearCallback => 10 | CUnlock => 11 | CDelete => 12 | CDone => 13 | CReturn => 14
  end.
Definition reader_has_lock (r : reader_pc) : bool := match r with RTerminal | RClosed | RWrite | RUnlock => true | _ => false end.

Definition calls_back (r : reader_pc) : bool := match r with RCallbackClass | RCallbackCall => true | _ => false end.

Record shared_inv (s : Shared) : Prop := {
  si_path : close_at s <> CReturn;
  si_live : ss_live s = negb (bool_decide (close_at s = CDone));
  si_closed : is_closed s = (3 <=? close_rank (close_at s));
  si_fd : 5 <= close_rank (close_at s) -> ptm_fd s < 0;
  si_closer : session_mutex s = Some Closer <-> 1 <= close_rank (close_at s) <= 11;
  si_reader : session_mutex s = Some Reader <-> reader_has_lock (read_pc s) = true;
  si_joined : 7 <= close_rank (close_at s) -> read_pc s = RDone;
  si_terminal : close_rank (close_at s) <= 8 -> terminal s = Live;
  si_callback : close_rank (close_at s) <= 9 -> java_callback s <> Freed;
  si_called : calls_back (read_pc s) = true -> java_callback s <> Null }.

Lemma opened_inv fd callback : shared_inv (opened fd callback).
Proof. split; cbn; try done; try lia; [split; [done|lia]|by destruct callback]. Qed.

(** While the reader runs, nothing is freed. *)
Lemma reader_runs s : shared_inv s -> read_pc s <> RDone -> close_rank (close_at s) <= 6 /\ ss_live s = true /\ terminal s = Live /\ java_callback s <> Freed.
Proof.
  intros [] Hr. assert (close_rank (close_at s) <= 6) by (destruct (Z.le_gt_cases 7 (close_rank (close_at s))); [by destruct Hr, si_joined0|lia]).
  split_and!; [done| |apply si_terminal0; lia|apply si_callback0; lia]. rewrite si_live0. case_bool_decide as E; [|done]. by rewrite E in *.
Qed.

(** A step of the reader that keeps the lock as it is. *)
Lemma reader_moves s r : shared_inv s -> close_rank (close_at s) <= 6 -> reader_has_lock r = reader_has_lock (read_pc s) -> (calls_back r = true -> java_callback s <> Null) ->
  shared_inv (s <| read_pc := r |>).
Proof. intros [] Hc Hr. split; cbn; try done; [by rewrite Hr|lia]. Qed.

Definition step_ok (o : outcome) : Prop := match o with Blocked => True | Undefined_step => False | Next s => shared_inv s end.

Lemma reader_has_lock_ok a s : shared_inv s -> reader_has_lock (read_pc s) = true -> step_ok (pty_read_step a s).
Proof.
  intros Hs Hh. assert (Hnd : read_pc s <> RDone) by (intros E; by rewrite E in Hh). destruct (reader_runs s Hs Hnd) as (Hc & Hl & Ht & Hcb).
  pose proof (proj2 (si_reader _ Hs) Hh) as Hm.
  assert (Hc0 : ~ 1 <= close_rank (close_at s) <= 11) by (rewrite <- (si_closer _ Hs); congruence).
  unfold pty_read_step, with_session. rewrite Hl. destruct (read_pc s) eqn:Er; try done; cbn.
  - apply reader_moves; [done|done|rewrite Er|]; by case_bool_decide.
  - apply reader_moves; [done|done|rewrite Er|]; by destruct (is_closed s).
  - rewrite Ht. cbn. destruct (java_callback s) eqn:Ecb; [|..|done]; (apply reader_moves; [done|done|by rewrite Er|done]).
  - destruct Hs. split; cbn; try done. lia.
Qed.

Lemma reader_takes_lock_ok a s : shared_inv s -> read_pc s = RLock -> step_ok (pty_read_step a s).
Proof.
  intros Hs Er. destruct (reader_runs s Hs) as (Hc & Hl & Ht & Hcb); [by rewrite Er|]. unfold pty_read_step, with_session, lock. rewrite Er, Hl. destruct (session_mutex s) eqn:Em; [done|].
  destruct Hs. rewrite Em in *. split; cbn; try done; [|lia]. split; [done|]. intros H. by apply si_closer0 in H.
Qed.

Lemma reader_step_ok a s : shared_inv s -> step_ok (pty_read_step a s).
Proof.
  intros Hs. destruct (decide (reader_has_lock (read_pc s) = true)) as [Hh|Hh]; [by apply reader_has_lock_ok|].
  assert (Hd : read_pc s = RLock \/ read_pc s <> RLock) by (destruct (read_pc s); auto). destruct Hd as [Er|Hnl]; [by apply reader_takes_lock_ok|].
  pose proof (si_called _ Hs) as Hcall. unfold pty_read_step, with_session.
  destruct (read_pc s) eqn:Er; try done; destruct (reader_runs s Hs) as (Hc & Hl & Ht & Hcb); try (by rewrite Er); rewrite ?Hl; unfold on_handle; repeat case_match; cbn in *;
    first [done | by destruct Hcall | apply reader_moves; [done|done|rewrite Er; by repeat case_match|by repeat case_match] | case_bool_decide; apply reader_moves; rewrite ?Er; done | apply reader_moves; rewrite ?Er; by congruence || done].
Qed.

(** A step of the closer inside the lock. *)
Ltac closer_moves := split; cbn; try done; try lia; try (rewrite ?bool_decide_eq_false_2 by done; done); try (split; [lia|intros _; match goal with H : _ <-> _ <= _ <= _ |- _ => apply H; lia end]); try solve [intros _; auto with lia].

Lemma close_step_ok s : shared_inv s -> step_ok (close_step s).
Proof.
  intros Hs. unfold close_step, with_session. rewrite (si_live _ Hs). pose proof Hs as [].
  assert (Hf : ss_live s = negb (bool_decide (close_at s = CDone))) by done.
  destruct (close_at s) eqn:Ec; cbn [close_rank] in *; try done; rewrite bool_decide_eq_false_2 in * by done; cbn [negb] in *.
  - unfold lock. destruct (session_mutex s) eqn:Em; [done|]. split; cbn; try done. split; [done|]. intros H. by apply si_reader0 in H.
  - rewrite si_closed0. closer_moves.
  - destruct (Z.ltb_spec (ptm_fd s) 0); closer_moves.
  - closer_moves.
  - destruct (read_pc s) eqn:Er; try done. closer_moves; by rewrite Er.
  - closer_moves.
  - rewrite si_terminal0 by lia. closer_moves.
  - specialize (si_callback0 ltac:(lia)). specialize (si_joined0 ltac:(lia)). destruct (java_callback s); try done; closer_moves. by rewrite si_joined0.
  - specialize (si_joined0 ltac:(lia)). closer_moves. by rewrite si_joined0.
  - specialize (si_joined0 ltac:(lia)). closer_moves; [split; [done|lia]|by rewrite si_joined0].
Qed.

Lemma step_inv s s' : step s s' -> shared_inv s -> shared_inv s'.
Proof. intros [a s0 s1 E|s0 s1 E] Hs; [pose proof (reader_step_ok a s0 Hs) as H|pose proof (close_step_ok s0 Hs) as H]; by rewrite E in H. Qed.
Lemma reachable_inv fd callback s : rtc step (opened fd callback) s -> shared_inv s.
Proof. intros H. revert H. generalize (opened_inv fd callback). generalize (opened fd callback). intros s0 H0 H. induction H as [|x y z Hxy _ IH]; [done|]. by apply IH, (step_inv x). Qed.

(** ** The end *)

(** Steps of the reader to its end once the session is closed. *)
Definition reader_left (r : reader_pc) : Z :=
  match r with
  | RLoopFd => 19 | RAgainFd => 18 | RAgainClosed => 17 | RPoll => 16 | RPolling _ => 15 | RPolledClosed _ => 14 | RPolledFd _ => 13 | RRead => 12 | RActivity => 11
  | RLock => 10 | RTerminal => 9 | RClosed => 8 | RWrite => 7 | RUnlock => 6 | REnv => 5 | RCallback => 4 | RCallbackClass => 3 | RCallbackCall => 2 | RLoopClosed => 1 | RDone => 0
  end.
Definition steps_left (s : Shared) : Z := reader_left (read_pc s) + (13 - close_rank (close_at s)).

Lemma reader_left_less a s s' : is_closed s = true -> pty_read_step a s = Next s' -> reader_left (read_pc s') < reader_left (read_pc s) /\ close_at s' = close_at s /\ ptm_fd s' = ptm_fd s /\
  (ptm_fd s < 0 -> read_pc s <> RActivity -> read_pc s' <> RActivity) /\ (read_pc s <> RActivity -> read_pc s' <> RLock).
Proof.
  intros Hc. unfold pty_read_step, with_session, lock, on_handle, rgo. rewrite Hc. destruct (read_pc s) eqn:Er; repeat case_match; intros [= <-]; cbn; split_and!; try lia; try done; repeat case_match; cbn; try lia; try done.
Qed.
Lemma close_rank_less s s' : shared_inv s -> is_closed s = true -> close_step s = Next s' ->
  close_rank (close_at s) < close_rank (close_at s') <= 13 /\ read_pc s' = read_pc s /\ is_closed s' = true /\ (ptm_fd s < 0 -> ptm_fd s' < 0).
Proof.
  intros [] Hc. rewrite Hc in si_closed0. unfold close_step, with_session, lock, on_handle, cgo. destruct (close_at s) eqn:Ec; cbn in si_closed0; try done; repeat case_match; intros [= <-]; cbn; split_and!; done || lia.
Qed.

Definition stuck (s : Shared) : Prop := forall s', ~ step s s'.
(** Both threads are at the end and the session was deleted. *)
Definition all_closed (s : Shared) : Prop := read_pc s = RDone /\ close_at s = CDone /\ ss_live s = false.
(** The closer waits for the reader and the reader for the lock of the closer. *)
Definition deadlock (s : Shared) : Prop := read_pc s = RLock /\ close_at s = CJoin /\ session_mutex s = Some Closer.

Lemma stuck_is s : shared_inv s -> is_closed s = true -> stuck s -> all_closed s \/ deadlock s.
Proof.
  intros Hs Hc Hst.
  assert (Hr : read_pc s = RDone \/ read_pc s = RLock /\ session_mutex s <> None).
  { pose proof (reader_step_ok (MkAnswer PollTimeout 0 false false) s Hs) as H. destruct (pty_read_step _ s) as [| |s'] eqn:E; [|done|by destruct (Hst s' (step_reader _ _ _ E))].
    unfold pty_read_step, with_session, lock, on_handle, rgo in E. destruct (read_pc s); repeat case_match; try done; [by right|by left]. }
  assert (Hk : close_at s = CDone \/ close_at s = CJoin /\ read_pc s <> RDone).
  { pose proof (close_step_ok s Hs) as H. destruct (close_step s) as [| |s'] eqn:E; [|done|by destruct (Hst s' (step_close _ _ E))].
    pose proof (si_closed _ Hs) as Hcl. rewrite Hc in Hcl. unfold close_step, with_session, lock, on_handle, cgo in E. destruct (close_at s); try done; repeat case_match; try done; [by right..|by left]. }
  destruct Hk as [Hk|[Hk Hn]].
  - left. split_and!; [|done|by rewrite (si_live _ Hs), Hk]. apply (si_joined _ Hs). rewrite Hk. cbn. lia.
  - right. destruct Hr as [?|[Hr _]]; [done|]. split_and!; [done|done|]. apply (si_closer _ Hs). rewrite Hk. cbn. lia.
Qed.

Lemma step_closed s s' : shared_inv s -> is_closed s = true -> step s s' ->
  is_closed s' = true /\ 0 <= steps_left s' < steps_left s /\ (ptm_fd s < 0 -> ptm_fd s' < 0) /\
  (ptm_fd s < 0 -> read_pc s <> RActivity -> read_pc s <> RLock -> read_pc s' <> RActivity /\ read_pc s' <> RLock).
Proof.
  intros Hs Hc H. pose proof (step_inv _ _ H Hs) as Hs'. assert (Hle : forall c, close_rank c <= 13 \/ c = CReturn) by (intros []; cbn; auto; left; lia).
  assert (H0 : 0 <= reader_left (read_pc s')) by (destruct (read_pc s'); cbn; lia). destruct H as [a s s' E|s s' E].
  - destruct (reader_left_less a s s' Hc E) as (Hl & Hk & Hf & Ha & Hb). split; [by rewrite (si_closed _ Hs'), Hk, <- (si_closed _ Hs)|]. unfold steps_left. rewrite Hk, Hf.
    destruct (Hle (close_at s)) as [?|?]; [|by destruct (si_path _ Hs)]. split_and!; [lia|lia|done|auto].
  - destruct (close_rank_less s s' Hs Hc E) as (Hl & Hk & Hf & Hg). split_and!; [done| | |done|]; unfold steps_left; rewrite ?Hk in *; [lia|lia|done].
Qed.

(** C18. A session is closed.  However the threads interleave, no step uses the
    session, the terminal or the callback after it was freed, and when the
    session is deleted the reader is at its end.  Once [is_closed] is set there
    are at most 29 more steps, whatever the kernel answers, and they end with
    both threads at their end and the session deleted, or with the closer, which
    holds the lock, waiting for the reader, which has octets in its hands and
    waits for the lock.  That does not happen when the reader has none at the
    time the descriptor is closed. *)
Theorem session_closes fd callback s : rtc step (opened fd callback) s ->
  (forall a, pty_read_step a s <> Undefined_step) /\ close_step s <> Undefined_step /\ (ss_live s = false -> read_pc s = RDone) /\
  (is_closed s = true ->
     0 <= steps_left s <= 29 /\ (forall s', step s s' -> is_closed s' = true /\ steps_left s' < steps_left s) /\ (stuck s -> all_closed s \/ deadlock s) /\
     (ptm_fd s < 0 -> read_pc s <> RActivity -> read_pc s <> RLock -> forall s', rtc step s s' -> stuck s' -> all_closed s')).
Proof.
  intros Hr. pose proof (reachable_inv _ _ _ Hr) as Hs. split_and!.
  - intros a E. pose proof (reader_step_ok a s Hs) as H. by rewrite E in H.
  - intros E. pose proof (close_step_ok s Hs) as H. by rewrite E in H.
  - intros Hl. apply (si_joined _ Hs). rewrite (si_live _ Hs) in Hl. case_bool_decide as E; [|done]. rewrite E. cbn. lia.
  - intros Hc. pose proof (si_closed _ Hs) as Hk. rewrite Hc in Hk. symmetry in Hk. apply Z.leb_le in Hk. split_and!.
    + pose proof (si_path _ Hs). unfold steps_left. destruct (read_pc s), (close_at s); cbn in *; done || lia.
    + unfold steps_left. pose proof (si_path _ Hs). destruct (read_pc s), (close_at s); cbn in *; done || lia.
    + intros s' H. by destruct (step_closed s s' Hs Hc H) as (? & [? ?] & _).
    + by apply stuck_is.
    + intros Hf Ha Hb s' Hrs. clear Hr Hk. revert Hs Hc Hf Ha Hb. induction Hrs as [s|s s1 s2 H _ IH]; intros Hs Hc Hf Ha Hb Hst.
      * destruct (stuck_is s Hs Hc Hst) as [?|[? _]]; done.
      * destruct (step_closed s s1 Hs Hc H) as (H1 & _ & H2 & H3). destruct (H3 Hf Ha Hb). apply IH; auto. by apply (step_inv s).
Qed.

(** *** Runs *)

(** A step of the reader with its answers, or one of the closer. *)
Fixpoint run (l : list (option Answer)) (s : Shared) : option Shared :=
  match l with
  | [] => Some s
  | o :: l' => match (match o with Some a => pty_read_step a s | None => close_step s end) with Next s' => run l' s' | _ => None end
  end.
Lemma run_steps l s s' : run l s = Some s' -> rtc step s s'.
Proof.
  revert s. induction l as [|[a|] l IH]; intros s; cbn [run]; [by intros [= ->]| |].
  - destruct (pty_read_step a s) as [| |s1] eqn:E; [done..|]. intros H. eapply rtc_l; [by eapply step_reader|by apply IH].
  - destruct (close_step s) as [| |s1] eqn:E; [done..|]. intros H. eapply rtc_l; [by eapply step_close|by apply IH].
Qed.

Definition input : option Answer := Some (MkAnswer (PollEvents true false) 100 true true).

(** The session is closed while the reader waits in [poll]. *)
Definition closed_in_poll : Shared := MkShared true true (-1) (Some Closer) Live Live (RPolling 5) CJoin.
Lemma session_closes_witness : run (replicate 5 input ++ replicate 6 None) (opened 5 true) = Some closed_in_poll /\
  forall s', rtc step closed_in_poll s' -> stuck s' -> all_closed s'.
Proof.
  assert (E : run (replicate 5 input ++ replicate 6 None) (opened 5 true) = Some closed_in_poll) by by vm_compute. split; [done|].
  destruct (session_closes 5 true closed_in_poll (run_steps _ _ _ E)) as (_ & _ & _ & H). by apply H.
Defined.
(** From there both threads come to their end. *)
Example closed_in_poll_ends : exists s, run (replicate 2 input ++ replicate 7 None) closed_in_poll = Some s /\ all_closed s.
Proof. eexists. split; [by vm_compute|]. done. Qed.

(** The session is closed when the reader has read octets and before it takes the
    lock: [nativeClose] does not return. *)
Example close_hangs : exists s, run (replicate 10 input ++ replicate 6 None) (opened 5 true) = Some s /\ deadlock s /\ stuck s.
Proof.
  eexists. split; [by vm_compute|]. split; [done|]. intros s' H. by inversion H as [a s0 s1 E|s0 s1 E].
Qed.
