(* ===== verification/Render.v ===== *)
(** * The frame for the screen (app/src/main/cpp/ghostty_jni.cpp)

    [nativeUpdateRender] writes what the terminal shows into arrays of the Java
    side: a character, colours and a style for each cell.  What the terminal
    library returns is an argument. *)
From stdpp Require Import gmap.
From S2P Require Export Kitty.

(** ** What the library returns *)

Record ColorRgb : Type := MkRgb { rgb_r : Z; rgb_g : Z; rgb_b : Z }.
#[export] Instance ColorRgb_eq_dec : EqDecision ColorRgb.
Proof. solve_decision. Defined.

Inductive UnderlineColor : Type := UlNone | UlPalette (index : Z) | UlRgb (c : ColorRgb).
Record GStyle : Type := MkGStyle {
  st_bold : bool; st_italic : bool; st_underline : Z; st_strikethrough : bool; st_faint : bool; st_inverse : bool; st_blink : bool; st_invisible : bool; st_underline_color : UnderlineColor }.
(** [rc_raw]: whether the cell has a hyperlink, and its semantic content. *)
Record RenderCell : Type := MkRenderCell {
  rc_graphemes : list Z; rc_buf_ok : bool; rc_fg : option ColorRgb; rc_bg : option ColorRgb; rc_style : option GStyle; rc_selected : bool; rc_raw : option (bool * Z) }.
Record RenderRow : Type := MkRenderRow { rr_dirty : bool; rr_prompt : option Z; rr_cells : list RenderCell }.
Record RenderColors : Type := MkRenderColors { rs_background : ColorRgb; rs_foreground : ColorRgb; rs_cursor : option ColorRgb; rs_palette : list ColorRgb }.
Record RenderState : Type := MkRenderState {
  rs_dirty : bool; rs_cols : Z; rs_rows : Z; rs_cursor_viewport : option (Z * Z); rs_cursor_style : Z; rs_cursor_visible : bool; rs_cursor_blinking : bool;
  rs_colors : RenderColors; rs_alternate : bool; rs_kitty_flags : Z; rs_scrollbar : Z * Z * Z; rs_row_list : list RenderRow }.

(** ** The Java side *)

(** The arrays of the cells; four of them may be absent. *)
Record Arrays : Type := MkArrays {
  ar_chars : list Z; ar_fg : list Z; ar_bg : list Z; ar_style : list Z; ar_ul_style : option (list Z); ar_ul_color : option (list Z); ar_cell_semantic : option (list Z);
  ar_row_semantic : option (list Z); ar_dirty : list Z }.
#[export] Instance eta_Arrays : Eta Arrays :=
  fun a => MkArrays (ar_chars a) (ar_fg a) (ar_bg a) (ar_style a) (ar_ul_style a) (ar_ul_color a) (ar_cell_semantic a) (ar_row_semantic a) (ar_dirty a).

Record RenderFrame : Type := MkRenderFrame {
  fr_cols : Z; fr_rows : Z; fr_cursorX : Z; fr_cursorY : Z; fr_cursorStyle : Z; fr_cursorVisible : bool; fr_cursorBlinking : bool; fr_defaultBgColor : Z; fr_defaultFgColor : Z;
  fr_cursorColor : Z; fr_hasCursorColor : bool; fr_isDirty : bool; fr_altScreenActive : bool; fr_kittyKeyboardFlags : Z; fr_scroll : Z * Z * Z; fr_palette : list Z; fr_kitty : KittyFrame }.

(** ** Colours *)

Definition argb (c : ColorRgb) : Z := i32 (Z.lor (Z.lor (Z.lor 0xFF000000 (Z.shiftl (rgb_r c) 16)) (Z.shiftl (rgb_g c) 8)) (rgb_b c)).

(** The default foreground and background. *)
Definition default_colors (c : RenderColors) : Z * Z :=
  let bg := argb (rs_background c) in let fg := argb (rs_foreground c) in
  if (fg =? bg) || ((rgb_r (rs_foreground c) =? 0) && (rgb_g (rs_foreground c) =? 0) && (rgb_b (rs_foreground c) =? 0)) then (i32 0xFFE0E0E0, i32 0xFF181818) else (fg, bg).

(** ** Cells *)

Record CellOut : Type := MkCellOut { co_char : Z; co_fg : Z; co_bg : Z; co_style : Z; co_ul_style : Z; co_ul_color : Z; co_semantic : Z }.

(** The library writes all the code points of the cell into [buf], which has
    four elements. *)
Definition base_codepoint (cell : RenderCell) : result fault Z :=
  match rc_graphemes cell with
  | [] => Ok 0x20
  | cp :: _ => if rc_buf_ok cell then (if decide (lenZ (rc_graphemes cell) <= 4) then Ok cp else Err Undefined) else Ok 0x20
  end.

Definition bit (b : bool) (i : Z) (flags : Z) : Z := if b then Z.lor flags (Z.shiftl 1 i) else flags.
Definition style_flags (st : GStyle) : Z :=
  bit (st_invisible st) 7 (bit (st_blink st) 6 (bit (st_inverse st) 5 (bit (st_faint st) 4 (bit (st_strikethrough st) 3
    (bit (negb (st_underline st =? 0)) 2 (bit (st_italic st) 1 (bit (st_bold st) 0 0))))))).
Definition underline_color (palette : list ColorRgb) (st : GStyle) : result fault Z :=
  match st_underline_color st with
  | UlPalette i => c ← index_ palette i; Ok (argb c)
  | UlRgb c => Ok (argb c)
  | UlNone => Ok 0
  end.

Definition OUTPUT : Z := 0.
Definition cell_out (palette : list ColorRgb) (default_fg default_bg : Z) (cell : RenderCell) : result fault CellOut :=
  cp ← base_codepoint cell;
  '(flags, ul_style, ul_color) ← (match rc_style cell with
    | Some st => c ← underline_color palette st; Ok (style_flags st, st_underline st, c)
    | None => Ok (0, 0, 0) end);
  let flags := bit (rc_selected cell) 8 flags in
  let flags := match rc_raw cell with Some (hyperlink, _) => bit hyperlink 9 flags | None => flags end in
  Ok (MkCellOut (if cp <=? 0xFFFF then cp else 0x3F)
        (match rc_fg cell with Some c => argb c | None => default_fg end) (match rc_bg cell with Some c => argb c | None => default_bg end)
        flags ul_style ul_color (match rc_raw cell with Some (_, semantic) => semantic | None => OUTPUT end)).
Definition blank_out (default_fg default_bg : Z) : CellOut := MkCellOut 0x20 default_fg default_bg 0 0 0 OUTPUT.

(** Stores into the arrays. *)
Definition put (i v : Z) (l : list Z) : result fault (list Z) := if decide (0 <= i < lenZ l) then Ok (updateZ l i v) else Err Undefined.
Definition put_opt (i v : Z) (o : option (list Z)) : result fault (option (list Z)) := match o with Some l => l' ← put i v l; Ok (Some l') | None => Ok None end.
Definition store_cell (i : Z) (v : CellOut) : M Arrays unit := fun a =>
  chars ← put i (co_char v) (ar_chars a); fg ← put i (co_fg v) (ar_fg a); bg ← put i (co_bg v) (ar_bg a);
  semantic ← put_opt i (co_semantic v) (ar_cell_semantic a); style ← put i (co_style v) (ar_style a);
  ul_style ← put_opt i (co_ul_style v) (ar_ul_style a); ul_color ← put_opt i (co_ul_color v) (ar_ul_color a);
  Ok (tt, MkArrays chars fg bg style ul_style ul_color semantic (ar_row_semantic a) (ar_dirty a)).
Definition store_row (r : Z) (dirty : bool) (semantic : Z) : M Arrays unit := fun a =>
  d ← put r (Z.b2z dirty) (ar_dirty a); s ← put_opt r semantic (ar_row_semantic a); Ok (tt, a <| ar_row_semantic := s |> <| ar_dirty := d |>).

Section render.
Context (cols rows : Z) (palette : list ColorRgb) (default_fg default_bg : Z).

Definition blanks (r c : Z) : M Arrays unit := for_range c cols (fun c => store_cell (r * cols + c) (blank_out default_fg default_bg)).

(** The cells of a row, then blanks. *)
Fixpoint render_cells (r c : Z) (cells : list RenderCell) : M Arrays unit :=
  match cells with
  | cell :: rest => if c <? cols then v ← lift (cell_out palette default_fg default_bg cell); store_cell (r * cols + c) v ;; render_cells r (c + 1) rest else blanks r c
  | [] => blanks r c
  end.
Definition blank_row (r : Z) : M Arrays unit := store_row r false 0 ;; blanks r 0.
Fixpoint render_rows (r : Z) (l : list RenderRow) : M Arrays unit :=
  match l with
  | row :: rest =>
      if r <? rows then store_row r (rr_dirty row) (default 0 (rr_prompt row)) ;; render_cells r 0 (rr_cells row) ;; render_rows (r + 1) rest
      else for_range r rows blank_row
  | [] => for_range r rows blank_row
  end.
End render.

(** For a session that is open.  [sync] says that synchronized output is on, [update_ok] that the render state
    was updated.  [false] leaves everything as it was. *)
Definition nativeUpdateRender (sync update_ok : bool) (st : RenderState) (env : KittyEnv) (cell_width cell_height quiet_ms : Z) (graphics : option KittyGraphics)
    (f : RenderFrame) (a : Arrays) : M Kitty (bool * RenderFrame * Arrays) := fun k =>
  if sync then Ok ((false, f, a), k) else if negb update_ok then Ok ((false, f, a), k) else
  let c := rs_colors st in
  let '(default_fg, default_bg) := default_colors c in
  let '(cx, cy) := default (0, 0) (rs_cursor_viewport st) in
  '(_, a) ← render_rows (rs_cols st) (rs_rows st) (rs_palette c) default_fg default_bg 0 (rs_row_list st) a;
  '(kf, k) ← update_kitty_graphics env cell_width cell_height quiet_ms graphics (fr_kitty f) k;
  Ok ((true, MkRenderFrame (rs_cols st) (rs_rows st) cx cy (rs_cursor_style st) (rs_cursor_visible st) (rs_cursor_blinking st) default_bg default_fg
         (match rs_cursor c with Some x => argb x | None => default_fg end) (bool_decide (is_Some (rs_cursor c))) (rs_dirty st) (rs_alternate st) (rs_kitty_flags st) (rs_scrollbar st)
         (argb <$> rs_palette c) kf, a), k).

(** ** What the arrays hold *)

(** What the arrays hold for a cell, and for a row. *)
Definition view (a : Arrays) (i : Z) : list (option Z) :=
  [lookupZ (ar_chars a) i; lookupZ (ar_fg a) i; lookupZ (ar_bg a) i; lookupZ (ar_style a) i;
   ar_ul_style a ≫= fun l => lookupZ l i; ar_ul_color a ≫= fun l => lookupZ l i; ar_cell_semantic a ≫= fun l => lookupZ l i].
Definition row_view (a : Arrays) (r : Z) : list (option Z) := [lookupZ (ar_dirty a) r; ar_row_semantic a ≫= fun l => lookupZ l r].
(** The same for values to store: nothing in an array that is absent. *)
Definition out_view (a : Arrays) (v : CellOut) : list (option Z) :=
  [Some (co_char v); Some (co_fg v); Some (co_bg v); Some (co_style v); const (co_ul_style v) <$> ar_ul_style a; const (co_ul_color v) <$> ar_ul_color a; const (co_semantic v) <$> ar_cell_semantic a].
Definition row_out_view (a : Arrays) (v : bool * Z) : list (option Z) := [Some (Z.b2z v.1); const v.2 <$> ar_row_semantic a].
Definition shape (a : Arrays) : list (option Z) :=
  [Some (lenZ (ar_chars a)); Some (lenZ (ar_fg a)); Some (lenZ (ar_bg a)); Some (lenZ (ar_style a)); lenZ <$> ar_ul_style a; lenZ <$> ar_ul_color a; lenZ <$> ar_cell_semantic a;
   lenZ <$> ar_row_semantic a; Some (lenZ (ar_dirty a))].

(** The arrays have room for a screen; Java makes them for its size. *)
Definition at_least (n : Z) (o : option Z) : Prop := match o with Some m => n <= m | None => True end.
Record room (cells rows : Z) (a : Arrays) : Prop := {
  rm_chars : cells <= lenZ (ar_chars a); rm_fg : cells <= lenZ (ar_fg a); rm_bg : cells <= lenZ (ar_bg a); rm_style : cells <= lenZ (ar_style a);
  rm_ul_style : at_least cells (lenZ <$> ar_ul_style a); rm_ul_color : at_least cells (lenZ <$> ar_ul_color a); rm_semantic : at_least cells (lenZ <$> ar_cell_semantic a);
  rm_row_semantic : at_least rows (lenZ <$> ar_row_semantic a); rm_dirty : rows <= lenZ (ar_dirty a) }.

Lemma fmap_const_len {A B C} (x : C) (o : option (list A)) (o' : option (list B)) : lenZ <$> o = lenZ <$> o' -> const x <$> o = const x <$> o'.
Proof. by destruct o, o'. Qed.
Lemma shape_out a a' v : shape a' = shape a -> out_view a' v = out_view a v.
Proof. intros [= _ _ _ _ H1 H2 H3 _ _]. unfold out_view. by rewrite (fmap_const_len _ _ _ H1), (fmap_const_len _ _ _ H2), (fmap_const_len _ _ _ H3). Qed.
Lemma shape_row_out a a' v : shape a' = shape a -> row_out_view a' v = row_out_view a v.
Proof. intros [= _ _ _ _ _ _ _ H _]. unfold row_out_view. by rewrite (fmap_const_len _ _ _ H). Qed.
Lemma shape_room a a' n m : shape a' = shape a -> room n m a -> room n m a'.
Proof. intros [= H1 H2 H3 H4 H5 H6 H7 H8 H9] []. split; by rewrite ?H1, ?H2, ?H3, ?H4, ?H5, ?H6, ?H7, ?H8, ?H9. Qed.

Lemma put_ok i v l : 0 <= i < lenZ l -> put i v l = Ok (updateZ l i v).
Proof. intros H. unfold put. by rewrite decide_True. Qed.
Lemma put_opt_ok i v o n : 0 <= i < n -> at_least n (lenZ <$> o) ->
  put_opt i v o = Ok ((fun l => updateZ l i v) <$> o) /\ lenZ <$> ((fun l => updateZ l i v) <$> o) = lenZ <$> o /\
  forall j, (((fun l => updateZ l i v) <$> o) ≫= fun l => lookupZ l j) = if j =? i then const v <$> o else o ≫= fun l => lookupZ l j.
Proof.
  intros Hi Hl. destruct o as [l|]; cbn in *; [|by split_and!; [..|intros j; case_match]]. rewrite put_ok by lia. split_and!; [done|by rewrite lenZ_updateZ|]. intros j. by rewrite lookupZ_stored by lia.
Qed.

Lemma store_cell_ok i v a n m : room n m a -> 0 <= i < n ->
  exists a', store_cell i v a = Ok (tt, a') /\ shape a' = shape a /\ (forall j, view a' j = if j =? i then out_view a v else view a j) /\ (forall j, row_view a' j = row_view a j).
Proof.
  intros [] Hi. unfold store_cell. rewrite !put_ok by lia. cbn [mbind result_bind].
  destruct (put_opt_ok i (co_semantic v) _ n Hi rm_semantic0) as (-> & L1 & V1), (put_opt_ok i (co_ul_style v) _ n Hi rm_ul_style0) as (-> & L2 & V2), (put_opt_ok i (co_ul_color v) _ n Hi rm_ul_color0) as (-> & L3 & V3).
  cbn [mbind result_bind]. eexists. split; [done|]. unfold shape, view, out_view, row_view. cbn [ar_chars ar_fg ar_bg ar_style ar_ul_style ar_ul_color ar_cell_semantic ar_row_semantic ar_dirty].
  rewrite L1, L2, L3, !lenZ_updateZ. split_and!; [done| |done]. intros j. rewrite V1, V2, V3, !lookupZ_stored by lia. by case_match.
Qed.
Lemma store_row_ok r d s a n m : room n m a -> 0 <= r < m ->
  exists a', store_row r d s a = Ok (tt, a') /\ shape a' = shape a /\ (forall j, view a' j = view a j) /\ (forall j, row_view a' j = if j =? r then row_out_view a (d, s) else row_view a j).
Proof.
  intros [] Hi. unfold store_row. rewrite !put_ok by lia. cbn [mbind result_bind]. destruct (put_opt_ok r s _ m Hi rm_row_semantic0) as (-> & L1 & V1).
  cbn [mbind result_bind]. eexists. split; [done|]. unfold shape, view, row_out_view, row_view. cbn. rewrite L1, !lenZ_updateZ. split_and!; [done|done|]. intros j. rewrite V1, !lookupZ_stored by lia. by case_match.
Qed.

(** ** Filling *)

Section fill.
(** What each cell and each row is to hold. *)
Context (cell_for : Z -> CellOut) (row_for : Z -> bool * Z) (n m : Z).

(** The cells from [lo] to [hi] and the rows from [rlo] to [rhi] are stored, and
    no others. *)
Record filled (lo hi rlo rhi : Z) (a a' : Arrays) : Prop := {
  fi_shape : shape a' = shape a;
  fi_cells : forall j, view a' j = if (lo <=? j) && (j <? hi) then out_view a (cell_for j) else view a j;
  fi_rows : forall j, row_view a' j = if (rlo <=? j) && (j <? rhi) then row_out_view a (row_for j) else row_view a j }.
Lemma filled_nil lo rlo a : filled lo lo rlo rlo a a.
Proof. split; [done|..]; intros j; by case_match; [lia|]. Qed.
Lemma filled_trans lo mid hi rlo rmid rhi a a1 a2 : lo <= mid <= hi -> rlo <= rmid <= rhi -> filled lo mid rlo rmid a a1 -> filled mid hi rmid rhi a1 a2 -> filled lo hi rlo rhi a a2.
Proof.
  intros Hl Hr [S1 C1 R1] [S2 C2 R2]. split; [congruence|..]; intros j.
  - rewrite C2, C1, (shape_out _ _ _ S1). repeat case_match; done || lia.
  - rewrite R2, R1, (shape_row_out _ _ _ S1). repeat case_match; done || lia.
Qed.

(** A program that fills. *)
Definition fills (lo hi rlo rhi : Z) (p : M Arrays unit) : Prop := forall a, room n m a -> exists a', p a = Ok (tt, a') /\ filled lo hi rlo rhi a a'.
Lemma fills_seq lo mid hi rlo rmid rhi p q : lo <= mid <= hi -> rlo <= rmid <= rhi -> fills lo mid rlo rmid p -> fills mid hi rmid rhi q -> fills lo hi rlo rhi (p ;; q).
Proof.
  intros Hl Hr Hp Hq a Ha. destruct (Hp a Ha) as (a1 & E1 & F1). destruct (Hq a1 (shape_room _ _ _ _ (fi_shape _ _ _ _ _ _ F1) Ha)) as (a2 & E2 & F2).
  exists a2. split; [by rewrite (M_bind_Ok _ _ _ _ _ E1)|by eapply filled_trans].
Qed.
Lemma fills_cell i rlo v : 0 <= i < n -> cell_for i = v -> fills i (i + 1) rlo rlo (store_cell i v).
Proof.
  intros Hi <- a Ha. destruct (store_cell_ok i (cell_for i) a n m Ha Hi) as (a' & E & S & C & R). exists a'. split; [done|]. split; [done|..]; intros j.
  - rewrite C. repeat case_match; try lia; [|done]. by replace j with i by lia.
  - rewrite R. case_match; [lia|done].
Qed.
Lemma fills_row r lo d s : 0 <= r < m -> row_for r = (d, s) -> fills lo lo r (r + 1) (store_row r d s).
Proof.
  intros Hi E0 a Ha. destruct (store_row_ok r d s a n m Ha Hi) as (a' & E & S & C & R). exists a'. split; [done|]. split; [done|..]; intros j.
  - rewrite C. case_match; [lia|done].
  - rewrite R. repeat case_match; try lia; [|done]. replace j with r by lia. by rewrite E0.
Qed.
(** A loop that fills, [cs] cells and [rs] rows at each round. *)
Lemma fills_loop lo rlo cs rs x y p : x <= y -> 0 <= cs -> 0 <= rs -> (forall z, x <= z < y -> fills (lo + (z - x) * cs) (lo + (z - x) * cs + cs) (rlo + (z - x) * rs) (rlo + (z - x) * rs + rs) (p z)) ->
  fills lo (lo + (y - x) * cs) rlo (rlo + (y - x) * rs) (for_range x y p).
Proof.
  intros Hxy Hcs Hrs Hp. unfold for_range.
  assert (H : forall k z, x <= z -> z + Z.of_nat k = y -> fills (lo + (z - x) * cs) (lo + (y - x) * cs) (rlo + (z - x) * rs) (rlo + (y - x) * rs) (for_n k z p)).
  { induction k as [|k IH]; intros z Hz Ek; cbn [for_n].
    - replace z with y by lia. intros a _. exists a. split; [done|apply filled_nil].
    - eapply (fills_seq _ (lo + (z - x) * cs + cs) _ _ (rlo + (z - x) * rs + rs)); [nia|nia|apply Hp; lia|].
      replace (lo + (z - x) * cs + cs) with (lo + (z + 1 - x) * cs) by lia. replace (rlo + (z - x) * rs + rs) with (rlo + (z + 1 - x) * rs) by lia. apply IH; lia. }
  pose proof (H (Z.to_nat (y - x)) x ltac:(lia) ltac:(lia)) as H0. by rewrite Z.sub_diag, !Z.mul_0_l, !Z.add_0_r in H0.
Qed.
End fill.

(** ** A cell *)

(** A cell whose code points fit the buffer, with an index of the palette. *)
Definition cell_ok (palette : list ColorRgb) (cell : RenderCell) : Prop :=
  lenZ (rc_graphemes cell) <= 4 /\ forall st i, rc_style cell = Some st -> st_underline_color st = UlPalette i -> 0 <= i < lenZ palette.

(** The attributes of a cell, in the order of their bits. *)
Definition attributes (cell : RenderCell) : list bool :=
  let styled (f : GStyle -> bool) := match rc_style cell with Some st => f st | None => false end in
  [styled st_bold; styled st_italic; styled (fun st => negb (st_underline st =? 0)); styled st_strikethrough; styled st_faint; styled st_inverse; styled st_blink; styled st_invisible;
   rc_selected cell; match rc_raw cell with Some (hyperlink, _) => hyperlink | None => false end].
Record shows_cell (palette : list ColorRgb) (default_fg default_bg : Z) (cell : RenderCell) (v : CellOut) : Prop := {
  sc_char : co_char v = match rc_graphemes cell with cp :: _ => if rc_buf_ok cell then (if cp <=? 0xFFFF then cp else 0x3F) else 0x20 | [] => 0x20 end;
  sc_fg : co_fg v = match rc_fg cell with Some c => argb c | None => default_fg end;
  sc_bg : co_bg v = match rc_bg cell with Some c => argb c | None => default_bg end;
  sc_style : forall i, 0 <= i -> Z.testbit (co_style v) i = nth (Z.to_nat i) (attributes cell) false;
  sc_ul_style : co_ul_style v = match rc_style cell with Some st => st_underline st | None => 0 end;
  sc_ul_color : match st_underline_color <$> rc_style cell with
                | Some (UlPalette i) => exists c, lookupZ palette i = Some c /\ co_ul_color v = argb c
                | Some (UlRgb c) => co_ul_color v = argb c
                | _ => co_ul_color v = 0 end;
  sc_semantic : co_semantic v = match rc_raw cell with Some (_, s) => s | None => OUTPUT end }.

Lemma testbit_bit b k flags i : 0 <= k -> 0 <= i -> Z.testbit (bit b k flags) i = Z.testbit flags i || (b && (i =? k)).
Proof.
  intros Hk Hi. unfold bit. destruct b; cbn [andb]; [|by rewrite orb_false_r]. rewrite Z.lor_spec, Z.shiftl_spec by done. f_equal. destruct (Z.eqb_spec i k) as [->|Hn]; [by rewrite Z.sub_diag|].
  destruct (Z.lt_ge_cases i k); [by apply Z.testbit_neg_r; lia|]. apply (Z.bits_above_log2 1); cbn; lia.
Qed.
Lemma small_cases (P : Z -> Prop) i : 0 <= i -> P 0 -> P 1 -> P 2 -> P 3 -> P 4 -> P 5 -> P 6 -> P 7 -> P 8 -> P 9 -> (forall j, 10 <= j -> P j) -> P i.
Proof. intros H. intros. destruct (Z.le_gt_cases 10 i); [auto|]. assert (i = 0 \/ i = 1 \/ i = 2 \/ i = 3 \/ i = 4 \/ i = 5 \/ i = 6 \/ i = 7 \/ i = 8 \/ i = 9) as Hi by lia. naive_solver. Qed.

Lemma flags_spec cell i : 0 <= i ->
  Z.testbit (match rc_raw cell with Some (h, _) => bit h 9 (bit (rc_selected cell) 8 (match rc_style cell with Some st => style_flags st | None => 0 end))
             | None => bit (rc_selected cell) 8 (match rc_style cell with Some st => style_flags st | None => 0 end) end) i = nth (Z.to_nat i) (attributes cell) false.
Proof.
  intros Hi. unfold attributes. destruct (rc_style cell) as [st|], (rc_raw cell) as [[h s]|]; unfold style_flags; rewrite ?testbit_bit, ?Z.bits_0 by lia;
    (apply (small_cases (fun i => _ = nth (Z.to_nat i) _ false) i Hi);
     [..|intros j Hj; rewrite nth_overflow by (cbn; lia); by rewrite !(proj2 (Z.eqb_neq j _)), !andb_false_r by lia]; cbn; by rewrite ?andb_true_r, ?andb_false_r, ?orb_false_r).
Qed.

Lemma cell_out_ok palette dfg dbg cell : cell_ok palette cell -> exists v, cell_out palette dfg dbg cell = Ok v /\ shows_cell palette dfg dbg cell v.
Proof.
  intros [Hg Hp]. unfold cell_out.
  assert (Hcp : base_codepoint cell = Ok (match rc_graphemes cell with cp :: _ => if rc_buf_ok cell then cp else 0x20 | [] => 0x20 end)).
  { unfold base_codepoint. destruct (rc_graphemes cell); [done|]. destruct (rc_buf_ok cell); [|done]. by rewrite decide_True. }
  rewrite Hcp. cbn [mbind result_bind]. clear Hcp. pose proof (flags_spec cell) as Hf.
  assert (Hul : exists c, (match rc_style cell with Some st => x ← underline_color palette st; Ok (style_flags st, st_underline st, x) | None => Ok (0, 0, 0) end : result fault (Z * Z * Z)) =
      Ok (match rc_style cell with Some st => style_flags st | None => 0 end, match rc_style cell with Some st => st_underline st | None => 0 end, c) /\
    match st_underline_color <$> rc_style cell with
    | Some (UlPalette i) => exists x, lookupZ palette i = Some x /\ c = argb x | Some (UlRgb x) => c = argb x | _ => c = 0 end).
  { destruct (rc_style cell) as [st|]; [|by exists 0]. unfold underline_color. cbn. destruct (st_underline_color st) as [|i|c] eqn:Ec; [by exists 0| |by exists (argb c)].
    destruct (lookupZ_lt palette i (Hp st i eq_refl Ec)) as [c E]. unfold index_. rewrite E. exists (argb c). split; [done|]. by exists c. }
  destruct Hul as (c & -> & Hc). cbn [mbind result_bind]. eexists. split; [done|]. split; cbn [co_char co_fg co_bg co_style co_ul_style co_ul_color co_semantic]; try done.
  destruct (rc_graphemes cell); [done|]. by destruct (rc_buf_ok cell).
Qed.

(** ** A screen *)

Section screen.
Context (cols rows : Z) (palette : list ColorRgb) (default_fg default_bg : Z) (screen : list RenderRow).
Hypothesis Hcols : 0 < cols.
Hypothesis Hcells : forall row cell, row ∈ screen -> cell ∈ rr_cells row -> cell_ok palette cell.

Definition cell_at (r c : Z) : option RenderCell := lookupZ screen r ≫= fun row => lookupZ (rr_cells row) c.
Definition value_of (o : option RenderCell) : CellOut :=
  match o with
  | Some cell => match cell_out palette default_fg default_bg cell with Ok v => v | Err _ => blank_out default_fg default_bg end
  | None => blank_out default_fg default_bg
  end.
Definition cell_for (i : Z) : CellOut := value_of (cell_at (i / cols) (i mod cols)).
Definition row_for (r : Z) : bool * Z := match lookupZ screen r with Some row => (rr_dirty row, default 0 (rr_prompt row)) | None => (false, 0) end.

Abbreviation fills' := (fills cell_for row_for (rows * cols) rows).

Lemma cell_for_at r c : 0 <= c < cols -> cell_for (r * cols + c) = value_of (cell_at r c).
Proof. intros Hc. unfold cell_for. replace (r * cols + c) with (c + r * cols) by lia. by rewrite Z.div_add, Z.mod_add, Z.div_small, Z.mod_small by lia. Qed.
Lemma cell_room r c : 0 <= r < rows -> 0 <= c < cols -> 0 <= r * cols + c < rows * cols.
Proof. nia. Qed.

Lemma blanks_fill r c rlo : 0 <= r < rows -> 0 <= c <= cols -> (forall c', c <= c' < cols -> cell_at r c' = None) ->
  fills' (r * cols + c) (r * cols + cols) rlo rlo (blanks cols default_fg default_bg r c).
Proof.
  intros Hr Hc Hn. replace (r * cols + cols) with (r * cols + c + (cols - c) * 1) by lia. replace rlo with (rlo + (cols - c) * 0) at 2 by lia. apply fills_loop; [lia..|].
  intros z Hz. replace (r * cols + c + (z - c) * 1) with (r * cols + z) by lia. replace (rlo + (z - c) * 0 + 0) with rlo by lia. replace (rlo + (z - c) * 0) with rlo by lia.
  apply fills_cell; [by apply cell_room; lia|]. rewrite cell_for_at by lia. by rewrite Hn by lia.
Qed.

Lemma cells_fill r rlo cells : forall c, 0 <= r < rows -> 0 <= c <= cols -> (forall k, 0 <= k -> cell_at r (c + k) = lookupZ cells k) -> Forall (cell_ok palette) cells ->
  fills' (r * cols + c) (r * cols + cols) rlo rlo (render_cells cols palette default_fg default_bg r c cells).
Proof.
  induction cells as [|cell rest IH]; intros c Hr Hc Hat Hok; cbn [render_cells].
  { apply blanks_fill; [done|done|]. intros c' Hc'. replace c' with (c + (c' - c)) by lia. rewrite Hat by lia. unfold lookupZ. by case_match. }
  destruct (Z.ltb_spec c cols) as [Hlt|Hge].
  2:{ replace c with cols by lia. apply blanks_fill; lia. }
  apply Forall_cons in Hok as [Hcell Hrest]. destruct (cell_out_ok palette default_fg default_bg cell Hcell) as (v & Ev & _). rewrite Ev.
  intros a Ha. rewrite (M_bind_Ok (lift (Ok v)) _ a v a) by done. revert a Ha. apply (fills_seq _ _ _ _ _ (r * cols + c + 1) _ _ rlo); [lia|lia| |].
  - apply fills_cell; [by apply cell_room; lia|]. rewrite cell_for_at by lia. pose proof (Hat 0 ltac:(lia)) as H0. rewrite Z.add_0_r in H0. rewrite H0. change (lookupZ (cell :: rest) 0) with (Some cell). unfold value_of. by rewrite Ev.
  - replace (r * cols + c + 1) with (r * cols + (c + 1)) by lia. apply IH; [done|lia| |done]. intros k Hk. replace (c + 1 + k) with (c + (k + 1)) by lia. rewrite Hat by lia. unfold lookupZ.
    rewrite !decide_True by lia. by replace (Z.to_nat (k + 1)) with (S (Z.to_nat k)) by lia.
Qed.

Lemma blank_rows_fill r : 0 <= r <= rows -> (forall r', r <= r' -> lookupZ screen r' = None) ->
  fills' (r * cols) (rows * cols) r rows (for_range r rows (blank_row cols default_fg default_bg)).
Proof.
  intros Hr Hn. pose proof (fills_loop cell_for row_for (rows * cols) rows (r * cols) r cols 1 r rows (blank_row cols default_fg default_bg)) as H.
  replace (r * cols + (rows - r) * cols) with (rows * cols) in H by lia. replace (r + (rows - r) * 1) with rows in H by lia. apply H; [lia..|]. clear H. intros z Hz.
  replace (r * cols + (z - r) * cols) with (z * cols) by lia. replace (r + (z - r) * 1) with z by lia.
  apply (fills_seq _ _ _ _ _ (z * cols) _ _ (z + 1)); [lia|lia|apply fills_row; [lia|]; unfold row_for; by rewrite Hn by lia|]. replace (z * cols) with (z * cols + 0) at 1 by lia. apply blanks_fill; [lia|lia|].
  intros c _. unfold cell_at. by rewrite Hn by lia.
Qed.

Lemma rows_fill l : forall r, 0 <= r <= rows -> (forall k, 0 <= k -> lookupZ screen (r + k) = lookupZ l k) -> (forall row, row ∈ l -> row ∈ screen) ->
  fills' (r * cols) (rows * cols) r rows (render_rows cols rows palette default_fg default_bg r l).
Proof.
  induction l as [|row rest IH]; intros r Hr Hat Hin; cbn [render_rows].
  { apply blank_rows_fill; [done|]. intros r' Hr'. replace r' with (r + (r' - r)) by lia. rewrite Hat by lia. unfold lookupZ. by case_match. }
  pose proof (Hat 0 ltac:(lia)) as H0. rewrite Z.add_0_r in H0. cbn in H0. destruct (Z.ltb_spec r rows) as [Hlt|Hge].
  2:{ replace r with rows by lia. intros a Ha. exists a. unfold for_range. rewrite Z.sub_diag. split; [done|]. apply filled_nil. }
  apply (fills_seq _ _ _ _ _ (r * cols) _ _ (r + 1)); [nia|lia|apply fills_row; [lia|]; unfold row_for; by rewrite H0|].
  apply (fills_seq _ _ _ _ _ (r * cols + cols) _ _ (r + 1)); [nia|lia| |].
  - replace (r * cols) with (r * cols + 0) at 1 by lia. apply cells_fill; [lia|lia| |].
    + intros k Hk. unfold cell_at. by rewrite H0.
    + apply Forall_forall. intros cell Hc. apply (Hcells row); [apply Hin, list_elem_of_here|done].
  - replace (r * cols + cols) with ((r + 1) * cols) by lia. apply IH; [lia| |intros x Hx; by apply Hin, list_elem_of_further]. intros k Hk. replace (r + 1 + k) with (r + (k + 1)) by lia. rewrite Hat by lia.
    unfold lookupZ. rewrite !decide_True by lia. by replace (Z.to_nat (k + 1)) with (S (Z.to_nat k)) by lia.
Qed.
End screen.

Lemma default_colors_differ c : (default_colors c).1 <> (default_colors c).2.
Proof. unfold default_colors. destruct (Z.eqb_spec (argb (rs_foreground c)) (argb (rs_background c))); [done|]. case_match; [done|]. done. Qed.

(** C17. A frame is drawn.  When the arrays have room for the screen and no cell has
    more than four code points, no store is outside the arrays; every cell of
    the screen has its character, its colours and exactly the bits of its
    attributes, and is a blank in the default colours where the library has
    none; every row has its dirty flag and prompt; what is after the screen stays
    as it was; the default colours differ, and the images are those of
    [update_kitty_graphics]. *)
Theorem frame_drawn st env cell_width cell_height quiet_ms graphics f a k kf k' :
  0 < rs_cols st -> 0 <= rs_rows st -> room (rs_rows st * rs_cols st) (rs_rows st) a ->
  (forall row cell, row ∈ rs_row_list st -> cell ∈ rr_cells row -> cell_ok (rs_palette (rs_colors st)) cell) ->
  update_kitty_graphics env cell_width cell_height quiet_ms graphics (fr_kitty f) k = Ok (kf, k') ->
  exists f' a', nativeUpdateRender false true st env cell_width cell_height quiet_ms graphics f a k = Ok ((true, f', a'), k') /\
    fr_kitty f' = kf /\ fr_cols f' = rs_cols st /\ fr_rows f' = rs_rows st /\ fr_defaultFgColor f' <> fr_defaultBgColor f' /\ shape a' = shape a /\
    (forall r c, 0 <= r < rs_rows st -> 0 <= c < rs_cols st -> exists v, view a' (r * rs_cols st + c) = out_view a v /\
       match cell_at (rs_row_list st) r c with
       | Some cell => shows_cell (rs_palette (rs_colors st)) (fr_defaultFgColor f') (fr_defaultBgColor f') cell v
       | None => v = blank_out (fr_defaultFgColor f') (fr_defaultBgColor f') end) /\
    (forall r, 0 <= r < rs_rows st -> row_view a' r = row_out_view a (row_for (rs_row_list st) r)) /\
    (forall i, rs_rows st * rs_cols st <= i -> view a' i = view a i) /\ (forall r, rs_rows st <= r -> row_view a' r = row_view a r).
Proof.
  intros Hc Hr Hroom Hcells Hk. unfold nativeUpdateRender. pose proof (default_colors_differ (rs_colors st)) as Hd. destruct (default_colors (rs_colors st)) as [fg bg]. destruct (default (0, 0) (rs_cursor_viewport st)) as [cx cy].
  destruct (rows_fill (rs_cols st) (rs_rows st) (rs_palette (rs_colors st)) fg bg (rs_row_list st) Hc Hcells (rs_row_list st) 0 ltac:(lia) ltac:(done) ltac:(done) a Hroom) as (a' & E & [Hs Hv Hrv]).
  rewrite E. cbn [negb mbind result_bind]. rewrite Hk. cbn [mbind result_bind]. eexists _, a'. split; [done|]. cbn [fr_kitty fr_cols fr_rows fr_defaultFgColor fr_defaultBgColor]. split_and!; try done.
  - intros r c Hr' Hc'. exists (value_of (rs_palette (rs_colors st)) fg bg (cell_at (rs_row_list st) r c)). pose proof (cell_room _ _ Hc r c Hr' Hc') as Hi. split.
    + rewrite Hv. rewrite (proj2 (Z.leb_le _ _)), (proj2 (Z.ltb_lt _ _)) by lia. by rewrite cell_for_at.
    + destruct (cell_at (rs_row_list st) r c) as [cell|] eqn:Ec; [|done]. unfold cell_at in Ec. apply bind_Some in Ec as (row & Er & Ec).
      destruct (cell_out_ok (rs_palette (rs_colors st)) fg bg cell) as (v & Ev & Hsh); [|unfold value_of; by rewrite Ev]. apply (Hcells row); [by apply lookupZ_elem in Er|by apply lookupZ_elem in Ec].
  - intros r Hr'. rewrite Hrv. by rewrite (proj2 (Z.leb_le _ _)), (proj2 (Z.ltb_lt _ _)) by lia.
  - intros i Hi. rewrite Hv. by rewrite (proj2 (Z.ltb_ge _ _)), andb_false_r by lia.
  - intros r Hr'. rewrite Hrv. by rewrite (proj2 (Z.ltb_ge _ _)), andb_false_r by lia.
Qed.

(** *** A small screen *)

Definition letter (cps : list Z) : RenderCell :=
  MkRenderCell cps true None (Some (MkRgb 1 2 3)) (Some (MkGStyle true false 3 false false true false false (UlPalette 1))) true (Some (true, 2)).
Definition small_screen (cps : list Z) : RenderState :=
  MkRenderState true 2 2 (Some (1, 0)) 0 true false (MkRenderColors (MkRgb 0 0 0) (MkRgb 0 0 0) None [MkRgb 0 0 0; MkRgb 255 0 0]) false 0 (2, 0, 2) [MkRenderRow true (Some 1) [letter cps]].
Definition small_arrays (n : nat) : Arrays := MkArrays (replicate n 7) (replicate n 7) (replicate n 7) (replicate n 7) (Some (replicate n 7)) (Some (replicate n 7)) None (Some [7; 7]) [7; 7].
Definition old_frame : RenderFrame := MkRenderFrame 0 0 0 0 0 false false 0 0 0 false false false 0 (0, 0, 0) [] empty_frame.

Lemma frame_drawn_witness : exists f' a', nativeUpdateRender false true (small_screen [0x41; 0x301]) plain_android 10 20 0 None old_frame (small_arrays 5) no_images = Ok ((true, f', a'), no_images) /\
  ar_chars a' = [0x41; 0x20; 0x20; 0x20; 7] /\ ar_style a' = [0x325; 0; 0; 0; 7] /\ ar_ul_color a' = Some [i32 0xFFFF0000; 0; 0; 0; 7] /\ ar_dirty a' = [1; 0] /\ fr_defaultFgColor f' = i32 0xFFE0E0E0.
Proof.
  destruct (frame_drawn (small_screen [0x41; 0x301]) plain_android 10 20 0 None old_frame (small_arrays 5) no_images empty_frame no_images) as (f' & a' & E & _); [done|done| | |done|].
  - by split; vm_compute.
  - intros row cell Hr Hc. apply list_elem_of_singleton in Hr as ->. apply list_elem_of_singleton in Hc as ->. split; [by vm_compute|]. by intros st i [= <-] [= <-].
  - exists f', a'. split; [done|]. revert E. vm_compute. by intros [= <- <-].
Defined.

(** A cell with seven code points, a family of four, overflows the buffer. *)
Example family_overflows :
  nativeUpdateRender false true (small_screen [0x1F468; 0x200D; 0x1F469; 0x200D; 0x1F467; 0x200D; 0x1F466]) plain_android 10 20 0 None old_frame (small_arrays 4) no_images = Err Undefined.
Proof. by vm_compute. Qed.
(** Arrays made for a smaller screen are written past their end. *)
Example arrays_too_short : nativeUpdateRender false true (small_screen [0x41]) plain_android 10 20 0 None old_frame (small_arrays 3) no_images = Err Undefined.
Proof. by vm_compute. Qed.
(** Nothing changes while the output is synchronized. *)
Example synchronized_output : nativeUpdateRender true true (small_screen [0x41]) plain_android 10 20 0 None old_frame (small_arrays 4) no_images = Ok ((false, old_frame, small_arrays 4), no_images).
Proof. done. Qed.
