(* ===== verification/BridgeInput.v ===== *)
(** * Keys, pastes and prompts (app/src/main/cpp/ghostty_jni.cpp)

    What the bridge writes to the pseudo-terminal for keys and pastes, where it
    scrolls for prompts, and the text it copies for the last command.  What the
    terminal library and the kernel answer is an argument. *)
From stdpp Require Import prelude list sorting.
From S2P Require Export Parser.

(** ** Keys *)

Definition GHOSTTY_KEY_BACKSPACE : Z := 53.
Definition GHOSTTY_MODS_CTRL : Z := 2.
Definition GHOSTTY_MODS_ALT : Z := 4.

(** [code] of a character with the control key; below 0 when it has none. *)
Definition control_code (c : Z) : Z :=
  if (0x40 <=? c) && (c <=? 0x5F) then c - 0x40
  else if (0x61 <=? c) && (c <=? 0x7A) then c - 0x61 + 1
  else if c =? 0x20 then 0
  else if c =? 0x3F then 127
  else if c =? 0x2F then 31
  else -1.

(** The octets written without the encoder for a single character. *)
Definition direct_key (mods c : Z) : option (list Z) :=
  let alt := negb (Z.land mods GHOSTTY_MODS_ALT =? 0) in
  let ctrl := negb (Z.land mods GHOSTTY_MODS_CTRL =? 0) in
  let code := if ctrl then control_code c else -1 in
  if (0 <=? code) || (alt && negb ctrl) then Some ((if alt then [0x1b] else []) ++ [if 0 <=? code then code else c]) else None.

(** What the encoder gave: absent when the session has none or it fails. *)
Definition nativeWriteKey (encoded : option (list Z)) (key mods : Z) (text : option (list Z)) : list Z :=
  if (key =? GHOSTTY_KEY_BACKSPACE) && (mods =? 0) then [0x7f] else
  let rest := match encoded with Some (_ :: _ as bs) => bs | _ => default [] text end in
  match text with
  | Some [c] => if negb (Z.land mods (Z.lor GHOSTTY_MODS_CTRL GHOSTTY_MODS_ALT) =? 0) then default rest (direct_key mods c) else rest
  | _ => rest
  end.

(** ** Octets of the Java side *)

(** The octets of an array that [nativeWritePty] and [nativeFeedVt] use. *)
Definition array_slice (data : list Z) (offset length : Z) : option (list Z) :=
  if length <=? 0 then None else
  if (offset <? 0) || (lenZ data <? length) || (lenZ data - length <? offset) then None else
  Some (take (Z.to_nat length) (drop (Z.to_nat offset) data)).

(** The answers of [write]. *)
Inductive wrote : Type := Interrupted | Failed | Wrote (n : Z).
#[export] Instance wrote_eq_dec : EqDecision wrote.
Proof. solve_decision. Defined.
(** The loop of [nativeWritePaste]: the octets the kernel took; [None] while it
    still waits for an answer. *)
Fixpoint paste_loop (answers : list wrote) (encoded : list Z) (offset : Z) (taken : list Z) : option (list Z) :=
  if offset <? lenZ encoded then
    match answers with
    | [] => None
    | Interrupted :: rest => paste_loop rest encoded offset taken
    | Failed :: _ => Some taken
    | Wrote n :: rest => if n <=? 0 then Some taken else paste_loop rest encoded (offset + n) (taken ++ take (Z.to_nat n) (drop (Z.to_nat offset) encoded))
    end
  else Some taken.
(** [encoded] is absent when the text cannot be encoded. *)
Definition nativeWritePaste (answers : list wrote) (encoded : option (list Z)) : option (list Z) :=
  match encoded with Some bs => paste_loop answers bs 0 [] | None => Some [] end.

(** ** The view of a selection *)

(** Row and visibility of an end of the selection at row [y] of the screen. *)
Definition selection_row (offset rows y : Z) : Z * bool :=
  let vp_y := y - offset in
  let rows := if 0 <? rows then rows else 1 in
  let visible := (0 <=? vp_y) && (vp_y <? rows) in
  (if visible then vp_y else if vp_y <? 0 then 0 else rows - 1, visible).
Definition nativeGetSelectionViewport (offset rows : Z) (start_ end_ : Z * Z) : list Z :=
  let '(y1, v1) := selection_row offset rows start_.2 in
  let '(y2, v2) := selection_row offset rows end_.2 in
  [start_.1; y1; end_.1; y2; Z.lor (if v1 then 1 else 0) (if v2 then 2 else 0)].

(** ** Prompts *)

Definition ROW_NONE : Z := 0.
Definition ROW_PROMPT : Z := 1.
Definition ROW_PROMPT_CONTINUATION : Z := 2.
Definition CELL_OUTPUT : Z := 0.

(** Cells: their semantic content and code points.  Rows: their prompt, when the
    library gives it, whether they continue the row above, and their cells. *)
Record GridCell : Type := MkGridCell { gc_semantic : Z; gc_graphemes : list Z }.
Record GridRow : Type := MkGridRow { gr_prompt : option Z; gr_continues : bool; gr_cell : Z -> option GridCell }.
Record Grid : Type := MkGrid { gd_total : Z; gd_alternate : bool; gd_row : Z -> option GridRow }.

Definition is_prompt (g : Grid) (y : Z) : bool := match gd_row g y with Some row => bool_decide (gr_prompt row = Some ROW_PROMPT) | None => false end.
Definition collectPromptRows (g : Grid) : list Z := if gd_total g =? 0 then [] else if gd_alternate g then [] else filter (fun y => is_prompt g y = true) (seqZ 0 (gd_total g)).

(** The row to scroll to; [None] when nothing happens. *)
Definition previous_prompt (prompts : list Z) (cur_top : Z) : option Z :=
  match prompts with
  | [] => None
  | first :: _ =>
      match find (fun p => p <? cur_top) (rev prompts) with
      | Some p => Some p
      | None => if 2 <=? lenZ prompts then lookupZ prompts (lenZ prompts - 2) else if 0 <? cur_top then Some first else None
      end
  end.
Definition next_prompt (prompts : list Z) (cur_top : Z) : option Z := find (fun p => cur_top <? p) prompts.
Definition nativeScrollToPreviousPrompt (g : Grid) (cur_top : Z) : option Z := previous_prompt (collectPromptRows g) cur_top.
Definition nativeScrollToNextPrompt (g : Grid) (cur_top : Z) : option Z := next_prompt (collectPromptRows g) cur_top.

(** ** The output of the last command *)

(** The octets of a cell; the buffer has four elements. *)
Definition encode_cp (cp : Z) : list Z :=
  if cp <? 0x80 then [cp]
  else if cp <? 0x800 then [Z.lor 0xC0 (Z.shiftr cp 6); Z.lor 0x80 (Z.land cp 0x3F)]
  else if cp <? 0x10000 then [Z.lor 0xE0 (Z.shiftr cp 12); Z.lor 0x80 (Z.land (Z.shiftr cp 6) 0x3F); Z.lor 0x80 (Z.land cp 0x3F)]
  else [0x3F].
Definition cell_text (cell : GridCell) : list Z :=
  if negb (gc_semantic cell =? CELL_OUTPUT) then [] else
  match gc_graphemes cell with
  | [] => [0x20]
  | cp :: marks => if lenZ (gc_graphemes cell) <=? 4 then encode_cp cp ++ filter (fun c => c < 0x80) marks else [0x20]
  end.
(** Without the spaces at the end. *)
Fixpoint trim_end (l : list Z) : list Z :=
  match l with
  | [] => []
  | c :: l' => match trim_end l' with [] => if c =? 0x20 then [] else [c] | t => c :: t end
  end.
Definition row_text (cols : Z) (row : GridRow) : list Z := trim_end (mjoin ((fun x => match gr_cell row x with Some cell => cell_text cell | None => [] end) <$> seqZ 0 cols)).

(** The last row of the prompt at [y - 1], below [stop]. *)
Fixpoint prompt_end (g : Grid) (fuel : nat) (y stop last : Z) : Z :=
  match fuel with
  | O => last
  | S fuel' =>
      if (y <? gd_total g) && (y <? stop) then
        match gd_row g y with
        | Some row => if bool_decide (gr_prompt row = Some ROW_PROMPT_CONTINUATION) then prompt_end g fuel' (y + 1) stop y else last
        | None => last
        end
      else last
  end.

Definition append_row (cols : Z) (result : list Z) (o : option GridRow) : list Z :=
  match o with
  | None => result
  | Some row =>
      if negb (default ROW_NONE (gr_prompt row) =? ROW_NONE) then result else
      match row_text cols row with
      | [] => result
      | line => (if negb (bool_decide (result = [])) && negb (gr_continues row) then result ++ [0x0a] else result) ++ line
      end
  end.

(** The rows of the output, first and last. *)
Definition output_range (g : Grid) : option (Z * Z) :=
  let prompts := collectPromptRows g in
  match lookupZ prompts (lenZ prompts - 2), lookupZ prompts (lenZ prompts - 1) with
  | Some start, Some stop =>
      let first := prompt_end g (Z.to_nat (gd_total g)) (start + 1) stop start + 1 in
      let last := if 0 <? stop then stop - 1 else 0 in
      if (last <? first) || (gd_total g <=? first) then None else Some (first, last)
  | _, _ => None
  end.
(** [formatted] is the text of the library for the same rows, used when there is
    none; the octets go to a Java string. *)
Definition nativeGetLastCommandOutput (g : Grid) (cols : Z) (formatted : Z -> Z -> list Z) : list Z :=
  match output_range g with
  | None => []
  | Some (first, last) =>
      match fold_left (append_row cols) (gd_row g <$> seqZ first (Z.min last (gd_total g - 1) - first + 1)) [] with
      | [] => formatted first last
      | result => result
      end
  end.

(** ** What is written *)

(** With the control key a letter, in either case, and the characters from [@] to
    [_] give their control character, the five low bits; the escape character
    comes first with the alternate key too. *)
Theorem control_keys encoded key mods c : 0x40 <= c <= 0x5F \/ 0x61 <= c <= 0x7A -> Z.testbit mods 1 = true ->
  nativeWriteKey encoded key mods (Some [c]) = (if Z.testbit mods 2 then [0x1b] else []) ++ [Z.land c 0x1F].
Proof.
  intros Hc Hm. assert (Hbit : forall k, 0 <= k -> negb (Z.land mods (2 ^ k) =? 0) = Z.testbit mods k).
  { intros k Hk. destruct (Z.testbit mods k) eqn:Eb.
    - apply negb_true_iff, Z.eqb_neq. intros E. apply (f_equal (fun z => Z.testbit z k)) in E. rewrite Z.land_spec, Eb, Z.pow2_bits_true, Z.bits_0 in E; done.
    - apply negb_false_iff, Z.eqb_eq. apply Z.bits_inj'. intros i Hi. rewrite Z.land_spec, Z.bits_0, Z.pow2_bits_eqb by done. destruct (Z.eqb_spec k i) as [->|]; [by rewrite Eb|by rewrite andb_false_r]. }
  assert (Hm0 : mods <> 0) by (intros ->; done). unfold nativeWriteKey, direct_key, GHOSTTY_MODS_ALT, GHOSTTY_MODS_CTRL. rewrite (proj2 (Z.eqb_neq mods 0)), andb_false_r by done.
  change 4 with (2 ^ 2). change (negb (Z.land mods 2 =? 0)) with (negb (Z.land mods (2 ^ 1) =? 0)). rewrite !Hbit, Hm by lia.
  assert (Hany : negb (Z.land mods (Z.lor 2 (2 ^ 2)) =? 0) = true).
  { apply negb_true_iff, Z.eqb_neq. intros E. apply (f_equal (fun z => Z.testbit z 1)) in E. rewrite Z.land_spec, Hm in E. done. }
  rewrite Hany. assert (Hcode : 0 <= control_code c /\ control_code c = Z.land c 0x1F).
  { assert (H : (if ((0x40 <=? c) && (c <=? 0x5F)) || ((0x61 <=? c) && (c <=? 0x7A)) then (0 <=? control_code c) && (control_code c =? Z.land c 0x1F) else true) = true).
    { apply (forall_range (fun c => if ((0x40 <=? c) && (c <=? 0x5F)) || ((0x61 <=? c) && (c <=? 0x7A)) then (0 <=? control_code c) && (control_code c =? Z.land c 0x1F) else true) 128); [by vm_compute|lia]. }
    case_match; lia. }
  destruct Hcode as [H0 <-]. by rewrite (proj2 (Z.leb_le _ _)) by done.
Qed.

(** Answers of a kernel that takes no more than it is offered. *)
Fixpoint honest (answers : list wrote) (left : Z) : Prop :=
  match answers with
  | [] => True
  | Wrote n :: rest => n <= left /\ honest rest (left - n)
  | _ :: rest => honest rest left
  end.
Definition gives_up (a : wrote) : bool := match a with Failed => true | Wrote n => n <=? 0 | Interrupted => false end.

(** Every answer but an interruption counts. *)
Definition answered (answers : list wrote) : Z := lenZ (filter (fun a => a <> Interrupted) answers).
Lemma answered_cons a l : answered (a :: l) = (if bool_decide (a = Interrupted) then 0 else 1) + answered l.
Proof. unfold answered. rewrite filter_cons. case_decide; case_bool_decide; try done. unfold lenZ. cbn [length]. lia. Qed.

Lemma paste_loop_ok encoded answers : forall offset, 0 <= offset <= lenZ encoded -> honest answers (lenZ encoded - offset) ->
  match paste_loop answers encoded offset (take (Z.to_nat offset) encoded) with
  | Some t => (exists n, t = take n encoded) /\ (t = encoded \/ existsb gives_up answers = true)
  | None => answered answers < lenZ encoded - offset /\ existsb gives_up answers = false
  end.
Proof.
  assert (Hend : take (Z.to_nat (lenZ encoded)) encoded = encoded) by (unfold lenZ; rewrite Nat2Z.id; apply firstn_all).
  induction answers as [|a rest IH]; intros offset Ho Hh; cbn [paste_loop].
  - destruct (Z.ltb_spec offset (lenZ encoded)); [split; [change (answered []) with 0; lia|done]|]. replace offset with (lenZ encoded) by lia. rewrite Hend. split; [by exists (length encoded); rewrite firstn_all|by left].
  - destruct (Z.ltb_spec offset (lenZ encoded)) as [Hlt|Hge].
    2:{ replace offset with (lenZ encoded) by lia. rewrite Hend. split; [by exists (length encoded); rewrite firstn_all|by left]. }
    rewrite answered_cons. destruct a as [| |n]; cbn [existsb gives_up orb] in *.
    + rewrite bool_decide_eq_true_2 by done. rewrite Z.add_0_l. by apply IH.
    + split; [by eexists|by right].
    + destruct Hh as [Hn Hh]. rewrite bool_decide_eq_false_2 by done. destruct (Z.leb_spec n 0) as [Hz|Hp]; [split; [by eexists|by right]|].
      replace (take (Z.to_nat offset) encoded ++ take (Z.to_nat n) (drop (Z.to_nat offset) encoded)) with (take (Z.to_nat (offset + n)) encoded).
      2:{ rewrite Z2Nat.inj_add by lia. by rewrite take_take_drop. }
      pose proof (IH (offset + n) ltac:(lia)) as H. replace (lenZ encoded - (offset + n)) with (lenZ encoded - offset - n) in H by lia. specialize (H Hh). case_match; [done|]. split; [lia|by destruct H].
Qed.

(** A paste is written.  The kernel takes a prefix of the encoded text, and all of
    it unless a write fails or takes nothing; the loop ends when there were as
    many answers as octets, interruptions not counted. *)
Theorem paste_written answers encoded : honest answers (lenZ encoded) ->
  match nativeWritePaste answers (Some encoded) with
  | Some t => (exists n, t = take n encoded) /\ (t = encoded \/ existsb gives_up answers = true)
  | None => answered answers < lenZ encoded /\ existsb gives_up answers = false
  end.
Proof. intros H. pose proof (paste_loop_ok encoded answers 0) as P. rewrite Z.sub_0_r in P. apply P; [pose proof (lenZ_nonneg encoded); lia|done]. Qed.

(** The rows of a selection are rows of the view, and the flags say which ends
    were in it. *)
Lemma selection_row_ok offset rows y : 0 < rows -> 0 <= (selection_row offset rows y).1 < rows /\ ((selection_row offset rows y).2 = true <-> offset <= y < offset + rows) /\
  ((selection_row offset rows y).2 = true -> (selection_row offset rows y).1 = y - offset).
Proof. intros H. unfold selection_row. rewrite (proj2 (Z.ltb_lt 0 rows)) by done. cbn. repeat case_match; lia. Qed.

(** ** Where prompts are *)

Lemma prompts_spec g p : p ∈ collectPromptRows g <-> gd_alternate g = false /\ 0 <= p < gd_total g /\ is_prompt g p = true.
Proof.
  unfold collectPromptRows. destruct (Z.eqb_spec (gd_total g) 0) as [E|E]; [split; [by intros ?%elem_of_nil|lia]|]. destruct (gd_alternate g); [split; [by intros ?%elem_of_nil|by intros [? _]]|].
  rewrite list_elem_of_filter, elem_of_seqZ. split; [intros [? ?]|intros (_ & ? & ?)]; split_and?; try done; lia.
Qed.
Lemma seqZ_sorted m n : StronglySorted Z.lt (seqZ m n).
Proof.
  assert (H : forall k a, StronglySorted Z.lt ((fun i => Z.of_nat i + m) <$> seq a k)).
  { induction k as [|k IH]; intros a; cbn; constructor; [apply IH|]. apply Forall_fmap, Forall_forall. intros x Hx%elem_of_seq. cbn. lia. }
  apply H.
Qed.
Lemma filter_sorted (P : Z -> Prop) `{!forall x, Decision (P x)} l : StronglySorted Z.lt l -> StronglySorted Z.lt (filter P l).
Proof. induction 1 as [|x l Hl IH Hx]; [constructor|]. rewrite filter_cons. case_decide; [|done]. constructor; [done|]. apply Forall_forall. intros y [_ Hy]%list_elem_of_filter. by eapply Forall_forall in Hx. Qed.
Lemma prompts_sorted g : StronglySorted Z.lt (collectPromptRows g).
Proof. unfold collectPromptRows. repeat case_match; [constructor..|]. apply filter_sorted, seqZ_sorted. Qed.

(** The first of an ascending list, and the last, with a property. *)
Lemma find_least P l p : StronglySorted Z.lt l -> find P l = Some p -> p ∈ l /\ P p = true /\ forall q, q ∈ l -> P q = true -> p <= q.
Proof.
  induction 1 as [|x l Hl IH Hx]; cbn; [done|]. destruct (P x) eqn:Ex.
  - intros [= <-]. split_and!; [apply list_elem_of_here|done|]. intros q [->|Hq]%elem_of_cons _; [lia|]. eapply Forall_forall in Hx; [|done]. lia.
  - intros E. destruct (IH E) as (H1 & H2 & H3). split_and!; [by apply list_elem_of_further|done|]. intros q [->|Hq]%elem_of_cons Hp; [congruence|by apply H3].
Qed.
Lemma find_exists P (l : list Z) p : p ∈ l -> P p = true -> exists q, find P l = Some q.
Proof. induction 1 as [x l|x y l _ IH]; cbn; intros Hp; [rewrite Hp; by eexists|]. destruct (P y); [by eexists|by apply IH]. Qed.
Lemma find_greatest P l p : StronglySorted Z.lt l -> find P (rev l) = Some p -> p ∈ l /\ P p = true /\ forall q, q ∈ l -> P q = true -> q <= p.
Proof.
  induction l as [|x l IH] using rev_ind; [done|]. intros Hs. apply StronglySorted_app in Hs as (Hlx & Hl & _). rewrite rev_app_distr. cbn. destruct (P x) eqn:Ex.
  - intros [= <-]. split_and!; [apply elem_of_app; right; apply list_elem_of_here|done|]. intros q [Hq| ->%list_elem_of_singleton]%elem_of_app _; [|lia]. pose proof (Hlx q x Hq ltac:(apply list_elem_of_here)). lia.
  - intros E. destruct (IH Hl E) as (H1 & H2 & H3). split_and!; [apply elem_of_app; by left|done|]. intros q [Hq| ->%list_elem_of_singleton]%elem_of_app Hp; [by apply H3|congruence].
Qed.

(** Prompts are found.  Down: the first prompt below the top of the view, and
    nothing when there is none.  Up: the last prompt above the top, when there is
    one.  From a prompt, down and then up comes back to it. *)
Theorem prompt_navigation g top :
  match nativeScrollToNextPrompt g top with
  | Some p => p ∈ collectPromptRows g /\ top < p /\ (forall q, q ∈ collectPromptRows g -> top < q -> p <= q) /\ (top ∈ collectPromptRows g -> nativeScrollToPreviousPrompt g p = Some top)
  | None => forall q, q ∈ collectPromptRows g -> q <= top
  end /\
  ((exists q, q ∈ collectPromptRows g /\ q < top) -> exists p, nativeScrollToPreviousPrompt g top = Some p /\ p ∈ collectPromptRows g /\ p < top /\ forall q, q ∈ collectPromptRows g -> q < top -> q <= p).
Proof.
  pose proof (prompts_sorted g) as Hs. unfold nativeScrollToNextPrompt, nativeScrollToPreviousPrompt. set (ps := collectPromptRows g) in *.
  assert (Hprev : forall t, (exists q, q ∈ ps /\ q < t) -> exists p, previous_prompt ps t = Some p /\ p ∈ ps /\ p < t /\ forall q, q ∈ ps -> q < t -> q <= p).
  { intros t (q & Hq & Hlt). destruct (find_exists (fun p => p <? t) (rev ps) q) as [p E]; [by apply list_elem_of_In, in_rev; rewrite rev_involutive; apply list_elem_of_In|lia|].
    destruct (find_greatest _ _ _ Hs E) as (H1 & H2 & H3). exists p. split_and!; [|done|lia|intros q' Hq' Hl; apply H3; [done|lia]]. unfold previous_prompt. destruct ps; [by apply elem_of_nil in Hq|]. by rewrite E. }
  split; [|apply Hprev]. unfold next_prompt. destruct (find _ ps) as [p|] eqn:E.
  - destruct (find_least _ _ _ Hs E) as (H1 & H2 & H3). split_and!; [done|lia|intros q Hq Hl; apply H3; [done|lia]|]. intros Ht.
    destruct (Hprev p) as (p' & E' & I1 & I2 & I3); [exists top; split; [done|lia]|]. rewrite E'. f_equal. pose proof (I3 top Ht ltac:(lia)). destruct (Z.lt_ge_cases top p') as [Hl|]; [|lia]. pose proof (H3 p' I1 ltac:(lia)). lia.
  - intros q Hq. destruct (Z.le_gt_cases q top); [done|]. destruct (find_exists (fun p => top <? p) ps q Hq (proj2 (Z.ltb_lt top q) ltac:(lia))) as [p E2]. by rewrite E2 in E.
Qed.

(** ** The rows of the last output *)

(** Characters of the basic plane are encoded as the C library does. *)
Lemma lor_below a n z : forallb (fun q => Z.lor a q =? a + q) (seqZ 0 n) = true -> 0 <= z < n -> Z.lor a z = a + z.
Proof. intros H Hz. apply Z.eqb_eq. by apply (forall_range (fun q => Z.lor a q =? a + q) n H). Qed.
Lemma encode_cp_utf8 c : is_scalar c = true -> c < 0x10000 -> wcrtomb c = Some (encode_cp c).
Proof.
  intros Hs Hc. assert (H0 : 0 <= c) by (unfold is_scalar in Hs; lia). unfold wcrtomb, encode_cp. rewrite Hs. cbn [negb].
  rewrite !Z.shiftr_div_pow2 by lia. change 0x3F with (Z.ones 6). rewrite !Z.land_ones by lia. change (2 ^ 6) with 64. change (2 ^ 12) with 4096.
  assert (H80 : forall z, Z.lor 0x80 (z mod 64) = 0x80 + z mod 64) by (intros z; apply (lor_below 0x80 64); [done|apply Z.mod_pos_bound; lia]). rewrite !H80.
  destruct (Z.ltb_spec c 0x80); [done|]. destruct (Z.ltb_spec c 0x800).
  - by rewrite (lor_below 0xC0 32) by (done || (split; [apply Z.div_pos; lia|apply Z.div_lt_upper_bound; lia])).
  - rewrite (proj2 (Z.ltb_lt c 0x10000)) by done. by rewrite (lor_below 0xE0 16) by (done || (split; [apply Z.div_pos; lia|apply Z.div_lt_upper_bound; lia])).
Qed.
Lemma encode_cps_utf8 cs : Forall (fun c => is_scalar c = true /\ c < 0x10000) cs -> mjoin (encode_cp <$> cs) = encode cs.
Proof. unfold encode. induction 1 as [|c cs [Hs Hc] _ IH]; [done|]. rewrite !fmap_cons. change (encode_cp c ++ mjoin (encode_cp <$> cs) = default [] (wcrtomb c) ++ mjoin ((fun c => default [] (wcrtomb c)) <$> cs)). by rewrite (encode_cp_utf8 c Hs Hc), IH. Qed.

Definition continues_prompt (g : Grid) (y : Z) : Prop := exists row, gd_row g y = Some row /\ gr_prompt row = Some ROW_PROMPT_CONTINUATION.

Lemma prompt_end_ok g stop fuel : forall y last, last = y - 1 -> last < stop ->
  let e := prompt_end g fuel y stop last in
  last <= e < stop /\ (forall z, last < z <= e -> continues_prompt g z) /\ (gd_total g - y < Z.of_nat fuel -> e + 1 < stop -> e + 1 < gd_total g -> ~ continues_prompt g (e + 1)).
Proof.
  induction fuel as [|fuel IH]; intros y last -> Hs; cbn [prompt_end]; [split_and!; lia|].
  destruct ((y <? gd_total g) && (y <? stop)) eqn:Ey; [|split_and!; lia].
  assert (Hno : ~ continues_prompt g y -> let e := y - 1 in y - 1 <= e < stop /\ (forall z, y - 1 < z <= e -> continues_prompt g z) /\
    (gd_total g - y < Z.of_nat (S fuel) -> e + 1 < stop -> e + 1 < gd_total g -> ~ continues_prompt g (e + 1))).
  { intros Hn. cbn. split_and!; [lia..|]. intros _ _ _. by replace (y - 1 + 1) with y by lia. }
  destruct (gd_row g y) as [row|] eqn:Er; [|apply Hno; intros (row & E & _); congruence]. case_bool_decide as Ec; [|apply Hno; intros (row' & E & E'); congruence].
  destruct (IH (y + 1) y ltac:(lia) ltac:(lia)) as (H1 & H2 & H3). cbn. split_and!; [lia|lia| |intros Hf; apply H3; lia].
  intros z Hz. destruct (decide (z = y)) as [->|]; [by exists row|apply H2; lia].
Qed.

Lemma last_two (l : list Z) a b : lookupZ l (lenZ l - 2) = Some a -> lookupZ l (lenZ l - 1) = Some b -> exists pre, l = pre ++ [a; b].
Proof.
  intros Ha Hb. pose proof (lookupZ_Some_lt _ _ _ Ha) as Hl. unfold lenZ in Hl. destruct l as [|b' l _] using rev_ind; [cbn in Hl; lia|]. destruct l as [|a' l _] using rev_ind; [cbn in Hl; lia|].
  exists l. revert Ha Hb. rewrite !lenZ_app. change (lenZ [a']) with 1. change (lenZ [b']) with 1. rewrite <- app_assoc. cbn [app]. pose proof (lenZ_nonneg l).
  rewrite !lookupZ_app_r by lia. replace (lenZ l + 1 + 1 - 2 - lenZ l) with 0 by lia. replace (lenZ l + 1 + 1 - 1 - lenZ l) with 1 by lia. by intros [= ->] [= ->].
Qed.

(** The rows copied for the last command are those after the last prompt but one,
    its continuation rows left out, and before the last prompt; none of them is a
    prompt. *)
Theorem last_output_rows g first last : 0 <= gd_total g -> output_range g = Some (first, last) ->
  exists pre start stop, collectPromptRows g = pre ++ [start; stop] /\ start < first <= last /\ last = stop - 1 /\ first < gd_total g /\
    (forall y, start < y < first -> continues_prompt g y) /\ ~ continues_prompt g first /\ (forall y, first <= y <= last -> is_prompt g y = false).
Proof.
  intros H0. unfold output_range. destruct (lookupZ (collectPromptRows g) (lenZ (collectPromptRows g) - 2)) as [start|] eqn:Ea; [|done]. destruct (lookupZ _ (lenZ (collectPromptRows g) - 1)) as [stop|] eqn:Eb; [|done].
  destruct (last_two _ _ _ Ea Eb) as [pre Hps]. pose proof (prompts_sorted g) as Hs. rewrite Hps in Hs. apply StronglySorted_app in Hs as (Hpre & _ & Hs2).
  assert (Hlt : start < stop) by (apply StronglySorted_inv in Hs2 as [_ Hf]; by apply Forall_cons in Hf as [? _]).
  assert (Hin : forall p, p ∈ [start; stop] -> gd_alternate g = false /\ 0 <= p < gd_total g /\ is_prompt g p = true) by (intros p Hp; apply prompts_spec; rewrite Hps; apply elem_of_app; by right).
  destruct (Hin start ltac:(apply list_elem_of_here)) as (Halt & Hr & _), (Hin stop ltac:(apply list_elem_of_further, list_elem_of_here)) as (_ & Hr2 & _).
  destruct (prompt_end_ok g stop (Z.to_nat (gd_total g)) (start + 1) start ltac:(lia) Hlt) as (H1 & H2 & H3). cbn zeta in *. set (e := prompt_end _ _ _ _ _) in *.
  rewrite (proj2 (Z.ltb_lt 0 stop)) by lia. destruct ((stop - 1 <? e + 1) || (gd_total g <=? e + 1)) eqn:Ec; [done|]. intros [= <- <-].
  exists pre, start, stop. split_and!; [done|lia|lia|done|lia|intros y Hy; apply H2; lia|apply H3; lia|]. intros y Hy. destruct (is_prompt g y) eqn:Ep; [|done].
  assert (Hy' : y ∈ collectPromptRows g) by (apply prompts_spec; split_and!; [done|lia|lia|done]). rewrite Hps in Hy'. apply elem_of_app in Hy' as [Hy'|Hy'].
  - pose proof (Hpre y start Hy' ltac:(apply list_elem_of_here)). lia.
  - repeat (apply elem_of_cons in Hy' as [Hy'|Hy']; [lia|]). by apply elem_of_nil in Hy'.
Qed.

(** *** A screen with two prompts *)

Definition text_row (prompt : Z) (text : list Z) : GridRow := MkGridRow (Some prompt) false (fun x => (fun c => MkGridCell CELL_OUTPUT [c]) <$> lookupZ text x).
Definition sample_grid : Grid := MkGrid 6 false (fun y => lookupZ [text_row ROW_PROMPT [0x24]; text_row ROW_PROMPT_CONTINUATION [0x3e]; text_row ROW_NONE [0x61; 0x20]; text_row ROW_NONE [0x20];
  text_row ROW_NONE [0xE9]; text_row ROW_PROMPT [0x24]] y).
Example sample_prompts : collectPromptRows sample_grid = [0; 5] /\ output_range sample_grid = Some (2, 4) /\ nativeGetLastCommandOutput sample_grid 4 (fun _ _ => []) = [0x61; 0x0a; 0xC3; 0xA9].
Proof. by vm_compute. Qed.
(** With no prompt above the view the previous prompt is the last but one, which
    may be below. *)
Example previous_goes_down : nativeScrollToPreviousPrompt (MkGrid 9 false (fun y => Some (text_row (if 5 <=? y then ROW_PROMPT else ROW_NONE) []))) 2 = Some 7.
Proof. by vm_compute. Qed.
(** A write of part of the text, an interruption and a write of the rest. *)
Example sample_paste : nativeWritePaste [Wrote 2; Interrupted; Wrote 1] (Some [1; 2; 3]) = Some [1; 2; 3].
Proof. done. Qed.
